(* ===== verification/_CoqProject ===== *)
-Q . S2P
Prelude.v
Custr.v
Strpath.v
Strlist.v
Cnum.v
Parser.v
Manifest.v
Avl.v
Strset.v
Dynstr.v
Base64.v
Crc32.v
Sys.v
Reqid.v
Plat.v
Proto.v
Nvlist.v
Json.v
JsonSpec.v
JsonPrint.v
JsonMachine.v
Mdata.v
Docker.v
DockerEnv.v
DockerExec.v
NvOut.v
Fswatcher.v
FswatcherEnv.v
FswatcherSpec.v
FswatcherSys.v
Builder.v
Tools.v
Run.v
Mancheck.v
MancheckConf.v
MancheckSpec.v
Mancf.v
MancfSpec.v
Tzcheck.v
TzcheckSpec.v
Ucodecheck.v
UcodecheckSpec.v
Vmunbundle.v
VmunbundleSpec.v
NvRead.v
Dockerinit.v
DockerinitAttach.v
DockerinitFd.v
Moves.v
NvStore.v
DockerexecRun.v
NvDoc.v
Calls.v
DockerinitNet.v
LxHook.v
Routeinfo.v
Sysevent.v
Threads.v
SyseventRun.v
OnTty.v
QemuExec.v
Measure.v
MeasureSpec.v
FormatImage.v
FormatImageSpec.v
