(* ===== verification/Prelude.v ===== *)
(** * A verification development for the C programs of SmartOS live

    The repository builds the SmartOS platform image.  Its own C code is a set of small programs
    and the libraries they share.  This development models the libraries and the programs that
    carry logic, function by function, and proves what they compute: on every branch, errors
    included, with the integers at their width and the allocator allowed to fail.

    ** The parts, and the files that model them

    - [Prelude] (this file): characters and C strings, machine integers ([u32], [i32], [u64],
      [sz]), the two data models of the platform ([ILP32], [LP64]), and the monad [C] of a C
      computation over a [world] with its weakest preconditions [wp].
    - The libraries of [src/src/common/strings] and [src/tools/common].  [Custr]: growable strings
      ([custr.c]).  [Strlist]: arrays of strings ([strlist.c]).  [Strpath]: joining paths
      ([strpath.c]), on [Custr].  [Parser]: cutting lines into fields and words ([parser.c]), on
      [Custr] and [Strlist].  [Manifest]: build manifests ([manifest.c], [common.c]), on [Parser].
      [Strset]: ordered sets ([strset.c]), on the interface [Avl] of libavl.  [Cnum]: the number
      conversions of the C library.
    - The metadata client, [src/src/dockerinit/mdata-client].  [Dynstr], [Base64], [Crc32] and
      [Reqid] are the files of those names.  [Plat]: the transports ([plat/sunos.c],
      [plat/linux.c], [plat/unix_common.c]) over the [Kernel] of [Sys], behind the interface
      [Platform] of [plat.h].  [Proto]: the protocol ([proto.c]), written against [Platform] and
      [Ident].  [Mdata]: the commands [mdata_get.c], [mdata_put.c], [mdata_delete.c] and
      [mdata_list.c], a module each, and the access to the metadata other programs have
      ([Metadata]).
    - The JSON parser of [src/src/dockerinit/json-nvlist].  [Nvlist]: the interface of libnvpair.
      [Json]: the state machine of [json-nvlist.c].  [JsonSpec]: a recursive descent parser, its
      specification.  [JsonPrint]: documents and their printed form.  [JsonMachine]: the machine
      computes the specification.
    - [dockerinit] and [dockerexec], [src/src/dockerinit/src].  [Docker]: [docker-common.c] and
      [dockerexec.c].  [DockerEnv]: what the environment and the command line are.  [DockerExec]:
      which executable, user and group are chosen.  [DockerexecRun]: [dockerexec] as a whole, up to
      the program it starts and its credentials.  [Dockerinit]: [dockerinit.c], the init of a
      container.  [DockerinitAttach]: its wait for an attach.  [DockerinitFd]: the descriptors of
      the command and of the logger.  [DockerinitNet]: the network, from the metadata to the calls
      of libipadm and of the routing socket, over the interface [NvRead] of libnvpair ([NvStore]
      implements it), the frame logic of [Moves] and the log of calls of [Calls]; [NvDoc]: what
      libnvpair reads of a document.
    - Two programs on the same libraries.  [LxHook]: [lx_hook_postnet/main.c], which mounts the NFS
      volumes of an LX zone.  [Routeinfo]: [routeinfo/main.c], which prints the static routes.
    - The event listener, [src/src/sysevent.c].  [Sysevent]: what each of its threads does.
      [Threads]: threads that share a mutex and an output, as a step relation.  [SyseventRun]: the
      main thread and the handlers together.
    - Programs that start others.  [OnTty]: [smartdc/lib/sdc-on-tty.c], a command on each of several
      terminals.  [QemuExec]: [smartdc/bin/qemu-exec.c], the logs of a virtual machine.
    - The file watcher, [src/src/fswatcher.c].  [Fswatcher]: its functions, over libavl ([Avl]),
      libnvpair ([NvOut]) and the kernel ([Sys]).  [FswatcherEnv]: what it relies on of the event
      port.  [FswatcherSpec]: what each line and each event is answered.  [FswatcherSys]: its two
      threads, as a step relation.
    - The builder, [src/tools/builder].  [Builder]: [builder.c] and [file_cp.c].
    - The checkers of [src/tools], over the libraries above.  [Tools]: the file system, the
      standard output and the C library functions they share.  [Run]: the program logic they are
      specified with.  [Mancheck]: [mancheck/main.c]; [MancheckConf]: the grammar of its
      configuration files; [MancheckSpec]: its findings and its report.  [Mancf]: [mancf/main.c];
      [MancfSpec]: the order of the sections it prints.  [Tzcheck]: [tzcheck/main.c];
      [TzcheckSpec]: the two sides it compares and its report.  [Ucodecheck]:
      [ucodecheck/ucodecheck.c]; [UcodecheckSpec]: what it requires of a manifest.
    - Virtual machine bundles: [Vmunbundle], [src/vmunbundle.c]; [VmunbundleSpec]: what it copies.
    - Boot images: [FormatImage], [tools/format_image/format_image.c]; [FormatImageSpec]: the image
      it makes.  The size of a terminal: [Measure], [src/measure_terminal.c]; [MeasureSpec]: what it
      reports.

    A definition has the name of the C function it models, a record that of the structure; helper
    definitions stand for the loops and branches inside a function.  State a C function changes
    through a pointer is an argument and a result; globals are arguments and results too, or a
    record ([reqid_state], [fsw]).  A callback is a function of the monad.

    ** How a computation runs

    A function of type [C E A] takes a [world] (errno, the answers the allocator will give, what
    was written to standard error, and an environment [E]) and ends in an [outcome]: it returns,
    exits with a status, aborts, or its behaviour is undefined.  [wp m Q w] says that [m] returns
    and [Q] holds, so it is total correctness; [defined m Q w] lets it exit or abort, but never be
    undefined.  [run m Q X e] fixes the environment only: from any good world with environment [e]
    the computation returns with [Q] or exits with [X].  Code outside the repository is a
    parameter: a class of operations, and a class of laws that state its documented behaviour,
    with a concrete instance that the witnesses run on ([list_avl] for libavl; [nv_store] and
    [tray_nvout] for libnvpair; [fenv_kernel], [cp_kernel], [vm_pipes], the kernels
    of [attach_env], [fd_env], [rec_env], [priv_env], [term_env] and [img_env]; [stage_kernel],
    [tty_kernel] and [vm_kernel]).  A result that allocations
    must succeed for speaks of [good] worlds; the others say what a failed allocation does.

    ** What the theorems show

    - Strings and lists: an append is list append or fails and changes nothing; the fixed buffer is
      never left; [strlist_set] stores, grows and fails with ENOSPC or ENOMEM; joining paths yields no
      double slash; and the exact conditions under which a block is overrun.
    - Text formats: fields and words of a line; the manifest line parser on every branch, its round
      trip, and the reading of a file; base64 round trip; the table-driven CRC is the bitwise
      one, up to the length its index can reach.
    - [Strset] refines finite sets, their size up to what an [int] holds, and its walk visits them in
      order.
    - The protocol: an exchange of version 2 returns the answer to the request with its identifier,
      whatever other frames come before; version 1 returns its lines.
    - JSON: the state machine refines the reference parser, always returns, and reads a printed
      document back.
    - Containers: environment, command line, executable, user and group are those the metadata and
      the account databases give; each failure exits with its own status.  [dockerexec] runs the
      command with the credentials of the user and group that are known, and those of root else.
    - [dockerinit]: the network calls are exactly those its NICs and routes describe, in order; the
      terminal and the logger have the descriptors they should and no others; the wait for an
      attach ends, however long each of its calls takes.
    - [lx_hook_postnet] mounts the volumes in order, each with its options on its directory, and the
      first failure ends it with its error;
      [routeinfo] prints a line for each route.  The threads of [sysevent] print whole records, in
      any interleaving, the ready event first.
    - [sdc-on-tty] kills and waits for every process but the first to end; [qemu-exec] moves each
      log to the place of the next older one, and its command has a new log.
    - The watcher: a line gets the one answer its words call for; no watch is lost, in any
      interleaving of the threads; and the race in which a name is read after it was freed.
    - The builder: a copy is complete unless a read of it is interrupted, and the passes do the work
      in order.
    - The checkers: mancheck reads exactly the files of its grammar, and reports exactly the
      commands and pages it should; mancf prints the sections in the one order its rules allow;
      tzcheck reports exactly the differences between the proto area and the manifest; ucodecheck
      succeeds exactly when the manifest has the microcode files of the proto area.
    - [vmunbundle json] copies the body of a bundle, or input without a header, whatever pieces the
      kernel delivers and takes, and refuses a bundle that is cut short or of something else;
      [zfs receive] gets the body of a bundle and nothing before it.
    - [format_image] writes partitions that do not overlap, and a boot record and a boot program
      that point to them.  [measure_terminal] reports the size the terminal answers, or that it
      is none, and restores its mode.

    Theorems about faults ([..._overrun], [..._overread], [..._stale_errno], [..._interior_free],
    [unwatch_frees_event_name], [write_bytes_failed_write] and the like) state
    exactly when the code goes wrong.

    ** Bounds and fuel

    A loop that is not structural takes fuel; running out is [Undefined], so a [wp] theorem shows
    the fuel was enough.  Loops over data compute theirs from the data ([line_fuel], [char_fuel],
    [loop_fuel], [list_fuel], one turn for each character or element and a few more).  Loops that
    wait for the kernel or retry take it as an argument, with a bound in the theorem.  Lengths are bounded
    where an integer could wrap or a block leave the address space: [CUSTR_MAX] and [DYN_MAX]
    (32 MB), [STRLIST_MAX], [JSON_MAX] (16 MB, so that indices stay in an [int]), [PUT_MAX] (8 MB),
    [LIST_MAX], [TEXT_MAX] and [FILES_MAX]; each is stated where it is used.

    ** Not modelled

    - [find_product] and [get_product_string] of [plat/sunos.c] (queries to libsmbios), and
      [getTimestamp] of [docker-common.c] (the time in a log message): library calls only.
    - The other programs of [src/src]: [bootparams.c], [sysinfo_mod.c], [zfs_send.c], [zfs_recv.c]
      and a few of a page.
    - Vendored code: the SpiderMonkey of [tools/javascriptlint] and libusdt. *)
From Stdlib Require Export ZArith Ascii String.
From Stdlib Require Import Lia.
From stdpp Require Export base tactics list gmap strings option.

Open Scope Z_scope.

(** ** Hint databases *)

(** [smartos] collects the lemmas that close the side conditions the components share. *)
Create HintDb smartos discriminated.
#[export] Hint Constants Opaque : smartos.

(** * C characters and strings *)

(** A [char] is an [ascii] (8 bits); a C string is the list of the characters before its
    terminating NUL. *)
Abbreviation char := Ascii.ascii (only parsing).
Abbreviation cstr := (list Ascii.ascii) (only parsing).

Definition cs (s : string) : cstr := list_ascii_of_string s.

(** The value of a character as an [unsigned char]. *)
Definition code (c : char) : Z := Z.of_N (N_of_ascii c).
(** Conversion of an integer to [unsigned char]. *)
Definition chr (z : Z) : char := ascii_of_N (Z.to_N (z mod 256)).
(** The value of a character as a [signed char], as [char] is on x86. *)
Definition scode (c : char) : Z := if code c <? 128 then code c else code c - 256.

Definition NUL : char := chr 0.
Definition LF : char := chr 10.

Lemma code_range c : 0 <= code c < 256.
Proof.
  unfold code. pose proof (N_ascii_bounded c) as H.
  split; [apply N2Z.is_nonneg|]. change 256 with (Z.of_N 256). by apply N2Z.inj_lt.
Qed.

Lemma chr_code c : chr (code c) = c.
Proof.
  unfold chr. rewrite Z.mod_small by apply code_range.
  unfold code. rewrite N2Z.id. apply ascii_N_embedding.
Qed.

Lemma code_chr z : code (chr z) = z mod 256.
Proof.
  unfold chr, code. pose proof (Z.mod_pos_bound z 256 ltac:(lia)).
  rewrite N_ascii_embedding.
  - by rewrite Z2N.id by lia.
  - change 256%N with (Z.to_N 256). by apply Z2N.inj_lt; lia.
Qed.

Lemma code_inj c d : code c = code d -> c = d.
Proof. intros H. rewrite <-(chr_code c), <-(chr_code d). by rewrite H. Qed.

#[export] Instance code_Inj : Inj (=) (=) code.
Proof. intros ???. by apply code_inj. Qed.

(** A list of characters that is a C string: no NUL inside it. *)
Definition is_cstr (s : cstr) : Prop := NUL ∉ s.

#[export] Instance is_cstr_dec s : Decision (is_cstr s).
Proof. unfold is_cstr. apply _. Defined.

Lemma is_cstr_nil : is_cstr [].
Proof. apply not_elem_of_nil. Qed.

Lemma is_cstr_cons c s : is_cstr (c :: s) <-> c <> NUL /\ is_cstr s.
Proof. unfold is_cstr. rewrite not_elem_of_cons. naive_solver. Qed.

Lemma is_cstr_app s t : is_cstr (s ++ t) <-> is_cstr s /\ is_cstr t.
Proof. unfold is_cstr. rewrite elem_of_app. naive_solver. Qed.

Lemma is_cstr_snoc s c : is_cstr s -> c <> NUL -> is_cstr (s ++ [c]).
Proof. intros. apply is_cstr_app. split; [done|]. apply is_cstr_cons. split; [done|apply is_cstr_nil]. Qed.

Lemma is_cstr_take n s : is_cstr s -> is_cstr (take n s).
Proof. intros H. rewrite <-(take_drop n s), is_cstr_app in H. naive_solver. Qed.

Lemma is_cstr_drop n s : is_cstr s -> is_cstr (drop n s).
Proof. intros H. rewrite <-(take_drop n s), is_cstr_app in H. naive_solver. Qed.

#[export] Hint Resolve is_cstr_nil is_cstr_take is_cstr_drop : smartos.

(** What a buffer holds as a C string: its characters up to the first NUL. *)
Fixpoint c_text (b : list char) : cstr :=
  match b with
  | [] => []
  | c :: b' => if decide (c = NUL) then [] else c :: c_text b'
  end.

Lemma c_text_is_cstr b : is_cstr (c_text b).
Proof.
  induction b as [|c b IH]; simpl; [apply is_cstr_nil|].
  case_decide; [apply is_cstr_nil|]. by apply is_cstr_cons.
Qed.

Lemma c_text_app_nul s t : is_cstr s -> c_text (s ++ NUL :: t) = s.
Proof.
  induction s as [|c s IH]; simpl; intros H; [done|].
  apply is_cstr_cons in H as [Hc Hs]. rewrite decide_False by done. by rewrite IH.
Qed.

Lemma c_text_app_nul_any t r : c_text (t ++ NUL :: r) = c_text t.
Proof. induction t as [|c t IH]; simpl; [done|]. case_decide; [done|]. by rewrite IH. Qed.

Lemma c_text_id s : is_cstr s -> c_text s = s.
Proof.
  induction s as [|c s IH]; simpl; intros H; [done|].
  apply is_cstr_cons in H as [Hc Hs]. rewrite decide_False by done. by rewrite IH.
Qed.

Lemma c_text_length b : (length (c_text b) <= length b)%nat.
Proof. induction b as [|c b IH]; simpl; [lia|]. case_decide; simpl; lia. Qed.

#[export] Hint Resolve c_text_is_cstr : smartos.

(** The length of a list as an integer, for the source's [size_t] and [int] arithmetic. *)
Definition Zlen {A} (l : list A) : Z := Z.of_nat (length l).

Arguments Zlen : simpl never.

Lemma Zlen_nonneg {A} (l : list A) : 0 <= Zlen l.
Proof. unfold Zlen. lia. Qed.
Lemma Zlen_nil {A} : Zlen (@nil A) = 0.
Proof. done. Qed.
Lemma Zlen_cons {A} (x : A) l : Zlen (x :: l) = 1 + Zlen l.
Proof. unfold Zlen. simpl. lia. Qed.
Lemma Zlen_app {A} (l k : list A) : Zlen (l ++ k) = Zlen l + Zlen k.
Proof. unfold Zlen. rewrite length_app. lia. Qed.

Lemma Zlen_take {A} n (l : list A) : Zlen (take n l) = Z.min (Z.of_nat n) (Zlen l).
Proof. unfold Zlen. rewrite length_take. lia. Qed.
Lemma Zlen_drop {A} n (l : list A) : Zlen (drop n l) = Z.max 0 (Zlen l - Z.of_nat n).
Proof. unfold Zlen. rewrite length_drop. lia. Qed.
Lemma Zlen_replicate {A} n (x : A) : Zlen (replicate n x) = Z.of_nat n.
Proof. unfold Zlen. by rewrite length_replicate. Qed.
Lemma Zlen_to_nat {A} (l : list A) : Z.to_nat (Zlen l) = length l.
Proof. unfold Zlen. by rewrite Nat2Z.id. Qed.

Lemma of_nat_length {A} (l : list A) : Z.of_nat (length l) = Zlen l.
Proof. done. Qed.

Create Rewrite HintDb zlen.
#[export] Hint Rewrite @Zlen_app @Zlen_cons @Zlen_nil @Zlen_take @Zlen_drop @Zlen_replicate
  @drop_0 @Zlen_to_nat @of_nat_length Nat2Z.inj_add Nat2Z.inj_succ : zlen.

(** [zlen] computes the integer lengths of constructed lists and leaves the rest to [lia]. *)
Ltac zlen :=
  autorewrite with zlen in *;
  repeat match goal with
  | l : list ?A |- _ =>
      lazymatch goal with
      | _ : 0 <= Zlen l |- _ => fail
      | _ => pose proof (Zlen_nonneg l)
      end
  end; try lia.

(** Filters of lists whose elements satisfy a predicate. *)
Lemma filter_Forall {A} (P : A -> Prop) `{forall x, Decision (P x)} (Q : A -> Prop) l :
  Forall Q l -> Forall Q (filter P l).
Proof.
  induction 1 as [|x l Hx Hl IH]; [constructor|]. rewrite filter_cons. case_decide; [by constructor|done].
Qed.

Lemma filter_id {A} (P : A -> Prop) `{forall x, Decision (P x)} l : Forall P l -> filter P l = l.
Proof. induction 1 as [|x l Hx Hl IH]; [done|]. by rewrite filter_cons_True, IH. Qed.

Lemma filter_none {A} (P : A -> Prop) `{forall x, Decision (P x)} l :
  Forall (fun x => ~ P x) l -> filter P l = [].
Proof. induction 1 as [|x l Hx Hl IH]; [done|]. by rewrite filter_cons_False. Qed.

(** Arithmetic with divisions and remainders by constants. *)
Ltac dlia := Z.to_euclidean_division_equations; lia.

(** Decides a comparison in the goal by arithmetic. *)
Ltac zcase :=
  match goal with
  | |- context [?a <? ?b] =>
      first [ assert (a <? b = true) as -> by (apply Z.ltb_lt; lia)
            | assert (a <? b = false) as -> by (apply Z.ltb_ge; lia) ]
  | |- context [?a <=? ?b] =>
      first [ assert (a <=? b = true) as -> by (apply Z.leb_le; lia)
            | assert (a <=? b = false) as -> by (apply Z.leb_gt; lia) ]
  end.

(** * Machine integers *)

(** The data models the sources are built for: 32-bit (ILP32) and 64-bit (LP64) objects.
    [long] has the width of a pointer in both. *)
Class DataModel := {
  ptr_bytes : Z;
  ptr_bytes_ok : ptr_bytes = 4 \/ ptr_bytes = 8
}.

Definition ILP32 : DataModel := {| ptr_bytes := 4; ptr_bytes_ok := or_introl eq_refl |}.
Definition LP64 : DataModel := {| ptr_bytes := 8; ptr_bytes_ok := or_intror eq_refl |}.

Definition UINT_MAX : Z := 4294967295.
Definition INT_MAX : Z := 2147483647.
Definition INT_MIN : Z := -2147483648.

(** Conversion to [unsigned int] / [uint32_t], to [int] / [int32_t], and to [uint64_t]. *)
Definition u32 (z : Z) : Z := z mod 2 ^ 32.
Definition i32 (z : Z) : Z := (z + 2 ^ 31) mod 2 ^ 32 - 2 ^ 31.
Definition u64 (z : Z) : Z := z mod 2 ^ 64.

Section data_model.
Context `{DM : DataModel}.

Definition SIZE_MAX : Z := 2 ^ (8 * ptr_bytes) - 1.
Definition ULONG_MAX : Z := 2 ^ (8 * ptr_bytes) - 1.
Definition LONG_MAX : Z := 2 ^ (8 * ptr_bytes - 1) - 1.
Definition LONG_MIN : Z := - 2 ^ (8 * ptr_bytes - 1).

(** Conversion to [size_t] (or [uintptr_t], or [unsigned long]). *)
Definition sz (z : Z) : Z := z mod (SIZE_MAX + 1).

Lemma SIZE_MAX_bound : UINT_MAX <= SIZE_MAX.
Proof. unfold SIZE_MAX. destruct ptr_bytes_ok as [-> | ->]; vm_compute; congruence. Qed.

Lemma sz_small z : 0 <= z <= SIZE_MAX -> sz z = z.
Proof. intros H. unfold sz. apply Z.mod_small. lia. Qed.

Lemma sz_small32 z : 0 <= z <= UINT_MAX -> sz z = z.
Proof. pose proof SIZE_MAX_bound. intros. apply sz_small. lia. Qed.

Lemma sz_range z : 0 <= sz z <= SIZE_MAX.
Proof.
  unfold sz. pose proof SIZE_MAX_bound. unfold UINT_MAX in *.
  pose proof (Z.mod_pos_bound z (SIZE_MAX + 1) ltac:(lia)). lia.
Qed.
End data_model.

Lemma u32_small z : 0 <= z <= UINT_MAX -> u32 z = z.
Proof. unfold UINT_MAX. intros H. apply Z.mod_small. lia. Qed.
Lemma u32_range z : 0 <= u32 z <= UINT_MAX.
Proof. unfold u32, UINT_MAX. pose proof (Z.mod_pos_bound z (2 ^ 32) ltac:(lia)). lia. Qed.
Lemma i32_small z : INT_MIN <= z <= INT_MAX -> i32 z = z.
Proof. unfold INT_MIN, INT_MAX, i32. intros H. rewrite Z.mod_small; lia. Qed.
Lemma i32_range z : INT_MIN <= i32 z <= INT_MAX.
Proof. unfold i32, INT_MIN, INT_MAX. pose proof (Z.mod_pos_bound (z + 2 ^ 31) (2 ^ 32) ltac:(lia)). lia. Qed.

(** * The machine the C functions run on

    [world] is what the functions of every component share: [errno], the answers the
    allocator will give, what was written to the standard error stream, and a component's own
    environment [E] (system calls, descriptors, global variables).  Each element of [w_heap]
    answers one allocation: [None] for a failure, [Some a] for a block at address [a]; when the
    list is exhausted the allocator keeps answering [heap_default]. *)
Record world (E : Type) := World {
  w_errno : Z;
  w_heap : list (option Z);
  w_stderr : list cstr;
  w_env : E
}.
Arguments World {E}.
Arguments w_errno {E}.
Arguments w_heap {E}.
Arguments w_stderr {E}.
Arguments w_env {E}.

(** How a C computation ends: it returns; it ends the process with [exit]; it calls [abort]
    (or a [VERIFY] fails); or its behaviour is undefined (an access outside an object, an
    unrepresentable [atoi], ...). *)
Inductive outcome (A : Type) :=
| Done (a : A)
| Exited (status : Z)
| Aborted
| Undefined.
Arguments Done {A}.
Arguments Exited {A}.
Arguments Aborted {A}.
Arguments Undefined {A}.

Definition C (E A : Type) : Type := world E -> outcome (A * world E).

#[export] Instance C_ret {E} : MRet (C E) := fun A a w => Done (a, w).
#[export] Instance C_bind {E} : MBind (C E) := fun A B k m w =>
  match m w with
  | Done (a, w') => k a w'
  | Exited st => Exited st
  | Aborted => Aborted
  | Undefined => Undefined
  end.

Section primitives.
Context {E : Type}.
Implicit Types w : world E.

Definition c_exit {A} (status : Z) : C E A := fun _ => Exited status.
Definition c_abort {A} : C E A := fun _ => Aborted.
Definition c_undefined {A} : C E A := fun _ => Undefined.
(** [VERIFY(b)]: abort unless [b]. *)
Definition VERIFY (b : bool) : C E () := fun w => if b then Done (tt, w) else Aborted.

Definition get_errno : C E Z := fun w => Done (w_errno w, w).
Definition set_errno (e : Z) : C E () := fun w =>
  Done (tt, World e (w_heap w) (w_stderr w) (w_env w)).
Definition get_env : C E E := fun w => Done (w_env w, w).
Definition put_env (e : E) : C E () := fun w =>
  Done (tt, World (w_errno w) (w_heap w) (w_stderr w) e).
(** [fprintf(stderr, ...)] with the text it formats. *)
Definition eprint (msg : cstr) : C E () := fun w =>
  Done (tt, World (w_errno w) (w_heap w) (w_stderr w ++ [msg]) (w_env w)).
(** An access the C language defines only when it lies inside the object. *)
Definition c_access {A} (o : option A) : C E A := fun w =>
  match o with Some a => Done (a, w) | None => Undefined end.

Definition ENOMEM : Z := 12.
Definition heap_default : Z := 135266304.

Context `{DM : DataModel}.

(** [malloc(n)]: the block lies inside the address space, or the call fails with
    [ENOMEM].  [calloc] and [strdup] allocate in the same way. *)
Definition malloc (n : Z) : C E (option Z) := fun w =>
  let answer := match w_heap w with [] => Some heap_default | r :: _ => r end in
  let rest := match w_heap w with [] => [] | _ :: rs => rs end in
  match answer with
  | Some a =>
      if (0 <? a) && (a + n <=? SIZE_MAX + 1)
      then Done (Some a, World (w_errno w) rest (w_stderr w) (w_env w))
      else Done (None, World ENOMEM rest (w_stderr w) (w_env w))
  | None => Done (None, World ENOMEM rest (w_stderr w) (w_env w))
  end.
End primitives.

(** ** Weakest preconditions

    [wp m Q w]: started in [w], [m] returns (it neither exits, aborts nor reaches undefined
    behaviour) and [Q] holds of what it returns and of the world it leaves. *)
Definition wp {E A} (m : C E A) (Q : A -> world E -> Prop) (w : world E) : Prop :=
  match m w with Done (a, w') => Q a w' | _ => False end.

Section wp_rules.
Context {E : Type}.

Lemma wp_ret {A} (a : A) (Q : A -> world E -> Prop) w : Q a w -> wp (mret a) Q w.
Proof. done. Qed.

Lemma wp_bind {A B} (m : C E A) (k : A -> C E B) Q w :
  wp m (fun a => wp (k a) Q) w -> wp (m ≫= k) Q w.
Proof.
  unfold wp, mbind, C_bind. destruct (m w) as [[a w']| | |]; done.
Qed.

Lemma wp_mono {A} (m : C E A) (P Q : A -> world E -> Prop) w :
  wp m P w -> (forall a w', P a w' -> Q a w') -> wp m Q w.
Proof. unfold wp. destruct (m w) as [[a w']| | |]; naive_solver. Qed.

Lemma wp_done {A} (m : C E A) Q w : wp m Q w <-> exists a w', m w = Done (a, w') /\ Q a w'.
Proof. unfold wp. destruct (m w) as [[a w']| | |]; naive_solver. Qed.

(** Equational steps, for computations that do not return. *)
Lemma bind_done {A B} (m : C E A) (k : A -> C E B) w a w' :
  m w = Done (a, w') -> (m ≫= k) w = k a w'.
Proof. unfold mbind, C_bind. by intros ->. Qed.
Lemma bind_undefined {A B} (m : C E A) (k : A -> C E B) w :
  m w = Undefined -> (m ≫= k) w = Undefined.
Proof. unfold mbind, C_bind. by intros ->. Qed.
(** A computation that returns, followed by one that is undefined. *)
Lemma bind_stuck {A B} (m : C E A) (k : A -> C E B) P w :
  wp m P w -> (forall a w', P a w' -> k a w' = Undefined) -> (m ≫= k) w = Undefined.
Proof. unfold wp, mbind, C_bind. destruct (m w) as [[a w']| | |]; [auto|done..]. Qed.
Lemma bind_aborted {A B} (m : C E A) (k : A -> C E B) w :
  m w = Aborted -> (m ≫= k) w = Aborted.
Proof. unfold mbind, C_bind. by intros ->. Qed.

Lemma wp_get_errno (Q : Z -> world E -> Prop) w : Q (w_errno w) w -> wp get_errno Q w.
Proof. done. Qed.
Lemma wp_set_errno e (Q : () -> world E -> Prop) w :
  Q tt (World e (w_heap w) (w_stderr w) (w_env w)) -> wp (set_errno e) Q w.
Proof. done. Qed.
Lemma wp_get_env (Q : E -> world E -> Prop) w : Q (w_env w) w -> wp get_env Q w.
Proof. done. Qed.
Lemma wp_put_env e (Q : () -> world E -> Prop) w :
  Q tt (World (w_errno w) (w_heap w) (w_stderr w) e) -> wp (put_env e) Q w.
Proof. done. Qed.
Lemma wp_eprint msg (Q : () -> world E -> Prop) w :
  Q tt (World (w_errno w) (w_heap w) (w_stderr w ++ [msg]) (w_env w)) -> wp (eprint msg) Q w.
Proof. done. Qed.
Lemma wp_VERIFY b (Q : () -> world E -> Prop) w : b = true -> Q tt w -> wp (VERIFY b) Q w.
Proof. intros ->. done. Qed.
Lemma wp_access {A} o (a : A) (Q : A -> world E -> Prop) w :
  o = Some a -> Q a w -> wp (c_access o) Q w.
Proof. intros ->. done. Qed.
End wp_rules.

(** [defined m Q w]: [m] has defined behaviour from [w] (it may exit or abort), and [Q] holds
    if it returns. *)
Definition defined {E A} (m : C E A) (Q : A -> world E -> Prop) (w : world E) : Prop :=
  match m w with Done (a, w') => Q a w' | Undefined => False | _ => True end.

Lemma defined_bind {E A B} (m : C E A) (k : A -> C E B) Q w :
  defined m (fun a => defined (k a) Q) w -> defined (m ≫= k) Q w.
Proof. unfold defined, mbind, C_bind. destruct (m w) as [[a w']| | |]; done. Qed.

Lemma wp_defined {E A} (m : C E A) Q (w : world E) : wp m Q w -> defined m Q w.
Proof. unfold wp, defined. destruct (m w) as [[a w']| | |]; done. Qed.

Lemma defined_mono {E A} (m : C E A) (P Q : A -> world E -> Prop) w :
  defined m P w -> (forall a w', P a w' -> Q a w') -> defined m Q w.
Proof. unfold defined. destruct (m w) as [[a w']| | |]; naive_solver. Qed.

Lemma defined_VERIFY {E} b (Q : () -> world E -> Prop) w :
  (b = true -> Q tt w) -> defined (VERIFY b) Q w.
Proof. unfold defined, VERIFY. destruct b; naive_solver. Qed.

Lemma defined_malloc {E} `{DM : DataModel} n (Q : option Z -> world E -> Prop) w :
  (forall r w', Q r w') -> defined (malloc n) Q w.
Proof.
  intros HQ. unfold defined, malloc. destruct (w_heap w) as [|[a|] rs]; try destruct (_ && _); apply HQ.
Qed.

(** [wp_step] performs the primitive steps at the head of a [wp] goal; [wp_use H] continues
    from a specification [H] of the function at the head. *)
Ltac wp_prim :=
  lazymatch goal with
  | |- wp (mret _) _ _ => apply wp_ret
  | |- wp (mbind _ _) _ _ => apply wp_bind
  | |- wp get_errno _ _ => apply wp_get_errno
  | |- wp (set_errno _) _ _ => apply wp_set_errno
  | |- wp get_env _ _ => apply wp_get_env
  | |- wp (put_env _) _ _ => apply wp_put_env
  | |- wp (eprint _) _ _ => apply wp_eprint
  end.
(** Closes a decidable closed proposition by computing its decision. *)
Ltac by_decide :=
  lazymatch goal with |- ?P => apply (bool_decide_unpack P); vm_compute; exact I end.
Ltac wp_steps := repeat (wp_prim; cbn beta iota zeta; cbn [w_errno w_heap w_stderr w_env]).
Tactic Notation "wp_use" uconstr(H) := eapply wp_mono; [eapply H | cbn beta].

(** ** The allocator's answers

    The addresses the sources rely on: blocks in the low part of the address space, above the
    first 64 MB and within 1 GB, as the 32-bit heap of illumos lies. *)
Definition HEAP_LO : Z := 67108864.
Definition HEAP_HI : Z := 1073741824.

Definition low_addr (a : Z) : Prop := HEAP_LO <= a <= HEAP_HI.

Definition heap_low {E} (w : world E) : Prop :=
  Forall (fun r => match r with None => True | Some a => low_addr a end) (w_heap w).
(** Every allocation succeeds. *)
Definition heap_total {E} (w : world E) : Prop := Forall is_Some (w_heap w).

(** [frame w w']: from [w] to [w'] only [errno] and the allocator moved. *)
Definition frame {E} (w w' : world E) : Prop :=
  (exists k, w_heap w' = drop k (w_heap w)) /\ w_stderr w' = w_stderr w /\ w_env w' = w_env w.

#[export] Instance frame_preorder {E} : PreOrder (@frame E).
Proof.
  split.
  - intros w. split; [by exists 0%nat|done].
  - intros w1 w2 w3 ([k Hk] & Hs & He) ([k' Hk'] & Hs' & He'). split; [|split; congruence].
    exists (k + k')%nat. by rewrite Hk', Hk, drop_drop.
Qed.

Section frame_rules.
Context {E : Type}.
Implicit Types w : world E.

Lemma frame_low w w' : frame w w' -> heap_low w -> heap_low w'.
Proof. intros ([k Hk] & _) H. unfold heap_low. rewrite Hk. by apply Forall_drop. Qed.
Lemma frame_total w w' : frame w w' -> heap_total w -> heap_total w'.
Proof. intros ([k Hk] & _) H. unfold heap_total. rewrite Hk. by apply Forall_drop. Qed.
Lemma frame_env w w' : frame w w' -> w_env w' = w_env w.
Proof. by intros (_ & _ & ?). Qed.
Lemma frame_stderr w w' : frame w w' -> w_stderr w' = w_stderr w.
Proof. by intros (_ & ? & _). Qed.
Lemma frame_errno w e : frame w (World e (w_heap w) (w_stderr w) (w_env w)).
Proof. split; [by exists 0%nat|done]. Qed.

Context `{DM : DataModel}.

Lemma wp_malloc n (Q : option Z -> world E -> Prop) w :
  heap_low w -> 0 <= n <= HEAP_HI ->
  (forall a w', low_addr a -> frame w w' -> Q (Some a) w') ->
  (forall w', ~ heap_total w -> frame w w' -> w_errno w' = ENOMEM -> Q None w') ->
  wp (malloc n) Q w.
Proof.
  intros Hlow Hn Hok Hfail. unfold wp, malloc, low_addr, HEAP_LO, HEAP_HI in *.
  pose proof SIZE_MAX_bound as HM. unfold UINT_MAX in HM.
  assert (Hfit : forall a, 67108864 <= a <= 1073741824 ->
            (0 <? a) && (a + n <=? SIZE_MAX + 1) = true) by (intros; lia).
  unfold heap_low in Hlow.
  destruct (w_heap w) as [|[a|] rs] eqn:Hw.
  - rewrite Hfit by (unfold heap_default; lia). apply Hok; [unfold heap_default; lia|].
    split; [exists 0%nat; by rewrite Hw|done].
  - apply Forall_cons_1 in Hlow as [Ha Hrs]. cbn in Ha. unfold low_addr, HEAP_LO, HEAP_HI in Ha.
    rewrite Hfit by lia. apply Hok; [lia|]. split; [exists 1%nat; by rewrite Hw|done].
  - apply Hfail; [|split; [exists 1%nat; by rewrite Hw|done]|done].
    unfold heap_total. rewrite Hw. by intros [[? ?] _]%Forall_cons_1.
Qed.

(** A request of any size: the allocator may also have no block of that size. *)
Lemma wp_malloc_any n (Q : option Z -> world E -> Prop) w :
  heap_low w -> 0 <= n ->
  (forall a w', frame w w' -> Q (Some a) w') ->
  (forall w', frame w w' -> ~ heap_total w \/ HEAP_HI < n -> w_errno w' = ENOMEM -> Q None w') ->
  wp (malloc n) Q w.
Proof.
  intros Hlow Hn Hok Hfail. destruct (Z_le_gt_dec n HEAP_HI) as [Hle|Hgt].
  - apply wp_malloc; [done|done|by auto|]. intros w' Hnt Hw'. apply Hfail; [done|by left].
  - assert (Hbig : ~ heap_total w \/ HEAP_HI < n) by (right; lia). unfold wp, malloc.
    destruct (w_heap w) as [|[a|] rs] eqn:Hw; [destruct (_ && _)| destruct (_ && _)|];
      (apply Hok || apply Hfail); try done.
    1,2: by (split; [exists 0%nat; rewrite Hw|]).
    1-3: by (split; [exists 1%nat; rewrite Hw|]).
Qed.

Lemma malloc_total n w :
  heap_low w -> heap_total w -> 0 <= n <= HEAP_HI ->
  exists a w', malloc n w = Done (Some a, w') /\ low_addr a /\ frame w w'.
Proof.
  intros Hlow Htot Hn.
  destruct (proj1 (wp_done (malloc n) (fun r w' => exists a, r = Some a /\ low_addr a /\ frame w w') w))
    as (r & w' & Hr & a & -> & Ha & Hw'); [|by exists a, w'].
  apply wp_malloc; [done|done|naive_solver|done].
Qed.
(** The worlds the positive results speak of: the heap is low and allocations succeed. *)
Definition good w : Prop := heap_low w /\ heap_total w.

Lemma good_frame w w' : frame w w' -> good w -> good w'.
Proof. intros Hw [? ?]. split; by eauto using frame_low, frame_total. Qed.

Lemma wp_malloc_good n (Q : option Z -> world E -> Prop) w :
  good w -> 0 <= n <= HEAP_HI ->
  (forall a w', frame w w' -> Q (Some a) w') -> wp (malloc n) Q w.
Proof. intros [Hl Ht] Hn HQ. apply wp_malloc; [done|done|by auto|done]. Qed.
End frame_rules.

#[export] Hint Resolve frame_low frame_total frame_errno : smartos.

(** * Memory blocks *)

(** Storing the characters [s] at offset [off] of a block: defined only inside the block. *)
Definition buf_store (b : list char) (off : Z) (s : list char) : option (list char) :=
  if (0 <=? off) && (off + Zlen s <=? Zlen b)
  then Some (take (Z.to_nat off) b ++ s ++ drop (Z.to_nat (off + Zlen s)) b)
  else None.

(** The indeterminate contents of a fresh block of [n] bytes. *)
Definition fresh_block (n : Z) : list char := replicate (Z.to_nat n) (chr 186).

Lemma Zlen_fresh n : 0 <= n -> Zlen (fresh_block n) = n.
Proof. intros H. unfold Zlen, fresh_block. rewrite length_replicate. lia. Qed.

(** Storing [s] right after the prefix [t] keeps the prefix. *)
Lemma buf_store_after t r s :
  Zlen s <= Zlen r ->
  buf_store (t ++ r) (Zlen t) s = Some (t ++ s ++ drop (length s) r).
Proof.
  intros H. unfold buf_store. rewrite Zlen_app.
  assert ((0 <=? Zlen t) && (Zlen t + Zlen s <=? Zlen t + Zlen r) = true) as ->
    by (pose proof (Zlen_nonneg t); lia).
  do 2 f_equal.
  - unfold Zlen. by rewrite Nat2Z.id, take_app_length.
  - f_equal. unfold Zlen. rewrite <-Nat2Z.inj_add, Nat2Z.id.
    apply drop_app_add.
Qed.

Lemma buf_store_0 b s : Zlen s <= Zlen b -> buf_store b 0 s = Some (s ++ drop (length s) b).
Proof. exact (buf_store_after [] b s). Qed.

Lemma buf_store_overflow b off s : Zlen b < off + Zlen s -> buf_store b off s = None.
Proof.
  intros H. unfold buf_store.
  by assert ((0 <=? off) && (off + Zlen s <=? Zlen b) = false) as -> by lia.
Qed.

(** * Splitting and joining strings *)

(** The fields of [s] between delimiters [d]: always at least one field. *)
Fixpoint split_fields (d : char) (s : cstr) : list cstr :=
  match s with
  | [] => [[]]
  | c :: s' =>
      if decide (c = d) then [] :: split_fields d s'
      else match split_fields d s' with
           | [] => [[c]]
           | f :: fs => (c :: f) :: fs
           end
  end.

(** The fields joined with the delimiter between them. *)
Fixpoint join_fields (d : char) (fs : list cstr) : cstr :=
  match fs with
  | [] => []
  | [f] => f
  | f :: fs' => f ++ d :: join_fields d fs'
  end.

Lemma split_fields_nonnil d s : split_fields d s <> [].
Proof. destruct s as [|c s]; simpl; [done|]. case_decide; [done|]. by destruct (split_fields d s). Qed.

Lemma join_split d s : join_fields d (split_fields d s) = s.
Proof.
  induction s as [|c s IH]; simpl; [done|].
  pose proof (split_fields_nonnil d s). case_decide as Hc.
  - subst c. destruct (split_fields d s) as [|f fs] eqn:Hs; [done|]. simpl in *. by rewrite IH.
  - destruct (split_fields d s) as [|f [|f' fs]]; simpl in *; [done|by rewrite IH|by rewrite IH].
Qed.

Lemma split_fields_free d f : d ∉ f -> split_fields d f = [f].
Proof.
  induction f as [|c f IH]; simpl; intros H; [done|].
  apply not_elem_of_cons in H as [Hc Hf]. rewrite decide_False by done. by rewrite IH.
Qed.

Lemma split_fields_app d f s : d ∉ f -> split_fields d (f ++ d :: s) = f :: split_fields d s.
Proof.
  induction f as [|c f IH]; simpl; intros H; [by rewrite decide_True|].
  apply not_elem_of_cons in H as [Hc Hf]. rewrite decide_False by done. by rewrite IH.
Qed.

Lemma split_join d fs : fs <> [] -> Forall (fun f => d ∉ f) fs -> split_fields d (join_fields d fs) = fs.
Proof.
  intros Hne. induction 1 as [|f [|f' fs] Hf Hfs IH]; [done| |].
  - by apply split_fields_free.
  - change (split_fields d (f ++ d :: join_fields d (f' :: fs)) = f :: f' :: fs).
    rewrite split_fields_app by done. by rewrite IH.
Qed.

(** A field is made of characters of the string. *)
Lemma split_fields_sub d s f : f ∈ split_fields d s -> Zlen f <= Zlen s /\ forall c, c ∈ f -> c ∈ s.
Proof.
  revert f. induction s as [|c s IH]; intros f; cbn [split_fields].
  { rewrite list_elem_of_singleton. intros ->. done. }
  case_decide.
  - rewrite elem_of_cons. intros [->|Hf].
    + rewrite Zlen_nil. split; [zlen|]. by intros ? ?%not_elem_of_nil.
    + destruct (IH f Hf) as [Hl Hc]. split; [zlen|]. intros x Hx. apply elem_of_cons. auto.
  - pose proof (split_fields_nonnil d s). destruct (split_fields d s) as [|g gs]; [done|].
    rewrite elem_of_cons. intros [->|Hf].
    + destruct (IH g) as [Hl Hc]; [by left|]. split; [zlen|].
      intros x. rewrite !elem_of_cons. naive_solver.
    + destruct (IH f) as [Hl Hc]; [by right|]. split; [zlen|].
      intros x Hx. apply elem_of_cons. auto.
Qed.
