(* ===== verification/Custr.v ===== *)
(** * Custr: the growable strings of [src/common/strings/custr.c]

    [custr] is the object the C code manipulates: the length of the text, the size of the
    block, the block itself with its address, and the flags.  Each function of the C file is a
    definition of the same name.  [custr_rep cu t] says that [cu] represents the text [t]. *)
From Stdlib Require Import Lia.
From S2P Require Import Prelude.

Definition CUSTR_FIXEDBUF : Z := 1.
Definition STRING_CHUNK_SIZE : Z := 64.
Definition EINVAL : Z := 22.
Definition EOVERFLOW : Z := 79.

Record custr := Custr {
  cus_strlen : Z;
  cus_datalen : Z;
  cus_data : option (Z * list char);  (* the address of the block and its bytes *)
  cus_flags : Z
}.

Section custr.
Context {E : Type} `{DM : DataModel}.
Implicit Types (cu : custr) (w : world E).

(** ** Operations *)

Definition custr_reset (cus : custr) : C E custr :=
  match cus_data cus with
  | None => mret cus
  | Some (a, b) =>
      b' ← c_access (buf_store b 0 [NUL]);
      mret (Custr 0 (cus_datalen cus) (Some (a, b')) (cus_flags cus))
  end.

Definition custr_len (cus : custr) : Z := cus_strlen cus.

Definition custr_cstr (cus : custr) : C E cstr :=
  match cus_data cus with
  | None =>
      VERIFY (cus_strlen cus =? 0) ;;
      VERIFY (cus_datalen cus =? 0) ;;
      mret []
  | Some (_, b) => mret (c_text b)
  end.

(** [vsnprintf(NULL, 0, ...)] for the formatted text [s]: its length, or -1 when that is
    not an [int]. *)
Definition vsnprintf_len (s : list char) : C E Z :=
  if INT_MAX <? Zlen s then set_errno EOVERFLOW ;; mret (-1) else mret (Zlen s).

(** [vsnprintf(b + off, n, ...)]: at most [n - 1] characters of the text and a NUL are
    stored; a size above [INT_MAX] is refused. *)
Definition vsnprintf (b : list char) (off n : Z) (s : list char) : C E (Z * list char) :=
  if (INT_MAX <? n) || (INT_MAX <? Zlen s)
  then set_errno EOVERFLOW ;; mret (-1, b)
  else if n =? 0 then mret (Zlen s, b)
  else b' ← c_access (buf_store b off (take (Z.to_nat (Z.min (n - 1) (Zlen s))) s ++ [NUL]));
       mret (Zlen s, b').

(** [while (chunksz < (size_t)len) chunksz *= 2;] *)
Fixpoint chunk_loop (fuel : nat) (chunksz len : Z) : Z :=
  match fuel with
  | O => chunksz
  | S fuel' => if chunksz <? len then chunk_loop fuel' (sz (chunksz * 2)) len else chunksz
  end.

(** The replacement of the block when the text does not fit. *)
Definition custr_grow (cus : custr) (new_datalen : Z) : C E (option custr) :=
  m ← malloc new_datalen;
  match m with
  | None => mret None
  | Some a =>
      b' ← match cus_data cus with
           | None => mret (fresh_block new_datalen)
           | Some (_, b) =>
               if cus_strlen cus + 1 <=? Zlen b
               then c_access (buf_store (fresh_block new_datalen) 0
                                (take (Z.to_nat (cus_strlen cus + 1)) b))
               else c_undefined
           end;
      mret (Some (Custr (cus_strlen cus) new_datalen (Some (a, b')) (cus_flags cus)))
  end.

(** "Append new string to existing string": the size given to [vsnprintf] is the address of
    the block less the length of the text. *)
Definition custr_write (cus : custr) (s : list char) : C E (Z * custr) :=
  match cus_data cus with
  | None => c_undefined
  | Some (a, b) =>
      '(len, b') ← vsnprintf b (cus_strlen cus) (sz (a - cus_strlen cus)) s;
      if len =? -1
      then mret (-1, Custr (cus_strlen cus) (cus_datalen cus) (Some (a, b')) (cus_flags cus))
      else mret (0, Custr (sz (cus_strlen cus + len)) (cus_datalen cus)
                      (Some (a, b')) (cus_flags cus))
  end.

Definition custr_append_vprintf (cus : custr) (s : list char) : C E (Z * custr) :=
  len ← vsnprintf_len s;
  if len <? 0 then mret (-1, cus) else
  let chunksz := chunk_loop 32 STRING_CHUNK_SIZE len in
  grown ←
    (if cus_datalen cus <=? sz (len + cus_strlen cus + 1) then
       if negb (Z.land (cus_flags cus) CUSTR_FIXEDBUF =? 0)
       then set_errno EOVERFLOW ;; mret None
       else custr_grow cus (sz (cus_datalen cus + chunksz))
     else mret (Some cus));
  match grown with
  | None => mret (-1, cus)
  | Some cus => custr_write cus s
  end.

(** The text a format prints is passed formatted. *)
Definition custr_append_printf (cus : custr) (s : list char) : C E (Z * custr) :=
  custr_append_vprintf cus s.

Definition custr_appendc (cus : custr) (newc : char) : C E (Z * custr) :=
  custr_append_printf cus [newc].

Definition custr_append (cus : custr) (name : cstr) : C E (Z * custr) :=
  custr_append_printf cus (c_text name).

Definition custr_alloc : C E (option custr) :=
  m ← malloc (4 * ptr_bytes);
  match m with
  | None => mret None
  | Some _ => mret (Some (Custr 0 0 None 0))
  end.

Definition custr_alloc_buf (buf : option (Z * list char)) (buflen : Z)
  : C E (Z * option custr) :=
  match buf with
  | None => set_errno EINVAL ;; mret (-1, None)
  | Some (a, b) =>
      if buflen =? 0 then set_errno EINVAL ;; mret (-1, None) else
      m ← custr_alloc;
      match m with
      | None => mret (-1, None)
      | Some _ =>
          b' ← c_access (buf_store b 0 [NUL]);
          mret (0, Some (Custr 0 buflen (Some (a, b')) CUSTR_FIXEDBUF))
      end
  end.
End custr.

(** ** Representation *)

(** [cu] holds the text [t] (NUL-terminated) in a block at a low address. *)
Definition custr_rep (cu : custr) (t : list char) : Prop :=
  match cus_data cu with
  | None => cus_strlen cu = 0 /\ cus_datalen cu = 0 /\ cus_flags cu = 0 /\ t = []
  | Some (a, b) =>
      low_addr a /\ cus_strlen cu = Zlen t /\ cus_datalen cu = Zlen b /\
      exists rest, b = t ++ NUL :: rest
  end.

(** The longest text the positive results speak of: 32 MB. *)
Definition CUSTR_MAX : Z := 33554432.

(** The text [s] can be appended to [cu] without the block ending up one byte short: either
    [cu] already owns a block, or the length of [s] is not one of 64, 128, 256, ... *)
Definition append_fits `{DataModel} (cu : custr) (s : list char) : Prop :=
  cus_data cu <> None \/ chunk_loop 32 STRING_CHUNK_SIZE (Zlen s) <> Zlen s.

Section custr_facts.
Context {E : Type} `{DM : DataModel}.
Implicit Types (cu : custr) (w : world E).

Lemma chunk_loop_spec fuel c len :
  0 < c -> len <= INT_MAX -> len <= c * 2 ^ Z.of_nat fuel ->
  let r := chunk_loop fuel c len in
  len <= r /\ c <= r /\ (r = c \/ r < 2 * len) /\ exists k, 0 <= k /\ r = c * 2 ^ k.
Proof.
  revert c. induction fuel as [|fuel IH]; intros c Hc Hlen Hfuel; cbn [chunk_loop] in *.
  - rewrite Z.mul_1_r in Hfuel. repeat split; try lia. exists 0. lia.
  - destruct (Z.ltb_spec c len) as [Hlt|Hge].
    + assert (Hsz : sz (c * 2) = c * 2)
        by (apply sz_small32; unfold INT_MAX, UINT_MAX in *; lia).
      rewrite Hsz. rewrite Nat2Z.inj_succ, Z.pow_succ_r in Hfuel by lia.
      destruct (IH (c * 2)) as (H1 & H2 & H3 & k & Hk & H4); try lia.
      repeat split; try lia. exists (k + 1). split; [lia|].
      rewrite H4, Z.pow_add_r by lia. lia.
    + repeat split; try lia. exists 0. lia.
Qed.

Lemma chunk_spec len :
  0 <= len <= INT_MAX ->
  len <= chunk_loop 32 STRING_CHUNK_SIZE len /\
  64 <= chunk_loop 32 STRING_CHUNK_SIZE len <= Z.max 64 (2 * len).
Proof.
  intros H. unfold STRING_CHUNK_SIZE.
  destruct (chunk_loop_spec 32 64 len) as (H1 & H2 & H3 & _); unfold INT_MAX in *; lia.
Qed.

Lemma custr_rep_len cu t : custr_rep cu t -> cus_strlen cu = Zlen t.
Proof. unfold custr_rep. destruct (cus_data cu) as [[a b]|]; naive_solver. Qed.

Lemma custr_rep_empty : custr_rep (Custr 0 0 None 0) [].
Proof. done. Qed.

Lemma custr_reset_spec cu t (Q : custr -> world E -> Prop) w :
  custr_rep cu t ->
  (forall cu', custr_rep cu' [] -> cus_flags cu' = cus_flags cu ->
     (cus_data cu <> None -> cus_data cu' <> None) ->
     cus_datalen cu' = cus_datalen cu -> Q cu' w) ->
  wp (custr_reset cu) Q w.
Proof.
  unfold custr_rep, custr_reset. intros Hrep HQ.
  destruct (cus_data cu) as [[a b]|] eqn:Hd.
  - destruct Hrep as (Ha & Hs & Hl & rest & ->). apply wp_bind.
    assert (exists r, buf_store (t ++ NUL :: rest) 0 [NUL] = Some (NUL :: r) /\
              Zlen (NUL :: r) = Zlen (t ++ NUL :: rest)) as (r & Hr & Hlen).
    { rewrite buf_store_0 by (zlen).
      destruct t as [|c t]; simpl; eexists; (split; [done|]); zlen. }
    rewrite Hr. apply wp_ret, HQ; [|done|done|done].
    cbn. split_and!; [done|done|congruence|by exists r].
  - apply wp_ret, HQ; [|done|done|done].
    destruct Hrep as (? & ? & ? & ->). by rewrite Hd.
Qed.

Lemma custr_cstr_spec cu t (Q : cstr -> world E -> Prop) w :
  custr_rep cu t -> Q (c_text t) w -> wp (custr_cstr cu) Q w.
Proof.
  unfold custr_rep, custr_cstr. intros Hrep HQ. destruct (cus_data cu) as [[a b]|].
  - destruct Hrep as (_ & _ & _ & rest & ->). apply wp_ret.
    by rewrite c_text_app_nul_any.
  - destruct Hrep as (-> & -> & _ & ->). by repeat apply wp_bind.
Qed.

(** The two halves of an append: the block that the text goes into, and the store. *)
Lemma custr_grow_spec cu t n (Q : option custr -> world E -> Prop) w :
  custr_rep cu t -> heap_low w -> Zlen t + 1 <= n <= HEAP_HI \/ (cus_data cu = None /\ 0 <= n <= HEAP_HI) ->
  (forall a b w', frame w w' -> low_addr a -> Zlen b = n ->
     (exists r, b = t ++ r) ->
     Q (Some (Custr (Zlen t) n (Some (a, b)) (cus_flags cu))) w') ->
  (forall w', frame w w' -> ~ heap_total w -> w_errno w' = ENOMEM -> Q None w') ->
  wp (custr_grow cu n) Q w.
Proof.
  intros Hrep Hlow Hn Hok Hfail. unfold custr_grow. apply wp_bind.
  pose proof (custr_rep_len _ _ Hrep) as Hlen. unfold custr_rep in Hrep.
  apply wp_malloc; [done| |intros a w' Ha Hw'|intros w' Ht Hw' He; by apply wp_ret, Hfail].
  { pose proof (Zlen_nonneg t). destruct Hn as [?|[? ?]]; lia. }
  apply wp_bind. destruct (cus_data cu) as [[a0 b0]|].
  - destruct Hrep as (_ & _ & _ & rest & ->). destruct Hn as [Hn|[? _]]; [|done].
    assert (Htake : take (Z.to_nat (cus_strlen cu + 1)) (t ++ NUL :: rest) = t ++ [NUL]).
    { rewrite Hlen. replace (Z.to_nat (Zlen t + 1)) with (length t + 1)%nat
        by (unfold Zlen; lia). by rewrite take_app_add. }
    rewrite Htake. rewrite buf_store_0 by (rewrite Zlen_fresh; zlen).
    assert ((cus_strlen cu + 1 <=? Zlen (t ++ NUL :: rest)) = true) as -> by (zlen).
    apply wp_ret, wp_ret. rewrite Hlen. apply Hok; [done|done| |].
    + rewrite Zlen_app, Zlen_drop, Zlen_fresh; zlen.
    + rewrite <-app_assoc. by eexists.
  - destruct Hrep as (_ & _ & _ & ->). apply wp_ret, wp_ret. rewrite Hlen.
    apply Hok; [done|done|apply Zlen_fresh; destruct Hn as [?|[_ ?]]; zlen|by eexists].
Qed.

Lemma vsnprintf_spec t r n s (Q : Z * list char -> world E -> Prop) w :
  Zlen s < n <= INT_MAX -> Zlen s + 1 <= Zlen r ->
  Q (Zlen s, t ++ s ++ NUL :: drop (length s + 1) r) w ->
  wp (vsnprintf (t ++ r) (Zlen t) n s) Q w.
Proof.
  intros Hn Hr HQ. unfold vsnprintf. pose proof (Zlen_nonneg s).
  assert ((INT_MAX <? n) || (INT_MAX <? Zlen s) = false) as -> by lia.
  destruct (Z.eqb_spec n 0); [lia|]. apply wp_bind.
  rewrite take_ge by (unfold Zlen in *; lia).
  rewrite buf_store_after by (zlen). apply wp_ret.
  rewrite length_app. rewrite <-app_assoc. exact HQ.
Qed.

(** What an append leaves: the text extended, or the object as it was after a failed
    allocation. *)
Definition append_post cu t s w (r : Z * custr) (w' : world E) : Prop :=
  frame w w' /\
  ((r.1 = 0 /\ custr_rep r.2 (t ++ s) /\ cus_data r.2 <> None /\ cus_flags r.2 = cus_flags cu) \/
   (r = (-1, cu) /\ ~ heap_total w /\ w_errno w' = ENOMEM)).

Lemma custr_write_spec cu a b t r s (Q : Z * custr -> world E -> Prop) w :
  cus_data cu = Some (a, b) -> b = t ++ r -> low_addr a ->
  cus_strlen cu = Zlen t -> cus_datalen cu = Zlen b ->
  Zlen s + 1 <= Zlen r -> Zlen t + Zlen s + 1 <= CUSTR_MAX ->
  (forall cu', custr_rep cu' (t ++ s) -> cus_data cu' <> None ->
     cus_flags cu' = cus_flags cu -> cus_datalen cu' = cus_datalen cu -> Q (0, cu') w) ->
  wp (custr_write cu s) Q w.
Proof.
  intros Hd -> Ha Hlen Hdl Hr Hmax HQ. unfold custr_write, CUSTR_MAX in *. rewrite Hd, Hlen.
  pose proof Ha as Ha'. unfold low_addr, HEAP_LO, HEAP_HI in Ha'.
  pose proof (Zlen_nonneg t). pose proof (Zlen_nonneg s).
  rewrite (sz_small32 (a - Zlen t)) by (unfold UINT_MAX; lia). apply wp_bind.
  apply vsnprintf_spec; [unfold INT_MAX; lia|lia|].
  destruct (Z.eqb_spec (Zlen s) (-1)); [lia|]. apply wp_ret, HQ; [|done|done|done].
  unfold custr_rep. cbn [cus_data cus_strlen cus_datalen].
  rewrite sz_small32 by (unfold UINT_MAX; lia). split_and!; [done|zlen|zlen|].
  eexists. by rewrite <-app_assoc.
Qed.

Lemma custr_rep_datalen cu t : custr_rep cu t -> 0 <= cus_datalen cu.
Proof.
  unfold custr_rep. destruct (cus_data cu) as [[a b]|]; [|lia].
  intros (_ & _ & -> & _). apply Zlen_nonneg.
Qed.

(** A block that was too small is replaced by one with room for the text and its NUL. *)
Lemma grown_room cu t s :
  custr_rep cu t -> append_fits cu s -> Zlen s <= INT_MAX ->
  Zlen t + Zlen s + 1 <= cus_datalen cu + chunk_loop 32 STRING_CHUNK_SIZE (Zlen s).
Proof.
  intros Hrep Hfit Hmax. destruct (chunk_spec (Zlen s)) as [Hc1 Hc2]; [zlen|].
  unfold append_fits, custr_rep in *. destruct (cus_data cu) as [[a b]|].
  - destruct Hrep as (_ & _ & -> & rest & ->). zlen.
  - destruct Hrep as (_ & -> & _ & ->). destruct Hfit as [?|Hne]; [done|]. zlen.
Qed.

Lemma append_vprintf_spec cu t s w :
  custr_rep cu t -> heap_low w -> cus_flags cu = 0 ->
  append_fits cu s -> Zlen t + Zlen s + 1 <= CUSTR_MAX ->
  wp (custr_append_vprintf cu s) (append_post cu t s w) w.
Proof.
  intros Hrep Hlow Hfl Hfit Hmax. pose proof Hmax as Hmax'. unfold CUSTR_MAX in Hmax'.
  pose proof (Zlen_nonneg t) as Ht. pose proof (Zlen_nonneg s) as Hs.
  pose proof (custr_rep_len _ _ Hrep) as Hlen. pose proof (custr_rep_datalen _ _ Hrep) as Hdl0.
  pose proof (grown_room _ _ _ Hrep Hfit ltac:(unfold INT_MAX; lia)) as Hroom.
  destruct (chunk_spec (Zlen s)) as (_ & Hc); [unfold INT_MAX; lia|].
  unfold custr_append_vprintf, vsnprintf_len. set (chunk := chunk_loop _ _ _) in *.
  assert (INT_MAX <? Zlen s = false) as -> by (unfold INT_MAX; lia).
  apply wp_bind, wp_ret. destruct (Z.ltb_spec (Zlen s) 0); [lia|].
  rewrite Hlen, Hfl, Z.land_0_l. cbn [negb Z.eqb]. apply wp_bind.
  rewrite (sz_small32 (Zlen s + Zlen t + 1)) by (unfold UINT_MAX; lia).
  destruct (Z.leb_spec (cus_datalen cu) (Zlen s + Zlen t + 1)) as [Hgrow|Hfree].
  - rewrite sz_small32 by (unfold UINT_MAX; lia).
    apply (custr_grow_spec _ t); [done|done|left; unfold HEAP_HI; lia| |].
    + intros a b w' Hw' Ha Hb (r & ->).
      eapply custr_write_spec; cbn [cus_data cus_strlen cus_datalen];
        [done|done|done|done|by rewrite Hb|zlen|done|].
      intros cu' ????. split; [done|by left].
    + intros w' Hw' Hnt He. apply wp_ret. split; [done|by right].
  - apply wp_ret. cbn beta iota. unfold custr_rep in Hrep.
    destruct (cus_data cu) as [[a b]|] eqn:Hd; [|lia].
    destruct Hrep as (Ha & _ & Hdl & rest & ->).
    eapply custr_write_spec; [done|done|done|done|done|zlen|done|].
    intros cu' ????. split; [done|by left].
Qed.

(** The outcome of a function that extends a string from [t] towards [final]: it reaches
    [final], or an allocation fails on the way. *)
Definition extend_post (t final : list char) w (r : Z * custr) (w' : world E) : Prop :=
  frame w w' /\ cus_flags r.2 = 0 /\
  ((r.1 = 0 /\ custr_rep r.2 final) \/
   (r.1 = -1 /\ ~ heap_total w /\ w_errno w' = ENOMEM /\
    exists t', custr_rep r.2 t' /\ t `prefix_of` t' /\ t' `prefix_of` final)).

Lemma extend_post_step t t1 final w w1 r w2 :
  frame w w1 -> t `prefix_of` t1 -> extend_post t1 final w1 r w2 -> extend_post t final w r w2.
Proof.
  intros Hw Ht (Hw2 & Hfl & Hr). split; [by etrans|]. split; [done|].
  destruct Hr as [?|(? & Hnt & ? & t' & ? & ? & ?)]; [by left|right].
  split_and!; [done|by eauto using frame_total|done|].
  exists t'. split_and!; [done|by etrans|done].
Qed.

Lemma custr_appendc_spec cu t c w :
  custr_rep cu t -> heap_low w -> cus_flags cu = 0 -> Zlen t + 2 <= CUSTR_MAX ->
  wp (custr_appendc cu c) (append_post cu t [c] w) w.
Proof.
  intros. apply append_vprintf_spec; [done..| |zlen].
  right. vm_compute. congruence.
Qed.

(** Sequencing: reach [t1], then go on to [final]; a failure is passed on. *)
Lemma extend_bind t t1 final m (k : Z * custr -> C E (Z * custr)) w :
  wp m (extend_post t t1 w) w -> t1 `prefix_of` final -> heap_low w -> t `prefix_of` t1 ->
  (forall cu1 w1, custr_rep cu1 t1 -> cus_flags cu1 = 0 -> heap_low w1 ->
     wp (k (0, cu1)) (extend_post t1 final w1) w1) ->
  (forall cu1 w1, wp (k (-1, cu1)) (fun r w' => r = (-1, cu1) /\ w' = w1) w1) ->
  wp (m ≫= k) (extend_post t final w) w.
Proof.
  intros Hm Hpre Hlow Ht Hok Hfail. apply wp_bind. eapply wp_mono; [exact Hm|].
  intros [r cu1] w1 (Hw1 & Hfl1 & [[Hr Hrep1]|(Hr & Hnt & He & t' & Hrep' & Hp1 & Hp2)]);
    cbn in Hfl1, Hr; subst r.
  - eapply wp_mono; [apply Hok; by eauto using frame_low|].
    intros ? ? Hpost. by eapply extend_post_step.
  - eapply wp_mono; [apply Hfail|]. intros ? ? [-> ->]. split; [done|]. split; [done|].
    right. split_and!; [done..|]. exists t'. split_and!; [done..|by etrans].
Qed.

Lemma custr_appendc_extend cu t c w :
  custr_rep cu t -> cus_flags cu = 0 -> heap_low w -> Zlen t + 2 <= CUSTR_MAX ->
  wp (custr_appendc cu c) (extend_post t (t ++ [c]) w) w.
Proof.
  intros Hrep Hfl Hlow Hmax. wp_use custr_appendc_spec; [done..|].
  intros [r cu1] w1 [Hw1 [(Hr & Hrep1 & _ & Hfl1)|([= -> ->] & Hnt & He)]].
  - split; [done|]. split; [congruence|by left].
  - split; [done|]. split; [done|]. right. split_and!; [done..|].
    exists t. split_and!; [done|done|by exists [c]].
Qed.

Lemma extend_done t cu (w : world E) :
  custr_rep cu t -> cus_flags cu = 0 -> wp (mret (0, cu)) (extend_post t t w) w.
Proof. intros. apply wp_ret. split; [done|]. split; [done|by left]. Qed.

Lemma custr_alloc_spec w (Q : option custr -> world E -> Prop) :
  heap_low w ->
  (forall w', frame w w' -> Q (Some (Custr 0 0 None 0)) w') ->
  (forall w', frame w w' -> ~ heap_total w -> w_errno w' = ENOMEM -> Q None w') ->
  wp custr_alloc Q w.
Proof.
  intros Hlow Hok Hfail. unfold custr_alloc. apply wp_bind.
  apply wp_malloc; [done| |intros a w' _ Hw'; by apply wp_ret, Hok|].
  - unfold HEAP_HI. destruct ptr_bytes_ok as [-> | ->]; lia.
  - intros w' Ht Hw' He. by apply wp_ret, Hfail.
Qed.
End custr_facts.

(** ** Fixed buffers *)

Section custr_fixed.
Context {E : Type} `{DM : DataModel}.

Definition fixed_post (cu : custr) t s (w : world E) (r : Z * custr) (w' : world E) : Prop :=
  cus_datalen r.2 = cus_datalen cu /\ cus_flags r.2 = CUSTR_FIXEDBUF /\ cus_data r.2 <> None /\
  w_heap w' = w_heap w /\ w_env w' = w_env w /\
  if Zlen t + Zlen s + 1 <? cus_datalen cu
  then r.1 = 0 /\ custr_rep r.2 (t ++ s)
  else r = (-1, cu) /\ w_errno w' = EOVERFLOW.

Lemma append_fixed_spec cu t s w :
  custr_rep cu t -> cus_data cu <> None -> cus_flags cu = CUSTR_FIXEDBUF ->
  Zlen t + Zlen s + 1 <= CUSTR_MAX ->
  wp (custr_append_vprintf cu s) (fixed_post cu t s w) w.
Proof.
  intros Hrep Hsome Hfl Hmax. pose proof Hmax as Hmax'. unfold CUSTR_MAX in Hmax'.
  pose proof (Zlen_nonneg t). pose proof (Zlen_nonneg s).
  pose proof (custr_rep_len _ _ Hrep) as Hlen.
  unfold custr_append_vprintf, vsnprintf_len.
  assert (INT_MAX <? Zlen s = false) as -> by (unfold INT_MAX; lia).
  apply wp_bind, wp_ret. destruct (Z.ltb_spec (Zlen s) 0); [lia|].
  rewrite Hlen, Hfl. cbn [Z.land CUSTR_FIXEDBUF Pos.land negb Z.eqb]. apply wp_bind.
  rewrite (sz_small32 (Zlen s + Zlen t + 1)) by (unfold UINT_MAX; lia). unfold fixed_post.
  destruct (Z.leb_spec (cus_datalen cu) (Zlen s + Zlen t + 1)) as [Hfull|Hfree].
  - wp_steps. assert (Zlen t + Zlen s + 1 <? cus_datalen cu = false) as -> by lia. done.
  - apply wp_ret. cbn beta iota. unfold custr_rep in Hrep.
    destruct (cus_data cu) as [[a b]|] eqn:Hd; [|done].
    destruct Hrep as (Ha & _ & Hdl & rest & Hb).
    assert (Zlen t + Zlen s + 1 <? cus_datalen cu = true) as -> by lia.
    eapply custr_write_spec; [done|done|done|done|done| |done|].
    + subst b. zlen.
    + intros cu' Hrep' Hd' Hfl' Hdl'. split_and!; cbn [fst snd]; congruence || done.
Qed.
End custr_fixed.

(** ** Properties *)

(** C30: [custr_append] refines list append.  On a dynamic string holding [t], with blocks at
    low addresses and the lengths within [CUSTR_MAX], [custr_append cu s] stays inside the
    block; it returns 0 and the string holds [t ++ s], or, only when an allocation fails,
    it returns -1 with [ENOMEM] and leaves the string as it was. *)
Theorem custr_append_refines {E} `{DM : DataModel} (cu : custr) (t s : cstr) (w : world E) :
  is_cstr s -> custr_rep cu t -> cus_flags cu = 0 -> append_fits cu s -> heap_low w ->
  Zlen t + Zlen s + 1 <= CUSTR_MAX ->
  wp (custr_append cu s) (fun '(r, cu') w' =>
    frame w w' /\
    ((r = 0 /\ custr_rep cu' (t ++ s) /\ cus_flags cu' = 0) \/
     (r = -1 /\ cu' = cu /\ ~ heap_total w /\ w_errno w' = ENOMEM))) w.
Proof.
  intros Hs Hrep Hfl Hfit Hlow Hmax. unfold custr_append, custr_append_printf.
  rewrite c_text_id by done. wp_use append_vprintf_spec; [done..|].
  intros [r cu'] w' [Hfr [(? & ? & ? & ?)|([= -> ->] & ? & ?)]]; split; [done| |done|by right].
  left. cbn in *. split_and!; congruence.
Qed.

Lemma custr_append_refines_witness :
  wp (E := ()) (@custr_append () ILP32 (Custr 0 0 None 0) (cs "0755")) (fun '(r, cu') w' =>
    frame (World 0 [] [] ()) w' /\
    ((r = 0 /\ custr_rep cu' (cs "0755") /\ cus_flags cu' = 0) \/
     (r = -1 /\ cu' = Custr 0 0 None 0 /\ ~ heap_total (World 0 [] [] ()) /\ w_errno w' = ENOMEM)))
   (World 0 [] [] ()).
Proof.
  apply (@custr_append_refines () ILP32 (Custr 0 0 None 0) [] (cs "0755") (World 0 [] [] ())).
  - by_decide.
  - done.
  - done.
  - right. by vm_compute.
  - constructor.
  - by vm_compute.
Defined.

(** The exact condition under which an append overruns its block.  On a string that owns
    no block yet, a text whose length is 64, 128, 256, ... is copied, with its NUL, into a
    block of just its length: the store runs one byte past the block. *)
Theorem custr_append_overrun {E} `{DM : DataModel} (s : cstr) (w : world E) :
  is_cstr s -> ~ append_fits (Custr 0 0 None 0) s -> Zlen s <= CUSTR_MAX ->
  heap_low w -> heap_total w ->
  custr_append (Custr 0 0 None 0) s w = Undefined.
Proof.
  intros Hs Hfit Hmax Hlow Htot. unfold custr_append, custr_append_printf.
  rewrite c_text_id by done. unfold CUSTR_MAX in *.
  destruct (Z.eq_dec (chunk_loop 32 STRING_CHUNK_SIZE (Zlen s)) (Zlen s)) as [Hc|?];
    [|exfalso; apply Hfit; by right].
  pose proof (Zlen_nonneg s).
  destruct (chunk_spec (Zlen s)) as (_ & Hc2); [unfold INT_MAX; lia|]. rewrite Hc in Hc2.
  unfold custr_append_vprintf, vsnprintf_len.
  assert (INT_MAX <? Zlen s = false) as -> by (unfold INT_MAX; lia).
  erewrite bind_done by done. destruct (Z.ltb_spec (Zlen s) 0); [lia|].
  cbn [cus_datalen cus_strlen cus_flags Z.land negb Z.eqb]. rewrite Hc, Z.add_0_r, Z.add_0_l, Z.land_0_l.
  cbn [negb Z.eqb].
  rewrite !sz_small32 by (unfold UINT_MAX; lia).
  assert (0 <=? Zlen s + 1 = true) as -> by lia.
  destruct (malloc_total (Zlen s) w) as (a & w' & Hm & Ha & _); [done|done|unfold HEAP_HI; lia|].
  erewrite bind_done by (unfold custr_grow; erewrite bind_done by exact Hm; done).
  cbn beta iota. unfold custr_write. cbn [cus_data cus_strlen]. apply bind_undefined.
  unfold vsnprintf, low_addr, HEAP_LO, HEAP_HI in *.
  rewrite sz_small32 by (unfold UINT_MAX; lia).
  assert ((INT_MAX <? a - 0) || (INT_MAX <? Zlen s) = false) as -> by (unfold INT_MAX; lia).
  destruct (Z.eqb_spec (a - 0) 0); [lia|]. apply bind_undefined.
  rewrite take_ge by (unfold Zlen in *; lia).
  rewrite buf_store_overflow; [done|]. rewrite Zlen_fresh by lia. zlen.
Qed.

Lemma custr_append_overrun_witness :
  @custr_append () ILP32 (Custr 0 0 None 0) (replicate 64 "x"%char) (World 0 [] [] ()) = Undefined.
Proof.
  apply (@custr_append_overrun () ILP32 (replicate 64 "x"%char) (World 0 [] [] ())).
  - by_decide.
  - intros [H|H]; [by apply H|by vm_compute in H].
  - by vm_compute.
  - constructor.
  - constructor.
Defined.

(** A string over a fixed buffer never leaves its buffer.  An append that fits with its
    NUL and one byte to spare succeeds; any other is refused with [EOVERFLOW] and changes
    nothing; the size and the flags never change. *)
Theorem custr_fixed_bounded {E} `{DM : DataModel} (cu : custr) (t s : cstr) (w : world E) :
  is_cstr s -> custr_rep cu t -> cus_data cu <> None -> cus_flags cu = CUSTR_FIXEDBUF ->
  Zlen t + Zlen s + 1 <= CUSTR_MAX ->
  wp (custr_append cu s) (fun '(r, cu') w' =>
    cus_datalen cu' = cus_datalen cu /\ cus_flags cu' = CUSTR_FIXEDBUF /\
    if Zlen t + Zlen s + 1 <? cus_datalen cu
    then r = 0 /\ custr_rep cu' (t ++ s)
    else r = -1 /\ cu' = cu /\ w_errno w' = EOVERFLOW) w.
Proof.
  intros Hs Hrep Hd Hfl Hmax. unfold custr_append, custr_append_printf.
  rewrite c_text_id by done. wp_use append_fixed_spec; [done..|].
  intros [r cu'] w' (? & ? & _ & _ & _ & Hpost). split_and!; [done..|]. cbn in *.
  destruct (_ <? _); naive_solver.
Qed.

Definition fixed_example : custr :=
  Custr 0 8 (Some (134512640, NUL :: fresh_block 7)) CUSTR_FIXEDBUF.

Lemma custr_fixed_bounded_witness :
  wp (E := ()) (@custr_append () ILP32 fixed_example (cs "too long")) (fun '(r, cu') w' =>
    cus_datalen cu' = 8 /\ cus_flags cu' = CUSTR_FIXEDBUF /\
    if 9 <? 8 then r = 0 /\ custr_rep cu' (cs "too long")
    else r = -1 /\ cu' = fixed_example /\ w_errno w' = EOVERFLOW) (World 0 [] [] ()).
Proof.
  apply (@custr_fixed_bounded () ILP32 fixed_example [] (cs "too long") (World 0 [] [] ())).
  - by_decide.
  - split_and!; [by_decide|done|done|by eexists].
  - done.
  - done.
  - by vm_compute.
Defined.
