(* ===== verification/Strpath.v ===== *)
(** * Strpath: joining paths, [src/common/strings/strpath.c] *)
From Stdlib Require Import Lia.
From S2P Require Import Prelude Custr.

Definition SLASH : char := "/"%char.

Section strpath.
Context {E : Type} `{DM : DataModel}.

(** ** Operations *)

(** [custr_cstr(path)[i]]. *)
Definition custr_index (cus : custr) (i : Z) : C E char :=
  match cus_data cus with
  | None => c_access ([NUL] !! Z.to_nat i)
  | Some (_, b) => c_access (b !! Z.to_nat i)
  end.

(** "Find the first non-slash character in the input path". *)
Fixpoint skip_slashes (inp : cstr) : cstr :=
  match inp with
  | [] => []
  | c :: inp' => if Ascii.eqb c SLASH then skip_slashes inp' else inp
  end.

(** "Append characters from the input path, but do not copy two slashes in a row or write a
    trailing slash". *)
Fixpoint copy_chars (path : custr) (slash_count : Z) (inp : cstr) : C E (Z * custr) :=
  match inp with
  | [] => mret (0, path)
  | c :: inp' =>
      if Ascii.eqb c SLASH then copy_chars path (u32 (slash_count + 1)) inp'
      else
        '(r, path) ← (if 0 <? slash_count then custr_appendc path SLASH else mret (0, path));
        if negb (r =? 0) then mret (-1, path) else
        '(r, path) ← custr_appendc path c;
        if negb (r =? 0) then mret (-1, path) else copy_chars path 0 inp'
  end.

(** The separator between the existing path and the new one. *)
Definition strpath_sep (path : custr) (inp : cstr) : C E (Z * custr) :=
  let pathl := custr_len path in
  if 0 <? pathl then
    last ← custr_index path (pathl - 1);
    if negb (Ascii.eqb last SLASH) then custr_appendc path SLASH else mret (0, path)
  else
    match inp with
    | c :: _ => if Ascii.eqb c SLASH then custr_appendc path SLASH else mret (0, path)
    | [] => mret (0, path)
    end.

(** The rest of the input, from its first non-slash character. *)
Definition strpath_rest (path : custr) (inp : cstr) : C E (Z * custr) :=
  match skip_slashes inp with
  | [] => mret (0, path)
  | rest => copy_chars path 0 rest
  end.

Definition strpath_append (path : custr) (inp : cstr) : C E (Z * custr) :=
  '(r, path) ← strpath_sep path inp;
  if negb (r =? 0) then mret (-1, path) else strpath_rest path inp.
End strpath.

(** ** Reference definition *)

(** The non-empty components of a path. *)
Definition components (s : cstr) : list cstr := filter (fun f => f <> []) (split_fields SLASH s).

(** What precedes the appended components. *)
Definition path_base (t inp : cstr) : cstr :=
  match list.last t with
  | Some c => if Ascii.eqb c SLASH then t else t ++ [SLASH]
  | None => match inp with c :: _ => if Ascii.eqb c SLASH then [SLASH] else [] | [] => [] end
  end.

Definition path_join (t inp : cstr) : cstr := path_base t inp ++ join_fields SLASH (components inp).

(** No two slashes in a row. *)
Fixpoint no_double_slash (s : cstr) : bool :=
  match s with
  | c :: ((d :: _) as s') => negb (Ascii.eqb c SLASH && Ascii.eqb d SLASH) && no_double_slash s'
  | _ => true
  end.

(** The characters [copy_chars] emits; [pending] when slashes were read since the last one. *)
Fixpoint copied (pending : bool) (inp : cstr) : cstr :=
  match inp with
  | [] => []
  | c :: inp' =>
      if Ascii.eqb c SLASH then copied true inp'
      else (if pending then [SLASH] else []) ++ c :: copied false inp'
  end.

(** ** The copied characters are the joined components *)

Lemma components_cons_slash s : components (SLASH :: s) = components s.
Proof. reflexivity. Qed.

Definition slashed (fs : list cstr) : cstr := concat (map (cons SLASH) fs).

Lemma join_slashed f fs : join_fields SLASH (f :: fs) = f ++ slashed fs.
Proof.
  revert f. induction fs as [|g fs IH]; intros f; [by rewrite app_nil_r|].
  change (f ++ SLASH :: join_fields SLASH (g :: fs) = f ++ slashed (g :: fs)). by rewrite IH.
Qed.

Lemma copied_split s :
  (forall f fs, split_fields SLASH s = f :: fs ->
     copied false s = f ++ slashed (filter (fun f => f <> []) fs)) /\
  copied true s = slashed (components s).
Proof.
  unfold components. induction s as [|c s [IHf IHt]]; [by split; [intros f fs [= <- <-]|]|].
  cbn [copied split_fields]. destruct (Ascii.eqb_spec c SLASH) as [->|Hc].
  - rewrite !decide_True by done. rewrite IHt. split; [by intros f fs [= <- <-]|done].
  - rewrite !(decide_False (P := c = SLASH)) by done.
    destruct (split_fields SLASH s) as [|f fs] eqn:Hs; [by destruct (split_fields_nonnil SLASH s)|].
    rewrite (IHf f fs) by done. split; [by intros g gs [= <- <-]|].
    rewrite filter_cons, decide_True by done. done.
Qed.

Lemma skip_slashes_components s : components (skip_slashes s) = components s.
Proof.
  induction s as [|c s IH]; [done|]. cbn [skip_slashes].
  destruct (Ascii.eqb_spec c SLASH) as [->|]; [|done]. by rewrite IH, components_cons_slash.
Qed.

Lemma skip_slashes_head s c r : skip_slashes s = c :: r -> Ascii.eqb c SLASH = false.
Proof.
  induction s as [|d s IH]; [done|]. cbn [skip_slashes].
  destruct (Ascii.eqb d SLASH) eqn:Hd; [done|]. by intros [= -> ->].
Qed.

Lemma copied_skip s :
  copied false (skip_slashes s) = join_fields SLASH (components s).
Proof.
  rewrite <-skip_slashes_components. destruct (skip_slashes s) as [|c r] eqn:Hs; [done|].
  apply skip_slashes_head in Hs. unfold components. cbn [copied split_fields]. rewrite Hs.
  rewrite decide_False by (by apply Ascii.eqb_neq).
  destruct (split_fields SLASH r) as [|f fs] eqn:Hr; [by destruct (split_fields_nonnil SLASH r)|].
  rewrite (proj1 (copied_split r) f fs) by done.
  by rewrite filter_cons, decide_True, join_slashed by done.
Qed.

(** ** Specifications *)

Section strpath_facts.
Context {E : Type} `{DM : DataModel}.
Implicit Types (path : custr) (w : world E).

Lemma copy_chars_spec inp path t k w :
  custr_rep path t -> cus_flags path = 0 -> heap_low w -> 0 <= k -> k + Zlen inp <= UINT_MAX ->
  Zlen t + 2 * Zlen inp + 3 <= CUSTR_MAX ->
  wp (copy_chars path k inp) (extend_post t (t ++ copied (0 <? k) inp) w) w.
Proof.
  revert path t k w. induction inp as [|c inp IH]; intros path t k w Hrep Hfl Hlow Hk Hu Hmax.
  - apply wp_ret. split; [done|]. split; [done|]. left. by rewrite app_nil_r.
  - rewrite Zlen_cons in *. pose proof (Zlen_nonneg inp). cbn [copy_chars copied].
    destruct (Ascii.eqb c SLASH) eqn:Hc.
    { rewrite u32_small by lia. assert (0 <? k + 1 = true) as Hk1 by lia. rewrite <-Hk1.
      apply IH; [done..|lia|lia|lia]. }
    assert (Hchar : forall path t w, custr_rep path t -> cus_flags path = 0 -> heap_low w ->
      Zlen t + 2 * Zlen inp + 4 <= CUSTR_MAX ->
      wp ('(r, path) ← custr_appendc path c;
          if negb (r =? 0) then mret (-1, path) else copy_chars path 0 inp)
         (extend_post t (t ++ c :: copied false inp) w) w).
    { clear -IH Hu H Hk. intros path t w Hrep Hfl Hlow Hmax.
      change (c :: copied false inp) with ([c] ++ copied (0 <? 0) inp). rewrite app_assoc.
      eapply extend_bind; [apply custr_appendc_extend; done || lia|by eexists|done|by exists [c]| |done].
      intros cu1 w1 Hrep1 Hfl1 Hlow1. cbn beta iota. apply IH; [done..|lia|lia|zlen]. }
    destruct (0 <? k) eqn:Hk0; [|apply wp_bind, wp_ret; apply Hchar; [done..|lia]].
    change (t ++ [SLASH] ++ c :: copied false inp) with (t ++ [SLASH] ++ (c :: copied false inp)).
    rewrite app_assoc. eapply extend_bind;
      [apply custr_appendc_extend; done || lia|by eexists|done|by exists [SLASH]| |done].
    intros cu1 w1 Hrep1 Hfl1 Hlow1. cbn beta iota. apply Hchar; [done..|zlen].
Qed.

Lemma custr_index_last path t c (Q : char -> world E -> Prop) w :
  custr_rep path (t ++ [c]) -> Q c w -> wp (custr_index path (custr_len path - 1)) Q w.
Proof.
  intros Hrep HQ. pose proof (custr_rep_len _ _ Hrep) as Hlen. unfold custr_index, custr_len.
  rewrite Hlen. unfold custr_rep in Hrep. replace (Zlen (t ++ [c]) - 1) with (Zlen t) by zlen.
  destruct (cus_data path) as [[a b]|].
  - destruct Hrep as (_ & _ & _ & rest & ->). apply wp_access with c; [|done].
    rewrite <-app_assoc, Zlen_to_nat. cbn [app]. by rewrite list_lookup_middle.
  - destruct Hrep as (_ & _ & _ & Hn). by destruct t.
Qed.

Lemma path_base_prefix t inp : t `prefix_of` path_base t inp.
Proof.
  unfold path_base. destruct (list.last t) eqn:Ht.
  - case_match; [done|by eexists].
  - apply last_None in Ht as ->. apply prefix_nil.
Qed.

Lemma strpath_sep_spec path t inp w :
  custr_rep path t -> cus_flags path = 0 -> heap_low w -> Zlen t + 2 <= CUSTR_MAX ->
  wp (strpath_sep path inp) (extend_post t (path_base t inp) w) w.
Proof.
  intros Hrep Hfl Hlow Hmax. unfold strpath_sep, path_base, custr_len.
  rewrite (custr_rep_len _ _ Hrep). destruct t as [|c0 t0 _] using rev_ind.
  - cbn [list.last]. destruct inp as [|c inp]; [by apply extend_done|]. cbn beta iota.
    destruct (Ascii.eqb c SLASH); [by apply (custr_appendc_extend _ [])|by apply extend_done].
  - rewrite last_snoc. assert (0 <? Zlen (t0 ++ [c0]) = true) as -> by zlen.
    apply wp_bind. rewrite <-(custr_rep_len _ _ Hrep).
    apply (custr_index_last _ t0 c0); [done|]. destruct (Ascii.eqb c0 SLASH); cbn [negb].
    + by apply extend_done.
    + by apply custr_appendc_extend.
Qed.

Lemma strpath_rest_spec path t inp w :
  custr_rep path t -> cus_flags path = 0 -> heap_low w ->
  Zlen t + 2 * Zlen inp + 3 <= CUSTR_MAX ->
  wp (strpath_rest path inp) (extend_post t (t ++ join_fields SLASH (components inp)) w) w.
Proof.
  intros Hrep Hfl Hlow Hmax. unfold strpath_rest. rewrite <-copied_skip.
  assert (Hle : Zlen (skip_slashes inp) <= Zlen inp).
  { clear. induction inp as [|c inp IH]; [done|]. cbn [skip_slashes].
    destruct (Ascii.eqb c SLASH); zlen. }
  pose proof (Zlen_nonneg t). unfold CUSTR_MAX in *.
  destruct (skip_slashes inp) as [|c r] eqn:Hs.
  - rewrite app_nil_r. by apply extend_done.
  - apply copy_chars_spec; [done..|lia|unfold UINT_MAX; zlen|unfold CUSTR_MAX; lia].
Qed.

Lemma strpath_append_spec path t inp w :
  custr_rep path t -> cus_flags path = 0 -> heap_low w ->
  Zlen t + 2 * Zlen inp + 4 <= CUSTR_MAX ->
  wp (strpath_append path inp) (extend_post t (path_join t inp) w) w.
Proof.
  intros Hrep Hfl Hlow Hmax. pose proof (Zlen_nonneg inp). unfold CUSTR_MAX in *.
  assert (Hbase : Zlen (path_base t inp) <= Zlen t + 1).
  { unfold path_base. repeat case_match; zlen. }
  unfold strpath_append. eapply extend_bind;
    [apply strpath_sep_spec; done || (unfold CUSTR_MAX; lia)|by eexists|done
    |apply path_base_prefix| |done].
  intros cu1 w1 Hrep1 Hfl1 Hlow1. cbn beta iota.
  apply strpath_rest_spec; [done..|unfold CUSTR_MAX; lia].
Qed.
End strpath_facts.

(** ** Slashes of the result *)

Lemma no_double_cons2 a b s : no_double_slash (a :: b :: s) =
  negb (Ascii.eqb a SLASH && Ascii.eqb b SLASH) && no_double_slash (b :: s).
Proof. done. Qed.

Lemma no_double_cons c s : c <> SLASH -> no_double_slash (c :: s) = no_double_slash s.
Proof. intros Hc. destruct s; simpl; [done|]. by rewrite (proj2 (Ascii.eqb_neq c SLASH)). Qed.

Lemma no_double_copied s b : no_double_slash (copied b s) = true.
Proof.
  revert b. induction s as [|c s IH]; intros b; [done|]. cbn [copied].
  destruct (Ascii.eqb_spec c SLASH) as [->|Hc]; [done|].
  destruct b; cbn [app]; [|by rewrite no_double_cons].
  rewrite no_double_cons2, (proj2 (Ascii.eqb_neq c SLASH)), andb_false_r by done.
  cbn [negb andb]. by rewrite no_double_cons.
Qed.

Lemma no_double_app s c r :
  no_double_slash s = true -> no_double_slash (c :: r) = true -> c <> SLASH ->
  no_double_slash (s ++ c :: r) = true.
Proof.
  intros Hs Hr Hc. induction s as [|a [|b s] IH]; [done| |].
  - cbn [app]. by rewrite no_double_cons2, (proj2 (Ascii.eqb_neq c SLASH)), andb_false_r.
  - rewrite no_double_cons2 in Hs. cbn [app] in *. rewrite no_double_cons2.
    apply andb_true_iff in Hs as [-> Hs]. by apply IH.
Qed.

Lemma path_base_single t inp : no_double_slash t = true -> no_double_slash (path_base t inp) = true.
Proof.
  intros Ht. unfold path_base. destruct (list.last t) as [c|] eqn:Hl.
  - destruct (Ascii.eqb_spec c SLASH); [done|].
    destruct (proj1 (last_Some t c) Hl) as [t0 ->]. rewrite <-app_assoc. cbn [app].
    clear Hl. induction t0 as [|a [|b t0] IH]; cbn [app] in *; rewrite no_double_cons2 in *.
    + by rewrite (proj2 (Ascii.eqb_neq c SLASH)).
    + apply andb_true_iff in Ht as [-> _]. by rewrite no_double_cons.
    + apply andb_true_iff in Ht as [-> Ht]. by apply IH.
  - destruct inp as [|c ?]; [done|]. by destruct (Ascii.eqb c SLASH).
Qed.

Lemma path_join_single t inp : no_double_slash t = true -> no_double_slash (path_join t inp) = true.
Proof.
  intros Ht. apply (path_base_single t inp) in Ht. unfold path_join. rewrite <-copied_skip.
  pose proof (no_double_copied (skip_slashes inp) false) as Hc.
  destruct (skip_slashes inp) as [|c r] eqn:Hs; [by rewrite app_nil_r|].
  apply skip_slashes_head in Hs. cbn [copied] in *. rewrite Hs in *. cbn [app] in *.
  apply no_double_app; [done|done|]. by apply Ascii.eqb_neq.
Qed.

(** ** Properties *)

(** C35: [strpath_append] computes [path_join]: the existing path, one separating slash when it
    is needed, and the non-empty components of the input joined by single slashes.  It fails
    only when an allocation does, and then the path still extends the one it was given. *)
Theorem strpath_append_joins {E} `{DM : DataModel} (path : custr) (t inp : cstr) (w : world E) :
  custr_rep path t -> cus_flags path = 0 -> heap_low w ->
  Zlen t + 2 * Zlen inp + 4 <= CUSTR_MAX ->
  wp (strpath_append path inp) (fun '(r, path') w' =>
    frame w w' /\
    ((r = 0 /\ custr_rep path' (path_join t inp)) \/
     (r = -1 /\ ~ heap_total w /\ w_errno w' = ENOMEM /\
      exists t', custr_rep path' t' /\ t `prefix_of` t' /\ t' `prefix_of` path_join t inp))) w.
Proof.
  intros Hrep Hfl Hlow Hmax. wp_use strpath_append_spec; [done..|].
  intros [r path'] w' (? & ? & [[? ?]|?]); split; [done|by left|done|by right].
Qed.

Lemma strpath_append_joins_witness :
  wp (@strpath_append () ILP32 (Custr 0 0 None 0) (cs "///one//path/")) (fun '(r, path') w' =>
    frame (World 0 [] [] ()) w' /\
    ((r = 0 /\ custr_rep path' (cs "/one/path")) \/
     (r = -1 /\ ~ heap_total (World 0 [] [] ()) /\ w_errno w' = ENOMEM /\
      exists t', custr_rep path' t' /\ [] `prefix_of` t' /\ t' `prefix_of` cs "/one/path")))
   (World 0 [] [] ()).
Proof.
  apply (@strpath_append_joins () ILP32 (Custr 0 0 None 0) [] (cs "///one//path/") (World 0 [] [] ())).
  - apply custr_rep_empty.
  - done.
  - constructor.
  - by vm_compute.
Defined.

(** Appending to a path without adjacent slashes yields a path without adjacent slashes,
    whatever the input. *)
Theorem strpath_append_no_double_slash {E} `{DM : DataModel} (path : custr) (t inp : cstr) (w : world E) :
  custr_rep path t -> cus_flags path = 0 -> heap_low w -> heap_total w ->
  Zlen t + 2 * Zlen inp + 4 <= CUSTR_MAX -> no_double_slash t = true ->
  wp (strpath_append path inp) (fun '(r, path') _ =>
    r = 0 /\ exists t', custr_rep path' t' /\ t `prefix_of` t' /\ no_double_slash t' = true) w.
Proof.
  intros Hrep Hfl Hlow Htot Hmax Ht. wp_use strpath_append_spec; [done..|].
  intros [r path'] w' (_ & _ & [[? ?]|(_ & ? & _)]); [|done]. cbn in *.
  split; [done|]. exists (path_join t inp). split_and!; [done| |by apply path_join_single].
  etrans; [apply (path_base_prefix t inp)|by eexists].
Qed.

Lemma strpath_append_no_double_slash_witness :
  wp (@strpath_append () ILP32 (Custr 0 0 None 0) (cs "a///b//")) (fun '(r, path') _ =>
    r = 0 /\ exists t', custr_rep path' t' /\ [] `prefix_of` t' /\ no_double_slash t' = true)
   (World 0 [] [] ()).
Proof.
  apply (@strpath_append_no_double_slash () ILP32 (Custr 0 0 None 0) [] (cs "a///b//") (World 0 [] [] ())).
  - apply custr_rep_empty.
  - done.
  - constructor.
  - constructor.
  - by vm_compute.
  - done.
Defined.

(** The table of [src/common/strings/tests/testpath.c], run: each pair appended to an empty
    string, and the text expected. *)
Definition run_pair (l r : string) : option cstr :=
  match ('(_, p) ← strpath_append (DM := ILP32) (Custr 0 0 None 0) (cs l);
         '(_, p) ← strpath_append (DM := ILP32) p (cs r);
         custr_cstr p) (World 0 [] [] ()) with
  | Done (t, _) => Some t
  | _ => None
  end.

Example testpath_table :
  map (fun '(l, r) => run_pair l r)
    [(""%string, ""); ("/", "b/c/d/"); ("////", ""); ("", "/");
     ("///one//path/", "/another/path////"); ("/one/pathnosl", "another/pathnosl"); ("a/b", "c/d")] =
  map (Some ∘ cs)
    [""%string; "/b/c/d"; "/"; "/"; "/one/path/another/path"; "/one/pathnosl/another/pathnosl"; "a/b/c/d"].
Proof. vm_compute. reflexivity. Qed.
