(* ===== verification/Strlist.v ===== *)
(** * Strlist: arrays of strings, [src/common/strings/strlist.c]

    [sl_strings] is the block of pointers as the C code allocates it: [sl_capacity + 1]
    elements, [None] for NULL.  Reading or writing outside the block is undefined behaviour.
    [unsigned int] and [size_t] arithmetic wraps as it does in C. *)
From Stdlib Require Import Lia.
From S2P Require Import Prelude.

Definition GROW_COUNT : Z := 32.
Definition ENOSPC : Z := 28.

Record strlist := Strlist {
  sl_strings : list (option cstr);
  sl_capacity : Z
}.

Section strlist.
Context {E : Type} `{DM : DataModel}.

(** ** Operations *)

Definition MAX_CAPACITY : Z := SIZE_MAX / ptr_bytes - 1.

(** [strings[i]] and [strings[i] = v]. *)
Definition slot_read (strings : list (option cstr)) (i : Z) : C E (option cstr) :=
  c_access (strings !! Z.to_nat i).
Definition slot_write (strings : list (option cstr)) (i : Z) (v : option cstr)
  : C E (list (option cstr)) :=
  c_access (if i <? Zlen strings then Some (<[Z.to_nat i := v]> strings) else None).

Definition strlist_alloc (capacity : Z) : C E (Z * option strlist) :=
  m ← malloc (2 * ptr_bytes);
  match m with
  | None => mret (-1, None)
  | Some _ =>
      let count := u32 (capacity + 1) in
      m ← malloc (count * ptr_bytes);
      match m with
      | None => mret (-1, None)
      | Some _ => mret (0, Some (Strlist (replicate (Z.to_nat count) None) capacity))
      end
  end.

(** [memcpy(new_strings, sl->sl_strings, oldsz)] and the [memset] that clears the rest. *)
Definition copy_and_clear (strings : list (option cstr)) (oldsz newsz : Z)
  : C E (list (option cstr)) :=
  let n := Z.to_nat (oldsz / ptr_bytes) in
  if (oldsz <=? newsz) && (Z.of_nat n <=? Zlen strings)
  then mret (take n strings ++ replicate (Z.to_nat ((newsz - oldsz) / ptr_bytes)) None)
  else c_undefined.

Definition strlist_grow_by (sl : strlist) (grow_by : Z) : C E (Z * strlist) :=
  let old_capacity := sl_capacity sl in
  let new_capacity := u32 (old_capacity + grow_by) in
  let oldsz := sz (old_capacity * ptr_bytes) in
  let newsz := sz (u32 (1 + new_capacity) * ptr_bytes) in
  if grow_by =? 0 then mret (0, sl)
  else if sz (MAX_CAPACITY - old_capacity) <? grow_by
  then set_errno ENOSPC ;; mret (-1, sl)
  else
    m ← malloc newsz;
    match m with
    | None => mret (-1, sl)
    | Some _ =>
        new_strings ← copy_and_clear (sl_strings sl) oldsz newsz;
        mret (0, Strlist new_strings new_capacity)
    end.

(** The loop of [strlist_reset]: [n] elements from [i] on. *)
Fixpoint reset_loop (n : nat) (i : Z) (strings : list (option cstr)) : C E (list (option cstr)) :=
  match n with
  | O => mret strings
  | S n' => strings ← slot_write strings i None; reset_loop n' (i + 1) strings
  end.

Definition strlist_reset (sl : strlist) : C E strlist :=
  strings ← reset_loop (Z.to_nat (sl_capacity sl)) 0 (sl_strings sl);
  mret (Strlist strings (sl_capacity sl)).

Definition strlist_set (sl : strlist) (idx : Z) (str : cstr) : C E (Z * strlist) :=
  '(r, sl) ←
    (if sl_capacity sl <=? idx
     then strlist_grow_by sl (u32 (u32 (idx - sl_capacity sl + 1) + GROW_COUNT))
     else mret (0, sl));
  if negb (r =? 0) then mret (-1, sl) else
  VERIFY (idx <? sl_capacity sl) ;;
  t ← malloc (Zlen str + 1);
  match t with
  | None => mret (-1, sl)
  | Some _ =>
      strings ← slot_write (sl_strings sl) idx (Some str);
      mret (0, Strlist strings (sl_capacity sl))
  end.

(** The scan of [strlist_first_empty] and [strlist_contig_count]: the first NULL among [n]
    elements from [i] on. *)
Fixpoint scan_null (n : nat) (i : Z) (strings : list (option cstr)) : C E (option Z) :=
  match n with
  | O => mret None
  | S n' =>
      s ← slot_read strings i;
      match s with None => mret (Some i) | Some _ => scan_null n' (i + 1) strings end
  end.

(** [again: VERIFY(try++ < 2)]: [tries] entries are left. *)
Fixpoint first_empty_again (tries : nat) (sl : strlist) : C E (Z * Z * strlist) :=
  match tries with
  | O => c_abort
  | S tries' =>
      found ← scan_null (Z.to_nat (sl_capacity sl)) 0 (sl_strings sl);
      match found with
      | Some i => mret (0, i, sl)
      | None =>
          '(r, sl) ← strlist_grow_by sl GROW_COUNT;
          if negb (r =? 0) then mret (-1, 0, sl) else first_empty_again tries' sl
      end
  end.

Definition strlist_first_empty (sl : strlist) : C E (Z * Z * strlist) := first_empty_again 2 sl.

Definition strlist_set_tail (sl : strlist) (str : cstr) : C E (Z * strlist) :=
  '(r, idx, sl) ← strlist_first_empty sl;
  if negb (r =? 0) then mret (-1, sl) else strlist_set sl idx str.

Definition strlist_contig_count (sl : strlist) : C E Z :=
  found ← scan_null (Z.to_nat (sl_capacity sl)) 0 (sl_strings sl);
  mret (match found with Some i => i | None => sl_capacity sl end).

Definition strlist_capacity (sl : strlist) : Z := sl_capacity sl.

Definition strlist_get (sl : strlist) (idx : Z) : C E (option cstr) :=
  if sl_capacity sl <=? idx then mret None else slot_read (sl_strings sl) idx.

Definition strlist_adopt (sl : strlist) (idx : Z) : C E (option cstr * strlist) :=
  if sl_capacity sl <=? idx then mret (None, sl)
  else
    t ← slot_read (sl_strings sl) idx;
    strings ← slot_write (sl_strings sl) idx None;
    mret (t, Strlist strings (sl_capacity sl)).

Definition strlist_array (sl : strlist) : list (option cstr) := sl_strings sl.
End strlist.

(** ** Well-formedness and contents *)

(** The block has one element beyond the capacity, and that element is NULL. *)
Definition strlist_wf (sl : strlist) : Prop :=
  0 <= sl_capacity sl <= UINT_MAX /\
  Zlen (sl_strings sl) = sl_capacity sl + 1 /\
  sl_strings sl !! Z.to_nat (sl_capacity sl) = Some None.

(** What is stored at an index. *)
Definition stored (sl : strlist) (i : Z) : option cstr := mjoin (sl_strings sl !! Z.to_nat i).

(** The strings [l] fill the list from index 0 on, and nothing follows them. *)
Definition strlist_rep (sl : strlist) (l : list cstr) : Prop :=
  strlist_wf sl /\ forall i : nat, stored sl (Z.of_nat i) = l !! i.

(** The capacities the positive results speak of. *)
Definition STRLIST_MAX : Z := 67108864.

(** ** Facts *)

Section strlist_facts.
Context {E : Type} `{DM : DataModel}.
Implicit Types (sl : strlist) (w : world E).

Lemma ptr_bytes_pos : 0 < ptr_bytes <= 8.
Proof. destruct ptr_bytes_ok as [-> | ->]; lia. Qed.

Lemma MAX_CAPACITY_big : 1073741822 <= MAX_CAPACITY < SIZE_MAX.
Proof.
  unfold MAX_CAPACITY, SIZE_MAX. destruct ptr_bytes_ok as [-> | ->]; vm_compute; intuition congruence.
Qed.

(** A well-formed block is its usable part and the final NULL. *)
Lemma wf_split sl :
  strlist_wf sl -> sl_strings sl = take (Z.to_nat (sl_capacity sl)) (sl_strings sl) ++ [None].
Proof.
  intros (Hc & Hlen & Hlast). rewrite <-(take_drop (Z.to_nat (sl_capacity sl)) (sl_strings sl)) at 1.
  f_equal. erewrite drop_S by exact Hlast. f_equal. apply drop_ge. unfold Zlen in Hlen. lia.
Qed.

Definition grown sl (n : Z) : strlist :=
  Strlist (sl_strings sl ++ replicate (Z.to_nat n) None) (sl_capacity sl + n).

Lemma grown_wf sl n :
  strlist_wf sl -> 0 <= n -> sl_capacity sl + n <= UINT_MAX -> strlist_wf (grown sl n).
Proof.
  intros Hwf Hn Hmax. pose proof (wf_split _ Hwf) as Hs. destruct Hwf as (Hc & Hlen & Hlast).
  unfold strlist_wf, grown. cbn [sl_strings sl_capacity]. split_and!; [lia|lia|zlen|].
  destruct (Z.eq_dec n 0) as [->|].
  - rewrite Z.add_0_r, app_nil_r. done.
  - rewrite lookup_app_r by (unfold Zlen in Hlen; lia). apply lookup_replicate_2.
    unfold Zlen in Hlen. lia.
Qed.

Lemma stored_grown sl n i : stored (grown sl n) i = stored sl i.
Proof.
  unfold stored, grown. cbn [sl_strings]. rewrite lookup_app.
  destruct (sl_strings sl !! Z.to_nat i) eqn:Hi; [done|]. cbn.
  destruct (replicate _ _ !! _) eqn:Hr; [|done]. by apply lookup_replicate_1 in Hr as [-> _].
Qed.

(** Growing, whatever the size asked for: [ENOSPC] beyond the greatest capacity, [ENOMEM] when
    the allocator has no block. *)
Lemma grow_by_any sl n (Q : Z * strlist -> world E -> Prop) w :
  strlist_wf sl -> sl_capacity sl <= MAX_CAPACITY -> heap_low w -> 0 < n -> sl_capacity sl + n < UINT_MAX ->
  (MAX_CAPACITY < sl_capacity sl + n -> forall w', frame w w' -> w_errno w' = ENOSPC -> Q (-1, sl) w') ->
  (sl_capacity sl + n <= MAX_CAPACITY ->
   (forall w', frame w w' -> Q (0, grown sl n) w') /\
   (forall w', frame w w' -> ~ heap_total w \/ HEAP_HI < (1 + (sl_capacity sl + n)) * ptr_bytes ->
      w_errno w' = ENOMEM -> Q (-1, sl) w')) ->
  wp (strlist_grow_by sl n) Q w.
Proof.
  intros Hwf Hcap Hlow Hn Hmax Hspc Hmem. pose proof (wf_split _ Hwf) as Hs.
  destruct Hwf as (Hc & Hlen & Hlast). pose proof ptr_bytes_pos. pose proof MAX_CAPACITY_big.
  unfold strlist_grow_by. destruct (Z.eqb_spec n 0); [lia|].
  rewrite (sz_small (MAX_CAPACITY - _)) by lia.
  destruct (Z.ltb_spec (MAX_CAPACITY - sl_capacity sl) n) as [Hfull|Hroom].
  { apply wp_bind, wp_set_errno, wp_ret, Hspc; [lia|apply frame_errno|done]. }
  destruct Hmem as [Hok Hfail]; [lia|]. assert (HM : (1 + MAX_CAPACITY) * ptr_bytes <= SIZE_MAX)
    by (unfold MAX_CAPACITY; pose proof (Z.mul_div_le SIZE_MAX ptr_bytes); lia).
  rewrite (u32_small (sl_capacity sl + n)), (u32_small (1 + _)) by lia.
  assert (forall k, 0 <= k <= 1 + MAX_CAPACITY -> 0 <= k * ptr_bytes <= SIZE_MAX) as Hfit by nia.
  rewrite !sz_small by (apply Hfit; lia).
  apply wp_bind, wp_malloc_any; [done|nia| |].
  - intros a w' Hw'. apply wp_bind. unfold copy_and_clear.
    rewrite Z.div_mul by lia. rewrite <-Z.mul_sub_distr_r, Z.div_mul by lia.
    assert (sl_capacity sl * ptr_bytes <=? (1 + (sl_capacity sl + n)) * ptr_bytes = true) as ->
      by (apply Z.leb_le, Z.mul_le_mono_nonneg_r; lia).
    assert (Z.of_nat (Z.to_nat (sl_capacity sl)) <=? Zlen (sl_strings sl) = true) as ->
      by (apply Z.leb_le; lia).
    apply wp_ret, wp_ret.
    replace (Z.to_nat (1 + (sl_capacity sl + n) - sl_capacity sl)) with (1 + Z.to_nat n)%nat by lia.
    rewrite replicate_add, app_assoc. cbn [replicate]. rewrite <-Hs. by apply Hok.
  - intros w' Hw' Hno He. by apply wp_ret, Hfail.
Qed.

Lemma grow_by_spec sl n (Q : Z * strlist -> world E -> Prop) w :
  strlist_wf sl -> heap_low w -> 0 < n -> sl_capacity sl + n <= 2 * STRLIST_MAX - 64 ->
  (forall w', frame w w' -> Q (0, grown sl n) w') ->
  (forall w', frame w w' -> ~ heap_total w -> w_errno w' = ENOMEM -> Q (-1, sl) w') ->
  wp (strlist_grow_by sl n) Q w.
Proof.
  intros Hwf Hlow Hn Hmax Hok Hfail. pose proof ptr_bytes_pos. pose proof MAX_CAPACITY_big.
  pose proof Hwf as (Hc & _ & _). unfold STRLIST_MAX in *.
  apply grow_by_any; [done|lia|done|done|unfold UINT_MAX; lia|lia|]. intros _. split; [done|].
  intros w' Hw' [Hnt|Hbig] He; [by apply Hfail|]. exfalso. unfold HEAP_HI in Hbig. nia.
Qed.

(** What [strlist_set] leaves at every index. *)
Definition set_post_any sl (idx : Z) (str : cstr) w (r : Z * strlist) (w' : world E) : Prop :=
  frame w w' /\ strlist_wf r.2 /\ sl_capacity sl <= sl_capacity r.2 /\
  if (sl_capacity sl <=? idx) && (MAX_CAPACITY <? idx + 1 + GROW_COUNT)
  then r.1 = -1 /\ w_errno w' = ENOSPC /\ r.2 = sl
  else
    (r.1 = 0 /\ idx < sl_capacity r.2 /\
     forall i, 0 <= i -> stored r.2 i = if decide (i = idx) then Some str else stored sl i) \/
    (r.1 = -1 /\ (~ heap_total w \/ HEAP_HI < (1 + (idx + 1 + GROW_COUNT)) * ptr_bytes) /\
     w_errno w' = ENOMEM /\ forall i, stored r.2 i = stored sl i).

Definition set_post sl (idx : Z) (str : cstr) w (r : Z * strlist) (w' : world E) : Prop :=
  frame w w' /\ strlist_wf r.2 /\ sl_capacity sl <= sl_capacity r.2 /\
  ((r.1 = 0 /\ idx < sl_capacity r.2 /\
    forall i, 0 <= i -> stored r.2 i = if decide (i = idx) then Some str else stored sl i) \/
   (r.1 = -1 /\ ~ heap_total w /\ w_errno w' = ENOMEM /\ forall i, stored r.2 i = stored sl i)).

Lemma wf_insert sl i v :
  strlist_wf sl -> 0 <= i < sl_capacity sl ->
  strlist_wf (Strlist (<[Z.to_nat i := v]> (sl_strings sl)) (sl_capacity sl)).
Proof.
  intros (Hc & Hlen & Hlast) Hi. unfold strlist_wf. cbn [sl_strings sl_capacity].
  split_and!; [lia|lia|unfold Zlen in *; by rewrite length_insert|].
  rewrite list_lookup_insert_ne by lia. done.
Qed.

Lemma slot_write_spec sl i v (Q : list (option cstr) -> world E -> Prop) w :
  strlist_wf sl -> 0 <= i < sl_capacity sl ->
  Q (<[Z.to_nat i := v]> (sl_strings sl)) w -> wp (slot_write (sl_strings sl) i v) Q w.
Proof.
  intros (Hc & Hlen & Hlast) Hi HQ. unfold slot_write.
  assert (i <? Zlen (sl_strings sl) = true) as -> by lia. done.
Qed.

Lemma stored_insert sl i j v :
  strlist_wf sl -> 0 <= i < sl_capacity sl -> 0 <= j ->
  stored (Strlist (<[Z.to_nat i := v]> (sl_strings sl)) (sl_capacity sl)) j =
  if decide (j = i) then v else stored sl j.
Proof.
  intros (Hc & Hlen & Hlast) Hi Hj. unfold stored. cbn [sl_strings].
  case_decide as Hij.
  - subst j. rewrite list_lookup_insert_eq by (unfold Zlen in *; lia). done.
  - rewrite list_lookup_insert_ne by lia. done.
Qed.

(** The part of [strlist_set] after the array has its size. *)
Lemma set_store_spec sl sl1 idx str w w1 :
  strlist_wf sl1 -> heap_low w -> frame w w1 -> sl_capacity sl <= sl_capacity sl1 -> 0 <= idx < sl_capacity sl1 ->
  (forall i, stored sl1 i = stored sl i) -> Zlen str + 1 <= HEAP_HI ->
  wp (VERIFY (idx <? sl_capacity sl1) ;;
      t ← malloc (Zlen str + 1);
      match t with
      | None => mret (-1, sl1)
      | Some _ => strings ← slot_write (sl_strings sl1) idx (Some str);
                  mret (0, Strlist strings (sl_capacity sl1))
      end) (set_post sl idx str w) w1.
Proof.
  intros Hwf1 Hlow Hw1 Hcap1 Hidx1 Hst1 Hstr. pose proof (Zlen_nonneg str).
  apply wp_bind, wp_VERIFY; [lia|]. apply wp_bind, wp_malloc; [by eauto using frame_low|lia| |].
  - intros a w2 _ Hw2. apply wp_bind, slot_write_spec; [done|lia|]. apply wp_ret.
    split; [by etrans|]. cbn [fst snd sl_capacity]. split_and!; [by apply wf_insert|done|].
    left. split_and!; [done|lia|]. intros i Hi. rewrite stored_insert by (done || lia). by rewrite Hst1.
  - intros w2 Hnt Hw2 He. apply wp_ret. split; [by etrans|]. split_and!; [done|done|].
    right. split_and!; [done|by eauto using frame_total|done|done].
Qed.

Lemma set_post_weaken sl idx str w r w' :
  (sl_capacity sl <=? idx) && (MAX_CAPACITY <? idx + 1 + GROW_COUNT) = false ->
  set_post sl idx str w r w' -> set_post_any sl idx str w r w'.
Proof. intros Hb (? & ? & ? & H). unfold set_post_any. rewrite Hb. naive_solver. Qed.

Lemma set_any_spec sl idx str w :
  strlist_wf sl -> sl_capacity sl <= MAX_CAPACITY -> heap_low w -> 0 <= idx ->
  idx + 1 + GROW_COUNT < UINT_MAX -> Zlen str + 1 <= HEAP_HI ->
  wp (strlist_set sl idx str) (set_post_any sl idx str w) w.
Proof.
  intros Hwf Hcap Hlow Hidx Hmax Hstr. pose proof Hwf as (Hc & _ & _). unfold strlist_set. apply wp_bind.
  destruct (Z.leb_spec (sl_capacity sl) idx) as [Hge|Hlt].
  2: { apply wp_ret. eapply wp_mono; [by apply (set_store_spec sl)|].
       intros r w'. apply set_post_weaken. by rewrite (proj2 (Z.leb_gt _ _)). }
  unfold GROW_COUNT in Hmax. rewrite !u32_small by (rewrite ?u32_small; unfold GROW_COUNT; lia).
  replace (idx - sl_capacity sl + 1 + GROW_COUNT) with (idx + 1 + GROW_COUNT - sl_capacity sl) by lia.
  assert (Hge' : sl_capacity sl <=? idx = true) by lia. unfold GROW_COUNT.
  apply grow_by_any; [done|done|done|lia|lia| |]; replace (sl_capacity sl + _) with (idx + 1 + 32) by lia.
  - intros Hfull w1 Hw1 He. apply wp_ret. unfold set_post_any, GROW_COUNT.
    rewrite Hge', (proj2 (Z.ltb_lt _ _) Hfull). by split_and!.
  - intros Hroom. assert (Hb : MAX_CAPACITY <? idx + 1 + GROW_COUNT = false) by (unfold GROW_COUNT; lia). split.
    + intros w1 Hw1. eapply wp_mono.
      * apply (set_store_spec sl); try done; [apply grown_wf; done || lia|cbn; lia|cbn; lia|apply stored_grown].
      * intros r w'. apply set_post_weaken. by rewrite Hb, andb_false_r.
    + intros w1 Hw1 Hno He. apply wp_ret. unfold set_post_any. rewrite Hb, andb_false_r.
      split_and!; [done|done|done|]. by right.
Qed.

Lemma set_spec sl idx str w :
  strlist_wf sl -> heap_low w -> 0 <= idx -> sl_capacity sl <= STRLIST_MAX ->
  idx + 100 <= STRLIST_MAX -> Zlen str + 1 <= HEAP_HI ->
  wp (strlist_set sl idx str) (set_post sl idx str w) w.
Proof.
  intros Hwf Hlow Hidx Hcap Hmax Hstr. pose proof MAX_CAPACITY_big. pose proof ptr_bytes_pos. unfold STRLIST_MAX in *.
  eapply wp_mono; [apply set_any_spec; unfold GROW_COUNT, UINT_MAX; done || lia|].
  intros r w' (Hw' & Hwf' & Hcap' & Hr). split_and!; [done|done|done|].
  rewrite (proj2 (Z.ltb_ge MAX_CAPACITY _)), andb_false_r in Hr by (unfold GROW_COUNT; lia).
  destruct Hr as [Hr|(Hr & [Hnt|Hbig] & He)]; [by left|by right|]. unfold HEAP_HI, GROW_COUNT in Hbig. nia.
Qed.

(** The index [j] is the first empty one. *)
Definition first_null sl (j : Z) : Prop :=
  stored sl j = None /\ forall k, 0 <= k < j -> is_Some (stored sl k).

Lemma slot_read_spec sl i (Q : option cstr -> world E -> Prop) w :
  strlist_wf sl -> 0 <= i <= sl_capacity sl -> Q (stored sl i) w ->
  wp (slot_read (sl_strings sl) i) Q w.
Proof.
  intros (Hc & Hlen & Hlast) Hi HQ. unfold slot_read.
  destruct (lookup_lt_is_Some_2 (sl_strings sl) (Z.to_nat i)) as [v Hv]; [unfold Zlen in *; lia|].
  apply wp_access with v; [done|]. unfold stored in HQ. by rewrite Hv in HQ.
Qed.

Lemma scan_null_spec sl n i (Q : option Z -> world E -> Prop) w :
  strlist_wf sl -> 0 <= i -> i + Z.of_nat n <= sl_capacity sl ->
  (forall j, i <= j < i + Z.of_nat n -> stored sl j = None ->
     (forall k, i <= k < j -> is_Some (stored sl k)) -> Q (Some j) w) ->
  ((forall k, i <= k < i + Z.of_nat n -> is_Some (stored sl k)) -> Q None w) ->
  wp (scan_null n i (sl_strings sl)) Q w.
Proof.
  intros Hwf. revert i. induction n as [|n IH]; intros i Hi Hn Hsome Hnone; cbn [scan_null].
  - apply wp_ret, Hnone. lia.
  - apply wp_bind, slot_read_spec; [done|lia|]. destruct (stored sl i) eqn:Hst.
    + apply IH; [lia|lia| |].
      * intros j Hj Hnull Hk. apply Hsome; [lia|done|]. intros k Hk'.
        destruct (Z.eq_dec k i) as [->|]; [by rewrite Hst|apply Hk; lia].
      * intros Hall. apply Hnone. intros k Hk'.
        destruct (Z.eq_dec k i) as [->|]; [by rewrite Hst|apply Hall; lia].
    + apply wp_ret, Hsome; [lia|done|lia].
Qed.

Lemma scan_all_spec sl (Q : option Z -> world E -> Prop) w :
  strlist_wf sl ->
  (forall j, 0 <= j < sl_capacity sl -> first_null sl j -> Q (Some j) w) ->
  ((forall k, 0 <= k < sl_capacity sl -> is_Some (stored sl k)) -> Q None w) ->
  wp (scan_null (Z.to_nat (sl_capacity sl)) 0 (sl_strings sl)) Q w.
Proof.
  intros Hwf Hsome Hnone. pose proof Hwf as (Hc & _ & _).
  apply scan_null_spec; [done|lia|lia| |].
  - intros j Hj Hnull Hk. apply Hsome; [lia|]. split; [done|]. intros; apply Hk; lia.
  - intros Hall. apply Hnone. intros; apply Hall; lia.
Qed.

Definition empty_post sl w (r : Z * Z * strlist) (w' : world E) : Prop :=
  frame w w' /\ strlist_wf r.2 /\ (forall i, stored r.2 i = stored sl i) /\
  sl_capacity sl <= sl_capacity r.2 <= sl_capacity sl + GROW_COUNT /\
  ((r.1.1 = 0 /\ 0 <= r.1.2 < sl_capacity r.2 /\ first_null sl r.1.2) \/
   (r.1.1 = -1 /\ ~ heap_total w /\ w_errno w' = ENOMEM)).

(** The second pass of [strlist_first_empty] always finds an element: [VERIFY] holds. *)
Lemma first_empty_spec sl w :
  strlist_wf sl -> heap_low w -> sl_capacity sl <= STRLIST_MAX ->
  wp (strlist_first_empty sl) (empty_post sl w) w.
Proof.
  intros Hwf Hlow Hmax. unfold strlist_first_empty. cbn [first_empty_again].
  pose proof Hwf as (Hc & _ & _). unfold empty_post, STRLIST_MAX, GROW_COUNT in *.
  apply wp_bind, scan_all_spec; [done| |].
  { intros j Hj Hfirst. apply wp_ret. cbn. split_and!; [done|done|done|lia|lia|by left]. }
  intros Hall. apply wp_bind, grow_by_spec; [done|done|lia|unfold STRLIST_MAX; lia| |].
  - intros w1 Hw1. cbn beta iota. change (negb (0 =? 0)) with false. cbn beta iota.
    assert (Hwf1 : strlist_wf (grown sl 32)) by (apply grown_wf; unfold UINT_MAX; done || lia).
    assert (Hnull : stored sl (sl_capacity sl) = None).
    { destruct Hwf as (_ & _ & Hlast). unfold stored. by rewrite Hlast. }
    apply wp_bind, scan_all_spec; [done| |].
    + intros j Hj [Hj1 Hj2]. apply wp_ret. cbn in *.
      split_and!; [done|done|intros; apply stored_grown|lia|lia|left].
      split; [done|]. split; [lia|]. split; [by rewrite <-(stored_grown _ 32)|].
      intros k Hk. rewrite <-(stored_grown _ 32). by apply Hj2.
    + intros Hall1. exfalso. destruct (Hall1 (sl_capacity sl)) as [x Hx]; [cbn; lia|].
      rewrite stored_grown in Hx. congruence.
  - intros w1 Hw1 Hnt He. apply wp_ret. cbn. split_and!; [done|done|done|lia|lia|by right].
Qed.

Lemma rep_first_null sl l j : strlist_rep sl l -> 0 <= j -> first_null sl j -> j = Zlen l.
Proof.
  intros [Hwf Hst] Hj [Hnull Hbelow].
  assert (Hj1 : stored sl j = l !! Z.to_nat j) by (rewrite <-Hst; f_equal; lia).
  rewrite Hnull in Hj1. symmetry in Hj1. apply lookup_ge_None in Hj1.
  destruct (Z.eq_dec j (Zlen l)) as [|Hne]; [done|]. exfalso.
  destruct (Hbelow (Zlen l)) as [x Hx]; [unfold Zlen in *; lia|].
  unfold Zlen in Hx. rewrite Hst in Hx. by rewrite lookup_ge_None_2 in Hx by done.
Qed.

Lemma rep_length sl l : strlist_rep sl l -> Zlen l <= sl_capacity sl.
Proof.
  intros [Hwf Hst]. pose proof Hwf as (Hc & _ & Hlast).
  destruct (Z.le_gt_cases (Zlen l) (sl_capacity sl)) as [|Hgt]; [done|]. exfalso.
  destruct (lookup_lt_is_Some_2 l (Z.to_nat (sl_capacity sl))) as [x Hx]; [unfold Zlen in *; lia|].
  rewrite <-Hst in Hx. rewrite Z2Nat.id in Hx by lia. unfold stored in Hx. by rewrite Hlast in Hx.
Qed.

Definition tail_post sl (l : list cstr) (str : cstr) w (r : Z * strlist) (w' : world E) : Prop :=
  frame w w' /\ sl_capacity sl <= sl_capacity r.2 <= sl_capacity sl + GROW_COUNT /\
  ((r.1 = 0 /\ strlist_rep r.2 (l ++ [str])) \/
   (r.1 = -1 /\ ~ heap_total w /\ w_errno w' = ENOMEM /\ strlist_rep r.2 l)).

Lemma set_in_range_spec sl idx str (Q : Z * strlist -> world E -> Prop) w :
  strlist_wf sl -> heap_low w -> 0 <= idx < sl_capacity sl -> Zlen str + 1 <= HEAP_HI ->
  (forall w', frame w w' ->
     Q (0, Strlist (<[Z.to_nat idx := Some str]> (sl_strings sl)) (sl_capacity sl)) w') ->
  (forall w', frame w w' -> ~ heap_total w -> w_errno w' = ENOMEM -> Q (-1, sl) w') ->
  wp (strlist_set sl idx str) Q w.
Proof.
  intros Hwf Hlow Hidx Hstr Hok Hfail. unfold strlist_set. pose proof (Zlen_nonneg str).
  assert (sl_capacity sl <=? idx = false) as -> by lia. apply wp_bind, wp_ret. cbn beta iota.
  change (negb (0 =? 0)) with false. cbn beta iota.
  apply wp_bind, wp_VERIFY; [lia|]. apply wp_bind, wp_malloc; [done|lia| |].
  - intros a w' _ Hw'. apply wp_bind, slot_write_spec; [done|lia|]. by apply wp_ret, Hok.
  - intros w' Hnt Hw' He. by apply wp_ret, Hfail.
Qed.

Lemma set_tail_spec sl l str w :
  strlist_rep sl l -> heap_low w -> sl_capacity sl <= STRLIST_MAX -> Zlen str + 1 <= HEAP_HI ->
  wp (strlist_set_tail sl str) (tail_post sl l str w) w.
Proof.
  intros Hrep Hlow Hmax Hstr. unfold strlist_set_tail. pose proof Hrep as [Hwf Hst].
  apply wp_bind. wp_use first_empty_spec; [done..|].
  intros [[r idx] sl1] w1 (Hw1 & Hwf1 & Hst1 & Hcap1 & Hr). cbn in Hwf1, Hst1, Hcap1, Hr.
  destruct Hr as [(-> & Hidx & Hfirst)|(-> & Hnt & He)].
  - change (negb (0 =? 0)) with false. cbn beta iota.
    pose proof (rep_first_null _ _ idx Hrep (proj1 Hidx) Hfirst) as ->.
    apply set_in_range_spec; [done|by eauto using frame_low|done|done| |].
    + intros w2 Hw2. split; [by etrans|]. cbn [fst snd sl_capacity]. split; [done|]. left.
      split; [done|]. split; [by apply wf_insert|]. intros i.
      rewrite stored_insert by (done || lia). rewrite Hst1, Hst.
      unfold Zlen. case_decide as Hi.
      * assert (i = length l) as -> by lia. by rewrite lookup_app_r, Nat.sub_diag by lia.
      * destruct (decide (i < length l)%nat); [by rewrite lookup_app_l|].
        rewrite !lookup_ge_None_2; [done|rewrite length_app; cbn; lia|lia].
    + intros w2 Hw2 Hnt He. split; [by etrans|]. cbn. split; [done|]. right.
      split_and!; [done|by eauto using frame_total|done|]. split; [done|]. intros i. by rewrite Hst1.
  - apply wp_ret. split; [done|]. cbn. split; [done|]. right. split_and!; [done..|].
    split; [done|]. intros i. by rewrite Hst1.
Qed.

Lemma contig_count_spec sl l (Q : Z -> world E -> Prop) w :
  strlist_rep sl l -> Q (Zlen l) w -> wp (strlist_contig_count sl) Q w.
Proof.
  intros Hrep HQ. pose proof Hrep as [Hwf Hst]. pose proof Hwf as (Hc & _ & _).
  unfold strlist_contig_count. apply wp_bind, scan_all_spec; [done| |].
  - intros j Hj Hfirst. apply wp_ret.
    by rewrite (rep_first_null _ _ j Hrep (proj1 Hj) Hfirst).
  - intros Hall. apply wp_ret. pose proof (rep_length _ _ Hrep).
    destruct (Z.eq_dec (sl_capacity sl) (Zlen l)) as [->|]; [done|]. exfalso.
    destruct (Hall (Zlen l)) as [x Hx]; [pose proof (Zlen_nonneg l); lia|].
    unfold Zlen in Hx. rewrite Hst in Hx. by rewrite lookup_ge_None_2 in Hx.
Qed.

Lemma get_spec sl l (i : nat) (Q : option cstr -> world E -> Prop) w :
  strlist_rep sl l -> Q (l !! i) w -> wp (strlist_get sl (Z.of_nat i)) Q w.
Proof.
  intros Hrep HQ. pose proof Hrep as [Hwf Hst]. pose proof Hwf as (Hc & _ & _).
  pose proof (rep_length _ _ Hrep). unfold strlist_get.
  destruct (Z.leb_spec (sl_capacity sl) (Z.of_nat i)).
  - apply wp_ret. rewrite lookup_ge_None_2 in HQ by (unfold Zlen in *; lia). done.
  - apply slot_read_spec; [done|lia|]. by rewrite Hst.
Qed.

(** Taking an element out of the list. *)
Lemma adopt_spec sl i (Q : option cstr * strlist -> world E -> Prop) w :
  strlist_wf sl -> 0 <= i < sl_capacity sl ->
  (forall sl', strlist_wf sl' -> sl_capacity sl' = sl_capacity sl ->
     (forall j, 0 <= j -> stored sl' j = if decide (j = i) then None else stored sl j) ->
     Q (stored sl i, sl') w) ->
  wp (strlist_adopt sl i) Q w.
Proof.
  intros Hwf Hi HQ. unfold strlist_adopt. destruct (Z.leb_spec (sl_capacity sl) i); [lia|].
  apply wp_bind, slot_read_spec; [done|lia|]. apply wp_bind, slot_write_spec; [done|done|].
  apply wp_ret, HQ; [by apply wf_insert|done|]. intros. by apply stored_insert.
Qed.

Lemma rep_lookup sl l (i : nat) s :
  strlist_rep sl l -> l !! i = Some s ->
  stored sl (Z.of_nat i) = Some s /\ 0 <= Z.of_nat i < sl_capacity sl.
Proof.
  intros Hrep Hi. pose proof (rep_length _ _ Hrep). destruct Hrep as [Hwf Hst].
  rewrite Hst. split; [done|]. apply lookup_lt_Some in Hi. unfold Zlen in *. lia.
Qed.

Lemma alloc_spec capacity (Q : Z * option strlist -> world E -> Prop) w :
  heap_low w -> 0 <= capacity <= STRLIST_MAX ->
  (forall sl w', frame w w' -> strlist_rep sl [] -> sl_capacity sl = capacity -> Q (0, Some sl) w') ->
  (forall w', frame w w' -> ~ heap_total w -> w_errno w' = ENOMEM -> Q (-1, None) w') ->
  wp (strlist_alloc capacity) Q w.
Proof.
  intros Hlow Hcap Hok Hfail. unfold strlist_alloc. pose proof ptr_bytes_pos.
  unfold STRLIST_MAX in *. rewrite u32_small by (unfold UINT_MAX; lia).
  apply wp_bind, wp_malloc; [done|unfold HEAP_HI; lia| |intros; by apply wp_ret, Hfail].
  intros a w1 _ Hw1. apply wp_bind, wp_malloc; [by eauto using frame_low|unfold HEAP_HI; nia| |].
  - intros a' w2 _ Hw2. apply wp_ret, Hok; [by etrans| |done]. split.
    + unfold strlist_wf. cbn [sl_strings sl_capacity].
      split_and!; [unfold UINT_MAX; lia..|zlen|]. apply lookup_replicate_2. lia.
    + intros i. unfold stored. cbn [sl_strings].
      destruct (replicate _ _ !! _) eqn:Hr; [|done]. by apply lookup_replicate_1 in Hr as [-> _].
  - intros w2 Hnt Hw2 He. apply wp_ret, Hfail; [by etrans|by eauto using frame_total|done].
Qed.
End strlist_facts.

(** ** Growth and integer overflow *)

Section strlist_overflow.
Context {E : Type}.

Lemma grow_by_defined (sl : strlist) n (w : world E) (Q : Z * strlist -> world E -> Prop) :
  strlist_wf sl -> sl_capacity sl <= MAX_CAPACITY (DM := ILP32) -> 0 <= n ->
  (forall r sl' w', strlist_wf sl' -> sl_capacity sl' <= MAX_CAPACITY (DM := ILP32) -> Q (r, sl') w') ->
  defined (strlist_grow_by (DM := ILP32) sl n) Q w.
Proof.
  intros Hwf Hcap Hn HQ. unfold strlist_grow_by. destruct (n =? 0); [by apply HQ|].
  pose proof Hwf as (Hc & Hlen & _). pose proof (MAX_CAPACITY_big (DM := ILP32)) as HM'.
  rewrite (sz_small (MAX_CAPACITY - _)) by lia.
  destruct (Z.ltb_spec (MAX_CAPACITY (DM := ILP32) - sl_capacity sl) n) as [Hlt|Hge].
  { by apply HQ. }
  assert (HM : MAX_CAPACITY (DM := ILP32) = 1073741822) by (vm_compute; reflexivity).
  apply defined_bind, defined_malloc. intros [a|] w'; [|by apply HQ].
  cbn [ptr_bytes ILP32].
  rewrite (u32_small (sl_capacity sl + n)) by (unfold UINT_MAX; lia).
  rewrite (u32_small (1 + _)) by (unfold UINT_MAX; lia).
  rewrite !sz_small32 by (unfold UINT_MAX; lia).
  apply defined_bind. unfold copy_and_clear. cbn [ptr_bytes ILP32]. rewrite Z.div_mul by lia.
  assert ((sl_capacity sl * 4 <=? (1 + (sl_capacity sl + n)) * 4) = true) as -> by lia.
  assert ((Z.of_nat (Z.to_nat (sl_capacity sl)) <=? Zlen (sl_strings sl)) = true) as ->
    by (apply Z.leb_le; lia).
  rewrite <-Z.mul_sub_distr_r, Z.div_mul by lia. cbn [andb]. apply HQ; [|cbn; lia].
  replace (Z.to_nat (1 + (sl_capacity sl + n) - sl_capacity sl)) with (1 + Z.to_nat n)%nat by lia.
  rewrite replicate_add, app_assoc. cbn [replicate]. rewrite <-wf_split by done.
  apply (grown_wf sl n); [done|lia|unfold UINT_MAX; lia].
Qed.
End strlist_overflow.

(** ** Properties *)

(** C31: [strlist_set] stores its string at the index it is given, growing the array when the
    index is beyond the capacity, and changes no other element.  When the index needs more than
    the greatest capacity it returns -1 with [ENOSPC] and the array as it was; when an allocation
    fails (there is no memory, or the array would be greater than the allocator's limit) it
    returns -1 with [ENOMEM] and every element as it was.  The array stays NULL-terminated. *)
Theorem strlist_set_stores {E} `{DM : DataModel} (sl : strlist) (idx : Z) (str : cstr) (w : world E) :
  strlist_wf sl -> sl_capacity sl <= MAX_CAPACITY -> heap_low w ->
  0 <= idx -> idx + 1 + GROW_COUNT < UINT_MAX -> Zlen str + 1 <= HEAP_HI ->
  wp (strlist_set sl idx str) (fun '(r, sl') w' =>
    frame w w' /\ strlist_wf sl' /\
    if (sl_capacity sl <=? idx) && (MAX_CAPACITY <? idx + 1 + GROW_COUNT)
    then r = -1 /\ w_errno w' = ENOSPC /\ sl' = sl
    else
      (r = 0 /\ idx < sl_capacity sl' /\
       forall i, 0 <= i -> stored sl' i = if decide (i = idx) then Some str else stored sl i) \/
      (r = -1 /\ w_errno w' = ENOMEM /\ (forall i, stored sl' i = stored sl i) /\
       (~ heap_total w \/ HEAP_HI < (1 + (idx + 1 + GROW_COUNT)) * ptr_bytes))) w.
Proof.
  intros. wp_use set_any_spec; [done..|].
  intros [r sl'] w' (? & ? & ? & Hr). split_and!; [done|done|]. cbn [fst snd] in Hr.
  destruct (_ && _); [done|]. naive_solver.
Qed.

Definition strlist_0 : strlist := Strlist [None] 0.

Lemma strlist_0_wf : strlist_wf strlist_0.
Proof. unfold strlist_wf. cbn. split_and!; [lia|unfold UINT_MAX; lia|done|done]. Qed.

(** Index 2 is stored; in a 32-bit object index 1073741800 has no space. *)
Lemma strlist_set_stores_witness :
  wp (@strlist_set () LP64 strlist_0 2 (cs "gamma")) (fun '(r, sl') w' =>
    r = 0 /\ forall i, 0 <= i -> stored sl' i = if decide (i = 2) then Some (cs "gamma") else stored strlist_0 i)
   (World 0 [] [] ()) /\
  wp (@strlist_set () ILP32 strlist_0 1073741800 (cs "gamma")) (fun '(r, sl') w' =>
    r = -1 /\ w_errno w' = ENOSPC /\ sl' = strlist_0) (World 0 [] [] ()).
Proof.
  split.
  - eapply wp_mono; [apply (@strlist_set_stores () LP64 strlist_0 2 (cs "gamma") (World 0 [] [] ()))|].
    1: apply strlist_0_wf. 2: constructor. 1-4: by vm_compute.
    intros [r sl'] w' (_ & _ & Hr). destruct Hr as [(Hr & _ & Hst)|(_ & _ & _ & [Hnt|Hbig])]; [exact (conj Hr Hst)| |].
    + exfalso. apply Hnt. constructor.
    + exfalso. revert Hbig. by vm_compute.
  - eapply wp_mono; [apply (@strlist_set_stores () ILP32 strlist_0 1073741800 (cs "gamma") (World 0 [] [] ()))|].
    1: apply strlist_0_wf. 2: constructor. 1-4: by vm_compute.
    intros [r sl'] w' (_ & _ & Hr). exact Hr.
Defined.

(** [strlist_set_tail] refines appending to the list of strings: a full array is extended,
    never refused, and only a failed allocation makes it return -1. *)
Theorem strlist_set_tail_appends {E} `{DM : DataModel} (sl : strlist) (l : list cstr) (str : cstr) (w : world E) :
  strlist_rep sl l -> heap_low w -> sl_capacity sl <= STRLIST_MAX -> Zlen str + 1 <= HEAP_HI ->
  wp (strlist_set_tail sl str) (fun '(r, sl') w' =>
    frame w w' /\ sl_capacity sl <= sl_capacity sl' <= sl_capacity sl + GROW_COUNT /\
    ((r = 0 /\ strlist_rep sl' (l ++ [str])) \/
     (r = -1 /\ ~ heap_total w /\ w_errno w' = ENOMEM /\ strlist_rep sl' l))) w.
Proof. intros. wp_use set_tail_spec; [done..|]. by intros [r sl'] w' ?. Qed.

Lemma strlist_0_rep : strlist_rep strlist_0 [].
Proof. split; [apply strlist_0_wf|]. intros i. unfold stored. rewrite Nat2Z.id. by destruct i as [|[|i]]. Qed.

Lemma strlist_set_tail_appends_witness :
  wp (@strlist_set_tail () ILP32 strlist_0 (cs "alpha")) (fun '(r, sl') w' =>
    frame (World 0 [] [] ()) w' /\ 0 <= sl_capacity sl' <= 32 /\
    ((r = 0 /\ strlist_rep sl' [cs "alpha"]) \/
     (r = -1 /\ ~ heap_total (World 0 [] [] ()) /\ w_errno w' = ENOMEM /\ strlist_rep sl' [])))
   (World 0 [] [] ()).
Proof.
  apply (@strlist_set_tail_appends () ILP32 strlist_0 [] (cs "alpha") (World 0 [] [] ())).
  - apply strlist_0_rep.
  - constructor.
  - by vm_compute.
  - by vm_compute.
Defined.

(** In a 32-bit object the capacity check of [strlist_grow_by] protects every call of
    [strlist_set]: whatever the index, it never reads or writes outside the array (it returns
    0 or -1, or aborts in [VERIFY]). *)
Theorem strlist_set_ilp32_defined {E} (sl : strlist) (idx : Z) (str : cstr) (w : world E) :
  strlist_wf sl -> sl_capacity sl <= MAX_CAPACITY (DM := ILP32) -> 0 <= idx <= UINT_MAX ->
  defined (strlist_set (DM := ILP32) sl idx str) (fun '(r, sl') _ =>
    strlist_wf sl' /\ sl_capacity sl' <= MAX_CAPACITY (DM := ILP32)) w.
Proof.
  intros Hwf Hcap Hidx. unfold strlist_set. apply defined_bind.
  assert (Hrest : forall r sl w, strlist_wf sl -> sl_capacity sl <= MAX_CAPACITY (DM := ILP32) ->
    defined (if negb (r =? 0) then mret (-1, sl) else
      VERIFY (idx <? sl_capacity sl) ;;
      t ← malloc (DM := ILP32) (Zlen str + 1);
      match t with
      | None => mret (-1, sl)
      | Some _ => strings ← slot_write (sl_strings sl) idx (Some str);
                  mret (0, Strlist strings (sl_capacity sl))
      end) (fun '(r, sl') (_ : world E) =>
        strlist_wf sl' /\ sl_capacity sl' <= MAX_CAPACITY (DM := ILP32)) w).
  { clear -Hidx. intros r sl w Hwf Hcap. destruct (negb _); [done|].
    apply defined_bind, defined_VERIFY. intros Hlt%Z.ltb_lt.
    apply defined_bind, defined_malloc. intros [a|] w'; [|done].
    apply defined_bind, wp_defined, slot_write_spec; [done|lia|].
    split; [apply wf_insert; done || lia|done]. }
  destruct (Z.leb_spec (sl_capacity sl) idx).
  - apply grow_by_defined; [done|done|apply u32_range|]. intros r sl' w' ??. by apply Hrest.
  - by apply Hrest.
Qed.

Lemma strlist_set_ilp32_defined_witness :
  defined (E := ()) (strlist_set (DM := ILP32) strlist_0 UINT_MAX (cs "x")) (fun '(r, sl') _ =>
    strlist_wf sl' /\ sl_capacity sl' <= MAX_CAPACITY (DM := ILP32)) (World 0 [] [] ()).
Proof.
  apply (strlist_set_ilp32_defined strlist_0 UINT_MAX (cs "x") (World 0 [] [] ())).
  - apply strlist_0_wf.
  - by vm_compute.
  - by vm_compute.
Defined.

(** In a 64-bit object the same check compares against [SIZE_MAX / 8] while the capacity
    wraps at 32 bits.  Storing at index [UINT_MAX] in an array of more than 33 elements asks
    for a new array of 32 elements and copies the old one over its end. *)
Theorem strlist_set_lp64_overrun {E} (sl : strlist) (str : cstr) (w : world E) :
  strlist_wf sl -> 33 < sl_capacity sl < UINT_MAX -> heap_low w -> heap_total w ->
  strlist_set (DM := LP64) sl UINT_MAX str w = Undefined.
Proof.
  intros Hwf Hcap Hlow Htot. unfold strlist_set. unfold UINT_MAX, GROW_COUNT in *.
  assert (sl_capacity sl <=? 4294967295 = true) as -> by lia.
  rewrite (u32_small (4294967295 - _ + 1)) by (unfold UINT_MAX; lia).
  rewrite (u32_small (4294967295 - _ + 1 + 32)) by (unfold UINT_MAX; lia).
  apply bind_undefined. unfold strlist_grow_by. destruct (Z.eqb_spec (4294967295 - sl_capacity sl + 1 + 32) 0); [lia|].
  assert (HM : MAX_CAPACITY (DM := LP64) = 2305843009213693950) by done.
  assert (HS : SIZE_MAX (DM := LP64) = 18446744073709551615) by done.
  rewrite HM, (sz_small (2305843009213693950 - _)) by lia.
  destruct (Z.ltb_spec (2305843009213693950 - sl_capacity sl) (4294967295 - sl_capacity sl + 1 + 32)); [lia|].
  assert (u32 (sl_capacity sl + (4294967295 - sl_capacity sl + 1 + 32)) = 32) as ->.
  { replace (sl_capacity sl + _) with 4294967328 by lia. done. }
  change (u32 (1 + 32)) with 33. cbn [ptr_bytes LP64]. rewrite !sz_small by lia.
  destruct (malloc_total (E := E) (DM := LP64) (33 * 8) w) as (a & w' & Hm & _);
    [done|done|unfold HEAP_HI; lia|].
  erewrite bind_done by exact Hm. apply bind_undefined. unfold copy_and_clear.
  by assert (sl_capacity sl * 8 <=? 33 * 8 = false) as -> by lia.
Qed.

Definition strlist_64 : strlist := Strlist (replicate 65 None) 64.

Lemma strlist_set_lp64_overrun_witness :
  strlist_set (E := ()) (DM := LP64) strlist_64 UINT_MAX (cs "x") (World 0 [] [] ()) = Undefined.
Proof.
  apply (strlist_set_lp64_overrun strlist_64 (cs "x") (World 0 [] [] ())).
  - unfold strlist_wf. cbn. unfold UINT_MAX. split_and!; [lia|lia|done|done].
  - by vm_compute.
  - constructor.
  - constructor.
Defined.
