(* ===== verification/Cnum.v ===== *)
(** * Cnum: the number conversions of the C library the sources call

    [strtol], [strtoul], [strtoll] and [atoi] with their white space, signs, prefixes, end
    pointers and range rules, and the [%u], [%d], [%0Nx] and [%o] conversions of [printf].  A
    digit sequence is scanned into its value; printing is shown to be a right inverse of it. *)
From Stdlib Require Import Lia.
From S2P Require Import Prelude.

Definition ERANGE : Z := 34.

(** ** Digits *)

Definition digit_val (c : char) : option Z :=
  let n := code c in
  if (48 <=? n) && (n <=? 57) then Some (n - 48)
  else if (97 <=? n) && (n <=? 122) then Some (n - 87)
  else if (65 <=? n) && (n <=? 90) then Some (n - 55)
  else None.

(** The digit characters [0-9a-f]. *)
Definition digit_chr (d : Z) : char := if d <? 10 then chr (48 + d) else chr (87 + d).

Definition is_digit_in (base : Z) (c : char) : bool :=
  match digit_val c with Some d => d <? base | None => false end.

(** The value of the digits at the head of [s], continuing from [acc], and what follows them. *)
Fixpoint scan_digits (base acc : Z) (s : cstr) : Z * cstr :=
  match s with
  | [] => (acc, [])
  | c :: s' =>
      match digit_val c with
      | Some d => if d <? base then scan_digits base (acc * base + d) s' else (acc, s)
      | None => (acc, s)
      end
  end.

(** [isspace] in the C locale. *)
Definition isspace (c : char) : bool :=
  let n := code c in (n =? 32) || ((9 <=? n) && (n <=? 13)).

Fixpoint skip_space (s : cstr) : cstr :=
  match s with c :: s' => if isspace c then skip_space s' else s | [] => [] end.

(** The sign: whether it is a minus, and what follows. *)
Definition scan_sign (s : cstr) : bool * cstr :=
  match s with
  | c :: s' => if Ascii.eqb c "-"%char then (true, s')
               else if Ascii.eqb c "+"%char then (false, s') else (false, s)
  | [] => (false, [])
  end.

(** The prefix [0x] of base 16 counts only before a hexadecimal digit. *)
Definition skip_prefix (base : Z) (s : cstr) : cstr :=
  match s with
  | z :: x :: d :: s' =>
      if (base =? 16) && Ascii.eqb z "0"%char &&
         (Ascii.eqb x "x"%char || Ascii.eqb x "X"%char) && is_digit_in 16 d
      then d :: s' else s
  | _ => s
  end.

(** The subject sequence of a conversion: its sign, magnitude and the end pointer; [None] when
    there is no digit (the end pointer is then the input). *)
Definition scan_number (base : Z) (s : cstr) : option (bool * Z * cstr) :=
  let '(neg, s1) := scan_sign (skip_space s) in
  let s2 := skip_prefix base s1 in
  match s2 with
  | c :: _ => if is_digit_in base c
              then let '(v, rest) := scan_digits base 0 s2 in Some (neg, v, rest)
              else None
  | [] => None
  end.

(** [strtol] and [strtoll] over the range [lo .. hi]: the value, whether [errno] is set to
    [ERANGE], and the end pointer. *)
Definition strto_signed (lo hi : Z) (base : Z) (s : cstr) : Z * bool * cstr :=
  match scan_number base s with
  | None => (0, false, s)
  | Some (neg, v, rest) =>
      let v := if neg then - v else v in
      if v <? lo then (lo, true, rest) else if hi <? v then (hi, true, rest) else (v, false, rest)
  end.

Definition strtoll : Z -> cstr -> Z * bool * cstr := strto_signed (- 2 ^ 63) (2 ^ 63 - 1).

Section strto.
Context `{DM : DataModel}.

Definition strtol : Z -> cstr -> Z * bool * cstr := strto_signed LONG_MIN LONG_MAX.

(** [strtoul]: a minus sign negates in the unsigned type. *)
Definition strtoul (base : Z) (s : cstr) : Z * bool * cstr :=
  match scan_number base s with
  | None => (0, false, s)
  | Some (neg, v, rest) =>
      if ULONG_MAX <? v then (ULONG_MAX, true, rest)
      else (if neg then sz (- v) else v, false, rest)
  end.
End strto.

(** [atoi]: no answer ([None]) where the value is not an [int] and C leaves it undefined. *)
Definition atoi (s : cstr) : option Z :=
  match scan_number 10 s with
  | None => Some 0
  | Some (neg, v, _) =>
      let v := if neg then - v else v in
      if (INT_MIN <=? v) && (v <=? INT_MAX) then Some v else None
  end.

(** ** Printing *)

(** The digits of [n] in [base], least significant last; [fuel] bounds their number. *)
Fixpoint to_digits (fuel : nat) (base n : Z) : list Z :=
  match fuel with
  | O => []
  | S fuel => if n <? base then [n] else to_digits fuel base (n / base) ++ [n mod base]
  end.

Definition print_base (base n : Z) : cstr :=
  digit_chr <$> to_digits (S (Z.to_nat (Z.log2 n))) base n.

(** [%u] (and [%llu]), [%d], [%0Nx] and [%0No]. *)
Definition print_u (n : Z) : cstr := print_base 10 n.
Definition print_d (n : Z) : cstr := if n <? 0 then "-"%char :: print_base 10 (- n) else print_base 10 n.
Definition pad0 (width : nat) (s : cstr) : cstr := replicate (width - length s) "0"%char ++ s.
Definition print_x (width : nat) (n : Z) : cstr := pad0 width (print_base 16 n).
Definition print_o (width : nat) (n : Z) : cstr := pad0 width (print_base 8 n).

(** ** Facts *)

Definition digits_value (base acc : Z) (ds : list Z) : Z := foldl (fun a d => a * base + d) acc ds.

(** [s] does not go on with a digit of [base]. *)
Definition stops (base : Z) (s : cstr) : Prop :=
  match s with [] => True | c :: _ => is_digit_in base c = false end.

Lemma digit_val_chr d : 0 <= d < 16 -> digit_val (digit_chr d) = Some d.
Proof.
  intros H. assert (In d (map Z.of_nat (seq 0 16))) as Hin.
  { apply in_map_iff. exists (Z.to_nat d). rewrite in_seq. lia. }
  revert d H Hin. change (forall d, 0 <= d < 16 -> In d (map Z.of_nat (seq 0 16)) -> digit_val (digit_chr d) = Some d).
  intros d _ Hin. cbn in Hin.
  repeat (destruct Hin as [<-|Hin]; [vm_compute; reflexivity|]). destruct Hin.
Qed.

Lemma digit_chr_in base d : 0 <= d < base -> base <= 16 -> is_digit_in base (digit_chr d) = true.
Proof. intros. unfold is_digit_in. rewrite digit_val_chr by lia. lia. Qed.

Lemma scan_digits_stop base acc s : stops base s -> scan_digits base acc s = (acc, s).
Proof.
  destruct s as [|c s]; [done|]. unfold stops, is_digit_in. cbn.
  by destruct (digit_val c) as [d|]; [intros ->|].
Qed.

Lemma scan_digits_app base acc ds rest :
  Forall (fun d => 0 <= d < base) ds -> base <= 16 ->
  scan_digits base acc ((digit_chr <$> ds) ++ rest) = scan_digits base (digits_value base acc ds) rest.
Proof.
  intros Hds Hb. revert acc. induction Hds as [|d ds Hd Hds IH]; intros acc; cbn; [done|].
  rewrite digit_val_chr by lia. assert (d <? base = true) as -> by lia. apply IH.
Qed.

Lemma digits_value_app base acc ds ds' :
  digits_value base acc (ds ++ ds') = digits_value base (digits_value base acc ds) ds'.
Proof. apply foldl_app. Qed.

Lemma log2_div base n : 2 <= base -> base <= n -> (Z.to_nat (Z.log2 (n / base)) < Z.to_nat (Z.log2 n))%nat.
Proof.
  intros Hb Hn. assert (n / base <= n / 2) by (apply Z.div_le_compat_l; lia).
  assert (Z.log2 (n / base) <= Z.log2 (n / 2)) by (by apply Z.log2_le_mono).
  assert (Z.log2 (n / 2) = Z.log2 n - 1).
  { rewrite <-Z.div2_div, Z.div2_spec, Z.log2_shiftr by lia. pose proof (Z.log2_pos n). lia. }
  pose proof (Z.log2_pos n ltac:(lia)). pose proof (Z.log2_nonneg (n / base)). lia.
Qed.

(** Printed digits are digits of the base, and their value is the number. *)
Lemma to_digits_ok base fuel n :
  2 <= base -> 0 <= n -> (Z.to_nat (Z.log2 n) < fuel)%nat ->
  Forall (fun d => 0 <= d < base) (to_digits fuel base n) /\
  digits_value base 0 (to_digits fuel base n) = n /\ to_digits fuel base n <> [].
Proof.
  intros Hb. revert n. induction fuel as [|fuel IH]; intros n Hn Hf; [lia|]. cbn [to_digits].
  destruct (Z.ltb_spec n base).
  - split_and!; [apply Forall_singleton; lia|done|done].
  - pose proof (log2_div base n Hb ltac:(done)).
    destruct (IH (n / base)) as (Hall & Hval & Hne); [apply Z.div_pos; lia|lia|].
    pose proof (Z.mod_pos_bound n base ltac:(lia)).
    split_and!.
    + apply Forall_app. split; [done|]. by apply Forall_singleton.
    + rewrite digits_value_app, Hval. cbn. pose proof (Z.div_mod n base ltac:(lia)). lia.
    + by destruct (to_digits fuel base (n / base)).
Qed.

(** How many digits a number may need. *)
Lemma to_digits_length base fuel n k :
  2 <= base -> 0 <= n < base ^ Z.of_nat k -> (0 < k)%nat -> (length (to_digits fuel base n) <= k)%nat.
Proof.
  intros Hb. revert n k. induction fuel as [|fuel IH]; intros n k Hn Hk; cbn [to_digits]; [cbn; lia|].
  destruct (Z.ltb_spec n base); [cbn; lia|].
  destruct k as [|[|k]]; [lia|cbn in Hn; lia|]. rewrite length_app. cbn.
  assert (length (to_digits fuel base (n / base)) <= S k)%nat; [|lia].
  apply IH; [|lia]. split; [apply Z.div_pos; lia|]. apply Z.div_lt_upper_bound; [lia|].
  rewrite Nat2Z.inj_succ, Z.pow_succ_r in Hn by lia. lia.
Qed.

Lemma print_base_digits base n :
  2 <= base <= 16 -> 0 <= n -> Forall (fun c => is_digit_in base c = true) (print_base base n).
Proof.
  intros Hb Hn. unfold print_base. apply Forall_fmap.
  destruct (to_digits_ok base (S (Z.to_nat (Z.log2 n))) n) as (Hall & _); [lia|lia|lia|].
  eapply Forall_impl; [|exact Hall]. intros d Hd. cbn in *. apply digit_chr_in; [exact Hd|lia].
Qed.

(** A character that is a digit is no white space, sign or NUL. *)
Lemma digit_not_special base c :
  is_digit_in base c = true ->
  isspace c = false /\ Ascii.eqb c "-"%char = false /\ Ascii.eqb c "+"%char = false /\ c <> NUL /\
  c <> " "%char /\ c <> LF.
Proof.
  unfold is_digit_in, digit_val, isspace. intros H.
  assert (Hc : 48 <= code c) by (repeat case_match; try done; lia).
  split; [lia|]. split_and!.
  - apply Ascii.eqb_neq. intros ->. revert Hc. vm_compute. congruence.
  - apply Ascii.eqb_neq. intros ->. revert Hc. vm_compute. congruence.
  - intros ->. revert Hc. vm_compute. congruence.
  - intros ->. revert Hc. vm_compute. congruence.
  - intros ->. revert Hc. vm_compute. congruence.
Qed.

Lemma scan_zeros base k acc s : 0 < base ->
  acc = 0 -> scan_digits base acc (replicate k "0"%char ++ s) = scan_digits base 0 s.
Proof.
  intros Hb ->. induction k as [|k IH]; [done|]. cbn -[digit_val].
  change (digit_val "0"%char) with (Some 0). cbn beta iota.
  assert ((0 <? base) = true) as -> by lia. exact IH.
Qed.

(** Scanning a number that was printed, padded with zeros or not. *)
Lemma scan_print base w n rest :
  2 <= base <= 16 -> 0 <= n -> stops base rest ->
  scan_digits base 0 (pad0 w (print_base base n) ++ rest) = (n, rest).
Proof.
  intros Hb Hn Hrest. unfold pad0. rewrite <-app_assoc, scan_zeros by lia.
  destruct (to_digits_ok base (S (Z.to_nat (Z.log2 n))) n) as (Hall & Hval & _); [lia|lia|lia|].
  unfold print_base. rewrite scan_digits_app, Hval by (done || lia). by apply scan_digits_stop.
Qed.

Lemma pad0_digits base w s :
  1 <= base -> Forall (fun c => is_digit_in base c = true) s ->
  Forall (fun c => is_digit_in base c = true) (pad0 w s).
Proof.
  intros Hb Hs. unfold pad0. apply Forall_app. split; [|done]. apply Forall_replicate.
  unfold is_digit_in. change (digit_val "0"%char) with (Some 0). apply Z.ltb_lt. lia.
Qed.

Lemma print_base_nonnil base n : 2 <= base -> 0 <= n -> print_base base n <> [].
Proof.
  intros Hb Hn H%fmap_nil_inv. by destruct (to_digits_ok base (S (Z.to_nat (Z.log2 n))) n) as (_ & _ & Hne); [lia|lia|lia|].
Qed.

Lemma pad0_nonnil w s : s <> [] -> pad0 w s <> [].
Proof. unfold pad0. by intros ? [_ ?]%app_nil. Qed.

(** Neither a digit nor a letter follows: what the sources print after a number. *)
Definition ends (s : cstr) : Prop := stops 36 s.

Lemma ends_stops base s : base <= 36 -> ends s -> stops base s.
Proof.
  unfold ends, stops, is_digit_in. destruct s as [|c s]; [done|].
  destruct (digit_val c) as [d|]; [|done]. lia.
Qed.

Lemma skip_prefix_printed base s rest :
  base <= 16 -> Forall (fun c => is_digit_in base c = true) s -> s <> [] -> ends rest ->
  skip_prefix base (s ++ rest) = s ++ rest.
Proof.
  intros Hb Hs Hne Hrest.
  assert (Hx : forall c, is_digit_in base c = true -> Ascii.eqb c "x"%char || Ascii.eqb c "X"%char = false).
  { intros c Hc. apply orb_false_iff. split; apply Ascii.eqb_neq; intros ->;
      apply Z.ltb_lt in Hc; revert Hc; apply Z.le_ngt; by etrans; [exact Hb|]. }
  assert (Hsnd : forall a x r d l, s ++ rest = a :: x :: l -> l = d :: r ->
    Ascii.eqb x "x"%char || Ascii.eqb x "X"%char = false).
  { intros a x r d l Heq ->. destruct s as [|a' [|b s]]; [done| |].
    - injection Heq as -> Heq. destruct rest as [|y rest]; [done|]. injection Heq as -> _.
      apply orb_false_iff. split; apply Ascii.eqb_neq; intros ->; by vm_compute in Hrest.
    - injection Heq as -> -> _. apply Hx. apply Forall_cons_1 in Hs as [_ Hs]. by apply Forall_cons_1 in Hs as [Hs _]. }
  unfold skip_prefix. destruct (s ++ rest) as [|a [|x [|d l]]]; [done..|].
  erewrite Hsnd by done. by rewrite andb_false_r.
Qed.

(** A printed number is read back, up to what follows it. *)
Lemma scan_number_print base w n rest :
  2 <= base <= 16 -> 0 <= n -> ends rest ->
  scan_number base (pad0 w (print_base base n) ++ rest) = Some (false, n, rest).
Proof.
  intros Hb Hn Hrest.
  assert (Hd : Forall (fun c => is_digit_in base c = true) (pad0 w (print_base base n)))
    by (apply pad0_digits; [lia|by apply print_base_digits]).
  assert (Hne : pad0 w (print_base base n) <> []) by (apply pad0_nonnil, print_base_nonnil; lia).
  pose proof (skip_prefix_printed base _ rest ltac:(lia) Hd Hne Hrest) as Hskip.
  pose proof (scan_print base w n rest Hb Hn (ends_stops base rest ltac:(lia) Hrest)) as Hscan.
  unfold scan_number. destruct (pad0 w (print_base base n)) as [|c s]; [done|].
  apply Forall_cons_1 in Hd as [Hc _]. pose proof (digit_not_special _ _ Hc) as (Hsp & Hm & Hp & _).
  cbn [app] in *. cbn [skip_space]. rewrite Hsp. cbn [scan_sign]. rewrite Hm, Hp, Hskip, Hc, Hscan. done.
Qed.

Lemma strtoul_print `{DM : DataModel} base w n rest :
  2 <= base <= 16 -> 0 <= n <= UINT_MAX -> ends rest ->
  strtoul base (pad0 w (print_base base n) ++ rest) = (n, false, rest).
Proof.
  intros Hb Hn Hrest. unfold strtoul. rewrite scan_number_print by (done || lia).
  assert (ULONG_MAX <? n = false) as ->; [|done].
  pose proof SIZE_MAX_bound. unfold SIZE_MAX, ULONG_MAX in *. lia.
Qed.

Lemma LONG_MAX_bound `{DM : DataModel} : INT_MAX <= LONG_MAX /\ LONG_MIN <= INT_MIN.
Proof. unfold LONG_MAX, LONG_MIN. destruct ptr_bytes_ok as [-> | ->]; by vm_compute. Qed.

Lemma strtol_print `{DM : DataModel} base w n rest :
  2 <= base <= 16 -> 0 <= n <= INT_MAX -> ends rest ->
  strtol base (pad0 w (print_base base n) ++ rest) = (n, false, rest).
Proof.
  intros Hb Hn Hrest. unfold strtol, strto_signed. rewrite scan_number_print by (done || lia).
  pose proof LONG_MAX_bound. unfold INT_MIN in *.
  assert (n <? LONG_MIN = false) as -> by lia. by assert (LONG_MAX <? n = false) as -> by lia.
Qed.

Lemma print_pad0 base n : print_base base n = pad0 0 (print_base base n).
Proof. done. Qed.

(** Printed numbers are C strings without blanks or line feeds. *)
Lemma digits_free base s (c : char) :
  Forall (fun c => is_digit_in base c = true) s -> is_digit_in base c = false -> c ∉ s.
Proof.
  intros Hs Hc Hin. apply list_elem_of_lookup in Hin as [i Hi].
  pose proof (Forall_lookup_1 _ _ _ _ Hs Hi) as H. cbn in H. congruence.
Qed.

Lemma print_u_length n : 0 <= n <= UINT_MAX -> Zlen (print_u n) <= 10.
Proof.
  intros Hn. unfold print_u, print_base, Zlen. rewrite length_fmap.
  assert (length (to_digits (S (Z.to_nat (Z.log2 n))) 10 n) <= 10)%nat; [|lia].
  apply to_digits_length; [lia| |lia]. unfold UINT_MAX in Hn. change (10 ^ Z.of_nat 10) with 10000000000. lia.
Qed.

Lemma print_d_length n : INT_MIN <= n <= INT_MAX -> Zlen (print_d n) <= 11.
Proof.
  unfold INT_MIN, INT_MAX. intros Hn. unfold print_d. destruct (Z.ltb_spec n 0).
  - rewrite Zlen_cons. pose proof (print_u_length (- n)) as Hu. unfold print_u, UINT_MAX in Hu. lia.
  - pose proof (print_u_length n) as Hu. unfold print_u, UINT_MAX in Hu. lia.
Qed.

Lemma digits_cstr base s : Forall (fun c => is_digit_in base c = true) s -> is_cstr s.
Proof.
  intros Hs Hin. apply list_elem_of_lookup in Hin as [i Hi]. pose proof (Forall_lookup_1 _ _ _ _ Hs Hi) as Hc.
  by apply digit_not_special in Hc as (_ & _ & _ & ? & _).
Qed.
