(* ===== verification/Parser.v ===== *)
(** * Parser: splitting and tokenising lines, [tools/common/parser.c]

    Built on [Custr] (the token being collected) and [Strlist] (the tokens found).  At the
    label [out] both functions store their error in [errno] and return 0 or -1. *)
From Stdlib Require Import Lia.
From S2P Require Import Prelude Custr Strlist.

Inductive parser_state := ST_WHITESPACE | ST_TOKEN.
Inductive lextype := LEX_ENDL | LEX_WHITESPACE | LEX_OTHER.

Section parser.
Context {E : Type} `{DM : DataModel}.

(** [out: errno = error; return (error == 0 ? 0 : -1);] *)
Definition finish {A} (error : Z) (a : A) : C E (Z * A) :=
  set_errno error ;; mret (if error =? 0 then 0 else -1, a).

(** [if (strlist_set_tail(sl, custr_cstr(cu)) != 0) error = errno;] *)
Definition store_token (cu : custr) (sl : strlist) : C E (Z * strlist) :=
  s ← custr_cstr cu;
  '(r, sl) ← strlist_set_tail sl s;
  if negb (r =? 0) then e ← get_errno; mret (e, sl) else mret (0, sl).

Fixpoint split_loop (line : cstr) (delim : char) (cu : custr) (sl : strlist) : C E (Z * strlist) :=
  match line with
  | [] => if 0 <? custr_len cu then store_token cu sl else mret (0, sl)
  | cc :: line =>
      if Ascii.eqb cc delim then
        '(e, sl) ← store_token cu sl;
        if negb (e =? 0) then mret (e, sl) else
        cu ← custr_reset cu;
        split_loop line delim cu sl
      else
        '(r, cu) ← custr_appendc cu cc;
        if negb (r =? 0) then e ← get_errno; mret (e, sl)
        else split_loop line delim cu sl
  end.

Definition split_on (line : cstr) (delim : char) (sl : strlist) : C E (Z * strlist) :=
  m ← custr_alloc;
  '(error, sl) ←
    match m with
    | None => e ← get_errno; mret (e, sl)
    | Some cu => split_loop line delim cu sl
    end;
  finish error sl.

(** "Determine which class of character this is": [None] is the terminating NUL. *)
Definition classify (cc : option char) : lextype :=
  match cc with
  | None => LEX_ENDL
  | Some c =>
      if Ascii.eqb c NUL || Ascii.eqb c "#"%char || Ascii.eqb c (chr 10) || Ascii.eqb c (chr 13)
      then LEX_ENDL
      else if Ascii.eqb c " "%char || Ascii.eqb c (chr 9) then LEX_WHITESPACE
      else LEX_OTHER
  end.

(** The loop of [parse_line].  The two changes of state do not consume a character, so the
    loop takes at most two turns a character; [fuel] counts turns. *)
Fixpoint parse_loop (fuel : nat) (state : parser_state) (c : cstr) (cu : custr) (sl : strlist)
  : C E (Z * strlist) :=
  match fuel with
  | O => c_undefined
  | S fuel =>
      match state, classify (head c) with
      | ST_WHITESPACE, LEX_ENDL => mret (0, sl)
      | ST_WHITESPACE, LEX_WHITESPACE => parse_loop fuel ST_WHITESPACE (tail c) cu sl
      | ST_WHITESPACE, LEX_OTHER => parse_loop fuel ST_TOKEN c cu sl
      | ST_TOKEN, LEX_ENDL => store_token cu sl
      | ST_TOKEN, LEX_WHITESPACE =>
          '(e, sl) ← store_token cu sl;
          if negb (e =? 0) then mret (e, sl) else
          cu ← custr_reset cu;
          parse_loop fuel ST_WHITESPACE c cu sl
      | ST_TOKEN, LEX_OTHER =>
          '(r, cu) ← custr_appendc cu (default NUL (head c));
          if negb (r =? 0) then e ← get_errno; mret (e, sl)
          else parse_loop fuel ST_TOKEN (tail c) cu sl
      end
  end.

(** The number of turns the loop may take on a line. *)
Definition line_fuel (line : cstr) : nat := 2 * length line + 2.

Definition parse_line (line : cstr) (sl : strlist) : C E (Z * strlist) :=
  m ← custr_alloc;
  '(error, sl) ←
    match m with
    | None => e ← get_errno; mret (e, sl)
    | Some cu => parse_loop (line_fuel line) ST_WHITESPACE line cu sl
    end;
  finish error sl.
End parser.

(** ** Reference definitions *)

(** [split_on] keeps every field but an empty one at the end. *)
Fixpoint fields_on (d : char) (acc s : cstr) : list cstr :=
  match s with
  | [] => if decide (acc = []) then [] else [acc]
  | c :: s' => if Ascii.eqb c d then acc :: fields_on d [] s' else fields_on d (acc ++ [c]) s'
  end.

(** The part of a line before its comment or end. *)
Fixpoint line_body (s : cstr) : cstr :=
  match s with
  | [] => []
  | c :: s' => match classify (Some c) with LEX_ENDL => [] | _ => c :: line_body s' end
  end.

Definition untab (c : char) : char := if Ascii.eqb c (chr 9) then " "%char else c.

(** The words of a line: what blanks and tabs separate. *)
Definition words_from (acc s : cstr) : list cstr :=
  filter (fun f => f <> []) (split_fields " "%char (acc ++ (untab <$> line_body s))).
Definition line_words (s : cstr) : list cstr := words_from [] s.

(** ** The fields of a line *)

(** All fields but an empty last one. *)
Fixpoint drop_last_empty (fs : list cstr) : list cstr :=
  match fs with
  | [] => []
  | [f] => if decide (f = []) then [] else [f]
  | f :: fs => f :: drop_last_empty fs
  end.

Lemma drop_last_empty_cons f fs : fs <> [] -> drop_last_empty (f :: fs) = f :: drop_last_empty fs.
Proof. by destruct fs. Qed.

Lemma free_snoc (d c : char) t : d ∉ t -> c <> d -> d ∉ t ++ [c].
Proof. rewrite elem_of_app, list_elem_of_singleton. naive_solver. Qed.

Lemma fields_on_split d acc s : d ∉ acc -> fields_on d acc s = drop_last_empty (split_fields d (acc ++ s)).
Proof.
  revert acc. induction s as [|c s IH]; intros acc Hacc; cbn [fields_on].
  - by rewrite app_nil_r, split_fields_free.
  - destruct (Ascii.eqb_spec c d) as [->|Hne].
    + rewrite split_fields_app, drop_last_empty_cons by (done || apply split_fields_nonnil).
      by rewrite IH by apply not_elem_of_nil.
    + rewrite IH by (by apply free_snoc). by rewrite <-app_assoc.
Qed.

(** ** The words of a line *)

Lemma untab_other c : classify (Some c) = LEX_OTHER -> untab c = c /\ c <> " "%char.
Proof.
  unfold classify, untab. intros H. case_match; [done|]. clear -H.
  destruct (Ascii.eqb_spec c " "%char); [done|]. by destruct (Ascii.eqb_spec c (chr 9)).
Qed.

Lemma untab_blank c : classify (Some c) = LEX_WHITESPACE -> untab c = " "%char.
Proof.
  unfold classify, untab. intros H. case_match; [done|]. clear -H.
  destruct (Ascii.eqb_spec c " "%char) as [Hc|]; [by rewrite Hc|]. by destruct (Ascii.eqb_spec c (chr 9)).
Qed.

Lemma words_from_end t : t <> [] -> " "%char ∉ t -> words_from t [] = [t].
Proof.
  intros Hne Hfree. unfold words_from. cbn [line_body fmap list_fmap].
  rewrite app_nil_r, split_fields_free by done. by rewrite filter_cons_True, filter_nil.
Qed.

Lemma words_from_endl t c s : classify (Some c) = LEX_ENDL -> words_from t (c :: s) = words_from t [].
Proof. intros H. unfold words_from. cbn [line_body]. by rewrite H. Qed.

Lemma words_from_other t c s :
  classify (Some c) = LEX_OTHER -> words_from t (c :: s) = words_from (t ++ [c]) s.
Proof.
  intros H. unfold words_from. cbn [line_body]. rewrite H, fmap_cons.
  rewrite (proj1 (untab_other c H)). by rewrite <-app_assoc.
Qed.

Lemma words_from_blank t c s :
  classify (Some c) = LEX_WHITESPACE -> " "%char ∉ t ->
  words_from t (c :: s) = (if decide (t = []) then [] else [t]) ++ line_words s.
Proof.
  intros H Hfree. unfold line_words, words_from. cbn [line_body]. rewrite H, fmap_cons.
  rewrite (untab_blank c H), split_fields_app by done.
  case_decide; [by rewrite filter_cons_False by auto|by rewrite filter_cons_True].
Qed.

(** ** Facts *)

Section parser_facts.
Context {E : Type} `{DM : DataModel}.
Implicit Types (sl : strlist) (cu : custr) (w : world E).

(** A step that ends with an error code: 0 and the new list, or the allocator's [ENOMEM]. *)
Definition tokens_post (cap : Z) (l' : list cstr) w (r : Z * strlist) (w' : world E) : Prop :=
  frame w w' /\ sl_capacity r.2 <= cap /\
  ((r.1 = 0 /\ strlist_rep r.2 l') \/
   (r.1 = ENOMEM /\ ~ heap_total w /\ exists k, strlist_rep r.2 (take k l'))).

Lemma tokens_post_step cap cap' l' w w1 r w2 :
  frame w w1 -> cap <= cap' -> tokens_post cap l' w1 r w2 -> tokens_post cap' l' w r w2.
Proof.
  intros Hw Hcap (Hw2 & Hc & Hr). split; [by etrans|]. split; [lia|].
  destruct Hr as [?|(? & ? & ?)]; [by left|right]. split_and!; [done|by eauto using frame_total|done].
Qed.

(** The bounds the loops run under: the token and the capacity still have room for [n] more
    characters and as many tokens. *)
Definition room cu (t : list char) sl (n : Z) : Prop :=
  custr_rep cu t /\ cus_flags cu = 0 /\ Zlen t + n + 2 <= CUSTR_MAX /\
  sl_capacity sl + GROW_COUNT * (n + 1) <= STRLIST_MAX.

Lemma store_token_spec cu t sl l w n :
  room cu t sl n -> 0 <= n -> is_cstr t -> strlist_rep sl l -> heap_low w ->
  wp (store_token cu sl) (tokens_post (sl_capacity sl + GROW_COUNT) (l ++ [t]) w) w.
Proof.
  intros (Hrep & Hfl & Hmax & Hcap) Hn Ht Hsl Hlow. unfold store_token, GROW_COUNT in *.
  apply wp_bind. eapply custr_cstr_spec; [done|]. rewrite c_text_id by done.
  pose proof (Zlen_nonneg t). unfold CUSTR_MAX in *.
  apply wp_bind. wp_use set_tail_spec; [done|done|lia|unfold HEAP_HI; lia|].
  intros [r sl1] w1 (Hw1 & Hcap1 & [(Hr & Hrep1)|(Hr & Hnt & He & Hrep1)]); cbn in *; subst r.
  - change (negb (0 =? 0)) with false. apply wp_ret. split; [done|]. split; [apply Hcap1|by left].
  - change (negb (-1 =? 0)) with true. cbn beta iota. apply wp_bind, wp_get_errno, wp_ret.
    split; [done|]. split; [apply Hcap1|]. right. split_and!; [done|done|].
    exists (length l). by rewrite take_app_length.
Qed.

(** Continue after storing a token. *)
Lemma store_then cu t sl l final cap n w (k : Z * strlist -> C E (Z * strlist)) :
  room cu t sl n -> 0 <= n -> is_cstr t -> strlist_rep sl l -> heap_low w ->
  sl_capacity sl + GROW_COUNT <= cap -> (l ++ [t]) `prefix_of` final ->
  (forall sl1 w1, strlist_rep sl1 (l ++ [t]) -> sl_capacity sl1 <= sl_capacity sl + GROW_COUNT ->
     heap_low w1 -> wp (k (0, sl1)) (tokens_post cap final w1) w1) ->
  (forall sl1 w1, wp (k (ENOMEM, sl1)) (fun r w' => r = (ENOMEM, sl1) /\ w' = w1) w1) ->
  wp (store_token cu sl ≫= k) (tokens_post cap final w) w.
Proof.
  intros Hroom Hn Ht Hsl Hlow Hcap Hpre Hok Hfail. apply wp_bind. wp_use store_token_spec; [done..|].
  intros [e sl1] w1 (Hw1 & Hcap1 & [(He & Hrep1)|(He & Hnt & j & Hrep1)]); cbn in *; subst e.
  - eapply wp_mono; [apply Hok; by eauto using frame_low|]. intros r w'. apply tokens_post_step; [done|lia].
  - eapply wp_mono; [apply Hfail|]. intros ? ? [-> ->].
    split; [done|]. split; [cbn; lia|]. right. split_and!; [done|done|].
    destruct Hpre as [rest ->]. exists (j `min` length (l ++ [t]))%nat.
    rewrite take_app_le by lia. by rewrite <-take_take, firstn_all.
Qed.

(** Continue after appending a character to the token. *)
Lemma appendc_then cu t sl l c final cap n w (k : Z * custr -> C E (Z * strlist)) :
  room cu t sl (1 + n) -> 0 <= n -> strlist_rep sl l -> heap_low w -> l `prefix_of` final ->
  sl_capacity sl <= cap ->
  (forall cu1 w1, room cu1 (t ++ [c]) sl n -> heap_low w1 ->
     wp (k (0, cu1)) (tokens_post cap final w1) w1) ->
  (forall cu1 w1, wp (k (-1, cu1)) (fun r w' => r = (w_errno w1, sl) /\ w' = w1) w1) ->
  wp (custr_appendc cu c ≫= k) (tokens_post cap final w) w.
Proof.
  intros (Hrep & Hfl & Hmax & Hcap) Hn Hsl Hlow Hpre Hle Hok Hfail. unfold GROW_COUNT in *.
  apply wp_bind. wp_use custr_appendc_extend; [done|done|done|lia|].
  intros [r cu1] w1 (Hw1 & Hfl1 & [(Hr & Hrep1)|(Hr & Hnt & He & t' & _)]); cbn in *; subst r.
  - eapply wp_mono.
    + apply Hok; [|by eauto using frame_low]. split_and!; [done|done|zlen|unfold GROW_COUNT; lia].
    + intros r' w'. apply tokens_post_step; [done|lia].
  - eapply wp_mono; [apply Hfail|]. intros ? ? [-> ->]. split; [done|]. split; [done|].
    right. split_and!; [done|done|]. destruct Hpre as [rest ->]. exists (length l).
    by rewrite take_app_length.
Qed.

(** Continue after resetting the token. *)
Lemma reset_then cu t sl n w (k : custr -> C E (Z * strlist)) Q :
  room cu t sl n ->
  (forall cu1, room cu1 [] sl n -> wp (k cu1) Q w) -> wp (custr_reset cu ≫= k) Q w.
Proof.
  intros (Hrep & Hfl & Hmax & Hcap) Hok. apply wp_bind. eapply custr_reset_spec; [done|].
  intros cu1 Hrep1 Hfl1 _ _. apply Hok. split_and!; [done|congruence| |done].
  pose proof (Zlen_nonneg t). rewrite Zlen_nil. lia.
Qed.

(** A stored token takes [GROW_COUNT] of the room for the capacity. *)
Lemma room_stored cu t sl sl1 n :
  room cu t sl (1 + n) -> sl_capacity sl1 <= sl_capacity sl + GROW_COUNT -> room cu t sl1 n.
Proof. unfold room, GROW_COUNT. intros (? & ? & ? & ?) ?. split_and!; [done|done|lia|lia]. Qed.

Lemma room_len cu t sl n : room cu t sl n -> custr_len cu = Zlen t.
Proof. intros (Hrep & _). by apply custr_rep_len. Qed.

(** The last token of a line, and the end of the loop. *)
Lemma store_last cu t sl l n w :
  room cu t sl n -> 0 <= n -> is_cstr t -> strlist_rep sl l -> heap_low w ->
  wp (store_token cu sl) (tokens_post (sl_capacity sl + GROW_COUNT * (n + 1)) (l ++ [t]) w) w.
Proof.
  intros. wp_use store_token_spec; [done..|]. intros r w'. apply tokens_post_step; [done|].
  unfold GROW_COUNT. lia.
Qed.

Lemma split_loop_spec d line cu t sl l w :
  room cu t sl (Zlen line) -> is_cstr t -> is_cstr line -> strlist_rep sl l -> heap_low w ->
  wp (split_loop line d cu sl)
     (tokens_post (sl_capacity sl + GROW_COUNT * (Zlen line + 1)) (l ++ fields_on d t line) w) w.
Proof.
  revert cu t sl l w. induction line as [|c line IH]; intros cu t sl l w Hroom Ht Hline Hsl Hlow;
    cbn [split_loop fields_on].
  - rewrite (room_len _ _ _ _ Hroom). destruct (Z.ltb_spec 0 (Zlen t)) as [Hpos|Hz].
    + rewrite decide_False by (intros ->; done). apply store_last; [done|done|done|done|done].
    + rewrite decide_True by (destruct t; [done|zlen]). rewrite app_nil_r. apply wp_ret.
      split; [done|]. split; [cbn; unfold GROW_COUNT; zlen|by left].
  - apply is_cstr_cons in Hline as [Hc Hline]. pose proof (Zlen_nonneg line) as Hn.
    rewrite Zlen_cons in Hroom |- *.
    destruct (Ascii.eqb c d).
    + rewrite (cons_middle t l). eapply store_then; [done|lia|done|done|done|unfold GROW_COUNT; lia| | |].
      * rewrite app_assoc. by apply prefix_app_r.
      * intros sl1 w1 Hsl1 Hcap1 Hlow1. change (negb (0 =? 0)) with false. cbn beta iota.
        eapply reset_then; [by eapply room_stored|]. intros cu1 Hroom1. rewrite app_assoc.
        eapply wp_mono; [apply (IH cu1 []); done || apply is_cstr_nil|]. intros r w'. apply tokens_post_step; [done|].
        unfold GROW_COUNT in *. lia.
      * intros. by apply wp_ret.
    + eapply appendc_then; [done|done|done|done|by apply prefix_app_r|unfold GROW_COUNT; lia| |].
      * intros cu1 w1 Hroom1 Hlow1. change (negb (0 =? 0)) with false. cbn beta iota.
        eapply wp_mono; [apply IH; [done|by apply is_cstr_snoc|done..]|].
        intros r w'. apply tokens_post_step; [done|]. unfold GROW_COUNT in *. lia.
      * intros. change (negb (-1 =? 0)) with true. cbn beta iota.
        by apply wp_bind, wp_get_errno, wp_ret.
Qed.

Lemma parse_loop_spec c :
  is_cstr c -> forall fuel cu t sl l w, (2 * length c < fuel)%nat ->
  room cu t sl (Zlen c) -> is_cstr t -> strlist_rep sl l -> heap_low w ->
  let Post := tokens_post (sl_capacity sl + GROW_COUNT * (Zlen c + 1)) in
  (t = [] -> wp (parse_loop fuel ST_WHITESPACE c cu sl) (Post (l ++ line_words c) w) w) /\
  (t <> [] -> " "%char ∉ t -> wp (parse_loop fuel ST_TOKEN c cu sl) (Post (l ++ words_from t c) w) w).
Proof.
  induction c as [|c s IH]; intros Hc fuel cu t sl l w Hfuel Hroom Ht Hsl Hlow Post.
  { destruct fuel as [|fuel]; [cbn in Hfuel; lia|]. cbn [parse_loop classify head]. split; intros Hne.
    - rewrite app_nil_r. apply wp_ret. split; [done|]. split; [cbn; unfold GROW_COUNT; zlen|by left].
    - intros Hfree. rewrite words_from_end by done. by apply store_last. }
  apply is_cstr_cons in Hc as [Hc0 Hc]. cbn [length] in Hfuel. pose proof (Zlen_nonneg s) as Hn.
  destruct fuel as [|[|fuel]]; [lia..|]. unfold Post. rewrite Zlen_cons in Hroom |- *. clear Post.
  assert (Hother : classify (Some c) = LEX_OTHER -> " "%char ∉ t -> forall fuel, (2 * length s < fuel)%nat ->
    wp (parse_loop (S fuel) ST_TOKEN (c :: s) cu sl)
       (tokens_post (sl_capacity sl + GROW_COUNT * (1 + Zlen s + 1)) (l ++ words_from t (c :: s)) w) w).
  { clear fuel Hfuel. intros Hcl Hfree fuel Hfuel. cbn [parse_loop head tail default from_option id]. rewrite Hcl.
    rewrite words_from_other by done.
    eapply appendc_then; [done|done|done|done|by apply prefix_app_r|unfold GROW_COUNT; lia| |].
    - intros cu1 w1 Hroom1 Hlow1. change (negb (0 =? 0)) with false. cbn beta iota.
      eapply wp_mono.
      + eapply IH; [done|done|done|by apply is_cstr_snoc|done|done|by intros [_ ?]%app_nil|].
        apply free_snoc; [done|by apply untab_other].
      + intros r w'. apply tokens_post_step; [done|]. unfold GROW_COUNT. lia.
    - intros. change (negb (-1 =? 0)) with true. cbn beta iota. by apply wp_bind, wp_get_errno, wp_ret. }
  split; intros Hne.
  - subst t. destruct (classify (Some c)) eqn:Hcl.
    + cbn [parse_loop head tail]. rewrite Hcl. unfold line_words. rewrite (words_from_endl [] c s), app_nil_r by done. apply wp_ret.
      split; [done|]. split; [cbn; unfold GROW_COUNT; zlen|by left].
    + cbn [parse_loop head tail]. rewrite Hcl. unfold line_words. rewrite words_from_blank by (done || apply not_elem_of_nil).
      eapply wp_mono; [eapply (IH Hc (S fuel) cu []); [lia| |apply is_cstr_nil|done|done|done]|].
      * destruct Hroom as (? & ? & ? & ?). unfold GROW_COUNT in *.
        split_and!; [done|done|lia|unfold GROW_COUNT; lia].
      * intros r w'. apply tokens_post_step; [done|]. unfold GROW_COUNT. lia.
    + assert (parse_loop (E := E) (S (S fuel)) ST_WHITESPACE (c :: s) cu sl
              = parse_loop (S fuel) ST_TOKEN (c :: s) cu sl) as -> by (cbn [parse_loop head]; by rewrite Hcl).
      apply Hother; [done|apply not_elem_of_nil|lia].
  - intros Hfree. destruct (classify (Some c)) eqn:Hcl; [| |apply Hother; [done|done|lia]].
    + cbn [parse_loop head tail]. rewrite Hcl, (words_from_endl t c s), words_from_end by done.
      eapply wp_mono; [eapply store_last; [done|lia|done|done|done]|].
      intros r w'. apply tokens_post_step; [done|]. unfold GROW_COUNT. lia.
    + cbn [parse_loop head tail]. rewrite Hcl, words_from_blank by done.
      rewrite decide_False by done. change ([t] ++ line_words s) with (t :: line_words s). rewrite (cons_middle t l).
      eapply store_then; [done|lia|done|done|done|unfold GROW_COUNT; lia| | |].
      * rewrite app_assoc. by apply prefix_app_r.
      * intros sl1 w1 Hsl1 Hcap1 Hlow1. change (negb (0 =? 0)) with false. cbn beta iota.
        eapply reset_then; [by eapply room_stored|]. intros cu1 Hroom1. rewrite app_assoc.
        destruct fuel as [|fuel]; [lia|]. 
        eapply wp_mono; [eapply (IH Hc (S fuel) cu1 [] sl1); [lia|done|apply is_cstr_nil|done|done|done]|].
        intros r w'. apply tokens_post_step; [done|]. unfold GROW_COUNT in *. lia.
      * intros. by apply wp_ret.
Qed.

Lemma room_fresh sl l n :
  strlist_rep sl l -> 0 <= n -> n + 2 <= CUSTR_MAX -> sl_capacity sl + GROW_COUNT * (n + 1) <= STRLIST_MAX ->
  room (Custr 0 0 None 0) [] sl n.
Proof. intros. split_and!; [apply custr_rep_empty|done|rewrite Zlen_nil; lia|done]. Qed.

(** What both functions return: [errno] holds the error. *)
Definition parse_post (cap : Z) (l' : list cstr) w (r : Z * strlist) (w' : world E) : Prop :=
  frame w w' /\ sl_capacity r.2 <= cap /\
  ((r.1 = 0 /\ w_errno w' = 0 /\ strlist_rep r.2 l') \/
   (r.1 = -1 /\ w_errno w' = ENOMEM /\ ~ heap_total w /\ exists k, strlist_rep r.2 (take k l'))).

(** The common shape of [split_on] and [parse_line]. *)
Lemma with_token_spec (loop : custr -> C E (Z * strlist)) sl l cap l' w :
  heap_low w -> strlist_rep sl l -> l `prefix_of` l' -> sl_capacity sl <= cap ->
  (forall w1, heap_low w1 -> wp (loop (Custr 0 0 None 0)) (tokens_post cap l' w1) w1) ->
  wp (m ← custr_alloc;
      '(error, sl) ← match m with
                     | None => e ← get_errno; mret (e, sl)
                     | Some cu => loop cu
                     end;
      finish error sl) (parse_post cap l' w) w.
Proof.
  intros Hlow Hsl Hpre Hcap Hloop. apply wp_bind, custr_alloc_spec; [done| |].
  - intros w1 Hw1. apply wp_bind. eapply wp_mono; [apply Hloop; by eauto using frame_low|].
    intros [e sl1] w2 (Hw2 & Hc & Hr). cbn in *. unfold finish. apply wp_bind, wp_set_errno, wp_ret.
    split; [etrans; [exact Hw1|]; etrans; [exact Hw2|apply frame_errno]|]. split; [done|].
    destruct Hr as [(-> & Hrep)|(-> & Hnt & Hrep)]; [by left|right].
    split_and!; [done|done|by eauto using frame_total|done].
  - intros w1 Hw1 Hnt He. apply wp_bind, wp_bind, wp_get_errno, wp_ret. rewrite He. unfold finish.
    apply wp_bind, wp_set_errno, wp_ret. split; [etrans; [exact Hw1|apply frame_errno]|].
    split; [done|]. right. split_and!; [done|done|done|]. destruct Hpre as [rest ->].
    exists (length l). by rewrite take_app_length.
Qed.

Lemma split_on_spec line delim sl l w :
  strlist_rep sl l -> heap_low w -> is_cstr line -> Zlen line + 2 <= CUSTR_MAX ->
  sl_capacity sl + GROW_COUNT * (Zlen line + 1) <= STRLIST_MAX ->
  wp (split_on line delim sl)
     (parse_post (sl_capacity sl + GROW_COUNT * (Zlen line + 1))
        (l ++ drop_last_empty (split_fields delim line)) w) w.
Proof.
  intros Hsl Hlow Hline Hmax Hcap. pose proof (Zlen_nonneg line).
  pose proof (fields_on_split delim [] line (not_elem_of_nil _)) as Hfields. cbn [app] in Hfields.
  rewrite <-Hfields.
  apply (with_token_spec _ sl l); [done|done|by apply prefix_app_r|unfold GROW_COUNT; lia|].
  intros w1 Hlow1. apply split_loop_spec; [by eapply room_fresh|apply is_cstr_nil|done..].
Qed.

Lemma parse_line_spec line sl l w :
  strlist_rep sl l -> heap_low w -> is_cstr line -> Zlen line + 2 <= CUSTR_MAX ->
  sl_capacity sl + GROW_COUNT * (Zlen line + 1) <= STRLIST_MAX ->
  wp (parse_line line sl)
     (parse_post (sl_capacity sl + GROW_COUNT * (Zlen line + 1)) (l ++ line_words line) w) w.
Proof.
  intros Hsl Hlow Hline Hmax Hcap. pose proof (Zlen_nonneg line).
  apply (with_token_spec _ sl l); [done|done|by apply prefix_app_r|unfold GROW_COUNT; lia|].
  intros w1 Hlow1.
  eapply parse_loop_spec; [done|unfold line_fuel; lia|by eapply room_fresh|apply is_cstr_nil|done..].
Qed.
End parser_facts.

(** ** Properties *)

(** [split_on] refines splitting at the delimiter: every field is appended to the list, in
    order and empty ones included, but for an empty field at the end of the line.  It fails only
    with [ENOMEM], and then it has appended a prefix of the fields.  [errno] holds the error. *)
Theorem split_on_fields {E} `{DM : DataModel} (line : cstr) (delim : char) (sl : strlist)
    (l : list cstr) (w : world E) :
  strlist_rep sl l -> heap_low w -> is_cstr line -> Zlen line + 2 <= CUSTR_MAX ->
  sl_capacity sl + GROW_COUNT * (Zlen line + 1) <= STRLIST_MAX ->
  wp (split_on line delim sl) (fun '(r, sl') w' =>
    (r = 0 /\ w_errno w' = 0 /\ strlist_rep sl' (l ++ drop_last_empty (split_fields delim line))) \/
    (r = -1 /\ w_errno w' = ENOMEM /\ ~ heap_total w /\
     exists k, strlist_rep sl' (take k (l ++ drop_last_empty (split_fields delim line))))) w.
Proof.
  intros. wp_use split_on_spec; [done..|]. by intros [r sl'] w' (_ & _ & ?).
Qed.

Lemma split_on_fields_witness :
  wp (@split_on () LP64 (cs "a::b:") ":"%char strlist_0) (fun '(r, sl') w' =>
    (r = 0 /\ w_errno w' = 0 /\
     strlist_rep sl' ([] ++ drop_last_empty (split_fields ":"%char (cs "a::b:")))) \/
    (r = -1 /\ w_errno w' = ENOMEM /\ ~ heap_total (World 0 [] [] ()) /\
     exists k, strlist_rep sl' (take k ([] ++ drop_last_empty (split_fields ":"%char (cs "a::b:"))))))
   (World 0 [] [] ()) /\
  drop_last_empty (split_fields ":"%char (cs "a::b:")) = [cs "a"; []; cs "b"].
Proof.
  split; [|done].
  apply (@split_on_fields () LP64 (cs "a::b:") ":"%char strlist_0 [] (World 0 [] [] ())).
  - apply strlist_0_rep.
  - constructor.
  - by_decide.
  - by vm_compute.
  - by vm_compute.
Defined.

(** [parse_line] refines splitting a line into words: it appends the maximal runs of
    characters other than blanks and tabs, up to the comment sign or the end of the line.  The
    loop needs at most [line_fuel] turns, and the only failure is [ENOMEM]. *)
Theorem parse_line_words {E} `{DM : DataModel} (line : cstr) (sl : strlist)
    (l : list cstr) (w : world E) :
  strlist_rep sl l -> heap_low w -> is_cstr line -> Zlen line + 2 <= CUSTR_MAX ->
  sl_capacity sl + GROW_COUNT * (Zlen line + 1) <= STRLIST_MAX ->
  wp (parse_line line sl) (fun '(r, sl') w' =>
    (r = 0 /\ w_errno w' = 0 /\ strlist_rep sl' (l ++ line_words line)) \/
    (r = -1 /\ w_errno w' = ENOMEM /\ ~ heap_total w /\
     exists k, strlist_rep sl' (take k (l ++ line_words line)))) w.
Proof.
  intros. wp_use parse_line_spec; [done..|]. by intros [r sl'] w' (_ & _ & ?).
Qed.

Lemma parse_line_words_witness :
  wp (@parse_line () ILP32 (cs "f etc/passwd  0644 # root") strlist_0) (fun '(r, sl') w' =>
    (r = 0 /\ w_errno w' = 0 /\ strlist_rep sl' ([] ++ line_words (cs "f etc/passwd  0644 # root"))) \/
    (r = -1 /\ w_errno w' = ENOMEM /\ ~ heap_total (World 0 [] [] ()) /\
     exists k, strlist_rep sl' (take k ([] ++ line_words (cs "f etc/passwd  0644 # root")))))
   (World 0 [] [] ()) /\
  line_words (cs "f etc/passwd  0644 # root") = [cs "f"; cs "etc/passwd"; cs "0644"].
Proof.
  split; [|by vm_compute].
  apply (@parse_line_words () ILP32 (cs "f etc/passwd  0644 # root") strlist_0 [] (World 0 [] [] ())).
  - apply strlist_0_rep.
  - constructor.
  - by_decide.
  - by vm_compute.
  - by vm_compute.
Defined.
