(* ===== verification/Manifest.v ===== *)
(** * Manifest: reading a build manifest, [tools/common/manifest.c] and [tools/common/common.c]

    A manifest line becomes a [manifest_ent]; [read_manifest_file] hands each entry to a
    callback.  The standard I/O stream is a parameter: whether [fopen] succeeds, what [fstat]
    says, the lines [getline] returns and the [errno] it ends with. *)
From Stdlib Require Import Lia.
From S2P Require Import Prelude Custr Strlist Parser Cnum.

Definition EPROTO : Z := 71.
Definition ECANCELED : Z := 47.

Inductive manifest_ent_type :=
  ME_TYPE_INVALID | ME_TYPE_DIRECTORY | ME_TYPE_FILE | ME_TYPE_HARDLINK | ME_TYPE_SYMLINK.

#[export] Instance manifest_ent_type_eq_dec : EqDecision manifest_ent_type.
Proof. solve_decision. Defined.

Record manifest_ent := ManifestEnt {
  me_type : manifest_ent_type;
  me_name : option cstr;
  me_target : option cstr;
  me_mode : Z;
  me_user : option cstr;
  me_group : option cstr
}.

(** The values of [me_cb_ret_t]. *)
Definition MECB_NEXT : Z := 0.
Definition MECB_DONE : Z := 1.
Definition MECB_CANCEL : Z := 2.

(** [bzero] of the whole entry; releasing the strings leaves no other trace. *)
Definition manifest_ent_reset : manifest_ent := ManifestEnt ME_TYPE_INVALID None None 0 None None.

Definition manifest_ent_type_name (type : manifest_ent_type) : cstr :=
  match type with
  | ME_TYPE_FILE => cs "FILE"
  | ME_TYPE_DIRECTORY => cs "DIRECTORY"
  | ME_TYPE_HARDLINK => cs "HARDLINK"
  | ME_TYPE_SYMLINK => cs "SYMLINK"
  | ME_TYPE_INVALID => cs "INVALID"
  end.

(** A stream as the functions see it: [sm_mode] is the [st_mode] of a successful [fstat]. *)
Record stream := Stream {
  sm_mode : option Z;
  sm_lines : list cstr;
  sm_errno : Z
}.

Definition S_IFMT : Z := 61440.
Definition S_IFREG : Z := 32768.

Definition is_regular_file (f : stream) : bool :=
  match sm_mode f with Some m => Z.land m S_IFMT =? S_IFREG | None => false end.

Section manifest.
Context {E : Type} `{DM : DataModel}.

(** [s[0] == '\0'], for a string that may be NULL. *)
Definition is_empty_string (s : option cstr) : C E bool :=
  s ← c_access s; mret (match s with [] => true | _ => false end).

(** One more disjunct [|| s[0] == '\0']: not evaluated when the condition already holds. *)
Definition or_empty (b : bool) (s : option cstr) : C E bool :=
  if b then mret true else is_empty_string s.

(** [out: if (error != 0) manifest_ent_reset(me); errno = error; return ...] *)
Definition finish_ent (error : Z) (me : manifest_ent) : C E (Z * manifest_ent) :=
  set_errno error ;;
  mret (if error =? 0 then (0, me) else (-1, manifest_ent_reset)).

Definition link_fields (me : manifest_ent) (line : strlist) (fields : strlist) : C E (Z * manifest_ent) :=
  source ← strlist_get (E := E) line 1;
  source ← c_access source;
  '(r, fields) ← split_on source "="%char fields;
  if r =? -1 then
    e ← get_errno; mret (if e =? ENOSPC then EPROTO else e, me)
  else
  n ← strlist_contig_count fields;
  if negb (n =? 2) then mret (EPROTO, me) else
  '(name, fields) ← strlist_adopt fields 0;
  '(target, fields) ← strlist_adopt fields 1;
  let me := ManifestEnt (me_type me) name target (me_mode me) (me_user me) (me_group me) in
  e1 ← is_empty_string (me_name me);
  e2 ← or_empty e1 (me_target me);
  mret (if (e2 : bool) then EPROTO else 0, me).

Definition process_manifest_line_link (me : manifest_ent) (line : strlist) : C E (Z * manifest_ent) :=
  n ← strlist_contig_count line;
  '(error, me) ←
    (if negb (n =? 2) then mret (EPROTO, me) else
     '(r, fields) ← strlist_alloc 2;
     match fields with
     | Some fields => if negb (r =? 0) then e ← get_errno; mret (e, me) else link_fields me line fields
     | None => e ← get_errno; mret (e, me)
     end);
  finish_ent error me.

Definition parse_octal (input : option cstr) : C E (Z * Z) :=
  match input with
  | None | Some [] => set_errno EINVAL ;; mret (-1, 0)
  | Some s =>
      set_errno 0 ;;
      let '(out, range, endp) := strtol 8 s in
      (if range then set_errno ERANGE else mret tt) ;;
      e ← get_errno;
      if (out =? 0) && negb (e =? 0) then mret (-1, 0)
      else match endp with
           | [] => mret (0, u32 out)
           | _ => set_errno EINVAL ;; mret (-1, 0)
           end
  end.

Definition file_fields (me : manifest_ent) (line : strlist) : C E (Z * manifest_ent) :=
  set_errno 0 ;;
  s ← strlist_get line 2;
  '(r, val) ← parse_octal s;
  if (r =? -1) || negb (Z.land val (u32 (Z.lnot 4095)) =? 0) then mret (EPROTO, me) else
  '(name, line) ← strlist_adopt line 1;
  '(user, line) ← strlist_adopt line 3;
  '(group, line) ← strlist_adopt line 4;
  let me := ManifestEnt (me_type me) name (me_target me) val user group in
  e1 ← is_empty_string (me_name me);
  e2 ← or_empty e1 (me_user me);
  e3 ← or_empty e2 (me_group me);
  mret (if (e3 : bool) then EPROTO else 0, me).

Definition process_manifest_line_file (me : manifest_ent) (line : strlist) : C E (Z * manifest_ent) :=
  n ← strlist_contig_count line;
  '(error, me) ← (if negb (n =? 5) then mret (EPROTO, me) else file_fields me line);
  finish_ent error me.

Definition typehandlers : list (char * manifest_ent_type * (manifest_ent -> strlist -> C E (Z * manifest_ent))) :=
  [("h"%char, ME_TYPE_HARDLINK, process_manifest_line_link);
   ("s"%char, ME_TYPE_SYMLINK, process_manifest_line_link);
   ("f"%char, ME_TYPE_FILE, process_manifest_line_file);
   ("d"%char, ME_TYPE_DIRECTORY, process_manifest_line_file)].

Definition set_type (me : manifest_ent) (type : manifest_ent_type) : manifest_ent :=
  ManifestEnt type (me_name me) (me_target me) (me_mode me) (me_user me) (me_group me).

(** The loop over the type handlers. *)
Fixpoint dispatch (th : list (char * manifest_ent_type * (manifest_ent -> strlist -> C E (Z * manifest_ent))))
    (c : char) (me : manifest_ent) (sl : strlist) : C E (Z * manifest_ent) :=
  match th with
  | [] => eprint (cs "ERROR: manifest line type '" ++ c :: cs "' unrecognised") ;; mret (EPROTO, me)
  | (th_char, th_type, th_funcp) :: th =>
      if negb (Ascii.eqb th_char c) then dispatch th c me sl
      else
        '(r, me) ← th_funcp (set_type me th_type) sl;
        if negb (r =? 0) then e ← get_errno; mret (e, me) else mret (0, me)
  end.

Definition line_fields (line : cstr) (me : manifest_ent) (sl : strlist) : C E (Z * manifest_ent) :=
  '(r, sl) ← parse_line line sl;
  if negb (r =? 0) then e ← get_errno; mret (e, me) else
  n ← strlist_contig_count sl;
  if n =? 0 then mret (0, set_type me ME_TYPE_INVALID) else
  t ← strlist_get sl 0;
  t ← c_access t;
  match t with
  | [] => mret (0, set_type me ME_TYPE_INVALID)
  | [c] => dispatch typehandlers c me sl
  | _ => eprint (cs "invalid manifest line: " ++ line) ;; mret (EPROTO, me)
  end.

Definition process_manifest_line (line : cstr) (me : manifest_ent) : C E (Z * manifest_ent) :=
  '(r, m) ← strlist_alloc 5;
  '(error, me) ←
    match m with
    | Some sl => if negb (r =? 0) then e ← get_errno; mret (e, me) else line_fields line me sl
    | None => e ← get_errno; mret (e, me)
    end;
  (if error =? EPROTO then eprint (cs "ERROR: invalid manifest line: " ++ line) else mret tt) ;;
  finish_ent error me.

(** The loop of [read_manifest_file]: the return value and the error. *)
Fixpoint read_loop (lines : list cstr) (last_errno : Z) (mecb : manifest_ent -> C E Z)
    (me : manifest_ent) : C E (Z * Z) :=
  set_errno 0 ;;
  match lines with
  | [] => set_errno last_errno ;; mret (if last_errno =? 0 then (0, 0) else (-1, last_errno))
  | line :: lines =>
      '(rval, me) ← process_manifest_line line me;
      if negb (rval =? 0) then e ← get_errno; mret (rval, e) else
      if decide (me_type me = ME_TYPE_INVALID) then read_loop lines last_errno mecb manifest_ent_reset else
      r ← mecb me;
      if r =? MECB_NEXT then read_loop lines last_errno mecb manifest_ent_reset
      else if r =? MECB_DONE then mret (0, 0)
      else if r =? MECB_CANCEL then mret (0, ECANCELED)
      else c_abort
  end.

Definition read_manifest_file (path : cstr) (opened : Z + stream) (mecb : manifest_ent -> C E Z) : C E Z :=
  match opened with
  | inl e => set_errno e ;; mret (-1)
  | inr mf =>
      if negb (is_regular_file mf)
      then eprint (cs "ERROR: " ++ path ++ cs " is not a regular file") ;; mret (-1)
      else
        '(rval, error) ← read_loop (sm_lines mf) (sm_errno mf) mecb manifest_ent_reset;
        set_errno error ;; mret rval
  end.
End manifest.

(** ** The entries the format describes *)

(** A link line has one more word, [name=target]. *)
Definition link_entry (type : manifest_ent_type) (words : list cstr) : option manifest_ent :=
  match words with
  | [w] =>
      match drop_last_empty (split_fields "="%char w) with
      | [name; target] =>
          if bool_decide (name = []) || bool_decide (target = []) then None
          else Some (ManifestEnt type (Some name) (Some target) 0 None None)
      | _ => None
      end
  | _ => None
  end.

Section reference.
Context `{DM : DataModel}.

(** The permission bits a mode field stands for. *)
Definition mode_of (s : cstr) : option Z :=
  let '(v, _, rest) := strtol 8 s in
  if bool_decide (s = []) || negb (bool_decide (rest = [])) then None
  else if u32 v <? 4096 then Some (u32 v) else None.

(** A file or directory line has four more words: name, mode, user and group. *)
Definition file_entry (type : manifest_ent_type) (words : list cstr) : option manifest_ent :=
  match words with
  | [name; mode; user; group] =>
      m ← mode_of mode; Some (ManifestEnt type (Some name) None m (Some user) (Some group))
  | _ => None
  end.

(** A line is blank ([Some None]), an entry, or invalid ([None]). *)
Definition parse_entry (line : cstr) : option (option manifest_ent) :=
  match line_words line with
  | [] => Some None
  | [c] :: words =>
      if Ascii.eqb c "h"%char then Some <$> link_entry ME_TYPE_HARDLINK words
      else if Ascii.eqb c "s"%char then Some <$> link_entry ME_TYPE_SYMLINK words
      else if Ascii.eqb c "f"%char then Some <$> file_entry ME_TYPE_FILE words
      else if Ascii.eqb c "d"%char then Some <$> file_entry ME_TYPE_DIRECTORY words
      else None
  | _ => None
  end.
End reference.

(** ** Facts *)

(** A line short enough for the strings and arrays it is taken apart into. *)
Definition short (s : cstr) : Prop := is_cstr s /\ Zlen s <= 1048576.

#[export] Instance short_dec s : Decision (short s).
Proof. unfold short. apply _. Defined.

Section manifest_facts.
Context {E : Type} `{DM : DataModel}.
Implicit Types (sl : strlist) (w : world E) (me : manifest_ent).

Lemma short_bounds s : short s ->
  is_cstr s /\ Zlen s + 2 <= CUSTR_MAX /\ 5 + GROW_COUNT * (Zlen s + 1) <= STRLIST_MAX.
Proof.
  unfold short, CUSTR_MAX, STRLIST_MAX, GROW_COUNT. intros [? ?]. split_and!; [done|lia|lia].
Qed.

Lemma line_body_sub s : Zlen (line_body s) <= Zlen s /\ forall c, c ∈ line_body s -> c ∈ s.
Proof.
  induction s as [|c s [IHl IHc]]; cbn [line_body]; [done|].
  assert (Hcons : Zlen (c :: line_body s) <= Zlen (c :: s) /\ forall x, x ∈ c :: line_body s -> x ∈ c :: s).
  { split; [zlen|]. intros x. rewrite !elem_of_cons. naive_solver. }
  destruct (classify (Some c)); [|exact Hcons|exact Hcons].
  split; [zlen|]. by intros x ?%not_elem_of_nil.
Qed.

Lemma line_words_short s f : short s -> f ∈ line_words s -> short f /\ f <> [].
Proof.
  intros [Hs Hl]. unfold line_words, words_from. cbn [app].
  intros [Hne Hf]%list_elem_of_filter. split; [|done]. apply split_fields_sub in Hf as [Hfl Hfc].
  destruct (line_body_sub s) as [Hbl Hbc]. split.
  - intros Hin. apply Hfc in Hin. apply list_elem_of_fmap in Hin as (c & Hc & Hin).
    apply Hs. apply Hbc in Hin. revert Hc. unfold untab.
    destruct (Ascii.eqb c (chr 9)); [done|]. by intros ->.
  - unfold Zlen in *. rewrite length_fmap in Hfl. lia.
Qed.

(** What a handler returns, given the entry the format describes. *)
Definition ent_post (o : option manifest_ent) w (r : Z * manifest_ent) (w' : world E) : Prop :=
  frame w w' /\
  ((exists e, o = Some e /\ r = (0, e) /\ w_errno w' = 0) \/
   (o = None /\ r = (-1, manifest_ent_reset) /\ w_errno w' = EPROTO) \/
   (r = (-1, manifest_ent_reset) /\ w_errno w' = ENOMEM /\ ~ heap_total w)).

(** The same before the common exit: an error code and the entry so far. *)
Definition body_post (o : option manifest_ent) w (r : Z * manifest_ent) (w' : world E) : Prop :=
  frame w w' /\
  ((exists e, o = Some e /\ r = (0, e)) \/ (o = None /\ r.1 = EPROTO) \/
   (r.1 = ENOMEM /\ ~ heap_total w)).

Lemma finish_ent_spec o w w1 error me :
  body_post o w (error, me) w1 -> wp (finish_ent error me) (ent_post o w) w1.
Proof.
  intros [Hw1 Hr]. unfold finish_ent. apply wp_bind, wp_set_errno, wp_ret.
  split; [etrans; [exact Hw1|apply frame_errno]|].
  destruct Hr as [(e & -> & [= -> ->])|[(-> & He)|(He & Hnt)]]; cbn in *; [left; by eauto|..]; subst error.
  - right; left. done.
  - right; right. done.
Qed.

Lemma body_post_step o w w1 r w2 : frame w w1 -> body_post o w1 r w2 -> body_post o w r w2.
Proof.
  intros Hw [Hw2 Hr]. split; [by etrans|]. destruct Hr as [?|[?|[? ?]]]; [by left|by right; left|].
  right; right. split; [done|]. by eauto using frame_total.
Qed.

Lemma is_empty_spec s (Q : bool -> world E -> Prop) w :
  Q (bool_decide (s = [])) w -> wp (is_empty_string (Some s)) Q w.
Proof. intros HQ. apply wp_bind. eapply wp_access; [done|]. apply wp_ret. by destruct s. Qed.

Lemma or_empty_spec b s (Q : bool -> world E -> Prop) w :
  Q (b || bool_decide (s = [])) w -> wp (or_empty b (Some s)) Q w.
Proof. intros HQ. unfold or_empty. destruct b; [by apply wp_ret|by apply is_empty_spec]. Qed.

(** The link handler, given the words of its line. *)
Lemma link_fields_spec me line fields c word w type :
  me = set_type manifest_ent_reset type -> strlist_rep line [c; word] -> short word ->
  strlist_rep fields [] -> sl_capacity fields = 2 -> heap_low w ->
  wp (link_fields me line fields) (body_post (link_entry type [word]) w) w.
Proof.
  intros -> Hline Hword Hfields Hcap Hlow. unfold link_fields.
  apply wp_bind. apply (get_spec line _ 1 _ _ Hline). apply wp_bind. eapply wp_access; [done|].
  destruct (short_bounds _ Hword) as (Hc & Hm & Hs).
  apply wp_bind. eapply wp_mono; [eapply split_on_spec; [exact Hfields|done|done|done|lia]|].
  intros [r sl1] w1 (Hw1 & _ & [(Hr & He & Hrep)|(Hr & He & Hnt & _)]); cbn in *; subst r.
  2:{ apply wp_bind, wp_get_errno, wp_ret. rewrite He. split; [done|]. by right; right. }
  change (0 =? -1) with false. cbn beta iota.
  apply wp_bind. eapply contig_count_spec; [exact Hrep|].
  destruct (Z.eqb_spec (Zlen (drop_last_empty (split_fields "="%char word))) 2) as [H2|H2]; cbn [negb].
  2:{ apply wp_ret. split; [done|]. right; left. split; [|done]. unfold link_entry.
      destruct (drop_last_empty _) as [|? [|? [|? ?]]]; done. }
  unfold link_entry. destruct (drop_last_empty (split_fields "="%char word)) as [|name [|target [|? ?]]];
    [exfalso; zlen..| |exfalso; zlen].
  destruct (rep_lookup _ _ 0 name Hrep) as [Hst0 Hi0]; [done|].
  destruct (rep_lookup _ _ 1 target Hrep) as [Hst1 Hi1]; [done|].
  apply wp_bind, adopt_spec; [apply Hrep|exact Hi0|]. intros sl2 Hwf2 Hcap2 Hst2.
  apply wp_bind, adopt_spec; [done|by rewrite Hcap2|]. intros sl3 _ _ _.
  rewrite (Hst2 1), decide_False by done. change 0 with (Z.of_nat 0). change 1 with (Z.of_nat 1).
  rewrite Hst0, Hst1. cbn [me_name me_target set_type].
  apply wp_bind, is_empty_spec, wp_bind, or_empty_spec, wp_ret. split; [done|].
  destruct (bool_decide (name = []) || bool_decide (target = [])); [by right; left|left; by eexists].
Qed.

Lemma link_spec me line c words w type :
  me = set_type manifest_ent_reset type -> strlist_rep line (c :: words) ->
  Forall short words -> heap_low w ->
  wp (process_manifest_line_link me line) (ent_post (link_entry type words) w) w.
Proof.
  intros Hme Hline Hwords Hlow. unfold process_manifest_line_link.
  apply wp_bind. eapply contig_count_spec; [exact Hline|]. apply wp_bind. eapply wp_mono;
    [|intros [error me'] w1 Hpost; by eapply finish_ent_spec].
  destruct (Z.eqb_spec (Zlen (c :: words)) 2) as [H2|H2]; cbn [negb].
  2:{ apply wp_ret. split; [done|]. right; left. by destruct words as [|? [|? ?]]. }
  destruct words as [|word [|? ?]]; [exfalso; zlen| |exfalso; zlen].
  apply Forall_cons_1 in Hwords as [Hword _].
  apply wp_bind, alloc_spec; [done|by vm_compute| |].
  - intros fields w1 Hw1 Hrep Hcap. cbn beta iota. change (negb (0 =? 0)) with false. cbn beta iota.
    eapply wp_mono; [eapply link_fields_spec; by eauto using frame_low|].
    intros r w2. by apply body_post_step.
  - intros w1 Hw1 Hnt He. cbn beta iota. apply wp_bind, wp_get_errno, wp_ret. split; [done|].
    right; right. by rewrite He.
Qed.

(** [(val & ~07777) != 0] holds of the values of 4096 and more. *)
Lemma land_not_07777 v : 0 <= v <= UINT_MAX -> (Z.land v (u32 (Z.lnot 4095)) =? 0) = (v <? 4096).
Proof.
  intros Hv. assert (Z.land v (u32 (Z.lnot 4095)) = Z.shiftl (Z.shiftr v 12) 12) as ->.
  { change (u32 (Z.lnot 4095)) with (Z.ldiff (Z.ones 32) (Z.ones 12)).
    rewrite <-Z.ldiff_ones_r by lia. transitivity (Z.ldiff (Z.land v (Z.ones 32)) (Z.ones 12)).
    - apply Z.bits_inj'. intros n Hn. rewrite Z.land_spec, !Z.ldiff_spec, Z.land_spec.
      by rewrite andb_assoc.
    - rewrite Z.land_ones by lia. unfold UINT_MAX in *. by rewrite Z.mod_small by lia. }
  rewrite Z.shiftl_mul_pow2, Z.shiftr_div_pow2 by lia. change (2 ^ 12) with 4096.
  destruct (Z.ltb_spec v 4096); [by rewrite Z.div_small by lia|].
  assert (1 <= v / 4096) by (apply Z.div_le_lower_bound; lia). lia.
Qed.

Lemma strtol_range base s v rest : strtol base s = (v, true, rest) -> v <> 0.
Proof.
  unfold strtol, strto_signed. pose proof LONG_MAX_bound. unfold INT_MAX, INT_MIN in *.
  destruct (scan_number base s) as [[[neg n] r]|]; [|done].
  destruct (_ <? LONG_MIN); [intros [= <- <-]; lia|].
  destruct (LONG_MAX <? _); [intros [= <- <-]; lia|done].
Qed.

Lemma parse_octal_spec s w :
  wp (parse_octal (Some s)) (fun '(r, v) w' => frame w w' /\
    match mode_of s with
    | Some m => r = 0 /\ v = m /\ Z.land v (u32 (Z.lnot 4095)) = 0
    | None => (r =? -1) || negb (Z.land v (u32 (Z.lnot 4095)) =? 0) = true
    end) w.
Proof.
  unfold parse_octal, mode_of. destruct s as [|c s].
  { apply wp_bind, wp_set_errno, wp_ret. split; [apply frame_errno|].
    by destruct (strtol 8 []) as [[? ?] ?]. }
  apply wp_bind, wp_set_errno. destruct (strtol 8 (c :: s)) as [[out range] endp] eqn:Hs.
  rewrite bool_decide_false by done. cbn [orb].
  assert (Hw : frame w (World (if range then ERANGE else 0) (w_heap w) (w_stderr w) (w_env w)))
    by apply frame_errno.
  apply wp_bind. eapply (wp_mono _ (fun _ w' => w' = World (if range then ERANGE else 0) (w_heap w) (w_stderr w) (w_env w)));
    [by destruct range|]. intros [] w1 ->.
  apply wp_bind, wp_get_errno. cbn [w_errno].
  assert ((out =? 0) && negb ((if range then ERANGE else 0) =? 0) = false) as ->.
  { destruct range; [|by rewrite andb_false_r]. pose proof (strtol_range _ _ _ _ Hs). lia. }
  destruct endp as [|e endp].
  - apply wp_ret. split; [done|]. cbn. pose proof (u32_range out) as Hr.
    pose proof (land_not_07777 (u32 out) Hr) as Hl. destruct (u32 out <? 4096).
    + split_and!; [done|done|]. by apply Z.eqb_eq.
    + by rewrite Hl.
  - apply wp_bind, wp_set_errno, wp_ret. split; [|done]. etrans; [exact Hw|]. apply frame_errno.
Qed.

Lemma file_fields_spec me line c name mode user group w type :
  me = set_type manifest_ent_reset type -> strlist_rep line [c; name; mode; user; group] ->
  name <> [] -> user <> [] -> group <> [] ->
  wp (file_fields me line) (body_post (file_entry type [name; mode; user; group]) w) w.
Proof.
  intros -> Hline Hn Hu Hg. unfold file_fields. apply wp_bind, wp_set_errno.
  apply wp_bind. apply (get_spec line _ 2 _ _ Hline). apply wp_bind.
  eapply wp_mono; [apply parse_octal_spec|]. intros [r v] w1 [Hw1 Hr].
  assert (Hw : frame w w1) by (etrans; [apply frame_errno|exact Hw1]).
  unfold file_entry. destruct (mode_of mode) as [m|]; cbn [mbind option_bind].
  2:{ rewrite Hr. apply wp_ret. split; [done|]. by right; left. }
  destruct Hr as (-> & -> & Hland). rewrite Hland. change ((0 =? -1) || negb (0 =? 0)) with false. cbn beta iota.
  destruct (rep_lookup _ _ 1 name Hline) as [Hst1 Hi1]; [done|].
  destruct (rep_lookup _ _ 3 user Hline) as [Hst3 Hi3]; [done|].
  destruct (rep_lookup _ _ 4 group Hline) as [Hst4 Hi4]; [done|].
  apply wp_bind, adopt_spec; [apply Hline|exact Hi1|]. intros sl1 Hwf1 Hcap1 Hget1.
  apply wp_bind, adopt_spec; [done|by rewrite Hcap1|]. intros sl2 Hwf2 Hcap2 Hget2.
  apply wp_bind, adopt_spec; [done|by rewrite Hcap2, Hcap1|]. intros sl3 _ _ _.
  rewrite (Hget2 4), decide_False, (Hget1 4), decide_False, (Hget1 3), decide_False by done.
  change (Z.of_nat 1) with 1 in Hst1. change (Z.of_nat 3) with 3 in Hst3. change (Z.of_nat 4) with 4 in Hst4.
  rewrite Hst1, Hst3, Hst4. cbn [me_name me_user me_group].
  apply wp_bind, is_empty_spec, wp_bind, or_empty_spec, wp_bind, or_empty_spec, wp_ret.
  rewrite !bool_decide_false by done. split; [done|]. left. by eexists.
Qed.

Lemma file_spec me line c words w type :
  me = set_type manifest_ent_reset type -> strlist_rep line (c :: words) ->
  Forall (fun f => f <> []) words ->
  wp (process_manifest_line_file me line) (ent_post (file_entry type words) w) w.
Proof.
  intros Hme Hline Hwords. unfold process_manifest_line_file.
  apply wp_bind. eapply contig_count_spec; [exact Hline|]. apply wp_bind. eapply wp_mono;
    [|intros [error me'] w1 Hpost; by eapply finish_ent_spec].
  destruct (Z.eqb_spec (Zlen (c :: words)) 5) as [H5|H5]; cbn [negb].
  2:{ apply wp_ret. split; [done|]. right; left. split; [|done].
      destruct words as [|? [|? [|? [|? [|? ?]]]]]; [done..|exfalso; by apply H5|done]. }
  destruct words as [|name [|mode [|user [|group [|? ?]]]]]; [exfalso; zlen..| |exfalso; zlen].
  apply Forall_cons_1 in Hwords as [Hn Hwords]. apply Forall_cons_1 in Hwords as [_ Hwords].
  apply Forall_cons_1 in Hwords as [Hu Hwords]. apply Forall_cons_1 in Hwords as [Hg _].
  by eapply file_fields_spec.
Qed.

(** A line of the manifest: the outcome [parse_entry] describes, or [ENOMEM]; a rejected line
    is reported on the standard error stream. *)
Definition line_post (o : option (option manifest_ent)) (line : cstr) w (r : Z * manifest_ent) (w' : world E) : Prop :=
  (exists k, w_heap w' = drop k (w_heap w)) /\ w_env w' = w_env w /\
  ((exists e, o = Some (Some e) /\ r = (0, e) /\ me_type e <> ME_TYPE_INVALID /\ w_stderr w' = w_stderr w) \/
   (o = Some None /\ r = (0, manifest_ent_reset) /\ w_stderr w' = w_stderr w) \/
   (o = None /\ r = (-1, manifest_ent_reset) /\ w_errno w' = EPROTO /\
    exists extra, w_stderr w' = w_stderr w ++ extra ++ [cs "ERROR: invalid manifest line: " ++ line]) \/
   (r = (-1, manifest_ent_reset) /\ w_errno w' = ENOMEM /\ ~ heap_total w /\ w_stderr w' = w_stderr w)).

(** The error code before the common exit of [process_manifest_line]. *)
Definition fields_post (o : option (option manifest_ent)) w (r : Z * manifest_ent) (w' : world E) : Prop :=
  (exists k, w_heap w' = drop k (w_heap w)) /\ w_env w' = w_env w /\
  ((exists e, o = Some (Some e) /\ r = (0, e) /\ me_type e <> ME_TYPE_INVALID /\ w_stderr w' = w_stderr w) \/
   (o = Some None /\ r = (0, manifest_ent_reset) /\ w_stderr w' = w_stderr w) \/
   (o = None /\ r.1 = EPROTO /\ exists extra, w_stderr w' = w_stderr w ++ extra) \/
   (r.1 = ENOMEM /\ ~ heap_total w /\ w_stderr w' = w_stderr w)).

Lemma frame_advance w w' : frame w w' ->
  (exists k, w_heap w' = drop k (w_heap w)) /\ w_env w' = w_env w /\ w_stderr w' = w_stderr w.
Proof. by intros (? & ? & ?). Qed.

Lemma handler_fields_post o w (m : C E (Z * manifest_ent)) :
  wp m (ent_post o w) w -> (forall e, o = Some e -> me_type e <> ME_TYPE_INVALID) ->
  wp ('(r, me) ← m; if negb (r =? 0) then e ← get_errno; mret (e, me) else mret (0, me))
     (fields_post (Some <$> o) w) w.
Proof.
  intros Hm Hty. apply wp_bind. eapply wp_mono; [exact Hm|].
  intros [r me] w1 [Hw1 Hr]. apply frame_advance in Hw1 as (Hh & He & Hs). cbn beta iota.
  destruct Hr as [(e & Ho & [= -> ->] & _)|[(Ho & [= -> ->] & Herr)|([= -> ->] & Herr & Hnt)]].
  - apply wp_ret. split_and!; [done|done|]. left. exists e. rewrite Ho. split_and!; [done|done| |done]. by apply Hty.
  - apply wp_bind, wp_get_errno, wp_ret. split_and!; [done|done|]. right; right; left.
    rewrite Ho. split_and!; [done|done|]. exists []. by rewrite app_nil_r.
  - apply wp_bind, wp_get_errno, wp_ret. split_and!; [done|done|]. by right; right; right.
Qed.

Lemma link_entry_type type words e : link_entry type words = Some e -> me_type e = type.
Proof.
  unfold link_entry. destruct words as [|w [|? ?]]; [done| |done].
  destruct (drop_last_empty _) as [|? [|? [|? ?]]]; try done. by case_match; [|intros [= <-]].
Qed.

Lemma file_entry_type type words e : file_entry type words = Some e -> me_type e = type.
Proof.
  unfold file_entry. destruct words as [|? [|m [|? [|? [|? ?]]]]]; try done.
  destruct (mode_of m); [|done]. by intros [= <-].
Qed.

Definition entry_of (c : char) (words : list cstr) : option manifest_ent :=
  if Ascii.eqb c "h"%char then link_entry ME_TYPE_HARDLINK words
  else if Ascii.eqb c "s"%char then link_entry ME_TYPE_SYMLINK words
  else if Ascii.eqb c "f"%char then file_entry ME_TYPE_FILE words
  else if Ascii.eqb c "d"%char then file_entry ME_TYPE_DIRECTORY words
  else None.

Lemma dispatch_spec c words sl w :
  strlist_rep sl ([c] :: words) -> Forall short words -> Forall (fun f => f <> []) words -> heap_low w ->
  wp (dispatch typehandlers c manifest_ent_reset sl) (fields_post (Some <$> entry_of c words) w) w.
Proof.
  intros Hsl Hshort Hne Hlow. unfold typehandlers, entry_of. cbn [dispatch].
  rewrite !(Ascii.eqb_sym _ c).
  destruct (Ascii.eqb c "h"%char); cbn [negb].
  { apply handler_fields_post; [by eapply link_spec|]. by intros e ->%link_entry_type. }
  destruct (Ascii.eqb c "s"%char); cbn [negb].
  { apply handler_fields_post; [by eapply link_spec|]. by intros e ->%link_entry_type. }
  destruct (Ascii.eqb c "f"%char); cbn [negb].
  { apply handler_fields_post; [by eapply file_spec|]. by intros e ->%file_entry_type. }
  destruct (Ascii.eqb c "d"%char); cbn [negb].
  { apply handler_fields_post; [by eapply file_spec|]. by intros e ->%file_entry_type. }
  apply wp_bind, wp_eprint, wp_ret. split_and!; [by exists 0%nat|done|]. right; right; left.
  split_and!; [done|done|]. by eexists.
Qed.

Lemma parse_entry_word c words line :
  line_words line = [c] :: words -> parse_entry line = Some <$> entry_of c words.
Proof.
  intros Hl. unfold parse_entry, entry_of. rewrite Hl. by repeat case_match.
Qed.

Lemma line_fields_spec line sl w :
  strlist_rep sl [] -> sl_capacity sl = 5 -> short line -> heap_low w ->
  wp (line_fields line manifest_ent_reset sl) (fields_post (parse_entry line) w) w.
Proof.
  intros Hsl Hcap Hline Hlow. unfold line_fields. destruct (short_bounds _ Hline) as (Hc & Hm & Hs).
  assert (Hwords : Forall (fun f => short f /\ f <> []) (line_words line))
    by (apply Forall_lookup_2; intros i f Hf%list_elem_of_lookup_2; by eapply line_words_short).
  apply wp_bind. eapply wp_mono; [eapply parse_line_spec; [exact Hsl|done|done|done|lia]|].
  intros [r sl1] w1 (Hw1 & _ & [(Hr & He & Hrep)|(Hr & He & Hnt & _)]); cbn [fst snd app] in *; subst r;
    pose proof (frame_advance _ _ Hw1) as (Hh & Henv & Herr).
  2:{ apply wp_bind, wp_get_errno, wp_ret. rewrite He. split_and!; [done|done|]. by right; right; right. }
  change (negb (0 =? 0)) with false. cbn beta iota.
  apply wp_bind. eapply contig_count_spec; [exact Hrep|].
  destruct (line_words line) as [|f words] eqn:Hlw.
  { unfold parse_entry. rewrite Hlw. apply wp_ret. split_and!; [done|done|]. by right; left. }
  destruct (Z.eqb_spec (Zlen (f :: words)) 0) as [H0|_]; [exfalso; zlen|].
  apply wp_bind. apply (get_spec sl1 _ 0 _ _ Hrep). apply wp_bind. eapply wp_access; [done|].
  apply Forall_cons_1 in Hwords as [[Hfs Hfne] Hwords].
  destruct f as [|c [|c2 f]]; [done| |].
  - rewrite (parse_entry_word c words) by done. eapply wp_mono.
    + eapply dispatch_spec; [exact Hrep| | |by eauto using frame_low];
        (eapply Forall_impl; [|exact Hwords]); naive_solver.
    + intros r w2 (( k2 & Hh2) & Henv2 & Hr). destruct Hh as [k Hh].
      split_and!; [exists (k + k2)%nat; by rewrite Hh2, Hh, drop_drop|congruence|].
      rewrite Herr in Hr. destruct Hr as [?|[?|[?|(? & ? & ?)]]]; [by left|by right; left|by right; right; left|].
      right; right; right. split_and!; [done|by eauto using frame_total|done].
  - unfold parse_entry. rewrite Hlw. apply wp_bind, wp_eprint, wp_ret.
    split_and!; [done|done|]. right; right; left. split_and!; [done|done|]. eexists. by rewrite <-Herr.
Qed.

Lemma process_line_spec line w :
  short line -> heap_low w ->
  wp (process_manifest_line line manifest_ent_reset) (line_post (parse_entry line) line w) w.
Proof.
  intros Hline Hlow. unfold process_manifest_line. apply wp_bind, alloc_spec; [done|by vm_compute| |].
  - intros sl w1 Hw1 Hrep Hcap. cbn beta iota. change (negb (0 =? 0)) with false. cbn beta iota.
    pose proof (frame_advance _ _ Hw1) as ([k Hh] & Henv & Herr).
    apply wp_bind. eapply wp_mono; [apply line_fields_spec; by eauto using frame_low|].
    intros [error me] w2 ([k2 Hh2] & Henv2 & Hr).
    assert (Hheap : exists k, w_heap w2 = drop k (w_heap w)) by (exists (k + k2)%nat; by rewrite Hh2, Hh, drop_drop).
    rewrite Herr in Hr. destruct Hr as [(e & Ho & [= -> ->] & Hty & Hs)|[(Ho & [= -> ->] & Hs)|[(Ho & He & extra & Hs)|(He & Hnt & Hs)]]];
      cbn [fst snd] in *; subst.
    + change (0 =? EPROTO) with false. unfold finish_ent. wp_steps.
      split_and!; [done|cbn [w_env]; congruence|]. left. by exists e.
    + change (0 =? EPROTO) with false. unfold finish_ent. wp_steps.
      split_and!; [done|cbn [w_env]; congruence|]. by right; left.
    + change (EPROTO =? EPROTO) with true. unfold finish_ent. wp_steps.
      split_and!; [done|cbn [w_env]; congruence|]. right; right; left. split_and!; [done..|].
      exists extra. cbn [w_stderr]. by rewrite Hs, <-app_assoc.
    + change (ENOMEM =? EPROTO) with false. unfold finish_ent. wp_steps.
      split_and!; [done|cbn [w_env]; congruence|]. right; right; right.
      split_and!; [done|done|by eauto using frame_total|done].
  - intros w1 Hw1 Hnt He. pose proof (frame_advance _ _ Hw1) as (Hh & Henv & Herr).
    apply wp_bind, wp_bind, wp_get_errno, wp_ret. rewrite He.
    change (ENOMEM =? EPROTO) with false. unfold finish_ent. wp_steps.
    split_and!; [done|done|]. by right; right; right.
Qed.
End manifest_facts.

(** ** Writing a line *)

(** The characters of one word. *)
Definition word_ok (s : cstr) : Prop := s <> [] /\ Forall (fun c => classify (Some c) = LEX_OTHER) s.

#[export] Instance lextype_eq_dec : EqDecision lextype.
Proof. solve_decision. Defined.

#[export] Instance word_ok_dec s : Decision (word_ok s).
Proof. unfold word_ok. apply _. Defined.

Definition type_char (type : manifest_ent_type) : char :=
  match type with
  | ME_TYPE_HARDLINK => "h" | ME_TYPE_SYMLINK => "s" | ME_TYPE_FILE => "f" | ME_TYPE_DIRECTORY => "d"
  | ME_TYPE_INVALID => "#"
  end%char.

Definition is_link (type : manifest_ent_type) : bool :=
  match type with ME_TYPE_HARDLINK | ME_TYPE_SYMLINK => true | _ => false end.

Definition entry_words (e : manifest_ent) : list cstr :=
  [type_char (me_type e)] ::
  if is_link (me_type e)
  then [default [] (me_name e) ++ "="%char :: default [] (me_target e)]
  else [default [] (me_name e); print_o 4 (me_mode e); default [] (me_user e); default [] (me_group e)].

(** The manifest line of an entry. *)
Definition print_entry (e : manifest_ent) : cstr := join_fields " "%char (entry_words e) ++ [LF].

(** The entries a line can describe. *)
Definition entry_ok (e : manifest_ent) : Prop :=
  me_type e <> ME_TYPE_INVALID /\ 0 <= me_mode e < 4096 /\ word_ok (default [] (me_name e)) /\
  if is_link (me_type e)
  then "="%char ∉ default [] (me_name e) /\ "="%char ∉ default [] (me_target e) /\
       word_ok (default [] (me_target e)) /\
       me_name e <> None /\ me_target e <> None /\ me_mode e = 0 /\ me_user e = None /\ me_group e = None
  else word_ok (default [] (me_user e)) /\ word_ok (default [] (me_group e)) /\
       me_name e <> None /\ me_target e = None /\ me_user e <> None /\ me_group e <> None.

#[export] Instance entry_ok_dec e : Decision (entry_ok e).
Proof. unfold entry_ok. destruct (is_link (me_type e)); apply _. Defined.

Section print_facts.
Context `{DM : DataModel}.

Lemma words_from_word t s rest :
  Forall (fun c => classify (Some c) = LEX_OTHER) s -> words_from t (s ++ rest) = words_from (t ++ s) rest.
Proof.
  intros Hs. revert t. induction Hs as [|c s Hc Hs IH]; intros t; [by rewrite app_nil_r|].
  cbn [app]. rewrite words_from_other by done. rewrite IH. by rewrite <-app_assoc.
Qed.

Lemma word_ok_free s : word_ok s -> " "%char ∉ s.
Proof.
  intros [_ Hs] Hin. apply list_elem_of_lookup in Hin as [i Hi].
  by pose proof (Forall_lookup_1 _ _ _ _ Hs Hi).
Qed.

(** Words joined by blanks and ended by a line feed are the words of the line. *)
Lemma line_words_join ws : Forall word_ok ws -> line_words (join_fields " "%char ws ++ [LF]) = ws.
Proof.
  unfold line_words. induction 1 as [|s [|s' ws] Hs Hws IH]; [done| |].
  - cbn [join_fields]. rewrite words_from_word by apply Hs.
    rewrite words_from_endl by done. apply words_from_end; [apply Hs|by apply word_ok_free].
  - change (join_fields " "%char (s :: s' :: ws)) with (s ++ " "%char :: join_fields " "%char (s' :: ws)).
    rewrite <-app_assoc, words_from_word by apply Hs. cbn [app].
    rewrite words_from_blank by (done || by apply word_ok_free).
    rewrite decide_False by apply Hs. unfold line_words. by rewrite IH.
Qed.

Lemma print_o_digits w n : 0 <= n -> Forall (fun c => is_digit_in 8 c = true) (print_o w n).
Proof. intros. apply pad0_digits; [lia|]. apply print_base_digits; lia. Qed.

Lemma print_o_word w n : 0 <= n -> word_ok (print_o w n).
Proof.
  intros Hn. split; [apply pad0_nonnil, print_base_nonnil; lia|].
  eapply Forall_impl; [|by apply print_o_digits]. intros c Hc. cbn in Hc.
  unfold classify, is_digit_in in *. destruct (digit_val c) as [d|] eqn:Hd; [|done].
  assert (forall x, digit_val x = None -> Ascii.eqb c x = false) as Hx.
  { intros x Hn'. apply Ascii.eqb_neq. intros ->. congruence. }
  by rewrite !Hx by done.
Qed.

Lemma mode_of_print n : 0 <= n < 4096 -> mode_of (print_o 4 n) = Some n.
Proof.
  intros Hn. unfold mode_of. pose proof (strtol_print 8 4 n [] ltac:(lia) ltac:(unfold INT_MAX; lia) I) as Hs.
  rewrite app_nil_r in Hs. unfold print_o. rewrite Hs.
  rewrite bool_decide_false by (apply pad0_nonnil, print_base_nonnil; lia). cbn.
  rewrite u32_small by (unfold UINT_MAX; lia). by assert (n <? 4096 = true) as -> by lia.
Qed.

Lemma link_entry_print type name target :
  "="%char ∉ name -> "="%char ∉ target -> name <> [] -> target <> [] ->
  link_entry type [name ++ "="%char :: target] = Some (ManifestEnt type (Some name) (Some target) 0 None None).
Proof.
  intros Hn Ht Hnn Htn. unfold link_entry.
  rewrite split_fields_app, split_fields_free by done. cbn [drop_last_empty].
  rewrite decide_False by done. by rewrite !bool_decide_false by done.
Qed.

Lemma file_entry_print type name mode user group :
  0 <= mode < 4096 ->
  file_entry type [name; print_o 4 mode; user; group]
  = Some (ManifestEnt type (Some name) None mode (Some user) (Some group)).
Proof. intros H. unfold file_entry. by rewrite mode_of_print. Qed.

Arguments file_entry : simpl never.
Arguments link_entry : simpl never.
Arguments print_o : simpl never.

Lemma parse_print_entry e : entry_ok e -> parse_entry (print_entry e) = Some (Some e).
Proof.
  intros (Hty & Hm & Hn & Hrest). unfold print_entry, parse_entry.
  assert (Hwords : Forall word_ok (entry_words e)).
  { unfold entry_words. constructor.
    { clear -Hty. destruct (me_type e); [done|by_decide..]. }
    destruct (is_link (me_type e)).
    - destruct Hrest as (_ & _ & Ht & _). apply Forall_singleton. destruct Hn, Ht. split; [by destruct (default [] (me_name e))|].
      apply Forall_app. split; [done|]. by constructor.
    - destruct Hrest as (Hu & Hg & _). repeat constructor; try apply Hn; try apply Hu; try apply Hg.
      + apply print_o_word. lia.
      + apply print_o_word. lia. }
  rewrite line_words_join by done. unfold entry_words. destruct e as [type name target mode user group]. cbn in *.
  destruct type; cbn in *; try done.
  - destruct Hrest as (_ & _ & ? & -> & ? & ?), name, user, group; try done. cbn.
    by rewrite file_entry_print.
  - destruct Hrest as (_ & _ & ? & -> & ? & ?), name, user, group; try done. cbn.
    by rewrite file_entry_print.
  - destruct Hrest as (? & ? & [? _] & ? & ? & -> & -> & ->), name, target; try done. cbn in *.
    rewrite link_entry_print by (done || apply Hn). done.
  - destruct Hrest as (? & ? & [? _] & ? & ? & -> & -> & ->), name, target; try done. cbn in *.
    rewrite link_entry_print by (done || apply Hn). done.
Qed.
End print_facts.

(** ** Reading a whole file *)

(** A callback that records the entries it is given and answers with [reply]. *)
Definition log_cb (reply : manifest_ent -> Z) (me : manifest_ent) : C (list manifest_ent) Z :=
  log ← get_env; put_env (log ++ [me]) ;; mret (reply me).

(** What the file means: the value returned, [errno], and the entries handed over. *)
Fixpoint file_meaning `{DM : DataModel} (reply : manifest_ent -> Z) (last_errno : Z) (lines : list cstr)
  : Z * Z * list manifest_ent :=
  match lines with
  | [] => (if last_errno =? 0 then 0 else -1, last_errno, [])
  | line :: lines =>
      match parse_entry line with
      | None => (-1, EPROTO, [])
      | Some None => file_meaning reply last_errno lines
      | Some (Some e) =>
          if reply e =? MECB_NEXT then
            let '(r, err, es) := file_meaning reply last_errno lines in (r, err, e :: es)
          else if reply e =? MECB_DONE then (0, 0, [e])
          else (0, ECANCELED, [e])
      end
  end.

Section read_facts.
Context `{DM : DataModel}.
Implicit Types (w : world (list manifest_ent)).

Lemma heap_drop w w' k : w_heap w' = drop k (w_heap w) ->
  (heap_low w -> heap_low w') /\ (heap_total w -> heap_total w').
Proof. intros Hh. unfold heap_low, heap_total. rewrite Hh. split; apply Forall_drop. Qed.

Lemma read_loop_spec reply last lines w :
  (forall e, reply e = MECB_NEXT \/ reply e = MECB_DONE \/ reply e = MECB_CANCEL) ->
  Forall short lines -> heap_low w -> heap_total w ->
  wp (read_loop lines last (log_cb reply) manifest_ent_reset) (fun '(rval, error) w' =>
    exists es, file_meaning reply last lines = (rval, error, es) /\ w_env w' = w_env w ++ es) w.
Proof.
  intros Hreply. revert w. induction lines as [|line lines IH]; intros w Hshort Hlow Htot; cbn [read_loop file_meaning].
  { wp_steps. destruct (Z.eqb_spec last 0) as [->|]; exists []; by rewrite app_nil_r. }
  apply Forall_cons_1 in Hshort as [Hline Hshort]. apply wp_bind, wp_set_errno, wp_bind.
  eapply wp_mono; [by apply process_line_spec|].
  intros [rval me] w1 ([k Hh] & Henv & Hr). apply heap_drop in Hh as [Hlow1 Htot1].
  specialize (Hlow1 Hlow). specialize (Htot1 Htot). cbn [w_env w_heap w_stderr] in *.
  destruct Hr as [(e & -> & [= -> ->] & Hty & _)|[(-> & [= -> ->] & _)|[(-> & [= -> ->] & He & _)|(_ & _ & Hnt & _)]]].
  - change (negb (0 =? 0)) with false. cbn beta iota. rewrite decide_False by done.
    apply wp_bind. unfold log_cb at 1. wp_steps.
    destruct (Hreply e) as [->|[->| ->]]; cbn [Z.eqb].
    + change (MECB_NEXT =? MECB_NEXT) with true. cbn beta iota.
      eapply wp_mono; [apply IH; done|]. intros [r err] w2 (es & -> & Henv2). cbn [w_env] in *.
      exists (e :: es). split; [done|]. by rewrite Henv2, Henv, <-app_assoc.
    + apply wp_ret. exists [e]. by rewrite Henv.
    + apply wp_ret. exists [e]. by rewrite Henv.
  - change (negb (0 =? 0)) with false. cbn beta iota. rewrite decide_True by done.
    eapply wp_mono; [apply IH; done|]. intros [r err] w2 (es & -> & Henv2). exists es.
    by rewrite Henv2, Henv.
  - change (negb (-1 =? 0)) with true. cbn beta iota. wp_steps. rewrite He. exists [].
    by rewrite Henv, app_nil_r.
  - done.
Qed.
End read_facts.

(** ** Properties *)

(** C29: [process_manifest_line] computes the entry its line describes: it returns 0 with the
    entry, or with an invalid (skipped) entry for a blank or comment line; a malformed line is
    refused with [EPROTO], reported on the standard error stream, and leaves a zeroed entry.
    The only other failure is [ENOMEM]. *)
Theorem process_manifest_line_parses {E} `{DM : DataModel} (line : cstr) (w : world E) :
  short line -> heap_low w ->
  wp (process_manifest_line line manifest_ent_reset) (fun '(r, me) w' =>
    match parse_entry line with
    | Some (Some e) => r = 0 /\ me = e /\ w_stderr w' = w_stderr w
    | Some None => r = 0 /\ me = manifest_ent_reset /\ w_stderr w' = w_stderr w
    | None => r = -1 /\ me = manifest_ent_reset /\ w_errno w' = EPROTO /\ exists extra,
        w_stderr w' = w_stderr w ++ extra ++ [cs "ERROR: invalid manifest line: " ++ line]
    end \/ (r = -1 /\ me = manifest_ent_reset /\ w_errno w' = ENOMEM /\ ~ heap_total w)) w.
Proof.
  intros. wp_use process_line_spec; [done..|]. intros [r me] w' (_ & _ & Hr).
  destruct Hr as [(e & -> & [= -> ->] & _ & ?)|[(-> & [= -> ->] & ?)|[(-> & [= -> ->] & ? & ?)|([= -> ->] & ? & ? & ?)]]];
    [by left|by left|by left|by right].
Qed.

Lemma process_manifest_line_parses_witness :
  wp (@process_manifest_line () LP64 (cs "l passwd=shadow") manifest_ent_reset) (fun '(r, me) w' =>
    match @parse_entry LP64 (cs "l passwd=shadow") with
    | Some (Some e) => r = 0 /\ me = e /\ w_stderr w' = []
    | Some None => r = 0 /\ me = manifest_ent_reset /\ w_stderr w' = []
    | None => r = -1 /\ me = manifest_ent_reset /\ w_errno w' = EPROTO /\ exists extra,
        w_stderr w' = [] ++ extra ++ [cs "ERROR: invalid manifest line: " ++ cs "l passwd=shadow"]
    end \/ (r = -1 /\ me = manifest_ent_reset /\ w_errno w' = ENOMEM /\ ~ heap_total (World 0 [] [] ())))
   (World 0 [] [] ()).
Proof.
  apply (@process_manifest_line_parses () LP64 (cs "l passwd=shadow") (World 0 [] [] ())).
  - split; [by_decide|by vm_compute].
  - constructor.
Defined.

(** A manifest line round-trips: the line written for an entry is read back as that entry
    (or the allocator failed). *)
Theorem manifest_line_roundtrip {E} `{DM : DataModel} (e : manifest_ent) (w : world E) :
  entry_ok e -> short (print_entry e) -> heap_low w -> heap_total w ->
  wp (process_manifest_line (print_entry e) manifest_ent_reset) (fun '(r, me) _ => r = 0 /\ me = e) w.
Proof.
  intros Hok Hs Hlow Htot. wp_use process_line_spec; [done..|]. rewrite parse_print_entry by done.
  intros [r me] w' (_ & _ & Hr).
  destruct Hr as [(e' & [= ->] & [= -> ->] & _)|[(? & _)|[(? & _)|(_ & _ & ? & _)]]]; done.
Qed.

Definition passwd_entry : manifest_ent :=
  ManifestEnt ME_TYPE_FILE (Some (cs "etc/passwd")) None 420 (Some (cs "root")) (Some (cs "sys")).

Lemma manifest_line_roundtrip_witness :
  print_entry passwd_entry = cs "f etc/passwd 0644 root sys" ++ [LF] /\
  wp (@process_manifest_line () ILP32 (print_entry passwd_entry) manifest_ent_reset)
     (fun '(r, me) _ => r = 0 /\ me = passwd_entry) (World 0 [] [] ()).
Proof.
  split; [by vm_compute|]. apply (@manifest_line_roundtrip () ILP32).
  - by_decide.
  - split; [by_decide|by vm_compute].
  - constructor.
  - constructor.
Defined.

(** C34: [read_manifest_file] hands the entries of a regular file to its callback in order, up to
    the first malformed line or the reply that stops it, and its value and [errno] are those of
    [file_meaning]: in particular a cancelled read returns 0 with [errno] set to [ECANCELED]. *)
Theorem read_manifest_file_meaning `{DM : DataModel} (path : cstr) (mf : stream)
    (reply : manifest_ent -> Z) (w : world (list manifest_ent)) :
  is_regular_file mf = true -> Forall short (sm_lines mf) ->
  (forall e, reply e = MECB_NEXT \/ reply e = MECB_DONE \/ reply e = MECB_CANCEL) ->
  heap_low w -> heap_total w ->
  wp (read_manifest_file path (inr mf) (log_cb reply)) (fun rval w' => exists es,
    file_meaning reply (sm_errno mf) (sm_lines mf) = (rval, w_errno w', es) /\
    w_env w' = w_env w ++ es) w.
Proof.
  intros Hreg Hshort Hreply Hlow Htot. unfold read_manifest_file. rewrite Hreg. cbn [negb].
  apply wp_bind. eapply wp_mono; [by apply read_loop_spec|].
  intros [rval error] w1 (es & Hm & Henv). wp_steps. by exists es.
Qed.

Definition sample_manifest : stream :=
  Stream (Some 33188) [cs "# files" ++ [LF]; print_entry passwd_entry; cs "s bin=./usr/bin" ++ [LF]; cs "?" ++ [LF]] 0.

(** A callback that stops the reader at the first symbolic link. *)
Definition cancel_at_link (e : manifest_ent) : Z :=
  if bool_decide (me_type e = ME_TYPE_SYMLINK) then MECB_CANCEL else MECB_NEXT.

Lemma read_manifest_file_meaning_witness :
  wp (@read_manifest_file _ LP64 (cs "m") (inr sample_manifest) (log_cb cancel_at_link))
   (fun rval w' => exists es,
    @file_meaning LP64 cancel_at_link (sm_errno sample_manifest) (sm_lines sample_manifest)
    = (rval, w_errno w', es) /\
    w_env w' = w_env (World 0 [] [] []) ++ es) (World 0 [] [] []) /\
  @file_meaning LP64 cancel_at_link 0 (sm_lines sample_manifest) = (0, ECANCELED,
    [passwd_entry; ManifestEnt ME_TYPE_SYMLINK (Some (cs "bin")) (Some (cs "./usr/bin")) 0 None None]).
Proof.
  split; [|by vm_compute].
  apply (@read_manifest_file_meaning LP64 (cs "m") sample_manifest cancel_at_link (World 0 [] [] [])).
  - done.
  - by_decide.
  - intros e. unfold cancel_at_link. case_bool_decide; auto.
  - constructor.
  - constructor.
Defined.
