(* ===== verification/Avl.v ===== *)
(** * Avl: the interface of the AVL trees of libavl

    libavl is not part of the repository: the components that keep their nodes in an
    [avl_tree_t] are written against this class.  [avl_nodes] is the in-order sequence of the
    nodes; each law states what the libavl manual promises of a function, for a comparator that
    is a total preorder ([CmpLaws]).  [list_avl] shows that the laws can be met. *)
From Stdlib Require Import Lia.
From S2P Require Import Prelude.

(** A comparator in the style of libavl: negative, zero or positive. *)
Class CmpLaws {T} (cmp : T -> T -> Z) := {
  cmp_refl x : cmp x x = 0;
  cmp_opp x y : cmp x y < 0 <-> 0 < cmp y x;
  cmp_le_trans x y z : cmp x y <= 0 -> cmp y z <= 0 -> cmp x z <= 0
}.

(** Strictly increasing sequences. *)
Fixpoint increasing {T} (cmp : T -> T -> Z) (l : list T) : Prop :=
  match l with
  | [] => True
  | x :: l => Forall (fun y => cmp x y < 0) l /\ increasing cmp l
  end.

(** The sequence with [x] at its place. *)
Fixpoint insert_sorted {T} (cmp : T -> T -> Z) (x : T) (l : list T) : list T :=
  match l with
  | [] => [x]
  | y :: l' => if cmp x y <? 0 then x :: l else y :: insert_sorted cmp x l'
  end.

Definition same {T} (cmp : T -> T -> Z) (x y : T) : Prop := cmp x y = 0.

Class AvlTree (T : Type) := {
  avl_tree : Type;
  avl_nodes : avl_tree -> list T;
  avl_cmp : avl_tree -> T -> T -> Z;
  avl_create : (T -> T -> Z) -> avl_tree;
  avl_find : avl_tree -> T -> option T;
  avl_insert : avl_tree -> T -> avl_tree;
  avl_remove : avl_tree -> T -> avl_tree;
  avl_first : avl_tree -> option T;
  avl_next : avl_tree -> T -> option T;
  avl_numnodes : avl_tree -> Z
}.

Class AvlLaws (T : Type) `{AvlTree T} := {
  avl_create_nodes cmp : avl_nodes (avl_create cmp) = [];
  avl_create_cmp cmp : avl_cmp (avl_create cmp) = cmp;
  avl_find_nodes t x : CmpLaws (avl_cmp t) -> increasing (avl_cmp t) (avl_nodes t) ->
    avl_find t x = head (filter (fun y => avl_cmp t x y = 0) (avl_nodes t));
  avl_insert_nodes t x : CmpLaws (avl_cmp t) -> increasing (avl_cmp t) (avl_nodes t) ->
    avl_find t x = None -> avl_nodes (avl_insert t x) = insert_sorted (avl_cmp t) x (avl_nodes t);
  avl_insert_cmp t x : avl_cmp (avl_insert t x) = avl_cmp t;
  avl_remove_nodes t x : CmpLaws (avl_cmp t) -> increasing (avl_cmp t) (avl_nodes t) ->
    avl_nodes (avl_remove t x) = filter (fun y => avl_cmp t x y <> 0) (avl_nodes t);
  avl_remove_cmp t x : avl_cmp (avl_remove t x) = avl_cmp t;
  avl_first_nodes t : avl_first t = head (avl_nodes t);
  avl_next_nodes t x : CmpLaws (avl_cmp t) -> increasing (avl_cmp t) (avl_nodes t) ->
    avl_next t x = head (filter (fun y => avl_cmp t x y < 0) (avl_nodes t));
  avl_numnodes_nodes t : avl_numnodes t = Zlen (avl_nodes t)
}.

(** The laws hold of sorted lists. *)
Definition list_avl (T : Type) : AvlTree T := {|
  avl_tree := (T -> T -> Z) * list T;
  avl_nodes t := t.2;
  avl_cmp t := t.1;
  avl_create cmp := (cmp, []);
  avl_find t x := head (filter (fun y => t.1 x y = 0) t.2);
  avl_insert t x := (t.1, insert_sorted t.1 x t.2);
  avl_remove t x := (t.1, filter (fun y => t.1 x y <> 0) t.2);
  avl_first t := head t.2;
  avl_next t x := head (filter (fun y => t.1 x y < 0) t.2);
  avl_numnodes t := Zlen t.2
|}.

Lemma list_avl_laws T : @AvlLaws T (list_avl T).
Proof. by constructor. Qed.

Section avl_facts.
Context {T : Type} (cmp : T -> T -> Z) `{!CmpLaws cmp}.

Lemma cmp_gt_lt x y : 0 < cmp y x -> cmp x y < 0.
Proof. apply (proj2 (cmp_opp x y)). Qed.
Lemma cmp_lt_gt x y : cmp x y < 0 -> 0 < cmp y x.
Proof. apply (proj1 (cmp_opp x y)). Qed.

Lemma cmp_lt_le_trans x y z : cmp x y < 0 -> cmp y z <= 0 -> cmp x z < 0.
Proof.
  intros Hxy Hyz. pose proof (cmp_le_trans (cmp := cmp) x y z ltac:(lia) Hyz).
  destruct (Z.eq_dec (cmp x z) 0) as [Heq|]; [|lia]. exfalso.
  assert (cmp z x <= 0).
  { destruct (Z.le_gt_cases (cmp z x) 0) as [|Hgt]; [done|]. apply cmp_gt_lt in Hgt. lia. }
  pose proof (cmp_le_trans (cmp := cmp) y z x Hyz ltac:(done)). apply cmp_lt_gt in Hxy. lia.
Qed.

Lemma cmp_le_lt_trans x y z : cmp x y <= 0 -> cmp y z < 0 -> cmp x z < 0.
Proof.
  intros Hxy Hyz. pose proof (cmp_le_trans (cmp := cmp) x y z Hxy ltac:(lia)).
  destruct (Z.eq_dec (cmp x z) 0) as [Heq|]; [|lia]. exfalso.
  assert (cmp z x <= 0).
  { destruct (Z.le_gt_cases (cmp z x) 0) as [|Hgt]; [done|]. apply cmp_gt_lt in Hgt. lia. }
  pose proof (cmp_le_trans (cmp := cmp) z x y ltac:(done) Hxy). apply cmp_lt_gt in Hyz. lia.
Qed.

Lemma cmp_sym x y : cmp x y = 0 -> cmp y x = 0.
Proof.
  intros H. destruct (Z.lt_trichotomy (cmp y x) 0) as [Hlt|[?|Hgt]]; [|done|].
  - apply cmp_lt_gt in Hlt. lia.
  - apply cmp_gt_lt in Hgt. lia.
Qed.

Lemma cmp_lt_irrefl x : ~ cmp x x < 0.
Proof. rewrite cmp_refl. lia. Qed.

Lemma insert_sorted_perm x l : insert_sorted cmp x l ≡ₚ x :: l.
Proof.
  induction l as [|y l IH]; cbn; [done|]. destruct (cmp x y <? 0); [done|].
  rewrite IH. by apply Permutation_swap.
Qed.

Lemma insert_sorted_increasing x l :
  increasing cmp l -> Forall (fun y => cmp x y <> 0) l -> increasing cmp (insert_sorted cmp x l).
Proof.
  induction l as [|y l IH]; cbn; [by repeat constructor|]. intros [Hy Hl] Hx.
  apply Forall_cons_1 in Hx as [Hxy Hx]. destruct (Z.ltb_spec (cmp x y) 0).
  - cbn. split; [|done]. constructor; [done|]. eapply Forall_impl; [|exact Hy].
    intros z Hz. cbn in Hz. eapply cmp_lt_le_trans; [done|lia].
  - cbn. split; [|by apply IH]. rewrite insert_sorted_perm. constructor; [|done].
    apply cmp_gt_lt. lia.
Qed.

Lemma filter_increasing (P : T -> Prop) `{forall x, Decision (P x)} l :
  increasing cmp l -> increasing cmp (filter P l).
Proof.
  induction l as [|x l IH]; [done|]. intros [Hx Hl].
  rewrite filter_cons. case_decide; [|by apply IH]. split; [|by apply IH].
  by apply filter_Forall.
Qed.

(** Past the first element, the elements above it are the rest. *)
Lemma filter_above x l : increasing cmp (x :: l) -> filter (fun y => cmp x y < 0) (x :: l) = l.
Proof.
  intros [Hx Hl]. rewrite filter_cons_False by apply cmp_lt_irrefl. by apply filter_id.
Qed.

(** Around one element of an increasing sequence. *)
Lemma increasing_app l1 l2 :
  increasing cmp (l1 ++ l2) <->
  increasing cmp l1 /\ increasing cmp l2 /\ Forall (fun x => Forall (fun y => cmp x y < 0) l2) l1.
Proof.
  induction l1 as [|x l1 IH]; cbn [app increasing]; [split; [intros; by repeat constructor|naive_solver]|].
  rewrite IH, Forall_app. split.
  - intros ([? ?] & ? & ? & ?). split_and!; [done..|by constructor].
  - intros ([? ?] & ? & Hf). apply Forall_cons_1 in Hf as [? ?]. by split_and!.
Qed.

Lemma filter_around (P : T -> Prop) `{forall x, Decision (P x)} l1 x l2 :
  Forall (fun y => ~ P y) l1 -> ~ P x -> Forall P l2 -> filter P (l1 ++ x :: l2) = l2.
Proof.
  intros H1 Hx H2. rewrite list.filter_app, (filter_none P l1) by done.
  rewrite filter_cons_False by done. by apply filter_id.
Qed.

Lemma filter_after l1 x l2 :
  increasing cmp (l1 ++ x :: l2) -> filter (fun y => cmp x y < 0) (l1 ++ x :: l2) = l2.
Proof.
  intros (_ & [Hx _] & Hl)%increasing_app. apply filter_around; [|apply cmp_lt_irrefl|done].
  eapply Forall_impl; [|exact Hl]. intros y Hy. apply Forall_cons_1 in Hy as [Hy _].
  apply cmp_lt_gt in Hy. lia.
Qed.

Lemma filter_without l1 x l2 :
  increasing cmp (l1 ++ x :: l2) -> filter (fun y => cmp x y <> 0) (l1 ++ x :: l2) = l1 ++ l2.
Proof.
  intros (_ & [Hx _] & Hl)%increasing_app. rewrite list.filter_app, filter_cons_False by (rewrite cmp_refl; auto).
  f_equal; apply filter_id.
  - eapply Forall_impl; [|exact Hl]. intros y Hy. apply Forall_cons_1 in Hy as [Hy _].
    apply cmp_lt_gt in Hy. lia.
  - eapply Forall_impl; [|exact Hx]. intros y Hy. cbn in *. lia.
Qed.

Lemma increasing_without l1 x l2 : increasing cmp (l1 ++ x :: l2) -> increasing cmp (l1 ++ l2).
Proof.
  rewrite !increasing_app. intros (? & [? ?] & Hl). split_and!; [done|done|].
  eapply Forall_impl; [|exact Hl]. by intros y [_ ?]%Forall_cons_1.
Qed.
End avl_facts.
