(* ===== verification/Strset.v ===== *)
(** * Strset: ordered sets of strings, [tools/common/strset.c]

    A set keeps its strings in an AVL tree ([Avl]) ordered by [strcmp] or by a comparison
    function of the caller.  A node is its string: two nodes of one tree never compare equal. *)
From Stdlib Require Import Lia.
From S2P Require Import Prelude Custr Manifest Avl.

Definition EEXIST : Z := 17.
Definition ENOENT : Z := 2.

Definition STRSET_IGNORE_DUPLICATES : Z := 1.
Definition STRSET_IGNORE_MISSING : Z := 2.
Definition STRSET_FLAGS_ALL : Z := STRSET_IGNORE_DUPLICATES.

Definition STRSET_WALK_NEXT : Z := 0.
Definition STRSET_WALK_DONE : Z := 1.
Definition STRSET_WALK_CANCEL : Z := 2.
Definition STRSET_WALK_REMOVE : Z := 16.
Definition STRSET_WALK_WHATNEXT (a : Z) : Z := Z.land a 15.

Inductive strset_compare := STRSET_COMPARE_LEFT_FIRST | STRSET_COMPARE_EQUAL | STRSET_COMPARE_RIGHT_FIRST.

(** [strcmp]: its sign is that of the first difference of the strings as [unsigned char]s. *)
Fixpoint strcmp (s t : cstr) : Z :=
  match s, t with
  | [], [] => 0
  | [], _ :: _ => -1
  | _ :: _, [] => 1
  | c :: s', d :: t' => if code c =? code d then strcmp s' t' else code c - code d
  end.

Definition strset_comparator (func : option (cstr -> cstr -> strset_compare)) (l r : cstr) : Z :=
  match func with
  | Some func =>
      match func l r with
      | STRSET_COMPARE_LEFT_FIRST => -1
      | STRSET_COMPARE_RIGHT_FIRST => 1
      | STRSET_COMPARE_EQUAL => 0
      end
  | None => let cmp := strcmp l r in if cmp <? 0 then -1 else if 0 <? cmp then 1 else 0
  end.

Section strset.
Context `{AvlTree cstr}.

Record strset := Strset {
  ss_strings : avl_tree;
  ss_flags : Z;
  ss_walking : Z;
  ss_compare : option (cstr -> cstr -> strset_compare)
}.

Definition with_strings (ss : strset) (t : avl_tree) : strset :=
  Strset t (ss_flags ss) (ss_walking ss) (ss_compare ss).
Definition with_walking (ss : strset) (n : Z) : strset :=
  Strset (ss_strings ss) (ss_flags ss) n (ss_compare ss).

Context {E : Type} `{DM : DataModel}.

Definition strset_allocx (flags : Z) (cmp : option (cstr -> cstr -> strset_compare)) : C E (Z * option strset) :=
  if negb (Z.land flags (Z.lnot STRSET_FLAGS_ALL) =? 0)
  then set_errno EINVAL ;; mret (-1, None)
  else
    m ← malloc (10 * ptr_bytes);
    match m with
    | None => mret (-1, None)
    | Some _ => mret (0, Some (Strset (avl_create (strset_comparator cmp)) flags 0 cmp))
    end.

Definition strset_alloc (flags : Z) : C E (Z * option strset) := strset_allocx flags None.

(** The node that is allocated, or -1: the structure, then the copy of the string. *)
Definition strset_node_alloc (str : cstr) : C E (Z * cstr) :=
  m ← malloc (5 * ptr_bytes);
  match m with
  | None => mret (-1, [])
  | Some _ =>
      m ← malloc (Zlen str + 1);
      match m with None => mret (-1, []) | Some _ => mret (0, str) end
  end.

(** [avl_destroy_nodes] takes every node out of the tree. *)
Definition strset_reset (ss : strset) : C E strset :=
  VERIFY (ss_walking ss =? 0) ;;
  mret (with_strings ss (avl_create (avl_cmp (ss_strings ss)))).

Definition strset_remove (ss : strset) (torm : cstr) : C E (Z * strset) :=
  VERIFY (ss_walking ss =? 0) ;;
  match avl_find (ss_strings ss) torm with
  | None =>
      if negb (Z.land (ss_flags ss) STRSET_IGNORE_MISSING =? 0) then mret (0, ss)
      else set_errno ENOENT ;; mret (-1, ss)
  | Some ssn => mret (0, with_strings ss (avl_remove (ss_strings ss) ssn))
  end.

Definition strset_add (ss : strset) (str : cstr) : C E (Z * strset) :=
  match avl_find (ss_strings ss) str with
  | Some _ =>
      if negb (Z.land (ss_flags ss) STRSET_IGNORE_DUPLICATES =? 0) then mret (0, ss)
      else set_errno EEXIST ;; mret (-1, ss)
  | None =>
      '(r, ssn) ← strset_node_alloc str;
      if negb (r =? 0) then mret (-1, ss)
      else mret (0, with_strings ss (avl_insert (ss_strings ss) ssn))
  end.

Definition strset_contains (ss : strset) (search : cstr) : bool :=
  match avl_find (ss_strings ss) search with None => false | Some _ => true end.

(** The number of nodes is a [ulong_t], the count an [int]. *)
Definition strset_count (ss : strset) : Z := i32 (avl_numnodes (ss_strings ss)).

(** The loop of [strset_walk]: the callback may use the set, so the walk ends only if the
    callback lets it; [fuel] bounds the number of strings visited. *)
Fixpoint walk_loop (fuel : nat) (walk_cb : strset -> cstr -> C E (Z * strset)) (cur : option cstr)
    (ss : strset) : C E (Z * strset) :=
  match fuel with
  | O => c_undefined
  | S fuel =>
      match cur with
      | None => mret (0, ss)
      | Some cur =>
          '(ret, ss) ← walk_cb ss cur;
          let next := avl_next (ss_strings ss) cur in
          let ss := if negb (Z.land ret STRSET_WALK_REMOVE =? 0)
                    then with_strings ss (avl_remove (ss_strings ss) cur) else ss in
          let what := STRSET_WALK_WHATNEXT ret in
          if what =? STRSET_WALK_NEXT then walk_loop fuel walk_cb next ss
          else if what =? STRSET_WALK_DONE then mret (0, ss)
          else if what =? STRSET_WALK_CANCEL then mret (ECANCELED, ss)
          else c_abort
      end
  end.

Definition strset_walk (fuel : nat) (ss : strset) (walk_cb : strset -> cstr -> C E (Z * strset)) : C E (Z * strset) :=
  let ss := with_walking ss (ss_walking ss + 1) in
  '(error, ss) ← walk_loop fuel walk_cb (avl_first (ss_strings ss)) ss;
  let ss := with_walking ss (ss_walking ss - 1) in
  set_errno error ;;
  mret (if error =? 0 then 0 else -1, ss).
End strset.

(** ** [strcmp] orders strings *)

Lemma strcmp_opp s t : strcmp s t = - strcmp t s.
Proof.
  revert t. induction s as [|c s IH]; intros [|d t]; cbn [strcmp]; [done..|].
  rewrite (Z.eqb_sym (code d)). destruct (code c =? code d); [apply IH|lia].
Qed.

Lemma strcmp_eq s t : strcmp s t = 0 <-> s = t.
Proof.
  revert t. induction s as [|c s IH]; intros [|d t]; cbn [strcmp]; [done..|].
  destruct (Z.eqb_spec (code c) (code d)) as [Hcd|Hne].
  - apply code_inj in Hcd as ->. rewrite IH. naive_solver.
  - split; [lia|]. by intros [= -> ->].
Qed.

Lemma strcmp_trans s t u : strcmp s t <= 0 -> strcmp t u <= 0 -> strcmp s u <= 0.
Proof.
  revert t u. induction s as [|c s IH]; intros [|d t] [|e u]; cbn [strcmp]; try lia.
  destruct (Z.eqb_spec (code c) (code d)), (Z.eqb_spec (code d) (code e)), (Z.eqb_spec (code c) (code e));
    try lia. apply IH.
Qed.

Lemma strset_comparator_sgn l r : strset_comparator None l r = Z.sgn (strcmp l r).
Proof. unfold strset_comparator. destruct (Z.ltb_spec (strcmp l r) 0), (Z.ltb_spec 0 (strcmp l r)); lia. Qed.

#[export] Instance strset_comparator_laws : CmpLaws (strset_comparator None).
Proof.
  constructor.
  - intros x. rewrite strset_comparator_sgn, (proj2 (strcmp_eq x x)); done.
  - intros x y. rewrite !strset_comparator_sgn, (strcmp_opp y x). lia.
  - intros x y z. rewrite !strset_comparator_sgn. pose proof (strcmp_trans x y z). lia.
Qed.

Lemma strset_comparator_eq l r : strset_comparator None l r = 0 <-> l = r.
Proof. rewrite strset_comparator_sgn, <-strcmp_eq. lia. Qed.

(** ** Representation *)

Section strset_facts.
Context `{AvlTree cstr, !AvlLaws cstr}.
Context {E : Type} `{DM : DataModel}.
Implicit Types (ss : strset) (w : world E).

(** The set holds exactly the strings [X], in order, each once. *)
Definition strset_rep ss (X : gset cstr) : Prop :=
  avl_cmp (ss_strings ss) = strset_comparator None /\
  increasing (strset_comparator None) (avl_nodes (ss_strings ss)) /\
  forall s, s ∈ avl_nodes (ss_strings ss) <-> s ∈ X.

Lemma rep_find ss X s :
  strset_rep ss X -> avl_find (ss_strings ss) s = if decide (s ∈ X) then Some s else None.
Proof.
  intros (Hc & Hi & Hx). rewrite avl_find_nodes by (rewrite Hc; done || apply _). rewrite Hc.
  assert (Hf : forall y, y ∈ filter (fun y => strset_comparator None s y = 0) (avl_nodes (ss_strings ss))
    <-> y = s /\ s ∈ X).
  { intros y. rewrite list_elem_of_filter, strset_comparator_eq, <-Hx. naive_solver. }
  destruct (filter _ _) as [|y l] eqn:Hfl; cbn.
  - rewrite decide_False; [done|]. intros Hs. by apply (not_elem_of_nil s), Hf.
  - destruct (proj1 (Hf y)) as [-> Hs]; [by left|]. by rewrite decide_True.
Qed.

Lemma rep_insert ss X s :
  strset_rep ss X -> s ∉ X -> strset_rep (with_strings ss (avl_insert (ss_strings ss) s)) ({[ s ]} ∪ X).
Proof.
  intros Hrep Hs. pose proof (rep_find _ _ s Hrep) as Hfind. rewrite decide_False in Hfind by done.
  destruct Hrep as (Hc & Hi & Hx). unfold strset_rep. cbn [ss_strings with_strings].
  rewrite avl_insert_cmp, avl_insert_nodes by (rewrite ?Hc; done || apply _). rewrite Hc.
  split_and!; [done| |].
  - apply insert_sorted_increasing; [apply _|done|]. apply Forall_lookup_2. intros i y Hy ->%strset_comparator_eq.
    apply list_elem_of_lookup_2, Hx in Hy. done.
  - intros y. rewrite insert_sorted_perm, elem_of_cons, Hx. set_solver.
Qed.

Lemma rep_remove ss X s :
  strset_rep ss X -> strset_rep (with_strings ss (avl_remove (ss_strings ss) s)) (X ∖ {[ s ]}).
Proof.
  intros (Hc & Hi & Hx). unfold strset_rep. cbn [ss_strings with_strings].
  rewrite avl_remove_cmp, avl_remove_nodes by (rewrite Hc; done || apply _). rewrite Hc.
  split_and!; [done|by apply filter_increasing|].
  intros y. rewrite list_elem_of_filter, strset_comparator_eq, Hx. set_solver.
Qed.

Lemma increasing_nodup (l : list cstr) : increasing (strset_comparator None) l -> NoDup l.
Proof.
  induction l as [|x l IH]; [by constructor|]. intros [Hx Hl]. constructor; [|by apply IH].
  intros Hin. apply list_elem_of_lookup in Hin as [i Hi].
  exact (cmp_lt_irrefl _ x (Forall_lookup_1 _ _ _ _ Hx Hi)).
Qed.

Lemma rep_nodes ss X : strset_rep ss X -> avl_nodes (ss_strings ss) ≡ₚ elements X.
Proof.
  intros (Hc & Hi & Hx). apply NoDup_Permutation; [by apply increasing_nodup|apply NoDup_elements|].
  intros y. by rewrite Hx, elem_of_elements.
Qed.

Lemma node_alloc_spec s (Q : Z * cstr -> world E -> Prop) w :
  heap_low w -> Zlen s + 1 <= HEAP_HI ->
  (forall w', frame w w' -> Q (0, s) w') ->
  (forall w', frame w w' -> ~ heap_total w -> w_errno w' = ENOMEM -> Q (-1, []) w') ->
  wp (strset_node_alloc s) Q w.
Proof.
  intros Hlow Hs Hok Hfail. unfold strset_node_alloc. pose proof (Zlen_nonneg s).
  assert (0 <= 5 * ptr_bytes <= HEAP_HI) by (unfold HEAP_HI; destruct ptr_bytes_ok as [-> | ->]; lia).
  apply wp_bind, wp_malloc; [done|done| |intros; by apply wp_ret, Hfail].
  intros a w1 _ Hw1. apply wp_bind, wp_malloc; [by eauto using frame_low|lia| |].
  - intros a' w2 _ Hw2. apply wp_ret, Hok. by etrans.
  - intros w2 Hnt Hw2 He. apply wp_ret, Hfail; [by etrans|by eauto using frame_total|done].
Qed.
End strset_facts.

(** ** Walks *)

(** A callback that leaves the set alone, records the strings it sees and answers [reply]. *)
Definition log_walk `{AvlTree cstr} (reply : cstr -> Z) (ss : strset) (s : cstr) : C (list cstr) (Z * strset) :=
  log ← get_env; put_env (log ++ [s]) ;; mret (reply s, ss).

(** What a walk over [l] does: the strings visited, those kept, and the error. *)
Fixpoint walk_meaning (reply : cstr -> Z) (l : list cstr) : list cstr * list cstr * Z :=
  match l with
  | [] => ([], [], 0)
  | s :: l' =>
      let keep := if Z.land (reply s) STRSET_WALK_REMOVE =? 0 then [s] else [] in
      let what := STRSET_WALK_WHATNEXT (reply s) in
      if what =? STRSET_WALK_NEXT then
        let '(seen, kept, err) := walk_meaning reply l' in (s :: seen, keep ++ kept, err)
      else ([s], keep ++ l', if what =? STRSET_WALK_DONE then 0 else ECANCELED)
  end.

Definition good_reply (r : Z) : Prop :=
  STRSET_WALK_WHATNEXT r = STRSET_WALK_NEXT \/ STRSET_WALK_WHATNEXT r = STRSET_WALK_DONE \/
  STRSET_WALK_WHATNEXT r = STRSET_WALK_CANCEL.

Section walk_facts.
Context `{AvlTree cstr, !AvlLaws cstr}.
Implicit Types (ss : strset) (w : world (list cstr)).

Notation ordered ss l := (avl_cmp (ss_strings ss) = strset_comparator None /\
  avl_nodes (ss_strings ss) = l /\ increasing (strset_comparator None) l) (only parsing).

Lemma walk_step ss pre s l r :
  ordered ss (pre ++ s :: l) ->
  avl_next (ss_strings ss) s = head l /\
  ordered (if negb (Z.land r STRSET_WALK_REMOVE =? 0)
           then with_strings ss (avl_remove (ss_strings ss) s) else ss)
          ((pre ++ if Z.land r STRSET_WALK_REMOVE =? 0 then [s] else []) ++ l).
Proof.
  intros (Hc & Hn & Hi). split.
  - rewrite avl_next_nodes by (rewrite Hc, ?Hn; done || apply _). rewrite Hc, Hn, filter_after; [done|apply _|done].
  - rewrite <-app_assoc. destruct (Z.land r STRSET_WALK_REMOVE =? 0); cbn [negb app ss_strings with_strings]; [done|].
    rewrite avl_remove_cmp, avl_remove_nodes by (rewrite Hc, ?Hn; done || apply _).
    rewrite Hc, Hn, filter_without; [|apply _|done]. split_and!; [done|done|by eapply increasing_without].
Qed.

Lemma walk_loop_spec reply (Hreply : forall s, good_reply (reply s)) fuel pre l ss w :
  ordered ss (pre ++ l) -> (length l < fuel)%nat ->
  wp (walk_loop fuel (log_walk reply) (head l) ss) (fun '(err, ss') w' => exists seen kept,
    walk_meaning reply l = (seen, kept, err) /\ w_env w' = w_env w ++ seen /\
    ordered ss' (pre ++ kept) /\ ss_walking ss' = ss_walking ss) w.
Proof.
  revert pre l ss w. induction fuel as [|fuel IH]; intros pre l ss w Hord Hf; [lia|].
  destruct l as [|s l]; cbn [walk_loop walk_meaning head].
  { apply wp_ret. exists [], []. by rewrite app_nil_r. }
  pose proof (walk_step ss pre s l (reply s) Hord) as [Hnext Hord'].
  apply wp_bind. unfold log_walk at 1. wp_steps. rewrite Hnext.
  assert (Hw : ss_walking (if negb (Z.land (reply s) STRSET_WALK_REMOVE =? 0)
    then with_strings ss (avl_remove (ss_strings ss) s) else ss) = ss_walking ss) by (by case_match).
  set (ss1 := if negb _ then _ else ss) in *. set (keep := if _ =? 0 then [s] else []) in *.
  destruct (Hreply s) as [->|[->| ->]].
  - change (STRSET_WALK_NEXT =? STRSET_WALK_NEXT) with true. cbn beta iota.
    eapply wp_mono; [apply (IH (pre ++ keep)); [done|cbn in Hf; lia]|].
    intros [err ss2] w2 (seen & kept & -> & He & Hord2 & Hw2). exists (s :: seen), (keep ++ kept).
    rewrite app_assoc. cbn [w_env] in He. split_and!; [done|by rewrite He, <-app_assoc|apply Hord2..|congruence].
  - change (STRSET_WALK_DONE =? STRSET_WALK_NEXT) with false. cbn beta iota. apply wp_ret.
    exists [s], (keep ++ l). rewrite app_assoc. split_and!; [done|done|apply Hord'..|done].
  - change (STRSET_WALK_CANCEL =? STRSET_WALK_NEXT) with false. cbn beta iota. apply wp_ret.
    exists [s], (keep ++ l). rewrite app_assoc. split_and!; [done|done|apply Hord'..|done].
Qed.
End walk_facts.

(** ** Properties *)

(** C5: [strset_add] and [strset_remove] refine insertion into and deletion from a finite set
    of strings; [strset_contains] observes it, and [strset_count] gives its size cut down to an
    [int] (the size itself up to [INT_MAX] strings); a duplicate or a missing string
    is an error ([EEXIST], [ENOENT]) unless the set's flags say otherwise, and a failed
    allocation leaves the set as it was. *)
Theorem strset_refines_set `{AvlTree cstr, !AvlLaws cstr} {E : Type} `{DM : DataModel}
    (ss : strset) (X : gset cstr) (s : cstr) (w : world E) :
  strset_rep ss X -> heap_low w -> Zlen s + 1 <= HEAP_HI -> ss_walking ss = 0 ->
  strset_contains ss s = bool_decide (s ∈ X) /\
  strset_count ss = i32 (Z.of_nat (size X)) /\
  wp (strset_add ss s) (fun '(r, ss') w' =>
    (s ∈ X /\ ss' = ss /\ (r = 0 \/ (r = -1 /\ w_errno w' = EEXIST)) /\
     (r = 0 <-> Z.land (ss_flags ss) STRSET_IGNORE_DUPLICATES <> 0)) \/
    (s ∉ X /\ r = 0 /\ strset_rep ss' ({[ s ]} ∪ X)) \/
    (s ∉ X /\ r = -1 /\ ss' = ss /\ ~ heap_total w /\ w_errno w' = ENOMEM)) w /\
  wp (strset_remove ss s) (fun '(r, ss') w' =>
    strset_rep ss' (X ∖ {[ s ]}) /\
    (r = 0 \/ (r = -1 /\ s ∉ X /\ w_errno w' = ENOENT)) /\
    (r = 0 <-> s ∈ X \/ Z.land (ss_flags ss) STRSET_IGNORE_MISSING <> 0)) w.
Proof.
  intros Hrep Hlow Hs Hwalk. pose proof (rep_find _ _ s Hrep) as Hfind. split_and!.
  - unfold strset_contains. rewrite Hfind. by repeat case_decide.
  - unfold strset_count, size, set_size. rewrite avl_numnodes_nodes. unfold Zlen.
    by rewrite (rep_nodes _ _ Hrep).
  - unfold strset_add. rewrite Hfind. case_decide as Hin.
    + destruct (Z.eqb_spec (Z.land (ss_flags ss) STRSET_IGNORE_DUPLICATES) 0) as [->|]; cbn [negb].
      * apply wp_bind, wp_set_errno, wp_ret. left. split_and!; [done|done|by right|done].
      * apply wp_ret. left. split_and!; [done|done|by left|done].
    + apply wp_bind, node_alloc_spec; [done|done| |].
      * intros w1 _. apply wp_ret. right; left. split_and!; [done|done|by apply rep_insert].
      * intros w1 _ Hnt He. apply wp_ret. by right; right.
  - unfold strset_remove. rewrite Hwalk. apply wp_bind, wp_VERIFY; [done|]. rewrite Hfind.
    case_decide as Hin.
    + apply wp_ret. split_and!; [by apply rep_remove|by left|naive_solver].
    + assert (Hsame : strset_rep ss (X ∖ {[ s ]})) by (by rewrite difference_disjoint_L by set_solver).
      destruct (Z.eqb_spec (Z.land (ss_flags ss) STRSET_IGNORE_MISSING) 0) as [->|]; cbn [negb].
      * apply wp_bind, wp_set_errno, wp_ret. split_and!; [done|by right|naive_solver].
      * apply wp_ret. split_and!; [done|by left|naive_solver].
Qed.

#[local] Instance strings_avl : AvlTree cstr := list_avl cstr.
#[local] Instance strings_avl_laws : AvlLaws cstr := list_avl_laws cstr.

Definition two_strings : strset := Strset (strset_comparator None, [cs "a"; cs "b"]) 0 0 None.

Lemma two_strings_rep : strset_rep two_strings {[ cs "a"; cs "b" ]}.
Proof.
  split_and!; [done| |].
  - cbn. split_and!; [|constructor|done]. by constructor.
  - intros s. cbn. rewrite !elem_of_cons, elem_of_union, !elem_of_singleton.
    pose proof (not_elem_of_nil s). naive_solver.
Qed.

Lemma strset_refines_set_witness :
  strset_contains two_strings (cs "c") = false /\ strset_count two_strings = 2 /\
  wp (@strset_add _ () LP64 two_strings (cs "c")) (fun '(r, ss') _ =>
    r = 0 /\ strset_rep ss' ({[ cs "c" ]} ∪ {[ cs "a"; cs "b" ]})) (World 0 [] [] ()) /\
  wp (@strset_remove _ () two_strings (cs "c")) (fun '(r, ss') w' =>
    r = -1 /\ w_errno w' = ENOENT /\ strset_rep ss' ({[ cs "a"; cs "b" ]} ∖ {[ cs "c" ]})) (World 0 [] [] ()).
Proof.
  destruct (@strset_refines_set _ _ () LP64 two_strings {[ cs "a"; cs "b" ]} (cs "c") (World 0 [] [] ()))
    as (Hc & Hn & Hadd & Hrem).
  - apply two_strings_rep.
  - constructor.
  - by vm_compute.
  - done.
  - split; [done|]. split; [done|]. split.
    + eapply wp_mono; [exact Hadd|]. intros [r ss'] w' [(Hin & _)|[(_ & Hr & Hrep)|(_ & _ & _ & Hnt & _)]].
      * exfalso. revert Hin. by_decide.
      * exact (conj Hr Hrep).
      * exfalso. apply Hnt. constructor.
    + eapply wp_mono; [exact Hrem|]. intros [r ss'] w' (Hrep & Hr & Hiff). destruct Hr as [Hr|(Hr & _ & He)].
      * exfalso. destruct (proj1 Hiff Hr) as [Hin|Hf]; [revert Hin; by_decide|by apply Hf].
      * exact (conj Hr (conj He Hrep)).
Defined.

(** [strset_walk] visits the strings of the set in [strcmp] order, each once, removing
    those the callback says to remove, until the end or the reply that stops it; it returns -1
    with [ECANCELED] when cancelled, and the set is not left in the walking state.  One more
    turn than the set has strings is enough. *)
Theorem strset_walk_meaning `{AvlTree cstr, !AvlLaws cstr}
    (reply : cstr -> Z) (fuel : nat) (ss : strset) (X : gset cstr) (w : world (list cstr)) :
  strset_rep ss X -> (forall s, good_reply (reply s)) -> (size X < fuel)%nat ->
  wp (strset_walk fuel ss (log_walk reply)) (fun '(r, ss') w' => exists l seen kept err,
    l ≡ₚ elements X /\ increasing (strset_comparator None) l /\ walk_meaning reply l = (seen, kept, err) /\
    w_env w' = w_env w ++ seen /\ strset_rep ss' (list_to_set kept) /\ ss_walking ss' = ss_walking ss /\
    w_errno w' = err /\ r = if err =? 0 then 0 else -1) w.
Proof.
  intros Hrep Hreply Hfuel. pose proof (rep_nodes _ _ Hrep) as Hperm. destruct Hrep as (Hc & Hi & Hx).
  unfold strset_walk. cbn [ss_strings with_walking]. rewrite avl_first_nodes. apply wp_bind.
  eapply wp_mono.
  - apply (walk_loop_spec reply Hreply fuel [] (avl_nodes (ss_strings ss))).
    + cbn [app ss_strings]. done.
    + unfold size, set_size in Hfuel. by rewrite Hperm.
  - intros [err ss1] w1 (seen & kept & Hm & He & (Hc1 & Hn1 & Hi1) & Hw1). wp_steps.
    exists (avl_nodes (ss_strings ss)), seen, kept, err. cbn [app ss_walking with_walking ss_strings] in *.
    split_and!; try done; [|lia]. unfold strset_rep. cbn [ss_strings with_walking]. rewrite Hn1.
    split_and!; [done|done|]. intros s. by rewrite elem_of_list_to_set.
Qed.

Lemma strset_walk_meaning_witness :
  wp (strset_walk 3 two_strings (log_walk (fun _ => STRSET_WALK_REMOVE))) (fun '(r, ss') w' =>
    exists l seen kept err,
    l ≡ₚ elements ({[ cs "a"; cs "b" ]} : gset cstr) /\ increasing (strset_comparator None) l /\
    walk_meaning (fun _ => STRSET_WALK_REMOVE) l = (seen, kept, err) /\
    w_env w' = [] ++ seen /\ strset_rep ss' (list_to_set kept) /\ ss_walking ss' = 0 /\
    w_errno w' = err /\ r = if err =? 0 then 0 else -1) (World 0 [] [] []).
Proof.
  apply (strset_walk_meaning (fun _ => STRSET_WALK_REMOVE) 3 two_strings {[ cs "a"; cs "b" ]} (World 0 [] [] [])).
  - apply two_strings_rep.
  - intros s. by left.
  - rewrite size_union, !size_singleton by (by_decide || set_solver). lia.
Defined.

(** [STRSET_FLAGS_ALL] leaves out [STRSET_IGNORE_MISSING]: a set cannot be made with it. *)
Lemma strset_alloc_ignore_missing `{AvlTree cstr} {E : Type} `{DM : DataModel} (w : world E) :
  strset_alloc STRSET_IGNORE_MISSING w = Done ((-1, None), World EINVAL (w_heap w) (w_stderr w) (w_env w)).
Proof. done. Qed.
