(* ===== verification/Dynstr.v ===== *)
(** * Dynstr: the strings of the metadata client, [mdata-client/dynstr.c]

    Where [custr] reports a failed allocation these functions end the process ([err]).  A
    [string_t] owns its block; [str_data] is [None] for NULL. *)
From Stdlib Require Import Lia.
From S2P Require Import Prelude Custr.

Record dynstr := Dynstr {
  str_strlen : Z;
  str_datalen : Z;
  str_data : option (list char)
}.

Section dynstr.
Context {E : Type} `{DM : DataModel}.

(** [err(status, "could not allocate memory for string")] *)
Definition err_memory {A} (status : Z) : C E A :=
  eprint (cs "could not allocate memory for string") ;; c_exit status.

Definition dynstr_new : C E dynstr :=
  m ← malloc (3 * ptr_bytes);
  match m with
  | None => err_memory 10
  | Some _ => mret (Dynstr 0 0 None)
  end.

Definition dynstr_reset (str : dynstr) : C E dynstr :=
  match str_data str with
  | None => mret str
  | Some b =>
      b ← c_access (buf_store b 0 [NUL]);
      mret (Dynstr 0 (str_datalen str) (Some b))
  end.

Definition dynstr_len (str : dynstr) : Z := str_strlen str.

(** The C string at [str_data], or NULL. *)
Definition dynstr_cstr (str : dynstr) : option cstr := c_text <$> str_data str.

(** [str_datalen += chunksz] and the [realloc]: the block keeps its contents. *)
Definition dynstr_grow (str : dynstr) (chunksz : Z) : C E dynstr :=
  let datalen := sz (str_datalen str + chunksz) in
  m ← malloc datalen;
  match m with
  | None => err_memory 1
  | Some _ =>
      let old := default [] (str_data str) in
      b ← c_access (buf_store (fresh_block datalen) 0 old);
      mret (Dynstr (str_strlen str) datalen (Some b))
  end.

Definition dynstr_appendc (str : dynstr) (newc : char) : C E dynstr :=
  str ← (if str_datalen str <=? sz (str_strlen str + 1) then dynstr_grow str STRING_CHUNK_SIZE else mret str);
  b ← c_access (str_data str);
  b ← c_access (buf_store b (str_strlen str) [newc]);
  b ← c_access (buf_store b (str_strlen str + 1) [NUL]);
  mret (Dynstr (sz (str_strlen str + 1)) (str_datalen str) (Some b)).

(** [int chunksz = STRING_CHUNK_SIZE; while (chunksz < len) chunksz *= 2;] in [int]s: no answer
    where the multiplication overflows. *)
Fixpoint dyn_chunk (fuel : nat) (chunksz len : Z) : option Z :=
  match fuel with
  | O => None
  | S fuel =>
      if chunksz <? len
      then if chunksz * 2 <=? INT_MAX then dyn_chunk fuel (chunksz * 2) len else None
      else Some chunksz
  end.

Definition dynstr_append (str : dynstr) (news : cstr) : C E dynstr :=
  let news := c_text news in
  let len := i32 (Zlen news) in
  chunksz ← c_access (dyn_chunk 32 STRING_CHUNK_SIZE len);
  str ← (if str_datalen str <=? sz (len + str_strlen str) then dynstr_grow str chunksz else mret str);
  b ← c_access (str_data str);
  b ← c_access (buf_store b (str_strlen str) (news ++ [NUL]));
  mret (Dynstr (sz (str_strlen str + len)) (str_datalen str) (Some b)).
End dynstr.

(** ** Representation *)

(** The longest text the positive results speak of: 32 MB. *)
Definition DYN_MAX : Z := 33554432.

(** The text [t] is held, NUL-terminated, in a block of [str_datalen] bytes. *)
Definition dynstr_rep (str : dynstr) (t : list char) : Prop :=
  str_datalen str <= 4 * DYN_MAX /\
  match str_data str with
  | None => str_strlen str = 0 /\ str_datalen str = 0 /\ t = []
  | Some b => str_strlen str = Zlen t /\ str_datalen str = Zlen b /\ exists rest, b = t ++ NUL :: rest
  end.

(** The chunk added by an append of [len] characters. *)
Definition chunk_of (len : Z) : Z := default 0 (dyn_chunk 32 STRING_CHUNK_SIZE len).

(** A chunk as long as the text leaves no room for the NUL in a fresh string. *)
Definition dyn_fits (str : dynstr) (s : cstr) : Prop :=
  str_data str <> None \/ chunk_of (Zlen s) <> Zlen s.

Lemma dyn_chunk_spec fuel c len :
  0 < c -> 0 <= 2 * len <= INT_MAX -> len <= c * 2 ^ Z.of_nat fuel -> (0 < fuel)%nat ->
  exists r, dyn_chunk (S fuel) c len = Some r /\ len <= r /\ c <= r <= Z.max c (2 * len).
Proof.
  intros Hc Hlen. revert c Hc. induction fuel as [|fuel IH]; intros c Hc Hf Hpos; [lia|].
  remember (S fuel) as n. cbn [dyn_chunk]. subst n. destruct (Z.ltb_spec c len); [|exists c; split; [done|lia]].
  unfold INT_MAX in *. assert (c * 2 <=? 2147483647 = true) as -> by lia.
  destruct fuel as [|fuel].
  - exists (c * 2). cbn [dyn_chunk]. assert (c * 2 <? len = false) as -> by (apply Z.ltb_ge; change (2 ^ Z.of_nat 1) with 2 in Hf; lia). split; [done|lia].
  - destruct (IH (c * 2)) as (r & Hr & ? & ?); [lia| |lia|].
    + rewrite Nat2Z.inj_succ, Z.pow_succ_r in Hf by lia. lia.
    + exists r. split; [exact Hr|lia].
Qed.

Lemma chunk_of_spec len : 0 <= len <= DYN_MAX ->
  dyn_chunk 32 STRING_CHUNK_SIZE len = Some (chunk_of len) /\
  len <= chunk_of len /\ 64 <= chunk_of len <= Z.max 64 (2 * len).
Proof.
  intros Hlen. unfold DYN_MAX, chunk_of, STRING_CHUNK_SIZE in *.
  destruct (dyn_chunk_spec 31 64 len) as (r & Hr & ?); [lia|unfold INT_MAX; lia| |lia|].
  - change (Z.of_nat 31) with 31. lia.
  - change (dyn_chunk 32 64 len = Some r) in Hr. rewrite Hr. cbn. split; [done|lia].
Qed.

Section dynstr_facts.
Context {E : Type} `{DM : DataModel}.
Implicit Types (str : dynstr) (w : world E).

Lemma dynstr_new_spec (Q : dynstr -> world E -> Prop) w :
  good w -> (forall w', frame w w' -> Q (Dynstr 0 0 None) w') -> wp dynstr_new Q w.
Proof.
  intros Hg HQ. unfold dynstr_new. apply wp_bind, wp_malloc_good; [done| |].
  - unfold HEAP_HI. destruct ptr_bytes_ok as [-> | ->]; lia.
  - intros. by apply wp_ret, HQ.
Qed.

Lemma dynstr_rep_new : dynstr_rep (Dynstr 0 0 None) [].
Proof. done. Qed.

Lemma dynstr_rep_len str t : dynstr_rep str t -> dynstr_len str = Zlen t.
Proof. unfold dynstr_rep, dynstr_len. destruct (str_data str); [by intros [_ [? _]]|]. by intros (_ & ? & _ & ->). Qed.

Lemma dynstr_rep_cstr str t : dynstr_rep str t ->
  dynstr_cstr str = Some (c_text t) \/ (dynstr_cstr str = None /\ t = []).
Proof.
  unfold dynstr_rep, dynstr_cstr. destruct (str_data str); [|by intros (_ & _ & _ & ->); right].
  intros (_ & _ & _ & rest & ->). left. cbn. by rewrite c_text_app_nul_any.
Qed.

Lemma dynstr_rep_cstr_nonnil str t : dynstr_rep str t -> t <> [] -> dynstr_cstr str = Some (c_text t).
Proof. intros Hrep Hne. by destruct (dynstr_rep_cstr str t Hrep) as [|[_ ->]]. Qed.

Lemma dynstr_reset_spec str t (Q : dynstr -> world E -> Prop) w :
  dynstr_rep str t ->
  (forall str', dynstr_rep str' [] -> str_datalen str' = str_datalen str ->
     (str_data str <> None -> str_data str' <> None) -> Q str' w) ->
  wp (dynstr_reset str) Q w.
Proof.
  unfold dynstr_rep, dynstr_reset. intros [Hcap Hrep] HQ. destruct (str_data str) as [b|] eqn:Hd.
  - destruct Hrep as (Hl & Hdl & rest & Hb). apply wp_bind. eapply wp_access.
    { rewrite buf_store_0; [done|]. subst b. zlen. }
    apply wp_ret, HQ; [|done|done]. cbn. split_and!; [done|done| |by eexists].
    rewrite Hdl, Hb. destruct t; cbn [app length drop]; zlen.
  - apply wp_ret, HQ; [|done|done]. rewrite Hd. naive_solver.
Qed.

(** Growing keeps the text and makes room for [n] characters and the NUL. *)
Lemma dynstr_grow_spec str t n (Q : dynstr -> world E -> Prop) w :
  dynstr_rep str t -> good w -> 0 <= n -> str_datalen str + n <= HEAP_HI ->
  (forall str' b r w', frame w w' -> str_strlen str' = Zlen t -> str_data str' = Some b ->
     b = t ++ r -> str_datalen str' = Zlen b -> Zlen b = str_datalen str + n -> Q str' w') ->
  wp (dynstr_grow str n) Q w.
Proof.
  intros Hrep Hg Hn Hmax HQ. unfold dynstr_grow.
  assert (Hdl : 0 <= str_datalen str).
  { destruct Hrep as [_ Hrep]. destruct (str_data str) as [b|]; [pose proof (Zlen_nonneg b)|]; lia. }
  unfold HEAP_HI in *. rewrite sz_small32 by (unfold UINT_MAX; lia).
  apply wp_bind, wp_malloc_good; [done|unfold HEAP_HI; lia|]. intros a w' Hw'. apply wp_bind.
  assert (Hold : exists r, default [] (str_data str) = t ++ r /\ Zlen (t ++ r) = str_datalen str /\
    str_strlen str = Zlen t).
  { destruct Hrep as [_ Hrep]. destruct (str_data str) as [b|]; cbn.
    - destruct Hrep as (? & ? & rest & ->). by exists (NUL :: rest).
    - destruct Hrep as (-> & -> & ->). by exists []. }
  destruct Hold as (r & Hold & Hlen & Hsl). rewrite Hold.
  pose proof (Zlen_fresh (str_datalen str + n) ltac:(lia)) as Hfresh.
  eapply wp_access; [apply buf_store_0; lia|]. apply wp_ret.
  eapply (HQ _ _ (r ++ drop (length (t ++ r)) (fresh_block (str_datalen str + n)))); cbn;
    [done|done|done|by rewrite app_assoc| |].
  - zlen.
  - zlen.
Qed.

(** Appending text that is a C string. *)
Lemma dynstr_append_spec str t s (Q : dynstr -> world E -> Prop) w :
  dynstr_rep str t -> is_cstr s -> dyn_fits str s -> good w -> Zlen t + Zlen s <= DYN_MAX ->
  (forall str' w', frame w w' -> dynstr_rep str' (t ++ s) -> str_data str' <> None -> Q str' w') ->
  wp (dynstr_append str s) Q w.
Proof.
  intros Hrep Hs Hfit Hg Hmax HQ. pose proof Hmax as Hmax'. unfold DYN_MAX in Hmax'.
  pose proof (Zlen_nonneg t). pose proof (Zlen_nonneg s).
  pose proof (dynstr_rep_len _ _ Hrep) as Hlen. unfold dynstr_len in Hlen.
  destruct (chunk_of_spec (Zlen s)) as (Hch & Hch1 & Hch2); [lia|].
  unfold dynstr_append. rewrite c_text_id by done.
  rewrite i32_small by (unfold INT_MIN, INT_MAX; lia).
  apply wp_bind. eapply wp_access; [exact Hch|]. rewrite Hlen, sz_small32 by (unfold UINT_MAX; lia).
  assert (Hwrite : forall str1 r w1, frame w w1 -> str_strlen str1 = Zlen t ->
    str_data str1 = Some (t ++ r) -> str_datalen str1 = Zlen (t ++ r) -> Zlen s + 1 <= Zlen r ->
    Zlen (t ++ r) <= 4 * DYN_MAX ->
    wp (b ← c_access (str_data str1);
        b ← c_access (buf_store b (str_strlen str1) (s ++ [NUL]));
        mret (Dynstr (sz (str_strlen str1 + Zlen s)) (str_datalen str1) (Some b))) Q w1).
  { intros str1 r w1 Hw1 Hl1 Hd1 Hdl1 Hr Hcap. rewrite Hd1, Hl1, Hdl1.
    apply wp_bind. eapply wp_access; [done|]. apply wp_bind. eapply wp_access.
    { apply buf_store_after. zlen. }
    apply wp_ret, HQ; [done| |done]. rewrite sz_small32 by (unfold UINT_MAX; lia).
    split; [done|]. cbn. split_and!; [zlen|zlen; rewrite length_app; cbn; zlen|].
    exists (drop (length (s ++ [NUL])) r). by rewrite <-!app_assoc. }
  apply wp_bind. destruct (Z.leb_spec (str_datalen str) (Zlen s + Zlen t)) as [Hgrow|Hroom].
  - eapply dynstr_grow_spec; [exact Hrep|done|lia| |].
    + unfold HEAP_HI. destruct Hrep as [Hc _]. unfold DYN_MAX in Hc. lia.
    + intros str1 b r w1 Hw1 Hl1 Hd1 -> Hdl1 Hlb. apply (Hwrite _ r); [done..| |].
      * destruct Hrep as [_ Hrep]. unfold dyn_fits in Hfit. destruct (str_data str) as [b|].
        -- destruct Hrep as (_ & Hdl & rest & ->). zlen.
        -- destruct Hrep as (_ & Hdl & ->), Hfit as [?|?]; [done|]. zlen.
      * unfold DYN_MAX. lia.
  - apply wp_ret. destruct Hrep as [Hcap Hrep]. destruct (str_data str) as [b|] eqn:Hd.
    + destruct Hrep as (Hl & Hdl & rest & ->).
      rewrite <-Hd. apply (Hwrite _ (NUL :: rest)); [done|done|done|done| |lia]. zlen.
    + destruct Hrep as (_ & Hdl & ->). zlen.
Qed.

Lemma dynstr_appendc_spec str t c (Q : dynstr -> world E -> Prop) w :
  dynstr_rep str t -> good w -> Zlen t + 1 <= DYN_MAX ->
  (forall str' w', frame w w' -> dynstr_rep str' (t ++ [c]) -> str_data str' <> None -> Q str' w') ->
  wp (dynstr_appendc str c) Q w.
Proof.
  intros Hrep Hg Hmax HQ. pose proof Hmax as Hmax'. unfold DYN_MAX in Hmax'. pose proof (Zlen_nonneg t).
  pose proof (dynstr_rep_len _ _ Hrep) as Hlen. unfold dynstr_len in Hlen.
  unfold dynstr_appendc. rewrite Hlen, sz_small32 by (unfold UINT_MAX; lia).
  assert (Hwrite : forall str1 r w1, frame w w1 -> str_strlen str1 = Zlen t ->
    str_data str1 = Some (t ++ r) -> str_datalen str1 = Zlen (t ++ r) -> 2 <= Zlen r ->
    Zlen (t ++ r) <= 4 * DYN_MAX ->
    wp (b ← c_access (str_data str1);
        b ← c_access (buf_store b (str_strlen str1) [c]);
        b ← c_access (buf_store b (str_strlen str1 + 1) [NUL]);
        mret (Dynstr (sz (str_strlen str1 + 1)) (str_datalen str1) (Some b))) Q w1).
  { intros str1 r w1 Hw1 Hl1 Hd1 Hdl1 Hr Hcap. rewrite Hd1, Hl1, Hdl1.
    apply wp_bind. eapply wp_access; [done|]. apply wp_bind. eapply wp_access.
    { apply buf_store_after. by change (Zlen [c]) with 1; lia. }
    apply wp_bind. eapply wp_access.
    { cbn [length]. rewrite app_assoc. change 1 with (Zlen [c]). rewrite <-Zlen_app. apply buf_store_after.
      change (Zlen [NUL]) with 1. zlen. }
    apply wp_ret, HQ; [done| |done]. rewrite sz_small32 by (unfold UINT_MAX; lia).
    split; [done|]. cbn. split_and!; [zlen|zlen|]. eexists. done. }
  apply wp_bind. destruct (Z.leb_spec (str_datalen str) (Zlen t + 1)) as [Hgrow|Hroom].
  - eapply dynstr_grow_spec; [exact Hrep|done|done| |].
    + unfold HEAP_HI, STRING_CHUNK_SIZE. destruct Hrep as [Hc _]. unfold DYN_MAX in Hc. lia.
    + intros str1 b r w1 Hw1 Hl1 Hd1 -> Hdl1 Hlb. unfold STRING_CHUNK_SIZE in *.
      apply (Hwrite _ r); [done..| |unfold DYN_MAX; lia].
      destruct Hrep as [_ Hrep]. destruct (str_data str) as [b|].
      * destruct Hrep as (_ & Hdl & rest & ->). zlen.
      * destruct Hrep as (_ & Hdl & ->). zlen.
  - apply wp_ret. destruct Hrep as [Hcap Hrep]. destruct (str_data str) as [b|] eqn:Hd.
    + destruct Hrep as (Hl & Hdl & rest & ->).
      rewrite <-Hd. apply (Hwrite _ (NUL :: rest)); [done|done|done|done| |lia]. zlen.
    + destruct Hrep as (_ & Hdl & ->). zlen.
Qed.
End dynstr_facts.

(** ** Properties *)

(** [dynstr_append] has the fault of [custr_append]: appending a text of 64, 128, 256, ...
    characters to a fresh string allocates exactly its length and stores the NUL one byte past
    the block. *)
Theorem dynstr_append_overrun {E} `{DM : DataModel} (s : cstr) (w : world E) :
  is_cstr s -> chunk_of (Zlen s) = Zlen s -> Zlen s <= DYN_MAX -> good w ->
  dynstr_append (Dynstr 0 0 None) s w = Undefined.
Proof.
  intros Hs Hch Hmax Hg. pose proof (Zlen_nonneg s). destruct (chunk_of_spec (Zlen s)) as (Hdc & _); [lia|].
  unfold DYN_MAX in *. unfold dynstr_append. rewrite c_text_id by done.
  rewrite i32_small by (unfold INT_MIN, INT_MAX; lia). rewrite Hdc, Hch.
  erewrite bind_done by done. cbn [str_datalen str_strlen]. rewrite Z.add_0_r, sz_small32 by (unfold UINT_MAX; lia).
  assert (0 <=? Zlen s = true) as -> by lia.
  destruct Hg as [Hl Ht]. destruct (malloc_total (Zlen s) w) as (a & w' & Hm & _); [done|done|unfold HEAP_HI; lia|].
  assert (Hgrow : dynstr_grow (Dynstr 0 0 None) (Zlen s) w
                  = Done (Dynstr 0 (Zlen s) (Some (fresh_block (Zlen s))), w')).
  { unfold dynstr_grow. cbn [str_datalen str_strlen str_data default].
    rewrite Z.add_0_l, sz_small32 by (unfold UINT_MAX; lia). erewrite bind_done by exact Hm. cbn beta iota.
    by rewrite buf_store_0 by (rewrite Zlen_fresh; zlen). }
  erewrite bind_done by exact Hgrow. cbn [str_data str_strlen]. erewrite bind_done by done.
  apply bind_undefined. rewrite buf_store_overflow; [done|]. rewrite Zlen_fresh; zlen.
Qed.

Definition text_64 : cstr := replicate 64 "x"%char.

Lemma dynstr_append_overrun_witness :
  Zlen text_64 = 64 /\ dynstr_append (E := ()) (DM := ILP32) (Dynstr 0 0 None) text_64 (World 0 [] [] ()) = Undefined.
Proof.
  split; [done|]. apply (dynstr_append_overrun (DM := ILP32) text_64).
  - by_decide.
  - by vm_compute.
  - by vm_compute.
  - split; constructor.
Defined.
