(* ===== verification/Base64.v ===== *)
(** * Base64: the payload encoding of the metadata protocol, [mdata-client/base64.c]

    Bytes are characters read as [unsigned char]; [unsigned int i] wraps at 32 bits.  A shift of
    a negative [int] (an invalid character decodes to -2) is the arithmetic shift the compilers
    define. *)
From Stdlib Require Import Lia.
From S2P Require Import Prelude Custr Dynstr.

Definition base64 : cstr :=
  cs "ABCDEFGHIJKLMNOPQRSTUVWXYZ" ++ cs "abcdefghijklmnopqrstuvwxyz0123456789+/".

Section base64.
Context {E : Type} `{DM : DataModel}.

(** [input[i]] as a [uint8_t], and [base64[k]]. *)
Definition byte_at (input : list char) (i : Z) : C E Z := c_access (code <$> input !! Z.to_nat i).
Definition base64_at (k : Z) : C E char := c_access (base64 !! Z.to_nat k).

(** One turn of the loop of [base64_encode]: the four characters and the next index. *)
Definition encode_group (input : list char) (len i : Z) : C E (cstr * Z) :=
  b0 ← byte_at input i;
  let c := Z.shiftl b0 16 in
  let i := u32 (i + 1) in
  c ← (if i <? len then b1 ← byte_at input i; mret (Z.lor c (Z.shiftl b1 8)) else mret c);
  let i := u32 (i + 1) in
  c ← (if i <? len then b2 ← byte_at input i; mret (Z.lor c b2) else mret c);
  let i := u32 (i + 1) in
  tmp0 ← base64_at (Z.shiftr (Z.land c 16515072) 18);
  tmp1 ← base64_at (Z.shiftr (Z.land c 258048) 12);
  tmp2 ← (if sz (len + 1) <? i then mret "="%char else base64_at (Z.shiftr (Z.land c 4032) 6));
  tmp3 ← (if len <? i then mret "="%char else base64_at (Z.land c 63));
  mret ([tmp0; tmp1; tmp2; tmp3], i).

Fixpoint encode_loop (fuel : nat) (input : list char) (len i : Z) (output : dynstr) : C E dynstr :=
  match fuel with
  | O => c_undefined
  | S fuel =>
      if i <? len then
        '(tmp, i) ← encode_group input len i;
        output ← dynstr_append output tmp;
        encode_loop fuel input len i output
      else mret output
  end.

Definition base64_encode (input : list char) (len : Z) (output : dynstr) : C E dynstr :=
  output ← dynstr_append output [];
  encode_loop (S (Z.to_nat len)) input len 0 output.

Definition decode_one (c : char) : Z :=
  let n := scode c in
  if (65 <=? n) && (n <=? 90) then n - 65
  else if (97 <=? n) && (n <=? 122) then n - 97 + 26
  else if (48 <=? n) && (n <=? 57) then n - 48 + 52
  else if n =? 43 then 62
  else if n =? 47 then 63
  else if n =? 61 then -1
  else -2.

(** [buf] for one group, or the refusal of misplaced filler. *)
Definition decode_buf (typ0 typ1 typ2 typ3 : Z) : option (list char) :=
  if (typ0 =? -1) || (typ1 =? -1) then None
  else if (typ2 =? -1) && negb (typ3 =? -1) then None
  else Some
    [ chr (Z.lor (Z.shiftl typ0 2) (Z.shiftr typ1 4));
      (if negb (typ2 =? -1) then chr (Z.lor (Z.shiftl (Z.land typ1 15) 4) (Z.shiftr typ2 2)) else NUL);
      (if negb (typ3 =? -1) then chr (Z.lor (Z.shiftl (Z.land typ2 3) 6) typ3) else NUL);
      NUL ].

Fixpoint decode_loop (fuel : nat) (input : list char) (len i : Z) (output : dynstr) : C E (Z * dynstr) :=
  match fuel with
  | O => c_undefined
  | S fuel =>
      if i <? len then
        c0 ← c_access (input !! Z.to_nat i);
        c1 ← c_access (input !! Z.to_nat (i + 1));
        c2 ← c_access (input !! Z.to_nat (i + 2));
        c3 ← c_access (input !! Z.to_nat (i + 3));
        match decode_buf (decode_one c0) (decode_one c1) (decode_one c2) (decode_one c3) with
        | None => mret (-1, output)
        | Some buf =>
            output ← dynstr_append output buf;
            decode_loop fuel input len (u32 (i + 4)) output
        end
      else mret (0, output)
  end.

Definition base64_decode (input : list char) (len : Z) (output : dynstr) : C E (Z * dynstr) :=
  output ← dynstr_append output [];
  if negb (len mod 4 =? 0) then mret (-1, output)
  else decode_loop (S (Z.to_nat len)) input len 0 output.
End base64.

(** ** Reference encoding and decoding *)

Definition b64_chr (k : Z) : char := nth (Z.to_nat k) base64 NUL.

(** Three bytes make four characters; the last group may be shorter. *)
Definition b64_group (bytes : list char) : cstr :=
  match bytes with
  | [a] => [b64_chr (code a / 4); b64_chr (code a mod 4 * 16); "="%char; "="%char]
  | [a; b] => [b64_chr (code a / 4); b64_chr (code a mod 4 * 16 + code b / 16);
               b64_chr (code b mod 16 * 4); "="%char]
  | a :: b :: c :: _ => [b64_chr (code a / 4); b64_chr (code a mod 4 * 16 + code b / 16);
                         b64_chr (code b mod 16 * 4 + code c / 64); b64_chr (code c mod 64)]
  | [] => []
  end.

Fixpoint b64 (bytes : list char) : cstr :=
  match bytes with
  | a :: b :: c :: rest => b64_group [a; b; c] ++ b64 rest
  | _ => b64_group bytes
  end.

(** Decoding group by group; a group's bytes end at its first NUL. *)
Fixpoint b64_decode (s : cstr) : option cstr :=
  match s with
  | [] => Some []
  | a :: b :: c :: d :: rest =>
      buf ← decode_buf (decode_one a) (decode_one b) (decode_one c) (decode_one d);
      t ← b64_decode rest;
      Some (c_text buf ++ t)
  | _ => None
  end.

(** ** Facts *)

Lemma lor_shift x y k : 0 <= k -> 0 <= y < 2 ^ k -> Z.lor (Z.shiftl x k) y = x * 2 ^ k + y.
Proof.
  intros Hk Hy. rewrite <-Z.add_nocarry_lor; [by rewrite Z.shiftl_mul_pow2|].
  apply Z.bits_inj'. intros n Hn. rewrite Z.land_spec, Z.shiftl_spec, Z.testbit_0_l by lia.
  destruct (Z.lt_ge_cases n k) as [Hlt|Hge]; [by rewrite Z.testbit_neg_r by lia|].
  apply andb_false_intro2. destruct (Z.eq_dec y 0) as [->|]; [apply Z.testbit_0_l|].
  apply Z.bits_above_log2; [lia|]. apply Z.log2_lt_pow2; [lia|].
  eapply Z.lt_le_trans; [apply Hy|]. apply Z.pow_le_mono_r; lia.
Qed.

(** Extracting the field of [m] bits at bit [k]. *)
Lemma land_field x k m :
  0 <= k -> 0 <= m -> 0 <= x -> Z.shiftr (Z.land x (Z.shiftl (Z.ones m) k)) k = (x / 2 ^ k) mod 2 ^ m.
Proof.
  intros Hk Hm Hx. rewrite Z.shiftr_land, Z.shiftr_shiftl_l, Z.sub_diag, Z.shiftl_0_r by lia.
  by rewrite Z.land_ones, Z.shiftr_div_pow2 by lia.
Qed.

Lemma b64_chr_spec k : 0 <= k < 64 ->
  base64 !! Z.to_nat k = Some (b64_chr k) /\ decode_one (b64_chr k) = k /\
  b64_chr k <> NUL /\ b64_chr k <> " "%char /\ b64_chr k <> LF.
Proof.
  intros Hk.
  assert (Hall : forallb (fun n => let k := Z.of_nat n in
    bool_decide (base64 !! n = Some (b64_chr k)) && (decode_one (b64_chr k) =? k) &&
    bool_decide (b64_chr k <> NUL) && bool_decide (b64_chr k <> " "%char) && bool_decide (b64_chr k <> LF))
    (seq 0 64) = true) by (vm_compute; reflexivity).
  rewrite forallb_forall in Hall. specialize (Hall (Z.to_nat k)). rewrite in_seq in Hall.
  specialize (Hall ltac:(lia)). cbn zeta in Hall. rewrite Z2Nat.id in Hall by lia.
  repeat (apply andb_prop in Hall as [Hall ?]).
  repeat match goal with H : bool_decide _ = true |- _ => apply bool_decide_eq_true_1 in H end.
  split_and!; [done|lia|done..].
Qed.

Lemma div_mod_bounds x d m : 0 < d -> 0 <= x < d * m -> 0 <= x / d < m.
Proof. intros Hd Hx. split; [apply Z.div_pos; lia|apply Z.div_lt_upper_bound; lia]. Qed.

(** The bytes a decoded group gives back. *)
Lemma decode_bytes n0 n1 : 0 <= n0 < 64 -> 0 <= n1 < 64 ->
  Z.lor (Z.shiftl n0 2) (Z.shiftr n1 4) = n0 * 4 + n1 / 16 /\
  Z.lor (Z.shiftl (Z.land n0 15) 4) (Z.shiftr n1 2) = n0 mod 16 * 16 + n1 / 4 /\
  Z.lor (Z.shiftl (Z.land n0 3) 6) n1 = n0 mod 4 * 64 + n1.
Proof.
  intros H0 H1. rewrite !Z.shiftr_div_pow2 by lia. change 15 with (Z.ones 4). change 3 with (Z.ones 2).
  rewrite !Z.land_ones by lia. rewrite !lor_shift; [done|lia|lia|lia| |lia|].
  - pose proof (div_mod_bounds n1 4 16). change (2 ^ 2) with 4. lia.
  - pose proof (div_mod_bounds n1 16 4). change (2 ^ 4) with 16. lia.
Qed.

(** The four indices of a group and the bytes they stand for. *)
Lemma group_indices a b c :
  0 <= a < 256 -> 0 <= b < 256 -> 0 <= c < 256 ->
  (0 <= a / 4 < 64 /\ 0 <= a mod 4 * 16 + b / 16 < 64 /\ 0 <= b mod 16 * 4 + c / 64 < 64 /\ 0 <= c mod 64 < 64) /\
  a / 4 * 4 + (a mod 4 * 16 + b / 16) / 16 = a /\
  (a mod 4 * 16 + b / 16) mod 16 * 16 + (b mod 16 * 4 + c / 64) / 4 = b /\
  (b mod 16 * 4 + c / 64) mod 4 * 64 + c mod 64 = c.
Proof. intros. split_and!; dlia. Qed.

Lemma decode_buf_indices n0 n1 n2 n3 :
  0 <= n0 < 64 -> 0 <= n1 < 64 -> 0 <= n2 < 64 -> 0 <= n3 < 64 ->
  decode_buf n0 n1 n2 n3
  = Some [chr (n0 * 4 + n1 / 16); chr (n1 mod 16 * 16 + n2 / 4); chr (n2 mod 4 * 64 + n3); NUL] /\
  decode_buf n0 n1 n2 (-1) = Some [chr (n0 * 4 + n1 / 16); chr (n1 mod 16 * 16 + n2 / 4); NUL; NUL] /\
  decode_buf n0 n1 (-1) (-1) = Some [chr (n0 * 4 + n1 / 16); NUL; NUL; NUL].
Proof.
  intros H0 H1 H2 H3. unfold decode_buf.
  assert (forall n, 0 <= n < 64 -> (n =? -1) = false) as Hne by (intros; apply Z.eqb_neq; lia).
  rewrite !Hne by done. cbn [orb andb negb Z.eqb].
  destruct (decode_bytes n0 n1 H0 H1) as (-> & _ & _).
  destruct (decode_bytes n1 n2 H1 H2) as (_ & -> & _).
  destruct (decode_bytes n2 n3 H2 H3) as (_ & _ & ->). done.
Qed.

(** A group of bytes survives encoding and decoding. *)
Lemma decode_group bytes : (0 < length bytes <= 3)%nat ->
  exists x y z t, b64_group bytes = [x; y; z; t] /\
  decode_buf (decode_one x) (decode_one y) (decode_one z) (decode_one t)
  = Some (bytes ++ replicate (4 - length bytes) NUL).
Proof.
  intros Hlen. destruct bytes as [|a [|b [|c [|? ?]]]]; cbn in Hlen; try lia.
  - pose proof (code_range a). destruct (group_indices (code a) 0 0) as ((I0 & I1 & I2 & I3) & Ha & _ & _); [lia..|].
    change (0 / 16) with 0 in *. rewrite Z.add_0_r in *.
    do 4 eexists. split; [reflexivity|]. destruct (b64_chr_spec _ I0) as (_ & -> & _).
    destruct (b64_chr_spec _ I1) as (_ & -> & _).
    destruct (decode_buf_indices _ _ _ _ I0 I1 I2 I3) as (_ & _ & Hd).
    change (decode_one "="%char) with (-1). by rewrite Hd, Ha, chr_code.
  - pose proof (code_range a). pose proof (code_range b).
    destruct (group_indices (code a) (code b) 0) as ((I0 & I1 & I2 & I3) & Ha & Hb & _); [lia..|].
    change (0 / 64) with 0 in *. rewrite (Z.add_0_r (code b mod 16 * 4)) in *.
    do 4 eexists. split; [reflexivity|]. destruct (b64_chr_spec _ I0) as (_ & -> & _).
    destruct (b64_chr_spec _ I1) as (_ & -> & _). destruct (b64_chr_spec _ I2) as (_ & -> & _).
    destruct (decode_buf_indices _ _ _ _ I0 I1 I2 I3) as (_ & Hd & _).
    change (decode_one "="%char) with (-1). by rewrite Hd, Ha, Hb, !chr_code.
  - pose proof (code_range a). pose proof (code_range b). pose proof (code_range c).
    destruct (group_indices (code a) (code b) (code c)) as ((I0 & I1 & I2 & I3) & Ha & Hb & Hc); [lia..|].
    do 4 eexists. split; [reflexivity|]. destruct (b64_chr_spec _ I0) as (_ & -> & _).
    destruct (b64_chr_spec _ I1) as (_ & -> & _). destruct (b64_chr_spec _ I2) as (_ & -> & _).
    destruct (b64_chr_spec _ I3) as (_ & -> & _).
    destruct (decode_buf_indices _ _ _ _ I0 I1 I2 I3) as (Hd & _ & _).
    by rewrite Hd, Ha, Hb, Hc, !chr_code.
Qed.

(** Induction on a list by groups of three. *)
Lemma groups_ind (P : list char -> Prop) :
  P [] -> (forall a, P [a]) -> (forall a b, P [a; b]) ->
  (forall a b c l, P l -> P (a :: b :: c :: l)) -> forall l, P l.
Proof.
  intros H0 H1 H2 H3.
  refine (fix go l := match l with [] => H0 | [a] => H1 a | [a; b] => H2 a b | a :: b :: c :: l => H3 a b c l (go l) end).
Qed.

Lemma c_text_padded s n : is_cstr s -> c_text (s ++ replicate n NUL) = s.
Proof.
  intros Hs. destruct n as [|n]; cbn; [by rewrite app_nil_r, c_text_id|by apply c_text_app_nul].
Qed.

Lemma b64_decode_group bytes rest : (0 < length bytes <= 3)%nat -> is_cstr bytes ->
  b64_decode (b64_group bytes ++ rest) = t ← b64_decode rest; Some (bytes ++ t).
Proof.
  intros Hlen Hs. destruct (decode_group bytes Hlen) as (x & y & z & t & -> & Hd).
  cbn [app b64_decode]. rewrite Hd. cbn [mbind option_bind]. by rewrite c_text_padded.
Qed.

Lemma b64_roundtrip s : is_cstr s -> b64_decode (b64 s) = Some s.
Proof.
  induction s as [|a|a b|a b c s IH] using groups_ind; intros Hs; [done|..].
  - change (b64 [a]) with (b64_group [a]). rewrite <-(app_nil_r (b64_group [a])).
    by rewrite b64_decode_group by (done || cbn; lia).
  - change (b64 [a; b]) with (b64_group [a; b]). rewrite <-(app_nil_r (b64_group [a; b])).
    by rewrite b64_decode_group by (done || cbn; lia).
  - change (b64 (a :: b :: c :: s)) with (b64_group [a; b; c] ++ b64 s).
    change (a :: b :: c :: s) with ([a; b; c] ++ s) in *. apply is_cstr_app in Hs as [Hg Hs].
    rewrite b64_decode_group by (done || cbn; lia). by rewrite IH.
Qed.

(** The encoded text: its characters and its length. *)
Lemma b64_group_chars bytes : Forall (fun c => c <> NUL /\ c <> " "%char /\ c <> LF) (b64_group bytes).
Proof.
  assert (Heq : "="%char <> NUL /\ "="%char <> " "%char /\ "="%char <> LF) by done.
  assert (Hchr : forall k, 0 <= k < 64 -> b64_chr k <> NUL /\ b64_chr k <> " "%char /\ b64_chr k <> LF).
  { intros k Hk. destruct (b64_chr_spec k Hk) as (_ & _ & ? & ? & ?). done. }
  assert (Hz : forall k, 0 <= k < 64 -> forall l, Forall (fun c => c <> NUL /\ c <> " "%char /\ c <> LF) l ->
    Forall (fun c => c <> NUL /\ c <> " "%char /\ c <> LF) (b64_chr k :: l)) by (intros; constructor; auto).
  destruct bytes as [|a [|b [|c l]]]; cbn [b64_group]; [constructor|..].
  - pose proof (code_range a). do 2 (apply Hz; [dlia|]). by repeat constructor.
  - pose proof (code_range a). pose proof (code_range b). do 3 (apply Hz; [dlia|]). by repeat constructor.
  - pose proof (code_range a). pose proof (code_range b). pose proof (code_range c).
    do 4 (apply Hz; [dlia|]). constructor.
Qed.

Lemma b64_chars s : Forall (fun c => c <> NUL /\ c <> " "%char /\ c <> LF) (b64 s).
Proof.
  induction s as [|a|a b|a b c s IH] using groups_ind; [constructor|apply (b64_group_chars [a])|apply (b64_group_chars [a; b])|].
  change (b64 (a :: b :: c :: s)) with (b64_group [a; b; c] ++ b64 s).
  apply Forall_app. split; [apply b64_group_chars|done].
Qed.

Lemma Forall_not_elem (P : char -> Prop) l c : Forall P l -> ~ P c -> c ∉ l.
Proof. intros Hl Hc Hin. apply list_elem_of_lookup in Hin as [i Hi]. apply Hc. exact (Forall_lookup_1 _ _ _ _ Hl Hi). Qed.

Lemma b64_cstr s : is_cstr (b64 s).
Proof. eapply Forall_not_elem; [apply b64_chars|]. naive_solver. Qed.
Lemma b64_no_space s : " "%char ∉ b64 s.
Proof. eapply Forall_not_elem; [apply b64_chars|]. naive_solver. Qed.
Lemma b64_no_lf s : LF ∉ b64 s.
Proof. eapply Forall_not_elem; [apply b64_chars|]. naive_solver. Qed.

Lemma b64_length s : Zlen (b64 s) = (Zlen s + 2) / 3 * 4.
Proof.
  induction s as [|a|a b|a b c s IH] using groups_ind; [done..|].
  change (b64 (a :: b :: c :: s)) with (b64_group [a; b; c] ++ b64 s).
  rewrite Zlen_app, IH, !Zlen_cons. change (Zlen (b64_group [a; b; c])) with 4.
  replace (1 + (1 + (1 + Zlen s)) + 2) with (Zlen s + 2 + 1 * 3) by lia. rewrite Z.div_add by lia. lia.
Qed.

Section base64_facts.
Context {E : Type} `{DM : DataModel}.
Implicit Types (w : world E) (out : dynstr).

Lemma base64_at_spec k (Q : char -> world E -> Prop) w :
  0 <= k < 64 -> Q (b64_chr k) w -> wp (base64_at k) Q w.
Proof. intros Hk HQ. destruct (b64_chr_spec k Hk) as (Hc & _). by eapply wp_access. Qed.

Lemma byte_at_spec pre c rest i (Q : Z -> world E -> Prop) w :
  i = Zlen pre -> Q (code c) w -> wp (byte_at (pre ++ c :: rest) i) Q w.
Proof.
  intros -> HQ. unfold byte_at. rewrite Zlen_to_nat, list_lookup_middle by done. by eapply wp_access.
Qed.

(** The word of a group and the fields the masks select. *)
Lemma word_fields a b c : 0 <= a < 256 -> 0 <= b < 256 -> 0 <= c < 256 ->
  let x := Z.lor (Z.lor (Z.shiftl a 16) (Z.shiftl b 8)) c in
  Z.shiftr (Z.land x 16515072) 18 = a / 4 /\ Z.shiftr (Z.land x 258048) 12 = a mod 4 * 16 + b / 16 /\
  Z.shiftr (Z.land x 4032) 6 = b mod 16 * 4 + c / 64 /\ Z.land x 63 = c mod 64.
Proof.
  intros Ha Hb Hc x. assert (Hx : x = a * 65536 + b * 256 + c).
  { unfold x. rewrite (lor_shift a); [|lia|rewrite Z.shiftl_mul_pow2; lia].
    rewrite Z.shiftl_mul_pow2 by lia. change (2 ^ 16) with 65536. change (2 ^ 8) with 256.
    replace (a * 65536 + b * 256) with (Z.shiftl (a * 256 + b) 8) by (rewrite Z.shiftl_mul_pow2; lia).
    by rewrite lor_shift, Z.shiftl_mul_pow2 by lia. }
  change 16515072 with (Z.shiftl (Z.ones 6) 18). change 258048 with (Z.shiftl (Z.ones 6) 12).
  change 4032 with (Z.shiftl (Z.ones 6) 6). change 63 with (Z.ones 6).
  rewrite !land_field, Z.land_ones by lia. rewrite Hx. clear x Hx.
  change (2 ^ 18) with 262144. change (2 ^ 12) with 4096. change (2 ^ 6) with 64. split_and!; dlia.
Qed.

(** What appending a group leaves to prove. *)
Definition enc_post (w : world E) (t : cstr) (out' : dynstr) (w' : world E) : Prop :=
  frame w w' /\ dynstr_rep out' t /\ str_data out' <> None.

Lemma append_group out t g rest w (k : dynstr -> C E dynstr) :
  dynstr_rep out t -> str_data out <> None -> good w -> is_cstr g ->
  Zlen t + Zlen (g ++ rest) <= DYN_MAX ->
  (forall out1 w1, dynstr_rep out1 (t ++ g) -> str_data out1 <> None -> good w1 ->
     wp (k out1) (enc_post w1 ((t ++ g) ++ rest)) w1) ->
  wp (dynstr_append out g ≫= k) (enc_post w (t ++ g ++ rest)) w.
Proof.
  intros Hrep Hd Hg Hc Hmax Hk. apply wp_bind. eapply dynstr_append_spec; [done|done|by left|done|zlen|].
  intros out1 w1 Hw1 Hrep1 Hd1. eapply wp_mono; [apply Hk; by eauto using good_frame|].
  intros out2 w2 (Hw2 & Hrep2 & Hd2). rewrite app_assoc. split_and!; [by etrans|done|done].
Qed.

Lemma group_cstr bytes : is_cstr (b64_group bytes).
Proof. eapply Forall_not_elem; [apply b64_group_chars|]. naive_solver. Qed.

(** One group: three bytes, or what is left of the input. *)
Lemma encode_group_spec pre bytes rest (Q : cstr * Z -> world E -> Prop) w :
  (0 < length bytes <= 3)%nat -> length bytes = 3%nat \/ rest = [] ->
  Zlen (pre ++ bytes ++ rest) <= DYN_MAX ->
  Q (b64_group bytes, Zlen pre + 3) w ->
  wp (encode_group (pre ++ bytes ++ rest) (Zlen (pre ++ bytes ++ rest)) (Zlen pre)) Q w.
Proof.
  intros Hlen Hrest Hmax HQ. unfold DYN_MAX, encode_group in *.
  set (L := Zlen (pre ++ bytes ++ rest)) in *. pose proof (Zlen_nonneg pre). pose proof (Zlen_nonneg rest). pose proof (Zlen_nonneg bytes).
  assert (HL : L = Zlen pre + Zlen bytes + Zlen rest) by (unfold L; rewrite !Zlen_app; lia).
  rewrite (u32_small (Zlen pre + 1)) by (unfold UINT_MAX; lia).
  rewrite (u32_small (Zlen pre + 1 + 1)) by (unfold UINT_MAX; lia).
  rewrite (u32_small (Zlen pre + 1 + 1 + 1)) by (unfold UINT_MAX; lia).
  rewrite (sz_small32 (L + 1)) by (unfold UINT_MAX; lia).
  replace (Zlen pre + 1 + 1 + 1) with (Zlen pre + 3) by lia. clearbody L.
  destruct bytes as [|a [|b [|c [|? ?]]]]; cbn in Hlen; try lia; rewrite ?Zlen_cons, ?Zlen_nil in HL.
  - destruct Hrest as [?| ->]; [done|]. rewrite (@Zlen_nil char) in HL. pose proof (code_range a) as Ha.
    destruct (word_fields (code a) 0 0 Ha) as (Hf0 & Hf1 & _); [lia..|].
    change (Z.shiftl 0 8) with 0 in *. rewrite !Z.lor_0_r in *. change (0 / 16) with 0 in *. rewrite Z.add_0_r in Hf1.
    apply wp_bind, byte_at_spec; [done|]. repeat zcase. do 2 apply wp_bind, wp_ret.
    rewrite Hf0, Hf1. apply wp_bind, base64_at_spec; [dlia|]. apply wp_bind, base64_at_spec; [dlia|]. exact HQ.
  - destruct Hrest as [?| ->]; [done|]. rewrite (@Zlen_nil char) in HL.
    pose proof (code_range a) as Ha. pose proof (code_range b) as Hb.
    destruct (word_fields (code a) (code b) 0 Ha Hb) as (Hf0 & Hf1 & Hf2 & _); [lia|].
    rewrite !Z.lor_0_r in *. change (0 / 64) with 0 in *. rewrite Z.add_0_r in Hf2.
    apply wp_bind, byte_at_spec; [done|]. repeat zcase.
    apply wp_bind, wp_bind. change ([a; b] ++ []) with ([a] ++ b :: []). rewrite app_assoc. apply byte_at_spec; [zlen|].
    apply wp_ret, wp_bind, wp_ret. rewrite Hf0, Hf1, Hf2.
    do 3 (apply wp_bind, base64_at_spec; [dlia|]). exact HQ.
  - pose proof (code_range a) as Ha. pose proof (code_range b) as Hb. pose proof (code_range c) as Hc.
    destruct (word_fields (code a) (code b) (code c) Ha Hb Hc) as (Hf0 & Hf1 & Hf2 & Hf3).
    apply wp_bind, byte_at_spec; [done|]. repeat zcase.
    apply wp_bind, wp_bind. change ([a; b; c] ++ rest) with ([a] ++ b :: c :: rest). rewrite app_assoc.
    apply byte_at_spec; [zlen|]. apply wp_ret.
    apply wp_bind, wp_bind. change (b :: c :: rest) with ([b] ++ c :: rest). rewrite app_assoc.
    apply byte_at_spec; [zlen|]. apply wp_ret. rewrite Hf0, Hf1, Hf2, Hf3.
    do 4 (apply wp_bind, base64_at_spec; [dlia|]). exact HQ.
Qed.

Lemma encode_loop_spec rest fuel pre out t w :
  dynstr_rep out t -> str_data out <> None -> good w -> (length rest < fuel)%nat ->
  Zlen t + Zlen (b64 rest) <= DYN_MAX -> Zlen (pre ++ rest) <= DYN_MAX ->
  wp (encode_loop fuel (pre ++ rest) (Zlen (pre ++ rest)) (Zlen pre) out) (enc_post w (t ++ b64 rest)) w.
Proof.
  revert fuel pre out t w.
  assert (Hstep : forall bytes rest fuel pre out t w,
    (0 < length bytes <= 3)%nat -> length bytes = 3%nat \/ rest = [] ->
    dynstr_rep out t -> str_data out <> None -> good w ->
    Zlen t + Zlen (b64_group bytes ++ b64 rest) <= DYN_MAX -> Zlen (pre ++ bytes ++ rest) <= DYN_MAX ->
    (forall out1 w1, dynstr_rep out1 (t ++ b64_group bytes) -> str_data out1 <> None -> good w1 ->
       wp (encode_loop fuel (pre ++ bytes ++ rest) (Zlen (pre ++ bytes ++ rest)) (Zlen pre + 3) out1)
          (enc_post w1 ((t ++ b64_group bytes) ++ b64 rest)) w1) ->
    wp (encode_loop (S fuel) (pre ++ bytes ++ rest) (Zlen (pre ++ bytes ++ rest)) (Zlen pre) out)
       (enc_post w (t ++ b64_group bytes ++ b64 rest)) w).
  { intros bytes rest0 fuel pre out t w Hlen Hrest Hrep Hd Hg Hmax Hpre Hk. cbn [encode_loop].
    assert (Zlen pre <? Zlen (pre ++ bytes ++ rest0) = true) as ->.
    { apply Z.ltb_lt. rewrite !Zlen_app. pose proof (Zlen_nonneg rest0). unfold Zlen. lia. }
    apply wp_bind, encode_group_spec; [done|done|done|]. cbn beta iota.
    apply append_group; [done|done|done|apply group_cstr|done|done]. }
  assert (Hlast : forall bytes fuel pre out t w, (0 < length bytes <= 3)%nat ->
    dynstr_rep out t -> str_data out <> None -> good w -> (0 < fuel)%nat ->
    Zlen t + Zlen (b64_group bytes) <= DYN_MAX -> Zlen (pre ++ bytes) <= DYN_MAX ->
    wp (encode_loop (S fuel) (pre ++ bytes) (Zlen (pre ++ bytes)) (Zlen pre) out)
       (enc_post w (t ++ b64_group bytes)) w).
  { intros bytes fuel pre out t w Hlen Hrep Hd Hg Hf Hmax Hpre.
    rewrite <-(app_nil_r (b64_group bytes)), <-(app_nil_r bytes) at 1. rewrite <-(app_nil_r bytes) at 2.
    apply (Hstep bytes []); [done|by right|done..|by rewrite app_nil_r|by rewrite app_nil_r|].
    intros out1 w1 Hrep1 Hd1 Hg1. rewrite !app_nil_r. destruct fuel as [|fuel]; [lia|]. cbn [encode_loop].
    assert (Zlen pre + 3 <? Zlen (pre ++ bytes) = false) as -> by (apply Z.ltb_ge; rewrite Zlen_app; unfold Zlen; lia).
    by apply wp_ret. }
  induction rest as [|a|a b|a b c rest IH] using groups_ind; intros fuel pre out t w Hrep Hd Hg Hf Hmax Hlen;
    (destruct fuel as [|fuel]; [lia|]).
  - cbn [encode_loop]. rewrite app_nil_r. assert (Zlen pre <? Zlen pre = false) as -> by (apply Z.ltb_ge; lia).
    change (b64 []) with (@nil char). rewrite app_nil_r. by apply wp_ret.
  - apply (Hlast [a]); cbn in *; done || lia.
  - apply (Hlast [a; b]); cbn in *; done || lia.
  - change (a :: b :: c :: rest) with ([a; b; c] ++ rest) in *.
    change (b64 ([a; b; c] ++ rest)) with (b64_group [a; b; c] ++ b64 rest) in *.
    apply Hstep; [cbn; lia|by left|done|done|done|done|done|]. intros out1 w1 Hrep1 Hd1 Hg1.
    rewrite (app_assoc pre). replace (Zlen pre + 3) with (Zlen (pre ++ [a; b; c])) by (rewrite Zlen_app; done).
    apply IH; [done|done|done|cbn in Hf; lia| |by rewrite <-app_assoc].
    rewrite !Zlen_app in *. lia.
Qed.

(** The encoder reads the first [len] bytes of its input only. *)
Lemma byte_at_prefix s rest i : 0 <= i < Zlen s -> byte_at (E := E) (s ++ rest) i = byte_at s i.
Proof. intros Hi. unfold byte_at. by rewrite lookup_app_l by (unfold Zlen in *; lia). Qed.

Lemma encode_group_prefix s rest i w : 0 <= i < Zlen s ->
  encode_group (s ++ rest) (Zlen s) i w = encode_group s (Zlen s) i w.
Proof.
  intros Hi. unfold encode_group. rewrite (byte_at_prefix s rest i) by done.
  pose proof (u32_range (i + 1)). pose proof (u32_range (u32 (i + 1) + 1)).
  destruct (Z.ltb_spec (u32 (i + 1)) (Zlen s)); [rewrite (byte_at_prefix s rest (u32 (i + 1))) by lia|];
    (destruct (Z.ltb_spec (u32 (u32 (i + 1) + 1)) (Zlen s)); [rewrite (byte_at_prefix s rest (u32 (u32 (i + 1) + 1))) by lia|]; done).
Qed.

Lemma encode_group_next s len i w tmp i' w' : encode_group s len i w = Done (tmp, i', w') -> 0 <= i'.
Proof.
  unfold encode_group. pose proof (u32_range (u32 (u32 (i + 1) + 1) + 1)). set (n := u32 (u32 (u32 (i + 1) + 1) + 1)) in *.
  unfold mbind, C_bind, mret, C_ret. intros Hg. repeat case_match; simplify_eq; lia.
Qed.

Lemma base64_encode_prefix s rest out w :
  base64_encode (s ++ rest) (Zlen s) out w = base64_encode s (Zlen s) out w.
Proof.
  unfold base64_encode. set (fuel := S _).
  assert (Hloop : forall fuel i out w, 0 <= i ->
    encode_loop fuel (s ++ rest) (Zlen s) i out w = encode_loop fuel s (Zlen s) i out w).
  { clear. intros fuel. induction fuel as [|fuel IH]; intros i out w Hi; [done|]. cbn [encode_loop].
    destruct (Z.ltb_spec i (Zlen s)); [|done]. unfold mbind, C_bind. rewrite encode_group_prefix by done.
    destruct (encode_group s (Zlen s) i w) as [[[tmp i'] w']| | |] eqn:Hg; [|done..]. apply encode_group_next in Hg.
    destruct (dynstr_append out tmp w') as [[out' w'']| | |]; [by apply IH|done..]. }
  unfold mbind, C_bind. destruct (dynstr_append out [] w) as [[out' w']| | |]; [by apply Hloop|done..].
Qed.

Lemma base64_encode_spec s out t (Q : dynstr -> world E -> Prop) w :
  dynstr_rep out t -> good w -> Zlen t + Zlen (b64 s) <= DYN_MAX ->  Zlen s <= DYN_MAX ->
  (forall out' w', frame w w' -> dynstr_rep out' (t ++ b64 s) -> str_data out' <> None -> Q out' w') ->
  wp (base64_encode s (Zlen s) out) Q w.
Proof.
  intros Hrep Hg Hmax Hs HQ. unfold base64_encode. pose proof (Zlen_nonneg (b64 s)).
  apply wp_bind. eapply dynstr_append_spec; [exact Hrep|apply is_cstr_nil|by right|done|rewrite Zlen_nil; lia|].
  rewrite app_nil_r. intros out1 w1 Hw1 Hrep1 Hd1. eapply wp_mono.
  - apply (encode_loop_spec s (S (Z.to_nat (Zlen s))) []); [done|done|by eauto using good_frame| |done|done].
    rewrite Zlen_to_nat. lia.
  - intros out2 w2 (Hw2 & Hrep2 & Hd2). apply HQ; [by etrans|done|done].
Qed.

(** Decoding: the groups of a text whose length is a multiple of four. *)
Lemma decode_loop_spec s fuel pre out t w :
  dynstr_rep out t -> str_data out <> None -> good w -> (length s < fuel)%nat ->
  Zlen (pre ++ s) <= DYN_MAX -> Zlen t + Zlen s <= DYN_MAX -> Zlen s mod 4 = 0 ->
  wp (decode_loop fuel (pre ++ s) (Zlen (pre ++ s)) (Zlen pre) out) (fun '(r, out') w' =>
    frame w w' /\ match b64_decode s with
                  | Some t' => r = 0 /\ dynstr_rep out' (t ++ t') /\ str_data out' <> None
                  | None => r = -1 /\ exists t', dynstr_rep out' (t ++ t')
                  end) w.
Proof.
  revert s pre out t w. induction fuel as [|fuel IH]; intros s pre out t w Hrep Hd Hg Hf Hlen Hmax Hmod; [lia|].
  cbn [decode_loop]. pose proof (Zlen_nonneg pre). destruct s as [|c0 [|c1 [|c2 [|c3 s]]]]; try done.
  { assert (Zlen pre <? Zlen (pre ++ []) = false) as -> by (apply Z.ltb_ge; rewrite app_nil_r; lia).
    apply wp_ret. split; [done|]. cbn. by rewrite app_nil_r. }
  pose proof (Zlen_nonneg s). set (L := Zlen (pre ++ _)) in *.
  assert (HL : L = Zlen pre + 4 + Zlen s) by (unfold L; rewrite Zlen_app, !Zlen_cons; lia).
  unfold DYN_MAX in *. zcase. rewrite !Zlen_cons in Hmax, Hmod.
  assert (Hat : forall k c, [c0; c1; c2; c3] !! k = Some c ->
    (pre ++ c0 :: c1 :: c2 :: c3 :: s) !! Z.to_nat (Zlen pre + Z.of_nat k) = Some c).
  { intros k c Hk. replace (Z.to_nat (Zlen pre + Z.of_nat k)) with (length pre + k)%nat by (unfold Zlen; lia).
    rewrite lookup_app_r by lia. replace (length pre + k - length pre)%nat with k by lia.
    by apply (lookup_app_l_Some [c0; c1; c2; c3] s). }
  pose proof (Hat 0%nat c0 eq_refl) as Hat0. rewrite Z.add_0_r in Hat0.
  apply wp_bind. eapply wp_access; [exact Hat0|]. apply wp_bind. eapply wp_access; [exact (Hat 1%nat c1 eq_refl)|].
  apply wp_bind. eapply wp_access; [exact (Hat 2%nat c2 eq_refl)|].
  apply wp_bind. eapply wp_access; [exact (Hat 3%nat c3 eq_refl)|]. cbn [b64_decode].
  destruct (decode_buf _ _ _ _) as [buf|] eqn:Hbuf; cbn [mbind option_bind].
  2:{ apply wp_ret. split; [done|]. split; [done|]. exists []. by rewrite app_nil_r. }
  assert (Hlb : Zlen (c_text buf) <= 3).
  { unfold decode_buf in Hbuf. destruct (_ || _); [done|]. destruct (_ && _); [done|]. injection Hbuf as <-.
    change [?x; ?y; ?z; NUL] with ([x; y; z] ++ NUL :: []). rewrite c_text_app_nul_any.
    pose proof (c_text_length [chr (Z.lor (Z.shiftl (decode_one c0) 2) (Z.shiftr (decode_one c1) 4));
      if negb (decode_one c2 =? -1) then chr (Z.lor (Z.shiftl (Z.land (decode_one c1) 15) 4) (Z.shiftr (decode_one c2) 2)) else NUL;
      if negb (decode_one c3 =? -1) then chr (Z.lor (Z.shiftl (Z.land (decode_one c2) 3) 6) (decode_one c3)) else NUL]) as Hl.
    cbn [length] in Hl. unfold Zlen. lia. }
  assert (Happ : dynstr_append (E := E) out buf = dynstr_append out (c_text buf)).
  { unfold dynstr_append. by rewrite (c_text_id (c_text buf)) by apply c_text_is_cstr. }
  rewrite Happ. apply wp_bind. eapply dynstr_append_spec; [exact Hrep|apply c_text_is_cstr|by left|done|unfold DYN_MAX; lia|].
  intros out1 w1 Hw1 Hrep1 Hd1. rewrite u32_small by (unfold UINT_MAX; lia).
  assert (Hpre : pre ++ c0 :: c1 :: c2 :: c3 :: s = (pre ++ [c0; c1; c2; c3]) ++ s) by (by rewrite <-app_assoc).
  unfold L in *. clear L. rewrite Hpre in *. replace (Zlen pre + 4) with (Zlen (pre ++ [c0; c1; c2; c3])) by (rewrite Zlen_app; done).
  eapply wp_mono.
  - apply IH; [exact Hrep1|done|by eauto using good_frame|cbn in Hf; lia|done|rewrite Zlen_app; lia|].
    revert Hmod. replace (1 + (1 + (1 + (1 + Zlen s)))) with (Zlen s + 1 * 4) by lia. by rewrite Z_mod_plus_full.
  - intros [r out2] w2 [Hw2 Hr]. split; [by etrans|]. destruct (b64_decode s) as [t'|]; cbn.
    + by rewrite app_assoc.
    + destruct Hr as (-> & t' & Ht'). split; [done|]. exists (c_text buf ++ t'). by rewrite app_assoc.
Qed.

Lemma base64_decode_spec s out t w :
  dynstr_rep out t -> good w -> Zlen s <= DYN_MAX -> Zlen t + Zlen s <= DYN_MAX ->
  wp (base64_decode s (Zlen s) out) (fun '(r, out') w' =>
    frame w w' /\ (exists t', dynstr_rep out' (t ++ t')) /\
    match b64_decode s with
    | Some t' => r = 0 /\ dynstr_rep out' (t ++ t') /\ str_data out' <> None
    | None => r = -1
    end) w.
Proof.
  intros Hrep Hg Hs Hmax. unfold base64_decode. pose proof (Zlen_nonneg s).
  apply wp_bind. eapply dynstr_append_spec; [exact Hrep|apply is_cstr_nil|by right|done|rewrite Zlen_nil; lia|].
  rewrite app_nil_r. intros out1 w1 Hw1 Hrep1 Hd1. destruct (Z.eqb_spec (Zlen s mod 4) 0) as [Hmod|Hmod]; cbn [negb].
  - eapply wp_mono.
    + apply (decode_loop_spec s (S (Z.to_nat (Zlen s))) []);
        [done|done|by eauto using good_frame| |done|done|done]. rewrite Zlen_to_nat. lia.
    + intros [r out2] w2 [Hw2 Hr]. split; [by etrans|]. destruct (b64_decode s) as [t'|].
      * split; [exists t'; apply Hr|done].
      * destruct Hr as [-> [t' ?]]. split; [by exists t'|done].
  - apply wp_ret. split; [done|]. split; [exists []; by rewrite app_nil_r|].
    destruct (b64_decode s) eqn:Hd; [|done]. exfalso. apply Hmod. clear -Hd.
    revert l Hd. induction s as [s IH] using (induction_ltof1 _ (@length char)). intros l Hd.
    destruct s as [|c0 [|c1 [|c2 [|c3 s]]]]; try done. cbn [b64_decode] in Hd.
    destruct (decode_buf _ _ _ _); [|done]. cbn in Hd. destruct (b64_decode s) as [t|] eqn:Hs; [|done].
    rewrite !Zlen_cons. replace (1 + (1 + (1 + (1 + Zlen s)))) with (Zlen s + 1 * 4) by lia.
    rewrite Z_mod_plus_full. apply (IH s) with t; [unfold ltof; cbn; lia|done].
Qed.
End base64_facts.

(** ** Properties *)

(** C36: [base64_encode] computes the standard encoding of its input (groups of three bytes,
    filler at the end) and appends it to the output; [base64_decode] of that text gives the
    input back when it holds no NUL byte. *)
Theorem base64_roundtrip {E} `{DM : DataModel} (s : cstr) (out1 out2 : dynstr) (t : list char) (w : world E) :
  is_cstr s -> dynstr_rep out1 [] -> dynstr_rep out2 t -> good w -> Zlen t + (Zlen s + 2) / 3 * 4 <= DYN_MAX ->
  wp (out ← base64_encode s (Zlen s) out1;
      text ← c_access (dynstr_cstr out);
      base64_decode text (dynstr_len out) out2) (fun '(r, out') _ => r = 0 /\ dynstr_rep out' (t ++ s)) w.
Proof.
  intros Hs Hrep1 Hrep2 Hg Hmax. rewrite <-b64_length in Hmax. pose proof (Zlen_nonneg t).
  assert (Zlen s <= Zlen (b64 s)) by (rewrite b64_length; pose proof (Zlen_nonneg s); dlia).
  apply wp_bind. eapply base64_encode_spec; [exact Hrep1|done|rewrite Zlen_nil; lia|lia|].
  cbn [app]. intros out w1 Hw1 Hrep Hd. apply wp_bind. eapply wp_access.
  { unfold dynstr_cstr. destruct Hrep as [_ Hrep]. destruct (str_data out) as [b|]; [|done].
    destruct Hrep as (_ & _ & rest & ->). cbn. by rewrite c_text_app_nul by apply b64_cstr. }
  rewrite (dynstr_rep_len _ _ Hrep). eapply wp_mono;
    [apply base64_decode_spec; [exact Hrep2|by eauto using good_frame|lia|done]|].
  rewrite b64_roundtrip by done. intros [r out'] w' (_ & _ & ? & ? & _). done.
Qed.

Lemma base64_roundtrip_witness :
  b64 (cs "any carnal pleas") = cs "YW55IGNhcm5hbCBwbGVhcw==" /\
  wp (E := ()) (out ← base64_encode (DM := ILP32) (cs "any carnal pleas") 16 (Dynstr 0 0 None);
      text ← c_access (dynstr_cstr out);
      base64_decode (DM := ILP32) text (dynstr_len out) (Dynstr 0 0 None))
   (fun '(r, out') _ => r = 0 /\ dynstr_rep out' ([] ++ cs "any carnal pleas")) (World 0 [] [] ()).
Proof.
  split; [by vm_compute|].
  apply (base64_roundtrip (DM := ILP32) (cs "any carnal pleas") (Dynstr 0 0 None) (Dynstr 0 0 None) [] (World 0 [] [] ())).
  - by_decide.
  - apply dynstr_rep_new.
  - apply dynstr_rep_new.
  - split; constructor.
  - by vm_compute.
Defined.

(** A NUL byte inside a payload is lost with the rest of its group: the decoded group is
    appended as a C string. *)
Lemma base64_nul_truncates : b64_decode (b64 [chr 65; NUL; chr 66; chr 67]) = Some [chr 65; chr 67].
Proof. by vm_compute. Qed.
