(* ===== verification/Crc32.v ===== *)
(** * Crc32: the checksum of the metadata protocol, [mdata-client/crc32.c]

    The table is the source's, its words written in decimal. *)
From Stdlib Require Import Lia.
From S2P Require Import Prelude.

Definition crc32_table : list Z :=
  [0; 1996959894; 3993919788; 2567524794; 124634137; 1886057615; 3915621685; 2657392035;
   249268274; 2044508324; 3772115230; 2547177864; 162941995; 2125561021; 3887607047; 2428444049;
   498536548; 1789927666; 4089016648; 2227061214; 450548861; 1843258603; 4107580753; 2211677639;
   325883990; 1684777152; 4251122042; 2321926636; 335633487; 1661365465; 4195302755; 2366115317;
   997073096; 1281953886; 3579855332; 2724688242; 1006888145; 1258607687; 3524101629; 2768942443;
   901097722; 1119000684; 3686517206; 2898065728; 853044451; 1172266101; 3705015759; 2882616665;
   651767980; 1373503546; 3369554304; 3218104598; 565507253; 1454621731; 3485111705; 3099436303;
   671266974; 1594198024; 3322730930; 2970347812; 795835527; 1483230225; 3244367275; 3060149565;
   1994146192; 31158534; 2563907772; 4023717930; 1907459465; 112637215; 2680153253; 3904427059;
   2013776290; 251722036; 2517215374; 3775830040; 2137656763; 141376813; 2439277719; 3865271297;
   1802195444; 476864866; 2238001368; 4066508878; 1812370925; 453092731; 2181625025; 4111451223;
   1706088902; 314042704; 2344532202; 4240017532; 1658658271; 366619977; 2362670323; 4224994405;
   1303535960; 984961486; 2747007092; 3569037538; 1256170817; 1037604311; 2765210733; 3554079995;
   1131014506; 879679996; 2909243462; 3663771856; 1141124467; 855842277; 2852801631; 3708648649;
   1342533948; 654459306; 3188396048; 3373015174; 1466479909; 544179635; 3110523913; 3462522015;
   1591671054; 702138776; 2966460450; 3352799412; 1504918807; 783551873; 3082640443; 3233442989;
   3988292384; 2596254646; 62317068; 1957810842; 3939845945; 2647816111; 81470997; 1943803523;
   3814918930; 2489596804; 225274430; 2053790376; 3826175755; 2466906013; 167816743; 2097651377;
   4027552580; 2265490386; 503444072; 1762050814; 4150417245; 2154129355; 426522225; 1852507879;
   4275313526; 2312317920; 282753626; 1742555852; 4189708143; 2394877945; 397917763; 1622183637;
   3604390888; 2714866558; 953729732; 1340076626; 3518719985; 2797360999; 1068828381; 1219638859;
   3624741850; 2936675148; 906185462; 1090812512; 3747672003; 2825379669; 829329135; 1181335161;
   3412177804; 3160834842; 628085408; 1382605366; 3423369109; 3138078467; 570562233; 1426400815;
   3317316542; 2998733608; 733239954; 1555261956; 3268935591; 3050360625; 752459403; 1541320221;
   2607071920; 3965973030; 1969922972; 40735498; 2617837225; 3943577151; 1913087877; 83908371;
   2512341634; 3803740692; 2075208622; 213261112; 2463272603; 3855990285; 2094854071; 198958881;
   2262029012; 4057260610; 1759359992; 534414190; 2176718541; 4139329115; 1873836001; 414664567;
   2282248934; 4279200368; 1711684554; 285281116; 2405801727; 4167216745; 1634467795; 376229701;
   2685067896; 3608007406; 1308918612; 956543938; 2808555105; 3495958263; 1231636301; 1047427035;
   2932959818; 3654703836; 1088359270; 936918000; 2847714899; 3736837829; 1202900863; 817233897;
   3183342108; 3401237130; 1404277552; 615818150; 3134207493; 3453421203; 1423857449; 601450431;
   3009837614; 3294710456; 1567103746; 711928724; 3020668471; 3272380065; 1510334235; 755167117].

(** One turn of the loop: [crc = crc32_table[(crc ^ b) & 0xff] ^ (crc >> 8)]. *)
Definition crc32_step (crc b : Z) : Z :=
  Z.lxor (nth (Z.to_nat (Z.land (Z.lxor crc b) 255)) crc32_table 0) (Z.shiftr crc 8).

(** The loop.  The index is an [unsigned int] and the length a [size_t]: beyond [UINT_MAX] the
    index starts again.  No answer when the string and its NUL are overrun or the fuel is gone. *)
Fixpoint crc32_loop (fuel : nat) (str : cstr) (len i crc : Z) : option Z :=
  match fuel with
  | O => None
  | S fuel =>
      if i <? len then
        match (str ++ [NUL]) !! Z.to_nat i with
        | Some c => crc32_loop fuel str len (u32 (i + 1)) (crc32_step crc (code c))
        | None => None
        end
      else Some crc
  end.

(** The checksum of the first [len] characters; a loop that ends has at most [len] turns. *)
Definition crc32_calc (str : cstr) (len : Z) : option Z :=
  match crc32_loop (S (Z.to_nat len)) str len 0 4294967295 with
  | Some crc => Some (u32 (Z.lnot crc))
  | None => None
  end.

(** ** The polynomial division behind the table *)

(** Shifting one bit out of the reflected remainder. *)
Definition crc_bit (x : Z) : Z :=
  Z.lxor (Z.shiftr x 1) (if Z.testbit x 0 then 3988292384 else 0).

(** Shifting [k] bits out. *)
Fixpoint crc_bits (k : nat) (x : Z) : Z :=
  match k with O => x | S k => crc_bits k (crc_bit x) end.

Definition crc_byte (crc b : Z) : Z := crc_bits 8 (Z.lxor crc b).

(** CRC-32 by polynomial division, a bit at a time. *)
Definition crc32 (bytes : list char) : Z :=
  u32 (Z.lnot (foldl crc_byte 4294967295 (code <$> bytes))).

(** ** Facts *)

Lemma crc_bit_lxor x y : crc_bit (Z.lxor x y) = Z.lxor (crc_bit x) (crc_bit y).
Proof.
  unfold crc_bit. rewrite Z.shiftr_lxor, Z.lxor_spec. set (p := 3988292384). apply Z.bits_inj'. intros n Hn.
  rewrite !Z.lxor_spec. destruct (Z.testbit x 0), (Z.testbit y 0); cbn [xorb]; rewrite ?Z.testbit_0_l;
    destruct (Z.testbit (Z.shiftr x 1) n), (Z.testbit (Z.shiftr y 1) n), (Z.testbit p n); done.
Qed.

Lemma crc_bits_lxor k x y : crc_bits k (Z.lxor x y) = Z.lxor (crc_bits k x) (crc_bits k y).
Proof. revert x y. induction k as [|k IH]; intros x y; cbn [crc_bits]; [done|]. by rewrite crc_bit_lxor, IH. Qed.

(** Bits above the ones shifted out only move down. *)
Lemma crc_bits_high k h : crc_bits k (Z.shiftl h (Z.of_nat k)) = h.
Proof.
  revert h. induction k as [|k IH]; intros h; [apply Z.shiftl_0_r|].
  cbn [crc_bits]. replace (crc_bit (Z.shiftl h (Z.of_nat (S k)))) with (Z.shiftl h (Z.of_nat k)); [apply IH|].
  unfold crc_bit. rewrite Z.shiftl_spec_low by lia. rewrite Z.lxor_0_r, Z.shiftr_shiftl_l by lia. f_equal. lia.
Qed.

(** Every entry of the table is what eight shifts make of its index. *)
Lemma crc32_table_ok i : 0 <= i < 256 -> nth (Z.to_nat i) crc32_table 0 = crc_bits 8 i.
Proof.
  intros Hi.
  assert (Hall : forallb (fun n => nth n crc32_table 0 =? crc_bits 8 (Z.of_nat n)) (seq 0 256) = true)
    by (vm_compute; reflexivity).
  rewrite forallb_forall in Hall. specialize (Hall (Z.to_nat i)). rewrite in_seq in Hall.
  specialize (Hall ltac:(lia)). apply Z.eqb_eq in Hall. by rewrite Z2Nat.id in Hall by lia.
Qed.

Lemma crc32_step_byte crc b : 0 <= b < 256 -> crc32_step crc b = crc_byte crc b.
Proof.
  intros Hb. unfold crc32_step, crc_byte. set (x := Z.lxor crc b).
  rewrite crc32_table_ok by (change 255 with (Z.ones 8); rewrite Z.land_ones by lia; apply Z.mod_pos_bound; lia).
  assert (Hhigh : Z.shiftr crc 8 = Z.shiftr x 8).
  { unfold x. rewrite Z.shiftr_lxor. assert (Z.shiftr b 8 = 0) as ->; [|by rewrite Z.lxor_0_r].
    rewrite Z.shiftr_div_pow2 by lia. change (2 ^ 8) with 256. by apply Z.div_small. }
  rewrite Hhigh. assert (Hx : x = Z.lxor (Z.land x 255) (Z.shiftl (Z.shiftr x 8) 8)).
  { apply Z.bits_inj'. intros n Hn. rewrite Z.lxor_spec, Z.land_spec, Z.shiftl_spec by lia.
    change 255 with (Z.ones 8). destruct (Z.lt_ge_cases n 8).
    - rewrite Z.ones_spec_low, (Z.testbit_neg_r _ (n - 8)) by lia. by rewrite andb_true_r, xorb_false_r.
    - rewrite Z.ones_spec_high, Z.shiftr_spec by lia. replace (n - 8 + 8) with n by lia.
      by rewrite andb_false_r, xorb_false_l. }
  rewrite Hx at 3. rewrite crc_bits_lxor. by rewrite (crc_bits_high 8).
Qed.

Lemma crc32_steps_bytes bytes crc :
  foldl crc32_step crc (code <$> bytes) = foldl crc_byte crc (code <$> bytes).
Proof.
  revert crc. induction bytes as [|c bytes IH]; intros crc; cbn [fmap list_fmap foldl]; [done|].
  by rewrite crc32_step_byte, IH by apply code_range.
Qed.

(** Within the range of the index the loop reads the rest of the string. *)
Lemma crc32_loop_spec fuel str i crc :
  Zlen str <= UINT_MAX -> (i <= length str)%nat -> (length str - i < fuel)%nat ->
  crc32_loop fuel str (Zlen str) (Z.of_nat i) crc = Some (foldl crc32_step crc (code <$> drop i str)).
Proof.
  intros Hmax. revert i crc. induction fuel as [|fuel IH]; intros i crc Hi Hf; [lia|]. cbn [crc32_loop].
  destruct (Z.ltb_spec (Z.of_nat i) (Zlen str)) as [Hlt|Hge]; unfold Zlen in *.
  - rewrite Nat2Z.id. destruct (lookup_lt_is_Some_2 str i ltac:(lia)) as [c Hc].
    rewrite lookup_app_l, Hc by lia. rewrite u32_small by lia.
    replace (Z.of_nat i + 1) with (Z.of_nat (S i)) by lia. rewrite IH by lia. by rewrite (drop_S str c i Hc).
  - by rewrite drop_ge by lia.
Qed.

(** Beyond it the index starts again before it reaches the length: the loop never ends. *)
Lemma crc32_loop_long fuel str i crc :
  UINT_MAX < Zlen str -> 0 <= i <= UINT_MAX -> crc32_loop fuel str (Zlen str) i crc = None.
Proof.
  intros Hlong. revert i crc. induction fuel as [|fuel IH]; intros i crc Hi; cbn [crc32_loop]; [done|].
  rewrite (proj2 (Z.ltb_lt _ _)) by lia. destruct (_ !! _); [|done]. apply IH, u32_range.
Qed.

Lemma crc32_calc_crc32 str : Zlen str <= UINT_MAX -> crc32_calc str (Zlen str) = Some (crc32 str).
Proof.
  intros Hmax. unfold crc32_calc, crc32. rewrite (crc32_loop_spec _ str 0) by (unfold Zlen in *; lia).
  by rewrite drop_0, crc32_steps_bytes.
Qed.

Lemma crc32_range bytes : 0 <= crc32 bytes <= UINT_MAX.
Proof. apply u32_range. Qed.

(** ** Properties *)

(** C35: the table-driven [crc32_calc] computes the CRC-32 of a string no longer than
    [UINT_MAX]: the bit-by-bit division by the reflected polynomial 0xEDB88320 with initial value
    and final complement.  On a longer string, which a 64-bit [size_t] allows, it computes nothing:
    its [unsigned int] index never reaches the length, whatever the number of turns. *)
Theorem crc32_calc_is_crc32 (str : cstr) :
  crc32_calc str (Zlen str) = (if Zlen str <=? UINT_MAX then Some (crc32 str) else None) /\
  forall turns, crc32_loop (S (length str) + turns) str (Zlen str) 0 UINT_MAX
                = if Zlen str <=? UINT_MAX then Some (foldl crc_byte UINT_MAX (code <$> str)) else None.
Proof.
  destruct (Z.leb_spec (Zlen str) UINT_MAX) as [Hs|Hs].
  - split; [by apply crc32_calc_crc32|]. intros turns.
    by rewrite (crc32_loop_spec _ str 0), drop_0, crc32_steps_bytes by lia.
  - assert (0 <= 0 <= UINT_MAX) by (unfold UINT_MAX; lia). split; [|intros turns; by apply crc32_loop_long].
    unfold crc32_calc. by rewrite crc32_loop_long.
Qed.

Example crc32_check_value : crc32_calc (cs "123456789") 9 = Some 3421780262.
Proof. by vm_compute. Qed.
