(* ===== verification/Sys.v ===== *)
(** * Sys: the operating system as a parameter

    The kernel and the system libraries are not part of the repository.  A component that calls
    them is written against a [Kernel]: a function from a call (its name and arguments) and the
    state of the environment to an answer and the next state.  Nothing is assumed of it here. *)
From Stdlib Require Import Lia.
From S2P Require Import Prelude.

(** Arguments and results: integers and byte strings. *)
Inductive sarg := AZ (z : Z) | AS (s : cstr).

(** [sr_ret] is the call's result; on failure (-1) [sr_errno] goes to [errno]; [sr_data] and
    [sr_vals] are what it stores in the caller's buffers and structures. *)
Record sysret := SysRet { sr_ret : Z; sr_errno : Z; sr_data : list char; sr_vals : list Z }.

Class Kernel (E : Type) := sys_step : string -> list sarg -> E -> sysret * E.

Definition syscall {E} `{Kernel E} (name : string) (args : list sarg) : C E sysret := fun w =>
  let '(r, e) := sys_step name args (w_env w) in
  Done (r, World (if sr_ret r =? -1 then sr_errno r else w_errno w) (w_heap w) (w_stderr w) e).

(** The result alone. *)
Definition sys {E} `{Kernel E} (name : string) (args : list sarg) : C E Z :=
  r ← syscall name args; mret (sr_ret r).

Lemma wp_syscall {E} `{Kernel E} name args (Q : sysret -> world E -> Prop) w r e :
  sys_step name args (w_env w) = (r, e) ->
  Q r (World (if sr_ret r =? -1 then sr_errno r else w_errno w) (w_heap w) (w_stderr w) e) ->
  wp (syscall name args) Q w.
Proof. intros Hs HQ. unfold wp, syscall. by rewrite Hs. Qed.

Lemma wp_sys {E} `{Kernel E} name args (Q : Z -> world E -> Prop) w r e :
  sys_step name args (w_env w) = (r, e) ->
  Q (sr_ret r) (World (if sr_ret r =? -1 then sr_errno r else w_errno w) (w_heap w) (w_stderr w) e) ->
  wp (sys name args) Q w.
Proof. intros Hs HQ. apply wp_bind. eapply wp_syscall; [exact Hs|]. by apply wp_ret. Qed.

(** A call that succeeds in moving the kernel from one state to the next. *)
Definition answers {E} `{Kernel E} name args (e : E) (ret : Z) (data : list char) (e' : E) : Prop :=
  exists er vals, sys_step name args e = (SysRet ret er data vals, e').

(** Moving the environment of a world. *)
Definition set_env {E} (w : world E) (e : E) : world E := World (w_errno w) (w_heap w) (w_stderr w) e.

(** The status of [wait] taken apart. *)
Definition WIFEXITED (stat : Z) : bool := Z.land stat 255 =? 0.
Definition WEXITSTATUS (stat : Z) : Z := Z.land (Z.shiftr stat 8) 255.
Definition WIFSIGNALED (stat : Z) : bool := (0 <? Z.land stat 255) && (Z.land stat 65280 =? 0).
Definition WTERMSIG (stat : Z) : Z := Z.land stat 127.
