(* ===== verification/Reqid.v ===== *)
(** * Reqid: request identifiers, [mdata-client/reqid.c]

    The static variables [urandom_fd] and [seed] are the record [reqid_state]. *)
From Stdlib Require Import Lia.
From S2P Require Import Prelude Sys Cnum.

Record reqid_state := ReqidState { urandom_fd : Z; seed : Z }.

Definition REQID_LEN : Z := 9.

(** A [uint32_t] in memory, least significant byte first. *)
Fixpoint le_value (bytes : list char) : Z :=
  match bytes with [] => 0 | b :: bytes => code b + 256 * le_value bytes end.

Section reqid.
Context {E : Type} `{Kernel E}.

(** [for (i = 0; i < 4; i++) tmp |= (0xff & (rand())) << (i * 8);] *)
Fixpoint rand_loop (n : nat) (i tmp : Z) : C E Z :=
  match n with
  | O => mret tmp
  | S n => r ← sys "rand" []; rand_loop n (i + 1) (u32 (Z.lor tmp (Z.shiftl (Z.land 255 r) (i * 8))))
  end.

Definition reqid (st : reqid_state) : C E (cstr * reqid_state) :=
  '(ok, tmp) ←
    (if negb (urandom_fd st =? -1) then
       r ← syscall "read" [AZ (urandom_fd st); AZ 4];
       mret (sr_ret r =? 4, if sr_ret r =? -1 then 0 else le_value (take 4 (sr_data r)))
     else mret (false, 0));
  if ok : bool then mret (print_x 8 tmp, st)
  else
    st ← (if seed st =? -1 then
            t ← sys "time" [];
            let s := i32 t in
            _ ← sys "srand" [AZ (u32 s)];
            mret (ReqidState (urandom_fd st) s)
          else mret st);
    tmp ← rand_loop 4 0 tmp;
    mret (print_x 8 tmp, st).

Definition reqid_init (st : reqid_state) : C E reqid_state :=
  if urandom_fd st =? -1
  then fd ← sys "open" [AS (cs "/dev/urandom")]; mret (ReqidState fd (seed st))
  else mret st.

Definition reqid_fini (st : reqid_state) : C E reqid_state :=
  if urandom_fd st =? -1 then mret st
  else _ ← sys "close" [AZ (urandom_fd st)]; mret (ReqidState (-1) (seed st)).
End reqid.

(** ** Facts *)

(** Eight hexadecimal digits. *)
Definition is_reqid (s : cstr) : Prop := length s = 8%nat /\ Forall (fun c => is_digit_in 16 c = true) s.

Lemma print_x_reqid n : 0 <= n <= UINT_MAX -> is_reqid (print_x 8 n).
Proof.
  intros Hn. split; [|apply pad0_digits; [lia|apply print_base_digits; lia]].
  unfold print_x, pad0. rewrite length_app, length_replicate.
  assert (length (print_base 16 n) <= 8)%nat; [|lia].
  unfold print_base. rewrite length_fmap. apply to_digits_length; [lia| |lia].
  unfold UINT_MAX in Hn. change (16 ^ Z.of_nat 8) with 4294967296. lia.
Qed.

Lemma is_reqid_free s c : is_reqid s -> is_digit_in 16 c = false -> c ∉ s.
Proof. intros [_ Hs] Hc. by eapply digits_free. Qed.

Lemma is_reqid_cstr s : is_reqid s -> is_cstr s.
Proof. intros Hs. by apply (is_reqid_free s NUL). Qed.

Lemma le_value_range bytes : 0 <= le_value bytes < 256 ^ Zlen bytes.
Proof.
  induction bytes as [|b bytes IH]; [done|]. rewrite Zlen_cons, Z.pow_add_r by (pose proof (Zlen_nonneg bytes); lia).
  cbn [le_value]. pose proof (code_range b). lia.
Qed.

(** Whatever the system answers, the identifier is well formed. *)
Lemma reqid_spec {E} `{Kernel E} st (w : world E) :
  wp (reqid st) (fun '(id, st') w' => is_reqid id /\ w_heap w' = w_heap w) w.
Proof.
  assert (Hsys : forall name args (Q : sysret -> world E -> Prop) w,
    (forall r w', w_heap w' = w_heap w -> Q r w') -> wp (syscall name args) Q w).
  { intros name args Q w0 HQ. unfold wp, syscall. destruct (sys_step name args (w_env w0)). by apply HQ. }
  assert (Hsys' : forall name args (Q : Z -> world E -> Prop) w,
    (forall r w', w_heap w' = w_heap w -> Q r w') -> wp (sys name args) Q w).
  { intros name args Q w0 HQ. apply wp_bind, Hsys. intros. by apply wp_ret, HQ. }
  assert (Hrand : forall n i tmp (w : world E), 0 <= tmp <= UINT_MAX ->
    wp (rand_loop n i tmp) (fun tmp w' => 0 <= tmp <= UINT_MAX /\ w_heap w' = w_heap w) w).
  { induction n as [|n IH]; intros i tmp w0 Ht; [by apply wp_ret|]. cbn [rand_loop].
    apply wp_bind, Hsys'. intros r w1 Hw1. eapply wp_mono; [apply IH, u32_range|]. naive_solver congruence. }
  assert (Hrest : forall tmp w1, 0 <= tmp <= UINT_MAX -> w_heap w1 = w_heap w ->
    wp (st ← (if seed st =? -1 then
            t ← sys "time" [];
            let s := i32 t in
            _ ← sys "srand" [AZ (u32 s)];
            mret (ReqidState (urandom_fd st) s)
          else mret st);
        tmp ← rand_loop 4 0 tmp; mret (print_x 8 tmp, st))
       (fun '(id, st') w' => is_reqid id /\ w_heap w' = w_heap w) w1).
  { intros tmp w1 Ht Hw1. apply wp_bind.
    eapply (wp_mono _ (fun _ w' => w_heap w' = w_heap w)).
    - destruct (seed st =? -1); [|by apply wp_ret]. apply wp_bind, Hsys'. intros t w2 Hw2.
      apply wp_bind, Hsys'. intros ? w3 Hw3. apply wp_ret. congruence.
    - intros st' w2 Hw2. apply wp_bind. eapply wp_mono; [by apply Hrand|]. intros tmp' w3 [Ht' Hw3].
      apply wp_ret. split; [by apply print_x_reqid|congruence]. }
  unfold reqid. apply wp_bind. destruct (urandom_fd st =? -1); cbn [negb].
  - apply wp_ret. apply Hrest; [unfold UINT_MAX; lia|done].
  - apply wp_bind, Hsys. intros r w1 Hw1. apply wp_ret.
    assert (Ht : 0 <= (if sr_ret r =? -1 then 0 else le_value (take 4 (sr_data r))) <= UINT_MAX).
    { destruct (sr_ret r =? -1); [unfold UINT_MAX; lia|].
      pose proof (le_value_range (take 4 (sr_data r))). rewrite Zlen_take in *.
      assert (256 ^ Z.min (Z.of_nat 4) (Zlen (sr_data r)) <= 256 ^ 4) by (apply Z.pow_le_mono_r; lia).
      unfold UINT_MAX. change (256 ^ 4) with 4294967296 in *. lia. }
    destruct (sr_ret r =? 4); [|by apply Hrest]. apply wp_ret. split; [by apply print_x_reqid|done].
Qed.
