(* ===== verification/Plat.v ===== *)
(** * Plat: the transport of the metadata client, [mdata-client/plat.h] and [plat/*.c]

    [Platform] is the interface of [plat.h] the protocol ([Proto]) is written against.  Module
    [Sunos] models [plat/sunos.c] and module [Linux] models [plat/linux.c], both over the calls
    of a [Kernel], with the shared functions of [plat/unix_common.c].  libsmbios and [strerror]
    are parameters. *)
From Stdlib Require Import Lia.
From S2P Require Import Prelude Custr Dynstr Strset Sys.

Class Platform (E : Type) := {
  plat : Type;
  (** the result, the handle, [*errmsg], [*permfail] *)
  plat_init : Z -> C E (Z * option plat * option cstr * Z);
  plat_recv : plat -> dynstr -> Z -> C E (Z * dynstr);
  plat_send : plat -> dynstr -> C E Z;
  plat_fini : plat -> C E ();
  plat_is_interactive : C E bool
}.

Definition EPERM : Z := 1.
Definition EINTR : Z := 4.
Definition EAGAIN : Z := 11.
Definition EACCES : Z := 13.
Definition EBUSY : Z := 16.
Definition ETIME : Z := 62.

(** Functions that store an error message and the permanent-failure flag. *)
Record openres := OpenRes { or_ret : Z; or_fd : Z; or_errmsg : option cstr; or_permfail : Z }.

Section unix_common.
Context {E : Type} `{Kernel E}.

Definition unix_is_interactive : C E bool := r ← sys "isatty" [AZ 0]; mret (r =? 1).

(** The four words of [struct termios] are the values of [tcgetattr]; the masks are those of
    illumos' termios.h. *)
Definition unix_raw_mode (fd : Z) (errmsg : option cstr) : C E (Z * option cstr) :=
  r ← syscall "tcgetattr" [AZ fd];
  if sr_ret r =? -1 then mret (-1, Some (cs "could not set raw mode on serial device")) else
  let c_iflag := Z.land (nth 0 (sr_vals r) 0) (Z.lnot 1330) in
  let c_oflag := Z.land (nth 1 (sr_vals r) 0) (Z.lnot 1) in
  let c_cflag := Z.lor (nth 2 (sr_vals r) 0) 48 in
  let c_lflag := Z.land (nth 3 (sr_vals r) 0) (Z.lnot 32779) in
  s ← sys "tcsetattr" [AZ fd; AZ c_iflag; AZ c_oflag; AZ c_cflag; AZ c_lflag; AZ 0; AZ 1];
  if s =? -1 then mret (-1, Some (cs "could not get attributes from serial device")) else mret (0, errmsg).

(** "Read (and discard) data until we cannot do so anymore": whether the flush succeeded. *)
Fixpoint flush_loop (fuel : nat) (fd : Z) : C E bool :=
  match fuel with
  | O => c_undefined
  | S fuel =>
      sz ← sys "read" [AZ fd; AZ 100];
      e ← get_errno;
      if (sz =? -1) && negb (e =? EAGAIN) then mret false
      else if 0 <? sz then flush_loop fuel fd else mret true
  end.

Definition unix_open_serial (fuel : nat) (devpath : cstr) (errmsg : option cstr) (permfail : Z) : C E openres :=
  fd ← sys "open" [AS devpath];
  if fd =? -1 then
    e ← get_errno;
    mret (OpenRes (-1) (-1) (Some (cs "Could not open serial device."))
      (if negb (e =? EAGAIN) && negb (e =? EBUSY) && negb (e =? EINTR) then 1 else permfail))
  else
  l ← sys "fcntl F_SETLKW" [AZ fd];
  if l =? -1 then mret (OpenRes (-1) (-1) (Some (cs "Could not lock serial device.")) permfail) else
  '(raw, errmsg) ← unix_raw_mode fd errmsg;
  if raw =? -1 then _ ← sys "close" [AZ fd]; mret (OpenRes (-1) (-1) errmsg 1) else
  ok ← flush_loop fuel fd;
  if negb ok
  then _ ← sys "close" [AZ fd];
       mret (OpenRes (-1) (-1) (Some (cs "Failed to flush serial port before use.")) permfail)
  else mret (OpenRes 0 fd errmsg permfail).
End unix_common.

(** The handle: the event port (or epoll descriptor) and the connection. *)
Record mdata_plat := MdataPlat { mpl_port : Z; mpl_conn : Z }.

Section plat_common.
Context {E : Type} `{Kernel E} `{DM : DataModel}.

Definition unix_send (mpl : mdata_plat) (data : dynstr) : C E Z :=
  let len := i32 (dynstr_len data) in
  n ← sys "write" [AZ (mpl_conn mpl); AS (take (Z.to_nat len) (default [] (str_data data)))];
  mret (if negb (n =? len) then -1 else 0).

(** [if (mpl->mpl_port != -1) (void) close(mpl->mpl_port);] and the same for the connection. *)
Definition unix_fini (mpl : mdata_plat) : C E () :=
  _ ← (if negb (mpl_port mpl =? -1) then sys "close" [AZ (mpl_port mpl)] else mret 0);
  _ ← (if negb (mpl_conn mpl =? -1) then sys "close" [AZ (mpl_conn mpl)] else mret 0);
  mret tt.

(** The part of [plat_recv] that handles a readable connection: a complete line, or one more
    character. *)
Definition recv_char (mpl : mdata_plat) (data : dynstr) : C E (bool * dynstr) :=
  r ← syscall "read" [AZ (mpl_conn mpl); AZ 1];
  if 0 <? sr_ret r then
    match sr_data r with
    | c :: _ =>
        if Ascii.eqb c LF then mret (true, data)
        else data ← dynstr_append data [c; NUL]; mret (false, data)
    | [] => c_undefined
    end
  else mret (false, data).

Definition plat_send_reset (recv : mdata_plat -> dynstr -> Z -> C E (Z * dynstr)) (mpl : mdata_plat) : C E Z :=
  str ← dynstr_new;
  str ← dynstr_append str [LF];
  s ← unix_send mpl str;
  if negb (s =? 0) then mret (-1) else
  str ← dynstr_reset str;
  '(r, str) ← recv mpl str 2000;
  if negb (r =? 0) then mret (-1) else
  line ← c_access (dynstr_cstr str);
  mret (if negb (strcmp line (cs "invalid command") =? 0) then -1 else 0).
End plat_common.

Module Sunos.
Definition IN_GLOBAL_DEVICE : cstr := cs "/dev/term/b".

Definition zone_md_socket_paths : list cstr :=
  [cs "/native/.zonecontrol/metadata.sock"; cs "/.zonecontrol/metadata.sock";
   cs "/var/run/smartdc/metadata.sock"].

Definition S_IFSOCK : Z := 49152.
Definition POLLIN : Z := 1.
Definition POLLERR : Z := 8.
Definition POLLHUP : Z := 16.

Section sunos.
Context {E : Type} `{Kernel E} `{DM : DataModel}.
Context (strerror : Z -> cstr) (get_product_string : C E (option cstr)) (fuel : nat).

Fixpoint find_md_ngz (paths : list cstr) (permfail : Z) : C E (option cstr * Z) :=
  match paths with
  | [] => mret (None, permfail)
  | path :: paths =>
      st ← syscall "lstat" [AS path];
      if (sr_ret st =? 0) && (Z.land (nth 0 (sr_vals st) 0) 61440 =? S_IFSOCK) then mret (Some path, permfail)
      else
        uid ← sys "geteuid" [];
        e ← get_errno;
        find_md_ngz paths (if negb (uid =? 0) && ((e =? EPERM) || (e =? EACCES)) then 1 else permfail)
  end.

Definition open_md_ngz (errmsg : option cstr) (permfail : Z) : C E openres :=
  '(sockpath, permfail) ← find_md_ngz zone_md_socket_paths permfail;
  match sockpath with
  | None => mret (OpenRes (-1) (-1) (Some (cs "Could not find metadata socket.")) permfail)
  | Some sockpath =>
      fd ← sys "socket" [];
      if fd =? -1 then mret (OpenRes (-1) (-1) (Some (cs "Could not open metadata socket.")) 1) else
      r ← sys "ioctl FIONBIO" [AZ fd; AZ 1];
      if negb (r =? 0)
      then _ ← sys "close" [AZ fd];
           mret (OpenRes (-1) (-1) (Some (cs "Could not set non-blocking I/O on socket.")) 1)
      else
      r ← sys "connect" [AZ fd; AS sockpath];
      if r =? -1
      then _ ← sys "close" [AZ fd];
           mret (OpenRes (-1) (-1) (Some (cs "Could not connect metadata socket.")) permfail)
      else mret (OpenRes 0 fd errmsg permfail)
  end.

Definition open_md_gz (errmsg : option cstr) (permfail : Z) : C E openres :=
  unix_open_serial fuel IN_GLOBAL_DEVICE errmsg permfail.

(** The loop of [plat_recv]: [timeout_ms] loses the seconds it hands to [port_get], and what is
    left is the timeout of the next turn. *)
Fixpoint recv_loop (fuel : nat) (mpl : mdata_plat) (data : dynstr) (timeout_ms : Z) : C E (Z * dynstr) :=
  match fuel with
  | O => c_undefined
  | S fuel =>
      a ← sys "port_associate" [AZ (mpl_port mpl); AZ (mpl_conn mpl)];
      if negb (a =? 0)
      then e ← get_errno; eprint (cs "port_associate error: " ++ strerror e) ;; mret (-1, data)
      else
      let tv_sec := Z.quot timeout_ms 1000 in
      let timeout_ms := timeout_ms - tv_sec * 1000 in
      let tv_nsec := timeout_ms * 1000 * 1000 in
      pev ← syscall "port_get" [AZ (mpl_port mpl); AZ tv_sec; AZ tv_nsec];
      if sr_ret pev =? -1
      then e ← get_errno;
           (if e =? ETIME then eprint (cs "plat_recv timeout") else eprint (cs "port_get error: " ++ strerror e)) ;;
           mret (-1, data)
      else
      let events := nth 0 (sr_vals pev) 0 in
      '(line, data) ← (if negb (Z.land events POLLIN =? 0) then recv_char mpl data else mret (false, data));
      if line : bool then mret (0, data)
      else if negb (Z.land events POLLERR =? 0) then eprint (cs "POLLERR") ;; mret (-1, data)
      else if negb (Z.land events POLLHUP =? 0) then eprint (cs "POLLHUP") ;; mret (-1, data)
      else recv_loop fuel mpl data timeout_ms
  end.

(** After [wrapfd]: the active reset. *)
Definition wrapfd (mpl : mdata_plat) (errmsg : option cstr) (permfail : Z)
  : C E (Z * option mdata_plat * option cstr * Z) :=
  r ← plat_send_reset (recv_loop fuel) mpl;
  if r =? -1 then unix_fini mpl ;; mret (-1, None, Some (cs "Could not do active reset."), permfail)
  else mret (0, Some mpl, errmsg, permfail).

(** [bail] or [wrapfd] after an attempt to open the connection. *)
Definition opened (port : Z) (o : openres) : C E (Z * option mdata_plat * option cstr * Z) :=
  if negb (or_ret o =? 0)
  then unix_fini (MdataPlat port (-1)) ;; mret (-1, None, or_errmsg o, or_permfail o)
  else wrapfd (MdataPlat port (or_fd o)) (or_errmsg o) (or_permfail o).

Definition plat_init (permfail : Z) : C E (Z * option mdata_plat * option cstr * Z) :=
  m ← malloc 8;
  match m with
  | None => mret (-1, None, Some (cs "Could not allocate memory."), 1)
  | Some _ =>
      port ← sys "port_create" [];
      if port =? -1
      then unix_fini (MdataPlat (-1) (-1)) ;; mret (-1, None, Some (cs "Could not create event port."), 1)
      else
      zone ← sys "getzoneid" [];
      if negb (zone =? 0) then o ← open_md_ngz None permfail; opened port o else
      product ← get_product_string;
      if match product with Some p => strcmp p (cs "SmartDC HVM") =? 0 | None => false end
      then o ← open_md_gz None permfail; opened port o
      else unix_fini (MdataPlat port (-1)) ;;
           mret (-1, None, Some (cs "I don't know how to get metadata on this system."), 1)
  end.

Definition platform : Platform E := {|
  plat := mdata_plat;
  Plat.plat_init := plat_init;
  plat_recv := recv_loop fuel;
  plat_send := unix_send;
  plat_fini := unix_fini;
  plat_is_interactive := unix_is_interactive
|}.
End sunos.
End Sunos.

Module Linux.
Definition SERIAL_DEVICE : cstr := cs "/dev/ttyS1".
Definition EPOLLIN : Z := 1.
Definition EPOLLERR : Z := 8.
Definition EPOLLHUP : Z := 16.

Section linux.
Context {E : Type} `{Kernel E} `{DM : DataModel}.
Context (print_errno : Z -> cstr) (fuel : nat).

(** The values of [epoll_wait] are [event.data.fd] and [event.events]; when it returns without an
    event it stores nothing, and the source reads an indeterminate structure. *)
Fixpoint recv_loop (fuel : nat) (mpl : mdata_plat) (data : dynstr) (timeout_ms : Z) : C E (Z * dynstr) :=
  match fuel with
  | O => c_undefined
  | S fuel =>
      event ← syscall "epoll_wait" [AZ (mpl_port mpl); AZ timeout_ms];
      if sr_ret event =? -1
      then e ← get_errno;
           eprint (cs "epoll error: " ++ print_errno e) ;;
           if e =? EINTR then mret (-1, data) else eprint (cs "EPOLL_WAIT ERROR") ;; c_exit 1
      else
      match sr_vals event with
      | fd :: events :: _ =>
          if (fd =? 0) || (events =? 0) then eprint (cs "plat_recv timeout") ;; mret (-1, data) else
          '(line, data) ← (if negb (Z.land events EPOLLIN =? 0) then recv_char mpl data else mret (false, data));
          if line : bool then mret (0, data)
          else if negb (Z.land events EPOLLERR =? 0) then eprint (cs "POLLERR") ;; mret (-1, data)
          else if negb (Z.land events EPOLLHUP =? 0) then eprint (cs "POLLHUP") ;; mret (-1, data)
          else recv_loop fuel mpl data timeout_ms
      | _ => c_undefined
      end
  end.

Definition plat_init (permfail : Z) : C E (Z * option mdata_plat * option cstr * Z) :=
  m ← malloc 8;
  match m with
  | None => mret (-1, None, Some (cs "Could not allocate memory."), 1)
  | Some _ =>
      epoll ← sys "epoll_create" [AZ 1];
      if epoll =? -1
      then unix_fini (MdataPlat (-1) (-1)) ;; mret (-1, None, Some (cs "Could not create epoll fd."), 1)
      else
      o ← unix_open_serial fuel SERIAL_DEVICE None permfail;
      if negb (or_ret o =? 0)
      then unix_fini (MdataPlat epoll (-1)) ;; mret (-1, None, or_errmsg o, or_permfail o)
      else
      let mpl := MdataPlat epoll (or_fd o) in
      r ← sys "epoll_ctl EPOLL_CTL_ADD" [AZ epoll; AZ (or_fd o); AZ (EPOLLIN + EPOLLERR + EPOLLHUP)];
      if r =? -1
      then unix_fini mpl ;; mret (-1, None, Some (cs "Could not add conn to epoll context."), 1)
      else
      r ← plat_send_reset (recv_loop fuel) mpl;
      if r =? -1 then unix_fini mpl ;; mret (-1, None, Some (cs "Could not do active reset."), or_permfail o)
      else mret (0, Some mpl, or_errmsg o, or_permfail o)
  end.

Definition platform : Platform E := {|
  plat := mdata_plat;
  Plat.plat_init := plat_init;
  plat_recv := recv_loop fuel;
  plat_send := unix_send;
  plat_fini := unix_fini;
  plat_is_interactive := unix_is_interactive
|}.
End linux.
End Linux.

(** ** Receiving a line *)

Section recv_facts.
Context {E : Type} `{Kernel E} `{DM : DataModel}.
Implicit Types (w : world E) (mpl : mdata_plat).

(** From state [e] the kernel reports the connection readable and delivers the characters [s],
    whatever timeout it is given, and comes to state [e']. *)
Inductive delivers mpl : E -> cstr -> E -> Prop :=
| delivers_nil e : delivers mpl e [] e
| delivers_cons e1 e2 e3 e4 e5 c s :
    answers "port_associate" [AZ (mpl_port mpl); AZ (mpl_conn mpl)] e1 0 [] e2 ->
    (forall sec nsec, exists er, sys_step "port_get" [AZ (mpl_port mpl); AZ sec; AZ nsec] e2
                                 = (SysRet 0 er [] [Sunos.POLLIN], e3)) ->
    answers "read" [AZ (mpl_conn mpl); AZ 1] e3 1 [c] e4 ->
    delivers mpl e4 s e5 -> delivers mpl e1 (c :: s) e5.

(** One turn of the loop that reads the character [c]. *)
Lemma recv_turn strerror fuel mpl data t c timeout_ms (Q : Z * dynstr -> world E -> Prop) w e4 :
  dynstr_rep data t -> good w -> is_cstr [c] -> Zlen t + 1 <= DYN_MAX ->
  delivers mpl (w_env w) [c] e4 ->
  (c = LF -> forall w', good w' -> w_env w' = e4 -> Q (0, data) w') ->
  (c <> LF -> forall data' w', dynstr_rep data' (t ++ [c]) -> good w' -> w_env w' = e4 ->
     wp (Sunos.recv_loop strerror fuel mpl data' (timeout_ms - Z.quot timeout_ms 1000 * 1000)) Q w') ->
  wp (Sunos.recv_loop strerror (S fuel) mpl data timeout_ms) Q w.
Proof.
  intros Hrep [Hl Ht] Hc Hmax Hd Hlf Hmore. inversion Hd as [|e1 e2 e3 e4' e5 c' s' H1 H2 H3 H4]; subst.
  inversion H4; subst. cbn [Sunos.recv_loop].
  destruct H1 as (er1 & vals1 & H1). apply wp_bind. eapply wp_sys; [exact H1|].
  cbn [sr_ret sr_errno]. change (negb (0 =? 0)) with false. cbn beta iota zeta. change (0 =? -1) with false. cbn beta iota.
  edestruct H2 as [er2 H2']. apply wp_bind. eapply wp_syscall; [exact H2'|].
  cbn [sr_ret sr_errno sr_vals nth]. change (0 =? -1) with false. cbn beta iota zeta.
  change (negb (Z.land Sunos.POLLIN Sunos.POLLIN =? 0)) with true. cbn beta iota.
  destruct H3 as (er3 & vals3 & H3). apply wp_bind, wp_bind. eapply wp_syscall; [exact H3|].
  cbn [sr_ret sr_errno sr_data]. change (1 =? -1) with false. change (0 <? 1) with true. cbn beta iota.
  destruct (Ascii.eqb_spec c LF) as [->|Hne].
  - apply wp_ret. cbn beta iota. apply wp_ret. by apply Hlf.
  - apply wp_bind. assert (Happ : dynstr_append (E := E) data [c; NUL] = dynstr_append data [c]).
    { unfold dynstr_append. change (c_text [c; NUL]) with (c_text ([c] ++ NUL :: [])).
      by rewrite c_text_app_nul, (c_text_id [c]) by done. }
    rewrite Happ. eapply dynstr_append_spec; [exact Hrep|done|right; by vm_compute|split; done|done|].
    intros data' w' Hw' Hrep' Hd'. apply wp_ret. cbn beta iota.
    change (negb (Z.land Sunos.POLLIN Sunos.POLLERR =? 0)) with false.
    change (negb (Z.land Sunos.POLLIN Sunos.POLLHUP =? 0)) with false. cbn beta iota.
    apply Hmore; [done|done|eapply good_frame; [exact Hw'|split; done]|by rewrite (frame_env _ _ Hw')].
Qed.

Lemma delivers_app mpl s s' e e' e'' :
  delivers mpl e s e' -> delivers mpl e' s' e'' -> delivers mpl e (s ++ s') e''.
Proof. induction 1; cbn; [done|]. intros. econstructor; eauto. Qed.

Lemma delivers_cons_inv mpl c s e e'' :
  delivers mpl e (c :: s) e'' -> exists e', delivers mpl e [c] e' /\ delivers mpl e' s e''.
Proof. inversion 1; subst. eexists. split; [|done]. econstructor; [done|done|done|constructor]. Qed.
End recv_facts.

(** ** Properties *)

(** [plat_recv] returns a complete line: when the host delivers the characters of a line
    and a line feed, the line is appended to the buffer without the line feed and the function
    returns 0, after as many turns of the loop as there are characters. *)
Theorem plat_recv_line {E} `{Kernel E} `{DM : DataModel} (strerror : Z -> cstr) (fuel : nat)
    (mpl : mdata_plat) (data : dynstr) (t line : cstr) (timeout_ms : Z) (w : world E) (e' : E) :
  dynstr_rep data t -> good w -> is_cstr line -> LF ∉ line -> Zlen t + Zlen line + 1 <= DYN_MAX ->
  delivers mpl (w_env w) (line ++ [LF]) e' -> (length line < fuel)%nat ->
  wp (Sunos.recv_loop strerror fuel mpl data timeout_ms) (fun '(r, data') w' =>
    r = 0 /\ dynstr_rep data' (t ++ line) /\ w_env w' = e') w.
Proof.
  revert fuel data t timeout_ms w. induction line as [|c line IH];
    intros fuel data t timeout_ms w Hrep Hg Hc Hlf Hmax Hd Hf; (destruct fuel as [|fuel]; [cbn in Hf; lia|]).
  - eapply (recv_turn _ _ _ _ _ LF); [exact Hrep|done|by_decide|zlen|exact Hd| |done].
    intros _ w' _ He. by rewrite app_nil_r.
  - apply is_cstr_cons in Hc as [Hc Hline]. apply not_elem_of_cons in Hlf as [Hne Hlf].
    rewrite Zlen_cons in Hmax. pose proof (Zlen_nonneg line).
    apply (delivers_cons_inv mpl c (line ++ [LF])) in Hd as (e1 & Hd1 & Hd).
    eapply recv_turn; [exact Hrep|done|apply (is_cstr_snoc []); [apply is_cstr_nil|done]|lia|exact Hd1|done|].
    intros _ data1 w1 Hrep1 Hg1 He1. rewrite (cons_middle c t line), app_assoc.
    apply IH; [done|done|done|done|rewrite Zlen_app; change (Zlen [c]) with 1; lia|by rewrite He1|cbn in Hf; lia].
Qed.

(** A kernel whose connection delivers a string, one character a call. *)
#[local] Instance script_kernel : Kernel (list char) := fun name _ e =>
  if String.eqb name "port_get" then (SysRet 0 0 [] [Sunos.POLLIN], e)
  else if String.eqb name "read" then (SysRet (Z.min 1 (Zlen e)) 0 (take 1 e) [], drop 1 e)
  else (SysRet 0 0 [] [], e).

Lemma script_delivers mpl s rest : delivers mpl (s ++ rest) s rest.
Proof.
  induction s as [|c s IH]; [constructor|]. cbn [app]. econstructor; [by do 2 eexists|by eexists| |exact IH].
  exists 0, []. unfold sys_step, script_kernel. cbn -[Z.min]. rewrite Zlen_cons. pose proof (Zlen_nonneg (s ++ rest)).
  by rewrite Z.min_l by lia.
Qed.

Lemma plat_recv_line_witness :
  wp (Sunos.recv_loop (DM := ILP32) (fun _ => []) 20 (MdataPlat 3 4) (Dynstr 0 0 None) 6000) (fun '(r, data') w' =>
    r = 0 /\ dynstr_rep data' ([] ++ cs "NOTFOUND") /\ w_env w' = cs "more")
   (World 0 [] [] (cs "NOTFOUND" ++ [LF] ++ cs "more")).
Proof.
  apply (plat_recv_line (DM := ILP32) (fun _ => []) 20 (MdataPlat 3 4) (Dynstr 0 0 None) [] (cs "NOTFOUND") 6000
    (World 0 [] [] (cs "NOTFOUND" ++ [LF] ++ cs "more"))).
  - apply dynstr_rep_new.
  - split; constructor.
  - by_decide.
  - by_decide.
  - by vm_compute.
  - cbn [w_env]. rewrite app_assoc. apply script_delivers.
  - cbn. lia.
Defined.

(** The timeout of [plat_recv] covers the first character only.  With a timeout of a whole
    number of seconds, as every caller gives, the call of [port_get] after the first character
    waits for no time: a host that has not yet sent the next one makes the call fail, and the
    part of the line received so far with it. *)
Theorem plat_recv_timeout_spent {E} `{Kernel E} `{DM : DataModel} (strerror : Z -> cstr) (fuel : nat)
    (mpl : mdata_plat) (data : dynstr) (t : cstr) (c : char) (secs : Z) (w : world E) (e1 e2 e3 : E) :
  dynstr_rep data t -> good w -> is_cstr [c] -> c <> LF -> Zlen t + 1 <= DYN_MAX -> 0 <= secs ->
  delivers mpl (w_env w) [c] e1 ->
  answers "port_associate" [AZ (mpl_port mpl); AZ (mpl_conn mpl)] e1 0 [] e2 ->
  sys_step "port_get" [AZ (mpl_port mpl); AZ 0; AZ 0] e2 = (SysRet (-1) ETIME [] [], e3) ->
  wp (Sunos.recv_loop strerror (S (S fuel)) mpl data (secs * 1000)) (fun '(r, data') w' =>
    r = -1 /\ dynstr_rep data' (t ++ [c]) /\ w_env w' = e3) w.
Proof.
  intros Hrep Hg Hc Hne Hmax Hsecs Hd (er1 & vals1 & Hassoc) Hget.
  eapply recv_turn; [exact Hrep|done|done|done|exact Hd|done|].
  intros _ data1 w1 Hrep1 Hg1 He1. rewrite Z.quot_mul, Z.sub_diag by lia. cbn [Sunos.recv_loop]. subst e1.
  apply wp_bind. eapply wp_sys; [exact Hassoc|].
  cbn [sr_ret sr_errno]. change (negb (0 =? 0)) with false. cbn beta iota zeta. change (0 =? -1) with false. cbn beta iota.
  apply wp_bind. eapply wp_syscall; [exact Hget|]. cbn [sr_ret sr_errno]. change (-1 =? -1) with true. cbn beta iota.
  wp_steps. change (ETIME =? ETIME) with true. cbn beta iota. wp_steps. done.
Qed.

Lemma plat_recv_timeout_spent_witness :
  let K : Kernel (list char) := fun name args e =>
    if String.eqb name "port_get" && bool_decide (e = []) then (SysRet (-1) ETIME [] [], e)
    else script_kernel name args e in
  wp (@Sunos.recv_loop _ K ILP32 (fun _ => []) 5 (MdataPlat 3 4) (Dynstr 0 0 None) (45 * 1000)) (fun '(r, data') w' =>
    r = -1 /\ dynstr_rep data' ([] ++ cs "S") /\ w_env w' = []) (World 0 [] [] (cs "S")).
Proof.
  intros K.
  apply (@plat_recv_timeout_spent _ K ILP32 (fun _ => []) 3 (MdataPlat 3 4) (Dynstr 0 0 None) [] "S"%char 45
    (World 0 [] [] (cs "S")) [] [] []).
  - apply dynstr_rep_new.
  - split; constructor.
  - by_decide.
  - done.
  - by vm_compute.
  - done.
  - cbn [w_env]. econstructor; [by do 2 eexists|by eexists|by do 2 eexists|constructor].
  - by do 2 eexists.
  - done.
Defined.
