(* ===== verification/Proto.v ===== *)
(** * Proto: the metadata protocol, [mdata-client/proto.c]

    The protocol runs over a [Platform] and a source of request identifiers ([Ident], what
    [reqid.h] promises).  The command structure lives in the caller's frame and is shared through
    [mdp_command]: here it is held there.  The functions that retry are given [fuel]. *)
From Stdlib Require Import Lia.
From S2P Require Import Prelude Custr Dynstr Strset Sys Cnum Reqid Base64 Crc32 Plat.

Definition RECV_TIMEOUT_MS : Z := 6000.
Definition RECV_TIMEOUT_MS_V2 : Z := 45000.

Inductive mdata_response :=
  MDR_UNKNOWN | MDR_NOTFOUND | MDR_SUCCESS | MDR_INVALID_COMMAND | MDR_PENDING | MDR_V2_OK.

#[export] Instance mdata_response_eq_dec : EqDecision mdata_response.
Proof. solve_decision. Defined.

Inductive mdata_proto_state :=
  MDPS_MESSAGE_HEADER | MDPS_MESSAGE_DATA | MDPS_MESSAGE_V2 | MDPS_READY | MDPS_ERROR.

#[export] Instance mdata_proto_state_eq_dec : EqDecision mdata_proto_state.
Proof. solve_decision. Defined.

Inductive mdata_proto_version := MDPV_VERSION_1 | MDPV_VERSION_2.

Record mdata_command := MdataCommand {
  mdc_reqid : cstr;
  mdc_request : dynstr;
  mdc_response_data : dynstr;
  mdc_response : mdata_response;
  mdc_done : bool
}.

(** What [reqid.c] promises: an identifier of eight hexadecimal digits. *)
Class Ident (E : Type) := {
  ident_init : C E ();
  ident : C E cstr
}.

Section types.
Context {E : Type} `{Platform E}.

Record mdata_proto := MdataProto {
  mdp_plat : option plat;
  mdp_command : option mdata_command;
  mdp_state : mdata_proto_state;
  mdp_version : mdata_proto_version;
  mdp_in_reset : bool;
  mdp_errmsg : option cstr;
  mdp_parse_errmsg : option cstr
}.

Definition set_plat (m : mdata_proto) x := MdataProto x (mdp_command m) (mdp_state m) (mdp_version m) (mdp_in_reset m) (mdp_errmsg m) (mdp_parse_errmsg m).
Definition set_command (m : mdata_proto) x := MdataProto (mdp_plat m) x (mdp_state m) (mdp_version m) (mdp_in_reset m) (mdp_errmsg m) (mdp_parse_errmsg m).
Definition set_state (m : mdata_proto) x := MdataProto (mdp_plat m) (mdp_command m) x (mdp_version m) (mdp_in_reset m) (mdp_errmsg m) (mdp_parse_errmsg m).
Definition set_version (m : mdata_proto) x := MdataProto (mdp_plat m) (mdp_command m) (mdp_state m) x (mdp_in_reset m) (mdp_errmsg m) (mdp_parse_errmsg m).
Definition set_in_reset (m : mdata_proto) x := MdataProto (mdp_plat m) (mdp_command m) (mdp_state m) (mdp_version m) x (mdp_errmsg m) (mdp_parse_errmsg m).
Definition set_errmsg (m : mdata_proto) x := MdataProto (mdp_plat m) (mdp_command m) (mdp_state m) (mdp_version m) (mdp_in_reset m) x (mdp_parse_errmsg m).
Definition set_parse_errmsg (m : mdata_proto) x := MdataProto (mdp_plat m) (mdp_command m) (mdp_state m) (mdp_version m) (mdp_in_reset m) (mdp_errmsg m) x.
End types.

Definition set_data (c : mdata_command) d := MdataCommand (mdc_reqid c) (mdc_request c) d (mdc_response c) (mdc_done c).
Definition set_response (c : mdata_command) r := MdataCommand (mdc_reqid c) (mdc_request c) (mdc_response_data c) r (mdc_done c).
Definition set_done (c : mdata_command) := MdataCommand (mdc_reqid c) (mdc_request c) (mdc_response_data c) (mdc_response c) true.
Definition set_request (c : mdata_command) id r := MdataCommand id r (mdc_response_data c) (mdc_response c) (mdc_done c).

Section proto.
Context {E : Type} `{Platform E} `{Ident E} `{DM : DataModel}.
(** [sleep] of unistd.h *)
Context (sleep : Z -> C E ()).

(** [while ( *endp == ' ') endp++;] *)
Fixpoint skip_blanks (s : cstr) : cstr :=
  match s with c :: s' => if Ascii.eqb c " "%char then skip_blanks s' else s | [] => [] end.

(** [while ( *endp != ' ' && *endp != '\0') dynstr_appendc(d, *endp++);] *)
Fixpoint append_word (s : cstr) (d : dynstr) : C E (dynstr * cstr) :=
  match s with
  | [] => mret (d, [])
  | c :: s' => if Ascii.eqb c " "%char then mret (d, s) else d ← dynstr_appendc d c; append_word s' d
  end.

(** [strstr(s, p) == s] *)
Definition starts_with (p s : cstr) : bool := bool_decide (take (length p) s = p).

(** What [proto_parse_v2] fills in. *)
Record v2_parts := V2Parts { v2_request_id : dynstr; v2_command : dynstr; v2_response_data : dynstr }.

(** The result, the error message and the parts. *)
Definition proto_parse_v2 (input : dynstr) (parts : v2_parts) : C E (Z * option cstr * v2_parts) :=
  endp ← c_access (dynstr_cstr input);
  if negb (starts_with (cs "V2 ") endp) then mret (-1, Some (cs "message did not start with V2"), parts) else
  let endp := drop 3 endp in
  let '(clen, _, endp) := strtoul 10 endp in
  if clen =? 0 then mret (-1, Some (cs "invalid content length"), parts) else
  let endp := skip_blanks endp in
  let '(v, _, endp) := strtoul 16 endp in
  let crc32 := u32 v in
  if crc32 =? 0 then mret (-1, Some (cs "invalid crc32 in frame"), parts) else
  let endp := skip_blanks endp in
  mismatch ← (if negb (Zlen endp =? clen) then mret true
              else c ← c_access (crc32_calc endp clen); mret (negb (c =? crc32)));
  if mismatch : bool then mret (-1, Some (cs "clen/crc32 mismatch"), parts) else
  '(request_id, endp) ← append_word endp (v2_request_id parts);
  let parts := V2Parts request_id (v2_command parts) (v2_response_data parts) in
  if dynstr_len request_id =? 0 then mret (-1, Some (cs "missing request id"), parts) else
  let endp := skip_blanks endp in
  '(command, endp) ← append_word endp (v2_command parts);
  let parts := V2Parts request_id command (v2_response_data parts) in
  if dynstr_len command =? 0 then mret (-1, Some (cs "missing command/code"), parts) else
  let endp := skip_blanks endp in
  '(r, data) ← base64_decode endp (Zlen endp) (v2_response_data parts);
  let parts := V2Parts request_id command data in
  if r =? -1 then mret (-1, Some (cs "base64 error"), parts) else mret (0, None, parts).

(** [strcmp(dynstr_cstr(d), s) == 0] *)
Definition dyn_is (d : dynstr) (s : cstr) : C E bool := t ← c_access (dynstr_cstr d); mret (strcmp t s =? 0).

(** The response a code of version 2 stands for. *)
Definition v2_response (code : cstr) : mdata_response :=
  if strcmp code (cs "NOTFOUND") =? 0 then MDR_NOTFOUND
  else if strcmp code (cs "SUCCESS") =? 0 then MDR_SUCCESS else MDR_UNKNOWN.

Definition process_v2 (mdp : mdata_proto) (cmd : mdata_command) (input : dynstr) : C E mdata_proto :=
  command ← dynstr_new;
  request_id ← dynstr_new;
  data ← dynstr_reset (mdc_response_data cmd);
  '(r, msg, parts) ← proto_parse_v2 input (V2Parts request_id command data);
  let mdp := set_parse_errmsg mdp msg in
  let cmd := set_data cmd (v2_response_data parts) in
  if r =? -1 then mret (set_command mdp (Some cmd)) else
  mine ← dyn_is (v2_request_id parts) (mdc_reqid cmd);
  if negb mine then mret (set_command mdp (Some cmd)) else
  code ← c_access (dynstr_cstr (v2_command parts));
  mret (set_state (set_command mdp (Some (set_done (set_response cmd (v2_response code))))) MDPS_READY).

Definition process_header (mdp : mdata_proto) (cmd : mdata_command) (cstr : cstr) : C E mdata_proto :=
  if strcmp cstr (cs "NOTFOUND") =? 0
  then mret (set_state (set_command mdp (Some (set_done (set_response cmd MDR_NOTFOUND)))) MDPS_READY)
  else if strcmp cstr (cs "SUCCESS") =? 0
  then mret (set_state (set_command mdp (Some (set_response cmd MDR_SUCCESS))) MDPS_MESSAGE_DATA)
  else if strcmp cstr (cs "V2_OK") =? 0
  then mret (set_state (set_command mdp (Some (set_done (set_response cmd MDR_V2_OK)))) MDPS_READY)
  else if strcmp cstr (cs "invalid command") =? 0
  then mret (set_state (set_command mdp (Some (set_done (set_response cmd MDR_INVALID_COMMAND)))) MDPS_READY)
  else
    data ← dynstr_append (mdc_response_data cmd) cstr;
    mret (set_state (set_command mdp (Some (set_done (set_response (set_data cmd data) MDR_UNKNOWN)))) MDPS_READY).

Definition process_data (mdp : mdata_proto) (cmd : mdata_command) (cstr : cstr) : C E mdata_proto :=
  if strcmp cstr (cs ".") =? 0
  then mret (set_state (set_command mdp (Some (set_done cmd))) MDPS_READY)
  else
    let offs := match cstr with c :: _ => if Ascii.eqb c "."%char then 1%nat else 0%nat | [] => 0%nat end in
    data ← (if 0 <? dynstr_len (mdc_response_data cmd) then dynstr_append (mdc_response_data cmd) [LF]
            else mret (mdc_response_data cmd));
    data ← dynstr_append data (drop offs cstr);
    mret (set_command mdp (Some (set_data cmd data))).

Definition process_input (mdp : mdata_proto) (input : dynstr) : C E mdata_proto :=
  match mdp_state mdp with
  | MDPS_MESSAGE_V2 => cmd ← c_access (mdp_command mdp); process_v2 mdp cmd input
  | MDPS_MESSAGE_HEADER =>
      s ← c_access (dynstr_cstr input); cmd ← c_access (mdp_command mdp); process_header mdp cmd s
  | MDPS_MESSAGE_DATA =>
      s ← c_access (dynstr_cstr input); cmd ← c_access (mdp_command mdp); process_data mdp cmd s
  | MDPS_READY | MDPS_ERROR => mret mdp
  end.

Definition proto_send (mdp : mdata_proto) : C E (Z * mdata_proto) :=
  VERIFY (match mdp_command mdp with Some _ => true | None => false end) ;;
  cmd ← c_access (mdp_command mdp);
  p ← c_access (mdp_plat mdp);
  r ← plat_send p (mdc_request cmd);
  if r =? -1 then mret (-1, set_state mdp MDPS_ERROR)
  else mret (0, set_state mdp (match mdp_version mdp with
                               | MDPV_VERSION_1 => MDPS_MESSAGE_HEADER
                               | MDPV_VERSION_2 => MDPS_MESSAGE_V2
                               end)).

(** The loop of [proto_recv]; [fuel] bounds the number of lines received. *)
Fixpoint recv_lines (fuel : nat) (mdp : mdata_proto) (line : dynstr) : C E (Z * mdata_proto) :=
  match fuel with
  | O => c_undefined
  | S fuel =>
      let recv_timeout_ms := match mdp_version mdp with
                             | MDPV_VERSION_2 => RECV_TIMEOUT_MS_V2
                             | MDPV_VERSION_1 => RECV_TIMEOUT_MS
                             end in
      p ← c_access (mdp_plat mdp);
      '(r, line) ← plat_recv p line recv_timeout_ms;
      if r =? -1 then mret (-1, set_state mdp MDPS_ERROR) else
      mdp ← process_input mdp line;
      line ← dynstr_reset line;
      cmd ← c_access (mdp_command mdp);
      if mdc_done cmd then mret (0, mdp) else recv_lines fuel mdp line
  end.

Definition proto_recv (fuel : nat) (mdp : mdata_proto) : C E (Z * mdata_proto) :=
  line ← dynstr_new; recv_lines fuel mdp line.

Definition proto_make_request_v2 (command : cstr) (argument : option cstr) (output : dynstr)
  : C E (cstr * dynstr) :=
  body ← dynstr_new;
  reqidbuf ← ident;
  body ← dynstr_append body reqidbuf;
  body ← dynstr_append body [" "%char];
  body ← dynstr_append body command;
  body ← match argument with
         | None => mret body
         | Some argument => body ← dynstr_append body [" "%char]; base64_encode argument (Zlen argument) body
         end;
  output ← dynstr_append output (cs "V2 ");
  text ← c_access (dynstr_cstr body);
  crc ← c_access (crc32_calc text (dynstr_len body));
  let strbuf := print_u (u32 (dynstr_len body)) ++ " "%char :: print_x 8 crc in
  output ← dynstr_append output strbuf;
  output ← dynstr_append output [" "%char];
  output ← dynstr_append output text;
  output ← dynstr_append output [LF];
  mret (reqidbuf, output).

Definition proto_make_request_v1 (command : cstr) (argument : option cstr) (output : dynstr) : C E dynstr :=
  output ← dynstr_append output command;
  output ← match argument with
           | None => mret output
           | Some argument => output ← dynstr_append output [" "%char]; dynstr_append output argument
           end;
  dynstr_append output [LF].

(** The command structure of a new request: [VERIFY0] holds that none is outstanding. *)
Definition begin_command (mdp : mdata_proto) : C E mdata_proto :=
  request ← dynstr_new;
  data ← dynstr_new;
  VERIFY (match mdp_command mdp with None => true | Some _ => false end) ;;
  mret (set_command mdp (Some (MdataCommand [] request data MDR_PENDING false))).

(** From [retry] on: (re-)generate the request, send it and receive the response. *)
Definition attempt (fuel : nat) (mdp : mdata_proto) (command : cstr) (argument : option cstr)
  : C E (Z * mdata_proto) :=
  cmd ← c_access (mdp_command mdp);
  request ← dynstr_reset (mdc_request cmd);
  cmd ← match mdp_version mdp with
        | MDPV_VERSION_1 =>
            request ← proto_make_request_v1 command argument request;
            mret (set_request cmd (mdc_reqid cmd) request)
        | MDPV_VERSION_2 =>
            '(id, request) ← proto_make_request_v2 command argument request;
            mret (set_request cmd id request)
        end;
  let mdp := set_command mdp (Some cmd) in
  if decide (mdp_state mdp = MDPS_ERROR) then mret (-1, mdp) else
  '(r, mdp) ← proto_send mdp;
  if negb (r =? 0) then mret (-1, mdp) else proto_recv fuel mdp.

(** The functions that retry: what [proto_execute] does from [retry] on, what [proto_reset] does
    from its own [retry] on, and [proto_negotiate]. *)
Fixpoint execute_retry (fuel : nat) (mdp : mdata_proto) (command : cstr) (argument : option cstr)
  : C E (Z * option (mdata_response * dynstr) * mdata_proto) :=
  match fuel with
  | O => c_undefined
  | S fuel =>
      '(r, mdp) ← attempt fuel mdp command argument;
      if negb (r =? 0) then
        cmd ← c_access (mdp_command mdp);
        data ← dynstr_reset (mdc_response_data cmd);
        let mdp := set_command mdp (Some (set_response (set_data cmd data) MDR_PENDING)) in
        if mdp_in_reset mdp then mret (-1, None, set_command mdp None) else
        '(r, mdp) ← reset_retry fuel (set_in_reset mdp true) 0;
        if r =? -1 then mret (-1, None, set_command mdp None)
        else execute_retry fuel mdp command argument
      else
        if negb (bool_decide (mdp_state mdp = MDPS_READY)) then c_abort else
        cmd ← c_access (mdp_command mdp);
        mret (0, Some (mdc_response cmd, mdc_response_data cmd), set_command mdp None)
  end
with reset_retry (fuel : nat) (mdp : mdata_proto) (permfail : Z) : C E (Z * mdata_proto) :=
  match fuel with
  | O => c_undefined
  | S fuel =>
      let mdp := set_errmsg mdp None in
      mdp ← match mdp_plat mdp with
            | Some p => plat_fini p ;; mret (set_plat mdp None)
            | None => mret mdp
            end;
      let mdp := set_state mdp MDPS_READY in
      '(r, p, msg, permfail) ← plat_init permfail;
      let mdp := set_errmsg (match p with Some _ => set_plat mdp p | None => mdp end) msg in
      if r =? -1 then
        if negb (permfail =? 0) then mret (-1, mdp) else sleep 1 ;; reset_retry fuel mdp permfail
      else
        '(r, mdp) ← proto_negotiate fuel mdp;
        if r =? -1 then sleep 1 ;; reset_retry fuel mdp permfail
        else mret (0, set_errmsg (set_in_reset mdp false) None)
  end
with proto_negotiate (fuel : nat) (mdp : mdata_proto) : C E (Z * mdata_proto) :=
  match fuel with
  | O => c_undefined
  | S fuel =>
      let mdcsave := mdp_command mdp in
      let mdp := set_version (set_command mdp None) MDPV_VERSION_1 in
      mdp ← begin_command mdp;
      '(r, resp, mdp) ← execute_retry fuel mdp (cs "NEGOTIATE") (Some (cs "V2"));
      let '(ret, mdp) :=
        if r =? 0 then
          (0, match resp with
              | Some (MDR_V2_OK, _) => set_version mdp MDPV_VERSION_2
              | _ => mdp
              end)
        else (-1, mdp) in
      mret (ret, set_command mdp mdcsave)
  end.

Definition proto_execute (fuel : nat) (mdp : mdata_proto) (command : cstr) (argument : option cstr)
  : C E (Z * option (mdata_response * dynstr) * mdata_proto) :=
  mdp ← begin_command mdp; execute_retry fuel mdp command argument.

Definition proto_reset (fuel : nat) (mdp : mdata_proto) : C E (Z * mdata_proto) :=
  reset_retry fuel (set_in_reset mdp true) 0.

Definition proto_version (mdp : mdata_proto) : Z :=
  match mdp_version mdp with MDPV_VERSION_1 => 1 | MDPV_VERSION_2 => 2 end.

(** [calloc] leaves a state and a version that are no member of their enumerations;
    [proto_reset] sets both before they are read. *)
Definition proto_init (fuel : nat) : C E (Z * option mdata_proto * option cstr) :=
  ident_init ;;
  m ← malloc (7 * ptr_bytes);
  match m with
  | None => mret (-1, None, None)
  | Some _ =>
      '(r, mdp) ← proto_reset fuel (MdataProto None None MDPS_READY MDPV_VERSION_1 false None None);
      if r =? -1 then mret (-1, None, mdp_errmsg mdp) else mret (0, Some mdp, None)
  end.
End proto.

(** ** Frames of version 2 *)

Definition v2_body (id code : cstr) (payload : option cstr) : cstr :=
  id ++ " "%char :: code ++ match payload with None => [] | Some p => " "%char :: b64 p end.

Definition v2_frame (body : cstr) : cstr :=
  cs "V2 " ++ print_u (Zlen body) ++ " "%char :: print_x 8 (crc32 body) ++ " "%char :: body.

(** A word of the protocol: no blank, line feed or NUL in it. *)
Definition is_word (s : cstr) : Prop := s <> [] /\ is_cstr s /\ " "%char ∉ s /\ LF ∉ s.

#[export] Instance is_word_dec s : Decision (is_word s).
Proof. unfold is_word. apply _. Defined.

Section proto_facts.
Context {E : Type} `{DM : DataModel}.
Implicit Types (w : world E).

(** A computation that returns leaves the heap usable and the environment alone. *)
Lemma append_word_spec s rest d t (Q : dynstr * cstr -> world E -> Prop) w :
  " "%char ∉ s -> match rest with [] => True | c :: _ => c = " "%char end ->
  dynstr_rep d t -> good w -> Zlen t + Zlen s <= DYN_MAX ->
  (forall d' w', frame w w' -> dynstr_rep d' (t ++ s) -> Q (d', rest) w') ->
  wp (append_word (s ++ rest) d) Q w.
Proof.
  revert d t w. induction s as [|c s IH]; intros d t w Hs Hrest Hrep Hg Hmax HQ.
  - cbn [app]. destruct rest as [|r rest]; cbn [append_word].
    + apply wp_ret, HQ; [done|by rewrite app_nil_r].
    + rewrite Hrest, Ascii.eqb_refl. apply wp_ret. rewrite <-Hrest. apply HQ; [done|by rewrite app_nil_r].
  - apply not_elem_of_cons in Hs as [Hc Hs]. cbn [app append_word].
    rewrite (proj2 (Ascii.eqb_neq _ _)) by done. rewrite Zlen_cons in Hmax. pose proof (Zlen_nonneg s).
    apply wp_bind. eapply dynstr_appendc_spec; [exact Hrep|done|lia|]. intros d1 w1 Hw1 Hrep1 _.
    eapply IH; [done|done|exact Hrep1|by eauto using good_frame|rewrite Zlen_app; change (Zlen [c]) with 1; lia|].
    intros d2 w2 Hw2 Hrep2. apply HQ; [by etrans|]. by rewrite (cons_middle c t s), app_assoc.
Qed.

Lemma skip_blanks_word c s : c <> " "%char -> skip_blanks (c :: s) = c :: s.
Proof. intros Hc. cbn [skip_blanks]. by rewrite (proj2 (Ascii.eqb_neq _ _)). Qed.

Lemma skip_blanks_free s : " "%char ∉ s -> skip_blanks s = s.
Proof. destruct s as [|c s]; [done|]. intros [? _]%not_elem_of_cons. by apply skip_blanks_word. Qed.

Lemma print_x_free k n (c : char) : 0 <= n -> is_digit_in 16 c = false -> c ∉ print_x k n.
Proof. intros Hn Hc. eapply digits_free; [|exact Hc]. apply pad0_digits; [lia|]. apply print_base_digits; lia. Qed.

Lemma print_u_free n (c : char) : 0 <= n -> is_digit_in 10 c = false -> c ∉ print_u n.
Proof. intros Hn Hc. eapply digits_free; [|exact Hc]. apply print_base_digits; lia. Qed.

Lemma starts_with_app p s : starts_with p (p ++ s) = true.
Proof. unfold starts_with. rewrite take_app_length. by apply bool_decide_eq_true_2. Qed.

(** What the header of a frame says is read back. *)
Lemma frame_header body :
  Zlen body <= UINT_MAX ->
  strtoul 10 (drop 3 (v2_frame body))
  = (Zlen body, false, " "%char :: print_x 8 (crc32 body) ++ " "%char :: body) /\
  strtoul 16 (print_x 8 (crc32 body) ++ " "%char :: body) = (crc32 body, false, " "%char :: body).
Proof.
  intros Hlen. pose proof (Zlen_nonneg body). pose proof (crc32_range body). split.
  - unfold v2_frame. change (drop 3 (cs "V2 " ++ ?x)) with x. unfold print_u. rewrite print_pad0.
    by rewrite strtoul_print by (done || lia).
  - by apply strtoul_print.
Qed.

(** The parts of the body of a frame. *)
Lemma parse_v2_frame input id code payload parts w (Q : Z * option cstr * v2_parts -> world E -> Prop) :
  let body := v2_body id code (Some payload) in
  is_word id -> is_word code -> is_cstr payload -> crc32 body <> 0 ->
  dynstr_cstr input = Some (v2_frame body) ->
  dynstr_rep (v2_request_id parts) [] -> dynstr_rep (v2_command parts) [] -> dynstr_rep (v2_response_data parts) [] ->
  good w -> Zlen body <= DYN_MAX ->
  (forall parts' w', frame w w' -> dynstr_rep (v2_request_id parts') id -> dynstr_rep (v2_command parts') code ->
     dynstr_rep (v2_response_data parts') payload -> str_data (v2_response_data parts') <> None ->
     Q (0, None, parts') w') ->
  wp (proto_parse_v2 input parts) Q w.
Proof.
  intros body (Hid & Hidc & Hids & _) (Hcode & Hcodec & Hcodes & _) Hpay Hcrc Hin Hr1 Hr2 Hr3 Hg Hmax HQ.
  unfold proto_parse_v2. apply wp_bind. eapply wp_access; [exact Hin|].
  assert (starts_with (cs "V2 ") (v2_frame body) = true) as -> by apply starts_with_app. cbn [negb].
  destruct (frame_header body) as [Hh1 Hh2]; [unfold UINT_MAX, DYN_MAX in *; lia|]. rewrite Hh1.
  assert (Hbl : Zlen body = Zlen id + 1 + Zlen code + 1 + Zlen (b64 payload)).
  { unfold body, v2_body. rewrite Zlen_app, Zlen_cons, Zlen_app, Zlen_cons. lia. }
  pose proof (Zlen_nonneg id). pose proof (Zlen_nonneg code). pose proof (Zlen_nonneg (b64 payload)).
  destruct (Z.eqb_spec (Zlen body) 0); [lia|].
  assert (Hsb : skip_blanks (" "%char :: print_x 8 (crc32 body) ++ " "%char :: body)
                = print_x 8 (crc32 body) ++ " "%char :: body).
  { cbn [skip_blanks]. rewrite Ascii.eqb_refl. pose proof (crc32_range body).
    pose proof (print_x_free 8 (crc32 body) " "%char ltac:(lia) eq_refl) as Hf.
    assert (Hne : print_x 8 (crc32 body) <> []) by (apply pad0_nonnil, print_base_nonnil; lia).
    destruct (print_x 8 (crc32 body)) as [|c s]; [done|]. apply not_elem_of_cons in Hf as [Hf _].
    by apply skip_blanks_word. }
  rewrite Hsb, Hh2, u32_small by apply crc32_range. destruct (Z.eqb_spec (crc32 body) 0); [done|].
  assert (Hsb2 : skip_blanks (" "%char :: body) = body).
  { cbn [skip_blanks]. rewrite Ascii.eqb_refl. unfold body, v2_body. destruct id as [|c id]; [done|].
    apply not_elem_of_cons in Hids as [Hc _]. by apply skip_blanks_word. }
  rewrite Hsb2. destruct (Z.eqb_spec (Zlen body) (Zlen body)); [|done]. cbn [negb].
  apply wp_bind, wp_bind. eapply wp_access; [apply crc32_calc_crc32; unfold UINT_MAX, DYN_MAX in *; lia|]. apply wp_ret. rewrite Z.eqb_refl. cbn [negb].
  apply wp_bind. unfold body at 1, v2_body. eapply append_word_spec; [done|done|exact Hr1|done|rewrite Zlen_nil; lia|].
  cbn [app]. intros d1 w1 Hw1 Hd1. cbn beta iota zeta.
  assert (Hne : forall d s, dynstr_rep d s -> s <> [] -> dynstr_len d =? 0 = false).
  { intros d s Hd Hs. rewrite (dynstr_rep_len _ _ Hd). apply Z.eqb_neq. destruct s; [done|]. rewrite Zlen_cons. pose proof (Zlen_nonneg s). lia. }
  rewrite (Hne _ _ Hd1 Hid).
  assert (skip_blanks (" "%char :: code ++ " "%char :: b64 payload) = code ++ " "%char :: b64 payload) as ->.
  { cbn [skip_blanks]. rewrite Ascii.eqb_refl. destruct code as [|c code]; [done|].
    apply not_elem_of_cons in Hcodes as [Hc _]. by apply skip_blanks_word. }
  apply wp_bind. eapply append_word_spec; [done|done|exact Hr2|by eauto using good_frame|rewrite Zlen_nil; lia|].
  cbn [app]. intros d2 w2 Hw2 Hd2. cbn beta iota zeta. rewrite (Hne _ _ Hd2 Hcode).
  assert (skip_blanks (" "%char :: b64 payload) = b64 payload) as ->.
  { cbn [skip_blanks]. rewrite Ascii.eqb_refl. apply skip_blanks_free, b64_no_space. }
  apply wp_bind. eapply wp_mono.
  - apply base64_decode_spec; [exact Hr3|by eauto using good_frame|lia|rewrite Zlen_nil; lia].
  - rewrite b64_roundtrip by done. intros [r d3] w3 (Hw3 & _ & -> & Hd3 & Hnn). cbn beta iota zeta.
    change (0 =? -1) with false. cbn beta iota. apply wp_ret, HQ; [etrans; [exact Hw1|]; etrans; [exact Hw2|exact Hw3]|exact Hd1|exact Hd2|exact Hd3|exact Hnn].
Qed.
End proto_facts.

(** ** Requests *)

Definition v2_request (id command : cstr) (argument : option cstr) : cstr :=
  v2_frame (v2_body id command argument) ++ [LF].

Section request_facts.
Context {E : Type} `{Ident E} `{DM : DataModel}.
Implicit Types (w : world E).

(** One more append to a string that owns its block, or of a text that fits a fresh one. *)
Lemma append_then {A} d t s (k : dynstr -> C E A) Q w :
  dynstr_rep d t -> is_cstr s -> dyn_fits d s -> good w -> Zlen t + Zlen s <= DYN_MAX ->
  (forall d' w', frame w w' -> good w' -> dynstr_rep d' (t ++ s) -> str_data d' <> None -> wp (k d') Q w') ->
  wp (dynstr_append d s ≫= k) Q w.
Proof.
  intros. apply wp_bind. eapply dynstr_append_spec; [done..|]. intros d' w' Hw' ??. eauto using good_frame.
Qed.

Lemma print_x8_length n : 0 <= n <= UINT_MAX -> Zlen (print_x 8 n) = 8.
Proof. intros Hn. destruct (print_x_reqid n Hn) as [Hl _]. unfold Zlen. by rewrite Hl. Qed.

(** [proto_make_request_v2] writes a frame whose header fits its body. *)
Lemma make_request_v2_spec command argument output (P : cstr -> world E -> Prop) (Q : cstr * dynstr -> world E -> Prop) w :
  is_cstr command -> is_cstr (default [] argument) -> dynstr_rep output [] -> good w ->
  Zlen command + 2 * Zlen (default [] argument) + 100 <= DYN_MAX ->
  (forall w', frame w w' -> wp ident (fun id w2 => is_reqid id /\ good w2 /\ P id w2) w') ->
  (forall id output' w1 w2, is_reqid id -> P id w1 -> frame w1 w2 -> good w2 ->
     dynstr_rep output' (v2_request id command argument) -> Q (id, output') w2) ->
  wp (proto_make_request_v2 command argument output) Q w.
Proof.
  intros Hcmd Harg Hout Hg Hmax Hident HQ. unfold proto_make_request_v2.
  pose proof (Zlen_nonneg command). pose proof (Zlen_nonneg (default [] argument)).
  apply wp_bind, dynstr_new_spec; [done|]. intros w1 Hw1.
  apply wp_bind. eapply wp_mono; [by apply Hident|]. intros id w2 (Hid & Hg2 & HP).
  assert (Hidl : Zlen id = 8) by (unfold Zlen; by rewrite (proj1 Hid)).
  pose proof (is_reqid_cstr _ Hid) as Hidc.
  eapply append_then; [apply dynstr_rep_new|done|right; rewrite Hidl; by vm_compute|done|rewrite Zlen_nil; unfold DYN_MAX; lia|].
  intros d3 w3 Hw3 Hg3 Hd3 Hn3. cbn [app] in Hd3.
  eapply append_then; [exact Hd3|by_decide|by left|done|change (Zlen [_]) with 1; unfold DYN_MAX; lia|].
  intros d4 w4 Hw4 Hg4 Hd4 Hn4.
  eapply append_then; [exact Hd4|done|by left|done|rewrite Zlen_app; change (Zlen [_]) with 1; unfold DYN_MAX in *; lia|].
  intros d5 w5 Hw5 Hg5 Hd5 Hn5. rewrite <-app_assoc in Hd5.
  apply wp_bind. eapply (wp_mono _ (fun d w' => frame w5 w' /\ dynstr_rep d (v2_body id command argument))).
  { unfold v2_body. destruct argument as [a|].
    - eapply append_then; [exact Hd5|by_decide|by left|done| |].
      { rewrite !Zlen_app. change (Zlen [_]) with 1. unfold DYN_MAX in *. change (default [] (Some a)) with a in *. lia. }
      intros d6 w6 Hw6 Hg6 Hd6 Hn6. assert (Zlen (b64 a) <= 2 * Zlen a + 4).
      { rewrite b64_length. pose proof (Zlen_nonneg a). dlia. }
      change (default [] (Some a)) with a in *. eapply base64_encode_spec; [exact Hd6|done| |unfold DYN_MAX in *; lia|].
      { rewrite !Zlen_app. change (Zlen [_]) with 1. unfold DYN_MAX in *. lia. }
      intros d7 w7 Hw7 Hd7 _. split; [by etrans|]. by rewrite <-!app_assoc in Hd7.
    - apply wp_ret. split; [done|]. by rewrite app_nil_r. }
  intros d6 w6 [Hw6 Hd6]. pose proof (good_frame _ _ Hw6 Hg5) as Hg6.
  set (body := v2_body id command argument) in *.
  assert (Hbc : is_cstr body).
  { unfold body, v2_body. rewrite is_cstr_app, is_cstr_cons, is_cstr_app. split_and!; [done|done|done|].
    destruct argument; [|apply is_cstr_nil]. apply is_cstr_cons. split; [done|apply b64_cstr]. }
  assert (Hbl : 0 < Zlen body /\ Zlen body <= Zlen command + 2 * Zlen (default [] argument) + 20).
  { unfold body, v2_body. rewrite Zlen_app, Zlen_cons, Zlen_app. destruct argument as [a|]; [change (default [] (Some a)) with a|].
    - rewrite Zlen_cons, b64_length. pose proof (Zlen_nonneg a). dlia.
    - change (Zlen (@nil char)) with 0 in *. lia. }
  assert (Hbne : body <> []) by (intros Hn; rewrite Hn in Hbl; change (Zlen (@nil char)) with 0 in Hbl; lia).
  pose proof (crc32_range body) as Hcrc. pose proof (print_x8_length _ Hcrc) as Hxl.
  pose proof (print_u_length (Zlen body) ltac:(unfold UINT_MAX, DYN_MAX in *; lia)) as Hul.
  assert (Hsc : is_cstr (print_u (Zlen body) ++ " "%char :: print_x 8 (crc32 body))).
  { rewrite is_cstr_app, is_cstr_cons. split_and!; [|done|].
    - eapply (digits_cstr 10), print_base_digits; lia.
    - eapply (digits_cstr 16), pad0_digits; [lia|]. apply print_base_digits; lia. }
  eapply append_then; [exact Hout|by_decide|right; by vm_compute|done|by vm_compute|].
  intros o1 w7 Hw7 Hg7 Ho1 Hn7. apply wp_bind. eapply wp_access.
  { rewrite (dynstr_rep_cstr_nonnil _ _ Hd6), c_text_id by done. done. }
  rewrite (dynstr_rep_len _ _ Hd6). apply wp_bind. eapply wp_access; [apply crc32_calc_crc32; unfold UINT_MAX, DYN_MAX in *; lia|].
  rewrite u32_small by (unfold UINT_MAX, DYN_MAX in *; lia). cbn [app] in Ho1.
  assert (Hlen : Zlen (print_u (Zlen body) ++ " "%char :: print_x 8 (crc32 body)) <= 19)
    by (rewrite Zlen_app, Zlen_cons; lia).
  eapply append_then; [exact Ho1|done|by left|done|unfold DYN_MAX in *; change (Zlen (cs "V2 ")) with 3; lia|].
  intros o2 w8 Hw8 Hg8 Ho2 Hn8.
  eapply append_then; [exact Ho2|by_decide|by left|done| |].
  { rewrite Zlen_app. change (Zlen (cs "V2 ")) with 3. change (Zlen [" "%char]) with 1. unfold DYN_MAX in *. lia. }
  intros o3 w9 Hw9 Hg9 Ho3 Hn9.
  eapply append_then; [exact Ho3|done|by left|done| |].
  { rewrite (Zlen_app (_ ++ _)), (Zlen_app (cs _)). change (Zlen (cs "V2 ")) with 3. change (Zlen [" "%char]) with 1. unfold DYN_MAX in *. lia. }
  intros o4 w10 Hw10 Hg10 Ho4 Hn10.
  eapply append_then; [exact Ho4|by_decide|by left|done| |].
  { rewrite (Zlen_app (_ ++ [" "%char])), (Zlen_app (_ ++ _)), (Zlen_app (cs _)). change (Zlen (cs "V2 ")) with 3.
    change (Zlen [" "%char]) with 1. change (Zlen [LF]) with 1. unfold DYN_MAX in *. lia. }
  intros o5 w11 Hw11 Hg11 Ho5 _. apply wp_ret. eapply HQ; [done|exact HP| |done|].
  - do 8 (etrans; [eassumption|]). done.
  - unfold v2_request, v2_frame. rewrite <-!app_assoc in Ho5. cbn [app] in Ho5 |- *.
    rewrite <-!app_assoc. cbn [app]. rewrite <-!app_assoc. cbn [app]. exact Ho5.
Qed.
End request_facts.

(** ** A request and its response *)

Section execute_facts.
Context {E : Type} `{Platform E} `{Ident E} `{DM : DataModel} (sleep : Z -> C E ()).
Implicit Types (w : world E) (mdp : mdata_proto).

(** The platform hands over the lines [lines], one a call, going from state [e] to [e']. *)
Inductive hands_over (p : plat) : E -> list cstr -> E -> Prop :=
| hands_nil e : hands_over p e [] e
| hands_cons e1 e2 e3 line lines :
    (forall buf timeout_ms w, dynstr_rep buf [] -> good w -> w_env w = e1 ->
       wp (plat_recv p buf timeout_ms) (fun '(r, buf') w' =>
         r = 0 /\ dynstr_rep buf' line /\ (str_data buf <> None -> str_data buf' <> None) /\
         good w' /\ w_env w' = e2) w) ->
    hands_over p e2 lines e3 -> hands_over p e1 (line :: lines) e3.

(** The platform accepts the request [req] and then hands over [lines]. *)
Definition exchange (p : plat) (e : E) (req : cstr) (lines : list cstr) (e' : E) : Prop :=
  exists e1, (forall buf w, dynstr_rep buf req -> good w -> w_env w = e ->
    wp (plat_send p buf) (fun r w' => r = 0 /\ good w' /\ w_env w' = e1) w) /\ hands_over p e1 lines e'.

(** A response frame: its identifier, code and payload. *)
Record response := Response { rs_id : cstr; rs_code : cstr; rs_payload : cstr }.

Definition response_body (r : response) : cstr := v2_body (rs_id r) (rs_code r) (Some (rs_payload r)).
Definition response_frame (r : response) : cstr := v2_frame (response_body r).

Definition response_ok (r : response) : Prop :=
  is_word (rs_id r) /\ is_word (rs_code r) /\ is_cstr (rs_payload r) /\
  crc32 (response_body r) <> 0 /\ Zlen (response_body r) <= 16777216.

Lemma frame_cstr body : is_cstr body -> is_cstr (v2_frame body) /\ v2_frame body <> [].
Proof.
  intros Hb. split; [|done]. unfold v2_frame. pose proof (Zlen_nonneg body). pose proof (crc32_range body).
  rewrite !is_cstr_app, is_cstr_cons, is_cstr_app, is_cstr_cons. split_and!; [by_decide| |done| |done|done].
  - eapply (digits_cstr 10), print_base_digits; lia.
  - eapply (digits_cstr 16), pad0_digits; [lia|]. apply print_base_digits; lia.
Qed.

Lemma body_cstr r : response_ok r -> is_cstr (response_body r).
Proof.
  intros ((_ & Hi & _) & (_ & Hc & _) & Hp & _). unfold response_body, v2_body.
  rewrite is_cstr_app, is_cstr_cons, is_cstr_app, is_cstr_cons. split_and!; try done. apply b64_cstr.
Qed.

(** The command a request waits with. *)
Definition waiting (cmd : mdata_command) (id : cstr) : Prop :=
  mdc_reqid cmd = id /\ mdc_done cmd = false /\ exists t, dynstr_rep (mdc_response_data cmd) t.

Lemma process_v2_spec mdp cmd input r id (Q : mdata_proto -> world E -> Prop) w :
  mdp_state mdp = MDPS_MESSAGE_V2 -> mdp_command mdp = Some cmd -> waiting cmd id -> is_cstr id ->
  dynstr_rep input (response_frame r) -> response_ok r -> good w ->
  (forall cmd' w', frame w w' -> dynstr_rep (mdc_response_data cmd') (rs_payload r) -> str_data (mdc_response_data cmd') <> None ->
     mdc_reqid cmd' = id -> mdc_request cmd' = mdc_request cmd ->
     (rs_id r = id -> mdc_done cmd' = true -> mdc_response cmd' = v2_response (rs_code r) ->
        Q (set_state (set_command (set_parse_errmsg mdp None) (Some cmd')) MDPS_READY) w') /\
     (rs_id r <> id -> mdc_done cmd' = false -> Q (set_command (set_parse_errmsg mdp None) (Some cmd')) w')) ->
  wp (process_input mdp input) Q w.
Proof.
  intros Hst Hcmd (Hid & Hdone & t & Ht) Hidc Hin Hok Hg HQ. unfold process_input. rewrite Hst, Hcmd.
  apply wp_bind. eapply wp_access; [done|]. unfold process_v2.
  apply wp_bind, dynstr_new_spec; [done|]. intros w1 Hw1.
  apply wp_bind, dynstr_new_spec; [by eauto using good_frame|]. intros w2 Hw2.
  apply wp_bind. eapply dynstr_reset_spec; [exact Ht|]. intros data Hdata _ _.
  pose proof (body_cstr r Hok) as Hbc. destruct Hok as (Hwid & Hwc & Hp & Hcrc & Hlen).
  pose proof (good_frame _ _ Hw2 (good_frame _ _ Hw1 Hg)) as Hg2.
  apply wp_bind. eapply (parse_v2_frame input (rs_id r) (rs_code r) (rs_payload r)).
  1-4: done.
  { rewrite (dynstr_rep_cstr_nonnil _ _ Hin) by (by apply frame_cstr). by rewrite c_text_id by (by apply frame_cstr). }
  1-3: (exact Hdata || apply dynstr_rep_new).
  1-2: (done || (unfold DYN_MAX; unfold response_body in Hlen; lia)).
  intros parts w3 Hw3 Hr1 Hr2 Hr3 Hnn. cbn beta iota zeta. change (0 =? -1) with false. cbn beta iota.
  assert (Hw : frame w w3) by (etrans; [exact Hw1|]; etrans; [exact Hw2|exact Hw3]).
  assert (Hcs : forall d s, dynstr_rep d s -> is_word s -> dynstr_cstr d = Some s).
  { intros d s Hd (Hne & Hc & _). by rewrite (dynstr_rep_cstr_nonnil _ _ Hd), c_text_id. }
  apply wp_bind. unfold dyn_is. rewrite (Hcs _ _ Hr1 Hwid). apply wp_bind. eapply wp_access; [done|]. apply wp_ret.
  cbn [mdc_reqid set_data]. rewrite Hid. destruct (Z.eqb_spec (strcmp (rs_id r) id) 0) as [Heq|Hne]; cbn [negb].
  - apply strcmp_eq in Heq. rewrite (Hcs _ _ Hr2 Hwc). apply wp_bind. eapply wp_access; [done|]. apply wp_ret.
    by eapply HQ.
  - apply wp_ret. eapply HQ; [done|done|done|done|done| |done]. intros Heq. apply Hne. by apply strcmp_eq.
Qed.

(** Frames of other requests are dropped; the first one of this request ends the reception. *)
Lemma recv_lines_spec foreign own fuel mdp cmd p id buf e' (Q : Z * mdata_proto -> world E -> Prop) w :
  mdp_state mdp = MDPS_MESSAGE_V2 -> mdp_version mdp = MDPV_VERSION_2 -> mdp_plat mdp = Some p ->
  mdp_command mdp = Some cmd -> waiting cmd id -> is_cstr id -> dynstr_rep buf [] -> good w ->
  Forall (fun r => response_ok r /\ rs_id r <> id) foreign -> response_ok own -> rs_id own = id ->
  hands_over p (w_env w) (response_frame <$> foreign ++ [own]) e' -> (length foreign < fuel)%nat ->
  (forall mdp' cmd' w', good w' -> w_env w' = e' ->
     mdp' = set_state (set_command (set_parse_errmsg mdp None) (Some cmd')) MDPS_READY ->
     mdc_response cmd' = v2_response (rs_code own) -> dynstr_rep (mdc_response_data cmd') (rs_payload own) ->
     str_data (mdc_response_data cmd') <> None -> Q (0, mdp') w') ->
  wp (recv_lines fuel mdp buf) Q w.
Proof.
  revert mdp cmd buf fuel w. induction foreign as [|f foreign IH];
    intros mdp cmd buf fuel w Hst Hver Hp Hcmd Hwait Hidc Hbuf Hg Hfor Hown Hid Hhand Hf HQ;
    (destruct fuel as [|fuel]; [lia|]); cbn [recv_lines]; rewrite Hp, Hver;
    inversion Hhand as [|e1 e2 e3 line lines Hrecv Hrest]; subst;
    (apply wp_bind; eapply wp_access; [done|]); apply wp_bind;
    (eapply wp_mono; [by apply Hrecv|]); intros [r buf1] w1 (-> & Hb1 & _ & Hg1 & He1);
    change (0 =? -1) with false; cbn beta iota; apply wp_bind.
  - eapply process_v2_spec; [done|done|exact Hwait|done|exact Hb1|done|done|].
    intros cmd' w2 Hw2 Hdata Hnn Hrq _. split; [|done]. intros _ Hdone Hresp.
    apply wp_bind. eapply dynstr_reset_spec; [exact Hb1|]. intros buf2 _ _ _.
    apply wp_bind. eapply wp_access; [done|]. rewrite Hdone. apply wp_ret.
    eapply HQ; [by eauto using good_frame| |done|done|done|done].
    rewrite (frame_env _ _ Hw2), He1. by inversion Hrest.
  - apply Forall_cons_1 in Hfor as [[Hok Hne] Hfor].
    eapply process_v2_spec; [done|done|exact Hwait|done|exact Hb1|done|done|].
    intros cmd' w2 Hw2 Hdata Hnn Hrq _. split; [done|]. intros _ Hdone.
    apply wp_bind. eapply dynstr_reset_spec; [exact Hb1|]. intros buf2 Hb2 _ _.
    apply wp_bind. eapply wp_access; [done|]. rewrite Hdone.
    eapply (IH (set_command (set_parse_errmsg mdp None) (Some cmd')) cmd'); try done.
    + split_and!; [done|done|by eexists].
    + by eauto using good_frame.
    + by rewrite (frame_env _ _ Hw2), He1.
    + cbn in Hf. lia.
Qed.

(** ** Data of version 1 *)

(** A data line as the host sends it (a leading dot is doubled), and as the client reads it. *)
Definition stuff (l : cstr) : cstr := match l with c :: _ => if Ascii.eqb c "."%char then "."%char :: l else l | [] => [] end.
Definition unstuff (l : cstr) : cstr := match l with c :: l' => if Ascii.eqb c "."%char then l' else l | [] => [] end.

(** The data collected from [lines] after [t]. *)
Fixpoint collected (t : cstr) (lines : list cstr) : cstr :=
  match lines with
  | [] => t
  | l :: lines => collected ((if decide (t = []) then [] else t ++ [LF]) ++ unstuff l) lines
  end.

Lemma unstuff_stuff l : unstuff (stuff l) = l.
Proof. destruct l as [|c l]; [done|]. cbn. destruct (Ascii.eqb c ".") eqn:Hc; cbn; by rewrite ?Hc. Qed.

Lemma stuff_not_dot l : stuff l <> cs ".".
Proof.
  destruct l as [|c l]; [done|]. cbn [stuff]. destruct (Ascii.eqb_spec c "."%char); [done|].
  by intros [= -> _].
Qed.

Lemma collected_join t fs : t <> [] -> collected t (stuff <$> fs) = t ++ concat ((fun f => LF :: f) <$> fs).
Proof.
  revert t. induction fs as [|f fs IH]; intros t Ht; cbn [fmap list_fmap collected concat]; [by rewrite app_nil_r|].
  rewrite decide_False, unstuff_stuff, IH by (done || by intros [[? ?]%app_nil ?]%app_nil). by rewrite <-!app_assoc.
Qed.

Lemma join_concat d f fs : join_fields d (f :: fs) = f ++ concat ((fun f => d :: f) <$> fs).
Proof.
  revert f. induction fs as [|g fs IH]; intros f; [cbn; by rewrite app_nil_r|].
  change (join_fields d (f :: g :: fs)) with (f ++ d :: join_fields d (g :: fs)). by rewrite IH.
Qed.

(** A value that does not start with a line feed is collected from its lines. *)
Lemma collected_value value : head value <> Some LF ->
  collected [] (stuff <$> split_fields LF value) = value.
Proof.
  intros Hhd. pose proof (join_split LF value) as Hj. destruct (split_fields LF value) as [|f fs] eqn:Hs; [by destruct (split_fields_nonnil LF value)|].
  cbn [fmap list_fmap collected]. rewrite decide_True, unstuff_stuff by done. cbn [app].
  destruct fs as [|g fs]; [done|]. rewrite collected_join; [by rewrite <-join_concat|].
  intros ->. by rewrite <-Hj in Hhd.
Qed.

(** The bound on the data collected. *)
Fixpoint lines_size (lines : list cstr) : Z :=
  match lines with [] => 0 | l :: lines => Zlen l + 1 + lines_size lines end.

Lemma lines_size_nonneg lines : 0 <= lines_size lines.
Proof. induction lines as [|l lines IH]; cbn [lines_size]; [lia|]. pose proof (Zlen_nonneg l). lia. Qed.

(** What can follow without overrunning a fresh string. *)
Definition first_fits (data : dynstr) (lines : list cstr) : Prop :=
  str_data data <> None \/ match lines with l :: _ => chunk_of (Zlen (unstuff l)) <> Zlen (unstuff l) | [] => True end.

Lemma process_data_spec mdp cmd input l t (Q : mdata_proto -> world E -> Prop) w :
  mdp_state mdp = MDPS_MESSAGE_DATA -> mdp_command mdp = Some cmd ->
  dynstr_rep (mdc_response_data cmd) t -> dynstr_cstr input = Some l -> l <> cs "." -> is_cstr l ->
  first_fits (mdc_response_data cmd) [l] -> good w -> Zlen t + 1 + Zlen l <= DYN_MAX ->
  (forall data w', frame w w' -> dynstr_rep data (collected t [l]) -> str_data data <> None ->
     Q (set_command mdp (Some (set_data cmd data))) w') ->
  wp (process_input mdp input) Q w.
Proof.
  intros Hst Hcmd Hrep Hin Hdot Hc Hfit Hg Hmax HQ. unfold process_input. rewrite Hst, Hcmd.
  apply wp_bind. eapply wp_access; [exact Hin|]. apply wp_bind. eapply wp_access; [done|]. unfold process_data.
  destruct (Z.eqb_spec (strcmp l (cs ".")) 0) as [Heq|_]; [by apply strcmp_eq in Heq|].
  assert (Hun : drop (match l with c :: _ => if Ascii.eqb c "."%char then 1%nat else 0%nat | [] => 0%nat end) l = unstuff l).
  { destruct l as [|c l]; [done|]. cbn. by destruct (Ascii.eqb c "."). }
  rewrite Hun. assert (Hul : Zlen (unstuff l) <= Zlen l).
  { rewrite <-Hun. generalize (match l with c :: _ => if Ascii.eqb c "."%char then 1%nat else 0%nat | [] => 0%nat end).
    intros k. rewrite Zlen_drop. pose proof (Zlen_nonneg l). lia. }
  assert (Huc : is_cstr (unstuff l)) by (rewrite <-Hun; by apply is_cstr_drop).
  rewrite (dynstr_rep_len _ _ Hrep). cbn [collected] in HQ. pose proof (Zlen_nonneg t). pose proof (Zlen_nonneg l).
  apply wp_bind. destruct (Z.ltb_spec 0 (Zlen t)) as [Hpos|Hz].
  - rewrite decide_False in HQ by (intros ->; done).
    eapply dynstr_append_spec; [exact Hrep|by_decide| |done|change (Zlen [LF]) with 1; lia|].
    { left. unfold dynstr_rep in Hrep. destruct (str_data (mdc_response_data cmd)); [done|]. destruct Hrep as (_ & _ & _ & ->). done. }
    intros d1 w1 Hw1 Hd1 Hn1. apply wp_bind.
    eapply dynstr_append_spec; [exact Hd1|done|by left|by eauto using good_frame|rewrite Zlen_app; change (Zlen [LF]) with 1; lia|].
    intros d2 w2 Hw2 Hd2 Hn2. apply wp_ret, HQ; [by etrans|done|done].
  - assert (t = []) as -> by (destruct t; [done|]; rewrite Zlen_cons in Hz; pose proof (Zlen_nonneg t); lia).
    rewrite decide_True in HQ by done. cbn [app] in HQ. apply wp_ret, wp_bind.
    eapply dynstr_append_spec; [exact Hrep|done|by destruct Hfit; [left|right]|done|rewrite Zlen_nil; lia|].
    intros d2 w2 Hw2 Hd2 Hn2. by apply wp_ret, HQ.
Qed.

(** A line received into a buffer that owns its block is never NULL. *)
Lemma rep_cstr_some buf line : dynstr_rep buf line -> str_data buf <> None -> is_cstr line -> dynstr_cstr buf = Some line.
Proof.
  intros Hrep Hn Hc. destruct (dynstr_rep_cstr _ _ Hrep) as [->|[Hnone _]]; [by rewrite c_text_id|].
  unfold dynstr_cstr in Hnone. by destruct (str_data buf).
Qed.

Lemma recv_data_spec lines fuel mdp cmd p buf t e' (Q : Z * mdata_proto -> world E -> Prop) w :
  mdp_state mdp = MDPS_MESSAGE_DATA -> mdp_version mdp = MDPV_VERSION_1 -> mdp_plat mdp = Some p ->
  mdp_command mdp = Some cmd -> mdc_done cmd = false -> dynstr_rep (mdc_response_data cmd) t ->
  first_fits (mdc_response_data cmd) lines -> str_data buf <> None -> dynstr_rep buf [] -> good w ->
  Forall (fun l => is_cstr l /\ l <> cs ".") lines -> Zlen t + 1 + lines_size lines <= DYN_MAX ->
  hands_over p (w_env w) (lines ++ [cs "."]) e' -> (length lines < fuel)%nat ->
  (forall mdp' cmd' w', good w' -> w_env w' = e' ->
     mdp' = set_state (set_command mdp (Some cmd')) MDPS_READY ->
     mdc_response cmd' = mdc_response cmd -> dynstr_rep (mdc_response_data cmd') (collected t lines) -> Q (0, mdp') w') ->
  wp (recv_lines fuel mdp buf) Q w.
Proof.
  revert mdp cmd buf t fuel w. induction lines as [|l lines IH];
    intros mdp cmd buf t fuel w Hst Hver Hp Hcmd Hdone Hrep Hfit Hnn Hbuf Hg Hlines Hmax Hhand Hf HQ;
    (destruct fuel as [|fuel]; [lia|]); cbn [recv_lines]; rewrite Hp, Hver;
    inversion Hhand as [|e1 e2 e3 line0 lines0 Hrecv Hrest]; subst;
    (apply wp_bind; eapply wp_access; [done|]); apply wp_bind;
    (eapply wp_mono; [by apply Hrecv|]); intros [r buf1] w1 (-> & Hb1 & Hn1 & Hg1 & He1);
    specialize (Hn1 Hnn); change (0 =? -1) with false; cbn beta iota; apply wp_bind.
  - unfold process_input. rewrite Hst, Hcmd. apply wp_bind. eapply wp_access; [apply rep_cstr_some; [exact Hb1|done|by_decide]|].
    apply wp_bind. eapply wp_access; [done|]. unfold process_data.
    change (strcmp (cs ".") (cs ".") =? 0) with true. cbn beta iota. apply wp_ret.
    apply wp_bind. eapply dynstr_reset_spec; [exact Hb1|]. intros buf2 _ _ _.
    apply wp_bind. eapply wp_access; [done|]. change (mdc_done (set_done cmd)) with true. cbn beta iota. apply wp_ret.
    eapply (HQ _ (set_done cmd)); [done| |done|done|done]. rewrite He1. by inversion Hrest.
  - apply Forall_cons_1 in Hlines as [[Hlc Hldot] Hlines]. cbn [lines_size] in Hmax. pose proof (lines_size_nonneg lines).
    eapply (process_data_spec mdp cmd buf1 l t); [done|done|done|by apply rep_cstr_some|done|done|exact Hfit|done|lia|].
    intros data w2 Hw2 Hdata Hdn. apply wp_bind. eapply dynstr_reset_spec; [exact Hb1|]. intros buf2 Hb2 _ Hn2.
    apply wp_bind. eapply wp_access; [done|]. change (mdc_done (set_data cmd data)) with (mdc_done cmd). rewrite Hdone.
    eapply (IH (set_command mdp (Some (set_data cmd data))) (set_data cmd data) _ (collected t [l]));
      try done; [by left|by apply Hn2|by eauto using good_frame| | |cbn in Hf; lia].
    + cbn [collected]. assert (Zlen (unstuff l) <= Zlen l).
      { destruct l as [|c l]; [done|]. cbn. rewrite Zlen_cons. destruct (Ascii.eqb c "."); rewrite ?Zlen_cons; lia. }
      case_decide; rewrite ?Zlen_app; change (Zlen [LF]) with 1; rewrite ?Zlen_nil; try lia.
      subst t. change (Zlen (@nil char)) with 0 in *. lia.
    + by rewrite (frame_env _ _ Hw2), He1.
Qed.
End execute_facts.

(** ** Properties *)

(** C2: a request of version 2 gets its response: whatever frames of other requests the host
    sends first, [proto_execute] returns 0 with the code and the payload of the frame that
    carries its identifier, leaves no command outstanding and is ready again. *)
Theorem proto_execute_v2 {E} `{Platform E} `{Ident E} `{DM : DataModel} (sleep : Z -> C E ())
    (fuel : nat) (mdp : mdata_proto) (p : plat) (command : cstr) (argument : option cstr)
    (code value : cstr) (e' : E) (w : world E) :
  mdp_state mdp <> MDPS_ERROR -> mdp_version mdp = MDPV_VERSION_2 -> mdp_command mdp = None ->
  mdp_plat mdp = Some p -> is_cstr command -> is_cstr (default [] argument) ->
  Zlen command + 2 * Zlen (default [] argument) + 100 <= DYN_MAX -> good w ->
  (forall w1, frame w w1 -> wp ident (fun id w2 => is_reqid id /\ good w2 /\
     exists foreign own, (length foreign < fuel)%nat /\ rs_id own = id /\ rs_code own = code /\ rs_payload own = value /\
       response_ok own /\ Forall (fun r => response_ok r /\ rs_id r <> id) foreign /\
       exchange p (w_env w2) (v2_request id command argument) (response_frame <$> foreign ++ [own]) e') w1) ->
  wp (proto_execute sleep (S fuel) mdp command argument) (fun '(r, resp, mdp') w' =>
    r = 0 /\ (exists data, resp = Some (v2_response code, data) /\ dynstr_rep data value) /\
    mdp_state mdp' = MDPS_READY /\ mdp_command mdp' = None /\ w_env w' = e') w.
Proof.
  intros Hst Hver Hcmd Hp Hc Ha Hmax Hg Hident. unfold proto_execute, begin_command.
  apply wp_bind, wp_bind, dynstr_new_spec; [done|]. intros w1 Hw1.
  apply wp_bind, dynstr_new_spec; [by eauto using good_frame|]. intros w2 Hw2. rewrite Hcmd.
  apply wp_bind, wp_VERIFY; [done|]. apply wp_ret. cbn [execute_retry]. apply wp_bind. unfold attempt.
  cbn [mdp_command set_command mdp_version mdp_state]. rewrite Hver.
  pose proof (good_frame _ _ Hw2 (good_frame _ _ Hw1 Hg)) as Hg2.
  apply wp_bind. eapply wp_access; [done|]. apply wp_bind. eapply dynstr_reset_spec; [apply dynstr_rep_new|].
  intros request Hreq _ _. apply wp_bind, wp_bind. eapply make_request_v2_spec; [done|done|exact Hreq|done|done| |].
  { intros w3 Hw3. apply Hident. etrans; [exact Hw1|]. etrans; [exact Hw2|exact Hw3]. }
  intros id output w3 w4 Hid HP Hw4 Hg4 Hout. cbn beta iota.
  destruct HP as (foreign & own & Hf & Hoid & Hoc & Hop & Hook & Hfor & e1 & Hsend & Hhand).
  apply wp_ret. cbn [set_request mdc_reqid mdc_request mdc_response_data mdc_response mdc_done mdp_state set_command].
  rewrite decide_False by done. apply wp_bind. unfold proto_send. cbn [mdp_command set_command mdp_plat mdp_version].
  apply wp_bind, wp_VERIFY; [done|]. apply wp_bind. eapply wp_access; [done|].
  apply wp_bind. eapply wp_access; [exact Hp|]. apply wp_bind. eapply wp_mono.
  { apply Hsend; [exact Hout|done|by apply frame_env]. }
  intros r w5 (-> & Hg5 & He5). change (0 =? -1) with false. cbn beta iota. rewrite Hver. apply wp_ret.
  change (negb (0 =? 0)) with false. cbn beta iota. unfold proto_recv.
  apply wp_bind, dynstr_new_spec; [done|]. intros w6 Hw6.
  eapply (recv_lines_spec foreign own fuel _ _ p id); [done|exact Hver|exact Hp|done| | | |by eauto using good_frame| | | | |done|].
  { split_and!; [done|done|]. exists []. apply dynstr_rep_new. }
  { by apply is_reqid_cstr. }
  { apply dynstr_rep_new. }
  { exact Hfor. }
  { exact Hook. }
  { exact Hoid. }
  { rewrite (frame_env _ _ Hw6), He5. exact Hhand. }
  intros mdp' cmd' w7 Hg7 He7 -> Hresp Hdata Hnn. change (negb (0 =? 0)) with false. cbn beta iota.
  rewrite bool_decide_true by done. cbn [negb]. apply wp_bind. eapply wp_access; [done|]. apply wp_ret.
  split; [done|]. split; [|done]. exists (mdc_response_data cmd'). rewrite Hresp, Hoc. split; [done|]. by rewrite <-Hop.
Qed.

(** ** A scripted host *)

(** The lines still to be handed over are the environment. *)
#[local] Instance script_platform {DM : DataModel} : Platform (list cstr) := {|
  plat := unit;
  plat_init permfail := mret (0, Some tt, None, permfail);
  plat_recv _ buf _ :=
    lines ← get_env;
    match lines with
    | [] => mret (-1, buf)
    | l :: lines => put_env lines ;; buf ← dynstr_append buf l; mret (0, buf)
    end;
  plat_send _ _ := mret 0;
  plat_fini _ := mret tt;
  plat_is_interactive := mret false
|}.

#[local] Instance script_ident : Ident (list cstr) := {| ident_init := mret tt; ident := mret (cs "dc4fae17") |}.

Lemma script_hands `{DM : DataModel} lines rest :
  Forall (fun l => is_cstr l /\ chunk_of (Zlen l) <> Zlen l /\ Zlen l <= DYN_MAX) lines ->
  hands_over tt (lines ++ rest) lines rest.
Proof.
  induction 1 as [|l lines (Hc & Hch & Hl) Hlines IH]; [constructor|]. cbn [app]. econstructor; [|exact IH].
  intros buf tmo w Hrep Hg He. cbn [plat_recv script_platform]. apply wp_bind, wp_get_env. rewrite He.
  apply wp_bind, wp_put_env, wp_bind.
  eapply dynstr_append_spec; [exact Hrep|done|by right|by destruct Hg; split|by rewrite Zlen_nil|].
  intros buf' w' Hw' Hrep' Hn. apply wp_ret. split_and!; [done|done|done| |].
  - eapply good_frame; [exact Hw'|]. by destruct Hg; split.
  - by rewrite (frame_env _ _ Hw').
Qed.

Lemma script_exchange `{DM : DataModel} req lines :
  Forall (fun l => is_cstr l /\ chunk_of (Zlen l) <> Zlen l /\ Zlen l <= DYN_MAX) lines ->
  exchange tt lines req lines [].
Proof.
  intros Hl. exists lines. split.
  - intros buf w _ Hg He. by apply wp_ret.
  - rewrite <-(app_nil_r lines) at 1. by apply script_hands.
Qed.

Definition stale_frame : response := Response (cs "00000001") (cs "NOTFOUND") (cs "old").
Definition own_frame : response := Response (cs "dc4fae17") (cs "SUCCESS") (cs "[]").

#[export] Instance response_ok_dec r : Decision (response_ok r).
Proof. unfold response_ok. apply _. Defined.

Definition idle (version : mdata_proto_version) : @mdata_proto (list cstr) (script_platform (DM := ILP32)) :=
  @MdataProto _ (script_platform (DM := ILP32)) (Some tt) None MDPS_READY version false None None.

Lemma proto_execute_v2_witness :
  response_frame own_frame = cs "V2 21 265ae1d8 dc4fae17 SUCCESS W10=" /\
  wp (@proto_execute _ (script_platform (DM := ILP32)) script_ident ILP32 (fun _ => mret tt) 6
        (idle MDPV_VERSION_2) (cs "KEYS") None) (fun '(r, resp, mdp') w' =>
    r = 0 /\ (exists data, resp = Some (v2_response (cs "SUCCESS"), data) /\ dynstr_rep data (cs "[]")) /\
    mdp_state mdp' = MDPS_READY /\ mdp_command mdp' = None /\ w_env w' = [])
   (World 0 [] [] (response_frame <$> [stale_frame; own_frame])).
Proof.
  split; [by vm_compute|].
  apply (@proto_execute_v2 _ (script_platform (DM := ILP32)) script_ident ILP32 (fun _ => mret tt) 5
    (idle MDPV_VERSION_2) tt (cs "KEYS") None (cs "SUCCESS") (cs "[]") []
    (World 0 [] [] (response_frame <$> [stale_frame; own_frame]))).
  - done.
  - done.
  - done.
  - done.
  - by_decide.
  - by_decide.
  - by vm_compute.
  - split; constructor.
  - intros w1 Hw1. apply wp_ret. split; [by_decide|]. split; [apply (good_frame _ _ Hw1); split; constructor|].
    exists [stale_frame], own_frame. split; [cbn; lia|]. split; [done|]. split; [done|]. split; [done|].
    split; [by_decide|]. split; [by_decide|]. rewrite (frame_env _ _ Hw1). cbn [app w_env].
    apply script_exchange. by_decide.
Defined.

(** ** Requests of version 1 *)

Definition v1_request (command : cstr) (argument : option cstr) : cstr :=
  command ++ match argument with None => [] | Some a => " "%char :: a end ++ [LF].

Lemma make_request_v1_spec {E} `{DM : DataModel} command argument output (Q : dynstr -> world E -> Prop) w :
  is_cstr command -> is_cstr (default [] argument) -> dynstr_rep output [] -> chunk_of (Zlen command) <> Zlen command ->
  good w -> Zlen command + Zlen (default [] argument) + 2 <= DYN_MAX ->
  (forall output' w', frame w w' -> good w' -> dynstr_rep output' (v1_request command argument) -> Q output' w') ->
  wp (proto_make_request_v1 command argument output) Q w.
Proof.
  intros Hcmd Ha Hout Hfit Hg Hmax HQ. unfold proto_make_request_v1, v1_request in *.
  pose proof (Zlen_nonneg command). pose proof (Zlen_nonneg (default [] argument)).
  eapply append_then; [exact Hout|done|by right|done|rewrite Zlen_nil; lia|]. intros d1 w1 Hw1 Hg1 Hd1 Hn1. cbn [app] in Hd1.
  destruct argument as [a|]; [change (default [] (Some a)) with a in *|].
  - apply wp_bind. eapply append_then; [exact Hd1|by_decide|by left|done|change (Zlen [" "%char]) with 1; lia|].
    intros d2 w2 Hw2 Hg2 Hd2 Hn2.
    eapply dynstr_append_spec; [exact Hd2|done|by left|done|rewrite Zlen_app; change (Zlen [" "%char]) with 1; lia|].
    intros d3 w3 Hw3 Hd3 Hn3.
    eapply dynstr_append_spec; [exact Hd3|by_decide|by left|by eauto using good_frame| |].
    { rewrite !Zlen_app. change (Zlen [" "%char]) with 1. change (Zlen [LF]) with 1. lia. }
    intros d4 w4 Hw4 Hd4 Hn4. apply HQ.
    + etrans; [exact Hw1|]. etrans; [exact Hw2|]. by etrans.
    + by eauto using good_frame.
    + by rewrite <-!app_assoc in Hd4.
  - apply wp_bind, wp_ret.
    eapply dynstr_append_spec; [exact Hd1|by_decide|by left|done|change (Zlen [LF]) with 1; lia|].
    intros d4 w4 Hw4 Hd4 Hn4. apply HQ; [by etrans|by eauto using good_frame|done].
Qed.

(** A value fetched over version 1 arrives as the host holds it: for a host that answers
    [SUCCESS], then the lines of the value with leading dots doubled, then a single dot,
    [proto_execute] returns the value, if it does not begin with a line feed (its leading empty
    lines are lost) and its first line is not as long as a chunk of the buffer. *)
Theorem proto_execute_v1_data {E} `{Platform E} `{Ident E} `{DM : DataModel} (sleep : Z -> C E ())
    (fuel : nat) (mdp : mdata_proto) (p : plat) (command : cstr) (argument : option cstr)
    (value : cstr) (e' : E) (w : world E) :
  let lines := stuff <$> split_fields LF value in
  mdp_state mdp <> MDPS_ERROR -> mdp_version mdp = MDPV_VERSION_1 -> mdp_command mdp = None ->
  mdp_plat mdp = Some p -> is_cstr command -> is_cstr (default [] argument) ->
  chunk_of (Zlen command) <> Zlen command -> Zlen command + Zlen (default [] argument) + 2 <= DYN_MAX -> good w ->
  is_cstr value -> head value <> Some LF -> 1 + lines_size lines <= DYN_MAX ->
  (forall l, head (split_fields LF value) = Some l -> chunk_of (Zlen l) <> Zlen l) ->
  exchange p (w_env w) (v1_request command argument) (cs "SUCCESS" :: lines ++ [cs "."]) e' ->
  (length lines + 1 < fuel)%nat ->
  wp (proto_execute sleep (S fuel) mdp command argument) (fun '(r, resp, mdp') w' =>
    r = 0 /\ (exists data, resp = Some (MDR_SUCCESS, data) /\ dynstr_rep data value) /\
    mdp_state mdp' = MDPS_READY /\ mdp_command mdp' = None /\ w_env w' = e') w.
Proof.
  intros lines Hst Hver Hcmd Hp Hc Ha Hfit Hmax Hg Hvc Hhd Hsize Hfirst (e1 & Hsend & Hhand) Hf.
  unfold proto_execute, begin_command.
  apply wp_bind, wp_bind, dynstr_new_spec; [done|]. intros w1 Hw1.
  apply wp_bind, dynstr_new_spec; [by eauto using good_frame|]. intros w2 Hw2. rewrite Hcmd.
  apply wp_bind, wp_VERIFY; [done|]. apply wp_ret. cbn [execute_retry]. apply wp_bind. unfold attempt.
  cbn [mdp_command set_command mdp_version mdp_state]. rewrite Hver.
  pose proof (good_frame _ _ Hw2 (good_frame _ _ Hw1 Hg)) as Hg2.
  apply wp_bind. eapply wp_access; [done|]. apply wp_bind. eapply dynstr_reset_spec; [apply dynstr_rep_new|].
  intros request Hreq _ _. apply wp_bind, wp_bind. eapply make_request_v1_spec; [done|done|exact Hreq|done|done|lia|].
  intros output w3 Hw3 Hg3 Hout. apply wp_ret.
  cbn [set_request mdc_reqid mdc_request mdc_response_data mdc_response mdc_done mdp_state set_command].
  rewrite decide_False by done. apply wp_bind. unfold proto_send. cbn [mdp_command set_command mdp_plat mdp_version].
  apply wp_bind, wp_VERIFY; [done|]. apply wp_bind. eapply wp_access; [done|].
  apply wp_bind. eapply wp_access; [exact Hp|]. apply wp_bind. eapply wp_mono.
  { apply Hsend; [exact Hout|done|]. by rewrite (frame_env _ _ Hw3), (frame_env _ _ Hw2), (frame_env _ _ Hw1). }
  intros r w5 (-> & Hg5 & He5). change (0 =? -1) with false. cbn beta iota. rewrite Hver. apply wp_ret.
  change (negb (0 =? 0)) with false. cbn beta iota. unfold proto_recv.
  apply wp_bind, dynstr_new_spec; [done|]. intros w6 Hw6. pose proof (good_frame _ _ Hw6 Hg5) as Hg6.
  inversion Hhand as [|f1 f2 f3 l0 ls0 Hrecv Hrest]; subst.
  destruct fuel as [|fuel]; [lia|]. cbn [recv_lines mdp_version set_state mdp_plat set_command]. rewrite Hver, Hp.
  apply wp_bind. eapply wp_access; [done|]. apply wp_bind.
  eapply wp_mono; [apply Hrecv; [apply dynstr_rep_new|done|by apply frame_env]|].
  intros [r buf1] w7 (-> & Hb1 & _ & Hg7 & He7). change (0 =? -1) with false. cbn beta iota.
  apply wp_bind. unfold process_input. cbn [mdp_state set_state mdp_command set_command].
  apply wp_bind. eapply wp_access; [by rewrite (dynstr_rep_cstr_nonnil _ _ Hb1) by done|].
  apply wp_bind. eapply wp_access; [done|]. unfold process_header.
  change (c_text (cs "SUCCESS")) with (cs "SUCCESS").
  change (strcmp (cs "SUCCESS") (cs "NOTFOUND") =? 0) with false. change (strcmp (cs "SUCCESS") (cs "SUCCESS") =? 0) with true.
  cbn beta iota. apply wp_ret. apply wp_bind. eapply dynstr_reset_spec; [exact Hb1|]. intros buf2 Hb2 _ Hn2.
  assert (Hbn : str_data buf2 <> None).
  { apply Hn2. intros Hn. unfold dynstr_rep in Hb1. rewrite Hn in Hb1. by destruct Hb1 as (_ & _ & _ & ?). }
  apply wp_bind. eapply wp_access; [done|]. cbn [mdc_done set_response].
  eapply (recv_data_spec lines fuel _ _ p buf2 []); [done|exact Hver|exact Hp|done|done|apply dynstr_rep_new| |done|done|done| | | | |].
  { right. unfold lines. destruct (split_fields LF value) as [|l ls]; [done|]. cbn. rewrite unstuff_stuff. by apply Hfirst. }
  { unfold lines. apply Forall_fmap, Forall_lookup_2. intros i l Hl%list_elem_of_lookup_2. cbn.
    split; [|apply stuff_not_dot]. apply split_fields_sub in Hl as [_ Hl].
    assert (is_cstr l) by (intros Hin; by apply Hvc, Hl). destruct l as [|c l]; [done|]. cbn.
    destruct (Ascii.eqb c "."); [|done]. by apply is_cstr_cons. }
  { rewrite Zlen_nil. lia. }
  { rewrite He7. exact Hrest. }
  { lia. }
  intros mdp' cmd' w8 Hg8 He8 -> Hresp Hdata. change (negb (0 =? 0)) with false. cbn beta iota.
  rewrite bool_decide_true by done. cbn [negb]. apply wp_bind. eapply wp_access; [done|]. apply wp_ret.
  split; [done|]. split; [|done]. exists (mdc_response_data cmd'). rewrite Hresp. split; [done|].
  unfold lines in Hdata. by rewrite collected_value in Hdata.
Qed.

Lemma proto_execute_v1_data_witness :
  stuff <$> split_fields LF (cs "a" ++ LF :: cs ".b") = [cs "a"; cs "..b"] /\
  wp (@proto_execute _ (script_platform (DM := ILP32)) script_ident ILP32 (fun _ => mret tt) 6
        (idle MDPV_VERSION_1) (cs "GET") (Some (cs "k"))) (fun '(r, resp, mdp') w' =>
    r = 0 /\ (exists data, resp = Some (MDR_SUCCESS, data) /\ dynstr_rep data (cs "a" ++ LF :: cs ".b")) /\
    mdp_state mdp' = MDPS_READY /\ mdp_command mdp' = None /\ w_env w' = [])
   (World 0 [] [] [cs "SUCCESS"; cs "a"; cs "..b"; cs "."]).
Proof.
  split; [by vm_compute|].
  apply (@proto_execute_v1_data _ (script_platform (DM := ILP32)) script_ident ILP32 (fun _ => mret tt) 5
    (idle MDPV_VERSION_1) tt (cs "GET") (Some (cs "k")) (cs "a" ++ LF :: cs ".b") []
    (World 0 [] [] [cs "SUCCESS"; cs "a"; cs "..b"; cs "."])).
  - done.
  - done.
  - done.
  - done.
  - by_decide.
  - by_decide.
  - by vm_compute.
  - by vm_compute.
  - split; constructor.
  - by_decide.
  - done.
  - by vm_compute.
  - intros l. vm_compute. intros [= <-]. discriminate.
  - apply script_exchange. by_decide.
  - vm_compute. lia.
Defined.

(** A value of version 1 loses its leading line feeds. *)
Lemma v1_leading_lines_lost : collected [] (stuff <$> split_fields LF (LF :: LF :: cs "x")) = cs "x".
Proof. by vm_compute. Qed.

Lemma new_stuck {E A} `{DM : DataModel} (k : dynstr -> C E A) w :
  good w -> (forall w', frame w w' -> k (Dynstr 0 0 None) w' = Undefined) -> (dynstr_new ≫= k) w = Undefined.
Proof.
  intros Hg Hk. apply (bind_stuck _ _ (fun d w' => d = Dynstr 0 0 None /\ frame w w')).
  - by apply dynstr_new_spec.
  - intros ? ? [-> ?]. by apply Hk.
Qed.

(** An empty line as the first line of a response makes the client read through a NULL
    pointer, in either version: the receive buffer has no block yet. *)
Theorem proto_recv_empty_line {E} `{Platform E} `{DM : DataModel}
    (fuel : nat) (mdp : mdata_proto) (cmd : mdata_command) (p : plat) (w : world E) :
  mdp_state mdp = MDPS_MESSAGE_HEADER \/ mdp_state mdp = MDPS_MESSAGE_V2 ->
  mdp_plat mdp = Some p -> mdp_command mdp = Some cmd -> (exists t, dynstr_rep (mdc_response_data cmd) t) -> good w ->
  (forall timeout_ms w1, good w1 -> w_env w1 = w_env w -> exists w2,
     plat_recv p (Dynstr 0 0 None) timeout_ms w1 = Done ((0, Dynstr 0 0 None), w2) /\ good w2) ->
  proto_recv (S fuel) mdp w = Undefined.
Proof.
  intros Hst Hp Hcmd [t Ht] Hg Hrecv. unfold proto_recv.
  apply new_stuck; [done|]. intros w1 Hw1. cbn [recv_lines]. rewrite Hp. erewrite bind_done by done.
  destruct (Hrecv (match mdp_version mdp with MDPV_VERSION_2 => RECV_TIMEOUT_MS_V2 | MDPV_VERSION_1 => RECV_TIMEOUT_MS end) w1)
    as (w2 & Hr & Hg2); [by eapply good_frame|by apply frame_env|].
  erewrite bind_done by exact Hr. cbn beta iota. change (0 =? -1) with false. cbn beta iota.
  apply bind_undefined. unfold process_input. destruct Hst as [-> | ->]; [by apply bind_undefined|].
  rewrite Hcmd. erewrite bind_done by done. unfold process_v2.
  apply new_stuck; [done|]. intros w3 Hw3. apply new_stuck; [by eapply good_frame|]. intros w4 Hw4.
  apply (bind_stuck _ _ (fun _ _ => True)); [by eapply dynstr_reset_spec|]. intros d3 w5 _.
  apply bind_undefined. by apply bind_undefined.
Qed.

(** On SunOS the host only has to send a line feed. *)
Lemma proto_recv_empty_line_witness :
  let K : Kernel cstr := fun name _ e =>
    if String.eqb name "port_get" then (SysRet 0 0 [] [Sunos.POLLIN], e)
    else if String.eqb name "read" then (SysRet (Z.min 1 (Zlen e)) 0 (take 1 e) [], drop 1 e)
    else (SysRet 0 0 [] [], e) in
  let P := @Sunos.platform cstr K ILP32 (fun _ => []) (mret None) 100 in
  let cmd := MdataCommand (cs "dc4fae17") (Dynstr 0 0 None) (Dynstr 0 0 None) MDR_PENDING false in
  @proto_recv cstr P ILP32 8 (@MdataProto cstr P (Some (MdataPlat 3 4)) (Some cmd) MDPS_MESSAGE_V2 MDPV_VERSION_2 false None None)
    (World 0 [] [] [LF]) = Undefined.
Proof.
  intros K P cmd.
  apply (@proto_recv_empty_line cstr P ILP32 7
    (@MdataProto cstr P (Some (MdataPlat 3 4)) (Some cmd) MDPS_MESSAGE_V2 MDPV_VERSION_2 false None None)
    cmd (MdataPlat 3 4) (World 0 [] [] [LF])).
  - by right.
  - done.
  - done.
  - exists []. apply dynstr_rep_new.
  - split; constructor.
  - intros tmo [e h s env] Hg1 He1. cbn in He1. subst env. exists (World e h s []).
    split; [vm_compute; reflexivity|done].
Defined.

(** A response frame whose checksum happens to be zero is refused, however well formed:
    zero is how the parser recognises a checksum it could not read. *)
Theorem proto_parse_v2_zero_crc {E} `{DM : DataModel} (input : dynstr) (body : cstr) (parts : v2_parts) (w : world E) :
  crc32 body = 0 -> 0 < Zlen body <= UINT_MAX -> dynstr_cstr input = Some (v2_frame body) ->
  proto_parse_v2 input parts w = Done ((-1, Some (cs "invalid crc32 in frame"), parts), w).
Proof.
  intros Hcrc Hlen Hin. unfold proto_parse_v2. rewrite Hin. erewrite bind_done by done.
  assert (starts_with (cs "V2 ") (v2_frame body) = true) as -> by apply starts_with_app. cbn [negb].
  destruct (frame_header body) as [Hh1 Hh2]; [lia|]. rewrite Hh1.
  destruct (Z.eqb_spec (Zlen body) 0); [lia|]. rewrite Hcrc in *.
  change (skip_blanks (" "%char :: print_x 8 0 ++ " "%char :: body)) with (print_x 8 0 ++ " "%char :: body).
  by rewrite Hh2.
Qed.

Definition zero_body : cstr := cs "2ff0d0c1 SUCCESS Y3FzZnhs".

Lemma proto_parse_v2_zero_crc_witness :
  zero_body = v2_body (cs "2ff0d0c1") (cs "SUCCESS") (Some (cs "cqsfxl")) /\
  v2_frame zero_body = cs "V2 25 00000000 2ff0d0c1 SUCCESS Y3FzZnhs" /\
  let d := Dynstr 0 0 None in
  let input := Dynstr (Zlen (v2_frame zero_body)) 64 (Some (v2_frame zero_body ++ [NUL])) in
  proto_parse_v2 (E := ()) (DM := ILP32) input (V2Parts d d d) (World 0 [] [] ())
  = Done ((-1, Some (cs "invalid crc32 in frame"), V2Parts d d d), World 0 [] [] ()).
Proof.
  split; [by vm_compute|]. split; [by vm_compute|]. intros d input.
  apply (proto_parse_v2_zero_crc (DM := ILP32) input zero_body (V2Parts d d d)).
  - by vm_compute.
  - by vm_compute.
  - by vm_compute.
Defined.
