(* ===== verification/Nvlist.v ===== *)
(** * Nvlist: libnvpair as the JSON parser uses it

    libnvpair is not part of the repository.  [Nvlist] names the functions [json-nvlist.c] calls;
    [NvlistLaws] is what it relies on: an add under [NV_UNIQUE_NAME] replaces the pair of that
    name, [nvlist_add_nvlist] stores a copy, and [nvlist_lookup_nvlist] returns a pointer to the
    embedded list, so that adding to it changes the list it lies in.  [nv_store] is a concrete
    library that obeys the laws. *)
From Stdlib Require Import Lia.
From S2P Require Import Prelude.

(** The values of the pairs, and lists of pairs. *)
Inductive nvval :=
| NvString (s : cstr)
| NvBooleanValue (b : bool)
| NvBoolean
| NvInt32 (z : Z)
| NvUint32 (z : Z)
| NvUint64 (z : Z)
| NvUint64Array (zs : list Z)
| NvStringArray (ss : list cstr)
| NvNvlist (l : list (cstr * nvval)).

Abbreviation nvpairs := (list (cstr * nvval)) (only parsing).

(** Adding a pair under [NV_UNIQUE_NAME]. *)
Definition nv_put (k : cstr) (v : nvval) (l : nvpairs) : nvpairs := filter (fun p => p.1 <> k) l ++ [(k, v)].

(** The value of a name. *)
Fixpoint nv_find (k : cstr) (l : nvpairs) : option nvval :=
  match l with [] => None | (k', v) :: l => if decide (k' = k) then Some v else nv_find k l end.

Class Nvlist (E : Type) := {
  nvlist_t : Type;
  nvlist_alloc : C E (Z * option nvlist_t);
  nvlist_free : nvlist_t -> C E ();
  nvlist_add_string : nvlist_t -> cstr -> cstr -> C E Z;
  nvlist_add_boolean_value : nvlist_t -> cstr -> bool -> C E Z;
  nvlist_add_boolean : nvlist_t -> cstr -> C E Z;
  nvlist_add_int32 : nvlist_t -> cstr -> Z -> C E Z;
  nvlist_add_uint32 : nvlist_t -> cstr -> Z -> C E Z;
  nvlist_add_nvlist : nvlist_t -> cstr -> nvlist_t -> C E Z;
  nvlist_lookup_nvlist : nvlist_t -> cstr -> C E (Z * option nvlist_t);
  nvlist_lookup_string : nvlist_t -> cstr -> C E (Z * option cstr);
  nvlist_lookup_uint32 : nvlist_t -> cstr -> C E (Z * option Z)
}.

(** The lists under construction, innermost first: a pointer, the name under which the list lies
    in the next one (none for the outermost), and its pairs but those still being built. *)
Abbreviation nvlevel H := (H * cstr * nvpairs)%type (only parsing).

(** An add of a scalar, in terms of the predicate [open] on the levels. *)
Definition adds {E H} (open : option H -> list (nvlevel H) -> E -> Prop) (h : H) (k : cstr) (v : nvval) (op : C E Z) : Prop :=
  forall k0 l levels w, good w -> open None ((h, k0, l) :: levels) (w_env w) ->
    wp op (fun r w' => good w' /\ r = 0 /\ open None ((h, k0, nv_put k v l) :: levels) (w_env w')) w.

(** [nv_open spare levels e]: in the environment [e] the levels are as listed, and [spare] is a
    further empty list.  The laws speak of a world whose allocations succeed. *)
Class NvlistLaws (E : Type) `{Nvlist E} := {
  nv_open : option nvlist_t -> list (nvlevel nvlist_t) -> E -> Prop;
  nv_none e : nv_open None [] e;
  nv_outermost h e : nv_open (Some h) [] e -> nv_open None [(h, [], [])] e;
  nv_close h k l h' k' l' levels e :
    nv_open None ((h, k, l) :: (h', k', l') :: levels) e ->
    nv_open None ((h', k', l' ++ [(k, NvNvlist l)]) :: levels) e;
  nv_alloc levels w : good w -> nv_open None levels (w_env w) ->
    wp nvlist_alloc (fun '(r, h) w' => good w' /\ r = 0 /\ exists h', h = Some h' /\ nv_open (Some h') levels (w_env w')) w;
  nv_free_spare h levels w : good w -> nv_open (Some h) levels (w_env w) ->
    wp (nvlist_free h) (fun _ w' => good w' /\ nv_open None levels (w_env w')) w;
  nv_free h k l levels w : good w -> nv_open None ((h, k, l) :: levels) (w_env w) ->
    wp (nvlist_free h) (fun _ w' => good w' /\
      exists levels', (fun lv => lv.1.1) <$> levels' = (fun lv => lv.1.1) <$> levels /\ nv_open None levels' (w_env w')) w;
  nv_add_nvlist h x k0 l k levels w : good w -> nv_open (Some x) ((h, k0, l) :: levels) (w_env w) ->
    wp (nvlist_add_nvlist h k x) (fun r w' => good w' /\ r = 0 /\
      nv_open (Some x) ((h, k0, nv_put k (NvNvlist []) l) :: levels) (w_env w')) w;
  nv_lookup_nvlist h k0 l k levels w :
    good w -> nv_open None ((h, k0, l ++ [(k, NvNvlist [])]) :: levels) (w_env w) ->
    k ∉ l.*1 ->
    wp (nvlist_lookup_nvlist h k) (fun '(r, c) w' => good w' /\ r = 0 /\
      exists c', c = Some c' /\ nv_open None ((c', k, []) :: (h, k0, l) :: levels) (w_env w')) w;
  nv_lookup_string h k0 l k levels w : good w -> nv_open None ((h, k0, l) :: levels) (w_env w) ->
    wp (nvlist_lookup_string h k) (fun '(r, v) w' => good w' /\ nv_open None ((h, k0, l) :: levels) (w_env w') /\
      match nv_find k l with Some (NvString s) => r = 0 /\ v = Some s | _ => r <> 0 end) w;
  nv_lookup_uint32 h k0 l k levels w : good w -> nv_open None ((h, k0, l) :: levels) (w_env w) ->
    wp (nvlist_lookup_uint32 h k) (fun '(r, v) w' => good w' /\ nv_open None ((h, k0, l) :: levels) (w_env w') /\
      match nv_find k l with Some (NvUint32 z) => r = 0 /\ v = Some z | _ => r <> 0 end) w;
  nv_add_string h k s : adds nv_open h k (NvString s) (nvlist_add_string h k s);
  nv_add_boolean_value h k b : adds nv_open h k (NvBooleanValue b) (nvlist_add_boolean_value h k b);
  nv_add_boolean h k : adds nv_open h k NvBoolean (nvlist_add_boolean h k);
  nv_add_int32 h k z : adds nv_open h k (NvInt32 z) (nvlist_add_int32 h k z);
  nv_add_uint32 h k z : adds nv_open h k (NvUint32 z) (nvlist_add_uint32 h k z)
}.

Lemma nv_put_absent k (l : nvpairs) : k ∉ (filter (fun p => p.1 <> k) l).*1.
Proof. rewrite list_elem_of_fmap. intros ([k' v] & -> & Hin%list_elem_of_filter). by destruct Hin as [[] _]. Qed.

(** ** A concrete library *)

(** A list is reached from an allocated one by a path of names, outermost first. *)
Record nv_ptr := NvPtr { ptr_root : nat; ptr_path : list cstr }.
(** The allocated lists; a released one is [None]. *)
Abbreviation nv_heap := (list (option (list (cstr * nvval)))) (only parsing).


(** The list a path leads to. *)
Fixpoint nv_get (path : list cstr) (l : nvpairs) : option nvpairs :=
  match path with
  | [] => Some l
  | k :: path => match nv_find k l with Some (NvNvlist l') => nv_get path l' | _ => None end
  end.

(** Changing the list a path leads to. *)
Fixpoint nv_modify (path : list cstr) (f : nvpairs -> nvpairs) (l : nvpairs) : nvpairs :=
  match path with
  | [] => f l
  | k :: path => (fun '(k', v) => match v with
                                  | NvNvlist l' => if decide (k' = k) then (k', NvNvlist (nv_modify path f l')) else (k', v)
                                  | _ => (k', v)
                                  end) <$> l
  end.

Section store.
Abbreviation E := nv_heap.

(** Reading and changing the list at [p]; following a dangling pointer is undefined. *)
Definition nv_read (p : nv_ptr) : C E nvpairs :=
  e ← get_env; l ← c_access (mjoin (e !! ptr_root p)); c_access (nv_get (ptr_path p) l).

Definition nv_write (p : nv_ptr) (f : nvpairs -> nvpairs) : C E Z :=
  e ← get_env; l ← c_access (mjoin (e !! ptr_root p)); _ ← c_access (nv_get (ptr_path p) l);
  put_env (<[ptr_root p := Some (nv_modify (ptr_path p) f l)]> e) ;; mret 0.

#[export] Instance nv_store : Nvlist E := {|
  nvlist_t := nv_ptr;
  nvlist_alloc := e ← get_env; put_env (e ++ [Some []]) ;; mret (0, Some (NvPtr (length e) []));
  nvlist_free := fun p => match ptr_path p with
                          | [] => e ← get_env; put_env (<[ptr_root p := None]> e)
                          | _ => _ ← nv_write p (fun _ => []); mret tt
                          end;
  nvlist_add_string := fun p k s => nv_write p (nv_put k (NvString s));
  nvlist_add_boolean_value := fun p k b => nv_write p (nv_put k (NvBooleanValue b));
  nvlist_add_boolean := fun p k => nv_write p (nv_put k NvBoolean);
  nvlist_add_int32 := fun p k z => nv_write p (nv_put k (NvInt32 z));
  nvlist_add_uint32 := fun p k z => nv_write p (nv_put k (NvUint32 z));
  nvlist_add_nvlist := fun p k x => l ← nv_read x; nv_write p (nv_put k (NvNvlist l));
  nvlist_lookup_nvlist := fun p k => l ← nv_read p;
    mret (match nv_find k l with
          | Some (NvNvlist _) => (0, Some (NvPtr (ptr_root p) (ptr_path p ++ [k])))
          | _ => (2, None)
          end);
  nvlist_lookup_string := fun p k => l ← nv_read p;
    mret (match nv_find k l with Some (NvString s) => (0, Some s) | _ => (2, None) end);
  nvlist_lookup_uint32 := fun p k => l ← nv_read p;
    mret (match nv_find k l with Some (NvUint32 z) => (0, Some z) | _ => (2, None) end)
|}.

(** ** It obeys the laws *)

Abbreviation level := (nvlevel nv_ptr).

Fixpoint nv_path (levels : list level) : list cstr :=
  match levels with
  | [] => []
  | (_, k, _) :: outer => match outer with [] => [] | _ => nv_path outer ++ [k] end
  end.

Fixpoint placed (r : nat) (levels : list level) : Prop :=
  match levels with [] => True | (h, _, _) :: outer => h = NvPtr r (nv_path levels) /\ placed r outer end.

(** The outermost list, from the innermost and its name. *)
Fixpoint plug (l : nvpairs) (k : cstr) (outer : list level) : nvpairs :=
  match outer with [] => l | (_, k', l') :: outer => plug (l' ++ [(k, NvNvlist l)]) k' outer end.

Fixpoint fresh_names (k : cstr) (outer : list level) : Prop :=
  match outer with [] => True | (_, k', l') :: outer => k ∉ l'.*1 /\ fresh_names k' outer end.

Definition spare_at (r : option nat) (spare : option nv_ptr) (e : E) : Prop :=
  match spare with
  | None => True
  | Some x => ptr_path x = [] /\ e !! ptr_root x = Some (Some []) /\ r <> Some (ptr_root x)
  end.

Definition store_open (spare : option nv_ptr) (levels : list level) (e : E) : Prop :=
  match levels with
  | [] => spare_at None spare e
  | (_, k, l) :: outer => exists r, placed r levels /\ fresh_names k outer /\
      e !! r = Some (Some (plug l k outer)) /\ spare_at (Some r) spare e
  end.

Lemma nv_find_last k v (l : nvpairs) : k ∉ l.*1 -> nv_find k (l ++ [(k, v)]) = Some v.
Proof.
  induction l as [|[k' v'] l IH]; cbn; [by rewrite decide_True|].
  rewrite not_elem_of_cons. intros [Hk Hl]. rewrite decide_False by done. by apply IH.
Qed.

Lemma nv_modify_last k f (l l' : nvpairs) path :
  k ∉ l.*1 -> nv_modify (k :: path) f (l ++ [(k, NvNvlist l')]) = l ++ [(k, NvNvlist (nv_modify path f l'))].
Proof.
  intros Hk. cbn [nv_modify]. rewrite fmap_app. f_equal; [|cbn; by rewrite decide_True].
  rewrite <-(list_fmap_id l) at 2. apply list_fmap_ext. intros i [k' v] Hi. destruct v as [| | | | | | | |l'']; try done.
  rewrite decide_False; [done|]. intros ->. apply Hk. apply list_elem_of_fmap. exists (k, NvNvlist l'').
  split; [done|]. by eapply list_elem_of_lookup_2.
Qed.

Lemma nv_get_app p q l : nv_get (p ++ q) l = nv_get p l ≫= nv_get q.
Proof.
  revert l. induction p as [|k p IH]; intros l; [done|]. cbn.
  destruct (nv_find k l) as [v|]; [|done]. by destruct v.
Qed.

Lemma nv_modify_app p q f l : nv_modify (p ++ q) f l = nv_modify p (nv_modify q f) l.
Proof.
  revert l. induction p as [|k p IH]; intros l; [done|]. cbn.
  apply list_fmap_ext. intros i [k' v] Hi. destruct v; try done. case_decide; [|done]. by rewrite IH.
Qed.

Lemma get_plug h k l outer : fresh_names k outer -> nv_get (nv_path ((h, k, l) :: outer)) (plug l k outer) = Some l.
Proof.
  revert h k l. induction outer as [|[[h' k'] l'] outer IH]; intros h k l Hf; [done|].
  cbn [fresh_names] in Hf. destruct Hf as [Hk Hf].
  change (nv_path ((h, k, l) :: (h', k', l') :: outer)) with (nv_path ((h', k', l') :: outer) ++ [k]).
  rewrite nv_get_app. cbn [plug].
  change (nv_path ((h', k', l') :: outer)) with (nv_path ((h', k', l' ++ [(k, NvNvlist l)]) :: outer)).
  rewrite IH by done. cbn. by rewrite nv_find_last.
Qed.

Lemma modify_plug h k l outer f : fresh_names k outer ->
  nv_modify (nv_path ((h, k, l) :: outer)) f (plug l k outer) = plug (f l) k outer.
Proof.
  revert h k l f. induction outer as [|[[h' k'] l'] outer IH]; intros h k l f Hf; [done|].
  cbn [fresh_names] in Hf. destruct Hf as [Hk Hf].
  change (nv_path ((h, k, l) :: (h', k', l') :: outer)) with (nv_path ((h', k', l') :: outer) ++ [k]).
  rewrite nv_modify_app. cbn [plug].
  change (nv_path ((h', k', l') :: outer)) with (nv_path ((h', k', l' ++ [(k, NvNvlist l)]) :: outer)).
  rewrite IH by done. by rewrite nv_modify_last.
Qed.

Lemma nv_read_spec spare h k l outer (Q : nvpairs -> world E -> Prop) w :
  store_open spare ((h, k, l) :: outer) (w_env w) -> Q l w -> wp (nv_read h) Q w.
Proof.
  intros (r & [-> _] & Hf & Hr & _) HQ. unfold nv_read. wp_steps. eapply wp_access.
  { cbn [ptr_root]. by rewrite Hr. }
  eapply wp_access; [by apply get_plug|done].
Qed.

Lemma spare_insert r spare (e : E) l :
  spare_at (Some r) spare e -> spare_at (Some r) spare (<[r := l]> e).
Proof.
  destruct spare as [x|]; [|done]. intros (Hp & He & Hne). split_and!; [done| |done].
  rewrite list_lookup_insert_ne; [done|congruence].
Qed.

Lemma nv_write_spec spare h k0 l outer f w :
  good w -> store_open spare ((h, k0, l) :: outer) (w_env w) ->
  wp (nv_write h f) (fun r w' => good w' /\ r = 0 /\ store_open spare ((h, k0, f l) :: outer) (w_env w')) w.
Proof.
  intros Hg (r & [-> Hp] & Hf & Hr & Hs). unfold nv_write. wp_steps. eapply wp_access.
  { cbn [ptr_root]. by rewrite Hr. }
  wp_steps. eapply wp_access; [by apply get_plug|]. wp_steps.
  split; [done|]. split; [done|]. exists r. cbn [ptr_root ptr_path]. split; [by split|]. split; [done|].
  split; [|by apply spare_insert]. rewrite modify_plug by done.
  apply list_lookup_insert_eq. by eapply lookup_lt_Some.
Qed.

Lemma store_adds h k v : adds store_open h k v (nv_write h (nv_put k v)).
Proof. intros k0 l levels w Hg Ho. by apply nv_write_spec. Qed.

Lemma store_alloc levels w : good w -> store_open None levels (w_env w) ->
  wp nvlist_alloc (fun '(r, h) w' => good w' /\ r = 0 /\ exists h', h = Some h' /\ store_open (Some h') levels (w_env w')) w.
Proof.
  intros Hg Ho. cbn. wp_steps. split; [done|]. split; [done|]. eexists. split; [done|].
  assert (Hnew : (w_env w ++ [Some []]) !! length (w_env w) = Some (Some [])).
  { rewrite lookup_app_r by lia. by rewrite Nat.sub_diag. }
  destruct levels as [|[[h k] l] outer]; cbn [store_open spare_at ptr_path ptr_root] in *; [by split_and!|].
  destruct Ho as (r & Hp & Hf & Hr & _). exists r. split; [done|]. split; [done|].
  pose proof (lookup_lt_Some _ _ _ Hr). split; [|split_and!; [done|done|intros [= ->]; lia]].
  by rewrite lookup_app_l.
Qed.

Lemma store_free_spare h levels w : good w -> store_open (Some h) levels (w_env w) ->
  wp (nvlist_free h) (fun _ w' => good w' /\ store_open None levels (w_env w')) w.
Proof.
  intros Hg Ho. assert (ptr_path h = []) as Hp.
  { destruct levels as [|[[? ?] ?] ?]; [by destruct Ho|by destruct Ho as (? & _ & _ & _ & ? & _)]. }
  cbn. rewrite Hp. wp_steps. split; [done|].
  destruct levels as [|[[h0 k] l] outer]; [done|]. destruct Ho as (r & Hpl & Hf & Hr & _ & _ & Hne).
  exists r. split; [done|]. split; [done|]. split; [|done].
  rewrite list_lookup_insert_ne; [done|congruence].
Qed.

Lemma store_close h k l h' k' l' levels e :
  store_open None ((h, k, l) :: (h', k', l') :: levels) e ->
  store_open None ((h', k', l' ++ [(k, NvNvlist l)]) :: levels) e.
Proof.
  intros (r & (_ & Hh & Hp) & (_ & Hf) & Hr & _). exists r. by split_and!.
Qed.

Lemma store_free h k l levels w : good w -> store_open None ((h, k, l) :: levels) (w_env w) ->
  wp (nvlist_free h) (fun _ w' => good w' /\
    exists levels', (fun lv => lv.1.1) <$> levels' = (fun lv => lv.1.1) <$> levels /\ store_open None levels' (w_env w')) w.
Proof.
  intros Hg Ho. destruct levels as [|[[h' k'] l'] levels].
  - destruct Ho as (r & [-> _] & _). cbn. wp_steps. split; [done|]. by exists [].
  - assert (exists r p q, ptr_path h = p :: q /\ h = NvPtr r (p :: q)) as (r & p & q & Hpath & Hh).
    { destruct Ho as (r & [-> _] & _). cbn [ptr_path nv_path].
      destruct (match levels with [] => [] | _ => nv_path levels ++ [k'] end) as [|p q]; by eexists _, _, _. }
    cbn. rewrite Hpath. apply wp_bind.
    eapply wp_mono; [by apply nv_write_spec|]. intros x w' (Hg' & _ & Ho'). apply wp_ret. split; [done|].
    exists ((h', k', l' ++ [(k, NvNvlist [])]) :: levels). split; [done|]. eapply store_close. exact Ho'.
Qed.

Lemma store_lookup h k0 l k levels w :
  good w -> store_open None ((h, k0, l ++ [(k, NvNvlist [])]) :: levels) (w_env w) -> k ∉ l.*1 ->
  wp (nvlist_lookup_nvlist h k) (fun '(r, c) w' => good w' /\ r = 0 /\
    exists c', c = Some c' /\ store_open None ((c', k, []) :: (h, k0, l) :: levels) (w_env w')) w.
Proof.
  intros Hg Ho Hk. cbn. apply wp_bind. eapply nv_read_spec; [exact Ho|]. apply wp_ret.
  rewrite nv_find_last by done. split; [done|]. split; [done|]. eexists. split; [done|].
  destruct Ho as (r & [-> Hp] & Hf & Hr & _). exists r. by repeat split.
Qed.

Lemma store_add_nvlist h x k0 l k levels w : good w -> store_open (Some x) ((h, k0, l) :: levels) (w_env w) ->
  wp (l ← nv_read x; nv_write h (nv_put k (NvNvlist l))) (fun r w' => good w' /\ r = 0 /\
    store_open (Some x) ((h, k0, nv_put k (NvNvlist []) l) :: levels) (w_env w')) w.
Proof.
  intros Hg Ho. apply wp_bind.
  assert (Hx : mjoin (w_env w !! ptr_root x) = Some [] /\ ptr_path x = []).
  { destruct Ho as (r & _ & _ & _ & -> & -> & _). done. }
  destruct Hx as [Hx Hpx]. unfold nv_read. wp_steps. eapply wp_access; [exact Hx|].
  eapply wp_access; [by rewrite Hpx|]. by apply nv_write_spec.
Qed.

#[export] Instance nv_store_laws : NvlistLaws E.
Proof.
  refine {| nv_open := store_open; nv_none := fun _ => I; nv_close := store_close; nv_alloc := store_alloc;
            nv_free_spare := store_free_spare; nv_free := store_free; nv_lookup_nvlist := store_lookup |};
    try (intros; apply store_adds).
  - intros h e (Hp & He & _). exists (ptr_root h). split; [|by split_and!]. split; [|done].
    destruct h. by cbn in *; subst.
  - exact store_add_nvlist.
  - intros h k0 l k levels w Hg Ho. apply wp_bind. eapply nv_read_spec; [exact Ho|]. apply wp_ret.
    destruct (nv_find k l) as [[]|]; by split_and!.
  - intros h k0 l k levels w Hg Ho. apply wp_bind. eapply nv_read_spec; [exact Ho|]. apply wp_ret.
    destruct (nv_find k l) as [[]|]; by split_and!.
Defined.
End store.
