(* ===== verification/Json.v ===== *)
(** * Json: the JSON parser of [dockerinit], [json-nvlist/json-nvlist.c]

    A state machine over a stack of frames that builds a tree of nvlists ([Nvlist]).  [state] is
    [state_t]; a handler takes the state and returns the next one.  The characters are those of
    the caller's memory [s_in], which the parser reads up to index [s_len] included.  The loops of
    the C code are given fuel by the length of that memory; the main loop is given its own. *)
From Stdlib Require Import Lia.
From S2P Require Import Prelude Custr Cnum Manifest Strset Nvlist.

Definition ENOTSUP : Z := 48.

Inductive json_type :=
  JSON_TYPE_NOTHING | JSON_TYPE_STRING | JSON_TYPE_INTEGER | JSON_TYPE_DOUBLE | JSON_TYPE_BOOLEAN
| JSON_TYPE_NULL | JSON_TYPE_OBJECT | JSON_TYPE_ARRAY.

Inductive parse_state :=
  PARSE_ERROR | PARSE_DONE | PARSE_REST | PARSE_OBJECT | PARSE_KEY_STRING | PARSE_COLON | PARSE_STRING
| PARSE_OBJECT_COMMA | PARSE_ARRAY | PARSE_BAREWORD | PARSE_NUMBER | PARSE_ARRAY_VALUE | PARSE_ARRAY_COMMA.

#[export] Instance parse_state_eq_dec : EqDecision parse_state.
Proof. solve_decision. Defined.

(** The values of the two enumerations, for the messages that print them. *)
Definition parse_state_num (ps : parse_state) : Z :=
  match ps with
  | PARSE_ERROR => -1 | PARSE_DONE => 0 | PARSE_REST => 1 | PARSE_OBJECT => 2 | PARSE_KEY_STRING => 3
  | PARSE_COLON => 4 | PARSE_STRING => 5 | PARSE_OBJECT_COMMA => 6 | PARSE_ARRAY => 7 | PARSE_BAREWORD => 8
  | PARSE_NUMBER => 9 | PARSE_ARRAY_VALUE => 10 | PARSE_ARRAY_COMMA => 11
  end.

Definition json_type_num (type : json_type) : Z :=
  match type with
  | JSON_TYPE_NOTHING => 0 | JSON_TYPE_STRING => 1 | JSON_TYPE_INTEGER => 2 | JSON_TYPE_DOUBLE => 3
  | JSON_TYPE_BOOLEAN => 4 | JSON_TYPE_NULL => 5 | JSON_TYPE_OBJECT => 6 | JSON_TYPE_ARRAY => 7
  end.

Definition JSON_MARKER_ARRAY : cstr := cs ".__json_array".

Definition NVJSON_FORCE_INTEGER : Z := 1.
Definition NVJSON_FORCE_DOUBLE : Z := 2.
Definition NVJSON_ERRORS_TO_STDERR : Z := 4.
Definition NVJSON_DEBUG : Z := 8.
Definition NVJSON_ALL : Z :=
  Z.lor (Z.lor (Z.lor NVJSON_FORCE_INTEGER NVJSON_FORCE_DOUBLE) NVJSON_ERRORS_TO_STDERR) NVJSON_DEBUG.

(** [pf_value], a [void *]: a string, or an integer cast to a pointer ([PvWord 0] is NULL). *)
Inductive pf_pointer := PvWord (z : Z) | PvStr (s : cstr).

Section frame.
Context {E : Type} `{Nvlist E}.

Record parse_frame := ParseFrame {
  pf_ps : parse_state;
  pf_nvl : option nvlist_t;
  pf_key : option cstr;
  pf_value : pf_pointer;
  pf_value_type : json_type;
  pf_array_index : Z
}.

Definition with_ps (f : parse_frame) ps := ParseFrame ps (pf_nvl f) (pf_key f) (pf_value f) (pf_value_type f) (pf_array_index f).
Definition with_nvl (f : parse_frame) n := ParseFrame (pf_ps f) n (pf_key f) (pf_value f) (pf_value_type f) (pf_array_index f).
Definition with_key (f : parse_frame) k := ParseFrame (pf_ps f) (pf_nvl f) k (pf_value f) (pf_value_type f) (pf_array_index f).
Definition with_value (f : parse_frame) v := ParseFrame (pf_ps f) (pf_nvl f) (pf_key f) v (pf_value_type f) (pf_array_index f).
Definition with_type (f : parse_frame) t := ParseFrame (pf_ps f) (pf_nvl f) (pf_key f) (pf_value f) t (pf_array_index f).
Definition with_index (f : parse_frame) i := ParseFrame (pf_ps f) (pf_nvl f) (pf_key f) (pf_value f) (pf_value_type f) i.

(** [calloc]: every field zero. *)
Definition zero_frame : parse_frame := ParseFrame PARSE_DONE None None (PvWord 0) JSON_TYPE_NOTHING 0.

Record state := State {
  s_in : list char;
  s_pos : Z;
  s_len : Z;
  s_top : list parse_frame;
  s_flags : Z;
  s_collect : custr;
  s_errno : Z;
  s_errstr : option custr
}.

Definition with_pos (s : state) p := State (s_in s) p (s_len s) (s_top s) (s_flags s) (s_collect s) (s_errno s) (s_errstr s).
Definition with_stack (s : state) t := State (s_in s) (s_pos s) (s_len s) t (s_flags s) (s_collect s) (s_errno s) (s_errstr s).
Definition with_collect (s : state) c := State (s_in s) (s_pos s) (s_len s) (s_top s) (s_flags s) c (s_errno s) (s_errstr s).
Definition with_error (s : state) e m := State (s_in s) (s_pos s) (s_len s) (s_top s) (s_flags s) (s_collect s) e m.
End frame.

Section json.
Context {E : Type} `{Nvlist E} `{DM : DataModel}.

Definition flag_set (flags f : Z) : bool := negb (Z.land flags f =? 0).

(** [s->s_top], followed; and storing through it. *)
Definition top (s : state) : C E parse_frame := c_access (head (s_top s)).
Definition set_top (s : state) (f : parse_frame) : state := with_stack s (f :: tail (s_top s)).

Definition movestate (s : state) (ps : parse_state) : C E state :=
  f ← top s;
  (if flag_set (s_flags s) NVJSON_DEBUG
   then eprint (cs "nvjson: move state " ++ print_d (parse_state_num (pf_ps f)) ++ cs " -> " ++ print_d (parse_state_num ps))
   else mret tt) ;;
  mret (set_top s (with_ps f ps)).

Definition posterror (s : state) (erno : Z) (error : cstr) : C E state :=
  (if flag_set (s_flags s) NVJSON_ERRORS_TO_STDERR
   then eprint (cs "nvjson error (pos " ++ print_d (s_pos s) ++ cs ", errno " ++ print_d erno ++ cs "): " ++ error)
   else mret tt) ;;
  errstr ← match s_errstr s with
           | Some cu => '(_, cu) ← custr_append cu error; mret (Some cu)
           | None => mret None
           end;
  movestate (with_error s erno errstr) PARSE_ERROR.

(** A failure: post the error and return -1 with the state. *)
Definition fail_with (s : state) (erno : Z) (error : cstr) : C E (Z * state) :=
  s ← posterror s erno error; mret (-1, s).

Definition pushstate (s : state) (ps retps : parse_state) : C E (Z * state) :=
  f ← top s;
  (if flag_set (s_flags s) NVJSON_DEBUG
   then eprint (cs "nvjson: push state " ++ print_d (parse_state_num (pf_ps f)) ++ cs " -> "
          ++ print_d (parse_state_num ps) ++ cs " (ret " ++ print_d (parse_state_num retps) ++ cs ")")
   else mret tt) ;;
  n ← malloc (16 + 4 * ptr_bytes);
  match n with
  | None => e ← get_errno; fail_with s e (cs "pushstate calloc failure")
  | Some _ =>
      let n := with_type (with_ps zero_frame ps) JSON_TYPE_NOTHING in
      mret (0, with_stack s (n :: with_ps f retps :: tail (s_top s)))
  end.

(** A character at or before index [s_len] is read; the index of the NUL is not excluded. *)
Definition popchar (s : state) : C E (char * state) :=
  if s_len s <? s_pos s then mret (NUL, s)
  else c ← c_access (s_in s !! Z.to_nat (s_pos s)); mret (c, with_pos s (sz (s_pos s + 1))).

Definition peekchar (s : state) : C E char :=
  if s_len s <? s_pos s then mret NUL else c_access (s_in s !! Z.to_nat (s_pos s)).

(** The functions of ctype.h are given a [char]: defined for the 7-bit characters and for
    [EOF], the value -1. *)
Definition ctype (p : char -> bool) (c : char) : C E bool :=
  if code c <? 128 then mret (p c) else if code c =? 255 then mret false else c_undefined.

Definition islower (c : char) : bool := (97 <=? code c) && (code c <=? 122).
Definition isdigit (c : char) : bool := (48 <=? code c) && (code c <=? 57).

(** Turns enough for a loop that consumes a character a turn. *)
Definition char_fuel (s : state) : nat := 2 + length (s_in s).

Fixpoint discard_loop (fuel : nat) (s : state) : C E state :=
  match fuel with
  | O => c_undefined
  | S fuel =>
      c ← peekchar s;
      b ← ctype isspace c;
      if b : bool then '(_, s) ← popchar s; discard_loop fuel s else mret s
  end.

Definition discard_whitespace (s : state) : C E state := discard_loop (char_fuel s) s.

(** ** Strings *)

Definition escape_pairs : list (char * char) :=
  [(chr 34, chr 34); (chr 92, chr 92); ("/"%char, "/"%char); ("b"%char, chr 8); ("f"%char, chr 12);
   ("n"%char, chr 10); ("r"%char, chr 13); ("t"%char, chr 9)].

(** The [n] digits of a Unicode escape: [None] after an error. *)
Fixpoint read_digs (n : nat) (s : state) (digs : cstr) : C E (option cstr * state) :=
  match n with
  | O => mret (Some digs, s)
  | S n =>
      '(c, s) ← popchar s;
      if decide (c = NUL) then s ← posterror s EPROTO (cs "EOF mid-escape sequence"); mret (None, s)
      else read_digs n s (digs ++ [c])
  end.

(** [custr_appendc(s->s_collect, c)] with its error. *)
Definition collect_char (s : state) (c : char) (error : cstr) : C E (Z * state) :=
  '(r, cu) ← custr_appendc (s_collect s) c;
  let s := with_collect s cu in
  if negb (r =? 0) then e ← get_errno; fail_with s e error else mret (0, s).

Definition collect_unicode (s : state) : C E (Z * state) :=
  '(digs, s) ← read_digs 4 s [];
  match digs with
  | None => mret (-1, s)
  | Some digs =>
      res ← c_access (atoi digs);
      if 127 <? res then fail_with s EPROTO (cs "unicode escape above 0x7f")
      else collect_char s (chr res) (cs "custr_appendc failure")
  end.

Definition collect_string_escape (s : state) : C E (Z * state) :=
  '(c, s) ← popchar s;
  if decide (c = NUL) then fail_with s EPROTO (cs "EOF mid-escape sequence")
  else if Ascii.eqb c "u"%char then collect_unicode s
  else match list_find (fun ep => ep.1 = c) escape_pairs with
       | Some (_, ep) => collect_char s ep.2 (cs "custr_appendc failure")
       | None => fail_with s EPROTO (cs "unrecognised escape sequence")
       end.

Fixpoint string_loop (fuel : nat) (s : state) : C E (Z * state) :=
  match fuel with
  | O => c_undefined
  | S fuel =>
      '(c, s) ← popchar s;
      if Ascii.eqb c (chr 34) then mret (0, s)
      else if decide (c = NUL) then fail_with s EPROTO (cs "EOF mid-string")
      else
        '(r, s) ← (if Ascii.eqb c (chr 92) then collect_string_escape s
                   else collect_char s c (cs "custr_appendc failure"));
        if negb (r =? 0) then mret (-1, s) else string_loop fuel s
  end.

Definition reset_collect (s : state) : C E state := cu ← custr_reset (s_collect s); mret (with_collect s cu).

Definition collect_string (s : state) : C E (Z * state) :=
  s ← reset_collect s; string_loop (char_fuel s) s.

(** ** Literals and numbers *)

(** Collecting while the next character is in a class of ctype.h. *)
Fixpoint collect_while (p : char -> bool) (error : cstr) (fuel : nat) (s : state) : C E (Z * state) :=
  match fuel with
  | O => c_undefined
  | S fuel =>
      c ← peekchar s;
      b ← ctype p c;
      if negb b then mret (0, s) else
      '(c, s) ← popchar s;
      '(r, s) ← collect_char s c error;
      if negb (r =? 0) then mret (-1, s) else collect_while p error fuel s
  end.

Definition collect_bareword (s : state) : C E (Z * state) :=
  s ← reset_collect s; collect_while islower (cs "custr_appendc failure") (char_fuel s) s.

Definition hdlr_bareword (s : state) : C E state :=
  '(r, s) ← collect_bareword s;
  if negb (r =? 0) then mret s else
  str ← custr_cstr (s_collect s);
  f ← top s;
  if strcmp str (cs "true") =? 0 then
    movestate (set_top s (with_value (with_type f JSON_TYPE_BOOLEAN) (PvWord 1))) PARSE_DONE
  else if strcmp str (cs "false") =? 0 then
    movestate (set_top s (with_value (with_type f JSON_TYPE_BOOLEAN) (PvWord 0))) PARSE_DONE
  else if strcmp str (cs "null") =? 0 then
    movestate (set_top s (with_type f JSON_TYPE_NULL)) PARSE_DONE
  else posterror s EPROTO (cs "expected 'true', 'false' or 'null'").

(** The result, [*isint] and [*result]. *)
Definition collect_number (s : state) : C E (Z * bool * Z * state) :=
  s ← reset_collect s;
  c ← peekchar s;
  '(neg, s) ← (if Ascii.eqb c "-"%char then '(_, s) ← popchar s; mret (true, s) else mret (false, s));
  c ← peekchar s;
  b ← ctype isdigit c;
  if negb b then '(r, s) ← fail_with s EPROTO (cs "malformed number: expected digit (0-9)"); mret (r, false, 0, s) else
  '(r, s) ← collect_while isdigit (cs "custr_append failure") (char_fuel s) s;
  if negb (r =? 0) then mret (-1, false, 0, s) else
  c ← peekchar s;
  if Ascii.eqb c "."%char || Ascii.eqb c "e"%char || Ascii.eqb c "E"%char
  then '(r, s) ← fail_with s ENOTSUP (cs "do not yet support FRACs or EXPs"); mret (r, false, 0, s) else
  str ← custr_cstr (s_collect s);
  t ← c_access (atoi str);
  mret (0, true, if (neg : bool) then - t else t, s).

(** [isint] is set by every return of 0; the other branch would read [fresult], which nothing sets. *)
Definition hdlr_number (s : state) : C E state :=
  '(r, isint, result, s) ← collect_number s;
  if negb (r =? 0) then mret s else
  f ← top s;
  if (isint : bool)
  then movestate (set_top s (with_type (with_value f (PvWord result)) JSON_TYPE_INTEGER)) PARSE_DONE
  else c_undefined.

Definition hdlr_rest (s : state) : C E state :=
  s ← discard_whitespace s;
  '(c, s) ← popchar s;
  if Ascii.eqb c "{"%char then movestate s PARSE_OBJECT
  else if Ascii.eqb c "["%char then movestate s PARSE_ARRAY
  else posterror s EPROTO (cs "EOF before object or array").

(** ** Objects and arrays *)

(** An error of a library call whose result is not 0. *)
Definition post_errno (s : state) (error : cstr) : C E (Z * state) := e ← get_errno; fail_with s e error.

Definition add_empty_child (s : state) : C E (Z * state) :=
  '(r, empty) ← nvlist_alloc;
  if negb (r =? 0) then post_errno s (cs "nvlist_alloc failure") else
  empty ← c_access empty;
  f ← top s;
  match tail (s_top s) with
  | [] => mret (0, set_top s (with_nvl f (Some empty)))
  | next :: _ =>
      nvl ← c_access (pf_nvl next);
      key ← c_access (pf_key next);
      r ← nvlist_add_nvlist nvl key empty;
      if negb (r =? 0) then
        '(r, s) ← post_errno s (cs "nvlist_add_nvlist failure"); nvlist_free empty ;; mret (r, s)
      else
      nvlist_free empty ;;
      '(r, child) ← nvlist_lookup_nvlist nvl key;
      if negb (r =? 0) then post_errno s (cs "nvlist_lookup_nvlist failure")
      else child ← c_access child; mret (0, set_top s (with_nvl f (Some child)))
  end.

Definition decorate_array (s : state) : C E (Z * state) :=
  f ← top s;
  let idx := pf_array_index f in
  nvl ← c_access (pf_nvl f);
  r ← nvlist_add_boolean nvl JSON_MARKER_ARRAY;
  r ← (if negb (r =? 0) then mret r else nvlist_add_uint32 nvl (cs "length") (u32 idx));
  if negb (r =? 0) then post_errno s (cs "nvlist_add failure") else mret (0, s).

Definition end_array (s : state) : C E state :=
  '(r, s) ← decorate_array s;
  if negb (r =? 0) then mret s else movestate s PARSE_DONE.

Definition hdlr_array (s : state) : C E state :=
  f ← top s;
  '(r, s) ← add_empty_child (set_top s (with_type f JSON_TYPE_ARRAY));
  if negb (r =? 0) then mret s else
  s ← discard_whitespace s;
  c ← peekchar s;
  if Ascii.eqb c "]"%char then '(_, s) ← popchar s; end_array s
  else movestate s PARSE_ARRAY_VALUE.

Definition hdlr_array_comma (s : state) : C E state :=
  s ← discard_whitespace s;
  '(c, s) ← popchar s;
  if Ascii.eqb c "]"%char then end_array s
  else if Ascii.eqb c ","%char then movestate s PARSE_ARRAY_VALUE
  else posterror s EPROTO (cs "expected ',' or ']'").

(** "Select which type handler we need for the next value": the same in arrays and objects. *)
Definition push_value (s : state) (retps : parse_state) : C E state :=
  c ← peekchar s;
  if Ascii.eqb c (chr 34) then '(_, s) ← popchar s; '(_, s) ← pushstate s PARSE_STRING retps; mret s
  else if Ascii.eqb c "{"%char then '(_, s) ← popchar s; '(_, s) ← pushstate s PARSE_OBJECT retps; mret s
  else if Ascii.eqb c "["%char then '(_, s) ← popchar s; '(_, s) ← pushstate s PARSE_ARRAY retps; mret s
  else
    low ← ctype islower c;
    if low : bool then '(_, s) ← pushstate s PARSE_BAREWORD retps; mret s else
    num ← (if Ascii.eqb c "-"%char then mret true else ctype isdigit c);
    if num : bool then '(_, s) ← pushstate s PARSE_NUMBER retps; mret s
    else posterror s EPROTO (cs "unexpected character at start of value").

(** [asprintf]: the block for the text and its NUL, or -1. *)
Definition asprintf (text : cstr) : C E (option cstr) :=
  m ← malloc (Zlen text + 1); mret (match m with Some _ => Some text | None => None end).

Definition hdlr_array_value (s : state) : C E state :=
  f ← top s;
  match pf_key f with
  | Some key => eprint (cs "pf_key not null! was " ++ key) ;; c_abort
  | None =>
      key ← asprintf (print_d (pf_array_index f));
      let s := set_top s (with_index f (i32 (pf_array_index f + 1))) in
      match key with
      | None => '(_, s) ← post_errno s (cs "asprintf failure"); mret s
      | Some key =>
          f ← top s;
          s ← discard_whitespace (set_top s (with_key f (Some key)));
          push_value s PARSE_ARRAY_COMMA
      end
  end.

Definition hdlr_object (s : state) : C E state :=
  f ← top s;
  '(r, s) ← add_empty_child (set_top s (with_type f JSON_TYPE_OBJECT));
  if negb (r =? 0) then mret s else
  s ← discard_whitespace s;
  '(c, s) ← popchar s;
  if Ascii.eqb c "}"%char then movestate s PARSE_DONE
  else if Ascii.eqb c (chr 34) then movestate s PARSE_KEY_STRING
  else posterror s EPROTO (cs "expected key or '}'").

(** [strdup(custr_cstr(s->s_collect))]. *)
Definition dup_collect (s : state) : C E (option cstr) :=
  str ← custr_cstr (s_collect s);
  m ← malloc (Zlen str + 1); mret (match m with Some _ => Some str | None => None end).

Definition hdlr_key_string (s : state) : C E state :=
  '(r, s) ← collect_string s;
  if negb (r =? 0) then mret s else
  key ← dup_collect s;
  f ← top s;
  match key with
  | None => '(_, s) ← post_errno (set_top s (with_key f None)) (cs "strdup failure"); mret s
  | Some key => movestate (set_top s (with_key f (Some key))) PARSE_COLON
  end.

Definition hdlr_colon (s : state) : C E state :=
  s ← discard_whitespace s;
  '(c, s) ← popchar s;
  if negb (Ascii.eqb c ":"%char) then posterror s EPROTO (cs "expected ':'") else
  s ← discard_whitespace s;
  push_value s PARSE_OBJECT_COMMA.

Definition hdlr_object_comma (s : state) : C E state :=
  s ← discard_whitespace s;
  '(c, s) ← popchar s;
  if Ascii.eqb c "}"%char then movestate s PARSE_DONE
  else if Ascii.eqb c ","%char then
    s ← discard_whitespace s;
    '(c, s) ← popchar s;
    if negb (Ascii.eqb c (chr 34)) then posterror s EPROTO (cs "expected '" ++ chr 34 :: cs "'")
    else movestate s PARSE_KEY_STRING
  else posterror s EPROTO (cs "expected ',' or '}'").

Definition hdlr_string (s : state) : C E state :=
  '(r, s) ← collect_string s;
  if negb (r =? 0) then mret s else
  f ← top s;
  let s := set_top s (with_type f JSON_TYPE_STRING) in
  str ← dup_collect s;
  f ← top s;
  match str with
  | None => '(_, s) ← post_errno (set_top s (with_value f (PvWord 0))) (cs "strdup failure"); mret s
  | Some str => movestate (set_top s (with_value f (PvStr str))) PARSE_DONE
  end.

(** The pair the top frame's value becomes in the list of the frame below. *)
Definition add_value (targ : nvlist_t) (key : cstr) (type : json_type) (value : pf_pointer) (s : state) : C E (Z * state) :=
  let check (r : Z) (error : cstr) : C E (Z * state) := if negb (r =? 0) then post_errno s error else mret (0, s) in
  match type, value with
  | JSON_TYPE_STRING, PvStr str => r ← nvlist_add_string targ key str; check r (cs "nvlist_add_string failure")
  | JSON_TYPE_BOOLEAN, PvWord b =>
      r ← nvlist_add_boolean_value targ key (negb (b =? 0)); check r (cs "nvlist_add_boolean_value failure")
  | JSON_TYPE_NULL, _ => r ← nvlist_add_boolean targ key; check r (cs "nvlist_add_boolean failure")
  | JSON_TYPE_INTEGER, PvWord z => r ← nvlist_add_int32 targ key (i32 z); check r (cs "nvlist_add_int32 failure")
  | JSON_TYPE_ARRAY, _ | JSON_TYPE_OBJECT, _ => mret (0, s)
  | JSON_TYPE_STRING, PvWord _ | JSON_TYPE_BOOLEAN, PvStr _ | JSON_TYPE_INTEGER, PvStr _ => c_undefined
  | JSON_TYPE_NOTHING, _ | JSON_TYPE_DOUBLE, _ =>
      eprint (cs "ERROR: could not store unknown type " ++ print_d (json_type_num type)) ;; c_abort
  end.

Definition store_value (s : state) : C E (Z * state) :=
  f ← top s;
  next ← c_access (head (tail (s_top s)));
  targ ← c_access (pf_nvl next);
  key ← c_access (pf_key next);
  '(ret, s) ← add_value targ key (pf_value_type f) (pf_value f) s;
  match s_top s with
  | f :: next :: rest =>
      mret (ret, with_stack s (with_value f (PvWord 0) :: with_key next None :: rest))
  | _ => c_undefined
  end.

(** Releasing the top frame: the frames below it. *)
Definition parse_frame_free (pfs : list parse_frame) (free_nvl : bool) : C E (list parse_frame) :=
  pf ← c_access (head pfs);
  match pf_value pf with
  | PvWord 0 =>
      match pf_nvl pf with
      | Some nvl => if free_nvl then nvlist_free nvl else mret tt
      | None => mret tt
      end ;;
      mret (tail pfs)
  | _ => c_abort
  end.

Definition hdlrs (ps : parse_state) : option (state -> C E state) :=
  match ps with
  | PARSE_ERROR | PARSE_DONE => None
  | PARSE_REST => Some hdlr_rest
  | PARSE_OBJECT => Some hdlr_object
  | PARSE_KEY_STRING => Some hdlr_key_string
  | PARSE_COLON => Some hdlr_colon
  | PARSE_STRING => Some hdlr_string
  | PARSE_OBJECT_COMMA => Some hdlr_object_comma
  | PARSE_ARRAY => Some hdlr_array
  | PARSE_BAREWORD => Some hdlr_bareword
  | PARSE_NUMBER => Some hdlr_number
  | PARSE_ARRAY_VALUE => Some hdlr_array_value
  | PARSE_ARRAY_COMMA => Some hdlr_array_comma
  end.

(** Popping a finished frame: [None] to leave the loop, after a failure to store its value. *)
Definition pop_frame (s : state) : C E (bool * state) :=
  '(r, s) ← store_value s;
  if negb (r =? 0) then mret (false, s) else
  rest ← parse_frame_free (s_top s) false;
  mret (true, with_stack s rest).

Definition dispatch (s : state) : C E state :=
  f ← top s;
  match hdlrs (pf_ps f) with
  | None => eprint (cs "no handler for state " ++ print_d (parse_state_num (pf_ps f))) ;; c_abort
  | Some hdlr => hdlr s
  end.

(** The main loop, to the label [out]: the state and what is stored in [*nvlp]. *)
Fixpoint main_loop (fuel : nat) (s : state) : C E (option nvlist_t * state) :=
  match fuel with
  | O => c_undefined
  | S fuel =>
      f ← top s;
      if decide (pf_ps f = PARSE_ERROR) then mret (None, s)
      else if decide (pf_ps f = PARSE_DONE) then
        match tail (s_top s) with
        | [] => mret (pf_nvl f, s)
        | _ =>
            '(popped, s) ← pop_frame s;
            if popped : bool then s ← dispatch s; main_loop fuel s else mret (None, s)
        end
      else s ← dispatch s; main_loop fuel s
  end.

Fixpoint free_frames (pfs : list parse_frame) (free_nvl : bool) : C E () :=
  match pfs with
  | [] => mret tt
  | _ :: rest => _ ← parse_frame_free pfs free_nvl; free_frames rest free_nvl
  end.

(** What [errout] receives: [nje_errno], [nje_pos] and the text in [nje_message]. *)
Record json_error := JsonError { nje_errno : Z; nje_pos : Z; nje_message : cstr }.

Definition MESSAGE_SIZE : Z := 512.

(** Turns of the main loop: four for each character read, and a few for the outermost frame. *)
Definition loop_fuel (buflen : Z) : nat := 8 + 4 * Z.to_nat buflen.

(** "custr alloc failure: %s", cut to the buffer. *)
Definition alloc_failure (strerror : Z -> cstr) (e : Z) : cstr := take 511 (cs "custr alloc failure: " ++ strerror e).

(** The label [out]: the error information, the frames released, [errno] and the result. *)
Definition parse_out (errout : option (Z * list char)) (nvlp : option nvlist_t) (s : state) (message : cstr)
  : C E (Z * option nvlist_t * option json_error) :=
  free_frames (s_top s) (negb (s_errno s =? 0)) ;;
  set_errno (s_errno s) ;;
  mret (if s_errno s =? 0 then 0 else -1, nvlp,
        match errout with Some _ => Some (JsonError (s_errno s) (s_pos s) message) | None => None end).

(** The error string over the caller's buffer: whether to go on, and the message if not. *)
Definition alloc_errstr (strerror : Z -> cstr) (errout : option (Z * list char)) (s : state) : C E (bool * state * cstr) :=
  match errout with
  | None => mret (true, s, [])
  | Some _ =>
      '(r, m) ← custr_alloc_buf errout MESSAGE_SIZE;
      match m with
      | Some m => if negb (r =? 0) then e ← get_errno; mret (false, with_error s e None, alloc_failure strerror e)
                  else m ← custr_reset m; mret (true, with_error s (s_errno s) (Some m), [])
      | None => e ← get_errno; mret (false, with_error s e None, alloc_failure strerror e)
      end
  end.

(** [errout] is absent, or the address and bytes of its [nje_message]. *)
Definition nvlist_parse_json (strerror : Z -> cstr) (buf : list char) (buflen : Z) (flag : Z)
    (errout : option (Z * list char)) : C E (Z * option nvlist_t * option json_error) :=
  if flag_set flag NVJSON_FORCE_INTEGER && flag_set flag NVJSON_FORCE_DOUBLE then set_errno EINVAL ;; mret (-1, None, None)
  else if negb (Z.land flag (Z.lnot NVJSON_ALL) =? 0) then set_errno EINVAL ;; mret (-1, None, None)
  else
  let s := State buf 0 buflen [] flag (Custr 0 0 None 0) 0 None in
  collect ← custr_alloc;
  match collect with
  | None =>
      e ← get_errno;
      parse_out errout None (with_error s e None) (match errout with Some _ => alloc_failure strerror e | None => [] end)
  | Some collect =>
      '(ok, s, message) ← alloc_errstr strerror errout (with_collect s collect);
      if negb (ok : bool) then parse_out errout None s message else
      n ← malloc (16 + 4 * ptr_bytes);
      match n with
      | None => e ← get_errno; parse_out errout None (with_error s e (s_errstr s)) []
      | Some _ =>
          '(nvlp, s) ← main_loop (loop_fuel buflen) (with_stack s [with_ps zero_frame PARSE_REST]);
          message ← match s_errstr s with Some m => custr_cstr m | None => mret [] end;
          parse_out errout nvlp s message
      end
  end.
End json.
