(* ===== verification/JsonSpec.v ===== *)
(** * JsonSpec: what the JSON parser computes

    A recursive descent parser over the characters not yet read ([r_json]) is the specification
    of the state machine of [Json]; the machine is shown to compute it for every input, and to
    read back a printed document. *)
From Stdlib Require Import Lia.
From S2P Require Import Prelude Custr Cnum Manifest Strset Nvlist Json.

(** ** Reference parser *)

(** A value and the characters after it; an error with its [errno] and message; or no answer, where
    the C code's behaviour is undefined. *)
Inductive pres (A : Type) :=
| POk (a : A) (rest : list char)
| PErr (erno : Z) (msg : cstr)
| PStuck.
Arguments POk {A}.
Arguments PErr {A}.
Arguments PStuck {A}.

Definition pbind {A B} (m : pres A) (k : A -> list char -> pres B) : pres B :=
  match m with POk a t => k a t | PErr e msg => PErr e msg | PStuck => PStuck end.

(** After the last character the parser reads NULs. *)
Definition first (t : list char) : char := default NUL (head t).

(** A function of ctype.h on a [char]. *)
Definition class (p : char -> bool) (c : char) : option bool :=
  if code c <? 128 then Some (p c) else if code c =? 255 then Some false else None.

(** The characters of a class at the head of [t], after [acc]. *)
Fixpoint r_span (p : char -> bool) (acc t : list char) : option (cstr * list char) :=
  match t with
  | [] => Some (acc, [])
  | c :: t' => match class p c with
               | Some true => r_span p (acc ++ [c]) t'
               | Some false => Some (acc, t)
               | None => None
               end
  end.

(** Going on after white space. *)
Definition after_space {A} (t : list char) (k : list char -> pres A) : pres A :=
  match r_span isspace [] t with Some (_, t) => k t | None => PStuck end.

Definition escape_eof {A} : pres A := PErr EPROTO (cs "EOF mid-escape sequence").

(** The characters of a string, from after its opening quote. *)
Fixpoint r_string (acc t : list char) : pres cstr :=
  match t with
  | [] => PErr EPROTO (cs "EOF mid-string")
  | c :: t =>
      if Ascii.eqb c (chr 34) then POk acc t
      else if decide (c = NUL) then PErr EPROTO (cs "EOF mid-string")
      else if Ascii.eqb c (chr 92) then
        match t with
        | [] => escape_eof
        | c :: t =>
            if decide (c = NUL) then escape_eof
            else if Ascii.eqb c "u"%char then
              match t with
              | d1 :: d2 :: d3 :: d4 :: t =>
                  if decide (is_cstr [d1; d2; d3; d4]) then
                    match atoi [d1; d2; d3; d4] with
                    | None => PStuck
                    | Some res => if 127 <? res then PErr EPROTO (cs "unicode escape above 0x7f")
                                  else r_string (acc ++ [chr res]) t
                    end
                  else escape_eof
              | _ => escape_eof
              end
            else match list_find (fun ep => ep.1 = c) escape_pairs with
                 | Some (_, ep) => r_string (acc ++ [ep.2]) t
                 | None => PErr EPROTO (cs "unrecognised escape sequence")
                 end
        end
      else r_string (acc ++ [c]) t
  end.

Definition r_bareword (t : list char) : pres nvval :=
  match r_span islower [] t with
  | None => PStuck
  | Some (w, t) =>
      if strcmp (c_text w) (cs "true") =? 0 then POk (NvBooleanValue true) t
      else if strcmp (c_text w) (cs "false") =? 0 then POk (NvBooleanValue false) t
      else if strcmp (c_text w) (cs "null") =? 0 then POk NvBoolean t
      else PErr EPROTO (cs "expected 'true', 'false' or 'null'")
  end.

Definition r_number (t : list char) : pres nvval :=
  let neg := Ascii.eqb (first t) "-"%char in
  let t := if neg then tail t else t in
  match class isdigit (first t) with
  | None => PStuck
  | Some false => PErr EPROTO (cs "malformed number: expected digit (0-9)")
  | Some true =>
      match r_span isdigit [] t with
      | None => PStuck
      | Some (ds, t) =>
          let c := first t in
          if Ascii.eqb c "."%char || Ascii.eqb c "e"%char || Ascii.eqb c "E"%char
          then PErr ENOTSUP (cs "do not yet support FRACs or EXPs")
          else match atoi (c_text ds) with
               | None => PStuck
               | Some v => POk (NvInt32 (i32 (if neg then - v else v))) t
               end
      end
  end.

(** The pairs a finished array has besides its elements. *)
Definition decorated (idx : Z) (l : nvpairs) : nvpairs :=
  nv_put (cs "length") (NvUint32 (u32 idx)) (nv_put JSON_MARKER_ARRAY NvBoolean l).

(** Values, from their first character; objects and arrays, from after the bracket; members, from
    after the quote of a name, with the pairs so far; and elements, with the next index. *)
Fixpoint r_value (n : nat) (t : list char) : pres nvval :=
  match n with
  | O => PStuck
  | S n =>
      let c := first t in
      if Ascii.eqb c (chr 34) then pbind (r_string [] (tail t)) (fun s => POk (NvString (c_text s)))
      else if Ascii.eqb c "{"%char then pbind (r_object n (tail t)) (fun l => POk (NvNvlist l))
      else if Ascii.eqb c "["%char then pbind (r_array n (tail t)) (fun l => POk (NvNvlist l))
      else match class islower c with
           | None => PStuck
           | Some true => r_bareword t
           | Some false =>
               match (if Ascii.eqb c "-"%char then Some true else class isdigit c) with
               | None => PStuck
               | Some true => r_number t
               | Some false => PErr EPROTO (cs "unexpected character at start of value")
               end
           end
  end
with r_object (n : nat) (t : list char) : pres nvpairs :=
  match n with
  | O => PStuck
  | S n => after_space t (fun t =>
      if Ascii.eqb (first t) "}"%char then POk [] (tail t)
      else if Ascii.eqb (first t) (chr 34) then r_members n [] (tail t)
      else PErr EPROTO (cs "expected key or '}'"))
  end
with r_members (n : nat) (l : nvpairs) (t : list char) : pres nvpairs :=
  match n with
  | O => PStuck
  | S n => pbind (r_string [] t) (fun key t => after_space t (fun t =>
      if negb (Ascii.eqb (first t) ":"%char) then PErr EPROTO (cs "expected ':'") else
      after_space (tail t) (fun t => pbind (r_value n t) (fun v t =>
      let l := nv_put (c_text key) v l in
      after_space t (fun t =>
      if Ascii.eqb (first t) "}"%char then POk l (tail t)
      else if Ascii.eqb (first t) ","%char then
        after_space (tail t) (fun t =>
        if negb (Ascii.eqb (first t) (chr 34)) then PErr EPROTO (cs "expected '" ++ chr 34 :: cs "'")
        else r_members n l (tail t))
      else PErr EPROTO (cs "expected ',' or '}'"))))))
  end
with r_array (n : nat) (t : list char) : pres nvpairs :=
  match n with
  | O => PStuck
  | S n => after_space t (fun t =>
      if Ascii.eqb (first t) "]"%char then POk (decorated 0 []) (tail t) else r_elements n 0 [] t)
  end
with r_elements (n : nat) (idx : Z) (l : nvpairs) (t : list char) : pres nvpairs :=
  match n with
  | O => PStuck
  | S n => after_space t (fun t => pbind (r_value n t) (fun v t =>
      let l := nv_put (print_d idx) v l in
      let idx := i32 (idx + 1) in
      after_space t (fun t =>
      if Ascii.eqb (first t) "]"%char then POk (decorated idx l) (tail t)
      else if Ascii.eqb (first t) ","%char then r_elements n idx l (tail t)
      else PErr EPROTO (cs "expected ',' or ']'"))))
  end.

(** A document: an object or an array. *)
Definition r_json (n : nat) (t : list char) : pres nvpairs :=
  after_space t (fun t =>
    if Ascii.eqb (first t) "{"%char then r_object n (tail t)
    else if Ascii.eqb (first t) "["%char then r_array n (tail t)
    else PErr EPROTO (cs "EOF before object or array")).

Example r_json_ex : r_json 9 (cs "[1, {" ++ chr 34 :: cs "a" ++ chr 34 :: cs ":null}]x")
  = POk (decorated 2 [(cs "0", NvInt32 1); (cs "1", NvNvlist [(cs "a", NvBoolean)])]) (cs "x").
Proof. by vm_compute. Qed.

(** ** Facts about the reference parser *)

Lemma first_nil p : class p (first []) = Some (p NUL).
Proof. done. Qed.

(** What follows from a result of the reference parser. *)
Definition given {A} (r : pres A) (ok : A -> list char -> Prop) (err : Z -> cstr -> Prop) : Prop :=
  match r with POk a t => ok a t | PErr e m => err e m | PStuck => False end.

(** The escape sequences: what one of them appends, from after the backslash. *)
Definition r_escape (t : list char) : pres char :=
  match t with
  | [] => escape_eof
  | c :: t =>
      if decide (c = NUL) then escape_eof
      else if Ascii.eqb c "u"%char then
        if decide ((4 <= length t)%nat /\ is_cstr (take 4 t)) then
          match atoi (take 4 t) with
          | None => PStuck
          | Some res => if 127 <? res then PErr EPROTO (cs "unicode escape above 0x7f") else POk (chr res) (drop 4 t)
          end
        else escape_eof
      else match list_find (fun ep => ep.1 = c) escape_pairs with
           | Some (_, ep) => POk ep.2 t
           | None => PErr EPROTO (cs "unrecognised escape sequence")
           end
  end.

(** One step of [r_string]. *)
Lemma r_string_step acc t :
  r_string acc t =
    if Ascii.eqb (first t) (chr 34) then POk acc (tail t)
    else if decide (first t = NUL) then PErr EPROTO (cs "EOF mid-string")
    else pbind (if Ascii.eqb (first t) (chr 92) then r_escape (tail t) else POk (first t) (tail t))
           (fun c t => r_string (acc ++ [c]) t).
Proof.
  destruct t as [|c t]; [done|]. cbn [r_string]. change (first (c :: t)) with c. cbn [tail].
  destruct (Ascii.eqb c (chr 34)); [done|]. case_decide; [done|]. destruct (Ascii.eqb c (chr 92)); [|done].
  unfold r_escape. destruct t as [|d t]; [done|]. case_decide; [done|]. destruct (Ascii.eqb d "u").
  - destruct t as [|d1 [|d2 [|d3 [|d4 t]]]]; try (rewrite decide_False by (intros [? _]; cbn in *; lia); done).
    cbn [take drop]. case_decide as Hc.
    + rewrite decide_True by (split; [cbn; lia|done]). destruct (atoi _) as [res|]; [|done]. by destruct (127 <? res).
    + by rewrite decide_False by naive_solver.
  - by destruct (list_find _ _) as [[i ep]|].
Qed.

Lemma r_escape_length t c t' : r_escape t = POk c t' -> (length t' < length t)%nat.
Proof.
  unfold r_escape, escape_eof. destruct t as [|d t]; [done|]. case_decide; [done|]. destruct (Ascii.eqb d "u").
  - case_decide; [|done]. destruct (atoi _) as [res|]; [|done]. destruct (127 <? res); [done|].
    intros [= _ <-]. rewrite length_drop. cbn. lia.
  - destruct (list_find _ _) as [[i ep]|]; [|done]. intros [= _ <-]. cbn. lia.
Qed.

Lemma pbind_given {A B} (m : pres A) (k : A -> list char -> pres B) ok err :
  given (pbind m k) ok err <-> given m (fun a t => given (k a t) ok err) err.
Proof. by destruct m. Qed.

Lemma span_length p acc t acc' t' : r_span p acc t = Some (acc', t') -> (length t' <= length t)%nat.
Proof.
  revert acc. induction t as [|c t IH]; intros acc; cbn; [by intros [= _ <-]|].
  destruct (class p c) as [[]|]; [intros Hs; apply IH in Hs; cbn; lia|by intros [= _ <-]|done].
Qed.

Lemma r_string_length acc t acc' t' : r_string acc t = POk acc' t' ->
  (length t' < length t /\ length acc' + length t' <= length acc + length t)%nat.
Proof.
  remember (length t) as n eqn:Hn. revert acc t Hn. induction n as [n IH] using lt_wf_ind. intros acc t ->.
  rewrite r_string_step. destruct t as [|c t]; [done|]. change (first (c :: t)) with c. cbn [tail length].
  destruct (Ascii.eqb c (chr 34)); [intros [= <- <-]; lia|]. case_decide; [done|].
  destruct (Ascii.eqb c (chr 92)); cbn [pbind].
  - destruct (r_escape t) as [d t1|e m|] eqn:Hesc; [|done..]. apply r_escape_length in Hesc. cbn [pbind].
    intros Hr. eapply (IH (length t1)) in Hr; [|cbn; lia|done]. rewrite length_app in Hr. cbn in Hr. lia.
  - intros Hr. eapply (IH (length t)) in Hr; [|cbn; lia|done]. rewrite length_app in Hr. cbn in Hr. lia.
Qed.

Lemma span_consumes p acc t acc' t' :
  class p (first t) = Some true -> p NUL = false -> r_span p acc t = Some (acc', t') -> (length t' < length t)%nat.
Proof.
  intros Hc Hnul. destruct t as [|c t]; [rewrite first_nil in Hc; congruence|]. change (first (c :: t)) with c in Hc.
  cbn [r_span]. rewrite Hc. intros Hs%span_length. cbn. lia.
Qed.

Lemma tail_length (t : list char) c : Ascii.eqb (first t) c = true -> c <> NUL -> (length t = 1 + length (tail t))%nat.
Proof. destruct t; [|done]. intros Hc%Ascii.eqb_eq Hn. by subst. Qed.

(** ** Which inputs have an answer *)

(** 7-bit text whose digit runs are short enough for [atoi]. *)
Definition ascii_text (t : list char) : Prop := Forall (fun c => code c < 128) t.
Definition short_runs (t : list char) : Prop :=
  forall a b c, t = a ++ b ++ c -> Forall (fun c => isdigit c = true) b -> (length b <= 9)%nat.
Definition plain (t : list char) : Prop := ascii_text t /\ short_runs t.

(** Nine characters or fewer have no longer run. *)
Lemma short_plain t : Forall (fun c => code c < 128) t -> (length t <= 9)%nat -> plain t.
Proof. intros Ha Hl. split; [done|]. intros a b c -> _. rewrite !length_app in Hl. lia. Qed.

Lemma plain_suffix t t' : t' `suffix_of` t -> plain t -> plain t'.
Proof.
  intros [u ->] [Ha Hs]. apply Forall_app in Ha as [_ Ha]. split; [done|].
  intros a b c -> Hd. by apply (Hs (u ++ a) b c); [rewrite <-app_assoc|].
Qed.

Lemma tail_suffix (t : list char) : tail t `suffix_of` t.
Proof. destruct t as [|c t]; [done|by exists [c]]. Qed.

Lemma suffix_length' (t' t : list char) : t' `suffix_of` t -> (length t' <= length t)%nat.
Proof. intros [u ->]. rewrite length_app. lia. Qed.

(** An answer, if any, leaves a suffix. *)
Definition answered {A} (t : list char) (r : pres A) : Prop :=
  given r (fun _ t' => t' `suffix_of` t) (fun _ _ => True).

Lemma answered_suffix {A} (t t' : list char) (r : pres A) : t' `suffix_of` t -> answered t' r -> answered t r.
Proof. intros Ht. unfold answered. destruct r; cbn; [|done..]. intros. by etrans. Qed.

Lemma answered_ok {A} t (a : A) : answered t (POk a t).
Proof. unfold answered, given. reflexivity. Qed.

Lemma answered_tail {A} t (r : pres A) : plain t -> (plain (tail t) -> answered (tail t) r) -> answered t r.
Proof. intros Hp Hr. eapply answered_suffix; [apply tail_suffix|]. apply Hr. by eapply plain_suffix; [apply tail_suffix|]. Qed.

Lemma answered_bind {A B} t (m : pres A) (k : A -> list char -> pres B) :
  answered t m -> plain t ->
  (forall a t', m = POk a t' -> plain t' -> (length t' <= length t)%nat -> answered t' (k a t')) -> answered t (pbind m k).
Proof.
  intros Hm Hp Hk. destruct m as [a t'| |]; [|done..]. change (t' `suffix_of` t) in Hm. cbn [pbind].
  eapply answered_suffix; [exact Hm|]. apply Hk; [done|by eapply plain_suffix|by apply suffix_length'].
Qed.

Lemma class_plain p t : plain t -> class p (first t) = Some (p (first t)).
Proof.
  intros [Ha _]. unfold class. destruct t as [|c t]; [done|]. apply Forall_cons_1 in Ha as [Hc _].
  change (first (c :: t)) with c. by apply Z.ltb_lt in Hc as ->.
Qed.

Lemma span_plain p acc t : ascii_text t ->
  exists w t', r_span p acc t = Some (acc ++ w, t') /\ t = w ++ t' /\ Forall (fun c => p c = true) w.
Proof.
  revert acc. induction t as [|c t IH]; intros acc Ha; cbn [r_span].
  - exists [], []. by rewrite app_nil_r.
  - apply Forall_cons_1 in Ha as [Hc Ha]. unfold class. apply Z.ltb_lt in Hc as ->. destruct (p c) eqn:Hp.
    + destruct (IH (acc ++ [c]) Ha) as (w & t' & -> & -> & Hw). exists (c :: w), t'.
      split; [by rewrite <-app_assoc|]. split; [done|by constructor].
    + exists [], (c :: t). rewrite app_nil_r. split; [done|]. split; [done|constructor].
Qed.

Lemma after_space_plain {A} t (k : list char -> pres A) :
  plain t -> (forall t', plain t' -> (length t' <= length t)%nat -> answered t' (k t')) -> answered t (after_space t k).
Proof.
  intros Hp Hk. unfold after_space. destruct (span_plain isspace [] t (proj1 Hp)) as (w & t' & -> & -> & _).
  assert (Ht : t' `suffix_of` w ++ t') by by exists w. eapply answered_suffix; [exact Ht|].
  apply Hk; [by eapply plain_suffix|by apply suffix_length'].
Qed.

(** [atoi] of short texts. *)
Lemma scan_digits_bound acc s : 0 <= acc -> 0 <= (scan_digits 10 acc s).1 < (acc + 1) * 10 ^ Zlen s.
Proof.
  revert acc. induction s as [|c s IH]; intros acc Hacc; [cbn [scan_digits fst]; change (10 ^ Zlen []) with 1; lia|]. rewrite Zlen_cons.
  pose proof (Zlen_nonneg s) as Hs. rewrite Z.pow_add_r by lia. change (10 ^ 1) with 10.
  pose proof (Z.pow_pos_nonneg 10 (Zlen s) ltac:(lia) Hs). cbn [scan_digits].
  destruct (digit_val c) as [d|] eqn:Hd; [|cbn; nia]. destruct (Z.ltb_spec d 10); [|cbn; nia].
  assert (0 <= d). { unfold digit_val in Hd. pose proof (code_range c). repeat case_match; simplify_eq; lia. }
  specialize (IH (acc * 10 + d) ltac:(lia)). nia.
Qed.

Lemma skip_space_length s : (length (skip_space s) <= length s)%nat.
Proof. induction s as [|c s IH]; [done|]. cbn [skip_space]. destruct (isspace c); cbn in *; lia. Qed.

Lemma atoi_short s : (length s <= 9)%nat -> is_Some (atoi s).
Proof.
  intros Hs. unfold atoi, scan_number. destruct (scan_sign (skip_space s)) as [neg s1] eqn:Hsign.
  assert (length s1 <= 9)%nat.
  { pose proof (skip_space_length s). destruct (skip_space s) as [|c s2]; cbn in *;
      repeat case_match; simplify_eq; cbn in *; lia. }
  assert (skip_prefix 10 s1 = s1) as -> by (by destruct s1 as [|? [|? [|? ?]]]).
  destruct s1 as [|c s1]; [done|]. destruct (is_digit_in 10 c); [|done].
  pose proof (scan_digits_bound 0 (c :: s1) ltac:(lia)) as Hb. destruct (scan_digits 10 0 (c :: s1)) as [v rest]. cbn [fst] in Hb.
  assert (10 ^ Zlen (c :: s1) <= 10 ^ 9) by (apply Z.pow_le_mono_r; unfold Zlen; lia).
  change (10 ^ 9) with 1000000000 in *. unfold INT_MIN, INT_MAX.
  destruct neg; cbn beta iota zeta.
  - assert ((-2147483648 <=? - v) && (- v <=? 2147483647) = true) as -> by lia. done.
  - assert ((-2147483648 <=? v) && (v <=? 2147483647) = true) as -> by lia. done.
Qed.

Lemma string_plain acc t : answered t (r_string acc t).
Proof.
  remember (length t) as n eqn:Hn. revert acc t Hn. induction n as [n IH] using lt_wf_ind. intros acc t ->.
  rewrite r_string_step. destruct t as [|c t]; [done|]. change (first (c :: t)) with c. cbn [tail].
  destruct (Ascii.eqb c (chr 34)); [by exists [c]|]. case_decide; [done|].
  assert (Hrec : forall a t', t' `suffix_of` t -> answered (c :: t) (r_string a t')).
  { intros a t' Ht'. eapply answered_suffix; [|eapply (IH (length t')); [|done]].
    - etrans; [exact Ht'|by exists [c]].
    - apply suffix_length' in Ht'. cbn. lia. }
  destruct (Ascii.eqb c (chr 92)); cbn [pbind]; [|by apply Hrec].
  unfold r_escape. destruct t as [|d t]; [done|]. case_decide; [done|]. destruct (Ascii.eqb d "u").
  - case_decide as Hd; [|done]. destruct (atoi_short (take 4 t)) as [res ->]; [rewrite length_take; lia|].
    destruct (127 <? res); [done|]. cbn [pbind]. apply Hrec. etrans; [|by exists [d]].
    exists (take 4 t). by rewrite take_drop.
  - destruct (list_find _ _) as [[i ep]|]; [|done]. cbn [pbind]. apply Hrec. by exists [d].
Qed.

Lemma bareword_plain t : plain t -> answered t (r_bareword t).
Proof.
  intros [Ha _]. unfold r_bareword. destruct (span_plain islower [] t Ha) as (w & t' & -> & -> & _).
  assert (t' `suffix_of` w ++ t') by by exists w. repeat (case_match; [done|]). done.
Qed.

Lemma number_plain t : plain t -> answered t (r_number t).
Proof.
  intros Hp. unfold r_number. set (t1 := if Ascii.eqb (first t) "-" then tail t else t).
  assert (Ht1 : t1 `suffix_of` t) by (unfold t1; destruct (Ascii.eqb _ _); [apply tail_suffix|done]).
  pose proof (plain_suffix _ _ Ht1 Hp) as Hp1. rewrite class_plain by done. destruct (isdigit (first t1)); [|done].
  destruct (span_plain isdigit [] t1 (proj1 Hp1)) as (w & t' & -> & Hw & Hd). cbn [app].
  destruct (_ || _ || _); [done|]. destruct (atoi_short (c_text w)) as [v ->].
  { pose proof (c_text_length w). pose proof (proj2 Hp1 [] w t' Hw Hd). lia. }
  change (t' `suffix_of` t). etrans; [|exact Ht1]. rewrite Hw. by exists w.
Qed.

(** With three times as much fuel as characters, the mutual functions do not run out. *)
Definition value_total n := forall t, plain t -> (3 * length t + 1 <= n)%nat -> answered t (r_value n t).
Definition object_total n := forall t, plain t -> (3 * length t + 1 <= n)%nat -> answered t (r_object n t).
Definition array_total n := forall t, plain t -> (3 * length t + 3 <= n)%nat -> answered t (r_array n t).
Definition members_total n := forall l t, plain t -> (3 * length t + 1 <= n)%nat -> answered t (r_members n l t).
Definition elements_total n := forall idx l t, plain t -> (3 * length t + 2 <= n)%nat -> answered t (r_elements n idx l t).

(** A character read: the text gets shorter. *)
Ltac read_char H := pose proof (tail_length _ _ H ltac:(done)); apply answered_tail; [done|]; intros ?.

Lemma value_total_step n : object_total n -> array_total n -> value_total (S n).
Proof.
  intros HO HA t Hp Hn. cbn [r_value]. destruct (Ascii.eqb (first t) (chr 34)) eqn:Hc0.
  { read_char Hc0. apply answered_bind; [apply string_plain|done|intros; apply answered_ok]. }
  destruct (Ascii.eqb (first t) "{") eqn:Hc1.
  { read_char Hc1. apply answered_bind; [apply HO; [done|lia]|done|intros; apply answered_ok]. }
  destruct (Ascii.eqb (first t) "[") eqn:Hc2.
  { read_char Hc2. apply answered_bind; [apply HA; [done|lia]|done|intros; apply answered_ok]. }
  rewrite !class_plain by done. destruct (islower (first t)); [by apply bareword_plain|].
  destruct (if Ascii.eqb (first t) "-" then Some true else Some (isdigit (first t))) as [[]|] eqn:Hnum;
    [by apply number_plain|done|by case_match].
Qed.

Lemma object_total_step n : members_total n -> object_total (S n).
Proof.
  intros HM t Hp Hn. cbn [r_object]. apply after_space_plain; [done|]. intros t1 Hp1 Hl1.
  destruct (Ascii.eqb (first t1) "}"); [apply tail_suffix|].
  destruct (Ascii.eqb (first t1) (chr 34)) eqn:Hc; [|done]. read_char Hc. apply HM; [done|lia].
Qed.

Lemma members_total_step n : value_total n -> members_total n -> members_total (S n).
Proof.
  intros HV HM l t Hp Hn. cbn [r_members]. apply answered_bind; [apply string_plain|done|]. intros key t1 Hr Hp1 _.
  apply r_string_length in Hr as [Hl1 _]. apply after_space_plain; [done|]. intros t2 Hp2 Hl2.
  destruct (Ascii.eqb (first t2) ":") eqn:Hcolon; [|done]. cbn [negb]. read_char Hcolon.
  apply after_space_plain; [done|]. intros t3 Hp3 Hl3. apply answered_bind; [apply HV; [done|lia]|done|]. intros v t4 _ Hp4 Hl4.
  apply after_space_plain; [done|]. intros t5 Hp5 Hl5. destruct (Ascii.eqb (first t5) "}"); [apply tail_suffix|].
  destruct (Ascii.eqb (first t5) ",") eqn:Hcomma; [|done]. read_char Hcomma.
  apply after_space_plain; [done|]. intros t6 Hp6 Hl6.
  destruct (Ascii.eqb (first t6) (chr 34)) eqn:Hq; [|done]. cbn [negb]. read_char Hq. apply HM; [done|lia].
Qed.

Lemma array_total_step n : elements_total n -> array_total (S n).
Proof.
  intros HE t Hp Hn. cbn [r_array]. apply after_space_plain; [done|]. intros t1 Hp1 Hl1.
  destruct (Ascii.eqb (first t1) "]"); [apply tail_suffix|]. apply HE; [done|lia].
Qed.

Lemma elements_total_step n : value_total n -> elements_total n -> elements_total (S n).
Proof.
  intros HV HE idx l t Hp Hn. cbn [r_elements]. apply after_space_plain; [done|]. intros t1 Hp1 Hl1.
  apply answered_bind; [apply HV; [done|lia]|done|]. intros v t2 _ Hp2 Hl2.
  apply after_space_plain; [done|]. intros t3 Hp3 Hl3. destruct (Ascii.eqb (first t3) "]"); [apply tail_suffix|].
  destruct (Ascii.eqb (first t3) ",") eqn:Hc; [|done]. read_char Hc. apply HE; [done|lia].
Qed.

Lemma total_facts n : value_total n /\ object_total n /\ array_total n /\ members_total n /\ elements_total n.
Proof.
  induction n as [|n (HV & HO & HA & HM & HE)].
  - repeat split; intros ?; intros; lia.
  - split; [by apply value_total_step|]. split; [by apply object_total_step|]. split; [by apply array_total_step|].
    split; [by apply members_total_step|by apply elements_total_step].
Qed.

Definition json_fuel (t : list char) : nat := 3 * length t + 3.

Lemma json_total t : plain t -> answered t (r_json (json_fuel t) t).
Proof.
  intros Hp. destruct (total_facts (json_fuel t)) as (_ & HO & HA & _). unfold r_json.
  apply after_space_plain; [done|]. intros t1 Hp1 Hl1. unfold json_fuel in *.
  destruct (Ascii.eqb (first t1) "{") eqn:Hc1; [read_char Hc1; apply HO; [done|lia]|].
  destruct (Ascii.eqb (first t1) "[") eqn:Hc2; [read_char Hc2; apply HA; [done|lia]|done].
Qed.
