(* ===== verification/JsonPrint.v ===== *)
(** * JsonPrint: documents, and reading them back when printed

    [json] is a document, [print_json] prints it the shortest way (the escapes of the parser's
    own table, no white space) and [nv_of] is the value the parser makes of it.  The reference
    parser reads a printed document back. *)
From Stdlib Require Import Lia.
From S2P Require Import Prelude Cnum Manifest Strset Nvlist Json JsonSpec.

Inductive json :=
| JNull
| JBool (b : bool)
| JInt (z : Z)
| JString (s : cstr)
| JArray (js : list json)
| JObject (ms : list (cstr * json)).

(** Induction with the hypothesis for the elements and members. *)
Section json_induction.
Variable P : json -> Prop.
Hypothesis Hnull : P JNull.
Hypothesis Hbool : forall b, P (JBool b).
Hypothesis Hint : forall z, P (JInt z).
Hypothesis Hstring : forall s, P (JString s).
Hypothesis Harray : forall js, Forall P js -> P (JArray js).
Hypothesis Hobject : forall ms, Forall (fun m => P m.2) ms -> P (JObject ms).

Fixpoint json_nested_ind (j : json) : P j :=
  match j with
  | JNull => Hnull
  | JBool b => Hbool b
  | JInt z => Hint z
  | JString s => Hstring s
  | JArray js => Harray js ((fix elements js : Forall P js := match js with
                                                 | [] => Forall_nil_2 _
                                                 | j :: js => Forall_cons_2 _ _ _ (json_nested_ind j) (elements js)
                                                 end) js)
  | JObject ms => Hobject ms ((fix members ms : Forall (fun m => P m.2) ms :=
                                 match ms with
                                 | [] => Forall_nil_2 _
                                 | m :: ms => Forall_cons_2 _ _ _ (json_nested_ind m.2) (members ms)
                                 end) ms)
  end.
End json_induction.

(** ** Printing *)

Definition print_char (c : char) : cstr :=
  match list_find (fun ep => ep.2 = c) escape_pairs with
  | Some (_, ep) => [chr 92; ep.1]
  | None => [c]
  end.

Definition print_chars (s : cstr) : cstr := concat (print_char <$> s).
Definition print_string (s : cstr) : cstr := chr 34 :: print_chars s ++ [chr 34].

Fixpoint print_json (j : json) : cstr :=
  match j with
  | JNull => cs "null"
  | JBool b => if b then cs "true" else cs "false"
  | JInt z => print_d z
  | JString s => print_string s
  | JArray js => "["%char :: join_fields ","%char (print_json <$> js) ++ cs "]"
  | JObject ms => "{"%char :: join_fields ","%char ((fun '(k, v) => print_string k ++ ":"%char :: print_json v) <$> ms) ++ cs "}"
  end.

(** The documents: C strings, and integers [atoi] can read back with their sign apart. *)
Fixpoint json_ok (j : json) : Prop :=
  match j with
  | JNull | JBool _ => True
  | JInt z => - INT_MAX <= z <= INT_MAX
  | JString s => is_cstr s
  | JArray js => foldr (fun j rest => json_ok j /\ rest) True js
  | JObject ms => foldr (fun m rest => (is_cstr m.1 /\ json_ok m.2) /\ rest) True ms
  end.

(** Fuel for reading a printed document back. *)
Fixpoint json_size (j : json) : nat :=
  match j with
  | JArray js => 3 + foldr (fun j n => S (json_size j) + n)%nat 0%nat js
  | JObject ms => 3 + foldr (fun m n => S (json_size m.2) + n)%nat 0%nat ms
  | _ => 1
  end.

(** ** Meaning *)

Fixpoint nv_elements (idx : Z) (l : nvpairs) (vs : list nvval) : nvpairs :=
  match vs with
  | [] => decorated idx l
  | v :: vs => nv_elements (i32 (idx + 1)) (nv_put (print_d idx) v l) vs
  end.

Fixpoint nv_members (l : nvpairs) (ms : list (cstr * nvval)) : nvpairs :=
  match ms with [] => l | (k, v) :: ms => nv_members (nv_put k v l) ms end.

Fixpoint nv_of (j : json) : nvval :=
  match j with
  | JNull => NvBoolean
  | JBool b => NvBooleanValue b
  | JInt z => NvInt32 z
  | JString s => NvString s
  | JArray js => NvNvlist (nv_elements 0 [] (nv_of <$> js))
  | JObject ms => NvNvlist (nv_members [] ((fun '(k, v) => (k, nv_of v)) <$> ms))
  end.

(** The pairs of a document, which is an array or an object. *)
Definition pairs_of (j : json) : nvpairs :=
  match j with
  | JArray js => nv_elements 0 [] (nv_of <$> js)
  | JObject ms => nv_members [] ((fun '(k, v) => (k, nv_of v)) <$> ms)
  | _ => []
  end.

Definition document (j : json) : bool := match j with JArray _ | JObject _ => true | _ => false end.

(** ** Strings *)

Lemma print_char_cases c :
  (exists e i, print_char c = [chr 92; e] /\ e <> NUL /\ Ascii.eqb e "u"%char = false /\
     list_find (fun ep => ep.1 = e) escape_pairs = Some (i, (e, c))) \/
  (print_char c = [c] /\ Ascii.eqb c (chr 34) = false /\ Ascii.eqb c (chr 92) = false).
Proof.
  unfold print_char. destruct (list_find (fun ep => ep.2 = c) escape_pairs) as [[i ep]|] eqn:Hf.
  - left. apply list_find_Some in Hf as (Hi & <- & _).
    do 8 (destruct i as [|i]; [injection Hi as <-; eexists _, _; split; [done|]; split; [by_decide|]; done|]). done.
  - right. split; [done|]. apply list_find_None in Hf. unfold escape_pairs in Hf.
    apply Forall_cons_1 in Hf as [H1 Hf]. apply Forall_cons_1 in Hf as [H2 _]. cbn in H1, H2.
    split; apply Ascii.eqb_neq; congruence.
Qed.

Lemma string_print s acc rest : is_cstr s -> r_string acc (print_chars s ++ chr 34 :: rest) = POk (acc ++ s) rest.
Proof.
  revert acc. induction s as [|c s IH]; intros acc Hs; rewrite r_string_step.
  - by rewrite app_nil_r.
  - apply is_cstr_cons in Hs as [Hc Hs]. change (print_chars (c :: s)) with (print_char c ++ print_chars s).
    destruct (print_char_cases c) as [(e & i & -> & Hn & Hu & Hf)|(-> & H1 & H2)]; cbn [app].
    + change (first (chr 92 :: ?x)) with (chr 92). cbn [tail]. change (Ascii.eqb (chr 92) (chr 34)) with false.
      rewrite decide_False by done. change (Ascii.eqb (chr 92) (chr 92)) with true. unfold r_escape.
      rewrite decide_False by done. rewrite Hu, Hf. cbn [pbind snd]. rewrite IH by done. by rewrite <-app_assoc.
    + change (first (c :: ?x)) with c. cbn [tail].
      rewrite H1, H2, decide_False by done. cbn [pbind]. rewrite IH by done. by rewrite <-app_assoc.
Qed.

(** ** Numbers and literals *)

(** What follows a printed value. *)
Definition follows (t : list char) : Prop :=
  exists c r, t = c :: r /\ (c = ","%char \/ c = "]"%char \/ c = "}"%char).

Lemma span_exact p acc w rest :
  Forall (fun c => class p c = Some true) w -> class p (first rest) = Some false -> r_span p acc (w ++ rest) = Some (acc ++ w, rest).
Proof.
  intros Hw Hrest. revert acc. induction Hw as [|c w Hc Hw IH]; intros acc; cbn [app r_span].
  - rewrite app_nil_r. destruct rest as [|c rest]; [done|]. change (first (c :: rest)) with c in Hrest. cbn [r_span]. by rewrite Hrest.
  - rewrite Hc, IH. by rewrite <-app_assoc.
Qed.

Lemma follows_facts t : follows t ->
  ends t /\ class isdigit (first t) = Some false /\ class islower (first t) = Some false /\
  Ascii.eqb (first t) "."%char || Ascii.eqb (first t) "e"%char || Ascii.eqb (first t) "E"%char = false.
Proof. intros (c & r & -> & [-> | [-> | ->]]); by vm_compute. Qed.

Lemma digit_class c : is_digit_in 10 c = true -> class isdigit c = Some true.
Proof.
  unfold is_digit_in, digit_val, class, isdigit. intros Hc.
  assert (48 <= code c <= 57) by (repeat case_match; simplify_eq/=; try done; lia).
  assert (code c <? 128 = true) as -> by lia. f_equal. lia.
Qed.

Lemma print_digits n : 0 <= n -> Forall (fun c => class isdigit c = Some true) (print_base 10 n).
Proof. intros Hn. eapply Forall_impl; [|apply (print_base_digits 10 n); lia]. intros c. apply digit_class. Qed.

Lemma print_base_first n rest : 0 <= n -> class isdigit (first (print_base 10 n ++ rest)) = Some true.
Proof.
  intros Hn. pose proof (print_digits n Hn) as Hd. pose proof (print_base_nonnil 10 n ltac:(lia) Hn).
  destruct (print_base 10 n) as [|c s]; [done|]. by apply Forall_cons_1 in Hd as [Hc _].
Qed.

Lemma atoi_print n : 0 <= n <= INT_MAX -> atoi (c_text (print_base 10 n)) = Some n.
Proof.
  intros Hn. rewrite c_text_id by (eapply (digits_cstr 10), print_base_digits; lia).
  assert (scan_number 10 (print_base 10 n) = Some (false, n, [])) as Hs.
  { rewrite <-(app_nil_r (print_base 10 n)). by apply (scan_number_print 10 0 n []); [lia|lia|]. }
  unfold atoi. rewrite Hs.
  unfold INT_MIN, INT_MAX in *. assert ((-2147483648 <=? n) && (n <=? 2147483647) = true) as -> by lia. done.
Qed.

Lemma digits_read n t : 0 <= n <= INT_MAX -> follows t ->
  r_span isdigit [] (print_base 10 n ++ t) = Some (print_base 10 n, t).
Proof. intros Hn Ht. rewrite span_exact; [done|apply print_digits; lia|by apply follows_facts]. Qed.

Lemma number_print z t : - INT_MAX <= z <= INT_MAX -> follows t -> r_number (print_d z ++ t) = POk (NvInt32 z) t.
Proof.
  intros Hz Ht. unfold r_number, print_d. destruct (follows_facts _ Ht) as (_ & _ & _ & Hfrac). destruct (Z.ltb_spec z 0).
  - cbn [app]. change (first ("-"%char :: ?x)) with "-"%char. change (Ascii.eqb "-" "-") with true. cbn [tail].
    rewrite print_base_first, digits_read, Hfrac, atoi_print by (done || lia).
    rewrite i32_small by (unfold INT_MIN, INT_MAX in *; lia). by rewrite Z.opp_involutive.
  - assert (Hneg : Ascii.eqb (first (print_base 10 z ++ t)) "-" = false).
    { apply Ascii.eqb_neq. intros Heq. pose proof (print_base_first z t ltac:(lia)) as Hd. by rewrite Heq in Hd. }
    rewrite Hneg, print_base_first, digits_read, Hfrac, atoi_print by (done || lia).
    rewrite i32_small by (unfold INT_MIN, INT_MAX in *; lia). done.
Qed.

Lemma bareword_print w t : Forall (fun c => class islower c = Some true) w -> follows t ->
  r_bareword (w ++ t) =
    if strcmp (c_text w) (cs "true") =? 0 then POk (NvBooleanValue true) t
    else if strcmp (c_text w) (cs "false") =? 0 then POk (NvBooleanValue false) t
    else if strcmp (c_text w) (cs "null") =? 0 then POk NvBoolean t
    else PErr EPROTO (cs "expected 'true', 'false' or 'null'").
Proof. intros Hw Ht. unfold r_bareword. rewrite span_exact; [done|done|by apply follows_facts]. Qed.

(** ** Values *)

(** The first character of a printed value is not white space. *)
Lemma print_first j : json_ok j -> exists c r, print_json j = c :: r /\ class isspace c = Some false /\ Ascii.eqb c "]"%char = false.
Proof.
  destruct j as [|[]|z|s|js|ms]; intros Hok; try (by eexists _, _). cbn in Hok |- *.
  unfold print_d. destruct (z <? 0) eqn:Hz; [by eexists _, _|].
  pose proof (print_base_digits 10 z ltac:(lia) ltac:(lia)) as Hd. pose proof (print_base_nonnil 10 z ltac:(lia) ltac:(lia)).
  destruct (print_base 10 z) as [|c r]; [done|]. apply Forall_cons_1 in Hd as [Hd _]. exists c, r. split; [done|].
  pose proof (digit_not_special _ _ Hd) as (Hs & _). pose proof (digit_class _ Hd) as Hc. unfold class in *.
  destruct (code c <? 128); [|by destruct (code c =? 255)]. rewrite Hs. split; [done|].
  apply Ascii.eqb_neq. intros ->. done.
Qed.

Lemma after_none {A} c t (k : list char -> pres A) : class isspace c = Some false -> after_space (c :: t) k = k (c :: t).
Proof. intros Hc. unfold after_space. cbn [r_span]. by rewrite Hc. Qed.

Lemma after_value {A} j t (k : list char -> pres A) : json_ok j -> after_space (print_json j ++ t) k = k (print_json j ++ t).
Proof. intros Hok. destruct (print_first j Hok) as (c & r & -> & Hc & _). by apply after_none. Qed.

Lemma after_follows {A} t (k : list char -> pres A) : follows t -> after_space t k = k t.
Proof. intros (c & r & -> & [-> | [-> | ->]]); by apply after_none. Qed.

Definition reads (j : json) : Prop :=
  forall n t, json_ok j -> (json_size j <= n)%nat -> follows t -> r_value n (print_json j ++ t) = POk (nv_of j) t.

Lemma elements_print js : Forall reads js -> js <> [] -> forall n idx l t,
  foldr (fun j rest => json_ok j /\ rest) True js -> (foldr (fun j n => S (json_size j) + n)%nat 0%nat js <= n)%nat ->
  r_elements n idx l (join_fields ","%char (print_json <$> js) ++ "]"%char :: t) = POk (nv_elements idx l (nv_of <$> js)) t.
Proof.
  induction 1 as [|j js Hj Hjs IH]; [done|]. intros _ n idx l t [Hok Hoks] Hn. cbn [foldr] in Hn.
  destruct n as [|n]; [lia|]. cbn [r_elements]. destruct js as [|j' js].
  - cbn [fmap list_fmap join_fields]. rewrite after_value by done.
    rewrite Hj; [|done|lia|by eexists _, _; split; [done|auto]]. cbn [pbind]. by rewrite after_none by done.
  - change (join_fields "," (print_json <$> j :: j' :: js)) with (print_json j ++ ","%char :: join_fields "," (print_json <$> j' :: js)).
    rewrite <-app_assoc. cbn [app]. rewrite after_value by done.
    rewrite Hj; [|done|lia|by eexists _, _; split; [done|auto]]. cbn [pbind]. rewrite after_none by done.
    change (first (","%char :: ?x)) with ","%char. change (Ascii.eqb "," "]") with false. change (Ascii.eqb "," ",") with true.
    cbn [tail]. cbn beta iota. rewrite IH; [done|done|done|cbn [foldr] in *; lia].
Qed.

Definition print_member (m : cstr * json) : cstr := print_string m.1 ++ ":"%char :: print_json m.2.
Definition member_ok (m : cstr * json) : Prop := is_cstr m.1 /\ json_ok m.2.

(** The members are read from after the quote of the first name. *)
Lemma members_print ms : Forall (fun m => reads m.2) ms -> ms <> [] -> forall n l t,
  foldr (fun m rest => member_ok m /\ rest) True ms -> (foldr (fun m n => S (json_size m.2) + n)%nat 0%nat ms <= n)%nat ->
  r_members n l (tail (join_fields ","%char (print_member <$> ms) ++ "}"%char :: t)) =
    POk (nv_members l ((fun '(k, v) => (k, nv_of v)) <$> ms)) t.
Proof.
  induction 1 as [|[k v] ms Hv Hms IH]; [done|]. intros _ n l t [[Hk Hok] Hoks] Hn. cbn [foldr fst snd] in *.
  destruct n as [|n]; [lia|]. cbn [r_members].
  assert (Hread : forall u, follows u ->
    pbind (r_string [] (tail (print_member (k, v) ++ u))) (fun key t => after_space t (fun t =>
      if negb (Ascii.eqb (first t) ":"%char) then PErr EPROTO (cs "expected ':'") else
      after_space (tail t) (fun t => pbind (r_value n t) (fun v t =>
      let l := nv_put (c_text key) v l in
      after_space t (fun t =>
      if Ascii.eqb (first t) "}"%char then POk l (tail t)
      else if Ascii.eqb (first t) ","%char then
        after_space (tail t) (fun t =>
        if negb (Ascii.eqb (first t) (chr 34)) then PErr EPROTO (cs "expected '" ++ chr 34 :: cs "'")
        else r_members n l (tail t))
      else PErr EPROTO (cs "expected ',' or '}'"))))))
    = after_space u (fun t =>
      if Ascii.eqb (first t) "}"%char then POk (nv_put k (nv_of v) l) (tail t)
      else if Ascii.eqb (first t) ","%char then
        after_space (tail t) (fun t =>
        if negb (Ascii.eqb (first t) (chr 34)) then PErr EPROTO (cs "expected '" ++ chr 34 :: cs "'")
        else r_members n (nv_put k (nv_of v) l) (tail t))
      else PErr EPROTO (cs "expected ',' or '}'"))).
  { intros u Hu. unfold print_member, print_string. cbn [fst snd]. rewrite <-!app_assoc. cbn [app tail]. rewrite <-app_assoc. cbn [app].
    rewrite string_print by done. cbn [pbind app]. rewrite after_none by done.
    change (first (":"%char :: ?x)) with ":"%char. change (negb (Ascii.eqb ":" ":")) with false. cbn [tail]. cbn beta iota.
    rewrite after_value by done. rewrite Hv by (done || lia). cbn [pbind]. by rewrite c_text_id. }
  destruct ms as [|m ms].
  - cbn [fmap list_fmap join_fields]. rewrite Hread by (by eexists _, _; split; [done|auto]). by rewrite after_none by done.
  - change (join_fields "," (print_member <$> (k, v) :: m :: ms))
      with (print_member (k, v) ++ ","%char :: join_fields "," (print_member <$> m :: ms)).
    rewrite <-app_assoc. cbn [app]. rewrite Hread by (by eexists _, _; split; [done|auto]). rewrite after_none by done.
    change (first (","%char :: ?x)) with ","%char. change (Ascii.eqb "," "}") with false. change (Ascii.eqb "," ",") with true.
    cbn [tail]. cbn beta iota.
    assert (Hquote : exists r, join_fields "," (print_member <$> m :: ms) ++ "}"%char :: t = chr 34 :: r).
    { unfold print_member, print_string. destruct ms; cbn; by eexists. }
    destruct Hquote as [r Hr]. pose proof (IH ltac:(done) n (nv_put k (nv_of v) l) t Hoks ltac:(cbn [foldr] in *; lia)) as HIH.
    rewrite Hr in HIH |- *. rewrite after_none by done. exact HIH.
Qed.

(** A printed integer starts no other kind of value. *)
Lemma number_first z t : (z <? 0) = false -> let c := first (print_base 10 z ++ t) in
  class isdigit c = Some true /\ class islower c = Some false /\
  Ascii.eqb c (chr 34) = false /\ Ascii.eqb c "{" = false /\ Ascii.eqb c "[" = false.
Proof.
  intros Hz. pose proof (print_base_first z t ltac:(lia)) as Hf. cbn zeta. set (c := first _) in *.
  assert (48 <= code c <= 57) as Hc.
  { unfold class in Hf. destruct (code c <? 128); [|by destruct (code c =? 255)].
    injection Hf as Hf. apply andb_true_iff in Hf. lia. }
  split; [done|]. split.
  - unfold class, islower. assert (code c <? 128 = true) as -> by lia.
    assert (97 <=? code c = false) as -> by lia. done.
  - split_and!; apply Ascii.eqb_neq; intros Heq; rewrite Heq in Hc; vm_compute in Hc; destruct Hc; congruence.
Qed.

Lemma int_reads z : reads (JInt z).
Proof.
  intros n t Hok Hn Ht. destruct n as [|n]; [cbn in Hn; lia|].
  cbn [r_value print_json nv_of]. cbn in Hok. rewrite <-(number_print z t) by done.
  unfold print_d. destruct (z <? 0) eqn:Hz; [done|].
  destruct (number_first z t Hz) as (Hd & -> & -> & -> & ->). rewrite Hd. by destruct (Ascii.eqb _ _).
Qed.

Lemma bool_reads b : reads (JBool b).
Proof.
  intros n t Hok Hn Ht. destruct n as [|n]; [cbn in Hn; lia|]. destruct b; cbn [r_value].
  - change (first (print_json (JBool true) ++ t)) with "t"%char. change (class islower "t") with (Some true).
    by rewrite (bareword_print (cs "true")) by (done || by repeat constructor).
  - change (first (print_json (JBool false) ++ t)) with "f"%char. change (class islower "f") with (Some true).
    by rewrite (bareword_print (cs "false")) by (done || by repeat constructor).
Qed.

(** After the opening bracket. *)
Lemma array_reads js : Forall reads js -> forall n t,
  json_ok (JArray js) -> (json_size (JArray js) <= S n)%nat ->
  r_array n (tail (print_json (JArray js) ++ t)) = POk (pairs_of (JArray js)) t.
Proof.
  intros Hjs n t Hok Hn. destruct n as [|n]; [cbn in Hn; lia|].
  cbn [r_array print_json pairs_of app tail]. rewrite <-app_assoc. change (cs "]" ++ t) with ("]"%char :: t).
  destruct js as [|j js]; [by cbn [fmap list_fmap join_fields app]; rewrite after_none by done|].
  assert (Hfirst : exists c r, join_fields "," (print_json <$> j :: js) ++ "]"%char :: t = c :: r /\
    class isspace c = Some false /\ Ascii.eqb c "]" = false).
  { destruct (print_first j) as (c & r & Hp & Hc & Hb); [by destruct Hok|]. exists c.
    cbn [fmap list_fmap]. destruct js as [|j' js]; cbn [fmap list_fmap join_fields]; rewrite Hp; by eexists. }
  destruct Hfirst as (c & r & Hcr & Hc & Hb).
  pose proof (elements_print (j :: js) Hjs ltac:(done) n 0 [] t Hok ltac:(cbn in *; lia)) as HE.
  rewrite Hcr in HE |- *. rewrite after_none by done. change (first (c :: r)) with c. rewrite Hb, HE. done.
Qed.

(** After the opening brace. *)
Lemma object_reads ms : Forall (fun m => reads m.2) ms -> forall n t,
  json_ok (JObject ms) -> (json_size (JObject ms) <= S n)%nat ->
  r_object n (tail (print_json (JObject ms) ++ t)) = POk (pairs_of (JObject ms)) t.
Proof.
  intros Hms n t Hok Hn. destruct n as [|n]; [cbn in Hn; lia|].
  cbn [r_object print_json pairs_of app tail]. rewrite <-app_assoc. change (cs "}" ++ t) with ("}"%char :: t).
  destruct ms as [|m ms]; [by cbn [fmap list_fmap join_fields app]; rewrite after_none by done|].
  assert (Hpm : ((fun '(k, v) => print_string k ++ ":"%char :: print_json v) <$> m :: ms) = print_member <$> m :: ms).
  { apply list_fmap_ext. by intros i [k v] _. }
  rewrite Hpm. pose proof (members_print (m :: ms) Hms ltac:(done) n [] t Hok ltac:(cbn in *; lia)) as HM.
  assert (Hquote : exists r, join_fields "," (print_member <$> m :: ms) ++ "}"%char :: t = chr 34 :: r).
  { unfold print_member, print_string. destruct ms; cbn; by eexists. }
  destruct Hquote as [r Hr]. rewrite Hr in HM |- *. rewrite after_none by done.
  change (first (chr 34 :: r)) with (chr 34). change (Ascii.eqb (chr 34) "}") with false.
  change (Ascii.eqb (chr 34) (chr 34)) with true. cbn [tail] in *. cbn beta iota. exact HM.
Qed.

Lemma value_reads j : reads j.
Proof.
  induction j as [|b|z|s|js Hjs|ms Hms] using json_nested_ind;
    [|apply bool_reads|apply int_reads|..]; intros n t Hok Hn Ht; (destruct n as [|n]; [cbn in Hn; lia|]).
  - cbn [r_value]. change (first (print_json JNull ++ t)) with "n"%char.
    change (class islower "n") with (Some true). cbn beta iota. by rewrite (bareword_print (cs "null")) by (done || by repeat constructor).
  - cbn [r_value print_json nv_of]. unfold print_string. cbn [app].
    change (first (chr 34 :: ?x)) with (chr 34). change (Ascii.eqb (chr 34) (chr 34)) with true. cbn [tail]. cbn beta iota.
    rewrite <-app_assoc. cbn [app]. rewrite string_print by done. cbn [pbind app]. by rewrite c_text_id.
  - cbn [r_value]. change (first (print_json (JArray js) ++ t)) with "["%char.
    change (Ascii.eqb "[" (chr 34)) with false. change (Ascii.eqb "[" "{") with false. change (Ascii.eqb "[" "[") with true. cbn beta iota.
    rewrite array_reads by (done || cbn in *; lia). done.
  - cbn [r_value]. change (first (print_json (JObject ms) ++ t)) with "{"%char.
    change (Ascii.eqb "{" (chr 34)) with false. change (Ascii.eqb "{" "{") with true. cbn beta iota.
    rewrite object_reads by (done || cbn in *; lia). done.
Qed.

(** A printed document is read back, whatever follows it. *)
Lemma json_print_reads j n t : document j = true -> json_ok j -> (json_size j <= S n)%nat ->
  r_json n (print_json j ++ t) = POk (pairs_of j) t.
Proof.
  intros Hdoc Hok Hn. unfold r_json. rewrite after_value by done. destruct j as [| | | |js|ms]; try done.
  - change (first (print_json (JArray js) ++ t)) with "["%char. change (Ascii.eqb "[" "{") with false. change (Ascii.eqb "[" "[") with true.
    cbn beta iota. apply array_reads; [|done|done]. apply Forall_forall. intros j _. apply value_reads.
  - change (first (print_json (JObject ms) ++ t)) with "{"%char. change (Ascii.eqb "{" "{") with true.
    cbn beta iota. apply object_reads; [|done|done]. apply Forall_forall. intros m _. apply value_reads.
Qed.
