(* ===== verification/JsonMachine.v ===== *)
(** * JsonMachine: the state machine computes the reference parser

    Each handler of [Json] is followed through the reference parser of [JsonSpec], one lemma for
    each of its functions, over the lists under construction of [Nvlist]; then the properties of
    [nvlist_parse_json]. *)
From Stdlib Require Import Lia.
From S2P Require Import Prelude Custr Cnum Manifest Strset Nvlist Json JsonSpec JsonPrint.

(** ** Reading characters *)

(** The longest documents the results speak of: 16 MB. *)
Definition JSON_MAX : Z := 16777216.

Section machine.
Context {E : Type} `{NvlistLaws E} `{DM : DataModel}.
(** Whether the caller asked for error information. *)
Context (errors : bool).
Implicit Types (s : state) (w : world E) (f : parse_frame) (t : list char).
Abbreviation levels := (list (nvlevel nvlist_t)).

(** The message buffer holds the text [m]. *)
Definition message_is (s : state) (m : cstr) : Prop :=
  match s_errstr s with
  | Some cu => errors = true /\ custr_rep cu m /\ cus_data cu <> None /\ cus_flags cu = CUSTR_FIXEDBUF /\ cus_datalen cu = MESSAGE_SIZE
  | None => errors = false
  end.

(** [t] is what the parser has yet to read, and nothing went wrong so far. *)
Record view (s : state) (t : list char) : Prop := {
  view_in : t = drop (Z.to_nat (s_pos s)) (take (S (Z.to_nat (s_len s))) (s_in s));
  view_pos : 0 <= s_pos s <= s_len s + 1;
  view_len : 0 <= s_len s < Zlen (s_in s);
  view_max : s_len s <= JSON_MAX;
  view_collect : exists ct, custr_rep (s_collect s) ct /\ cus_flags (s_collect s) = 0;
  view_errno : s_errno s = 0;
  view_message : message_is s []
}.

Lemma view_stack s t fs : view s t -> view (with_stack s fs) t.
Proof. intros []. by split. Qed.

Lemma view_collected s t c ct : view s t -> custr_rep c ct -> cus_flags c = 0 -> view (with_collect s c) t.
Proof. intros [] ? ?. split; try done. by exists ct. Qed.

Lemma view_length s t : view s t -> Zlen t = s_len s + 1 - s_pos s.
Proof. intros [-> ? ? ? _ _ _]. rewrite Zlen_drop, Zlen_take. lia. Qed.

Lemma view_at s c t : view s (c :: t) -> s_pos s <= s_len s /\ s_in s !! Z.to_nat (s_pos s) = Some c /\
  view (with_pos s (sz (s_pos s + 1))) t.
Proof.
  intros Hv. pose proof (view_length _ _ Hv) as Hl. destruct Hv as [Hin Hpos Hlen Hmax Hc He Hm].
  rewrite Zlen_cons in Hl. pose proof (Zlen_nonneg t). unfold JSON_MAX in *.
  rewrite sz_small32 by (unfold UINT_MAX; lia). split; [lia|]. split.
  - assert (Hat : (c :: t) !! 0%nat = Some c) by done. rewrite Hin, lookup_drop, Nat.add_0_r, lookup_take_lt in Hat by lia. done.
  - split; cbn; try done; [|lia]. change t with (drop 1 (c :: t)). rewrite Hin, drop_drop. f_equal. lia.
Qed.

Lemma view_end s : view s [] -> s_len s <? s_pos s = true.
Proof. intros Hv. pose proof (view_length _ _ Hv) as Hl. rewrite Zlen_nil in Hl. lia. Qed.

Lemma with_pos_id s : with_pos s (s_pos s) = s.
Proof. by destruct s. Qed.

Lemma popchar_spec s t (Q : char * state -> world E -> Prop) w :
  view s t -> (forall p, view (with_pos s p) (tail t) -> Q (first t, with_pos s p) w) -> wp (popchar s) Q w.
Proof.
  intros Hv HQ. unfold popchar. destruct t as [|c t].
  - rewrite view_end by done. apply wp_ret. rewrite <-(with_pos_id s). apply HQ. by rewrite with_pos_id.
  - destruct (view_at _ _ _ Hv) as (Hlt & Hc & Hv'). assert (s_len s <? s_pos s = false) as -> by lia.
    apply wp_bind. eapply wp_access; [exact Hc|]. apply wp_ret. by apply HQ.
Qed.

Lemma peekchar_spec s t (Q : char -> world E -> Prop) w : view s t -> Q (first t) w -> wp (peekchar s) Q w.
Proof.
  intros Hv HQ. unfold peekchar. destruct t as [|c t].
  - by rewrite view_end by done.
  - destruct (view_at _ _ _ Hv) as (Hlt & Hc & _). assert (s_len s <? s_pos s = false) as -> by lia.
    by eapply wp_access.
Qed.

Lemma ctype_spec p c b (Q : bool -> world E -> Prop) w : class p c = Some b -> Q b w -> wp (ctype p c) Q w.
Proof. unfold class, ctype. destruct (code c <? 128); [by intros [= ->]|]. destruct (code c =? 255); [by intros [= ->]|done]. Qed.

Lemma view_fuel s t : view s t -> (length t < char_fuel s)%nat.
Proof. intros [-> _ _ _ _ _ _]. unfold char_fuel. rewrite length_drop, length_take. lia. Qed.

(** [discard_whitespace], in front of the rest of a handler. *)
Lemma discard_spec {A} s t t' acc (k : state -> C E A) Q w :
  view s t -> r_span isspace [] t = Some (acc, t') ->
  (forall p, view (with_pos s p) t' -> wp (k (with_pos s p)) Q w) ->
  wp (discard_whitespace s ≫= k) Q w.
Proof.
  intros Hv Hs Hk. apply wp_bind. unfold discard_whitespace. pose proof (view_fuel _ _ Hv) as Hf. revert Hf.
  generalize (char_fuel s) as fuel. revert Hs. generalize (@nil char) at 1 as acc0.
  revert s Hv Hk. induction t as [|c t IH]; intros s Hv Hk acc0 Hs fuel Hf; (destruct fuel as [|fuel]; [cbn in Hf; lia|]); cbn [discard_loop r_span] in *.
  - injection Hs as _ <-. apply wp_bind. eapply peekchar_spec; [done|]. apply wp_bind. eapply ctype_spec; [done|].
    apply wp_ret. rewrite <-(with_pos_id s). apply Hk. by rewrite with_pos_id.
  - apply wp_bind. eapply peekchar_spec; [done|]. apply wp_bind. cbn [first head default].
    change (default NUL (Some c)) with c. destruct (class isspace c) as [[]|] eqn:Hc; [| |done].
    + eapply ctype_spec; [exact Hc|]. apply wp_bind. eapply popchar_spec; [done|]. intros p Hp.
      eapply IH; [exact Hp| |exact Hs|cbn in Hf; lia]. intros q Hq. by apply Hk.
    + injection Hs as _ <-. eapply ctype_spec; [exact Hc|]. apply wp_ret.
      rewrite <-(with_pos_id s). apply Hk. by rewrite with_pos_id.
Qed.

(** ** Errors *)

(** Frames that hold no value, and the lists they build, innermost first. *)
Definition stack_ok (fs : list parse_frame) (ls : levels) : Prop :=
  Forall (fun f => pf_value f = PvWord 0) fs /\ omap pf_nvl fs = (fun lv => lv.1.1) <$> ls.

(** The world between two steps: the lists under construction are as listed. *)
Definition building (w : world E) (ls : levels) : Prop := good w /\ nv_open None ls (w_env w).

Lemma movestate_spec s ps f fs (Q : state -> world E -> Prop) w :
  s_top s = f :: fs ->
  (forall w', w_heap w' = w_heap w -> w_env w' = w_env w -> Q (with_stack s (with_ps f ps :: fs)) w') ->
  wp (movestate s ps) Q w.
Proof.
  intros Ht HQ. unfold movestate, top. apply wp_bind. eapply wp_access; [by rewrite Ht|].
  apply wp_bind. unfold set_top. rewrite Ht. destruct (flag_set _ _); [apply wp_eprint|]; apply wp_ret; by apply HQ.
Qed.

Lemma good_same w w' : w_heap w' = w_heap w -> good w -> good w'.
Proof. unfold good, heap_low, heap_total. by intros ->. Qed.

Lemma building_same w w' ls : w_heap w' = w_heap w -> w_env w' = w_env w -> building w ls -> building w' ls.
Proof. intros Hh He [Hg Ho]. split; [by eapply good_same|by rewrite He]. Qed.

Lemma building_frame w w' ls : frame w w' -> building w ls -> building w' ls.
Proof. intros Hw [Hg Ho]. split; [by eapply good_frame|by rewrite (frame_env _ _ Hw)]. Qed.

(** An error, and a message that fits the caller's buffer. *)
Definition message_ok (e : Z) (m : cstr) : Prop := (e <> 0 /\ is_cstr m) /\ Zlen m < 500.

(** The parser has stopped with an error. *)
Definition bad (e : Z) (m : cstr) (s : state) (w : world E) : Prop :=
  message_ok e m /\ s_errno s = e /\ message_is s m /\ (exists f fs, s_top s = f :: fs /\ pf_ps f = PARSE_ERROR) /\
  exists ls, stack_ok (s_top s) ls /\ building w ls.

Lemma message_append s e m (Q : option custr -> world E -> Prop) w :
  message_is s [] -> message_ok e m ->
  (forall cu w', message_is (with_error s 0 cu) m -> w_heap w' = w_heap w -> w_env w' = w_env w -> Q cu w') ->
  wp (match s_errstr s with Some cu => '(_, cu) ← custr_append cu m; mret (Some cu) | None => mret None end) Q w.
Proof.
  unfold message_is. intros Hm [[_ Hc] Hl] HQ. destruct (s_errstr s) as [cu|]; [|by apply wp_ret, HQ].
  destruct Hm as (He & Hrep & Hd & Hfl & Hdl). apply wp_bind. unfold custr_append, custr_append_printf.
  rewrite c_text_id by done. wp_use append_fixed_spec; [done..|rewrite Zlen_nil; unfold CUSTR_MAX; lia|].
  intros [r cu'] w' (Hdl' & Hfl' & Hd' & Hh & He' & Hpost). cbn [fst snd] in *. rewrite Hdl, Zlen_nil in Hpost.
  assert (0 + Zlen m + 1 <? MESSAGE_SIZE = true) as Hlt by (unfold MESSAGE_SIZE; lia). rewrite Hlt in Hpost.
  apply wp_ret, HQ; [|done|done]. cbn. split_and!; [done|by destruct Hpost|done|done|congruence].
Qed.

(** [posterror] stops the parser. *)
Lemma posterror_spec s t f fs e m ls (Q : state -> world E -> Prop) w :
  view s t -> s_top s = f :: fs -> stack_ok (f :: fs) ls -> building w ls -> message_ok e m ->
  (forall s' w', bad e m s' w' -> Q s' w') -> wp (posterror s e m) Q w.
Proof.
  intros Hv Ht Hs Hb Hm HQ. unfold posterror. apply wp_bind.
  eapply (wp_mono _ (fun _ w' => w_heap w' = w_heap w /\ w_env w' = w_env w)).
  { destruct (flag_set _ _); [by apply wp_eprint|by apply wp_ret]. }
  intros _ w1 [Hh1 He1]. apply wp_bind. eapply message_append; [by destruct Hv|done|].
  intros cu w2 Hcu Hh2 He2. eapply movestate_spec; [exact Ht|]. intros w3 Hh3 He3. apply HQ.
  split; [done|]. split; [done|]. split; [exact Hcu|]. split; [by eexists _, _|]. exists ls. split; [|by eapply building_same; [| |exact Hb]; congruence].
  destruct Hs as [Hv1 Hl]. cbn in *. apply Forall_cons_1 in Hv1 as [Hv1 Hv2]. by split; [constructor|].
Qed.

(** The state before a handler, with a stack and the lists it builds. *)
Definition at_frame (s : state) (t : list char) (f : parse_frame) (fs : list parse_frame) (ls : levels) (w : world E) : Prop :=
  view s t /\ s_top s = f :: fs /\ stack_ok (f :: fs) ls /\ building w ls.

Lemma at_frame_pos s t t' p f fs ls w : at_frame s t f fs ls w -> view (with_pos s p) t' -> at_frame (with_pos s p) t' f fs ls w.
Proof. by intros (_ & ? & ? & ?) ?. Qed.

Lemma at_frame_collect s t c ct f fs ls w w' :
  at_frame s t f fs ls w -> custr_rep c ct -> cus_flags c = 0 -> frame w w' -> at_frame (with_collect s c) t f fs ls w'.
Proof. intros (Hv & ? & ? & ?) ? ? ?. split; [by eapply view_collected|]. split; [done|]. split; [done|by eapply building_frame]. Qed.

Lemma fail_with_spec s t f fs e m ls (Q : Z * state -> world E -> Prop) w :
  at_frame s t f fs ls w -> message_ok e m ->
  (forall s' w', bad e m s' w' -> Q (-1, s') w') -> wp (fail_with s e m) Q w.
Proof.
  intros (Hv & Ht & Hs & Hb) Hm HQ. unfold fail_with. apply wp_bind.
  eapply posterror_spec; [done|done|done|done|done|]. intros. by apply wp_ret, HQ.
Qed.

(** ** Strings *)

Lemma collect_char_spec s t f fs ls acc c err (Q : Z * state -> world E -> Prop) w :
  at_frame s t f fs ls w -> custr_rep (s_collect s) acc -> Zlen acc + 2 <= CUSTR_MAX ->
  (forall cu w', custr_rep cu (acc ++ [c]) -> at_frame (with_collect s cu) t f fs ls w' -> Q (0, with_collect s cu) w') ->
  wp (collect_char s c err) Q w.
Proof.
  intros Hat Hrep Hmax HQ. pose proof Hat as (Hv & _ & _ & [Hlow Htot] & _).
  destruct (view_collect _ _ Hv) as (_ & _ & Hfl). unfold collect_char. apply wp_bind.
  wp_use custr_appendc_spec; [done..|]. intros [r cu] w' [Hw [(Hr & Hrep' & _ & Hfl')|(_ & [] & _)]]; [|done].
  cbn in Hr, Hrep', Hfl'. subst r. cbn beta iota. apply wp_ret, HQ; [done|].
  eapply at_frame_collect; [done|done|congruence|done].
Qed.

Lemma read_digs_spec n s t f fs ls digs (Q : option cstr * state -> world E -> Prop) w :
  at_frame s t f fs ls w ->
  (if decide ((n <= length t)%nat /\ is_cstr (take n t))
   then forall p, view (with_pos s p) (drop n t) -> Q (Some (digs ++ take n t), with_pos s p) w
   else forall s' w', bad EPROTO (cs "EOF mid-escape sequence") s' w' -> Q (None, s') w') ->
  wp (read_digs n s digs) Q w.
Proof.
  revert s t digs. induction n as [|n IH]; intros s t digs Hat HQ; cbn [read_digs].
  - rewrite decide_True in HQ by (split; [lia|apply is_cstr_nil]). apply wp_ret. rewrite <-(with_pos_id s).
    rewrite take_0, app_nil_r in HQ. apply HQ. rewrite with_pos_id. by destruct Hat.
  - apply wp_bind. eapply popchar_spec; [by destruct Hat|]. intros p Hp. destruct (decide (first t = NUL)) as [Hc|Hc].
    + rewrite decide_False in HQ.
      2:{ destruct t as [|c t]; [cbn; lia|]. cbn in Hc |- *. rewrite is_cstr_cons. naive_solver. }
      apply wp_bind. pose proof (at_frame_pos _ _ _ _ _ _ _ _ Hat Hp) as (Hv & Ht & Hs & Hb).
      eapply posterror_spec; [done..|by split; [by_decide|]|]. intros. by apply wp_ret, HQ.
    + destruct t as [|c t]; [by destruct Hc|]. cbn in Hc. change (first (c :: t)) with c. eapply IH; [by eapply at_frame_pos|].
      cbn [tail]. cbn [take drop length] in HQ. destruct (decide ((n <= length t)%nat /\ is_cstr (take n t))) as [Hn|Hn].
      * rewrite decide_True in HQ by (rewrite is_cstr_cons; naive_solver lia).
        intros q Hq. rewrite <-app_assoc. by apply HQ.
      * rewrite decide_False in HQ; [done|]. rewrite is_cstr_cons. intros [? [? ?]]. apply Hn. split; [lia|done].
Qed.

Lemma escape_spec s t f fs ls acc (Q : Z * state -> world E -> Prop) w :
  at_frame s t f fs ls w -> custr_rep (s_collect s) acc -> Zlen acc + 2 <= CUSTR_MAX ->
  given (r_escape t)
    (fun c t' => forall p cu w', custr_rep cu (acc ++ [c]) -> at_frame (with_collect (with_pos s p) cu) t' f fs ls w' ->
       Q (0, with_collect (with_pos s p) cu) w')
    (fun e m => forall s' w', bad e m s' w' -> Q (-1, s') w') ->
  wp (collect_string_escape s) Q w.
Proof.
  intros Hat Hrep Hmax HQ. unfold collect_string_escape. apply wp_bind.
  eapply popchar_spec; [by destruct Hat|]. intros p Hp. pose proof (at_frame_pos _ _ _ _ _ _ _ _ Hat Hp) as Hat'.
  unfold r_escape, escape_eof in HQ. destruct t as [|c t]; [by eapply fail_with_spec; [done|split; [by_decide|done]|]|].
  change (first (c :: t)) with c. cbn [tail] in *. case_decide; [by eapply fail_with_spec; [done|split; [by_decide|done]|]|].
  destruct (Ascii.eqb c "u").
  - unfold collect_unicode. apply wp_bind. eapply read_digs_spec; [done|]. case_decide as Hd.
    + intros q Hq. cbn [app]. destruct (atoi (take 4 t)) as [res|] eqn:Hres; [|done]. apply wp_bind.
      eapply wp_access; [done|]. pose proof (at_frame_pos _ _ _ _ _ _ _ _ Hat' Hq) as Hat''.
      destruct (127 <? res); [by eapply fail_with_spec; [done|split; [by_decide|done]|]|].
      eapply collect_char_spec; [done|done|done|]. intros cu w' Hcu Hatc. by apply (HQ q).
    + intros s' w' Hbad. apply wp_ret. by apply HQ.
  - destruct (list_find _ _) as [[i ep]|]; [|by eapply fail_with_spec; [done|split; [by_decide|done]|]].
    eapply collect_char_spec; [done|done|done|]. intros cu w' Hcu Hatc. by apply (HQ p).
Qed.

Ltac fail_now := eapply fail_with_spec; [done|split; [by_decide|done]|done].

Lemma string_loop_spec fuel s t f fs ls acc (Q : Z * state -> world E -> Prop) w :
  at_frame s t f fs ls w -> custr_rep (s_collect s) acc -> Zlen acc + Zlen t <= JSON_MAX + 1 -> (length t < fuel)%nat ->
  given (r_string acc t)
    (fun acc' t' => forall p cu w', custr_rep cu acc' -> at_frame (with_collect (with_pos s p) cu) t' f fs ls w' ->
       Q (0, with_collect (with_pos s p) cu) w')
    (fun e m => forall s' w', bad e m s' w' -> Q (-1, s') w') ->
  wp (string_loop fuel s) Q w.
Proof.
  revert s t acc w. induction fuel as [|fuel IH]; intros s t acc w Hat Hrep Hmax Hf HQ; [lia|]. cbn [string_loop].
  apply wp_bind. eapply popchar_spec; [by destruct Hat|]. intros p Hp. rewrite r_string_step in HQ.
  pose proof (at_frame_pos _ _ _ _ _ _ _ _ Hat Hp) as Hat'. destruct (Ascii.eqb (first t) (chr 34)).
  { apply wp_ret. eapply (HQ p (s_collect s)); [done|]. by destruct s. }
  destruct (decide (first t = NUL)); [fail_now|]. destruct t as [|c t]; [done|].
  change (first (c :: t)) with c in *. cbn [tail length] in *. rewrite Zlen_cons in Hmax.
  rewrite pbind_given in HQ. apply wp_bind.
  assert (Hstep : forall t1 c1 q cu w1, (length t1 <= length t)%nat -> custr_rep cu (acc ++ [c1]) ->
    at_frame (with_collect (with_pos s q) cu) t1 f fs ls w1 ->
    given (r_string (acc ++ [c1]) t1)
      (fun acc' t' => forall p cu w', custr_rep cu acc' -> at_frame (with_collect (with_pos s p) cu) t' f fs ls w' ->
         Q (0, with_collect (with_pos s p) cu) w')
      (fun e m => forall s' w', bad e m s' w' -> Q (-1, s') w') ->
    wp (string_loop fuel (with_collect (with_pos s q) cu)) Q w1).
  { intros t1 c1 q cu w1 Ht1 Hcu Hat1 HQ1. eapply (IH _ t1 (acc ++ [c1])); [done|done| |lia|done].
    unfold Zlen in *. rewrite length_app. cbn. lia. }
  unfold CUSTR_MAX, JSON_MAX in *. pose proof (Zlen_nonneg t). destruct (Ascii.eqb c (chr 92)).
  - eapply (escape_spec _ t); [done|done|unfold CUSTR_MAX; lia|].
    destruct (r_escape t) as [c1 t1|e m|] eqn:Hesc; [| |done].
    + intros q cu w1 Hcu Hat1. cbn beta iota. eapply (Hstep t1 c1); [|done|done|done].
      apply r_escape_length in Hesc. lia.
    + intros s' w' Hbad. apply wp_ret. by apply HQ.
  - eapply collect_char_spec; [done|done|unfold CUSTR_MAX; lia|]. intros cu w1 Hcu Hat1. cbn beta iota.
    by eapply (Hstep t c).
Qed.

Lemma reset_collect_spec s t f fs ls (Q : state -> world E -> Prop) w :
  at_frame s t f fs ls w ->
  (forall cu, custr_rep cu [] -> at_frame (with_collect s cu) t f fs ls w -> Q (with_collect s cu) w) ->
  wp (reset_collect s) Q w.
Proof.
  intros Hat HQ. pose proof Hat as [Hv _]. destruct (view_collect _ _ Hv) as (ct & Hct & Hfl).
  unfold reset_collect. apply wp_bind. eapply custr_reset_spec; [exact Hct|]. intros cu Hcu Hf _ _.
  apply wp_ret, HQ; [done|]. eapply at_frame_collect; [done|done|congruence|done].
Qed.

Lemma view_bound s t : view s t -> Zlen t <= JSON_MAX + 1.
Proof. intros Hv. rewrite (view_length _ _ Hv). destruct Hv. lia. Qed.

Lemma collect_string_spec s t f fs ls (Q : Z * state -> world E -> Prop) w :
  at_frame s t f fs ls w ->
  given (r_string [] t)
    (fun acc t' => forall p cu w', custr_rep cu acc -> at_frame (with_collect (with_pos s p) cu) t' f fs ls w' ->
       Q (0, with_collect (with_pos s p) cu) w')
    (fun e m => forall s' w', bad e m s' w' -> Q (-1, s') w') ->
  wp (collect_string s) Q w.
Proof.
  intros Hat HQ. unfold collect_string. apply wp_bind. eapply reset_collect_spec; [done|].
  intros cu Hcu Hat1. pose proof Hat1 as [Hv1 _]. eapply string_loop_spec; [done|done| | |].
  - pose proof (view_bound _ _ Hv1). rewrite Zlen_nil. lia.
  - by apply view_fuel.
  - destruct (r_string [] t); [|done..]. intros p cu1 w1 Hcu1 Hat2. by apply HQ.
Qed.

(** ** Literals and numbers *)

Lemma collect_while_spec p fuel err s t f fs ls acc (Q : Z * state -> world E -> Prop) w :
  p NUL = false -> at_frame s t f fs ls w -> custr_rep (s_collect s) acc -> Zlen acc + Zlen t <= JSON_MAX + 1 ->
  (length t < fuel)%nat ->
  match r_span p acc t with
  | Some (acc', t') => forall q cu w', custr_rep cu acc' -> at_frame (with_collect (with_pos s q) cu) t' f fs ls w' ->
      Q (0, with_collect (with_pos s q) cu) w'
  | None => False
  end -> wp (collect_while p err fuel s) Q w.
Proof.
  intros Hnul. revert s t acc w. induction fuel as [|fuel IH]; intros s t acc w Hat Hrep Hmax Hf HQ; [lia|].
  cbn [collect_while]. apply wp_bind. eapply peekchar_spec; [by destruct Hat|]. apply wp_bind.
  destruct t as [|c t]; cbn [r_span] in HQ.
  - eapply ctype_spec; [apply first_nil|]. rewrite Hnul. apply wp_ret. rewrite <-(with_pos_id s).
    apply (HQ (s_pos s) (s_collect s)); [done|]. by destruct s.
  - change (first (c :: t)) with c. destruct (class p c) as [[]|] eqn:Hc; [| |done]; (eapply ctype_spec; [exact Hc|]); cbn [negb].
    + apply wp_bind. eapply popchar_spec; [by destruct Hat|]. intros q Hq. cbn [tail] in Hq.
      rewrite Zlen_cons in Hmax. pose proof (Zlen_nonneg t). unfold JSON_MAX in *. apply wp_bind.
      eapply collect_char_spec; [by eapply at_frame_pos|done|unfold CUSTR_MAX; lia|].
      intros cu w1 Hcu Hat1. cbn beta iota. eapply (IH _ t); [done|done| |cbn in Hf; lia|].
      * rewrite Zlen_app. change (Zlen [_]) with 1. lia.
      * destruct (r_span p _ t) as [[acc' t']|]; [|done]. intros r cu1 w2 Hcu1 Hat2. by apply (HQ r cu1).
    + apply wp_ret. rewrite <-(with_pos_id s). apply (HQ (s_pos s) (s_collect s)); [done|]. by destruct s.
Qed.

(** ** Turns of the main loop *)

Implicit Types (Q : option nvlist_t * state -> world E -> Prop).

(** A turn: the handler of the state, and the rest of the loop. *)
Definition run (fuel : nat) (s : state) : C E (option nvlist_t * state) := s ← dispatch s; main_loop fuel s.

Lemma loop_turn fuel s t f fs ls Q w :
  at_frame s t f fs ls w -> pf_ps f <> PARSE_ERROR -> pf_ps f <> PARSE_DONE -> (0 < fuel)%nat ->
  wp (run (pred fuel) s) Q w -> wp (main_loop fuel s) Q w.
Proof.
  intros (_ & Ht & _) He Hd Hf Hrun. destruct fuel as [|fuel]; [lia|]. cbn [main_loop]. unfold top. apply wp_bind.
  eapply wp_access; [by rewrite Ht|]. by rewrite !decide_False by done.
Qed.

(** What is left to do after a handler. *)
Definition next (fuel : nat) Q : state -> world E -> Prop := fun s w => wp (main_loop fuel s) Q w.

Lemma run_hdlr fuel s t f fs ls hdlr Q w :
  at_frame s t f fs ls w -> hdlrs (pf_ps f) = Some hdlr -> wp (hdlr s) (next fuel Q) w -> wp (run fuel s) Q w.
Proof.
  intros (_ & Ht & _) Hh Hrun. unfold run, dispatch, top. apply wp_bind, wp_bind.
  eapply wp_access; [by rewrite Ht|]. by rewrite Hh.
Qed.

(** The turn of a frame whose handler is [hdlr]. *)
Lemma loop_hdlr fuel s t f fs ls hdlr Q w :
  at_frame s t f fs ls w -> hdlrs (pf_ps f) = Some hdlr -> (0 < fuel)%nat ->
  wp (hdlr s) (next (pred fuel) Q) w -> wp (main_loop fuel s) Q w.
Proof.
  intros Hat Hh Hf Hrun. eapply loop_turn; [done| | |done|by eapply run_hdlr]; intros Hps; by rewrite Hps in Hh.
Qed.

Definition errk Q : Z -> cstr -> Prop := fun e m => forall s' w', bad e m s' w' -> Q (None, s') w'.

(** The turn after an error. *)
Lemma next_bad fuel e m s Q w : bad e m s w -> (0 < fuel)%nat -> errk Q e m -> next fuel Q s w.
Proof.
  intros Hbad Hf HQ. pose proof Hbad as (_ & _ & _ & (f & fs & Ht & Hps) & _). unfold next.
  destruct fuel as [|fuel]; [lia|]. cbn [main_loop]. unfold top.
  apply wp_bind. eapply wp_access; [by rewrite Ht|]. rewrite decide_True by done. by apply HQ.
Qed.

Lemma post_next fuel s t f fs e m ls Q w :
  at_frame s t f fs ls w -> message_ok e m -> (0 < fuel)%nat -> errk Q e m -> wp (posterror s e m) (next fuel Q) w.
Proof. intros (Hv & Ht & Hs & Hb) Hm Hf HQ. eapply posterror_spec; [done..|]. intros. by eapply next_bad. Qed.

Lemma stack_ok_top f f' fs ls : pf_value f' = pf_value f -> pf_nvl f' = pf_nvl f -> stack_ok (f :: fs) ls -> stack_ok (f' :: fs) ls.
Proof.
  intros Hv Hn [Hs1 Hs2]. apply Forall_cons_1 in Hs1 as [? ?]. split; [constructor; [by rewrite Hv|done]|]. cbn in *. by rewrite Hn.
Qed.

(** Storing in the top frame, but for its value and list. *)
Lemma at_frame_top s t f f' fs ls w :
  at_frame s t f fs ls w -> pf_value f' = pf_value f -> pf_nvl f' = pf_nvl f -> at_frame (with_stack s (f' :: fs)) t f' fs ls w.
Proof.
  intros (Hv & Ht & Hs & Hb) ? ?. split; [by apply view_stack|]. split; [done|]. split; [by eapply stack_ok_top|done].
Qed.

Lemma move_next s t f fs ls ps (P : state -> world E -> Prop) w :
  at_frame s t f fs ls w -> (forall s' w', at_frame s' t (with_ps f ps) fs ls w' -> P s' w') -> wp (movestate s ps) P w.
Proof.
  intros Hat HP. pose proof Hat as (_ & Ht & _ & Hb). eapply movestate_spec; [exact Ht|]. intros w' Hh He. apply HP.
  pose proof (at_frame_top _ _ _ (with_ps f ps) _ _ _ Hat eq_refl eq_refl) as (Hv' & Ht' & Hs' & _).
  split; [done|]. split; [done|]. split; [done|by eapply building_same].
Qed.

Lemma space_next {A B} s t f fs ls w (r : list char -> pres A) ok err (k : state -> C E B) (P : B -> world E -> Prop) :
  at_frame s t f fs ls w -> given (after_space t r) ok err ->
  (forall s' t', at_frame s' t' f fs ls w -> (length t' <= length t)%nat -> given (r t') ok err -> wp (k s') P w) ->
  wp (discard_whitespace s ≫= k) P w.
Proof.
  intros Hat HQ Hk. unfold after_space in HQ. destruct (r_span isspace [] t) as [[acc t']|] eqn:Hs; [|done].
  eapply discard_spec; [by destruct Hat|exact Hs|]. intros p Hp. eapply Hk; [by eapply at_frame_pos|by eapply span_length|done].
Qed.

Lemma pop_next {B} s t f fs ls w (k : char * state -> C E B) (P : B -> world E -> Prop) :
  at_frame s t f fs ls w ->
  (forall s', at_frame s' (tail t) f fs ls w -> wp (k (first t, s')) P w) -> wp (popchar s ≫= k) P w.
Proof.
  intros Hat Hk. apply wp_bind. eapply popchar_spec; [by destruct Hat|]. intros p Hp. apply Hk. by eapply at_frame_pos.
Qed.

Lemma peek_next {B} s t f fs ls w (k : char -> C E B) (P : B -> world E -> Prop) :
  at_frame s t f fs ls w -> wp (k (first t)) P w -> wp (peekchar s ≫= k) P w.
Proof. intros [Hv _] Hk. apply wp_bind. by eapply peekchar_spec. Qed.

Lemma top_next {B} s t f fs ls w (k : parse_frame -> C E B) (P : B -> world E -> Prop) :
  at_frame s t f fs ls w -> wp (k f) P w -> wp (top s ≫= k) P w.
Proof. intros (_ & Ht & _) Hk. apply wp_bind. eapply wp_access; [by rewrite Ht|done]. Qed.

Lemma pushstate_spec s t f fs ls ps retps (P : Z * state -> world E -> Prop) w :
  at_frame s t f fs ls w ->
  (forall s' w', at_frame s' t (with_ps zero_frame ps) (with_ps f retps :: fs) ls w' -> P (0, s') w') ->
  wp (pushstate s ps retps) P w.
Proof.
  intros (Hv & Ht & Hs & Hb) HP. unfold pushstate, top. apply wp_bind. eapply wp_access; [by rewrite Ht|]. apply wp_bind.
  eapply (wp_mono _ (fun _ w' => w_heap w' = w_heap w /\ w_env w' = w_env w)).
  { destruct (flag_set _ _); [by apply wp_eprint|by apply wp_ret]. }
  intros _ w1 [Hh1 He1]. apply wp_bind. eapply building_same in Hb; [|exact Hh1|exact He1].
  apply wp_malloc_good; [by destruct Hb| |].
  { unfold HEAP_HI. destruct ptr_bytes_ok as [-> | ->]; lia. }
  intros a w2 Hw2. apply wp_ret, HP. rewrite Ht. split; [by apply view_stack|]. split; [done|].
  split; [|by eapply building_frame]. destruct Hs as [Hs1 Hs2]. apply Forall_cons_1 in Hs1 as [? ?].
  split; [by repeat constructor|done].
Qed.

(** ** Storing a finished value *)

(** The frame of a finished scalar. *)
Definition holds (f : parse_frame) (v : nvval) : Prop :=
  match v with
  | NvString str => pf_value_type f = JSON_TYPE_STRING /\ pf_value f = PvStr str
  | NvBooleanValue b => pf_value_type f = JSON_TYPE_BOOLEAN /\ pf_value f = PvWord (if b then 1 else 0)
  | NvBoolean => pf_value_type f = JSON_TYPE_NULL /\ pf_value f = PvWord 0
  | NvInt32 z => pf_value_type f = JSON_TYPE_INTEGER /\ exists z', pf_value f = PvWord z' /\ z = i32 z'
  | _ => False
  end.

Lemma adds_next h k v op k0 l ls (P : Z -> world E -> Prop) w :
  adds nv_open h k v op -> building w ((h, k0, l) :: ls) ->
  (forall w', building w' ((h, k0, nv_put k v l) :: ls) -> P 0 w') -> wp op P w.
Proof.
  intros Hadd [Hg Ho] HP. eapply wp_mono; [by eapply Hadd|]. intros r w' (Hg' & -> & Ho'). apply HP. by split.
Qed.

Lemma add_value_spec f v h key s k0 l ls w :
  holds f v -> building w ((h, k0, l) :: ls) ->
  wp (add_value h key (pf_value_type f) (pf_value f) s)
    (fun r w' => r = (0, s) /\ building w' ((h, k0, nv_put key v l) :: ls)) w.
Proof.
  intros Hh Hb. unfold add_value. destruct v as [str|b| |z| | | | |]; cbn [holds] in Hh; try done.
  - destruct Hh as [-> ->]. apply wp_bind. eapply adds_next; [apply nv_add_string|done|]. intros. by apply wp_ret.
  - destruct Hh as [-> ->]. apply wp_bind.
    assert (negb ((if b then 1 else 0) =? 0) = b) as -> by by destruct b.
    eapply adds_next; [apply nv_add_boolean_value|done|]. intros. by apply wp_ret.
  - destruct Hh as [-> _]. apply wp_bind. eapply adds_next; [apply nv_add_boolean|done|]. intros. by apply wp_ret.
  - destruct Hh as (-> & z' & -> & ->). apply wp_bind.
    eapply adds_next; [apply nv_add_int32|done|]. intros. by apply wp_ret.
Qed.

(** The turn that pops a finished frame: the value goes into the list of the frame below, whose
    handler then runs. *)
Lemma pop_turn fuel s t f p fs h key ls' Q w :
  view s t -> s_top s = f :: p :: fs -> pf_ps f = PARSE_DONE -> pf_nvl p = Some h -> pf_key p = Some key ->
  wp (add_value h key (pf_value_type f) (pf_value f) s) (fun r w' => r = (0, s) /\ building w' ls') w ->
  stack_ok (p :: fs) ls' -> (0 < fuel)%nat ->
  (forall s' w', at_frame s' t (with_key p None) fs ls' w' -> wp (run (pred fuel) s') Q w') ->
  wp (main_loop fuel s) Q w.
Proof.
  intros Hv Ht Hps Hn Hk Hadd Hst Hf HQ. destruct fuel as [|fuel]; [lia|]. cbn [main_loop]. unfold top. apply wp_bind.
  eapply wp_access; [by rewrite Ht|]. rewrite decide_False by by rewrite Hps. rewrite decide_True by done.
  rewrite Ht. cbn [tail]. apply wp_bind. unfold pop_frame. apply wp_bind. unfold store_value, top. apply wp_bind.
  eapply wp_access; [by rewrite Ht|]. apply wp_bind. eapply wp_access; [by rewrite Ht|]. apply wp_bind.
  eapply wp_access; [exact Hn|]. apply wp_bind. eapply wp_access; [exact Hk|]. apply wp_bind.
  eapply wp_mono; [exact Hadd|]. intros r w' [-> Hb]. cbn beta iota. rewrite Ht. apply wp_ret. cbn beta iota.
  change (negb (0 =? 0)) with false. cbn beta iota. apply wp_bind. unfold parse_frame_free. cbn [s_top with_stack].
  apply wp_bind. eapply wp_access; [done|]. cbn [pf_value with_value]. apply wp_bind.
  eapply (wp_mono _ (fun _ w1 => w1 = w')); [by destruct (pf_nvl (with_value f (PvWord 0)))|]. intros _ w1 ->. apply wp_ret. cbn [tail]. apply wp_ret.
  apply HQ. split; [by do 2 apply view_stack|]. split; [done|]. split; [by apply (stack_ok_top p)|done].
Qed.

(** What follows when the value of a pair is stored. *)
Definition stored Q t' retps f fs h k0 key v l ls : Prop :=
  forall s' w' fuel', at_frame s' t' (with_key (with_ps f retps) None) fs ((h, k0, nv_put key v l) :: ls) w' ->
    (4 * length t' + 3 <= fuel')%nat -> wp (run fuel' s') Q w'.

Lemma scalar_done fuel s t f f0 retps fs h k0 key v l ls Q w :
  at_frame s t f (with_ps f0 retps :: fs) ((h, k0, l) :: ls) w -> pf_nvl f = None ->
  pf_nvl f0 = Some h -> pf_key f0 = Some key -> (4 * length t + 4 <= fuel)%nat ->
  stored Q t retps f0 fs h k0 key v l ls ->
  (forall f', holds f' v -> pf_ps f' = PARSE_DONE -> wp (main_loop fuel (with_stack s (f' :: with_ps f0 retps :: fs))) Q w).
Proof.
  intros (Hv & Ht & [Hs1 Hs2] & Hb) Hnone Hn Hk Hf HQ f' Hh Hps. apply Forall_cons_1 in Hs1 as [_ Hs1]. cbn in Hs2.
  rewrite Hnone, Hn in Hs2. eapply (pop_turn _ _ t); [by apply view_stack|done|done|done|done|by eapply add_value_spec| |lia|].
  - split; [done|]. cbn. rewrite Hn. by injection Hs2 as ->.
  - intros s' w' Hat'. apply HQ; [done|lia].
Qed.

(** ** Scalars *)

Lemma dup_collect_spec s t f fs ls acc (P : option cstr -> world E -> Prop) w :
  at_frame s t f fs ls w -> custr_rep (s_collect s) acc -> Zlen acc <= JSON_MAX + 1 ->
  (forall w', at_frame s t f fs ls w' -> P (Some (c_text acc)) w') -> wp (dup_collect s) P w.
Proof.
  intros (Hv & Ht & Hs & Hb) Hrep Hmax HP. unfold dup_collect. apply wp_bind. eapply custr_cstr_spec; [done|].
  apply wp_bind, wp_malloc_good; [by destruct Hb| |].
  { pose proof (c_text_length acc). unfold JSON_MAX, HEAP_HI, Zlen in *. lia. }
  intros a w1 Hw1. apply wp_ret, HP. split; [done|]. split; [done|]. split; [done|by eapply building_frame].
Qed.

(** A collected string is at most as long as the document. *)
Lemma collected_bound s t f fs ls w acc t' :
  at_frame s t f fs ls w -> r_string [] t = POk acc t' -> Zlen acc <= JSON_MAX + 1.
Proof.
  intros [Hv _] Hr. pose proof (view_bound _ _ Hv). apply r_string_length in Hr. unfold Zlen in *. cbn in Hr. lia.
Qed.

(** The frame that a value is read into. *)
Abbreviation value_frame ps := (with_ps zero_frame ps) (only parsing).

(** The end of the handlers of scalars: the value is set, and the frame is done. *)
Lemma finish_scalar fuel s t f f' retps fs h k0 key v l ls Q w :
  at_frame s t f (with_ps f' retps :: fs) ((h, k0, l) :: ls) w -> pf_nvl f = None ->
  pf_nvl f' = Some h -> pf_key f' = Some key -> (4 * length t + 4 <= fuel)%nat ->
  stored Q t retps f' fs h k0 key v l ls ->
  forall g, holds g v -> wp (movestate (set_top s g) PARSE_DONE) (next fuel Q) w.
Proof.
  intros Hat Hnone Hn Hk Hf HQ g Hg. unfold set_top. rewrite (proj1 (proj2 Hat)). cbn [tail].
  eapply movestate_spec; [done|]. intros w1 Hh He. unfold next.
  eapply (scalar_done _ s _ f); [|done|done|done|done|done| |done].
  - destruct Hat as (Hv & Ht & Hs & Hb). split; [done|]. split; [done|]. split; [done|by eapply building_same].
  - by destruct v.
Qed.

Lemma string_value fuel s t f retps fs h k0 key l ls Q w :
  at_frame s t (value_frame PARSE_STRING) (with_ps f retps :: fs) ((h, k0, l) :: ls) w ->
  pf_nvl f = Some h -> pf_key f = Some key -> (4 * length t + 5 <= fuel)%nat ->
  given (pbind (r_string [] t) (fun str => POk (NvString (c_text str))))
    (fun v t' => stored Q t' retps f fs h k0 key v l ls) (errk Q) ->
  wp (main_loop fuel s) Q w.
Proof.
  intros Hat Hn Hk Hf HQ. rewrite pbind_given in HQ. eapply loop_hdlr; [done|done|lia|]. unfold hdlr_string. apply wp_bind.
  eapply collect_string_spec; [done|]. destruct (r_string [] t) as [str t'|e m|] eqn:Hr; [| |done].
  - intros p cu w1 Hcu Hat1. cbn beta iota. change (negb (0 =? 0)) with false. cbn beta iota.
    eapply top_next; [done|]. unfold set_top. rewrite (proj1 (proj2 Hat1)). cbn [tail].
    pose proof (at_frame_top _ _ _ (with_type (value_frame PARSE_STRING) JSON_TYPE_STRING) _ _ _ Hat1 eq_refl eq_refl) as Hat2.
    apply wp_bind. eapply dup_collect_spec; [done|exact Hcu|exact (collected_bound _ _ _ _ _ _ _ _ Hat Hr)|].
    intros w2 Hat3. eapply top_next; [done|]. pose proof (r_string_length _ _ _ _ Hr) as [Hlen _].
    eapply finish_scalar; [exact Hat3|done|done|done|lia|exact HQ|done].
  - intros s' w' Hbad. apply wp_ret. eapply next_bad; [done|lia|done].
Qed.

Lemma bareword_value fuel s t f retps fs h k0 key l ls Q w :
  at_frame s t (value_frame PARSE_BAREWORD) (with_ps f retps :: fs) ((h, k0, l) :: ls) w ->
  pf_nvl f = Some h -> pf_key f = Some key -> class islower (first t) = Some true -> (4 * length t + 1 <= fuel)%nat ->
  given (r_bareword t) (fun v t' => stored Q t' retps f fs h k0 key v l ls) (errk Q) ->
  wp (main_loop fuel s) Q w.
Proof.
  intros Hat Hn Hk Hlow Hf HQ. eapply loop_hdlr; [done|done|lia|]. unfold hdlr_bareword, collect_bareword.
  apply wp_bind, wp_bind. eapply reset_collect_spec; [done|]. intros cu Hcu Hat1.
  pose proof (view_bound _ _ (proj1 Hat1)). pose proof (view_fuel _ _ (proj1 Hat1)).
  eapply collect_while_spec; [done|done|done|rewrite Zlen_nil; lia|done|]. unfold r_bareword in HQ.
  destruct (r_span islower [] t) as [[wd t']|] eqn:Hsp; [|done]. intros q cu1 w1 Hcu1 Hat2.
  change (negb (0 =? 0)) with false. cbn beta iota. pose proof (span_consumes _ _ _ _ _ Hlow ltac:(done) Hsp).
  apply wp_bind. eapply custr_cstr_spec; [done|]. eapply top_next; [done|].
  destruct (strcmp (c_text wd) (cs "true") =? 0); [by eapply finish_scalar; [done|done|done|done|lia|done|]|].
  destruct (strcmp (c_text wd) (cs "false") =? 0); [by eapply finish_scalar; [done|done|done|done|lia|done|]|].
  destruct (strcmp (c_text wd) (cs "null") =? 0); [by eapply finish_scalar; [done|done|done|done|lia|done|]|].
  eapply post_next; [done|split; [by_decide|done]|lia|done].
Qed.

Lemma number_value fuel s t f retps fs h k0 key l ls Q w :
  at_frame s t (value_frame PARSE_NUMBER) (with_ps f retps :: fs) ((h, k0, l) :: ls) w ->
  pf_nvl f = Some h -> pf_key f = Some key -> (0 < length t)%nat -> (4 * length t + 1 <= fuel)%nat ->
  given (r_number t) (fun v t' => stored Q t' retps f fs h k0 key v l ls) (errk Q) ->
  wp (main_loop fuel s) Q w.
Proof.
  intros Hat Hn Hk Hpos Hf HQ. eapply loop_hdlr; [done|done|lia|]. unfold hdlr_number, collect_number.
  apply wp_bind, wp_bind. eapply reset_collect_spec; [done|]. intros cu Hcu Hat1. eapply peek_next; [done|].
  unfold r_number in HQ. set (neg := Ascii.eqb (first t) "-"%char) in *. set (t1 := if neg then tail t else t) in *.
  assert (Hlen1 : (length t1 <= length t)%nat) by (unfold t1; destruct neg; [destruct t; cbn; lia|done]).
  apply wp_bind. eapply (wp_mono _ (fun r w' => r.1 = neg /\ custr_rep (s_collect r.2) [] /\
    at_frame r.2 t1 (value_frame PARSE_NUMBER) (with_ps f retps :: fs) ((h, k0, l) :: ls) w')).
  { unfold t1. destruct neg; [|by apply wp_ret]. apply wp_bind. eapply popchar_spec; [by destruct Hat1|].
    intros p Hp. apply wp_ret. split; [done|]. split; [done|]. by eapply at_frame_pos. }
  intros [neg' s1] w1 (Hneg & Hcu1 & Hat2). cbn in Hneg, Hcu1, Hat2. subst neg'. clearbody neg t1. clear Hat1 Hat.
  cbn beta iota. eapply peek_next; [done|]. destruct (class isdigit (first t1)) as [[]|] eqn:Hcl; [| |done];
    apply wp_bind; (eapply ctype_spec; [exact Hcl|]); cbn [negb].
  2:{ apply wp_bind. eapply fail_with_spec; [done|by split; [by_decide|]|]. intros s' w' Hbad. apply wp_ret.
      eapply next_bad; [done|lia|done]. }
  pose proof (view_bound _ _ (proj1 Hat2)). pose proof (view_fuel _ _ (proj1 Hat2)).
  apply wp_bind. eapply collect_while_spec; [done|done|done|rewrite Zlen_nil; lia|done|].
  destruct (r_span isdigit [] t1) as [[ds t2]|] eqn:Hsp; [|done]. intros q cu1 w2 Hcu2 Hat3.
  change (negb (0 =? 0)) with false. cbn beta iota. eapply peek_next; [done|]. pose proof (span_consumes _ _ _ _ _ Hcl ltac:(done) Hsp).
  destruct (_ || _ || _).
  { apply wp_bind. eapply fail_with_spec; [done|by split; [by_decide|]|]. intros s' w' Hbad. apply wp_ret.
    eapply next_bad; [done|lia|done]. }
  apply wp_bind. eapply custr_cstr_spec; [done|]. destruct (atoi (c_text ds)) as [v|]; [|done].
  apply wp_bind. eapply wp_access; [done|]. apply wp_ret. change (negb (0 =? 0)) with false. cbn beta iota.
  eapply top_next; [done|]. eapply finish_scalar; [done|done|done|done|lia|exact HQ|].
  split; [done|]. by eexists.
Qed.

(** ** Objects and arrays *)

(** The place of a new list in the frames below: its name there, and the lists around it. *)
Definition place (fs : list parse_frame) (ls : levels) (k : cstr) (outer : levels) : Prop :=
  match fs with
  | [] => ls = [] /\ k = [] /\ outer = []
  | p :: _ => exists h k0 l ls', ls = (h, k0, l) :: ls' /\ pf_nvl p = Some h /\ pf_key p = Some k /\
      outer = (h, k0, filter (fun pair => pair.1 <> k) l) :: ls'
  end.

Lemma add_empty_child_spec s t f fs ls k outer (P : Z * state -> world E -> Prop) w :
  at_frame s t f fs ls w -> pf_nvl f = None -> place fs ls k outer ->
  (forall h s' w', at_frame s' t (with_nvl f (Some h)) fs ((h, k, []) :: outer) w' -> P (0, s') w') ->
  wp (add_empty_child s) P w.
Proof.
  intros (Hv & Ht & [Hs1 Hs2] & Hg & Ho) Hnone Hpl HP. unfold add_empty_child. apply wp_bind.
  eapply wp_mono; [by apply nv_alloc|]. intros [r x] w1 (Hg1 & -> & x' & -> & Ho1). change (negb (0 =? 0)) with false.
  cbn beta iota. apply wp_bind. eapply wp_access; [done|]. unfold top. apply wp_bind. eapply wp_access; [by rewrite Ht|].
  rewrite Ht. cbn [tail]. cbn in Hs2. rewrite Hnone in Hs2. apply Forall_cons_1 in Hs1 as [Hs1 Hs1'].
  destruct fs as [|p fs]; cbn [place] in Hpl.
  - destruct Hpl as (-> & -> & ->). apply wp_ret, (HP x'). unfold set_top. rewrite Ht. split; [by apply view_stack|].
    split; [done|]. split; [by split; [constructor|]|]. split; [done|]. by apply nv_outermost.
  - destruct Hpl as (h & k0 & l & ls' & -> & Hn & Hk & ->). apply wp_bind. eapply wp_access; [exact Hn|].
    apply wp_bind. eapply wp_access; [exact Hk|]. apply wp_bind.
    eapply wp_mono; [by eapply nv_add_nvlist|]. intros r w2 (Hg2 & -> & Ho2). change (negb (0 =? 0)) with false. cbn beta iota.
    apply wp_bind. eapply wp_mono; [by eapply nv_free_spare|]. intros _ w3 (Hg3 & Ho3). apply wp_bind.
    eapply wp_mono; [eapply nv_lookup_nvlist; [done|exact Ho3|apply nv_put_absent]|].
    intros [r c] w4 (Hg4 & -> & c' & -> & Ho4). change (negb (0 =? 0)) with false. cbn beta iota. apply wp_bind.
    eapply wp_access; [done|]. apply wp_ret, (HP c'). unfold set_top. rewrite Ht. split; [by apply view_stack|]. split; [done|].
    split; [|by split]. split; [by constructor|]. cbn in *. rewrite Hn in Hs2 |- *. congruence.
Qed.

(** What follows when an object or array is complete: its frame is done and its list is the
    innermost. *)
Definition finished Q fs k outer (l : nvpairs) t' : Prop :=
  forall s' w' fuel' h f', at_frame s' t' f' fs ((h, k, l) :: outer) w' -> pf_ps f' = PARSE_DONE -> pf_nvl f' = Some h ->
    pf_value_type f' = JSON_TYPE_OBJECT \/ pf_value_type f' = JSON_TYPE_ARRAY ->
    (4 * length t' + 4 <= fuel')%nat -> wp (main_loop fuel' s') Q w'.

(** Inside a pair, the list becomes the value of the pair. *)
Lemma finished_stored Q f retps fs h k0 key l ls lc t' :
  pf_nvl f = Some h -> pf_key f = Some key ->
  stored Q t' retps f fs h k0 key (NvNvlist lc) l ls ->
  finished Q (with_ps f retps :: fs) key ((h, k0, filter (fun pair => pair.1 <> key) l) :: ls) lc t'.
Proof.
  intros Hn Hk HQ s' w' fuel' hc f' (Hv & Ht & [Hs1 Hs2] & Hg & Ho) Hps Hnc Hty Hf.
  apply Forall_cons_1 in Hs1 as [Hval Hs1]. cbn in Hs2. rewrite Hnc, Hn in Hs2.
  eapply (pop_turn _ _ t'); [done|exact Ht|done|exact Hn|exact Hk| | |lia|].
  - instantiate (1 := (h, k0, nv_put key (NvNvlist lc) l) :: ls). unfold add_value.
    destruct Hty as [-> | ->]; apply wp_ret; (split; [done|]); (split; [done|]); by eapply nv_close.
  - split; [done|]. cbn. rewrite Hn. injection Hs2 as Hs2. by rewrite Hs2.
  - intros s2 w2 Hat. apply HQ; [done|lia].
Qed.

(** ** The machine computes the reference parser

    One statement for each of the mutual functions; each is proved of [S n] from the others of [n]. *)

Definition value_ok (n : nat) : Prop := forall fuel s t f retps fs h k0 key l ls Q w,
  at_frame s t f fs ((h, k0, l) :: ls) w -> pf_nvl f = Some h -> pf_key f = Some key -> (4 * length t + 1 <= fuel)%nat ->
  given (r_value n t) (fun v t' => stored Q t' retps f fs h k0 key v l ls) (errk Q) ->
  wp (push_value s retps) (next fuel Q) w.

Definition object_ok (n : nat) : Prop := forall fuel s t fs ls k outer Q w,
  at_frame s t (value_frame PARSE_OBJECT) fs ls w -> place fs ls k outer -> (4 * length t + 2 <= fuel)%nat ->
  given (r_object n t) (finished Q fs k outer) (errk Q) -> wp (main_loop fuel s) Q w.

Definition array_ok (n : nat) : Prop := forall fuel s t fs ls k outer Q w,
  at_frame s t (value_frame PARSE_ARRAY) fs ls w -> place fs ls k outer -> (4 * length t + 3 <= fuel)%nat ->
  given (r_array n t) (finished Q fs k outer) (errk Q) -> wp (main_loop fuel s) Q w.

Definition members_ok (n : nat) : Prop := forall fuel s t f fs h k l outer Q w,
  at_frame s t f fs ((h, k, l) :: outer) w -> pf_ps f = PARSE_KEY_STRING -> pf_nvl f = Some h ->
  pf_value_type f = JSON_TYPE_OBJECT -> (4 * length t + 3 <= fuel)%nat ->
  given (r_members n l t) (finished Q fs k outer) (errk Q) -> wp (main_loop fuel s) Q w.

Definition elements_ok (n : nat) : Prop := forall fuel s t f fs h k idx l outer Q w,
  at_frame s t f fs ((h, k, l) :: outer) w -> pf_ps f = PARSE_ARRAY_VALUE -> pf_nvl f = Some h -> pf_key f = None ->
  pf_array_index f = idx -> INT_MIN <= idx <= INT_MAX -> pf_value_type f = JSON_TYPE_ARRAY -> (4 * length t + 2 <= fuel)%nat ->
  given (r_elements n idx l t) (finished Q fs k outer) (errk Q) -> wp (main_loop fuel s) Q w.

(** Pushing a frame and going on with the loop. *)
Lemma push_loop fuel s t f fs ls ps retps Q w :
  at_frame s t f fs ls w ->
  (forall s' w', at_frame s' t (value_frame ps) (with_ps f retps :: fs) ls w' -> wp (main_loop fuel s') Q w') ->
  wp ('(_, s') ← pushstate s ps retps; mret s') (next fuel Q) w.
Proof. intros Hat HQ. apply wp_bind. eapply pushstate_spec; [done|]. intros s' w' Hat'. by apply wp_ret, HQ. Qed.

Lemma place_value f retps fs h k0 key l ls :
  pf_nvl f = Some h -> pf_key f = Some key ->
  place (with_ps f retps :: fs) ((h, k0, l) :: ls) key ((h, k0, filter (fun pair => pair.1 <> key) l) :: ls).
Proof. intros. by exists h, k0, l, ls. Qed.

Lemma value_step n : object_ok n -> array_ok n -> value_ok (S n).
Proof.
  intros HO HA fuel s t f retps fs h k0 key l ls Q w Hat Hn Hk Hf HQ. unfold push_value. cbn [r_value] in HQ.
  eapply peek_next; [done|]. destruct (Ascii.eqb (first t) (chr 34)) eqn:Hc1.
  { pose proof (tail_length _ _ Hc1 ltac:(done)). eapply pop_next; [done|]. intros s1 Hat1. eapply push_loop; [done|].
    intros s2 w2 Hat2. eapply string_value; [done|done|done|lia|done]. }
  destruct (Ascii.eqb (first t) "{") eqn:Hc2.
  { pose proof (tail_length _ _ Hc2 ltac:(done)). eapply pop_next; [done|]. intros s1 Hat1. eapply push_loop; [done|].
    intros s2 w2 Hat2. rewrite pbind_given in HQ. eapply HO; [done|by apply place_value|lia|].
    destruct (r_object n _); [|done..]. by apply finished_stored. }
  destruct (Ascii.eqb (first t) "[") eqn:Hc3.
  { pose proof (tail_length _ _ Hc3 ltac:(done)). eapply pop_next; [done|]. intros s1 Hat1. eapply push_loop; [done|].
    intros s2 w2 Hat2. rewrite pbind_given in HQ. eapply HA; [done|by apply place_value|lia|].
    destruct (r_array n _); [|done..]. by apply finished_stored. }
  destruct (class islower (first t)) as [[]|] eqn:Hlow; [| |done]; apply wp_bind; (eapply ctype_spec; [exact Hlow|]); cbn beta iota.
  { eapply push_loop; [done|]. intros s1 w1 Hat1. by eapply bareword_value. }
  destruct (if Ascii.eqb (first t) "-" then Some true else class isdigit (first t)) as [num|] eqn:Hnum; [|done].
  apply wp_bind. eapply (wp_mono _ (fun b w' => b = num /\ w' = w)).
  { destruct (Ascii.eqb (first t) "-"); [injection Hnum as <-; by apply wp_ret|]. by eapply ctype_spec. }
  intros b w' [-> ->]. destruct num.
  - eapply push_loop; [done|]. intros s1 w1 Hat1. eapply number_value; [done|done|done| |done|done].
    destruct t; [by vm_compute in Hnum|cbn; lia].
  - eapply post_next; [done|by split; [by_decide|]|lia|done].
Qed.

Lemma object_step n : members_ok n -> object_ok (S n).
Proof.
  intros HM fuel s t fs ls k outer Q w Hat Hpl Hf HQ. cbn [r_object] in HQ. eapply loop_hdlr; [done|done|lia|].
  unfold hdlr_object. eapply top_next; [done|]. unfold set_top. rewrite (proj1 (proj2 Hat)). cbn [tail].
  pose proof (at_frame_top _ _ _ (with_type (value_frame PARSE_OBJECT) JSON_TYPE_OBJECT) _ _ _ Hat eq_refl eq_refl) as Hat1.
  apply wp_bind. eapply add_empty_child_spec; [done|done|done|]. intros h s2 w2 Hat2.
  change (negb (0 =? 0)) with false. cbn beta iota. eapply space_next; [done|done|]. intros s3 t3 Hat3 Hlen HQ3. cbn beta in HQ3.
  eapply pop_next; [done|]. intros s4 Hat4. destruct (Ascii.eqb (first t3) "}") eqn:Hc.
  { pose proof (tail_length _ _ Hc ltac:(done)). eapply move_next; [done|]. intros s5 w5 Hat5.
    eapply HQ3; [done|done|done|by left|lia]. }
  destruct (Ascii.eqb (first t3) (chr 34)) eqn:Hq.
  { pose proof (tail_length _ _ Hq ltac:(done)). eapply move_next; [done|]. intros s5 w5 Hat5.
    eapply HM; [done|done|done|done|lia|done]. }
  eapply post_next; [done|by split; [by_decide|]|lia|done].
Qed.

(** The turn after the value of a member. *)
Lemma object_comma fuel s t f fs h k l outer n Q w :
  at_frame s t f fs ((h, k, l) :: outer) w -> pf_ps f = PARSE_OBJECT_COMMA -> pf_nvl f = Some h ->
  pf_value_type f = JSON_TYPE_OBJECT -> members_ok n -> (4 * length t + 3 <= fuel)%nat ->
  given (after_space t (fun t =>
      if Ascii.eqb (first t) "}"%char then POk l (tail t)
      else if Ascii.eqb (first t) ","%char then
        after_space (tail t) (fun t =>
        if negb (Ascii.eqb (first t) (chr 34)) then PErr EPROTO (cs "expected '" ++ chr 34 :: cs "'")
        else r_members n l (tail t))
      else PErr EPROTO (cs "expected ',' or '}'"))) (finished Q fs k outer) (errk Q) ->
  wp (run fuel s) Q w.
Proof.
  intros Hat Hps Hn Hty HM Hf HQ. eapply run_hdlr; [done|by rewrite Hps|]. unfold hdlr_object_comma.
  eapply space_next; [done|exact HQ|]. clear HQ. intros s1 t1 Hat1 Hlen1 HQ. cbn beta in HQ. eapply pop_next; [done|]. intros s2 Hat2.
  destruct (Ascii.eqb (first t1) "}") eqn:Hc.
  { pose proof (tail_length _ _ Hc ltac:(done)). eapply move_next; [done|]. intros s5 w5 Hat5.
    eapply HQ; [done|done|done|by left|lia]. }
  destruct (Ascii.eqb (first t1) ",") eqn:Hcomma; [|eapply post_next; [done|by split; [by_decide|]|lia|done]].
  pose proof (tail_length _ _ Hcomma ltac:(done)).
  eapply space_next; [done|exact HQ|]. clear HQ. intros s3 t3 Hat3 Hlen3 HQ. cbn beta in HQ. eapply pop_next; [done|]. intros s4 Hat4.
  destruct (Ascii.eqb (first t3) (chr 34)) eqn:Hq; cbn [negb] in *; [|eapply post_next; [done|by split; [by_decide|]|lia|done]].
  pose proof (tail_length _ _ Hq ltac:(done)). eapply move_next; [done|]. intros s5 w5 Hat5.
  eapply HM; [done|done|done|done|lia|done].
Qed.

Lemma members_step n : value_ok n -> members_ok n -> members_ok (S n).
Proof.
  intros HV HM fuel s t f fs h k l outer Q w Hat Hps Hn Hty Hf HQ. cbn [r_members] in HQ. rewrite pbind_given in HQ.
  eapply loop_hdlr; [done|by rewrite Hps|lia|]. unfold hdlr_key_string. apply wp_bind.
  eapply collect_string_spec; [done|]. destruct (r_string [] t) as [key t1|e m|] eqn:Hr; [| |done].
  2:{ intros s' w' Hbad. apply wp_ret. eapply next_bad; [done|lia|done]. }
  intros p cu w1 Hcu Hat1. change (negb (0 =? 0)) with false. cbn beta iota. apply wp_bind.
  eapply dup_collect_spec; [done|exact Hcu|exact (collected_bound _ _ _ _ _ _ _ _ Hat Hr)|].
  intros w2 Hat2. eapply top_next; [done|]. unfold set_top. rewrite (proj1 (proj2 Hat2)). cbn [tail].
  pose proof (at_frame_top _ _ _ (with_key f (Some (c_text key))) _ _ _ Hat2 eq_refl eq_refl) as Hat3.
  eapply move_next; [done|]. intros s4 w4 Hat4. pose proof (r_string_length _ _ _ _ Hr) as [Hlen _].
  eapply loop_hdlr; [done|done|lia|]. unfold hdlr_colon.
  eapply space_next; [done|exact HQ|]. clear HQ. intros s5 t5 Hat5 Hlen5 HQ. cbn beta in HQ. eapply pop_next; [done|]. intros s6 Hat6.
  destruct (Ascii.eqb (first t5) ":") eqn:Hcolon; cbn [negb] in *; [|eapply post_next; [done|by split; [by_decide|]|lia|done]].
  pose proof (tail_length _ _ Hcolon ltac:(done)).
  eapply space_next; [done|exact HQ|]. clear HQ. intros s7 t7 Hat7 Hlen7 HQ. cbn beta in HQ. rewrite pbind_given in HQ.
  eapply HV; [exact Hat7|exact Hn|done|lia|]. destruct (r_value n t7) as [v t8|e m|]; [|done..].
  intros s8 w8 fuel8 Hat8 Hf8. by eapply object_comma; [exact Hat8|done|exact Hn|exact Hty|done|done|].
Qed.

Lemma end_array_next fuel s t f fs h k l outer Q w :
  at_frame s t f fs ((h, k, l) :: outer) w -> pf_nvl f = Some h -> pf_value_type f = JSON_TYPE_ARRAY ->
  (4 * length t + 4 <= fuel)%nat ->
  finished Q fs k outer (decorated (pf_array_index f) l) t -> wp (end_array s) (next fuel Q) w.
Proof.
  intros (Hv & Ht & Hs & Hb) Hn Hty Hf HQ. unfold end_array, decorate_array, top. apply wp_bind, wp_bind.
  eapply wp_access; [by rewrite Ht|]. apply wp_bind. eapply wp_access; [exact Hn|]. apply wp_bind.
  eapply adds_next; [apply nv_add_boolean|done|]. intros w1 Hb1. change (negb (0 =? 0)) with false. cbn beta iota. apply wp_bind.
  eapply adds_next; [apply nv_add_uint32|done|]. intros w2 Hb2. change (negb (0 =? 0)) with false. cbn beta iota.
  apply wp_ret. cbn beta iota. eapply (move_next s t f fs ((h, k, decorated (pf_array_index f) l) :: outer));
    [split; [done|]; split; [exact Ht|]; split; [exact Hs|exact Hb2]|].
  intros s3 w3 Hat3. eapply HQ; [exact Hat3|done|done|by right|done].
Qed.

Lemma array_comma fuel s t f fs h k l outer n Q w :
  at_frame s t f fs ((h, k, l) :: outer) w -> pf_ps f = PARSE_ARRAY_COMMA -> pf_nvl f = Some h -> pf_key f = None ->
  INT_MIN <= pf_array_index f <= INT_MAX -> pf_value_type f = JSON_TYPE_ARRAY -> elements_ok n -> (4 * length t + 3 <= fuel)%nat ->
  given (after_space t (fun t =>
      if Ascii.eqb (first t) "]"%char then POk (decorated (pf_array_index f) l) (tail t)
      else if Ascii.eqb (first t) ","%char then r_elements n (pf_array_index f) l (tail t)
      else PErr EPROTO (cs "expected ',' or ']'"))) (finished Q fs k outer) (errk Q) ->
  wp (run fuel s) Q w.
Proof.
  intros Hat Hps Hn Hk Hidx Hty HE Hf HQ. eapply run_hdlr; [done|by rewrite Hps|]. unfold hdlr_array_comma.
  eapply space_next; [done|exact HQ|]. clear HQ. intros s1 t1 Hat1 Hlen1 HQ. cbn beta in HQ. eapply pop_next; [done|]. intros s2 Hat2.
  destruct (Ascii.eqb (first t1) "]") eqn:Hc.
  { pose proof (tail_length _ _ Hc ltac:(done)). eapply end_array_next; [done|done|done|lia|done]. }
  destruct (Ascii.eqb (first t1) ",") eqn:Hcomma; [|eapply post_next; [done|by split; [by_decide|]|lia|done]].
  pose proof (tail_length _ _ Hcomma ltac:(done)). eapply move_next; [done|]. intros s3 w3 Hat3.
  eapply HE; [done|done|done|done|done|done|done|lia|done].
Qed.

Lemma array_step n : elements_ok n -> array_ok (S n).
Proof.
  intros HE fuel s t fs ls k outer Q w Hat Hpl Hf HQ. cbn [r_array] in HQ. eapply loop_hdlr; [done|done|lia|].
  unfold hdlr_array. eapply top_next; [done|]. unfold set_top. rewrite (proj1 (proj2 Hat)). cbn [tail].
  pose proof (at_frame_top _ _ _ (with_type (value_frame PARSE_ARRAY) JSON_TYPE_ARRAY) _ _ _ Hat eq_refl eq_refl) as Hat1.
  apply wp_bind. eapply add_empty_child_spec; [done|done|done|]. intros h s2 w2 Hat2.
  change (negb (0 =? 0)) with false. cbn beta iota. eapply space_next; [done|done|]. intros s3 t3 Hat3 Hlen HQ3. cbn beta in HQ3.
  eapply peek_next; [done|]. destruct (Ascii.eqb (first t3) "]") eqn:Hc.
  { pose proof (tail_length _ _ Hc ltac:(done)). eapply pop_next; [done|]. intros s4 Hat4.
    eapply end_array_next; [done|done|done|lia|done]. }
  eapply move_next; [done|]. intros s5 w5 Hat5. eapply HE; [done|done|done|done|done|done|done|lia|done].
Qed.

Lemma elements_step n : value_ok n -> elements_ok n -> elements_ok (S n).
Proof.
  intros HV HE fuel s t f fs h k idx l outer Q w Hat Hps Hn Hk Hidx Hr Hty Hf HQ. cbn [r_elements] in HQ.
  eapply loop_hdlr; [done|by rewrite Hps|lia|]. unfold hdlr_array_value. eapply top_next; [done|]. rewrite Hk, Hidx.
  unfold asprintf. apply wp_bind, wp_bind. pose proof (print_d_length idx Hr) as Hlen.
  apply wp_malloc_good; [by destruct Hat as (_ & _ & _ & [? _])|pose proof (Zlen_nonneg (print_d idx)); unfold HEAP_HI; lia|].
  intros a w1 Hw1. apply wp_ret. unfold set_top. rewrite (proj1 (proj2 Hat)). cbn [tail].
  assert (Hat0 : at_frame s t f fs ((h, k, l) :: outer) w1).
  { destruct Hat as (? & ? & ? & ?). split; [done|]. split; [done|]. split; [done|by eapply building_frame]. }
  set (f1 := with_index f (i32 (idx + 1))). pose proof (at_frame_top _ _ _ f1 _ _ _ Hat0 eq_refl eq_refl) as Hat1.
  eapply top_next; [done|]. cbn [s_top with_stack tail].
  pose proof (at_frame_top _ _ _ (with_key f1 (Some (print_d idx))) _ _ _ Hat1 eq_refl eq_refl) as Hat2.
  eapply space_next; [exact Hat2|exact HQ|]. clear HQ. intros s3 t3 Hat3 Hlen3 HQ. cbn beta in HQ. rewrite pbind_given in HQ.
  eapply HV; [exact Hat3|exact Hn|done|lia|]. destruct (r_value n t3) as [v t4|e m|]; [|done..].
  intros s4 w4 fuel4 Hat4 Hf4. eapply array_comma; [exact Hat4|done|exact Hn|done|apply i32_range|exact Hty|done|done|exact HQ].
Qed.

Lemma machine_ok n : value_ok n /\ object_ok n /\ array_ok n /\ members_ok n /\ elements_ok n.
Proof.
  induction n as [|n (HV & HO & HA & HM & HE)].
  - repeat split; intros ???; intros; by match goal with HQ : given _ _ _ |- _ => destruct HQ end.
  - split; [by apply value_step|]. split; [by apply object_step|]. split; [by apply array_step|].
    split; [by apply members_step|by apply elements_step].
Qed.

(** ** The whole parser *)

Lemma rest_spec n fuel s t Q w :
  at_frame s t (value_frame PARSE_REST) [] [] w -> (4 * length t + 4 <= fuel)%nat ->
  given (r_json n t)
    (fun l t' => forall s' w' h f', at_frame s' t' f' [] [(h, [], l)] w' -> Q (Some h, s') w') (errk Q) ->
  wp (main_loop fuel s) Q w.
Proof.
  intros Hat Hf HQ. destruct (machine_ok n) as (_ & HO & HA & _). unfold r_json in HQ.
  assert (Hroot : forall l t', (forall s' w' h f', at_frame s' t' f' [] [(h, [], l)] w' -> Q (Some h, s') w') ->
    finished Q [] [] [] l t').
  { intros l t' HQ1 s' w' fuel' h f' Hat' Hps Hn _ Hf'. destruct fuel' as [|fuel']; [lia|]. cbn [main_loop].
    eapply top_next; [done|]. rewrite decide_False by by rewrite Hps. rewrite decide_True by done.
    rewrite (proj1 (proj2 Hat')). cbn [tail]. apply wp_ret. rewrite Hn. by eapply HQ1. }
  eapply loop_hdlr; [done|done|lia|]. unfold hdlr_rest.
  eapply space_next; [done|exact HQ|]. clear HQ. intros s1 t1 Hat1 Hlen1 HQ. cbn beta in HQ. eapply pop_next; [done|]. intros s2 Hat2.
  destruct (Ascii.eqb (first t1) "{") eqn:Hc1.
  { pose proof (tail_length _ _ Hc1 ltac:(done)). eapply move_next; [done|]. intros s3 w3 Hat3.
    eapply HO; [exact Hat3|done|lia|]. destruct (r_object n _); [|done..]. by apply Hroot. }
  destruct (Ascii.eqb (first t1) "[") eqn:Hc2.
  { pose proof (tail_length _ _ Hc2 ltac:(done)). eapply move_next; [done|]. intros s3 w3 Hat3.
    eapply HA; [exact Hat3|done|lia|]. destruct (r_array n _); [|done..]. by apply Hroot. }
  eapply post_next; [done|by split; [by_decide|]|lia|done].
Qed.

Lemma free_frames_spec fs ls (P : () -> world E -> Prop) w :
  stack_ok fs ls -> building w ls -> (forall w', good w' -> P tt w') -> wp (free_frames fs true) P w.
Proof.
  revert ls w. induction fs as [|f fs IH]; intros ls w [Hs1 Hs2] Hb HP; cbn [free_frames].
  { apply wp_ret, HP. by destruct Hb. }
  apply Forall_cons_1 in Hs1 as [Hv Hs1]. cbn in Hs2. apply wp_bind. unfold parse_frame_free. apply wp_bind.
  eapply wp_access; [done|]. rewrite Hv. apply wp_bind. destruct (pf_nvl f) as [h|].
  - destruct ls as [|[[h' k] l] ls]; [done|]. injection Hs2 as [= <- Hs2]. destruct Hb as [Hg Ho].
    eapply wp_mono; [by eapply nv_free|]. intros _ w1 (Hg1 & ls1 & Hls1 & Ho1). apply wp_ret, (IH ls1); [|by split|done].
    split; [done|]. rewrite Hls1. exact Hs2.
  - apply wp_ret, wp_ret. by eapply IH.
Qed.
End machine.

(** ** Properties *)

Section whole.
Context {E : Type} `{NvlistLaws E} `{DM : DataModel}.
Implicit Types (w : world E).

(** The flags [nvlist_parse_json] accepts. *)
Definition flags_ok (flag : Z) : Prop :=
  flag_set flag NVJSON_FORCE_INTEGER && flag_set flag NVJSON_FORCE_DOUBLE = false /\ Z.land flag (Z.lnot NVJSON_ALL) = 0.

(** The caller's error structure lies at a low address. *)
Definition errout_ok (errout : option (Z * list char)) : Prop :=
  match errout with Some (a, b) => low_addr a /\ Zlen b = MESSAGE_SIZE | None => True end.

(** What the caller is told: nothing, if it did not ask. *)
Definition told (errout : option (Z * list char)) (e : Z) (m : cstr) (err : option json_error) : Prop :=
  match errout with Some _ => exists pos, err = Some (JsonError e pos m) | None => err = None end.

Definition wants (errout : option (Z * list char)) : bool := match errout with Some _ => true | None => false end.

Lemma alloc_errstr_spec strerror errout s (P : bool * state * cstr -> world E -> Prop) w :
  errout_ok errout -> good w -> s_errstr s = None ->
  (forall cu w', frame w w' -> message_is (wants errout) (with_error s (s_errno s) cu) [] ->
     P (true, with_error s (s_errno s) cu, []) w') ->
  wp (alloc_errstr strerror errout s) P w.
Proof.
  intros Hok Hg Hnone HP. unfold alloc_errstr. destruct errout as [[a b]|].
  - destruct Hok as [Ha Hb]. apply wp_bind. unfold custr_alloc_buf. change (MESSAGE_SIZE =? 0) with false. cbn beta iota.
    apply wp_bind. apply custr_alloc_spec; [by destruct Hg| |by destruct Hg].
    intros w1 Hw1.
    assert (Hst : buf_store b 0 [NUL] = Some (NUL :: drop 1 b)) by (by rewrite buf_store_0 by (change (Zlen [NUL]) with 1; unfold MESSAGE_SIZE in *; lia)).
    apply wp_bind. eapply wp_access; [exact Hst|]. apply wp_ret. change (negb (0 =? 0)) with false. cbn beta iota.
    apply wp_bind. eapply (custr_reset_spec _ []).
    { split; [exact Ha|]. split; [done|]. split; [|by exists (drop 1 b)].
      cbn [cus_datalen]. rewrite Zlen_cons, Zlen_drop. unfold MESSAGE_SIZE in *. lia. }
    intros cu Hcu Hfl Hd Hdl. apply wp_ret, HP; [done|]. cbn. split; [done|]. split; [done|]. split; [by apply Hd|done].
  - assert (with_error s (s_errno s) None = s) as Hs by (destruct s; cbn in *; by subst).
    apply wp_ret. pose proof (HP None w) as HP'. rewrite Hs in HP'. apply HP'; [done|]. unfold message_is. by rewrite Hnone.
Qed.

(** A document is well placed: its characters and the one after them are in memory. *)
Definition buf_ok (buf : list char) (buflen : Z) : Prop := 0 <= buflen < Zlen buf /\ buflen <= JSON_MAX.

(** From the end of the main loop to the caller. *)
Definition leave (errout : option (Z * list char)) (r : option nvlist_t * state) : C E (Z * option nvlist_t * option json_error) :=
  let '(nvlp, s) := r in
  message ← match s_errstr s with Some m => custr_cstr m | None => mret [] end;
  parse_out errout nvlp s message.

Lemma message_told errout s m e (P : cstr -> world E -> Prop) w :
  message_is (wants errout) s m -> is_cstr m ->
  (forall m', told errout e m (match errout with Some _ => Some (JsonError e (s_pos s) m') | None => None end) -> P m' w) ->
  wp (match s_errstr s with Some m => custr_cstr m | None => mret [] end) P w.
Proof.
  unfold message_is. intros Hm Hc HP. destruct (s_errstr s) as [cu|].
  - destruct Hm as (He & Hrep & _). eapply custr_cstr_spec; [done|]. apply HP. rewrite c_text_id by done.
    destruct errout as [[a b]|]; [by eexists|done].
  - apply wp_ret, HP. by destruct errout.
Qed.

Lemma leave_ok errout s t f l h (P : Z * option nvlist_t * option json_error -> world E -> Prop) w :
  at_frame (wants errout) s t f [] [(h, [], l)] w ->
  (forall err w', good w' -> w_errno w' = 0 -> nv_open None [(h, [], l)] (w_env w') -> told errout 0 [] err -> P (0, Some h, err) w') ->
  wp (leave errout (Some h, s)) P w.
Proof.
  intros (Hv & Ht & [Hs1 _] & Hg & Ho) HP. unfold leave. apply wp_bind. eapply message_told; [by destruct Hv|apply is_cstr_nil|].
  intros m' Htold. unfold parse_out. rewrite (view_errno _ _ _ Hv), Ht. change (negb (0 =? 0)) with false.
  apply Forall_cons_1 in Hs1 as [Hval _]. cbn [free_frames]. apply wp_bind, wp_bind. unfold parse_frame_free. apply wp_bind.
  eapply wp_access; [done|]. rewrite Hval. apply wp_bind. eapply (wp_mono _ (fun _ w1 => w1 = w)); [by destruct (pf_nvl f)|].
  intros _ w1 ->. wp_steps. change (0 =? 0) with true. by apply HP.
Qed.

Lemma leave_bad errout s e m (P : Z * option nvlist_t * option json_error -> world E -> Prop) w :
  bad (wants errout) e m s w ->
  (forall err w', good w' -> e <> 0 -> w_errno w' = e -> told errout e m err -> P (-1, None, err) w') ->
  wp (leave errout (None, s)) P w.
Proof.
  intros (((He & Hm) & _) & Hse & Hmsg & _ & ls & Hs & Hb) HP. unfold leave. apply wp_bind. eapply message_told; [done|done|].
  intros m' Htold. unfold parse_out. rewrite Hse. assert (e =? 0 = false) as -> by lia. cbn [negb]. apply wp_bind.
  eapply free_frames_spec; [done|done|]. intros w1 Hg1. wp_steps. by apply HP.
Qed.

Lemma parse_json_spec strerror n buf buflen flag errout (P : Z * option nvlist_t * option json_error -> world E -> Prop) w :
  buf_ok buf buflen -> flags_ok flag -> errout_ok errout -> good w ->
  given (r_json n (take (S (Z.to_nat buflen)) buf))
    (fun l _ => forall h err w', good w' -> w_errno w' = 0 -> nv_open None [(h, [], l)] (w_env w') -> told errout 0 [] err -> P (0, Some h, err) w')
    (fun e m => forall err w', good w' -> e <> 0 -> w_errno w' = e -> told errout e m err -> P (-1, None, err) w') ->
  wp (nvlist_parse_json strerror buf buflen flag errout) P w.
Proof.
  intros [Hlen Hmax] [Hf1 Hf2] Herr Hg HQ. unfold nvlist_parse_json. rewrite Hf1, Hf2. change (negb (0 =? 0)) with false. cbn beta iota.
  apply wp_bind. apply custr_alloc_spec; [by destruct Hg| |by destruct Hg]. intros w1 Hw1.
  apply wp_bind. eapply alloc_errstr_spec; [done|by eapply good_frame|done|]. intros cu w2 Hw2 Hcu. cbn [negb].
  pose proof (good_frame _ _ Hw2 (good_frame _ _ Hw1 Hg)) as Hg2. apply wp_bind, wp_malloc_good; [done| |].
  { unfold HEAP_HI. destruct ptr_bytes_ok as [-> | ->]; lia. }
  intros a w3 Hw3. 
  match goal with |- wp (main_loop ?fuel ?s ≫= _) _ _ => change (wp (main_loop fuel s ≫= leave errout) P w3) end. apply wp_bind.
  eapply (rest_spec (wants errout) n _ _ (take (S (Z.to_nat buflen)) buf)).
  - split; [|split; [done|]; split; [by split; [constructor|]|split; [by eapply good_frame|apply nv_none]]].
    split; cbn; [done|lia|done|done| |done|exact Hcu]. exists []. split; [apply custr_rep_empty|done].
  - unfold loop_fuel. rewrite length_take. lia.
  - destruct (r_json n _) as [l t'|e m|]; [| |done].
    + intros s' w' h f' Hat. eapply leave_ok; [done|]. intros err w4 Hg4 He Ho Ht. by apply HQ.
    + intros s' w' Hbad. eapply leave_bad; [done|]. intros err w4 Hg4 Hne He Ht. by apply HQ.
Qed.

(** What the parser reads: the characters up to index [buflen], included. *)
Definition text_of (buf : list char) (buflen : Z) : list char := take (S (Z.to_nat buflen)) buf.

(** C1: [nvlist_parse_json] refines the reference parser [r_json].  A document the reference
    parser reads gives 0 and a new nvlist with just its pairs; one it refuses gives -1, no nvlist,
    and its error in [errno] and, with its message and the position, in [errout]. *)
Theorem nvlist_parse_json_refines (strerror : Z -> cstr) (n : nat) (buf : list char) (buflen flag : Z)
    (errout : option (Z * list char)) (w : world E) :
  buf_ok buf buflen -> flags_ok flag -> errout_ok errout -> good w -> r_json n (text_of buf buflen) <> PStuck ->
  wp (nvlist_parse_json strerror buf buflen flag errout) (fun '(r, nvlp, err) w' =>
    match r_json n (text_of buf buflen) with
    | POk l _ => r = 0 /\ w_errno w' = 0 /\ told errout 0 [] err /\
                 exists h, nvlp = Some h /\ nv_open None [(h, [], l)] (w_env w')
    | PErr e m => r = -1 /\ nvlp = None /\ e <> 0 /\ w_errno w' = e /\ told errout e m err
    | PStuck => False
    end) w.
Proof.
  intros Hbuf Hfl Herr Hg Hn. apply (parse_json_spec strerror n); [done..|]. fold (text_of buf buflen).
  destruct (r_json n _) as [l t|e m|]; [| |done].
  - intros h err w' _ ? ? ?. split_and!; [done..|]. by exists h.
  - intros err w' _ ? ? ?. by split_and!.
Qed.

(** C32: every call ends: for 7-bit text with no run of ten digits [nvlist_parse_json] returns,
    either with 0 and an nvlist or with -1, no nvlist and [errno] set; the main loop always stops
    and no handler is missing. *)
Theorem nvlist_parse_json_total (strerror : Z -> cstr) (buf : list char) (buflen flag : Z)
    (errout : option (Z * list char)) (w : world E) :
  buf_ok buf buflen -> flags_ok flag -> errout_ok errout -> good w -> plain (text_of buf buflen) ->
  exists r nvlp err w', nvlist_parse_json strerror buf buflen flag errout w = Done (r, nvlp, err, w') /\
    ((r = 0 /\ is_Some nvlp /\ w_errno w' = 0) \/ (r = -1 /\ nvlp = None /\ w_errno w' <> 0)).
Proof.
  intros Hbuf Hfl Herr Hg Hp. edestruct (proj1 (wp_done (nvlist_parse_json strerror buf buflen flag errout)
    (fun '(r, nvlp, err) w' => (r = 0 /\ is_Some nvlp /\ w_errno w' = 0) \/ (r = -1 /\ nvlp = None /\ w_errno w' <> 0)) w))
    as ([[r nvlp] err] & w' & Hr & Hres); [|by eexists _, _, _, _].
  apply (parse_json_spec strerror (json_fuel (text_of buf buflen))); [done..|]. fold (text_of buf buflen).
  pose proof (json_total _ Hp) as Ha. unfold answered in Ha. destruct (r_json _ _) as [l t|e m|]; [| |done].
  - intros h err w' _ He _ _. left. by split_and!.
  - intros err w' _ Hne He _. right. by rewrite He.
Qed.

(** C13: a printed document is read back: the text of an object or array, with its NUL or with
    anything else after it, gives an nvlist with the pairs of the document. *)
Theorem nvlist_parse_json_print (strerror : Z -> cstr) (j : json) (rest : list char) (flag : Z) (w : world E) :
  document j = true -> json_ok j -> Zlen (print_json j) <= JSON_MAX -> rest <> [] -> flags_ok flag -> good w ->
  wp (nvlist_parse_json strerror (print_json j ++ rest) (Zlen (print_json j)) flag None) (fun '(r, nvlp, err) w' =>
    r = 0 /\ err = None /\ exists h, nvlp = Some h /\ nv_open None [(h, [], pairs_of j)] (w_env w')) w.
Proof.
  intros Hdoc Hok Hmax Hrest Hfl Hg. pose proof (Zlen_nonneg (print_json j)).
  apply (parse_json_spec strerror (json_size j)); [|done|done|done|].
  - split; [|done]. rewrite Zlen_app. destruct rest as [|c rest]; [done|]. rewrite Zlen_cons. pose proof (Zlen_nonneg rest). lia.
  - unfold Zlen at 1. rewrite Nat2Z.id, take_app_ge by lia.
    rewrite json_print_reads by (done || lia). intros h err w' _ _ Ho Ht. split; [done|]. split; [done|]. by exists h.
Qed.

(** The parser reads one character past the length it is given: told that a printed document
    is one character shorter than it is, it reads the closing bracket all the same and accepts
    the document. *)
Theorem nvlist_parse_json_overread (strerror : Z -> cstr) (j : json) (flag : Z) (w : world E) :
  document j = true -> json_ok j -> Zlen (print_json j) <= JSON_MAX -> flags_ok flag -> good w ->
  wp (nvlist_parse_json strerror (print_json j) (Zlen (print_json j) - 1) flag None) (fun '(r, nvlp, err) w' =>
    r = 0 /\ err = None /\ exists h, nvlp = Some h /\ nv_open None [(h, [], pairs_of j)] (w_env w')) w.
Proof.
  intros Hdoc Hok Hmax Hfl Hg. assert (0 < Zlen (print_json j)) as Hlen.
  { destruct (print_first j Hok) as (c & r & -> & _). rewrite Zlen_cons. pose proof (Zlen_nonneg r). lia. }
  apply (parse_json_spec strerror (json_size j)); [by split; lia|done|done|done|].
  rewrite take_ge by (unfold Zlen in *; lia). rewrite <-(app_nil_r (print_json j)).
  rewrite json_print_reads by (done || lia). intros h err w' _ _ Ho Ht. split; [done|]. split; [done|]. by exists h.
Qed.
End whole.

(** Where no answer of the allocator is on record it gives the default one. *)
Lemma malloc_default {E} `{DM : DataModel} n e se (env : E) :
  0 <= n <= HEAP_HI -> malloc n (World e [] se env) = Done (Some heap_default, World e [] se env).
Proof.
  intros Hn. unfold malloc. cbn. pose proof SIZE_MAX_bound as HM. unfold UINT_MAX, HEAP_HI, heap_default in *.
  by assert (_ + n <=? SIZE_MAX + 1 = true) as -> by lia.
Qed.

(** The parser on an opening brace, when [nvlist_alloc] fails. *)
Section stale.
Context {E : Type} `{Nvlist E} `{DM : DataModel}.

Definition stale_state (rest : list char) (pos : Z) (ps : parse_state) (ty : json_type) : state :=
  State ("{"%char :: rest) pos 1 [ParseFrame ps None None (PvWord 0) ty 0] 0 (Custr 0 0 None 0) 0 None.

Lemma stale_rest rest (w : world E) :
  dispatch (stale_state rest 0 PARSE_REST JSON_TYPE_NOTHING) w = Done (stale_state rest 1 PARSE_OBJECT JSON_TYPE_NOTHING, w).
Proof.
  assert (sz 1 = 1) as Hsz by (apply sz_small; pose proof SIZE_MAX_bound; unfold UINT_MAX in *; lia).
  transitivity (Done (with_pos (stale_state rest 1 PARSE_OBJECT JSON_TYPE_NOTHING) (sz 1), w)); [reflexivity|by rewrite Hsz].
Qed.

Lemma stale_object rest code se (env : E) :
  (forall w, nvlist_alloc w = Done ((code, None), w)) -> code <> 0 ->
  dispatch (stale_state rest 1 PARSE_OBJECT JSON_TYPE_NOTHING) (World 0 [] se env)
  = Done (stale_state rest 1 PARSE_ERROR JSON_TYPE_OBJECT, World 0 [] se env).
Proof.
  intros Ha Hc. change (hdlr_object (stale_state rest 1 PARSE_OBJECT JSON_TYPE_NOTHING) (World 0 [] se env)
    = Done (stale_state rest 1 PARSE_ERROR JSON_TYPE_OBJECT, World 0 [] se env)).
  assert (Hchild : forall s, s_errstr s = None -> s_flags s = 0 -> forall f, s_top s = [f] ->
    add_empty_child s (World 0 [] se env) = Done (-1, with_error (with_stack s [with_ps f PARSE_ERROR]) 0 None, World 0 [] se env)).
  { intros s He Hf f Hs. unfold add_empty_child. assert (code =? 0 = false) as Hcode by lia.
    erewrite bind_done by apply Ha. cbn beta iota. rewrite Hcode. destruct s; cbn in He, Hf, Hs; subst. reflexivity. }
  unfold hdlr_object. erewrite bind_done by done. by erewrite bind_done by by apply Hchild.
Qed.

Lemma stale_loop rest n code se (env : E) :
  (forall w, nvlist_alloc w = Done ((code, None), w)) -> code <> 0 ->
  main_loop (3 + n) (stale_state rest 0 PARSE_REST JSON_TYPE_NOTHING) (World 0 [] se env)
  = Done ((None, stale_state rest 1 PARSE_ERROR JSON_TYPE_OBJECT), World 0 [] se env).
Proof.
  intros Ha Hc. cbn [main_loop Nat.add]. erewrite bind_done by done.
  rewrite !decide_False by done. erewrite bind_done by apply stale_rest. erewrite bind_done by done.
  rewrite !decide_False by done. erewrite bind_done by by eapply stale_object. erewrite bind_done by done.
  by rewrite decide_True.
Qed.
End stale.

(** The parser reports the failures of libnvpair through [errno], which libnvpair need not set:
    when [nvlist_alloc] fails and leaves [errno] at 0, [nvlist_parse_json] returns 0, as if
    the document had been read, and no nvlist. *)
Theorem nvlist_parse_json_stale_errno {E} `{Nvlist E} `{DM : DataModel} (strerror : Z -> cstr) (code : Z) (rest : list char)
    (se : list cstr) (env : E) :
  (forall w, nvlist_alloc w = Done ((code, None), w)) -> code <> 0 ->
  nvlist_parse_json strerror ("{"%char :: rest) 1 0 None (World 0 [] se env) = Done ((0, None, None), World 0 [] se env).
Proof.
  intros Halloc Hcode. unfold nvlist_parse_json. change (flag_set 0 _ && _) with false.
  change (negb (Z.land 0 _ =? 0)) with false. cbn beta iota. unfold custr_alloc.
  assert (0 <= 16 + 4 * ptr_bytes <= HEAP_HI) as Hn by (destruct ptr_bytes_ok as [-> | ->]; unfold HEAP_HI; lia).
  erewrite bind_done by (erewrite bind_done by (apply malloc_default; destruct ptr_bytes_ok as [-> | ->]; unfold HEAP_HI; lia); done).
  cbn [alloc_errstr]. erewrite bind_done by done. cbn [negb]. erewrite bind_done by by apply malloc_default.
  change (loop_fuel 1) with (3 + 9)%nat. unfold with_stack, with_collect, with_ps, zero_frame.
  by erewrite bind_done by by eapply (stale_loop rest 9).
Qed.

(** ** Witnesses *)

(** A document: {"a":[1,null],"b":"x\n"}. *)
Definition sample_json : json :=
  JObject [(cs "a", JArray [JInt 1; JNull]); (cs "b", JString [ "x"%char; chr 10 ])].
Definition sample_world : world (list (option (list (cstr * nvval)))) := World 0 [] [] [].

Lemma sample_good : good sample_world.
Proof. by split; constructor. Qed.

Lemma nvlist_parse_json_refines_witness :
  let buf := print_json sample_json ++ [NUL] in
  wp (nvlist_parse_json (DM := LP64) (fun _ => []) buf 24 0 None) (fun '(r, nvlp, err) w' =>
    match r_json 20 (text_of buf 24) with
    | POk l _ => r = 0 /\ w_errno w' = 0 /\ told None 0 [] err /\
                 exists h, nvlp = Some h /\ nv_open None [(h, [], l)] (w_env w')
    | PErr e m => r = -1 /\ nvlp = None /\ e <> 0 /\ w_errno w' = e /\ told None e m err
    | PStuck => False
    end) sample_world.
Proof.
  intros buf. apply (nvlist_parse_json_refines (DM := LP64) (fun _ => []) 20 buf 24 0 None sample_world).
  - by vm_compute.
  - by vm_compute.
  - done.
  - apply sample_good.
  - by vm_compute.
Defined.

(** A string that does not end is refused, and told to the caller. *)
Lemma nvlist_parse_json_total_witness :
  let buf := cs "[" ++ chr 34 :: cs "ab" ++ [NUL] in
  exists r nvlp err w',
    nvlist_parse_json (DM := ILP32) (fun _ => []) buf 4 0 (Some (67108864, fresh_block 512)) sample_world = Done (r, nvlp, err, w') /\
    ((r = 0 /\ is_Some nvlp /\ w_errno w' = 0) \/ (r = -1 /\ nvlp = None /\ w_errno w' <> 0)).
Proof.
  intros buf. apply (nvlist_parse_json_total (DM := ILP32) (fun _ => []) buf 4 0 (Some (67108864, fresh_block 512)) sample_world).
  - by vm_compute.
  - by vm_compute.
  - by vm_compute.
  - apply sample_good.
  - apply short_plain; [by_decide|by vm_compute; lia].
Defined.

Lemma nvlist_parse_json_print_witness :
  wp (nvlist_parse_json (DM := LP64) (fun _ => []) (print_json sample_json ++ [NUL]) (Zlen (print_json sample_json)) 0 None)
    (fun '(r, nvlp, err) w' => r = 0 /\ err = None /\ exists h, nvlp = Some h /\
       nv_open None [(h, [], pairs_of sample_json)] (w_env w')) sample_world.
Proof.
  apply (nvlist_parse_json_print (DM := LP64) (fun _ => []) sample_json [NUL] 0 sample_world).
  - done.
  - cbn. split_and!; by_decide || done.
  - by vm_compute.
  - done.
  - by vm_compute.
  - apply sample_good.
Defined.

Lemma nvlist_parse_json_overread_witness :
  wp (nvlist_parse_json (DM := LP64) (fun _ => []) (cs "{}") 1 0 None)
    (fun '(r, nvlp, err) w' => r = 0 /\ err = None /\ exists h, nvlp = Some h /\ nv_open None [(h, [], [])] (w_env w')) sample_world.
Proof.
  apply (nvlist_parse_json_overread (DM := LP64) (fun _ => []) (JObject []) 0 sample_world).
  - done.
  - done.
  - by vm_compute.
  - by vm_compute.
  - apply sample_good.
Defined.

(** A library without memory. *)
Definition nv_exhausted : Nvlist () := {|
  nvlist_t := ();
  nvlist_alloc := mret (ENOMEM, None);
  nvlist_free := fun _ => mret tt;
  nvlist_add_string := fun _ _ _ => mret ENOMEM;
  nvlist_add_boolean_value := fun _ _ _ => mret ENOMEM;
  nvlist_add_boolean := fun _ _ => mret ENOMEM;
  nvlist_add_int32 := fun _ _ _ => mret ENOMEM;
  nvlist_add_uint32 := fun _ _ _ => mret ENOMEM;
  nvlist_add_nvlist := fun _ _ _ => mret ENOMEM;
  nvlist_lookup_nvlist := fun _ _ => mret (ENOMEM, None);
  nvlist_lookup_string := fun _ _ => mret (ENOMEM, None);
  nvlist_lookup_uint32 := fun _ _ => mret (ENOMEM, None)
|}.

Lemma nvlist_parse_json_stale_errno_witness :
  @nvlist_parse_json () nv_exhausted LP64 (fun _ => []) (cs "{}") 1 0 None (World 0 [] [] ()) = Done ((0, None, None), World 0 [] [] ()).
Proof. apply (@nvlist_parse_json_stale_errno () nv_exhausted LP64 (fun _ => []) ENOMEM (cs "}") [] ()); done. Defined.
