(* ===== verification/Mdata.v ===== *)
(** * Mdata: the clients of the metadata protocol

    The commands [mdata-get], [mdata-put], [mdata-delete] and [mdata-list]
    ([mdata-client/mdata_*.c], a module each), and the access to the metadata that [dockerinit]
    shares with [dockerexec] ([mdataGet], [mdataPut] and [mdataDelete] of
    [dockerinit/src/docker-common.c]).  A command returns what it wrote to its standard output
    and its exit status.  Messages are recorded without their line feed and time stamp. *)
From Stdlib Require Import Lia.
From S2P Require Import Prelude Custr Dynstr Base64 Strset Cnum Sys Plat Proto.

Definition MDEC_SUCCESS : Z := 0.
Definition MDEC_NOTFOUND : Z := 1.
Definition MDEC_ERROR : Z := 2.
Definition MDEC_USAGE_ERROR : Z := 3.

Section commands.
Context {E : Type} `{Platform E} `{Ident E} `{DM : DataModel} (sleep : Z -> C E ()) (fuel : nat).

(** [errx] and [print_and_abort]. *)
Definition errx {A} (status : Z) (msg : cstr) : C E A := eprint msg ;; c_exit status.
Definition print_and_abort {A} (msg : cstr) : C E A := eprint (cs "ASSERT: " ++ msg) ;; c_abort.

Definition strdup (s : cstr) : C E (option cstr) :=
  m ← malloc (Zlen s + 1); mret (match m with Some _ => Some s | None => None end).

(** [%s] of a pointer: undefined for NULL. *)
Definition eprint_s (before : cstr) (s : option cstr) (after : cstr) : C E () :=
  t ← c_access s; eprint (before ++ t ++ after).

(** The start of every [main]: the protocol, or the exit status. *)
Definition init_proto : C E (mdata_proto + Z) :=
  '(r, mdp, errmsg) ← proto_init sleep fuel;
  if negb (r =? 0) then
    eprint_s (cs "ERROR: could not initialise protocol: ") errmsg [] ;; mret (inr MDEC_ERROR)
  else mdp ← c_access mdp; mret (inl mdp).

(** The request of a PUT: the name and the value, each in base64. *)
Definition put_request (req : dynstr) (key : cstr) (value : list char) : C E dynstr :=
  req ← base64_encode key (Zlen key) req;
  req ← dynstr_appendc req " "%char;
  base64_encode value (Zlen value) req.

(** [while ((c = fgetc(stdin)) != EOF) dynstr_appendc(stdinstr, (char) c);] *)
Fixpoint read_stdin (stdin : list char) (stdinstr : dynstr) : C E dynstr :=
  match stdin with
  | [] => mret stdinstr
  | c :: stdin => stdinstr ← dynstr_appendc stdinstr c; read_stdin stdin stdinstr
  end.
End commands.

(** ** mdata_get.c *)

Module Get.
Section get.
Context {E : Type} `{Platform E} `{Ident E} `{DM : DataModel} (sleep : Z -> C E ()) (fuel : nat).

Definition print_response (keyname : option cstr) (mdr : mdata_response) (data : dynstr) : C E (cstr * Z) :=
  let str := dynstr_cstr data in
  let len := dynstr_len data in
  match mdr with
  | MDR_SUCCESS =>
      text ← c_access str;
      ends ← (if len <? 1 then mret false
              else last ← c_access (d ← str_data data; d !! Z.to_nat (len - 1)); mret (Ascii.eqb last LF));
      mret (if ends : bool then text else text ++ [LF], MDEC_SUCCESS)
  | MDR_NOTFOUND => eprint_s (cs "No metadata for '") keyname (cs "'") ;; mret ([], MDEC_NOTFOUND)
  | MDR_UNKNOWN =>
      key ← c_access keyname; eprint_s (cs "Error getting metadata for key '" ++ key ++ cs "': ") str [] ;; mret ([], MDEC_ERROR)
  | MDR_INVALID_COMMAND => eprint (cs "ERROR: host does not support GET") ;; mret ([], MDEC_ERROR)
  | _ => print_and_abort (cs "print_response: UNKNOWN RESPONSE")
  end.

Definition main (argv : list cstr) : C E (cstr * Z) :=
  match argv with
  | _ :: arg :: _ =>
      p ← init_proto sleep fuel;
      match p with
      | inr status => mret ([], status)
      | inl mdp =>
          keyname ← strdup arg;
          '(r, answer, _) ← proto_execute sleep fuel mdp (cs "GET") keyname;
          if negb (r =? 0) then eprint (cs "ERROR: could not execute GET") ;; mret ([], MDEC_ERROR) else
          '(mdr, data) ← c_access answer;
          print_response keyname mdr data
      end
  | _ => errx MDEC_USAGE_ERROR (cs "Usage: " ++ default [] (head argv) ++ cs " <keyname>")
  end.
End get.
End Get.

(** ** mdata_put.c *)

Module Put.
Section put.
Context {E : Type} `{Platform E} `{Ident E} `{DM : DataModel} (sleep : Z -> C E ()) (fuel : nat).

Definition print_response (keyname : option cstr) (mdr : mdata_response) (data : dynstr) : C E Z :=
  match mdr with
  | MDR_SUCCESS => mret MDEC_SUCCESS
  | MDR_NOTFOUND => eprint_s (cs "No metadata for '") keyname (cs "'") ;; mret MDEC_NOTFOUND
  | MDR_UNKNOWN =>
      key ← c_access keyname; eprint_s (cs "Error putting metadata for key '" ++ key ++ cs "': ") (dynstr_cstr data) [] ;; mret MDEC_ERROR
  | MDR_INVALID_COMMAND => eprint (cs "ERROR: host does not support PUT") ;; mret MDEC_ERROR
  | _ => print_and_abort (cs "print_response: UNKNOWN RESPONSE")
  end.

(** The value that is put: the argument, or the standard input, read as [stdin] and the [errno]
    of a failed read. *)
Definition value_of (req : dynstr) (arg : cstr) (value : option cstr) (strerror : Z -> cstr) (stdin : list char * option Z)
  : C E (dynstr + Z) :=
  req ← base64_encode arg (Zlen arg) req;
  req ← dynstr_appendc req " "%char;
  match value with
  | Some value => req ← base64_encode value (Zlen value) req; mret (inl req)
  | None =>
      stdinstr ← dynstr_new;
      stdinstr ← dynstr_append stdinstr [];
      b ← plat_is_interactive;
      if b : bool then
        eprint (cs "ERROR: either specify the metadata value as the second command-line argument, or pipe content to stdin.") ;;
        mret (inr MDEC_ERROR)
      else
      stdinstr ← read_stdin stdin.1 stdinstr;
      match stdin.2 with
      | Some e => eprint (cs "ERROR: could not read from stdin: " ++ strerror e) ;; mret (inr MDEC_ERROR)
      | None =>
          bytes ← c_access (str_data stdinstr);
          req ← base64_encode bytes (dynstr_len stdinstr) req;
          mret (inl req)
      end
  end.

Definition main (strerror : Z -> cstr) (stdin : list char * option Z) (argv : list cstr) : C E Z :=
  req ← dynstr_new;
  match argv with
  | _ :: arg :: more =>
      p ← init_proto sleep fuel;
      match p with
      | inr status => mret status
      | inl mdp =>
          if proto_version mdp <? 2 then eprint (cs "ERROR: host does not support PUT") ;; mret MDEC_ERROR else
          keyname ← strdup arg;
          v ← value_of req arg (head more) strerror stdin;
          match v with
          | inr status => mret status
          | inl req =>
              '(r, answer, _) ← proto_execute sleep fuel mdp (cs "PUT") (dynstr_cstr req);
              if negb (r =? 0) then eprint (cs "ERROR: could not execute GET") ;; mret MDEC_ERROR else
              '(mdr, data) ← c_access answer;
              print_response keyname mdr data
          end
      end
  | _ => errx MDEC_USAGE_ERROR (cs "Usage: " ++ default [] (head argv) ++ cs " <keyname> [ <value> ]")
  end.
End put.
End Put.

(** ** mdata_delete.c *)

Module Delete.
Section delete.
Context {E : Type} `{Platform E} `{Ident E} `{DM : DataModel} (sleep : Z -> C E ()) (fuel : nat).

Definition print_response (keyname : option cstr) (mdr : mdata_response) (data : dynstr) : C E Z :=
  match mdr with
  | MDR_SUCCESS => mret MDEC_SUCCESS
  | MDR_NOTFOUND => eprint_s (cs "No metadata for '") keyname (cs "'") ;; mret MDEC_NOTFOUND
  | MDR_UNKNOWN =>
      key ← c_access keyname; eprint_s (cs "Error deleting metadata key '" ++ key ++ cs "': ") (dynstr_cstr data) [] ;; mret MDEC_ERROR
  | MDR_INVALID_COMMAND => eprint (cs "ERROR: host does not support DELETE") ;; mret MDEC_ERROR
  | _ => print_and_abort (cs "print_response: UNKNOWN RESPONSE")
  end.

Definition main (argv : list cstr) : C E Z :=
  match argv with
  | _ :: arg :: _ =>
      p ← init_proto sleep fuel;
      match p with
      | inr status => mret status
      | inl mdp =>
          if proto_version mdp <? 2 then eprint (cs "ERROR: host does not support DELETE") ;; mret MDEC_ERROR else
          keyname ← strdup arg;
          '(r, answer, _) ← proto_execute sleep fuel mdp (cs "DELETE") keyname;
          if negb (r =? 0) then eprint (cs "ERROR: could not execute GET") ;; mret MDEC_ERROR else
          '(mdr, data) ← c_access answer;
          print_response keyname mdr data
      end
  | _ => errx MDEC_USAGE_ERROR (cs "Usage: " ++ default [] (head argv) ++ cs " <keyname>")
  end.
End delete.
End Delete.

(** ** mdata_list.c *)

Module List.
Section list.
Context {E : Type} `{Platform E} `{Ident E} `{DM : DataModel} (sleep : Z -> C E ()) (fuel : nat).

Definition print_response (mdr : mdata_response) (data : dynstr) : C E (cstr * Z) :=
  let str := dynstr_cstr data in
  let len := dynstr_len data in
  match mdr with
  | MDR_SUCCESS =>
      text ← c_access str;
      ends ← (if 1 <=? len
              then last ← c_access (d ← str_data data; d !! Z.to_nat (len - 1)); mret (Ascii.eqb last LF)
              else mret true);
      mret (if ends : bool then text else text ++ [LF], MDEC_SUCCESS)
  | MDR_NOTFOUND => eprint (cs "No metadata") ;; mret ([], MDEC_NOTFOUND)
  | MDR_UNKNOWN => eprint_s (cs "Error getting metadata: ") str [] ;; mret ([], MDEC_ERROR)
  | MDR_INVALID_COMMAND => eprint (cs "ERROR: host does not support KEYS") ;; mret ([], MDEC_ERROR)
  | _ => print_and_abort (cs "print_response: UNKNOWN RESPONSE")
  end.

Definition main : C E (cstr * Z) :=
  p ← init_proto sleep fuel;
  match p with
  | inr status => mret ([], status)
  | inl mdp =>
      '(r, answer, _) ← proto_execute sleep fuel mdp (cs "KEYS") None;
      if negb (r =? 0) then eprint (cs "ERROR: could not execute KEYS") ;; mret ([], MDEC_ERROR) else
      '(mdr, data) ← c_access answer;
      print_response mdr data
  end.
End list.
End List.

(** ** docker-common.c *)

(** [dockerinit_err_t]. *)
Inductive dockerinit_err :=
| ERR_UNEXPECTED | ERR_CHDIR | ERR_EXEC_FAILED | ERR_FORK_FAILED | ERR_GID_NAN | ERR_INITGROUPS
| ERR_INVALID_BRAND | ERR_MDATA_FAIL | ERR_MDATA_INIT | ERR_MISSING_LEN | ERR_MOUNT_LXPROC | ERR_NO_BRAND
| ERR_NO_COMMAND | ERR_NO_GROUP | ERR_NO_PATH | ERR_NO_USER | ERR_NOT_FOUND | ERR_OPEN | ERR_OPEN_CONSOLE
| ERR_PARSE_JSON | ERR_PARSE_NVPAIR_STRING | ERR_RENAME_FAILED | ERR_SETGID | ERR_SETUID | ERR_STAT_CMD
| ERR_STAT_DIR | ERR_STAT_EXEC | ERR_STRDUP | ERR_UID_NAN | ERR_WRITE_MTAB | ERR_IPADM_DOOR | ERR_PLUMB_IF
| ERR_RAISE_IF | ERR_UP_IP6 | ERR_CHILD_NET | ERR_DOOR_INFO | ERR_IPMGMTD_EXIT | ERR_IPMGMTD_DIED
| ERR_IPMGMTD_CRASHED | ERR_MOUNT_DEVFD | ERR_FDOPEN_LOG | ERR_CLOSE | ERR_ATTACH_NOT_TIMESTAMP
| ERR_ATTACH_GETTIME | ERR_ATTACH_TIMEDOUT | ERR_MDATA_TOO_OLD | ERR_UNLINK_MTAB | ERR_NO_MEMORY | ERR_MKDIR
| ERR_UNKNOWN_LOG_DRIVER | ERR_OPEN_ZFD | ERR_STAT_ZFD | ERR_IOCTL_ZFD | ERR_DUP2 | ERR_CONTRACT
| ERR_MOUNT_DEVSHM | ERR_INVALID_NFS_VOLUMES | ERR_MOUNT_NFS_VOLUME | ERR_UNKNOWN_VOLUME_TYPE.

#[export] Instance dockerinit_err_eq_dec : EqDecision dockerinit_err.
Proof. solve_decision. Defined.

(** The enumeration counts from 1. *)
Definition dockerinit_errs : list dockerinit_err :=
  [ERR_UNEXPECTED; ERR_CHDIR; ERR_EXEC_FAILED; ERR_FORK_FAILED; ERR_GID_NAN; ERR_INITGROUPS;
   ERR_INVALID_BRAND; ERR_MDATA_FAIL; ERR_MDATA_INIT; ERR_MISSING_LEN; ERR_MOUNT_LXPROC; ERR_NO_BRAND;
   ERR_NO_COMMAND; ERR_NO_GROUP; ERR_NO_PATH; ERR_NO_USER; ERR_NOT_FOUND; ERR_OPEN; ERR_OPEN_CONSOLE;
   ERR_PARSE_JSON; ERR_PARSE_NVPAIR_STRING; ERR_RENAME_FAILED; ERR_SETGID; ERR_SETUID; ERR_STAT_CMD;
   ERR_STAT_DIR; ERR_STAT_EXEC; ERR_STRDUP; ERR_UID_NAN; ERR_WRITE_MTAB; ERR_IPADM_DOOR; ERR_PLUMB_IF;
   ERR_RAISE_IF; ERR_UP_IP6; ERR_CHILD_NET; ERR_DOOR_INFO; ERR_IPMGMTD_EXIT; ERR_IPMGMTD_DIED;
   ERR_IPMGMTD_CRASHED; ERR_MOUNT_DEVFD; ERR_FDOPEN_LOG; ERR_CLOSE; ERR_ATTACH_NOT_TIMESTAMP;
   ERR_ATTACH_GETTIME; ERR_ATTACH_TIMEDOUT; ERR_MDATA_TOO_OLD; ERR_UNLINK_MTAB; ERR_NO_MEMORY; ERR_MKDIR;
   ERR_UNKNOWN_LOG_DRIVER; ERR_OPEN_ZFD; ERR_STAT_ZFD; ERR_IOCTL_ZFD; ERR_DUP2; ERR_CONTRACT;
   ERR_MOUNT_DEVSHM; ERR_INVALID_NFS_VOLUMES; ERR_MOUNT_NFS_VOLUME; ERR_UNKNOWN_VOLUME_TYPE].

Definition err_code (e : dockerinit_err) : Z :=
  match list_find (e =.) dockerinit_errs with Some (i, _) => 1 + Z.of_nat i | None => 0 end.

(** [dlog] and [fatal]. *)
Definition dlog {E} (msg : cstr) : C E () := eprint msg.
Definition fatal {E A} (code : dockerinit_err) (msg : cstr) : C E A :=
  eprint (cs "FATAL (code: " ++ print_d (err_code code) ++ cs "): " ++ msg) ;;
  if decide (code = ERR_UNEXPECTED) then c_abort else c_exit (err_code code).

(** What the programs of [dockerinit] ask of the metadata. *)
Class Metadata (E : Type) := {
  mdataGet : cstr -> C E (option cstr);
  mdataPut : cstr -> cstr -> C E ();
  mdataDelete : cstr -> C E ()
}.

(** The client, with the globals [initialized_proto] and [mdp]. *)
Section docker.
Context {E : Type} `{Platform E} `{Ident E} `{DM : DataModel} (sleep : Z -> C E ()) (fuel : nat).

Definition mdata_init (mdp : option mdata_proto) : C E mdata_proto :=
  match mdp with
  | Some mdp => mret mdp
  | None =>
      '(r, mdp, errmsg) ← proto_init sleep fuel;
      if negb (r =? 0) then
        msg ← c_access errmsg; fatal ERR_MDATA_INIT (cs "could not initialize metadata: " ++ msg)
      else c_access mdp
  end.

Definition proto_mdataGet (mdp : option mdata_proto) (keyname : cstr) : C E (option cstr * mdata_proto) :=
  mdp ← mdata_init mdp;
  '(r, answer, mdp) ← proto_execute sleep fuel mdp (cs "GET") (Some keyname);
  if negb (r =? 0) then fatal ERR_UNEXPECTED (cs "failed to get metadata for '" ++ keyname ++ cs "': unknown error") else
  '(mdr, mdata) ← c_access answer;
  match mdr with
  | MDR_SUCCESS =>
      text ← c_access (dynstr_cstr mdata);
      out ← strdup text;
      match out with
      | None => fatal ERR_STRDUP (cs "strdup failure")
      | Some out => dlog (cs "MDATA " ++ keyname ++ cs "=" ++ out) ;; mret (Some out, mdp)
      end
  | MDR_NOTFOUND => dlog (cs "INFO no metadata for '" ++ keyname ++ cs "'") ;; mret (None, mdp)
  | MDR_UNKNOWN =>
      msg ← c_access (dynstr_cstr mdata); fatal ERR_MDATA_FAIL (cs "failed to get metadata for '" ++ keyname ++ cs "': " ++ msg)
  | MDR_INVALID_COMMAND =>
      fatal ERR_MDATA_FAIL (cs "failed to get metadata for '" ++ keyname ++ cs "': host does not support GET")
  | _ => fatal ERR_UNEXPECTED (cs "GET[" ++ keyname ++ cs "]: unknown response")
  end.

Definition proto_mdataPut (mdp : option mdata_proto) (keyname value : cstr) : C E mdata_proto :=
  req ← dynstr_new;
  mdp ← mdata_init mdp;
  req ← put_request req keyname value;
  if proto_version mdp <? 2 then fatal ERR_MDATA_TOO_OLD (cs "mdata protocol must be >= 2 for PUT") else
  '(r, _, mdp) ← proto_execute sleep fuel mdp (cs "PUT") (dynstr_cstr req);
  if negb (r =? 0) then fatal ERR_MDATA_FAIL (cs "failed to PUT") else
  dlog (cs "MDATA PUT " ++ keyname ++ cs "=" ++ value) ;; mret mdp.

Definition proto_mdataDelete (mdp : option mdata_proto) (keyname : cstr) : C E mdata_proto :=
  mdp ← mdata_init mdp;
  if proto_version mdp <? 2 then fatal ERR_MDATA_TOO_OLD (cs "mdata protocol must be >= 2 for DELETE") else
  '(r, _, mdp) ← proto_execute sleep fuel mdp (cs "DELETE") (Some keyname);
  if negb (r =? 0) then fatal ERR_MDATA_FAIL (cs "failed to DELETE") else
  dlog (cs "MDATA DELETE " ++ keyname) ;; mret mdp.

(** A computation inside a larger environment: it reads and replaces the first part. *)
Definition with_mdp {A} (m : option mdata_proto -> C E (A * mdata_proto)) : C (option mdata_proto * E) A := fun w =>
  match m (w_env w).1 (World (w_errno w) (w_heap w) (w_stderr w) (w_env w).2) with
  | Done ((a, mdp), w') => Done (a, World (w_errno w') (w_heap w') (w_stderr w') (Some mdp, w_env w'))
  | Exited st => Exited st
  | Aborted => Aborted
  | Undefined => Undefined
  end.

#[export] Instance proto_metadata : Metadata (option mdata_proto * E) := {|
  mdataGet := fun key => with_mdp (fun mdp => proto_mdataGet mdp key);
  mdataPut := fun key value => with_mdp (fun mdp => mdp ← proto_mdataPut mdp key value; mret (tt, mdp));
  mdataDelete := fun key => with_mdp (fun mdp => mdp ← proto_mdataDelete mdp key; mret (tt, mdp))
|}.
End docker.

(** ** Facts *)

Section facts.
Context {E : Type} `{Platform E} `{DM : DataModel}.
Implicit Types (w : world E).

(** The longest name and value the results speak of. *)
Definition PUT_MAX : Z := 8388608.

Lemma b64_bound (s : list char) : Zlen s <= PUT_MAX -> Zlen (b64 s) <= 16000000.
Proof. intros Hs. rewrite b64_length. unfold PUT_MAX in *. pose proof (Zlen_nonneg s). dlia. Qed.

(** The name and the space of a request, and then its value. *)
Lemma name_spec {A} req key (k : dynstr -> C E A) Q w :
  dynstr_rep req [] -> good w -> Zlen key <= PUT_MAX ->
  (forall req' w', good w' -> dynstr_rep req' (b64 key ++ [" "%char]) -> wp (k req') Q w') ->
  wp (req ← base64_encode key (Zlen key) req; req ← dynstr_appendc req " "%char; k req) Q w.
Proof.
  intros Hreq Hg Hk HQ. pose proof (b64_bound _ Hk). unfold PUT_MAX in *. apply wp_bind.
  eapply base64_encode_spec; [done|done|rewrite Zlen_nil; unfold DYN_MAX; lia|unfold DYN_MAX; lia|].
  intros req1 w1 Hw1 Hreq1 Hd1. pose proof (good_frame _ _ Hw1 Hg) as Hg1. apply wp_bind.
  eapply dynstr_appendc_spec; [done|done|cbn [app]; unfold DYN_MAX; lia|]. intros req2 w2 Hw2 Hreq2 Hd2.
  apply HQ; [by eapply good_frame|done].
Qed.

Lemma value_spec req key value (Q : dynstr -> world E -> Prop) w :
  dynstr_rep req (b64 key ++ [" "%char]) -> good w -> Zlen key <= PUT_MAX -> Zlen value <= PUT_MAX ->
  (forall req' w', good w' -> dynstr_rep req' (b64 key ++ " "%char :: b64 value) -> Q req' w') ->
  wp (base64_encode value (Zlen value) req) Q w.
Proof.
  intros Hreq Hg Hk Hv HQ. pose proof (b64_bound _ Hk). pose proof (b64_bound _ Hv). unfold PUT_MAX in *.
  eapply base64_encode_spec; [done|done|rewrite Zlen_app; change (Zlen [" "%char]) with 1; unfold DYN_MAX; lia|unfold DYN_MAX; lia|].
  intros req3 w3 Hw3 Hreq3 Hd3. rewrite <-app_assoc in Hreq3. apply HQ; [by eapply good_frame|done].
Qed.

Lemma read_stdin_spec bytes str t (Q : dynstr -> world E -> Prop) w :
  dynstr_rep str t -> str_data str <> None -> good w -> Zlen t + Zlen bytes <= DYN_MAX ->
  (forall str' w', frame w w' -> dynstr_rep str' (t ++ bytes) -> str_data str' <> None -> Q str' w') ->
  wp (read_stdin bytes str) Q w.
Proof.
  revert str t w. induction bytes as [|c bytes IH]; intros str t w Hrep Hd Hg Hmax HQ; cbn [read_stdin].
  - apply wp_ret, HQ; [done|by rewrite app_nil_r|done].
  - rewrite Zlen_cons in Hmax. pose proof (Zlen_nonneg bytes). apply wp_bind. eapply dynstr_appendc_spec; [done|done|lia|].
    intros str1 w1 Hw1 Hrep1 Hd1. apply (IH _ (t ++ [c])); [done|done|by eapply good_frame|rewrite Zlen_app; change (Zlen [c]) with 1; lia|].
    intros str2 w2 Hw2 Hrep2 Hd2. rewrite <-app_assoc in Hrep2. apply HQ; [by etrans|done|done].
Qed.
End facts.

(** What a request asks the agent to store: the name and the value, decoded. *)
Definition put_meaning (t : cstr) : option (cstr * cstr) :=
  match split_fields " "%char t with
  | [k; v] => match b64_decode k, b64_decode v with Some k, Some v => Some (k, v) | _, _ => None end
  | _ => None
  end.

Lemma put_meaning_request key value : is_cstr key -> is_cstr value ->
  put_meaning (b64 key ++ " "%char :: b64 value) = Some (key, value).
Proof.
  intros Hk Hv. unfold put_meaning. rewrite split_fields_app by apply b64_no_space.
  rewrite split_fields_free by apply b64_no_space. by rewrite !b64_roundtrip.
Qed.

(** ** Properties *)

(** The request of [mdata-put] carries the name and the value that was given, as an argument
    or on the standard input: the two words of the request decode to them. *)
Theorem mdata_put_request {E} `{Platform E} `{DM : DataModel} (strerror : Z -> cstr) (req : dynstr)
    (key value : cstr) (from_stdin : bool) (w : world E) :
  dynstr_rep req [] -> is_cstr key -> is_cstr value -> Zlen key <= PUT_MAX -> Zlen value <= PUT_MAX -> good w ->
  (forall w', plat_is_interactive w' = Done (false, w')) ->
  wp (Put.value_of req key (if from_stdin then None else Some value) strerror (value, None)) (fun r _ =>
    exists req' t, r = inl req' /\ dynstr_cstr req' = Some t /\ put_meaning t = Some (key, value)) w.
Proof.
  intros Hreq Hk Hv Hlk Hlv Hg Hint. pose proof (put_meaning_request key value Hk Hv) as Hmean.
  assert (Hcs : is_cstr (b64 key ++ " "%char :: b64 value)).
  { unfold is_cstr. rewrite not_elem_of_app, not_elem_of_cons. split; [apply b64_cstr|]. split; [done|apply b64_cstr]. }
  assert (Hdone : forall req', dynstr_rep req' (b64 key ++ " "%char :: b64 value) ->
    exists req'' t, inl req' = inl req'' :> dynstr + Z /\ dynstr_cstr req'' = Some t /\ put_meaning t = Some (key, value)).
  { intros req' Hrep. exists req', (b64 key ++ " "%char :: b64 value). split; [done|]. split; [|done].
    rewrite (dynstr_rep_cstr_nonnil _ _ Hrep) by (by destruct (b64 key)). by rewrite c_text_id. }
  unfold Put.value_of. apply name_spec; [done..|]. intros req1 w1 Hg1 Hreq1. destruct from_stdin.
  - apply wp_bind, dynstr_new_spec; [done|]. intros w2 Hw2. pose proof (good_frame _ _ Hw2 Hg1) as Hg2. apply wp_bind.
    eapply dynstr_append_spec; [apply dynstr_rep_new|apply is_cstr_nil|by right|done|by vm_compute|]. intros str w3 Hw3 Hstr Hd3.
    pose proof (good_frame _ _ Hw3 Hg2) as Hg3. apply wp_bind. unfold wp at 1. rewrite Hint. apply wp_bind. cbn [fst].
    eapply (read_stdin_spec _ _ []); [done|done|done|rewrite Zlen_nil; unfold PUT_MAX, DYN_MAX in *; lia|].
    intros str' w4 Hw4 Hstr' Hd4. pose proof (good_frame _ _ Hw4 Hg3) as Hg4. cbn [app snd fst] in *. apply wp_bind.
    pose proof (dynstr_rep_len _ _ Hstr') as Hlen. unfold dynstr_rep in Hstr'. destruct (str_data str') as [b|] eqn:Hb; [|done].
    eapply wp_access; [done|]. destruct Hstr' as (_ & _ & _ & rest & ->). apply wp_bind. rewrite Hlen.
    unfold wp at 1. rewrite base64_encode_prefix.
    eapply (value_spec _ key); [done|done|done|done|]. intros req' w5 _ Hrep. by apply wp_ret, Hdone.
  - apply wp_bind. eapply (value_spec _ key); [done|done|done|done|]. intros req' w5 _ Hrep. by apply wp_ret, Hdone.
Qed.

(** [mdata-get] prints the value with a line feed after it unless it ends in one, and exits
    with 0; but where the agent sent no data at all there is no string to print, and the
    behaviour is undefined. *)
Theorem mdata_get_prints {E} (keyname : option cstr) (data : dynstr) (t : cstr) (w : world E) :
  dynstr_rep data t -> is_cstr t ->
  Get.print_response keyname MDR_SUCCESS data w =
    match str_data data with
    | None => Undefined
    | Some _ => Done ((if decide (list.last t = Some LF) then t else t ++ [LF], MDEC_SUCCESS), w)
    end.
Proof.
  intros Hrep Ht. pose proof (dynstr_rep_len _ _ Hrep) as Hlen. unfold Get.print_response. rewrite Hlen. unfold dynstr_rep, dynstr_cstr in *.
  destruct (str_data data) as [b|]; [|done]. destruct Hrep as (_ & _ & _ & rest & ->). cbn [fmap option_fmap option_map].
  rewrite c_text_app_nul_any, c_text_id by done. erewrite bind_done by done.
  destruct t as [|x t _] using rev_ind; [done|]. rewrite last_snoc.
  assert (Zlen (t ++ [x]) <? 1 = false) as -> by (rewrite Zlen_app; change (Zlen [x]) with 1; pose proof (Zlen_nonneg t); lia).
  assert (Hx : ((t ++ [x]) ++ NUL :: rest) !! Z.to_nat (Zlen (t ++ [x]) - 1) = Some x).
  { rewrite Zlen_app. change (Zlen [x]) with 1. rewrite Z.add_simpl_r, Zlen_to_nat, <-app_assoc. by apply list_lookup_middle. }
  erewrite bind_done by (erewrite bind_done by (cbn [mbind option_bind]; rewrite Hx; done); done).
  destruct (Ascii.eqb_spec x LF) as [->|Hne]; [by rewrite decide_True|]. by rewrite decide_False by congruence.
Qed.

(** ** Witnesses *)

(** A platform without a host, whose standard input is not a terminal. *)
Definition lone_platform : Platform () := {|
  plat := ();
  plat_init := fun _ => mret (-1, None, None, 1);
  plat_recv := fun _ d _ => mret (-1, d);
  plat_send := fun _ _ => mret (-1);
  plat_fini := fun _ => mret tt;
  plat_is_interactive := mret false
|}.

Lemma mdata_put_request_witness :
  wp (@Put.value_of () lone_platform LP64 (Dynstr 0 0 None) (cs "user-script") None (fun _ => []) (cs "#!/bin/sh", None)) (fun r _ =>
    exists req' t, r = inl req' /\ dynstr_cstr req' = Some t /\ put_meaning t = Some (cs "user-script", cs "#!/bin/sh")) (World 0 [] [] ()).
Proof.
  apply (@mdata_put_request () lone_platform LP64 (fun _ => []) (Dynstr 0 0 None) (cs "user-script") (cs "#!/bin/sh") true (World 0 [] [] ())).
  - apply dynstr_rep_new.
  - by_decide.
  - by_decide.
  - by vm_compute.
  - by vm_compute.
  - by split; constructor.
  - done.
Defined.

(** A value that was never sent. *)
Lemma mdata_get_prints_witness :
  Get.print_response (E := ()) (Some (cs "k")) MDR_SUCCESS (Dynstr 0 0 None) (World 0 [] [] ()) = Undefined.
Proof. apply (mdata_get_prints (Some (cs "k")) (Dynstr 0 0 None) [] (World 0 [] [] ())); [apply dynstr_rep_new|apply is_cstr_nil]. Defined.
