(* ===== verification/Docker.v ===== *)
(** * Docker: what [dockerinit] and [dockerexec] share, [dockerinit/src/docker-common.c], and
    [dockerexec.c]

    The environment and the command line of a container are string lists ([Strlist]) filled from
    JSON arrays ([Json]) of the metadata ([Mdata]); the executable is looked up on the PATH, whose
    directories are joined with [Strpath].  The account databases are parameters; files and
    credentials are calls of the [Kernel].  The globals [hostname], [pwd] and [grp] are arguments
    and results. *)
From Stdlib Require Import Lia.
From S2P Require Import Prelude Custr Strpath Strlist Cnum Strset Dynstr Sys Plat Proto Mdata Nvlist Json.

Definition DEFAULT_PATH : cstr := cs "/usr/local/sbin:/usr/local/bin:/usr/sbin:/usr/bin:/sbin:/bin".
Definition DEFAULT_TERM : cstr := cs "xterm".

(** The members of [struct passwd] and [struct group] that are used, and the databases. *)
Record passwd := Passwd { pw_name : cstr; pw_uid : Z; pw_gid : Z; pw_dir : cstr }.
Record group := Group { gr_name : cstr; gr_gid : Z }.

Class Accounts := {
  getpwnam : cstr -> option passwd;
  getpwuid : Z -> option passwd;
  getgrnam : cstr -> option group;
  getgrgid : Z -> option group
}.

(** The first [d] of a string: what is before it and what is after it. *)
Fixpoint split_first (d : char) (s : cstr) : option (cstr * cstr) :=
  match s with
  | [] => None
  | c :: s => if Ascii.eqb c d then Some ([], s)
              else match split_first d s with Some (a, b) => Some (c :: a, b) | None => None end
  end.

Definition quoted (s : cstr) : cstr := chr 34 :: s ++ [chr 34].

Definition S_IFMT : Z := 61440.
Definition S_IFDIR : Z := 16384.
Definition S_IXUSR : Z := 64.
Definition S_ISDIR (mode : Z) : bool := Z.land mode S_IFMT =? S_IFDIR.

Section docker.
Context {E : Type} `{Metadata E} `{Nvlist E} `{Kernel E} `{Accounts} `{DM : DataModel} (strerror : Z -> cstr).

(** ** The environment *)

(** [*name] and [*value], when wanted; [None] for [ENV_IGNORE_ENTRY]. *)
Definition splitEnvEntry (input : cstr) (name value : bool) : C E (option (cstr * cstr)) :=
  match split_first "="%char input with
  | None | Some ([], _) => dlog (cs "WARN ignoring empty env var " ++ input) ;; mret None
  | Some (n, v) =>
      m ← (if name then strdup n else mret (Some []));
      match m with
      | None => e ← get_errno; fatal ERR_STRDUP (cs "strdup failure: " ++ strerror e)
      | Some _ =>
          m ← (if value then strdup v else mret (Some []));
          match m with
          | None => e ← get_errno; fatal ERR_STRDUP (cs "strdup failure: " ++ strerror e)
          | Some _ => mret (Some (n, v))
          end
      end
  end.

(** The search of an entry by name, from index [idx]: its index, or that of the NULL. *)
Fixpoint find_entry (fuel : nat) (sl : strlist) (name : cstr) (idx : Z) : C E (bool * Z) :=
  match fuel with
  | O => c_undefined
  | S fuel =>
      s ← strlist_get sl idx;
      match s with
      | None => mret (false, idx)
      | Some s =>
          r ← splitEnvEntry s true false;
          match r with
          | None => find_entry fuel sl name (u32 (idx + 1))
          | Some (sname, _) =>
              if strcmp sname name =? 0 then mret (true, idx) else find_entry fuel sl name (u32 (idx + 1))
          end
      end
  end.

(** Enough turns to reach the NULL after the last element. *)
Definition list_fuel (sl : strlist) : nat := S (Z.to_nat (sl_capacity sl)).

Definition insertOrReplaceEnv (sl : strlist) (name value : cstr) : C E strlist :=
  '(found, idx) ← find_entry (list_fuel sl) sl name 0;
  insval ← asprintf (name ++ "="%char :: value);
  match insval with
  | None => e ← get_errno; fatal ERR_STRDUP (cs "asprintf failure: " ++ strerror e)
  | Some insval =>
      '(ret, sl) ← (if found : bool then strlist_set sl idx insval else strlist_set_tail sl insval);
      if negb (ret =? 0) then e ← get_errno; fatal ERR_NO_MEMORY (cs "strlist failure: " ++ strerror e)
      else mret sl
  end.

(** ** JSON arrays of the metadata *)

(** The lookups of libnvpair fail with [EINVAL] on a NULL list. *)
Definition lookup_uint32 (nvl : option nvlist_t) (name : cstr) : C E (Z * option Z) :=
  match nvl with None => mret (EINVAL, None) | Some nvl => nvlist_lookup_uint32 nvl name end.
Definition lookup_string (nvl : option nvlist_t) (name : cstr) : C E (Z * option cstr) :=
  match nvl with None => mret (EINVAL, None) | Some nvl => nvlist_lookup_string nvl name end.
Definition free_nvl (nvl : option nvlist_t) : C E () :=
  match nvl with None => mret tt | Some nvl => nvlist_free nvl end.

(** [*nvl] and, when wanted, [*len]. *)
Definition getMdataArray (key : cstr) (want_len : bool) : C E (option nvlist_t * Z) :=
  json ← mdataGet key;
  let json := default (cs "[]") json in
  '(r, nvl, _) ← nvlist_parse_json strerror (json ++ [NUL]) (Zlen json) NVJSON_FORCE_INTEGER None;
  if negb (r =? 0) then fatal ERR_PARSE_JSON (cs "failed to parse JSON(" ++ key ++ cs "): " ++ json)
  else if negb want_len then mret (nvl, 0) else
  '(r, len) ← lookup_uint32 nvl (cs "length");
  if negb (r =? 0) then fatal ERR_UNEXPECTED (cs "nvl missing 'length' for " ++ key)
  else len ← c_access len; mret (nvl, len).

Section each.
Context {A : Type} (funcp : cstr -> Z -> cstr -> A -> C E A).

(** The elements from index [i] on, [n] of them; the callback threads what it changes. *)
Fixpoint each_string (n : nat) (i : Z) (array_name : cstr) (array_nvl : option nvlist_t) (arg : A) : C E A :=
  match n with
  | O => mret arg
  | S n =>
      let idx := print_u i in
      '(r, val) ← lookup_string array_nvl idx;
      if negb (r =? 0) then
        fatal ERR_UNEXPECTED (cs "array " ++ quoted array_name ++ cs " missing string @ index [" ++ idx ++ cs "]")
      else
      val ← c_access val;
      arg ← funcp array_name i val arg;
      each_string n (u32 (i + 1)) array_name array_nvl arg
  end.

Definition forEachStringInArray (array_name : cstr) (array_nvl : option nvlist_t) (arg : A) : C E A :=
  '(r, len) ← lookup_uint32 array_nvl (cs "length");
  if negb (r =? 0) then
    fatal ERR_UNEXPECTED (cs "array " ++ quoted array_name ++ cs " is missing " ++ quoted (cs "length") ++ cs " property")
  else len ← c_access len; each_string (Z.to_nat len) 0 array_name array_nvl arg.
End each.

Definition cbEachEnvEntry (array_name : cstr) (idx : Z) (val : cstr) (env : strlist) : C E strlist :=
  r ← splitEnvEntry val true true;
  match r with
  | None => mret env
  | Some (env_name, env_val) => insertOrReplaceEnv env env_name env_val
  end.

(** The log of the variables. *)
Fixpoint log_env (fuel : nat) (env : strlist) (i : Z) : C E () :=
  match fuel with
  | O => c_undefined
  | S fuel =>
      s ← strlist_get env i;
      match s with
      | None => mret tt
      | Some s => dlog (cs "ENV[" ++ print_d (i32 i) ++ cs "] " ++ s) ;; log_env fuel env (u32 (i + 1))
      end
  end.

(** One of the arrays of [buildCmdEnv]. *)
Definition add_array (env : strlist) (array : cstr) : C E strlist :=
  '(nvl, _) ← getMdataArray array false;
  env ← forEachStringInArray cbEachEnvEntry array nvl env;
  free_nvl nvl ;; mret env.

Definition buildCmdEnv (hostname : option cstr) (pwd : option passwd) (env : strlist) : C E (Z * strlist) :=
  env ← insertOrReplaceEnv env (cs "TERM") DEFAULT_TERM;
  env ← insertOrReplaceEnv env (cs "HOME") (match pwd with Some p => pw_dir p | None => cs "/" end);
  env ← insertOrReplaceEnv env (cs "PATH") DEFAULT_PATH;
  env ← match hostname with Some h => insertOrReplaceEnv env (cs "HOSTNAME") h | None => mret env end;
  env ← add_array env (cs "docker:linkEnv");
  env ← add_array env (cs "docker:env");
  log_env (list_fuel env) env 0 ;;
  mret (0, env).

(** ** The command line *)

Definition cbEachCmdEntry (typ : cstr) (array_name : cstr) (idx : Z) (val : cstr) (cmdline : strlist) : C E strlist :=
  '(r, cmdline) ← strlist_set_tail cmdline val;
  if negb (r =? 0) then e ← get_errno; fatal ERR_NO_MEMORY (cs "strlist failure: " ++ strerror e) else
  n ← strlist_contig_count cmdline;
  dlog (cs "ARGV[" ++ print_u (u32 (n - 1)) ++ cs "]:" ++ typ ++ " "%char :: quoted val) ;;
  mret cmdline.

Definition add_command (cmdline : strlist) (ad_name ad_key : cstr) : C E strlist :=
  '(nvl, _) ← getMdataArray ad_key false;
  cmdline ← forEachStringInArray (cbEachCmdEntry ad_name) ad_key nvl cmdline;
  free_nvl nvl ;; mret cmdline.

Definition buildCmdline (cmdline : strlist) : C E (Z * strlist) :=
  cmdline ← add_command cmdline (cs "ENTRYPOINT") (cs "docker:entrypoint");
  cmdline ← add_command cmdline (cs "CMD") (cs "docker:cmd");
  n ← strlist_contig_count cmdline;
  if n <? 1 then fatal ERR_NO_COMMAND (cs "No command specified") else mret (0, cmdline).

(** ** The executable *)

(** Appending to a path, or the end of the process. *)
Definition append_or {A} (err : dockerinit_err) (cu : custr) (s : cstr) (k : custr -> C E A) : C E A :=
  '(r, cu) ← strpath_append cu s;
  if negb (r =? 0) then fatal err (cs "strpath_append failure") else k cu.

Definition alloc_or (k : custr -> C E (Z * strlist)) : C E (Z * strlist) :=
  m ← custr_alloc;
  match m with None => fatal ERR_NO_MEMORY (cs "custr_alloc failure") | Some cu => k cu end.

(** The value of PATH in the environment, from index [idx]. *)
Fixpoint find_path (fuel : nat) (env : strlist) (idx : Z) : C E (option cstr) :=
  match fuel with
  | O => c_undefined
  | S fuel =>
      s ← strlist_get env idx;
      match s with
      | None => mret None
      | Some s =>
          r ← splitEnvEntry s true true;
          match r with
          | None => find_path fuel env (u32 (idx + 1))
          | Some (sname, svalue) =>
              if negb (strcmp sname (cs "PATH") =? 0) then find_path fuel env (u32 (idx + 1)) else mret (Some svalue)
          end
      end
  end.

(** The end of an element of PATH: its directory joins the list. *)
Definition store_dir (cu searchdir : custr) (path : strlist) (working_directory : cstr) : C E (custr * custr * strlist) :=
  searchdir ← custr_reset searchdir;
  append_or ERR_NO_MEMORY searchdir (cs "/") (fun searchdir =>
  qualified ← (if custr_len cu <? 1 then mret false else s ← custr_cstr cu; mret (Ascii.eqb (hd NUL s) SLASH));
  '(r, searchdir) ← (if qualified : bool then mret (0, searchdir) else strpath_append searchdir working_directory);
  if negb (r =? 0) then fatal ERR_NO_MEMORY (cs "strpath_append failure") else
  '(r, searchdir) ← (if 0 <? custr_len cu then s ← custr_cstr cu; strpath_append searchdir s else mret (0, searchdir));
  if negb (r =? 0) then fatal ERR_NO_MEMORY (cs "strpath_append failure") else
  cu ← custr_reset cu;
  s ← custr_cstr searchdir;
  '(r, path) ← strlist_set_tail path s;
  if negb (r =? 0) then fatal ERR_NO_MEMORY (cs "strlist_set_tail failure") else
  mret (cu, searchdir, path)).

(** The characters of PATH, and the NUL after them. *)
Fixpoint path_loop (r : cstr) (cu searchdir : custr) (path : strlist) (working_directory : cstr) : C E strlist :=
  match r with
  | [] => '(_, _, path) ← store_dir cu searchdir path working_directory; mret path
  | c :: r =>
      if negb (Ascii.eqb c ":"%char) then
        '(e, cu) ← custr_appendc cu c;
        if negb (e =? 0) then fatal ERR_NO_MEMORY (cs "custr_appendc failure")
        else path_loop r cu searchdir path working_directory
      else
        '(cu, searchdir, path) ← store_dir cu searchdir path working_directory;
        path_loop r cu searchdir path working_directory
  end.

Definition getPathList (env path : strlist) (working_directory : cstr) : C E (Z * strlist) :=
  alloc_or (fun cu => alloc_or (fun searchdir =>
  r ← find_path (list_fuel env) env 0;
  path ← path_loop (default DEFAULT_PATH r) cu searchdir path working_directory;
  mret (0, path))).

(** [stat]: its result and [st_mode]. *)
Definition stat (path : cstr) : C E (Z * Z) := r ← syscall "stat" [AS path]; mret (sr_ret r, nth 0 (sr_vals r) 0).

(** The directories of the list from index [i]: whether one has the command, and its path. *)
Fixpoint try_paths (fuel : nat) (cmd : cstr) (path : strlist) (i : Z) (cu : custr) : C E (bool * custr) :=
  match fuel with
  | O => c_undefined
  | S fuel =>
      dir ← strlist_get path i;
      match dir with
      | None => mret (false, cu)
      | Some dir =>
          cu ← custr_reset cu;
          append_or ERR_UNEXPECTED cu dir (fun cu => append_or ERR_UNEXPECTED cu cmd (fun cu =>
          s ← custr_cstr cu;
          dlog (cs "TRYPATH " ++ quoted s) ;;
          '(r, mode) ← stat s;
          if negb (r =? 0) || S_ISDIR mode || (Z.land mode S_IXUSR =? 0)
          then try_paths fuel cmd path (u32 (i + 1)) cu else mret (true, cu)))
      end
  end.

Definition execName (cmd : cstr) (env : strlist) (working_directory : cstr) : C E custr :=
  '(r, path) ← strlist_alloc 0;
  match path with
  | Some path =>
      m ← custr_alloc;
      match m with
      | None => fatal ERR_NO_MEMORY (cs "strlist_alloc failure")
      | Some cu =>
          '(r, path) ← getPathList env path working_directory;
          if negb (r =? 0) then fatal ERR_UNEXPECTED (cs "getPathList() failed") else
          if decide (SLASH ∈ cmd) then
            '(r, mode) ← stat cmd;
            if negb (r =? 0) then e ← get_errno; fatal ERR_STAT_CMD (cs "stat(" ++ cmd ++ cs "): " ++ strerror e)
            else if S_ISDIR mode then fatal ERR_STAT_DIR (cs "stat(" ++ cmd ++ cs "): is a directory")
            else if Z.land mode S_IXUSR =? 0 then fatal ERR_STAT_EXEC (cs "stat(" ++ cmd ++ cs "): is not executable")
            else cu ← custr_reset cu; append_or ERR_NO_MEMORY cu cmd mret
          else
            '(ok, cu) ← try_paths (list_fuel path) cmd path 0 cu;
            if negb (ok : bool) then fatal ERR_NOT_FOUND (cs "'" ++ cmd ++ cs "' not found in PATH") else mret cu
      end
  | None => fatal ERR_NO_MEMORY (cs "strlist_alloc failure")
  end.

(** ** The user *)

(** The characters of [strtok]'s token, and what is before it. *)
Fixpoint skip_delims (d : char) (s : cstr) : cstr :=
  match s with c :: s' => if Ascii.eqb c d then skip_delims d s' else s | [] => [] end.
Fixpoint token_of (d : char) (s : cstr) : cstr :=
  match s with c :: s' => if Ascii.eqb c d then [] else c :: token_of d s' | [] => [] end.

(** [strtok(s, d)]: the offset of the token and the token itself, if there is one; the delimiter
    after it is replaced by a NUL. *)
Definition strtok (d : char) (s : cstr) : option (Z * cstr) :=
  match skip_delims d s with
  | [] => None
  | s' => Some (Zlen s - Zlen s', token_of d s')
  end.

(** What [user] points to: the offset into the block of [mdataGet], and the text there; and the
    group, when one is given. *)
Definition split_user (user : cstr) : Z * cstr * option cstr :=
  match strtok ":"%char user with
  | None => (0, user, None)
  | Some (off, token) =>
      let cut := take (Z.to_nat (off + Zlen token)) user in
      match user !! Z.to_nat (Zlen token) with
      | Some c => if Ascii.eqb c ":"%char then (off, token, Some (drop (S (length token)) user)) else (0, cut, None)
      | None => (0, cut, None)
      end
  end.

(** A name that is a number: [strtoll] reads all of it. *)
Definition number_of (s : cstr) : option Z :=
  let '(lli, _, endptr) := strtoll 10 s in match endptr with [] => Some (u32 lli) | _ => None end.

Definition find_group (grp0 : option group) (name : option cstr) : C E (option group) :=
  match name with
  | None => mret grp0
  | Some name =>
      match getgrnam name with
      | Some g => mret (Some g)
      | None =>
          match number_of name with
          | Some gid => mret (getgrgid gid)
          | None => fatal ERR_GID_NAN (cs "GID is not a number: " ++ name)
          end
      end
  end.

Definition find_user (user : cstr) : C E (option passwd) :=
  match getpwnam user with
  | Some p => mret (Some p)
  | None =>
      match number_of user with
      | Some uid => mret (getpwuid uid)
      | None => fatal ERR_UID_NAN (cs "UID is not a number: " ++ user)
      end
  end.

Definition log_user (pwd : option passwd) : C E () :=
  match pwd with
  | None => mret tt
  | Some p =>
      dlog (cs "INFO passwd.pw_name: " ++ pw_name p) ;; dlog (cs "INFO passwd.pw_uid: " ++ print_u (pw_uid p)) ;;
      dlog (cs "INFO passwd.pw_gid: " ++ print_u (pw_gid p)) ;; dlog (cs "INFO passwd.pw_dir: " ++ pw_dir p)
  end.

Definition log_group (grp : option group) : C E () :=
  match grp with
  | None => mret tt
  | Some g => dlog (cs "INFO group.gr_name: " ++ gr_name g) ;; dlog (cs "INFO group.gr_gid: " ++ print_u (gr_gid g))
  end.

(** The globals [pwd] and [grp]; releasing a pointer into the middle of a block is undefined. *)
Definition getUserGroupData (grp0 : option group) : C E (option passwd * option group) :=
  v ← mdataGet (cs "docker:user");
  let user := default (cs "0") v in
  user_orig ← strdup user;
  match user_orig with
  | None => e ← get_errno; fatal ERR_STRDUP (cs "failed to strdup(" ++ user ++ cs "): " ++ strerror e)
  | Some user_orig =>
      let '(off, user, group) := split_user user_orig in
      grp ← find_group grp0 group;
      match group with
      | Some g => dlog (cs "SPLIT user: '" ++ user ++ cs "' group: '" ++ g ++ cs "'")
      | None => mret tt
      end ;;
      pwd ← find_user user;
      log_user pwd ;;
      let grp := match grp, pwd with None, Some p => getgrgid (pw_gid p) | _, _ => grp end in
      log_group grp ;;
      match v with
      | None => mret (pwd, grp)
      | Some _ => if off =? 0 then mret (pwd, grp) else c_undefined
      end
  end.

(** ** The working directory *)

Definition append_workdir (pwd : option passwd) (cu : custr) (mdval : cstr) : C E custr :=
  match pwd, mdval with
  | Some p, c :: t =>
      if Ascii.eqb c "~"%char then append_or ERR_UNEXPECTED cu (pw_dir p) (fun cu => append_or ERR_UNEXPECTED cu t mret)
      else append_or ERR_UNEXPECTED cu mdval mret
  | _, _ => append_or ERR_UNEXPECTED cu mdval mret
  end.

Definition setupWorkdir (pwd : option passwd) : C E custr :=
  m ← custr_alloc;
  match m with
  | None => e ← get_errno; fatal ERR_NO_MEMORY (cs "custr_alloc failure: " ++ strerror e)
  | Some cu =>
      append_or ERR_UNEXPECTED cu (cs "/") (fun cu =>
      mdval ← mdataGet (cs "docker:workdir");
      cu ← match mdval with None => mret cu | Some mdval => append_workdir pwd cu mdval end;
      dir ← custr_cstr cu;
      dlog (cs "WORKDIR '" ++ dir ++ cs "'") ;;
      r ← sys "mkdirp" [AS dir; AZ 493];
      e ← get_errno;
      if (r =? -1) && negb (e =? EEXIST) then fatal ERR_MKDIR (cs "mkdirp(" ++ dir ++ cs ") failed: " ++ strerror e) else
      r ← sys "chdir" [AS dir];
      if negb (r =? 0) then e ← get_errno; fatal ERR_CHDIR (cs "chdir(" ++ dir ++ cs ") failed: " ++ strerror e)
      else mret cu)
  end.

(** ** dockerexec.c *)

(** Taking on the credentials of the user. *)
Definition drop_privs (pwd : option passwd) (grp : option group) : C E () :=
  dlog (cs "DROP PRIVS") ;;
  match grp with
  | None => mret tt
  | Some g =>
      r ← sys "setgid" [AZ (gr_gid g)];
      if negb (r =? 0) then e ← get_errno; fatal ERR_SETGID (cs "setgid(" ++ print_d (gr_gid g) ++ cs "): " ++ strerror e)
      else mret tt
  end ;;
  match pwd, grp with
  | Some p, Some g =>
      r ← sys "initgroups" [AS (pw_name p); AZ (gr_gid g)];
      if negb (r =? 0) then e ← get_errno;
        fatal ERR_INITGROUPS (cs "initgroups(" ++ pw_name p ++ cs "," ++ print_d (gr_gid g) ++ cs "): " ++ strerror e)
      else mret tt
  | _, _ => mret tt
  end ;;
  match pwd with
  | None => mret tt
  | Some p =>
      r ← sys "setuid" [AZ (pw_uid p)];
      if negb (r =? 0) then e ← get_errno; fatal ERR_SETUID (cs "setuid(" ++ print_d (pw_uid p) ++ cs "): " ++ strerror e)
      else mret tt
  end.

(** [execve]: the arguments are the path, the argument vector and the environment, each with its
    length before it.  On success the process image is replaced and nothing follows. *)
Definition vector (l : list cstr) : list sarg := AZ (Zlen l) :: (AS <$> l).

(** The strings of a NULL-terminated array. *)
Fixpoint until_null (l : list (option cstr)) : list cstr :=
  match l with Some s :: l => s :: until_null l | _ => [] end.

Definition main (argv : list cstr) : C E () :=
  match argv with
  | _ :: cmd :: args =>
      '(r, env) ← strlist_alloc 0;
      match env with
      | None => e ← get_errno; fatal ERR_NO_MEMORY (cs "failed to allocate string lists: " ++ strerror e)
      | Some env =>
          '(pwd, grp) ← getUserGroupData None;
          workdir ← setupWorkdir pwd;
          '(_, env) ← buildCmdEnv None pwd env;
          _ ← sys "close" [AZ 4]; _ ← sys "close" [AZ 5]; _ ← sys "close" [AZ 6];
          drop_privs pwd grp ;;
          dir ← custr_cstr workdir;
          execname ← execName cmd env dir;
          dlog (cs "EXEC") ;;
          path ← custr_cstr execname;
          r ← sys "execve" (AS path :: vector (cmd :: args) ++ vector (until_null (strlist_array env)));
          if r =? 0 then mret tt else
          e ← get_errno; fatal ERR_EXEC_FAILED (cs "execve(" ++ cmd ++ cs ") failed: " ++ strerror e)
      end
  | _ => fatal ERR_NO_COMMAND (cs "no command specified on cmdline, argc: " ++ print_d (Zlen argv))
  end.
End docker.
