(* ===== verification/DockerEnv.v ===== *)
(** * DockerEnv: the environment and the command line of a container

    The functions of [Docker] that fill string lists, against the lists they stand for: an
    environment is a list of "name=value" entries in which a name is replaced where it stands,
    and an array of the metadata is the list of its strings. *)
From Stdlib Require Import Lia.
From S2P Require Import Prelude Custr Strlist Cnum Strset Sys Mdata Nvlist Json JsonSpec JsonPrint JsonMachine Docker.

(** ** Specifications *)

(** The name and value of an entry; none for an entry that is ignored. *)
Definition env_parts (s : cstr) : option (cstr * cstr) :=
  match split_first "="%char s with Some ((_ :: _) as n, v) => Some (n, v) | _ => None end.

Definition env_entry (n v : cstr) : cstr := n ++ "="%char :: v.
Definition named (n s : cstr) : Prop := fst <$> env_parts s = Some n.

#[export] Instance named_dec n s : Decision (named n s).
Proof. unfold named. apply _. Defined.

(** Assigning a variable. *)
Definition env_put (n v : cstr) (l : list cstr) : list cstr :=
  match list_find (named n) l with
  | Some (k, _) => <[k := env_entry n v]> l
  | None => l ++ [env_entry n v]
  end.

Definition env_add (l : list cstr) (s : cstr) : list cstr :=
  match env_parts s with Some (n, v) => env_put n v l | None => l end.

(** The value of a variable in a list of entries: the first one, and the last one assigned. *)
Fixpoint env_get (n : cstr) (l : list cstr) : option cstr :=
  match l with
  | [] => None
  | s :: l => match env_parts s with Some (n', v) => if decide (n' = n) then Some v else env_get n l | None => env_get n l end
  end.
Definition env_last (n : cstr) (l : list cstr) : option cstr := env_get n (reverse l).

(** A proper environment: entries with distinct names. *)
Definition env_names (l : list cstr) : list cstr := omap (fun s => fst <$> env_parts s) l.
Definition env_ok (l : list cstr) : Prop := Forall (fun s => is_Some (env_parts s)) l /\ NoDup (env_names l).

Example env_add_ex : foldl env_add [] [cs "A=1"; cs "B=2"; cs "junk"; cs "A=3=4"] = [cs "A=3=4"; cs "B=2"].
Proof. by vm_compute. Qed.

(** ** Facts *)

Lemma split_first_Some d s a b : split_first d s = Some (a, b) -> s = a ++ d :: b /\ d ∉ a.
Proof.
  revert a. induction s as [|c s IH]; intros a; cbn [split_first]; [done|].
  destruct (Ascii.eqb_spec c d) as [->|Hc]; [intros [= <- <-]; split; [done|apply not_elem_of_nil]|].
  destruct (split_first d s) as [[a' b']|]; [|done]. intros [= <- <-]. destruct (IH a' eq_refl) as [-> Hd].
  split; [done|]. by apply not_elem_of_cons.
Qed.

Lemma split_first_app d a b : d ∉ a -> split_first d (a ++ d :: b) = Some (a, b).
Proof.
  induction a as [|c a IH]; intros Hd; cbn [app split_first]; [by rewrite Ascii.eqb_refl|].
  apply not_elem_of_cons in Hd as [Hc Hd]. rewrite (proj2 (Ascii.eqb_neq c d)) by congruence. by rewrite IH.
Qed.

Lemma env_parts_Some s n v : env_parts s = Some (n, v) -> s = env_entry n v /\ n <> [] /\ "="%char ∉ n.
Proof.
  unfold env_parts. destruct (split_first _ s) as [[[|c a] b]|] eqn:Hs; [done| |done]. intros [= <- <-].
  apply split_first_Some in Hs as [-> Hn]. done.
Qed.

Lemma env_parts_entry n v : n <> [] -> "="%char ∉ n -> env_parts (env_entry n v) = Some (n, v).
Proof. intros Hn He. unfold env_parts, env_entry. rewrite split_first_app by done. by destruct n. Qed.

(** *** Assignments *)

Lemma env_put_get n v l m : n <> [] -> "="%char ∉ n ->
  env_get m (env_put n v l) = if decide (n = m) then Some v else env_get m l.
Proof.
  intros Hn He. pose proof (env_parts_entry n v Hn He) as Hp. unfold env_put.
  destruct (list_find (named n) l) as [[k s]|] eqn:Hf.
  - apply list_find_Some in Hf as (Hk & Hs & Hbefore). revert k Hk Hbefore.
    induction l as [|s' l IH]; intros k Hk Hbefore; [done|]. destruct k as [|k]; cbn [insert list_insert env_get].
    + injection Hk as ->. unfold named in Hs. destruct (env_parts s) as [[n' v']|]; [|done]. injection Hs as ->.
      rewrite Hp. by case_decide.
    + destruct (env_parts s') as [[n' v']|] eqn:Hs'.
      * assert (n' <> n) as Hne. { intros ->. apply (Hbefore 0%nat s'); [done|lia|]. unfold named. by rewrite Hs'. }
        rewrite IH; [|done|intros j y Hj Hlt; by apply (Hbefore (S j)); [|lia]]. do 2 case_decide; congruence.
      * apply IH; [done|]. intros j y Hj Hlt. apply (Hbefore (S j)); [done|lia].
  - apply list_find_None in Hf. induction l as [|s' l IH]; cbn [app env_get]; [by rewrite Hp|].
    apply Forall_cons_1 in Hf as [Hs' Hf]. unfold named in Hs'. destruct (env_parts s') as [[n' v']|]; [|by apply IH].
    assert (n' <> n) by (intros ->; by apply Hs'). rewrite IH by done. do 2 case_decide; congruence.
Qed.

Lemma env_names_app l1 l2 : env_names (l1 ++ l2) = env_names l1 ++ env_names l2.
Proof. apply omap_app. Qed.

Lemma env_put_names n v l : n <> [] -> "="%char ∉ n ->
  env_names (env_put n v l) = if decide (Exists (named n) l) then env_names l else env_names l ++ [n].
Proof.
  intros Hn He. pose proof (env_parts_entry n v Hn He) as Hp. unfold env_put.
  destruct (list_find (named n) l) as [[k s]|] eqn:Hf.
  - apply list_find_Some in Hf as (Hk & Hs & _). rewrite decide_True.
    2:{ apply list.Exists_exists. exists s. split; [by eapply list_elem_of_lookup_2|done]. }
    rewrite (insert_take_drop l k) by (by eapply lookup_lt_Some). rewrite <-(take_drop_middle l k s Hk) at 3.
    rewrite !env_names_app. f_equal. unfold env_names. cbn [omap list_omap]. rewrite Hp. cbn.
    unfold named in Hs. by rewrite Hs.
  - apply list_find_None in Hf. rewrite decide_False.
    2:{ intros Hex. apply list.Exists_exists in Hex as (s & Hin & Hs). rewrite list.Forall_forall in Hf. by eapply Hf. }
    rewrite env_names_app. f_equal. unfold env_names. cbn [omap list_omap]. by rewrite Hp.
Qed.

Lemma env_put_ok n v l : n <> [] -> "="%char ∉ n -> env_ok l -> env_ok (env_put n v l).
Proof.
  intros Hn He [Hl Hnd]. pose proof (env_parts_entry n v Hn He) as Hp. split.
  - unfold env_put. destruct (list_find _ l) as [[k s]|]; [|apply Forall_app; split; [done|repeat constructor; by eexists]].
    apply Forall_insert; [done|by eexists].
  - rewrite env_put_names by done. case_decide as Hex; [done|]. apply list.NoDup_app. split; [done|]. split; [|apply list.NoDup_singleton].
    intros x Hx. rewrite list_elem_of_singleton. intros ->. apply Hex. apply list.Exists_exists.
    apply list_elem_of_omap in Hx as (s & Hin & Hs). by exists s.
Qed.

Lemma env_add_ok l s : env_ok l -> env_ok (env_add l s).
Proof.
  intros Hl. unfold env_add. destruct (env_parts s) as [[n v]|] eqn:Hs; [|done].
  apply env_parts_Some in Hs as (_ & ? & ?). by apply env_put_ok.
Qed.

Lemma env_fold_ok ss l : env_ok l -> env_ok (foldl env_add l ss).
Proof. revert l. induction ss as [|s ss IH]; intros l Hl; [done|]. by apply IH, env_add_ok. Qed.

Lemma env_get_app n l1 l2 :
  env_get n (l1 ++ l2) = match env_get n l1 with Some v => Some v | None => env_get n l2 end.
Proof.
  induction l1 as [|s l1 IH]; [done|]. cbn [app env_get]. destruct (env_parts s) as [[n' v]|]; [|done]. by case_decide.
Qed.

(** The last assignment wins. *)
Lemma env_fold_get n ss l :
  env_get n (foldl env_add l ss) = match env_last n ss with Some v => Some v | None => env_get n l end.
Proof.
  revert l. induction ss as [|s ss IH]; intros l; [done|]. cbn [foldl]. rewrite IH. unfold env_last.
  rewrite reverse_cons, env_get_app. destruct (env_get n (reverse ss)); [done|]. unfold env_add. cbn [env_get].
  destruct (env_parts s) as [[n' v]|] eqn:Hs; [|done]. apply env_parts_Some in Hs as (_ & ? & ?).
  rewrite env_put_get by done. by case_decide.
Qed.

(** ** Arrays of strings *)

Definition string_array (ss : list cstr) : json := JArray (JString <$> ss).

Lemma nv_find_app k l1 l2 : nv_find k (l1 ++ l2) = match nv_find k l1 with Some v => Some v | None => nv_find k l2 end.
Proof. induction l1 as [|[k' v] l1 IH]; [done|]. cbn. by case_decide. Qed.

Lemma nv_find_filter k k' l : k' <> k -> nv_find k (filter (fun p => p.1 <> k') l) = nv_find k l.
Proof.
  intros Hk. induction l as [|[k1 v] l IH]; [done|]. rewrite filter_cons. case_decide as Hp; cbn in *.
  - by case_decide.
  - rewrite IH. rewrite decide_False; [done|]. intros ->. congruence.
Qed.

Lemma nv_find_absent k l : nv_find k (filter (fun p => p.1 <> k) l) = None.
Proof.
  induction l as [|[k1 v] l IH]; [done|]. rewrite filter_cons. case_decide as Hp; [|done].
  cbn in *. by rewrite decide_False.
Qed.

Lemma nv_find_put k k' v l : nv_find k (nv_put k' v l) = if decide (k' = k) then Some v else nv_find k l.
Proof.
  unfold nv_put. rewrite nv_find_app. case_decide as Hk.
  - subst k'. rewrite nv_find_absent. cbn. by rewrite decide_True.
  - rewrite nv_find_filter by done. cbn. rewrite decide_False by done. by destruct (nv_find k l).
Qed.

Lemma print_d_inj i j : 0 <= i <= INT_MAX -> 0 <= j <= INT_MAX -> print_d i = print_d j -> i = j.
Proof.
  intros Hi Hj. unfold print_d. rewrite (proj2 (Z.ltb_ge i 0)), (proj2 (Z.ltb_ge j 0)) by lia. intros Heq.
  pose proof (atoi_print i Hi) as Hpi. rewrite Heq, atoi_print in Hpi by done. congruence.
Qed.

(** The names of the elements are not those that decorate the array. *)
Lemma print_d_name i : 0 <= i -> print_d i <> cs "length" /\ print_d i <> JSON_MARKER_ARRAY.
Proof.
  intros Hi. unfold print_d. rewrite (proj2 (Z.ltb_ge i 0)) by lia.
  pose proof (print_base_digits 10 i ltac:(lia) ltac:(lia)) as Hd.
  split; intros Heq; rewrite Heq in Hd; by apply Forall_cons_1 in Hd as [Hd _].
Qed.

Lemma find_decorated k idx l : k <> cs "length" -> k <> JSON_MARKER_ARRAY -> nv_find k (decorated idx l) = nv_find k l.
Proof. intros H1 H2. unfold decorated. rewrite !nv_find_put. by rewrite !decide_False by congruence. Qed.

Lemma elements_other k vs idx l :
  0 <= idx -> idx + Zlen vs <= INT_MAX -> k <> cs "length" -> k <> JSON_MARKER_ARRAY ->
  (forall j, idx <= j < idx + Zlen vs -> print_d j <> k) -> nv_find k (nv_elements idx l vs) = nv_find k l.
Proof.
  revert idx l. induction vs as [|v vs IH]; intros idx l Hidx Hmax Hk1 Hk2 Hj; cbn [nv_elements].
  - by apply find_decorated.
  - rewrite Zlen_cons in *. pose proof (Zlen_nonneg vs). rewrite i32_small by (unfold INT_MIN, INT_MAX in *; lia).
    rewrite IH; [|lia|lia|done|done|intros j ?; apply Hj; lia]. rewrite nv_find_put, decide_False; [done|].
    apply Hj. lia.
Qed.

Lemma elements_length vs idx l : 0 <= idx -> idx + Zlen vs <= INT_MAX ->
  nv_find (cs "length") (nv_elements idx l vs) = Some (NvUint32 (idx + Zlen vs)).
Proof.
  revert idx l. induction vs as [|v vs IH]; intros idx l Hidx Hmax; cbn [nv_elements].
  - rewrite Zlen_nil, Z.add_0_r in *. unfold decorated. rewrite nv_find_put, decide_True by done.
    by rewrite u32_small by (unfold UINT_MAX, INT_MAX in *; lia).
  - rewrite Zlen_cons in *. pose proof (Zlen_nonneg vs). rewrite i32_small by (unfold INT_MIN, INT_MAX in *; lia).
    rewrite IH by lia. do 2 f_equal. lia.
Qed.

Lemma elements_at vs idx l (i : nat) v : 0 <= idx -> idx + Zlen vs <= INT_MAX -> vs !! i = Some v ->
  nv_find (print_d (idx + Z.of_nat i)) (nv_elements idx l vs) = Some v.
Proof.
  revert idx l i. induction vs as [|v' vs IH]; intros idx l i Hidx Hmax Hi; [done|]. cbn [nv_elements].
  rewrite Zlen_cons in *. pose proof (Zlen_nonneg vs). rewrite i32_small by (unfold INT_MIN, INT_MAX in *; lia).
  destruct i as [|i].
  - injection Hi as ->. rewrite Z.add_0_r. destruct (print_d_name idx Hidx). rewrite elements_other; [|lia|lia|done|done|].
    + by rewrite nv_find_put, decide_True.
    + intros j Hj Heq. apply print_d_inj in Heq; lia.
  - replace (idx + Z.of_nat (S i)) with (idx + 1 + Z.of_nat i) by lia. apply IH; [lia|lia|done].
Qed.

Lemma array_find ss : Zlen ss <= INT_MAX ->
  nv_find (cs "length") (pairs_of (string_array ss)) = Some (NvUint32 (Zlen ss)) /\
  forall i s, ss !! i = Some s -> nv_find (print_u (Z.of_nat i)) (pairs_of (string_array ss)) = Some (NvString s).
Proof.
  intros Hmax. unfold pairs_of, string_array. rewrite <-list_fmap_compose.
  assert (Hlen : Zlen ((nv_of ∘ JString) <$> ss) = Zlen ss) by (unfold Zlen; by rewrite length_fmap). split.
  - by rewrite elements_length, Hlen by (rewrite ?Hlen; lia).
  - intros i s Hi. apply lookup_lt_Some in Hi as Hlt.
    pose proof (elements_at ((nv_of ∘ JString) <$> ss) 0 [] i (NvString s)) as Hat. unfold print_d in Hat.
    rewrite (proj2 (Z.ltb_ge _ 0)) in Hat by lia. apply Hat; [lia|lia|]. by rewrite list_lookup_fmap, Hi.
Qed.

(** What the metadata agent answers: the values of [table]. *)
Class MetadataServes (E : Type) `{Metadata E} (table : cstr -> option cstr) :=
  mdataGet_serves key w : good w -> wp (mdataGet key) (fun v w' => good w' /\ v = table key) w.

(** The value of [key] is an array of strings; no value stands for the empty array. *)
Definition array_of (table : cstr -> option cstr) (key : cstr) (ss : list cstr) : Prop :=
  default (cs "[]") (table key) = print_json (string_array ss) /\
  Zlen (print_json (string_array ss)) <= JSON_MAX /\ Forall (fun s => is_cstr s /\ Zlen s <= JSON_MAX) ss.

(** How a program ends that may call [exit]. *)
Definition halts {E A} (m : C E A) (Q : A -> world E -> Prop) (X : Z -> Prop) (w : world E) : Prop :=
  match m w with Done (a, w') => Q a w' | Exited st => X st | _ => False end.

Lemma halts_bind {E A B} (m : C E A) (k : A -> C E B) Q X w :
  halts m (fun a => halts (k a) Q X) X w -> halts (m ≫= k) Q X w.
Proof. unfold halts, mbind, C_bind. destruct (m w) as [[a w']| | |]; done. Qed.

Lemma halts_wp {E A} (m : C E A) (P Q : A -> world E -> Prop) X w :
  wp m P w -> (forall a w', P a w' -> Q a w') -> halts m Q X w.
Proof. unfold wp, halts. destruct (m w) as [[a w']| | |]; naive_solver. Qed.

Lemma halts_fatal {E A} err msg (Q : A -> world E -> Prop) X w :
  err <> ERR_UNEXPECTED -> X (err_code err) -> halts (fatal err msg) Q X w.
Proof. intros He HX. unfold fatal. apply halts_bind. cbn. unfold halts. by rewrite decide_False. Qed.

(** ** The functions *)

Section facts.
Context {E : Type} `{MD : Metadata E} `{NvlistLaws E} `{K : Kernel E} `{A : Accounts} `{DM : DataModel} (strerror : Z -> cstr).
Implicit Types (w : world E).

(** From [w] to [w'] messages may have been logged and memory allocated. *)
Definition keeps w w' : Prop := good w' /\ w_env w' = w_env w.

Lemma keeps_refl w : good w -> keeps w w.
Proof. done. Qed.
Lemma keeps_trans w1 w2 w3 : keeps w1 w2 -> keeps w2 w3 -> keeps w1 w3.
Proof. intros [_ He] [Hg He']. split; [done|congruence]. Qed.
Lemma keeps_frame w w' : good w -> frame w w' -> keeps w w'.
Proof. intros Hg Hf. split; [by eapply good_frame|by destruct Hf as (_ & _ & ?)]. Qed.

Lemma dlog_spec s (Q : () -> world E -> Prop) w : good w -> (forall w', keeps w w' -> Q tt w') -> wp (dlog s) Q w.
Proof. intros Hg HQ. apply wp_eprint, HQ. done. Qed.

Lemma strdup_spec s (Q : option cstr -> world E -> Prop) w :
  good w -> Zlen s < HEAP_HI -> (forall w', keeps w w' -> Q (Some s) w') -> wp (strdup s) Q w.
Proof.
  intros Hg Hs HQ. unfold strdup. pose proof (Zlen_nonneg s). apply wp_bind, wp_malloc_good; [done|lia|].
  intros a w' Hw'. by apply wp_ret, HQ, keeps_frame.
Qed.

Lemma asprintf_spec s (Q : option cstr -> world E -> Prop) w :
  good w -> Zlen s < HEAP_HI -> (forall w', keeps w w' -> Q (Some s) w') -> wp (asprintf s) Q w.
Proof. apply strdup_spec. Qed.

Lemma split_spec s n v (Q : option (cstr * cstr) -> world E -> Prop) w :
  good w -> Zlen s < HEAP_HI -> (forall w', keeps w w' -> Q (env_parts s) w') -> wp (splitEnvEntry strerror s n v) Q w.
Proof.
  intros Hg Hs HQ. unfold splitEnvEntry, env_parts in *.
  destruct (split_first "="%char s) as [[[|c a] b]|] eqn:Hsp;
    [apply wp_bind, dlog_spec; [done|]; intros; by apply wp_ret, HQ| |apply wp_bind, dlog_spec; [done|]; intros; by apply wp_ret, HQ].
  apply split_first_Some in Hsp as [-> _]. rewrite Zlen_app, (Zlen_cons _ b) in Hs.
  pose proof (Zlen_nonneg (c :: a)). pose proof (Zlen_nonneg b). apply wp_bind.
  assert (Hopt : forall (want : bool) t (P : option cstr -> world E -> Prop) w, good w -> Zlen t < HEAP_HI ->
    (forall r w', keeps w w' -> P (Some r) w') -> wp (if want then strdup t else mret (Some [])) P w).
  { intros want t P w0 Hg0 Ht HP. destruct want; [apply strdup_spec; [done..|]; intros; by apply HP|by apply wp_ret, HP]. }
  apply Hopt; [done|lia|]. intros r w1 Hw1. apply wp_bind. apply Hopt; [by destruct Hw1|lia|].
  intros r' w2 Hw2. apply wp_ret, HQ. by eapply keeps_trans.
Qed.

(** *** String lists *)

(** The list [l], of entries that fit the heap, with room left. *)
Definition LIST_MAX : Z := 1048576.
Definition holds (sl : strlist) (l : list cstr) : Prop :=
  strlist_rep sl l /\ sl_capacity sl <= 32 * (Zlen l + 1) /\ Forall (fun s => Zlen s < HEAP_HI) l.

Lemma holds_get sl l (i : nat) (Q : option cstr -> world E -> Prop) w :
  holds sl l -> Q (l !! i) w -> wp (strlist_get sl (Z.of_nat i)) Q w.
Proof. intros [Hrep _]. by apply get_spec. Qed.

Lemma holds_length sl l : holds sl l -> (length l < list_fuel sl)%nat /\ Zlen l <= UINT_MAX.
Proof.
  intros [Hrep _]. pose proof (rep_length _ _ Hrep). destruct Hrep as [(? & _) _]. unfold list_fuel, Zlen in *. lia.
Qed.

Lemma holds_tail sl l s (Q : Z * strlist -> world E -> Prop) w :
  holds sl l -> good w -> Zlen l <= LIST_MAX -> Zlen s < HEAP_HI ->
  (forall sl' w', keeps w w' -> holds sl' (l ++ [s]) -> Q (0, sl') w') -> wp (strlist_set_tail sl s) Q w.
Proof.
  intros (Hrep & Hcap & Hl) [Hlow Htot] Hmax Hs HQ. unfold LIST_MAX in *.
  eapply wp_mono; [apply (set_tail_spec _ l); [done|done|unfold STRLIST_MAX; lia|lia]|].
  intros [r sl'] w' (Hw' & Hc & [[Hr Hrep']|(_ & Hnt & _)]); [|done]. cbn in Hc, Hr, Hrep'. subst r.
  apply HQ; [by apply keeps_frame|]. split; [done|]. split; [|apply Forall_app; by repeat constructor].
  rewrite Zlen_app. change (Zlen [s]) with 1. unfold GROW_COUNT in *. lia.
Qed.

Lemma holds_replace sl l (k : nat) s (Q : Z * strlist -> world E -> Prop) w :
  holds sl l -> good w -> (k < length l)%nat -> Zlen s < HEAP_HI ->
  (forall sl' w', keeps w w' -> holds sl' (<[k := s]> l) -> Q (0, sl') w') -> wp (strlist_set sl (Z.of_nat k) s) Q w.
Proof.
  intros (Hrep & Hcap & Hl) [Hlow Htot] Hk Hs HQ. pose proof Hrep as [Hwf Hst].
  destruct (lookup_lt_is_Some_2 l k Hk) as [x Hx]. destruct (rep_lookup _ _ _ _ Hrep Hx) as [_ Hin].
  apply set_in_range_spec; [done|done|done|lia| |intros w' Hw' Hnt; by destruct Hnt].
  intros w' Hw'. apply HQ; [by apply keeps_frame|]. split; [|split; [unfold Zlen in *; rewrite length_insert; exact Hcap|by apply Forall_insert]].
  split; [by apply wf_insert|]. intros i. rewrite stored_insert by (done || lia). case_decide as Hi.
  - assert (i = k) as -> by lia. by rewrite list_lookup_insert_eq.
  - rewrite list_lookup_insert_ne by lia. apply Hst.
Qed.

Lemma find_entry_spec fuel sl l name (i : nat) (Q : bool * Z -> world E -> Prop) w :
  holds sl l -> good w -> (length l - i < fuel)%nat -> (i <= length l)%nat ->
  (forall j s, (j < i)%nat -> l !! j = Some s -> ~ named name s) ->
  (forall w', keeps w w' -> Q (match list_find (named name) l with Some (k, _) => (true, Z.of_nat k) | None => (false, Zlen l) end) w') ->
  wp (find_entry strerror fuel sl name (Z.of_nat i)) Q w.
Proof.
  revert i w. induction fuel as [|fuel IH]; intros i w Hsl Hg Hf Hi Hbefore HQ; [lia|]. cbn [find_entry].
  pose proof (holds_length _ _ Hsl) as [_ Hmax]. unfold Zlen, UINT_MAX in Hmax. apply wp_bind, (holds_get _ l); [done|].
  destruct (l !! i) as [s|] eqn:Hs.
  - apply wp_bind, split_spec; [done|destruct Hsl as (_ & _ & Hl); by eapply (Forall_lookup_1 _ _ _ _ Hl)|].
    intros w1 Hw1. assert (Hnext : ~ named name s -> wp (find_entry strerror fuel sl name (u32 (Z.of_nat i + 1))) Q w1).
    { intros Hne. apply lookup_lt_Some in Hs as Hlt. rewrite u32_small by (unfold UINT_MAX; lia).
      replace (Z.of_nat i + 1) with (Z.of_nat (S i)) by lia. apply IH; [done|by destruct Hw1|lia|lia| |].
      - intros j s' Hj Hs'. destruct (decide (j = i)) as [->|]; [congruence|]. by apply (Hbefore j); [lia|].
      - intros w2 Hw2. apply HQ. by eapply keeps_trans. }
    unfold named in Hnext. destruct (env_parts s) as [[n v]|] eqn:Hp; [|by apply Hnext].
    destruct (Z.eqb_spec (strcmp n name) 0) as [Heq|Hne].
    + apply strcmp_eq in Heq as ->. apply wp_ret.
      assert (list_find (named name) l = Some (i, s)) as Hfind.
      { apply list_find_Some. split; [done|]. split; [unfold named; by rewrite Hp|]. intros j y Hj Hlt. by eapply Hbefore. }
      pose proof (HQ w1 Hw1) as HQ1. by rewrite Hfind in HQ1.
    + apply Hnext. intros [= ->]. apply Hne. by apply strcmp_eq.
  - apply wp_ret. apply lookup_ge_None in Hs. assert (i = length l) as -> by lia.
    assert (list_find (named name) l = None) as Hfind.
    { apply list_find_None, Forall_lookup. intros j y Hj. apply (Hbefore j); [by eapply lookup_lt_Some|done]. }
    pose proof (HQ w (keeps_refl _ Hg)) as HQ1. by rewrite Hfind in HQ1.
Qed.

Lemma insert_spec sl l name value (Q : strlist -> world E -> Prop) w :
  holds sl l -> good w -> Zlen l <= LIST_MAX -> Zlen (env_entry name value) < HEAP_HI ->
  (forall sl' w', keeps w w' -> holds sl' (env_put name value l) -> Q sl' w') ->
  wp (insertOrReplaceEnv strerror sl name value) Q w.
Proof.
  intros Hsl Hg Hmax Hs HQ. unfold insertOrReplaceEnv. pose proof (holds_length _ _ Hsl) as [Hlen _].
  apply wp_bind, (find_entry_spec _ sl l name 0); [done|done|lia|lia|intros; lia|].
  intros w1 Hw1. unfold env_put in HQ.
  destruct (list_find (named name) l) as [[k x]|] eqn:Hf; cbn beta iota;
    (apply wp_bind, asprintf_spec; [by destruct Hw1|done|]; intros w2 Hw2; apply wp_bind).
  - apply list_find_Some in Hf as (Hk & _). apply lookup_lt_Some in Hk.
    apply (holds_replace _ l); [done|by destruct Hw2|done|done|]. intros sl' w3 Hw3 Hsl'. apply wp_ret, HQ; [|done].
    by do 2 (eapply keeps_trans; [done|]).
  - apply (holds_tail _ l); [done|by destruct Hw2|done|done|]. intros sl' w3 Hw3 Hsl'. apply wp_ret, HQ; [|done].
    by do 2 (eapply keeps_trans; [done|]).
Qed.

(** *** Arrays *)

Lemma lookup_length h l w (Q : Z * option Z -> world E -> Prop) n :
  good w -> nv_open None [(h, [], l)] (w_env w) -> nv_find (cs "length") l = Some (NvUint32 n) ->
  (forall w', good w' -> nv_open None [(h, [], l)] (w_env w') -> Q (0, Some n) w') ->
  wp (lookup_uint32 (Some h) (cs "length")) Q w.
Proof.
  intros Hg Ho Hf HQ. eapply wp_mono; [by eapply nv_lookup_uint32|]. intros [r v] w' (Hg' & Ho' & Hv).
  rewrite Hf in Hv. destruct Hv as [-> ->]. by apply HQ.
Qed.

Lemma lookup_elem h l w (Q : Z * option cstr -> world E -> Prop) k s :
  good w -> nv_open None [(h, [], l)] (w_env w) -> nv_find k l = Some (NvString s) ->
  (forall w', good w' -> nv_open None [(h, [], l)] (w_env w') -> Q (0, Some s) w') ->
  wp (lookup_string (Some h) k) Q w.
Proof.
  intros Hg Ho Hf HQ. eapply wp_mono; [by eapply nv_lookup_string|]. intros [r v] w' (Hg' & Ho' & Hv).
  rewrite Hf in Hv. destruct Hv as [-> ->]. by apply HQ.
Qed.

(** The callback is called with each string in turn; [R] relates what it threads to the strings
    seen so far. *)
Lemma each_spec {T} (funcp : cstr -> Z -> cstr -> T -> C E T) (R : list cstr -> T -> Prop) name h ss arg (Q : T -> world E -> Prop) w :
  (forall i s a w (P : T -> world E -> Prop), ss !! i = Some s -> good w -> R (take i ss) a ->
     (forall a' w', keeps w w' -> R (take (S i) ss) a' -> P a' w') -> wp (funcp name (Z.of_nat i) s a) P w) ->
  Zlen ss <= LIST_MAX -> good w -> nv_open None [(h, [], pairs_of (string_array ss))] (w_env w) -> R [] arg ->
  (forall a w', good w' -> nv_open None [(h, [], pairs_of (string_array ss))] (w_env w') -> R ss a -> Q a w') ->
  wp (forEachStringInArray funcp name (Some h) arg) Q w.
Proof.
  intros Hcb Hmax Hg Ho HR HQ. unfold LIST_MAX in Hmax. destruct (array_find ss) as [Hlen Hat]; [unfold INT_MAX; lia|].
  unfold forEachStringInArray. apply wp_bind. eapply lookup_length; [done|done|exact Hlen|]. intros w1 Hg1 Ho1.
  change (negb (0 =? 0)) with false. cbn beta iota. apply wp_bind. eapply wp_access; [done|]. rewrite Zlen_to_nat.
  assert (Hloop : forall n (i : nat) a w, (i + n = length ss)%nat -> good w ->
    nv_open None [(h, [], pairs_of (string_array ss))] (w_env w) -> R (take i ss) a ->
    wp (each_string funcp n (Z.of_nat i) name (Some h) a) Q w).
  { clear w Hg Ho w1 Hg1 Ho1 arg HR. intros n. induction n as [|n IH]; intros i a w Hi Hg Ho HR; cbn [each_string].
    - apply wp_ret, HQ; [done|done|]. by rewrite take_ge in HR by lia.
    - destruct (lookup_lt_is_Some_2 ss i) as [s Hs]; [lia|]. apply wp_bind.
      eapply lookup_elem; [done|done|by apply Hat|]. intros w1 Hg1 Ho1. change (negb (0 =? 0)) with false. cbn beta iota.
      apply wp_bind. eapply wp_access; [done|]. apply wp_bind, Hcb; [done|done|done|]. intros a' w2 [Hg2 He2] HR2.
      rewrite u32_small by (unfold UINT_MAX, Zlen in *; lia). replace (Z.of_nat i + 1) with (Z.of_nat (S i)) by lia.
      apply IH; [lia|done|by rewrite He2|done]. }
  apply (Hloop _ 0%nat); [done|done|done|done].
Qed.

Context (table : cstr -> option cstr) `{!MetadataServes E table}.

Lemma string_array_ok ss : Forall (fun s => is_cstr s /\ Zlen s <= JSON_MAX) ss -> json_ok (string_array ss).
Proof. induction 1 as [|s ss [Hs _] Hss IH]; cbn; [done|]. by split. Qed.

Lemma array_short key ss : array_of table key ss -> Forall (fun s => Zlen s < HEAP_HI) ss.
Proof. intros (_ & _ & Hss). eapply list.Forall_impl; [exact Hss|]. intros s [_ Hs]. unfold JSON_MAX, HEAP_HI in *. lia. Qed.

Lemma get_array_spec key ss (Q : option nvlist_t * Z -> world E -> Prop) w :
  array_of table key ss -> good w ->
  (forall h w', good w' -> nv_open None [(h, [], pairs_of (string_array ss))] (w_env w') -> Q (Some h, 0) w') ->
  wp (getMdataArray strerror key false) Q w.
Proof.
  intros (Hj & Hmax & Hss) Hg HQ. unfold getMdataArray. apply wp_bind. eapply wp_mono; [by apply mdataGet_serves|].
  intros v w1 [Hg1 ->]. rewrite Hj. set (j := string_array ss) in *. apply wp_bind.
  apply (parse_json_spec strerror (json_size j)); [|done|done|done|].
  - pose proof (Zlen_nonneg (print_json j)). split; [|done]. rewrite Zlen_app. change (Zlen [NUL]) with 1. lia.
  - unfold Zlen at 1. rewrite Nat2Z.id, take_app_ge by lia.
    rewrite json_print_reads by (done || lia || by apply string_array_ok).
    intros h err w2 Hg2 _ Ho _. change (negb (0 =? 0)) with false. cbn [negb]. apply wp_ret. by apply HQ.
Qed.

Lemma free_spec h l (Q : () -> world E -> Prop) w :
  good w -> nv_open None [(h, [], l)] (w_env w) -> (forall w', good w' -> Q tt w') -> wp (free_nvl (Some h)) Q w.
Proof. intros Hg Ho HQ. eapply wp_mono; [by eapply nv_free|]. intros [] w' [Hg' _]. by apply HQ. Qed.

(** An array of the metadata, through a callback. *)
Lemma array_each {T} (funcp : cstr -> Z -> cstr -> T -> C E T) (R : list cstr -> T -> Prop) key ss arg (Q : T -> world E -> Prop) w :
  (forall i s a w (P : T -> world E -> Prop), ss !! i = Some s -> good w -> R (take i ss) a ->
     (forall a' w', keeps w w' -> R (take (S i) ss) a' -> P a' w') -> wp (funcp key (Z.of_nat i) s a) P w) ->
  array_of table key ss -> Zlen ss <= LIST_MAX -> good w -> R [] arg -> (forall a w', good w' -> R ss a -> Q a w') ->
  wp ('(nvl, _) ← getMdataArray strerror key false; a ← forEachStringInArray funcp key nvl arg; free_nvl nvl ;; mret a) Q w.
Proof.
  intros Hcb Harr Hmax Hg HR HQ. apply wp_bind. eapply get_array_spec; [done|done|]. intros h w1 Hg1 Ho1. cbn beta iota.
  apply wp_bind. eapply each_spec; [exact Hcb|done|done|done|done|]. intros a w2 Hg2 Ho2 HR2. apply wp_bind.
  eapply free_spec; [done|done|]. intros w3 Hg3. by apply wp_ret, HQ.
Qed.

(** *** The command line *)

Lemma add_command_spec sl l name key ss (Q : strlist -> world E -> Prop) w :
  array_of table key ss -> holds sl l -> Zlen l + Zlen ss <= LIST_MAX -> good w ->
  (forall sl' w', good w' -> holds sl' (l ++ ss) -> Q sl' w') -> wp (add_command strerror sl name key) Q w.
Proof.
  intros Harr Hsl Hmax Hg HQ. pose proof (Zlen_nonneg l).
  apply (array_each _ (fun seen sl' => holds sl' (l ++ seen)) _ ss); [|done|lia|done|by rewrite app_nil_r|done].
  intros i s sl' w1 P Hs Hg1 Hsl' HP. unfold cbEachCmdEntry. apply wp_bind.
  apply lookup_lt_Some in Hs as Hlt. pose proof (Forall_lookup_1 _ _ _ _ (array_short _ _ Harr) Hs) as Hlen. cbn in Hlen.
  eapply holds_tail; [done|done| |done|].
  { rewrite Zlen_app. unfold Zlen in *. rewrite length_take. lia. }
  intros sl2 w2 Hw2 Hsl2. change (negb (0 =? 0)) with false. cbn beta iota. apply wp_bind.
  eapply contig_count_spec; [by destruct Hsl2|]. apply wp_bind, dlog_spec; [by destruct Hw2|]. intros w3 Hw3. apply wp_ret, HP.
  - by eapply keeps_trans.
  - by rewrite (take_S_r _ _ s), app_assoc.
Qed.

(** *** The environment *)

Lemma fold_add_length ss l : (length (foldl env_add l ss) <= length l + length ss)%nat.
Proof.
  revert l. induction ss as [|s ss IH]; intros l; cbn [foldl length]; [lia|]. pose proof (IH (env_add l s)) as Hl.
  assert (length (env_add l s) <= S (length l))%nat; [|lia]. unfold env_add, env_put.
  destruct (env_parts s) as [[n v]|]; [|lia]. destruct (list_find _ l) as [[k x]|]; [rewrite length_insert; lia|].
  rewrite length_app. cbn. lia.
Qed.

Lemma add_array_spec sl l key ss (Q : strlist -> world E -> Prop) w :
  array_of table key ss -> holds sl l -> Zlen l + Zlen ss <= LIST_MAX -> good w ->
  (forall sl' w', good w' -> holds sl' (foldl env_add l ss) -> Q sl' w') -> wp (add_array strerror sl key) Q w.
Proof.
  intros Harr Hsl Hmax Hg HQ. pose proof (Zlen_nonneg l).
  apply (array_each _ (fun seen sl' => holds sl' (foldl env_add l seen)) _ ss); [|done|lia|done|done|done].
  intros i s sl' w1 P Hs Hg1 Hsl' HP. unfold cbEachEnvEntry.
  pose proof (Forall_lookup_1 _ _ _ _ (array_short _ _ Harr) Hs) as Hlen. cbn in Hlen. apply lookup_lt_Some in Hs as Hlt.
  rewrite (take_S_r _ _ s), foldl_app in HP by done. cbn [foldl] in HP. set (l' := foldl env_add l (take i ss)) in *.
  unfold env_add in HP. apply wp_bind, split_spec; [done|done|]. intros w2 Hw2.
  destruct (env_parts s) as [[n v]|] eqn:Hp; [|by apply wp_ret, HP].
  apply env_parts_Some in Hp as [-> _]. eapply insert_spec; [done|by destruct Hw2| |done|].
  - pose proof (fold_add_length (take i ss) l). subst l'. unfold Zlen in *. rewrite length_take in *. lia.
  - intros sl2 w3 Hw3 Hsl2. apply HP; [by eapply keeps_trans|done].
Qed.

Lemma log_env_spec fuel sl l (i : nat) (Q : () -> world E -> Prop) w :
  holds sl l -> good w -> (length l - i < fuel)%nat -> (i <= length l)%nat -> (forall w', good w' -> Q tt w') ->
  wp (log_env fuel sl (Z.of_nat i)) Q w.
Proof.
  revert i w. induction fuel as [|fuel IH]; intros i w Hsl Hg Hf Hi HQ; [lia|]. cbn [log_env].
  pose proof (holds_length _ _ Hsl) as [_ Hmax]. unfold Zlen in Hmax. apply wp_bind, (holds_get _ l); [done|].
  destruct (l !! i) as [s|] eqn:Hs; [|by apply wp_ret, HQ]. apply lookup_lt_Some in Hs.
  apply wp_bind, dlog_spec; [done|]. intros w1 [Hg1 _]. rewrite u32_small by lia.
  replace (Z.of_nat i + 1) with (Z.of_nat (S i)) by lia. by apply IH; [|done|lia|lia|].
Qed.
End facts.

(** ** Properties *)

(** C11: the command line of a container is the strings of the ENTRYPOINT array followed by those
    of the CMD array of its metadata, a missing array counting as empty; if there is no string at
    all the program exits with [ERR_NO_COMMAND]. *)
Theorem buildCmdline_meaning {E} `{Metadata E} `{NvlistLaws E} `{DM : DataModel} (strerror : Z -> cstr)
    (table : cstr -> option cstr) `{!MetadataServes E table} (entrypoint cmd : list cstr) (cmdline : strlist) (w : world E) :
  array_of table (cs "docker:entrypoint") entrypoint -> array_of table (cs "docker:cmd") cmd ->
  Zlen entrypoint + Zlen cmd <= LIST_MAX -> holds cmdline [] -> good w ->
  halts (buildCmdline strerror cmdline)
    (fun '(r, cmdline') _ => entrypoint ++ cmd <> [] /\ r = 0 /\ holds cmdline' (entrypoint ++ cmd))
    (fun status => entrypoint ++ cmd = [] /\ status = err_code ERR_NO_COMMAND) w.
Proof.
  intros He Hc Hmax Hsl Hg. pose proof (Zlen_nonneg entrypoint). pose proof (Zlen_nonneg cmd). unfold buildCmdline.
  apply halts_bind. eapply halts_wp.
  { eapply (add_command_spec strerror table cmdline [] _ _ entrypoint _ w He Hsl); [rewrite Zlen_nil; lia|done|].
    intros sl1 w1 Hg1 Hsl1. exact (conj Hg1 Hsl1). }
  intros sl1 w1 [Hg1 Hsl1]. apply halts_bind. eapply halts_wp.
  { eapply (add_command_spec strerror table sl1 entrypoint _ _ cmd _ w1 Hc Hsl1); [lia|done|].
    intros sl2 w2 Hg2 Hsl2. exact (conj Hg2 Hsl2). }
  intros sl2 w2 [Hg2 Hsl2]. apply halts_bind. eapply (halts_wp _ (fun n _ => n = Zlen (entrypoint ++ cmd))).
  { by eapply contig_count_spec; [by destruct Hsl2|]. }
  intros n w3 ->. destruct (Z.ltb_spec (Zlen (entrypoint ++ cmd)) 1) as [Hlt|Hge].
  - apply halts_fatal; [done|]. split; [|done]. destruct (entrypoint ++ cmd) as [|x l]; [done|]. rewrite Zlen_cons in Hlt.
    pose proof (Zlen_nonneg l). lia.
  - split; [|by split]. intros Hnil. rewrite Hnil, Zlen_nil in Hge. lia.
Qed.

(** The assignments of [buildCmdEnv], in order. *)
Definition env_defaults (hostname : option cstr) (pwd : option passwd) : list cstr :=
  [env_entry (cs "TERM") DEFAULT_TERM; env_entry (cs "HOME") (match pwd with Some p => pw_dir p | None => cs "/" end);
   env_entry (cs "PATH") DEFAULT_PATH] ++ match hostname with Some h => [env_entry (cs "HOSTNAME") h] | None => [] end.

Lemma env_defaults_spec {E} `{DM : DataModel} (strerror : Z -> cstr) hostname pwd sl (Q : strlist -> world E -> Prop) w :
  holds sl [] -> good w -> Forall (fun s => Zlen s < HEAP_HI) (env_defaults hostname pwd) ->
  (forall sl' w', good w' -> holds sl' (foldl env_add [] (env_defaults hostname pwd)) -> Q sl' w') ->
  wp (env ← insertOrReplaceEnv strerror sl (cs "TERM") DEFAULT_TERM;
      env ← insertOrReplaceEnv strerror env (cs "HOME") (match pwd with Some p => pw_dir p | None => cs "/" end);
      env ← insertOrReplaceEnv strerror env (cs "PATH") DEFAULT_PATH;
      match hostname with Some h => insertOrReplaceEnv strerror env (cs "HOSTNAME") h | None => mret env end) Q w.
Proof.
  intros Hsl Hg Hshort HQ. unfold env_defaults in *. set (home := match pwd with Some p => pw_dir p | None => cs "/" end) in *.
  apply Forall_cons_1 in Hshort as [_ Hshort]. apply Forall_cons_1 in Hshort as [Hhome Hshort].
  apply Forall_cons_1 in Hshort as [_ Hhost].
  assert (Hpath : Zlen (env_entry (cs "PATH") DEFAULT_PATH) < HEAP_HI) by by vm_compute.
  assert (Hterm : Zlen (env_entry (cs "TERM") DEFAULT_TERM) < HEAP_HI) by by vm_compute.
  apply wp_bind. eapply insert_spec; [done|done|by vm_compute|done|]. intros sl1 w1 [Hg1 _] Hsl1.
  apply wp_bind. eapply insert_spec; [done|done|by vm_compute|done|]. intros sl2 w2 [Hg2 _] Hsl2.
  apply wp_bind. eapply insert_spec; [done|done| |done|]; [by vm_compute|]. intros sl3 w3 [Hg3 _] Hsl3.
  rewrite foldl_app in HQ. destruct hostname as [h|].
  - apply Forall_cons_1 in Hhost as [Hh _]. eapply insert_spec; [done|done|by vm_compute|done|].
    intros sl4 w4 [Hg4 _] Hsl4. by apply HQ.
  - by apply wp_ret, HQ.
Qed.

(** The entries [buildCmdEnv] collects, in order. *)
Definition cmd_env (hostname : option cstr) (pwd : option passwd) (link env : list cstr) : list cstr :=
  foldl env_add [] (env_defaults hostname pwd ++ link ++ env).

Lemma buildCmdEnv_spec {E} `{Metadata E} `{NvlistLaws E} `{DM : DataModel} (strerror : Z -> cstr)
    (table : cstr -> option cstr) `{!MetadataServes E table} (hostname : option cstr) (pwd : option passwd)
    (link env : list cstr) (sl : strlist) (w : world E) :
  array_of table (cs "docker:linkEnv") link -> array_of table (cs "docker:env") env ->
  Forall (fun s => Zlen s < HEAP_HI) (env_defaults hostname pwd) -> Zlen link + Zlen env <= LIST_MAX - 4 ->
  holds sl [] -> good w ->
  wp (buildCmdEnv strerror hostname pwd sl) (fun '(r, sl') w' => good w' /\ r = 0 /\ holds sl' (cmd_env hostname pwd link env)) w.
Proof.
  intros Hlink Henv Hdef Hmax Hsl Hg. pose proof (Zlen_nonneg link). pose proof (Zlen_nonneg env).
  set (d := env_defaults hostname pwd) in *.
  assert (Hd : (length d <= 4)%nat) by (subst d; unfold env_defaults; destruct hostname; cbn; lia).
  pose proof (fold_add_length d []) as Hl1. pose proof (fold_add_length link (foldl env_add [] d)) as Hl2. cbn [length] in Hl1.
  unfold Zlen, LIST_MAX in *.
  assert (Hassoc : buildCmdEnv strerror hostname pwd sl w = (env ← (
      env ← insertOrReplaceEnv strerror sl (cs "TERM") DEFAULT_TERM;
      env ← insertOrReplaceEnv strerror env (cs "HOME") (match pwd with Some p => pw_dir p | None => cs "/" end);
      env ← insertOrReplaceEnv strerror env (cs "PATH") DEFAULT_PATH;
      match hostname with Some h => insertOrReplaceEnv strerror env (cs "HOSTNAME") h | None => mret env end);
      env ← add_array strerror env (cs "docker:linkEnv"); env ← add_array strerror env (cs "docker:env");
      log_env (list_fuel env) env 0 ;; mret (0, env)) w).
  { unfold buildCmdEnv, mbind, C_bind. by repeat case_match; simplify_eq. }
  unfold wp. rewrite Hassoc. apply wp_bind. eapply env_defaults_spec; [done|done|done|]. intros sl1 w1 Hg1 Hsl1. fold d in Hsl1.
  apply wp_bind. eapply (add_array_spec strerror table); [exact Hlink|done|unfold LIST_MAX, Zlen; lia|done|]. intros sl2 w2 Hg2 Hsl2.
  apply wp_bind. eapply (add_array_spec strerror table); [exact Henv|done|unfold LIST_MAX, Zlen; lia|done|]. intros sl3 w3 Hg3 Hsl3.
  rewrite <-!foldl_app in Hsl3. apply wp_bind. pose proof (holds_length _ _ Hsl3) as [Hlen _].
  eapply (log_env_spec _ _ _ 0); [exact Hsl3|done|lia|lia|]. intros w4 Hg4. apply wp_ret. split; [done|]. split; [done|].
  unfold cmd_env. fold d. exact Hsl3.
Qed.

(** C6: the environment of a container: its entries have distinct names, and the value of each
    variable is the last one assigned, where the defaults for TERM, HOME, PATH and HOSTNAME come
    first, the variables of the links next and those of the container last. *)
Theorem buildCmdEnv_last_wins {E} `{Metadata E} `{NvlistLaws E} `{DM : DataModel} (strerror : Z -> cstr)
    (table : cstr -> option cstr) `{!MetadataServes E table} (hostname : option cstr) (pwd : option passwd)
    (link env : list cstr) (sl : strlist) (w : world E) :
  array_of table (cs "docker:linkEnv") link -> array_of table (cs "docker:env") env ->
  Forall (fun s => Zlen s < HEAP_HI) (env_defaults hostname pwd) -> Zlen link + Zlen env <= LIST_MAX - 4 ->
  holds sl [] -> good w ->
  wp (buildCmdEnv strerror hostname pwd sl) (fun '(r, sl') _ => r = 0 /\ exists l, holds sl' l /\ env_ok l /\
    forall n, env_get n l = env_last n (env_defaults hostname pwd ++ link ++ env)) w.
Proof.
  intros Hlink Henv Hdef Hmax Hsl Hg. eapply wp_mono; [by apply (buildCmdEnv_spec strerror table hostname pwd link env)|].
  intros [r sl'] w' (_ & -> & Hsl'). split; [done|]. eexists. split; [exact Hsl'|]. split; [apply env_fold_ok; split; constructor|].
  intros n. unfold cmd_env. rewrite env_fold_get. by destruct (env_last n _).
Qed.

(** ** Witnesses *)

(** An agent that answers from a table. *)
Definition table_metadata (table : cstr -> option cstr) (E : Type) : Metadata E := {|
  mdataGet := fun key => mret (table key);
  mdataPut := fun _ _ => mret tt;
  mdataDelete := fun _ => mret tt
|}.

Definition table_serves (table : cstr -> option cstr) (E : Type) : @MetadataServes E (table_metadata table E) table :=
  fun key w Hg => conj Hg eq_refl.

Definition sample_table (key : cstr) : option cstr :=
  if decide (key = cs "docker:entrypoint") then Some (print_json (string_array [cs "/bin/sh"; cs "-c"]))
  else if decide (key = cs "docker:cmd") then Some (print_json (string_array [cs "echo $A"]))
  else if decide (key = cs "docker:env") then Some (print_json (string_array [cs "A=2"; cs "HOME=/root"; cs "junk"]))
  else if decide (key = cs "docker:linkEnv") then Some (print_json (string_array [cs "A=1"; cs "DB=tcp"]))
  else None.

Ltac sample_array := split; [by vm_compute|split; [by vm_compute|repeat constructor; first [by_decide|by vm_compute]]].

Lemma strlist_0_holds : holds strlist_0 [].
Proof. split; [apply strlist_0_rep|]. split; [by vm_compute|constructor]. Qed.

Lemma buildCmdline_meaning_witness :
  halts (@buildCmdline _ (table_metadata sample_table _) nv_store LP64 (fun _ => []) strlist_0)
    (fun '(r, cmdline') _ => [cs "/bin/sh"; cs "-c"] ++ [cs "echo $A"] <> [] /\ r = 0 /\
       holds cmdline' ([cs "/bin/sh"; cs "-c"] ++ [cs "echo $A"]))
    (fun status => [cs "/bin/sh"; cs "-c"] ++ [cs "echo $A"] = [] /\ status = err_code ERR_NO_COMMAND) sample_world.
Proof.
  apply (@buildCmdline_meaning _ (table_metadata sample_table _) nv_store nv_store_laws LP64 (fun _ => []) sample_table
    (table_serves sample_table _) [cs "/bin/sh"; cs "-c"] [cs "echo $A"] strlist_0 sample_world).
  - sample_array.
  - sample_array.
  - by vm_compute.
  - apply strlist_0_holds.
  - apply sample_good.
Defined.

Lemma buildCmdEnv_last_wins_witness :
  wp (@buildCmdEnv _ (table_metadata sample_table _) nv_store LP64 (fun _ => []) (Some (cs "web")) None strlist_0)
    (fun '(r, sl') _ => r = 0 /\ exists l, holds sl' l /\ env_ok l /\
      forall n, env_get n l = env_last n (env_defaults (Some (cs "web")) None ++ [cs "A=1"; cs "DB=tcp"] ++ [cs "A=2"; cs "HOME=/root"; cs "junk"]))
    sample_world.
Proof.
  apply (@buildCmdEnv_last_wins _ (table_metadata sample_table _) nv_store nv_store_laws LP64 (fun _ => []) sample_table
    (table_serves sample_table _) (Some (cs "web")) None [cs "A=1"; cs "DB=tcp"] [cs "A=2"; cs "HOME=/root"; cs "junk"] strlist_0 sample_world).
  - sample_array.
  - sample_array.
  - by repeat constructor.
  - by vm_compute.
  - apply strlist_0_holds.
  - apply sample_good.
Defined.
