(* ===== verification/DockerExec.v ===== *)
(** * DockerExec: the executable, the user and the credentials of a container

    The search of the PATH, against the list of its directories; and the user and the group
    [docker:user] names. *)
From Stdlib Require Import Lia.
From S2P Require Import Prelude Custr Strpath Strlist Cnum Strset Sys Mdata Nvlist Docker DockerEnv.

(** ** Specifications *)

(** The directory a field of PATH stands for: relative to the working directory unless it begins
    with a slash. *)
Definition qualified (f : cstr) : bool := Ascii.eqb (hd NUL f) SLASH.
Definition search_dir (wd f : cstr) : cstr :=
  let d := if qualified f then [SLASH] else path_join [SLASH] wd in
  match f with [] => d | _ => path_join d f end.
Definition path_dirs (wd p : cstr) : list cstr := search_dir wd <$> split_fields ":"%char p.

(** A file that can be run, given the mode of each file. *)
Definition usable (look : cstr -> option Z) (p : cstr) : bool :=
  match look p with Some m => negb (S_ISDIR m) && negb (Z.land m S_IXUSR =? 0) | None => false end.

Definition candidate (cmd d : cstr) : cstr := path_join (path_join [] d) cmd.

Fixpoint first_usable (look : cstr -> option Z) (cmd : cstr) (dirs : list cstr) : option cstr :=
  match dirs with
  | [] => None
  | d :: dirs => if usable look (candidate cmd d) then Some (candidate cmd d) else first_usable look cmd dirs
  end.

(** The executable of a command, or why there is none. *)
Definition exec_target (look : cstr -> option Z) (env : list cstr) (wd cmd : cstr) : cstr + dockerinit_err :=
  if decide (SLASH ∈ cmd) then
    match look cmd with
    | None => inr ERR_STAT_CMD
    | Some m => if S_ISDIR m then inr ERR_STAT_DIR
                else if Z.land m S_IXUSR =? 0 then inr ERR_STAT_EXEC else inl (path_join [] cmd)
    end
  else match first_usable look cmd (path_dirs wd (default DEFAULT_PATH (env_get (cs "PATH") env))) with
       | Some p => inl p
       | None => inr ERR_NOT_FOUND
       end.

Example exec_target_ex :
  exec_target (fun p => if decide (p = cs "/work/bin/ls") then Some 33261 else None) [cs "PATH=/usr/bin:bin::/sbin"] (cs "/work") (cs "ls")
  = inl (cs "/work/bin/ls").
Proof. by vm_compute. Qed.

(** ** Paths *)

Lemma copied_length b s : Zlen (copied b s) <= Zlen s + 1.
Proof.
  assert (H : Zlen (copied false s) <= Zlen s /\ Zlen (copied true s) <= Zlen s + 1).
  { induction s as [|c s [IH1 IH2]]; cbn [copied]; [split; by vm_compute|].
    destruct (Ascii.eqb c SLASH); [split; zlen|]. cbn [app]. split; zlen. }
  destruct b; lia.
Qed.

Lemma skip_slashes_length s : Zlen (skip_slashes s) <= Zlen s.
Proof. induction s as [|c s IH]; cbn [skip_slashes]; [done|]. destruct (Ascii.eqb c SLASH); zlen. Qed.

Lemma path_join_length t s : Zlen (path_join t s) <= Zlen t + Zlen s + 2.
Proof.
  unfold path_join. rewrite <-copied_skip. pose proof (copied_length false (skip_slashes s)). pose proof (skip_slashes_length s).
  assert (Zlen (path_base t s) <= Zlen t + 1) by (unfold path_base; repeat case_match; zlen). rewrite Zlen_app. lia.
Qed.

Lemma copied_cstr b s : is_cstr s -> is_cstr (copied b s).
Proof.
  unfold is_cstr. revert b. induction s as [|c s IH]; intros b Hs; cbn [copied]; [done|].
  apply not_elem_of_cons in Hs as [Hc Hs]. destruct (Ascii.eqb c SLASH); [by apply IH|].
  rewrite not_elem_of_app, not_elem_of_cons. split; [destruct b; by_decide|]. split; [done|by apply IH].
Qed.

Lemma skip_slashes_cstr s : is_cstr s -> is_cstr (skip_slashes s).
Proof.
  unfold is_cstr. induction s as [|c s IH]; intros Hs; cbn [skip_slashes]; [done|].
  destruct (Ascii.eqb c SLASH); [|done]. apply not_elem_of_cons in Hs as [_ Hs]. by apply IH.
Qed.

Lemma path_join_cstr t s : is_cstr t -> is_cstr s -> is_cstr (path_join t s).
Proof.
  intros Ht Hs. unfold path_join. rewrite <-copied_skip. unfold is_cstr. rewrite not_elem_of_app. split.
  - unfold path_base. destruct (list.last t).
    + case_match; [done|]. rewrite not_elem_of_app. split; [done|by_decide].
    + destruct s as [|c s]; [by_decide|]. case_match; by_decide.
  - by apply copied_cstr, skip_slashes_cstr.
Qed.

Lemma search_dir_facts wd f : is_cstr wd -> is_cstr f ->
  is_cstr (search_dir wd f) /\ Zlen (search_dir wd f) <= Zlen wd + Zlen f + 5.
Proof.
  intros Hwd Hf. unfold search_dir. set (d := if qualified f then [SLASH] else path_join [SLASH] wd).
  assert (is_cstr d /\ Zlen d <= Zlen wd + 3) as [Hd Hl].
  { subst d. pose proof (Zlen_nonneg wd). destruct (qualified f); [split; [by_decide|change (Zlen [SLASH]) with 1; lia]|].
    split; [apply path_join_cstr; [by_decide|done]|]. pose proof (path_join_length [SLASH] wd). change (Zlen [SLASH]) with 1 in *. lia. }
  pose proof (Zlen_nonneg f). destruct f as [|c f]; [split; [done|lia]|]. split; [by apply path_join_cstr|].
  pose proof (path_join_length d (c :: f)). lia.
Qed.

(** ** The functions *)

Definition TEXT_MAX : Z := 1000000.

(** Sizes the lemmas below do not look into. *)
Ltac text_lia := unfold TEXT_MAX, LIST_MAX, CUSTR_MAX, HEAP_HI, UINT_MAX in *; zlen.

Section facts.
Context {E : Type} `{K : Kernel E} `{DM : DataModel} (strerror : Z -> cstr).
Implicit Types (w : world E).

(** A dynamic string and its text. *)
Definition text_is (cu : custr) (t : list char) : Prop := custr_rep cu t /\ cus_flags cu = 0.

Lemma text_empty : text_is (Custr 0 0 None 0) [].
Proof. split; [apply custr_rep_empty|done]. Qed.

Lemma text_reset cu t (Q : custr -> world E -> Prop) w :
  text_is cu t -> (forall cu', text_is cu' [] -> Q cu' w) -> wp (custr_reset cu) Q w.
Proof. intros [Hrep Hfl] HQ. eapply custr_reset_spec; [done|]. intros cu' ????. apply HQ. split; [done|congruence]. Qed.

Lemma text_cstr cu t (Q : cstr -> world E -> Prop) w : text_is cu t -> is_cstr t -> Q t w -> wp (custr_cstr cu) Q w.
Proof. intros [Hrep _] Ht HQ. eapply custr_cstr_spec; [done|]. by rewrite c_text_id. Qed.

Lemma text_appendc cu t c (Q : Z * custr -> world E -> Prop) w :
  text_is cu t -> good w -> Zlen t + 2 <= CUSTR_MAX ->
  (forall cu' w', keeps w w' -> text_is cu' (t ++ [c]) -> Q (0, cu') w') -> wp (custr_appendc cu c) Q w.
Proof.
  intros [Hrep Hfl] [Hlow Htot] Hmax HQ. eapply wp_mono; [by apply (custr_appendc_extend cu t c w)|].
  intros [r cu'] w' (Hw' & Hfl' & [[Hr Hrep']|(_ & Hnt & _)]); [|done]. cbn in Hr, Hrep', Hfl'. subst r.
  apply HQ; [by apply keeps_frame|by split].
Qed.

Lemma text_path cu t s (Q : Z * custr -> world E -> Prop) w :
  text_is cu t -> good w -> Zlen t + 2 * Zlen s + 4 <= CUSTR_MAX ->
  (forall cu' w', keeps w w' -> text_is cu' (path_join t s) -> Q (0, cu') w') -> wp (strpath_append cu s) Q w.
Proof.
  intros [Hrep Hfl] [Hlow Htot] Hmax HQ. eapply wp_mono; [by apply (strpath_append_spec cu t s w)|].
  intros [r cu'] w' (Hw' & Hfl' & [[Hr Hrep']|(_ & Hnt & _)]); [|done]. cbn in Hr, Hrep', Hfl'. subst r.
  apply HQ; [by apply keeps_frame|by split].
Qed.

Lemma append_or_spec {A} err cu t s (k : custr -> C E A) (Q : A -> world E -> Prop) w :
  text_is cu t -> good w -> Zlen t + 2 * Zlen s + 4 <= CUSTR_MAX ->
  (forall cu' w', keeps w w' -> text_is cu' (path_join t s) -> wp (k cu') Q w') -> wp (append_or err cu s k) Q w.
Proof. intros Ht Hg Hmax HQ. unfold append_or. apply wp_bind. eapply text_path; [done|done|done|]. intros cu' w' ??. by apply HQ. Qed.

Lemma text_len cu t : text_is cu t -> custr_len cu = Zlen t.
Proof. intros [Hrep _]. by apply custr_rep_len. Qed.

(** The field of PATH that has been collected becomes a directory of the list. *)
Lemma store_dir_spec cu f sd t path l wd (Q : custr * custr * strlist -> world E -> Prop) w :
  text_is cu f -> text_is sd t -> holds path l -> is_cstr f -> is_cstr wd ->
  Zlen f <= TEXT_MAX -> Zlen wd <= TEXT_MAX -> Zlen l <= LIST_MAX -> good w ->
  (forall cu' sd' path' w', keeps w w' -> text_is cu' [] -> text_is sd' (search_dir wd f) ->
     holds path' (l ++ [search_dir wd f]) -> Q (cu', sd', path') w') ->
  wp (store_dir cu sd path wd) Q w.
Proof.
  intros Hcu Hsd Hpath Hf Hwd Hlf Hlwd Hl Hg HQ. unfold store_dir. pose proof (Zlen_nonneg f). pose proof (Zlen_nonneg wd).
  pose proof (search_dir_facts wd f Hwd Hf) as [Hcs Hlen].
  apply wp_bind. eapply text_reset; [done|]. intros sd1 Hsd1. eapply append_or_spec; [done|done|by vm_compute|].
  change (path_join [] (cs "/")) with [SLASH]. intros sd2 w2 Hw2 Hsd2. pose proof Hw2 as [Hg2 _].
  rewrite (text_len _ _ Hcu). apply wp_bind. eapply (wp_mono _ (fun b w' => b = qualified f /\ w' = w2)).
  { destruct (Z.ltb_spec (Zlen f) 1); [by destruct f; [|rewrite Zlen_cons in *; pose proof (Zlen_nonneg f); lia]|].
    apply wp_bind. by eapply text_cstr. }
  intros b w' [-> ->]. apply wp_bind. set (d := if qualified f then [SLASH] else path_join [SLASH] wd).
  eapply (wp_mono _ (fun '(r, sd') w' => r = 0 /\ keeps w2 w' /\ text_is sd' d)).
  { subst d. destruct (qualified f); [by apply wp_ret|]. eapply text_path; [done|done|change (Zlen [SLASH]) with 1; text_lia|].
    intros sd' w' ??. by split_and!. }
  intros [r sd3] w3 (-> & Hw3 & Hsd3). change (negb (0 =? 0)) with false. cbn beta iota. pose proof Hw3 as [Hg3 _].
  assert (Hd : Zlen d <= TEXT_MAX + 3).
  { subst d. destruct (qualified f); [change (Zlen [SLASH]) with 1; lia|]. pose proof (path_join_length [SLASH] wd).
    change (Zlen [SLASH]) with 1 in *. lia. }
  apply wp_bind. eapply (wp_mono _ (fun '(r, sd') w' => r = 0 /\ keeps w3 w' /\ text_is sd' (search_dir wd f))).
  { unfold search_dir. fold d. destruct f as [|c f']; [by apply wp_ret|]. rewrite (proj2 (Z.ltb_lt 0 (Zlen (c :: f')))) by zlen.
    apply wp_bind. eapply text_cstr; [done|done|]. eapply text_path; [done|done|text_lia|]. intros sd' w' ??. by split_and!. }
  intros [r sd4] w4 (-> & Hw4 & Hsd4). change (negb (0 =? 0)) with false. cbn beta iota. pose proof Hw4 as [Hg4 _].
  apply wp_bind. eapply text_reset; [done|]. intros cu5 Hcu5. apply wp_bind. eapply text_cstr; [done|done|]. apply wp_bind.
  eapply holds_tail; [done|done|done|text_lia|]. intros path' w5 Hw5 Hpath'. apply wp_ret. eapply HQ; [|done|done|done].
  by do 3 (eapply keeps_trans; [done|]).
Qed.

Lemma path_loop_spec r f cu sd t path l wd (Q : strlist -> world E -> Prop) w :
  text_is cu f -> text_is sd t -> holds path l -> ":"%char ∉ f -> is_cstr f -> is_cstr r -> is_cstr wd ->
  Zlen f + Zlen r <= TEXT_MAX -> Zlen wd <= TEXT_MAX -> Zlen l + Zlen r < LIST_MAX -> good w ->
  (forall path' w', keeps w w' -> holds path' (l ++ path_dirs wd (f ++ r)) -> Q path' w') ->
  wp (path_loop r cu sd path wd) Q w.
Proof.
  revert f cu sd t path l w. induction r as [|c r IH]; intros f cu sd t path l w Hcu Hsd Hpath Hcol Hf Hr Hwd Hlf Hlwd Hl Hg HQ;
    cbn [path_loop].
  - apply wp_bind. rewrite Zlen_nil in *. eapply store_dir_spec; [done|done|done|done|done|lia|done|lia|done|].
    intros cu' sd' path' w' Hw' _ _ Hpath'. apply wp_ret, HQ; [done|].
    rewrite app_nil_r. unfold path_dirs. by rewrite split_fields_free.
  - rewrite Zlen_cons in *. pose proof (Zlen_nonneg r). pose proof (Zlen_nonneg l). apply not_elem_of_cons in Hr as [Hc Hr].
    destruct (Ascii.eqb_spec c ":"%char) as [->|Hne]; cbn [negb].
    + apply wp_bind. eapply store_dir_spec; [done|done|done|done|done|lia|done|lia|done|].
      intros cu' sd' path' w' Hw' Hcu' Hsd' Hpath'. pose proof Hw' as [Hg' _].
      eapply (IH []); [done|done|done|apply not_elem_of_nil|apply is_cstr_nil|done|done|rewrite Zlen_nil; pose proof (Zlen_nonneg f); lia|done| |done|].
      { rewrite Zlen_app. change (Zlen [search_dir wd f]) with 1. lia. }
      intros path2 w2 Hw2 Hpath2. apply HQ; [by eapply keeps_trans|]. unfold path_dirs in *.
      rewrite split_fields_app by done. cbn [fmap list_fmap app] in *. by rewrite <-app_assoc in Hpath2.
    + apply wp_bind. eapply text_appendc; [done|done|text_lia|]. intros cu' w' Hw' Hcu'. pose proof Hw' as [Hg' _].
      change (negb (0 =? 0)) with false. cbn beta iota.
      eapply (IH (f ++ [c])); [done|done|done| | |done|done|rewrite Zlen_app; change (Zlen [c]) with 1; lia|done|lia|done|].
      * rewrite not_elem_of_app, list_elem_of_singleton. split; [done|congruence].
      * unfold is_cstr. rewrite not_elem_of_app, list_elem_of_singleton. split; [done|congruence].
      * intros path2 w2 Hw2 Hpath2. apply HQ; [by eapply keeps_trans|]. by rewrite <-app_assoc in Hpath2.
Qed.

Lemma find_path_spec fuel sl l (i : nat) (Q : option cstr -> world E -> Prop) w :
  holds sl l -> good w -> (length l - i < fuel)%nat -> (i <= length l)%nat ->
  (forall w', keeps w w' -> Q (env_get (cs "PATH") (drop i l)) w') -> wp (find_path strerror fuel sl (Z.of_nat i)) Q w.
Proof.
  revert i w. induction fuel as [|fuel IH]; intros i w Hsl Hg Hf Hi HQ; [lia|]. cbn [find_path].
  pose proof (holds_length _ _ Hsl) as [_ Hmax]. unfold Zlen, UINT_MAX in Hmax. apply wp_bind, (holds_get _ l); [done|].
  destruct (l !! i) as [s|] eqn:Hs.
  - erewrite drop_S in HQ by done. cbn [env_get] in HQ. apply lookup_lt_Some in Hs as Hlt.
    apply wp_bind, split_spec; [done|destruct Hsl as (_ & _ & Hl); by eapply (Forall_lookup_1 _ _ _ _ Hl)|].
    intros w1 Hw1. pose proof Hw1 as [Hg1 _].
    assert (Hnext : (forall w', keeps w w' -> Q (env_get (cs "PATH") (drop (S i) l)) w') ->
      wp (find_path strerror fuel sl (u32 (Z.of_nat i + 1))) Q w1).
    { intros HQ1. rewrite u32_small by (unfold UINT_MAX; lia). replace (Z.of_nat i + 1) with (Z.of_nat (S i)) by lia.
      apply IH; [done|done|lia|lia|]. intros w2 Hw2. apply HQ1. by eapply keeps_trans. }
    destruct (env_parts s) as [[n v]|]; [|by apply Hnext].
    destruct (Z.eqb_spec (strcmp n (cs "PATH")) 0) as [Heq|Hne]; cbn [negb].
    + apply strcmp_eq in Heq as ->. rewrite decide_True in HQ by done. by apply wp_ret, HQ.
    + rewrite decide_False in HQ; [by apply Hnext|]. intros ->. apply Hne. by apply strcmp_eq.
  - apply wp_ret. apply lookup_ge_None in Hs. rewrite drop_ge in HQ by lia. by apply HQ.
Qed.

(** The PATH of an environment, within the sizes the lemmas speak of. *)
Definition path_of (env : list cstr) : cstr := default DEFAULT_PATH (env_get (cs "PATH") env).
Definition path_ok (env : list cstr) (wd : cstr) : Prop :=
  is_cstr (path_of env) /\ Zlen (path_of env) <= TEXT_MAX /\ is_cstr wd /\ Zlen wd <= TEXT_MAX.

Lemma alloc_or_spec (k : custr -> C E (Z * strlist)) (Q : Z * strlist -> world E -> Prop) w :
  good w -> (forall cu w', keeps w w' -> text_is cu [] -> wp (k cu) Q w') -> wp (alloc_or k) Q w.
Proof.
  intros [Hlow Htot] HQ. unfold alloc_or. apply wp_bind. apply custr_alloc_spec; [done| |by intros].
  intros w1 Hw1. apply HQ; [by apply keeps_frame|apply text_empty].
Qed.

Lemma getPathList_spec sl l path wd (Q : Z * strlist -> world E -> Prop) w :
  holds sl l -> path_ok l wd -> holds path [] -> good w ->
  (forall path' w', keeps w w' -> holds path' (path_dirs wd (path_of l)) -> Q (0, path') w') ->
  wp (getPathList strerror sl path wd) Q w.
Proof.
  intros Hsl (Hp & Hlp & Hwd & Hlwd) Hpath Hg HQ. unfold getPathList. pose proof (holds_length _ _ Hsl) as [Hlen _].
  apply alloc_or_spec; [done|]. intros cu w1 Hw1 Hcu. apply alloc_or_spec; [by destruct Hw1|]. intros sd w2 Hw2 Hsd.
  apply wp_bind. apply (find_path_spec _ sl l 0); [done|by destruct Hw2|lia|lia|]. intros w3 Hw3. change (drop 0 l) with l. fold (path_of l).
  apply wp_bind. eapply (path_loop_spec _ []); [done|done|done|apply not_elem_of_nil|apply is_cstr_nil|done|done|rewrite Zlen_nil; lia|done| |by destruct Hw3|].
  { rewrite Zlen_nil. unfold TEXT_MAX, LIST_MAX in *. lia. }
  intros path' w4 Hw4 Hpath'. apply wp_ret, HQ; [|done]. by do 3 (eapply keeps_trans; [done|]).
Qed.

(** The files: [stat] gives their modes and changes nothing. *)
Definition files (look : cstr -> option Z) : Prop := forall e p, exists er,
  sys_step "stat" [AS p] e = (match look p with Some m => SysRet 0 0 [] [m] | None => SysRet (-1) er [] [] end, e).

Lemma stat_spec look p (Q : Z * Z -> world E -> Prop) w :
  files look -> good w ->
  (forall w', keeps w w' -> Q (match look p with Some m => (0, m) | None => (-1, 0) end) w') -> wp (stat p) Q w.
Proof.
  intros Hfiles Hg HQ. destruct (Hfiles (w_env w) p) as [er Hs]. unfold stat. apply wp_bind.
  eapply wp_syscall; [exact Hs|]. apply wp_ret. destruct (look p); by apply HQ.
Qed.

Lemma try_paths_spec look fuel path dirs cmd cu t (i : nat) (Q : bool * custr -> world E -> Prop) w :
  files look -> holds path dirs -> Forall (fun d => is_cstr d /\ Zlen d <= 3 * TEXT_MAX) dirs -> is_cstr cmd -> Zlen cmd <= TEXT_MAX ->
  text_is cu t -> good w -> (length dirs - i < fuel)%nat -> (i <= length dirs)%nat ->
  (forall ok cu' w', keeps w w' -> match first_usable look cmd (drop i dirs) with
     | Some p => ok = true /\ text_is cu' p | None => ok = false end -> Q (ok, cu') w') ->
  wp (try_paths fuel cmd path (Z.of_nat i) cu) Q w.
Proof.
  intros Hfiles Hpath Hdirs Hcmd Hlcmd. revert i cu t w. induction fuel as [|fuel IH]; intros i cu t w Hcu Hg Hf Hi HQ; [lia|].
  cbn [try_paths]. pose proof (holds_length _ _ Hpath) as [_ Hmax]. unfold Zlen at 1 in Hmax.
  apply wp_bind, (holds_get _ dirs); [done|]. destruct (dirs !! i) as [d|] eqn:Hd.
  - erewrite drop_S in HQ by done. cbn [first_usable] in HQ. apply lookup_lt_Some in Hd as Hlt.
    destruct (Forall_lookup_1 _ _ _ _ Hdirs Hd) as [Hdc Hdl]. pose proof (path_join_length [] d) as Hjl. rewrite Zlen_nil in Hjl.
    apply wp_bind. eapply text_reset; [done|]. intros cu1 Hcu1.
    eapply append_or_spec; [done|done|rewrite Zlen_nil; text_lia|]. intros cu2 w2 Hw2 Hcu2.
    eapply append_or_spec; [done|by destruct Hw2|text_lia|]. intros cu3 w3 Hw3 Hcu3. fold (candidate cmd d) in *.
    apply wp_bind. eapply text_cstr; [done|by apply path_join_cstr, Hcmd; apply path_join_cstr; [apply is_cstr_nil|]|].
    apply wp_bind, dlog_spec; [by destruct Hw3|]. intros w4 Hw4. apply wp_bind. eapply stat_spec; [done|by destruct Hw4|].
    intros w5 Hw5. assert (Hkeep : keeps w w5) by (by do 3 (eapply keeps_trans; [done|])).
    assert (Hnext : (forall ok cu' w', keeps w w' -> match first_usable look cmd (drop (S i) dirs) with
       | Some p => ok = true /\ text_is cu' p | None => ok = false end -> Q (ok, cu') w') ->
      wp (try_paths fuel cmd path (u32 (Z.of_nat i + 1)) cu3) Q w5).
    { intros HQ1. rewrite u32_small by (unfold UINT_MAX in *; lia). replace (Z.of_nat i + 1) with (Z.of_nat (S i)) by lia.
      eapply IH; [done|by destruct Hkeep|lia|lia|]. intros ok cu' w' Hw'. apply HQ1. by eapply keeps_trans. }
    unfold usable in HQ. destruct (look _) as [m|]; [|by apply Hnext]. change (negb (0 =? 0)) with false. cbn [orb].
    destruct (S_ISDIR m); [by apply Hnext|]. destruct (Z.land m S_IXUSR =? 0); [by apply Hnext|]. apply wp_ret, HQ; [done|by split].
  - apply wp_ret. apply lookup_ge_None in Hd. rewrite drop_ge in HQ by lia. by apply HQ.
Qed.
End facts.

(** ** The executable *)

Lemma path_dirs_ok wd env : path_ok env wd ->
  Forall (fun d => is_cstr d /\ Zlen d <= 3 * TEXT_MAX) (path_dirs wd (path_of env)).
Proof.
  intros (Hp & Hlp & Hwd & Hlwd). unfold path_dirs. apply Forall_fmap, list.Forall_forall. intros f Hf.
  apply split_fields_sub in Hf as [Hlf Hin]. cbn. destruct (search_dir_facts wd f Hwd) as [Hc Hl].
  - intros Hn. apply Hp, Hin, Hn.
  - split; [done|]. unfold TEXT_MAX in *. lia.
Qed.

Section commands.
Context {E : Type} `{K : Kernel E} `{DM : DataModel} (strerror : Z -> cstr) (look : cstr -> option Z) (w : world E).

(** A command with a slash. *)
Lemma direct_command cmd cu w1 :
  files look -> is_cstr cmd -> Zlen cmd <= TEXT_MAX -> keeps w w1 -> text_is cu [] ->
  halts ('(r, mode) ← stat cmd;
         if negb (r =? 0) then e ← get_errno; fatal ERR_STAT_CMD (cs "stat(" ++ cmd ++ cs "): " ++ strerror e)
         else if S_ISDIR mode then fatal ERR_STAT_DIR (cs "stat(" ++ cmd ++ cs "): is a directory")
         else if Z.land mode S_IXUSR =? 0 then fatal ERR_STAT_EXEC (cs "stat(" ++ cmd ++ cs "): is not executable")
         else cu ← custr_reset cu; append_or ERR_NO_MEMORY cu cmd mret)
    (fun cu w' => exists p, match look cmd with
       | None => inr ERR_STAT_CMD
       | Some m => if S_ISDIR m then inr ERR_STAT_DIR
                   else if Z.land m S_IXUSR =? 0 then inr ERR_STAT_EXEC else inl (path_join [] cmd)
       end = inl p /\ text_is cu p /\ w_env w' = w_env w)
    (fun status => exists err, match look cmd with
       | None => inr ERR_STAT_CMD
       | Some m => if S_ISDIR m then inr ERR_STAT_DIR
                   else if Z.land m S_IXUSR =? 0 then inr ERR_STAT_EXEC else inl (path_join [] cmd)
       end = inr err /\ status = err_code err) w1.
Proof.
  intros Hfiles Hcmd Hlcmd Hw1 Hcu. apply halts_bind.
  eapply (halts_wp _ (fun r w' => keeps w w' /\ r = match look cmd with Some m => (0, m) | None => (-1, 0) end)).
  { eapply stat_spec; [done|by destruct Hw1|]. intros w2 Hw2. split; [by eapply keeps_trans|done]. }
  intros r w2 [Hw2 ->]. destruct (look cmd) as [m|].
  2:{ apply halts_bind. change (halts (fatal ERR_STAT_CMD (cs "stat(" ++ cmd ++ cs "): " ++ strerror (w_errno w2)))
        (fun cu w' => exists p, inr ERR_STAT_CMD = inl p /\ text_is cu p /\ w_env w' = w_env w)
        (fun status => exists err, inr ERR_STAT_CMD = inr err :> cstr + dockerinit_err /\ status = err_code err) w2).
      apply halts_fatal; [done|]. by eexists. }
  change (negb (0 =? 0)) with false. cbn beta iota. destruct (S_ISDIR m); [apply halts_fatal; [done|by eexists]|].
  destruct (Z.land m S_IXUSR =? 0); [apply halts_fatal; [done|by eexists]|].
  eapply (halts_wp _ (fun cu' w' => keeps w w' /\ text_is cu' (path_join [] cmd))).
  - apply wp_bind. eapply text_reset; [done|]. intros cu1 Hcu1.
    eapply append_or_spec; [done|by destruct Hw2|rewrite Zlen_nil; text_lia|]. intros cu2 w3 Hw3 Hcu2. apply wp_ret.
    split; [by eapply keeps_trans|done].
  - intros cu' w' [[_ He] Hcu']. by eexists.
Qed.

(** A command that is looked for. *)
Lemma searched_command path dirs cmd cu w1 :
  files look -> is_cstr cmd -> Zlen cmd <= TEXT_MAX -> keeps w w1 -> text_is cu [] -> holds path dirs ->
  Forall (fun d => is_cstr d /\ Zlen d <= 3 * TEXT_MAX) dirs ->
  halts ('(ok, cu) ← try_paths (list_fuel path) cmd path 0 cu;
         if negb (ok : bool) then fatal ERR_NOT_FOUND (cs "'" ++ cmd ++ cs "' not found in PATH") else mret cu)
    (fun cu w' => exists p, match first_usable look cmd dirs with Some p => inl p | None => inr ERR_NOT_FOUND end = inl p /\
       text_is cu p /\ w_env w' = w_env w)
    (fun status => exists err, match first_usable look cmd dirs with Some p => inl p | None => inr ERR_NOT_FOUND end = inr err /\
       status = err_code err) w1.
Proof.
  intros Hfiles Hcmd Hlcmd Hw1 Hcu Hpath Hdirs. pose proof (holds_length _ _ Hpath) as [Hlen _]. apply halts_bind.
  eapply (halts_wp _ (fun '(ok, cu') w' => keeps w w' /\
    match first_usable look cmd dirs with Some p => ok = true /\ text_is cu' p | None => ok = false end)).
  { eapply (try_paths_spec look _ path dirs cmd cu [] 0); [done|done|done|done|done|done|by destruct Hw1|lia|lia|].
    intros ok cu' w2 Hw2 Hres. split; [by eapply keeps_trans|done]. }
  intros [ok cu'] w2 [[_ He] Hres]. destruct (first_usable look cmd dirs) as [p|].
  - destruct Hres as [-> Hcu']. by eexists.
  - rewrite Hres. apply halts_fatal; [done|by eexists].
Qed.
End commands.

Lemma execName_spec {E} `{K : Kernel E} `{DM : DataModel} (strerror : Z -> cstr) (look : cstr -> option Z)
    (env : list cstr) (sl : strlist) (wd cmd : cstr) (w : world E) :
  files look -> holds sl env -> path_ok env wd -> is_cstr cmd -> Zlen cmd <= TEXT_MAX -> good w ->
  halts (execName strerror cmd sl wd)
    (fun cu w' => exists p, exec_target look env wd cmd = inl p /\ text_is cu p /\ w_env w' = w_env w)
    (fun status => exists err, exec_target look env wd cmd = inr err /\ status = err_code err) w.
Proof.
  intros Hfiles Hsl Hok Hcmd Hlcmd Hg. unfold execName, exec_target. fold (path_of env). apply halts_bind.
  eapply (halts_wp _ (fun r w' => keeps w w' /\ exists path, r = (0, Some path) /\ holds path [])).
  { destruct Hg as [Hlow Htot]. apply alloc_spec; [done|unfold STRLIST_MAX; lia| |by intros].
    intros path w' Hw' Hrep Hcap. split; [by apply keeps_frame|]. eexists. split; [done|]. split; [done|].
    split; [rewrite Hcap; by vm_compute|constructor]. }
  intros r w1 (Hw1 & path & -> & Hpath). apply halts_bind.
  eapply (halts_wp _ (fun r w' => keeps w w' /\ exists cu, r = Some cu /\ text_is cu [])).
  { destruct Hw1 as [[Hlow1 Htot1] He1]. apply custr_alloc_spec; [done| |by intros]. intros w2 Hw2.
    split; [|by eexists; split; [|apply text_empty]]. eapply keeps_trans; [split; [split; [exact Hlow1|exact Htot1]|exact He1]|by apply keeps_frame]. }
  intros r w2 (Hw2 & cu & -> & Hcu). apply halts_bind. pose proof (path_dirs_ok wd env Hok) as Hdirs.
  eapply (halts_wp _ (fun r w' => keeps w w' /\ exists path', r = (0, path') /\ holds path' (path_dirs wd (path_of env)))).
  { eapply getPathList_spec; [done|done|done|by destruct Hw2|]. intros path' w3 Hw3 Hpath'.
    split; [by eapply keeps_trans|]. by exists path'. }
  intros r w3 (Hw3 & path' & -> & Hpath'). change (negb (0 =? 0)) with false. cbn beta iota. case_decide.
  - by apply direct_command.
  - by apply searched_command.
Qed.

(** C12: [execName] finds the executable of a command: a command with a slash is taken as it
    is and must be an executable file; any other is looked for in the directories of PATH (of
    the default PATH if the environment has none) in order, a relative or empty directory being
    taken from the working directory.  Each failure ends the process with its own status. *)
Theorem execName_finds {E} `{K : Kernel E} `{DM : DataModel} (strerror : Z -> cstr) (look : cstr -> option Z)
    (env : list cstr) (sl : strlist) (wd cmd : cstr) (w : world E) :
  files look -> holds sl env -> path_ok env wd -> is_cstr cmd -> Zlen cmd <= TEXT_MAX -> good w ->
  halts (execName strerror cmd sl wd)
    (fun cu w' => exists p, exec_target look env wd cmd = inl p /\ text_is cu p /\ w_env w' = w_env w)
    (fun status => exists err, exec_target look env wd cmd = inr err /\ status = err_code err) w.
Proof. apply execName_spec. Qed.

(** ** The user *)

(** A computation whose first part returns, whatever the rest does. *)
Lemma runs_bind {E A B} (m : C E A) (k : A -> C E B) (Phi : outcome (B * world E) -> Prop) w :
  wp m (fun a w' => Phi (k a w')) w -> Phi ((m ≫= k) w).
Proof. unfold wp, mbind, C_bind. destruct (m w) as [[a w']| | |]; done. Qed.

Lemma skip_delims_free d s c : hd c s <> d -> skip_delims d s = s.
Proof. destruct s as [|x s]; [done|]. intros H. cbn in *. by rewrite (proj2 (Ascii.eqb_neq x d)). Qed.

Lemma token_of_free d s : d ∉ s -> token_of d s = s.
Proof.
  induction s as [|c s IH]; intros Hd; [done|]. apply not_elem_of_cons in Hd as [Hc Hd]. cbn.
  rewrite (proj2 (Ascii.eqb_neq c d)) by congruence. by rewrite IH.
Qed.

Lemma token_of_app d s t : d ∉ s -> token_of d (s ++ d :: t) = s.
Proof.
  induction s as [|c s IH]; intros Hd; cbn; [by rewrite Ascii.eqb_refl|]. apply not_elem_of_cons in Hd as [Hc Hd].
  rewrite (proj2 (Ascii.eqb_neq c d)) by congruence. by rewrite IH.
Qed.

Lemma split_user_plain u : ":"%char ∉ u -> split_user u = (0, u, None).
Proof.
  intros Hu. unfold split_user, strtok. destruct u as [|c u]; [done|]. pose proof Hu as [Hc _]%not_elem_of_cons.
  rewrite (skip_delims_free _ (c :: u) NUL) by (cbn; congruence). rewrite token_of_free by done.
  rewrite Z.sub_diag, Z.add_0_l, Zlen_to_nat. rewrite take_ge by done. by rewrite lookup_ge_None_2.
Qed.

Lemma split_user_colon u g : u <> [] -> ":"%char ∉ u -> split_user (u ++ ":"%char :: g) = (0, u, Some g).
Proof.
  intros Hne Hu. unfold split_user, strtok. destruct u as [|c u]; [done|]. pose proof Hu as [Hc _]%not_elem_of_cons.
  rewrite (skip_delims_free _ ((c :: u) ++ _) NUL) by (cbn; congruence). change ((c :: u) ++ ":"%char :: g) with (c :: u ++ ":"%char :: g).
  cbn beta iota. change (c :: u ++ ":"%char :: g) with ((c :: u) ++ ":"%char :: g). rewrite token_of_app by done.
  rewrite Z.sub_diag, Zlen_to_nat, list_lookup_middle by done. rewrite Ascii.eqb_refl.
  by rewrite (cons_middle _ (c :: u) g), app_assoc, drop_app_length' by (rewrite length_app; cbn; lia).
Qed.

Lemma number_of_print n : 0 <= n <= UINT_MAX -> number_of (print_u n) = Some n.
Proof.
  intros Hn. unfold UINT_MAX in Hn. unfold number_of, strtoll, strto_signed.
  pose proof (scan_number_print 10 0 n [] ltac:(lia) ltac:(lia) ltac:(done)) as Hs. rewrite app_nil_r in Hs.
  change (pad0 0 (print_base 10 n)) with (print_u n) in Hs. rewrite Hs. cbn beta iota.
  rewrite (proj2 (Z.ltb_ge n _)), (proj2 (Z.ltb_ge _ n)) by (cbn; lia). cbn beta iota.
  by rewrite u32_small by (unfold UINT_MAX; lia).
Qed.

(** What names a user and a group: a name, or a number that is no name. *)
Inductive names_user `{Accounts} (s : cstr) (p : option passwd) : Prop :=
| user_by_name q : getpwnam s = Some q -> p = Some q -> names_user s p
| user_by_uid uid : s = print_u uid -> 0 <= uid <= UINT_MAX -> getpwnam s = None -> p = getpwuid uid -> names_user s p.

Inductive names_group `{Accounts} (s : cstr) (g : option group) : Prop :=
| group_by_name q : getgrnam s = Some q -> g = Some q -> names_group s g
| group_by_gid gid : s = print_u gid -> 0 <= gid <= UINT_MAX -> getgrnam s = None -> g = getgrgid gid -> names_group s g.

Section users.
Context {E : Type} `{MD : Metadata E} `{K : Kernel E} `{A : Accounts} `{DM : DataModel} (strerror : Z -> cstr).
Context (table : cstr -> option cstr) `{!MetadataServes E table}.
Implicit Types (w : world E).

Lemma find_user_spec s p (Q : option passwd -> world E -> Prop) w : names_user s p -> Q p w -> wp (find_user s) Q w.
Proof.
  intros [q Hq ->|uid -> Hu Hn ->] HQ; unfold find_user; [by rewrite Hq|]. rewrite Hn, number_of_print by done. done.
Qed.

Lemma find_group_spec g0 s g (Q : option group -> world E -> Prop) w : names_group s g -> Q g w -> wp (find_group g0 (Some s)) Q w.
Proof.
  intros [q Hq ->|gid -> Hu Hn ->] HQ; unfold find_group; [by rewrite Hq|]. rewrite Hn, number_of_print by done. done.
Qed.

Lemma log_user_spec p (Q : () -> world E -> Prop) w : good w -> (forall w', keeps w w' -> Q tt w') -> wp (log_user p) Q w.
Proof.
  intros Hg HQ. unfold log_user. destruct p as [p|]; [|by apply wp_ret, HQ].
  do 3 (apply wp_bind, wp_eprint). by apply wp_eprint, HQ.
Qed.

Lemma log_group_spec g (Q : () -> world E -> Prop) w : good w -> (forall w', keeps w w' -> Q tt w') -> wp (log_group g) Q w.
Proof. intros Hg HQ. unfold log_group. destruct g; [|by apply wp_ret, HQ]. by apply wp_bind, wp_eprint, wp_eprint, HQ. Qed.

(** What the accounts make of the value of [docker:user], before its block is released. *)
Definition resolves (u : cstr) (off : Z) (p : option passwd) (g : option group) : Prop :=
  exists user gname, split_user u = (off, user, gname) /\ names_user user p /\
    match gname with
    | None => g = match p with Some p => getgrgid (pw_gid p) | None => None end
    | Some s => exists g0, names_group s g0 /\ g = match g0, p with None, Some p => getgrgid (pw_gid p) | _, _ => g0 end
    end.

(** From [w] the function comes to its last statement, in a good world; [Phi] holds of the outcome
    if it holds of that statement's. *)
Lemma user_data_runs off p g w (Phi : outcome ((option passwd * option group) * world E) -> Prop) :
  let u := default (cs "0") (table (cs "docker:user")) in
  resolves u off p g -> Zlen u < HEAP_HI -> good w ->
  (forall w', good w' -> Phi (match table (cs "docker:user") with
                              | None => mret (p, g)
                              | Some _ => if off =? 0 then mret (p, g) else c_undefined end w')) ->
  Phi (getUserGroupData strerror None w).
Proof.
  intros u (user & gname & Hsplit & Hp & Hgr) Hlen Hg HQ. unfold getUserGroupData. apply runs_bind.
  eapply wp_mono; [by apply mdataGet_serves|]. intros v w1 [Hg1 ->]. fold u. apply runs_bind, strdup_spec; [done|done|].
  intros w2 [Hg2 _]. cbn beta iota. rewrite Hsplit. apply runs_bind.
  set (g0p g0 := g = match g0, p with None, Some p => getgrgid (pw_gid p) | _, _ => g0 end).
  eapply (wp_mono _ (fun g0 w' => w' = w2 /\ g0p g0)).
  { destruct gname as [s|]; [|by apply wp_ret]. destruct Hgr as (g0 & Hn & ->). by eapply find_group_spec. }
  intros g0 w' [-> Hg0]. apply runs_bind. eapply (wp_mono _ (fun _ w' => good w')); [by destruct gname|].
  intros _ w3 Hg3. apply runs_bind. eapply find_user_spec; [done|]. apply runs_bind, log_user_spec; [done|]. intros w4 [Hg4 _].
  unfold g0p in Hg0. rewrite <-Hg0. apply runs_bind, log_group_spec; [done|]. intros w5 [Hg5 _]. by apply HQ.
Qed.
End users.

Lemma user_data_spec {E} `{Metadata E} `{Accounts} `{DM : DataModel} (strerror : Z -> cstr)
    (table : cstr -> option cstr) `{!MetadataServes E table} (user : cstr) (gname : option cstr)
    (p : option passwd) (g : option group) (w : world E) :
  default (cs "0") (table (cs "docker:user")) = user ++ match gname with Some s => ":"%char :: s | None => [] end ->
  ":"%char ∉ user -> user <> [] -> Zlen (default (cs "0") (table (cs "docker:user"))) < HEAP_HI ->
  names_user user p -> match gname with Some s => names_group s g | None => g = None end -> good w ->
  wp (getUserGroupData strerror None) (fun r w' =>
    good w' /\ r = (p, match g, p with None, Some p => getgrgid (pw_gid p) | _, _ => g end)) w.
Proof.
  intros Hu Hcolon Hne Hlen Hp Hgr Hg.
  unfold wp. apply (user_data_runs strerror table 0 p (match g, p with None, Some p => getgrgid (pw_gid p) | _, _ => g end)); [|done|done|].
  - rewrite Hu. destruct gname as [s|].
    + exists user, (Some s). split; [by apply split_user_colon|]. split; [done|]. by exists g.
    + exists user, None. subst g. rewrite app_nil_r. split; [by apply split_user_plain|]. split; [done|]. by destruct p.
  - intros w' Hg'. by destruct (table _).
Qed.

(** C33: [getUserGroupData] resolves the four forms of [docker:user] (a user or a numeric uid,
    with or without a group or a numeric gid; "0" when it is not set).  Without a group, or
    with a numeric gid that no group has, the group is that of the user. *)
Theorem getUserGroupData_resolves {E} `{Metadata E} `{Accounts} `{DM : DataModel} (strerror : Z -> cstr)
    (table : cstr -> option cstr) `{!MetadataServes E table} (user : cstr) (gname : option cstr)
    (p : option passwd) (g : option group) (w : world E) :
  default (cs "0") (table (cs "docker:user")) = user ++ match gname with Some s => ":"%char :: s | None => [] end ->
  ":"%char ∉ user -> user <> [] -> Zlen (default (cs "0") (table (cs "docker:user"))) < HEAP_HI ->
  names_user user p -> match gname with Some s => names_group s g | None => g = None end -> good w ->
  wp (getUserGroupData strerror None) (fun r _ =>
    r = (p, match g, p with None, Some p => getgrgid (pw_gid p) | _, _ => g end)) w.
Proof.
  intros. eapply wp_mono; [by apply (user_data_spec strerror table user gname p g)|]. by intros r w' [_ ?].
Qed.

(** A user of "::" and one character, like "::5", is taken apart at the second colon, the
    part after it naming both the user and the group; [user] then points into the middle of the
    block [mdataGet] returned, and the [free] at the end is undefined. *)
Theorem getUserGroupData_interior_free {E} `{Metadata E} `{Accounts} `{DM : DataModel} (strerror : Z -> cstr)
    (table : cstr -> option cstr) `{!MetadataServes E table} (c : char) (p : option passwd) (g : option group) (w : world E) :
  table (cs "docker:user") = Some (cs "::" ++ [c]) -> c <> ":"%char -> names_user [c] p -> names_group [c] g -> good w ->
  getUserGroupData strerror None w = Undefined.
Proof.
  intros Ht Hc Hp Hgr Hg. assert (Hsplit : split_user (cs "::" ++ [c]) = (2, [c], Some [c])).
  { assert (Ascii.eqb c ":" = false) as He by by apply Ascii.eqb_neq. unfold split_user, strtok.
    change (cs "::" ++ [c]) with [":"%char; ":"%char; c]. cbn [skip_delims]. rewrite !Ascii.eqb_refl, He.
    cbn [token_of]. rewrite He. done. }
  apply (user_data_runs strerror table 2 p (match g, p with None, Some p => getgrgid (pw_gid p) | _, _ => g end)
    _ (fun o => o = Undefined)); rewrite ?Ht; [|by vm_compute|done|done].
  exists [c], (Some [c]). split; [done|]. split; [done|]. by exists g.
Qed.

(** ** Witnesses *)

(** Files with their modes, and a kernel that answers for them. *)
Definition sample_files (p : cstr) : option Z :=
  if decide (p = cs "/usr/bin/env") then Some 33261
  else if decide (p = cs "/work/tools/env") then Some 16877
  else if decide (p = cs "/etc/passwd") then Some 33188 else None.

Definition sample_kernel : Kernel () := fun name args e =>
  match args with
  | [AS p] => (match sample_files p with Some m => SysRet 0 0 [] [m] | None => SysRet (-1) 2 [] [] end, e)
  | _ => (SysRet 0 0 [] [], e)
  end.

Lemma execName_finds_witness :
  let env := [cs "TERM=xterm"; cs "PATH=tools::/usr/bin/"] in
  let sl := Strlist [Some (cs "TERM=xterm"); Some (cs "PATH=tools::/usr/bin/"); None] 2 in
  halts (@execName () sample_kernel LP64 (fun _ => []) (cs "env") sl (cs "/work"))
    (fun cu w' => exists p, exec_target sample_files env (cs "/work") (cs "env") = inl p /\ text_is cu p /\ w_env w' = ())
    (fun status => exists err, exec_target sample_files env (cs "/work") (cs "env") = inr err /\ status = err_code err)
    (World 0 [] [] ()) /\
  exec_target sample_files env (cs "/work") (cs "env") = inl (cs "/usr/bin/env").
Proof.
  intros env sl. split; [|by vm_compute].
  apply (@execName_finds () sample_kernel LP64 (fun _ => []) sample_files env sl (cs "/work") (cs "env") (World 0 [] [] ())).
  - intros e p. exists 2. done.
  - split; [|split; [by vm_compute|by repeat constructor]]. split; [|intros i; unfold stored; rewrite Nat2Z.id; by destruct i as [|[|[|i]]]].
    split; [by vm_compute|]. split; by vm_compute.
  - split; [by_decide|]. split; [by vm_compute|]. split; [by_decide|by vm_compute].
  - by_decide.
  - by vm_compute.
  - by split; constructor.
Defined.

Definition sample_accounts : Accounts := {|
  getpwnam := fun s => if decide (s = cs "www") then Some (Passwd (cs "www") 80 80 (cs "/srv")) else None;
  getpwuid := fun uid => if uid =? 5 then Some (Passwd (cs "lp") 5 7 (cs "/")) else None;
  getgrnam := fun s => if decide (s = cs "staff") then Some (Group (cs "staff") 10) else None;
  getgrgid := fun gid => if gid =? 80 then Some (Group (cs "web") 80) else None
|}.

Definition user_table (user : cstr) (key : cstr) : option cstr := if decide (key = cs "docker:user") then Some user else None.

(** The group 99 does not exist: the group of the user is taken. *)
Lemma getUserGroupData_resolves_witness :
  let web := Some (Group (cs "web") 80) in let www := Some (Passwd (cs "www") 80 80 (cs "/srv")) in
  wp (@getUserGroupData () (table_metadata (user_table (cs "www:99")) ()) sample_accounts LP64 (fun _ => []) None)
    (fun r _ => r = (www, web)) (World 0 [] [] ()).
Proof.
  intros web www.
  apply (@getUserGroupData_resolves () (table_metadata (user_table (cs "www:99")) ()) sample_accounts LP64 (fun _ => [])
    (user_table (cs "www:99")) (table_serves _ ()) (cs "www") (Some (cs "99")) www None (World 0 [] [] ())).
  - done.
  - by_decide.
  - done.
  - by vm_compute.
  - by eapply user_by_name.
  - by apply (group_by_gid _ _ 99).
  - by split; constructor.
Defined.

Lemma getUserGroupData_interior_free_witness :
  @getUserGroupData () (table_metadata (user_table (cs "::5")) ()) sample_accounts LP64 (fun _ => []) None (World 0 [] [] ()) = Undefined.
Proof.
  apply (@getUserGroupData_interior_free () (table_metadata (user_table (cs "::5")) ()) sample_accounts LP64 (fun _ => [])
    (user_table (cs "::5")) (table_serves _ ()) "5"%char (Some (Passwd (cs "lp") 5 7 (cs "/"))) None (World 0 [] [] ())).
  - done.
  - done.
  - by apply (user_by_uid _ _ 5).
  - by apply (group_by_gid _ _ 5).
  - by split; constructor.
Defined.
