(* ===== verification/NvOut.v ===== *)
(** * NvOut: libnvpair as [fswatcher] uses it

    [fswatcher] builds its messages as nvlists and hands them to the printers of libnvpair.
    [NvOut] adds to [Nvlist] the functions it calls; [NvOutLaws] is what it relies on: [nvs]
    tells which lists are held and with which pairs, [nv_printed] what the printers were handed,
    in order.  [quiet] relates environments that differ at most in the lists held and in what was
    printed: libnvpair changes nothing else a program observes. *)
From Stdlib Require Import Lia.
From S2P Require Import Prelude Nvlist.

Class NvOut (E : Type) `{Nvlist E} := {
  fnvlist_alloc : C E nvlist_t;
  nvlist_add_uint64 : nvlist_t -> cstr -> Z -> C E Z;
  nvlist_add_uint64_array : nvlist_t -> cstr -> list Z -> C E Z;
  nvlist_add_string_array : nvlist_t -> cstr -> list cstr -> C E Z;
  nvlist_print : nvlist_t -> C E ();
  nvlist_print_json : nvlist_t -> C E ()
}.

(** What was printed: whether as JSON, and the pairs. *)
Abbreviation nvprinted := (list (bool * list (cstr * nvval))) (only parsing).

Section laws.
Context {E : Type} `{NvOut E}.
Context (nvs : list (nvlist_t * nvpairs) -> E -> Prop) (quiet : E -> E -> Prop) (printed : E -> nvprinted).

Definition kept (e e' : E) : Prop := quiet e e' /\ printed e' = printed e.

(** An operation that returns 0 and adds a pair to one of the lists held. *)
Definition nv_adds (k : cstr) (v : nvval) (op : nvlist_t -> C E Z) : Prop :=
  forall l1 h l l2 w, good w -> nvs (l1 ++ (h, l) :: l2) (w_env w) ->
    wp (op h) (fun r w' => r = 0 /\ good w' /\ kept (w_env w) (w_env w') /\
      nvs (l1 ++ (h, nv_put k v l) :: l2) (w_env w')) w.

(** An allocation: a new list held. *)
Definition nv_allocs {A} (op : C E A) (result : nvlist_t -> A) : Prop :=
  forall ls w, good w -> nvs ls (w_env w) ->
    wp op (fun r w' => good w' /\ kept (w_env w) (w_env w') /\
      exists h, r = result h /\ nvs ((h, []) :: ls) (w_env w')) w.
(** A printer: it is handed the pairs. *)
Definition nv_prints (json : bool) (op : nvlist_t -> C E ()) : Prop :=
  forall l1 h l l2 w, good w -> nvs (l1 ++ (h, l) :: l2) (w_env w) ->
    wp (op h) (fun _ w' => good w' /\ quiet (w_env w) (w_env w') /\
      printed (w_env w') = printed (w_env w) ++ [(json, l)] /\ nvs (l1 ++ (h, l) :: l2) (w_env w')) w.
End laws.

Class NvOutLaws (E : Type) `{NvOut E} := {
  nvs : list (nvlist_t * list (cstr * nvval)) -> E -> Prop;
  nv_printed : E -> nvprinted;
  quiet : E -> E -> Prop;
  quiet_preorder :: PreOrder quiet;
  nvs_alloc : nv_allocs nvs quiet nv_printed nvlist_alloc (fun h => (0, Some h));
  nvs_falloc : nv_allocs nvs quiet nv_printed fnvlist_alloc id;
  nvs_free l1 h l l2 w : good w -> nvs (l1 ++ (h, l) :: l2) (w_env w) ->
    wp (nvlist_free h) (fun _ w' => good w' /\ kept quiet nv_printed (w_env w) (w_env w') /\ nvs (l1 ++ l2) (w_env w')) w;
  nvs_add_string k s : nv_adds nvs quiet nv_printed k (NvString s) (fun h => nvlist_add_string h k s);
  nvs_add_boolean_value k b : nv_adds nvs quiet nv_printed k (NvBooleanValue b) (fun h => nvlist_add_boolean_value h k b);
  nvs_add_int32 k z : nv_adds nvs quiet nv_printed k (NvInt32 z) (fun h => nvlist_add_int32 h k z);
  nvs_add_uint32 k z : nv_adds nvs quiet nv_printed k (NvUint32 z) (fun h => nvlist_add_uint32 h k z);
  nvs_add_uint64 k z : nv_adds nvs quiet nv_printed k (NvUint64 z) (fun h => nvlist_add_uint64 h k z);
  nvs_add_uint64_array k zs : nv_adds nvs quiet nv_printed k (NvUint64Array zs) (fun h => nvlist_add_uint64_array h k zs);
  nvs_add_string_array k ss : nv_adds nvs quiet nv_printed k (NvStringArray ss) (fun h => nvlist_add_string_array h k ss);
  nvs_add_nvlist k h1 h2 d l w : good w -> nvs [(h2, d); (h1, l)] (w_env w) ->
    wp (nvlist_add_nvlist h1 k h2) (fun r w' => r = 0 /\ good w' /\ kept quiet nv_printed (w_env w) (w_env w') /\
      nvs [(h2, d); (h1, nv_put k (NvNvlist d) l)] (w_env w')) w;
  nvs_print : nv_prints nvs quiet nv_printed false nvlist_print;
  nvs_print_json : nv_prints nvs quiet nv_printed true nvlist_print_json
}.

(** A name that is not there yet is added at the end. *)
Lemma nv_put_fresh k v (l : nvpairs) :
  existsb (fun p => bool_decide (p.1 = k)) l = false -> nv_put k v l = l ++ [(k, v)].
Proof.
  intros Hl. unfold nv_put. f_equal. apply filter_id. induction l as [|p l IH]; [by constructor|].
  cbn in Hl. apply orb_false_iff in Hl as [Hp Hl]. constructor; [by apply bool_decide_eq_false in Hp|by apply IH].
Qed.
