(* ===== verification/Fswatcher.v ===== *)
(** * Fswatcher: the file watcher, [src/src/fswatcher.c]

    [fsw] is the program's global state: the tree of the watched files ([Avl]), the [file_obj] of
    each node, and the blocks that hold their names.  A block is known by a number that is never
    used twice; a pointer to a block that was freed is dangling, and reading through it is
    undefined.  The event port, [stat] and the clock are calls of the [Kernel]; messages are built
    and printed with [NvOut].  The functions of the stdin thread and of the events thread run under
    [work_mutex]: each is one step of the state.  What [err] writes before the process ends is left
    out, and [printf("\n")] and [fflush] after a message with it. *)
From Stdlib Require Import Lia.
From S2P Require Import Prelude Custr Strset Cnum Sys Avl Nvlist NvOut.

Definition MAX_STAT_RETRY : nat := 10.
Definition SYSTEM_KEY : Z := 0.
Definition PATH_MAX : Z := 1024.
Definition MAX_KEY_LEN : Z := 20.
Definition MAX_CMD_LEN : Z := MAX_KEY_LEN + 1 + 7 + 1 + PATH_MAX + 1.

Definition ERR_INVALID_COMMAND : Z := 1.
Definition ERR_INVALID_KEY : Z := 2.
Definition ERR_UNKNOWN_COMMAND : Z := 3.
Definition ERR_CANNOT_ASSOCIATE : Z := 4.

Definition RESULT_SUCCESS : Z := 0.
Definition RESULT_FAILURE : Z := 1.

(** The events of [port_associate(3C)] and its sources, and the error numbers that are told
    apart. *)
Definition FILE_ACCESS : Z := 1.
Definition FILE_MODIFIED : Z := 2.
Definition FILE_ATTRIB : Z := 4.
Definition FILE_DELETE : Z := 16.
Definition FILE_RENAME_TO : Z := 32.
Definition FILE_RENAME_FROM : Z := 64.
Definition FILE_TRUNC : Z := 2 ^ 20.
Definition FILE_NOFOLLOW : Z := 2 ^ 28.
Definition UNMOUNTED : Z := 2 ^ 29.
Definition MOUNTEDOVER : Z := 2 ^ 30.
Definition FILE_EXCEPTION : Z := UNMOUNTED + FILE_DELETE + FILE_RENAME_TO + FILE_RENAME_FROM + MOUNTEDOVER.
Definition PORT_SOURCE_FILE : Z := 7.
Definition CLOCK_MONOTONIC : Z := 4.

Definition EINTR : Z := 4.
Definition EACCES : Z := 13.
Definition ENOTDIR : Z := 20.
Definition ELOOP : Z := 90.

Definition bit_set (events flag : Z) : bool := negb (Z.land events flag =? 0).

(** A node of the tree: its block, its name (the block of the copy and the characters there, which
    are never changed) and the hash of the name. *)
Record files_tree_node := FilesTreeNode {
  ftn_addr : Z;
  ftn_name : Z;
  ftn_text : cstr;
  ftn_hash : Z
}.

(** [struct file_obj], the member [fobj] of a node. *)
Record file_obj := FileObj { fo_name : Z; fo_times : list Z }.

(** The strings a [FILE_*] event is reported as. *)
Definition flag_names : list (Z * string) :=
  [(FILE_ACCESS, "FILE_ACCESS"); (FILE_ATTRIB, "FILE_ATTRIB"); (FILE_DELETE, "FILE_DELETE");
   (FILE_EXCEPTION, "FILE_EXCEPTION"); (FILE_MODIFIED, "FILE_MODIFIED");
   (FILE_RENAME_FROM, "FILE_RENAME_FROM"); (FILE_RENAME_TO, "FILE_RENAME_TO"); (FILE_TRUNC, "FILE_TRUNC");
   (FILE_NOFOLLOW, "FILE_NOFOLLOW"); (MOUNTEDOVER, "MOUNTEDOVER"); (UNMOUNTED, "UNMOUNTED")]%string.

(** The changes of an event. *)
Definition changes_of (event : Z) : list cstr :=
  (fun p => cs p.2) <$> filter (fun p => bit_set event p.1 = true) flag_names.

Definition files_tree_node_comparator (l r : files_tree_node) : Z :=
  if ftn_hash l <? ftn_hash r then -1
  else if ftn_hash r <? ftn_hash l then 1
  else
    let ret := strcmp (ftn_text l) (ftn_text r) in
    if ret <? 0 then -1 else if 0 <? ret then 1 else 0.

(** What [sscanf] reads for [%s]: white space, then one or more characters that are not. *)
Fixpoint span_word (s : cstr) : cstr * cstr :=
  match s with
  | [] => ([], [])
  | c :: s' => if isspace c then ([], s) else let '(w, rest) := span_word s' in (c :: w, rest)
  end.

Definition scan_word (s : cstr) : option (cstr * cstr) :=
  match span_word (skip_space s) with ([], _) => None | r => Some r end.

(** [fgets(str, n, stdin)]: at most [n - 1] characters, up to a line feed; what it stores (before
    the NUL) and what is left to read, or [None] at the end of the input. *)
Fixpoint fgets_chars (n : nat) (input : list char) : list char * list char :=
  match n, input with
  | O, _ => ([], input)
  | _, [] => ([], [])
  | S n, c :: input =>
      if Ascii.eqb c LF then ([c], input) else let '(l, rest) := fgets_chars n input in (c :: l, rest)
  end.

Definition fgets (n : Z) (input : list char) : option (list char * list char) :=
  match input with [] => None | _ => Some (fgets_chars (Z.to_nat (n - 1)) input) end.

(** [vsnprintf(message, size, ...)]: the text that fits the buffer. *)
Definition snprintf (size : Z) (text : cstr) : cstr := take (Z.to_nat (size - 1)) text.

Section fswatcher.
Context `{DM : DataModel}.

Definition ulong (z : Z) : Z := z mod (ULONG_MAX + 1).

(** The characters are [char]s, signed on x86. *)
Fixpoint djb2_from (hash : Z) (str : cstr) : Z :=
  match str with
  | [] => hash
  | c :: str => djb2_from (ulong (ulong (ulong (Z.shiftl hash 5) + hash) + scode c)) str
  end.

Definition djb2 (str : cstr) : Z := djb2_from 5381 str.

Context `{AvlTree files_tree_node}.

(** [files_tree], the [fobj] of its nodes, the blocks of the names, and the number of the next
    block. *)
Record fsw := Fsw {
  fs_tree : avl_tree;
  fs_fobj : gmap Z file_obj;
  fs_mem : gmap Z cstr;
  fs_next : Z
}.

Context {E : Type} `{NvOut E} `{Kernel E}.
(** [strerror(3C)], the option [-j], and the handle of the event port. *)
Context (strerror : Z -> cstr) (opt_j : bool) (port : Z).

(** ** Messages *)

Definition ENSURE0 (arg : Z) : C E () := if negb (arg =? 0) then c_exit 1 else mret tt.

Definition make_nvlist (type : cstr) : C E nvlist_t :=
  '(r, nvl) ← nvlist_alloc;
  ENSURE0 r ;;
  nvl ← c_access nvl;
  tv ← syscall "clock_gettime" [AZ CLOCK_MONOTONIC];
  if negb (sr_ret tv =? 0) then c_exit 1 else
  sec ← c_access (sr_vals tv !! 0%nat);
  nsec ← c_access (sr_vals tv !! 1%nat);
  r ← nvlist_add_string nvl (cs "type") type; ENSURE0 r ;;
  r ← nvlist_add_uint64_array nvl (cs "time") [u64 sec; u64 nsec]; ENSURE0 r ;;
  mret nvl.

Definition print_nvlist (nvl : nvlist_t) : C E () :=
  if opt_j then nvlist_print_json nvl else nvlist_print nvl.

Definition print_event (event : Z) (pathname : cstr) (is_final : bool) : C E () :=
  nvl ← make_nvlist (cs "event");
  r ← nvlist_add_string_array nvl (cs "changes") (changes_of event); ENSURE0 r ;;
  r ← nvlist_add_string nvl (cs "pathname") pathname; ENSURE0 r ;;
  r ← nvlist_add_int32 nvl (cs "revents") event; ENSURE0 r ;;
  r ← nvlist_add_boolean_value nvl (cs "final") is_final; ENSURE0 r ;;
  print_nvlist nvl ;;
  nvlist_free nvl.

Definition print_ready : C E () :=
  nvl ← make_nvlist (cs "ready");
  print_nvlist nvl ;;
  nvlist_free nvl.

(** The caller formats the message. *)
Definition print_error (key code : Z) (text : cstr) : C E () :=
  nvl ← make_nvlist (cs "error");
  let message := snprintf 4096 text in
  r ← nvlist_add_uint64 nvl (cs "key") key; ENSURE0 r ;;
  r ← nvlist_add_uint32 nvl (cs "code") code; ENSURE0 r ;;
  r ← nvlist_add_string nvl (cs "message") message; ENSURE0 r ;;
  print_nvlist nvl ;;
  nvlist_free nvl.

Definition print_response (key code : Z) (pathname text : cstr) : C E () :=
  nvl ← make_nvlist (cs "response");
  let message := snprintf 4096 text in
  r ← nvlist_add_uint64 nvl (cs "key") key; ENSURE0 r ;;
  r ← nvlist_add_uint32 nvl (cs "code") code; ENSURE0 r ;;
  r ← nvlist_add_string nvl (cs "pathname") pathname; ENSURE0 r ;;
  r ← nvlist_add_string nvl (cs "message") message; ENSURE0 r ;;
  r ← nvlist_add_string nvl (cs "result") (if code =? RESULT_SUCCESS then cs "SUCCESS" else cs "FAIL"); ENSURE0 r ;;
  print_nvlist nvl ;;
  nvlist_free nvl.

(** The walk of the tree that fills [filenames], an array of [size] pointers. *)
Fixpoint collect_names (fuel : nat) (t : avl_tree) (ftn : option files_tree_node) (size : Z)
    (filenames : list cstr) : C E (list cstr) :=
  match fuel with
  | O => c_undefined
  | S fuel =>
      match ftn with
      | None => mret filenames
      | Some ftn =>
          if size <=? Zlen filenames then c_undefined
          else collect_names fuel t (avl_next t ftn) size (filenames ++ [ftn_text ftn])
      end
  end.

Definition print_status (s : fsw) (key : Z) : C E () :=
  nvl ← make_nvlist (cs "response");
  data_nvl ← fnvlist_alloc;
  r ← nvlist_add_uint64 nvl (cs "key") key; ENSURE0 r ;;
  r ← nvlist_add_uint32 nvl (cs "code") RESULT_SUCCESS; ENSURE0 r ;;
  r ← nvlist_add_string nvl (cs "result") (cs "SUCCESS"); ENSURE0 r ;;
  let numnodes := avl_numnodes (fs_tree s) in
  m ← malloc (sz (numnodes * ptr_bytes));
  match m with
  | None => c_exit 1
  | Some _ =>
      filenames ← collect_names (S (Z.to_nat numnodes)) (fs_tree s) (avl_first (fs_tree s)) numnodes [];
      r ← nvlist_add_string_array data_nvl (cs "files") filenames; ENSURE0 r ;;
      r ← nvlist_add_uint32 data_nvl (cs "files_count") (u32 numnodes); ENSURE0 r ;;
      pid ← sys "getpid" [];
      r ← nvlist_add_int32 data_nvl (cs "pid") pid; ENSURE0 r ;;
      r ← nvlist_add_nvlist nvl (cs "data") data_nvl; ENSURE0 r ;;
      print_nvlist nvl ;;
      nvlist_free data_nvl ;;
      nvlist_free nvl
  end.

(** ** Handles *)

(** The structure [lookup] of the C code has no block of its own. *)
Definition find_handle (s : fsw) (pathname : cstr) : option files_tree_node :=
  avl_find (fs_tree s) (FilesTreeNode 0 0 pathname (djb2 pathname)).

(** [avl_add] calls [abort] when the tree has an equal node. *)
Definition add_handle (s : fsw) (ftn : files_tree_node) : C E fsw :=
  match avl_find (fs_tree s) ftn with
  | Some _ => c_abort
  | None => mret (Fsw (avl_insert (fs_tree s) ftn) (fs_fobj s) (fs_mem s) (fs_next s))
  end.

Definition remove_handle (s : fsw) (ftn : files_tree_node) : fsw :=
  Fsw (avl_remove (fs_tree s) ftn) (fs_fobj s) (fs_mem s) (fs_next s).

Definition destroy_handle (s : fsw) (ftn : files_tree_node) : C E fsw :=
  let s := remove_handle s ftn in
  _ ← c_access (fs_mem s !! ftn_name ftn);
  _ ← c_access (fs_fobj s !! ftn_addr ftn);
  mret (Fsw (fs_tree s) (delete (ftn_addr ftn) (fs_fobj s)) (delete (ftn_name ftn) (fs_mem s)) (fs_next s)).

(** ** Watching *)

(** [stat] with its retries: the error, and the times of the file. *)
Fixpoint stat_retry (n : nat) (path : cstr) : C E (Z * list Z) :=
  match n with
  | O => c_abort
  | S n =>
      r ← syscall "stat" [AS path];
      stat_err ← get_errno;
      if sr_ret r =? 0 then mret (0, sr_vals r)
      else if negb (stat_err =? EINTR) then mret (stat_err, sr_vals r)
      else stat_retry n path
  end.

Definition stat_file (path : cstr) : C E (Z * list Z) := stat_retry MAX_STAT_RETRY path.

Definition get_stat (pathname : cstr) : C E (Z * list Z) :=
  '(stat_ret, sb) ← stat_file pathname;
  if stat_ret =? 0 then mret (0, sb)
  else if bool_decide (stat_ret ∈ [ELOOP; ENOTDIR; EACCES; ENOENT]) then mret (stat_ret, sb)
  else c_abort.

(** The events after which a file is watched no more. *)
Definition is_gone (revents : Z) : bool :=
  bit_set revents FILE_DELETE || bit_set revents FILE_RENAME_FROM ||
  bit_set revents UNMOUNTED || bit_set revents MOUNTEDOVER.

(** The rest of [check_and_rearm_event], once the file is seen to be there. *)
Definition rearm (s : fsw) (key name : Z) (path : cstr) (revents : Z) (ftn : files_tree_node) (times : list Z) : C E fsw :=
  fobj ← c_access (fs_fobj s !! ftn_addr ftn);
  let fobj := FileObj (fo_name fobj) times in
  let s := Fsw (fs_tree s) (<[ftn_addr ftn := fobj]> (fs_fobj s)) (fs_mem s) (fs_next s) in
  fo_text ← c_access (fs_mem s !! fo_name fobj);
  pa_ret ← sys "port_associate" ([AZ port; AZ PORT_SOURCE_FILE; AZ (ftn_addr ftn); AS fo_text] ++
                                 (AZ <$> times) ++ [AZ (Z.lor FILE_MODIFIED FILE_TRUNC); AZ name]);
  if negb (key =? SYSTEM_KEY) then
    VERIFY (revents =? 0) ;;
    if pa_ret =? -1 then
      e ← get_errno;
      print_response key RESULT_FAILURE path
        (cs "port_associate(3c) failed with errno " ++ print_d e ++ cs ": " ++ strerror e) ;;
      destroy_handle s ftn
    else
      print_response key RESULT_SUCCESS path (cs "port_associate(3c) started watching path") ;;
      mret s
  else
    VERIFY (negb (revents =? 0)) ;;
    print_event revents path false ;;
    if pa_ret =? -1 then
      e ← get_errno;
      print_error key ERR_CANNOT_ASSOCIATE
        (cs "port_associate(3c) failed for '" ++ path ++ cs "', errno " ++ print_d e ++ cs ": " ++ strerror e) ;;
      destroy_handle s ftn
    else mret s.

(** [name] is the block of the name: the callers pass no other string. *)
Definition check_and_rearm_event (s : fsw) (key name revents : Z) (ftn : option files_tree_node) : C E fsw :=
  path ← c_access (fs_mem s !! name);
  match (match ftn with None => find_handle s path | _ => ftn end) with
  | None => eprint (cs "got event for '" ++ path ++ cs "' without a handle") ;; mret s
  | Some ftn =>
      '(stat_ret, sb) ← get_stat path;
      let is_final := negb (stat_ret =? 0) || is_gone revents in
      (if negb (key =? SYSTEM_KEY) && negb (stat_ret =? 0) then
         print_response key RESULT_FAILURE path
           (cs "stat(2) failed with errno " ++ print_d stat_ret ++ cs ": " ++ strerror stat_ret) ;;
         VERIFY is_final
       else mret tt) ;;
      if is_final then
        (if negb (revents =? 0) then print_event revents path true else mret tt) ;;
        destroy_handle s ftn
      else rearm s key name path revents ftn sb
  end.

Definition watch_path (s : fsw) (pathname : cstr) (key : Z) : C E fsw :=
  match find_handle s pathname with
  | Some _ => print_response key RESULT_SUCCESS pathname (cs "already watching") ;; mret s
  | None =>
      m ← malloc (16 * ptr_bytes);
      match m with
      | None => c_exit 1
      | Some _ =>
          m ← malloc (Zlen pathname + 1);
          match m with
          | None => c_exit 1
          | Some _ =>
              let addr := fs_next s in
              let dupname := fs_next s + 1 in
              let ftn := FilesTreeNode addr dupname pathname (djb2 pathname) in
              let s := Fsw (fs_tree s) (<[addr := FileObj dupname []]> (fs_fobj s))
                           (<[dupname := pathname]> (fs_mem s)) (fs_next s + 2) in
              s ← add_handle s ftn;
              check_and_rearm_event s key dupname 0 (Some ftn)
          end
      end
  end.

Definition unwatch_path (s : fsw) (pathname : cstr) (key : Z) : C E fsw :=
  match find_handle s pathname with
  | None =>
      print_response key RESULT_FAILURE pathname
        (cs "not watching '" ++ pathname ++ cs "', cannot unwatch") ;; mret s
  | Some ftn =>
      ret ← sys "port_dissociate" [AZ port; AZ PORT_SOURCE_FILE; AZ (ftn_addr ftn)];
      s ← destroy_handle s ftn;
      (if ret =? -1 then
         e ← get_errno;
         print_response key RESULT_FAILURE pathname
           (cs "failed to unregister '" ++ pathname ++ cs "' (errno " ++ print_d e ++ cs "): " ++ strerror e)
       else
         print_response key RESULT_SUCCESS pathname (cs "no longer watching '" ++ pathname ++ cs "'")) ;;
      mret s
  end.

(** ** The threads *)

(** A conversion into one of the buffers [cmd] and [path]. *)
Definition store_word (r : option (cstr * cstr)) : C E (option (cstr * cstr)) :=
  match r with
  | None => mret None
  | Some (w, rest) => if MAX_CMD_LEN + 1 <? Zlen w + 1 then c_undefined else mret (Some (w, rest))
  end.

(** [sscanf(str, "%llu %s %s", &key, cmd, path)] on empty buffers: the number of conversions, and
    what they store.  A number that is no [unsigned long long] is undefined. *)
Definition sscanf_command (str : cstr) : C E (Z * Z * cstr * cstr) :=
  match skip_space str with
  | [] => mret (-1, 0, [], [])
  | _ =>
      match scan_number 10 str with
      | None => mret (0, 0, [], [])
      | Some (neg, v, rest) =>
          if 2 ^ 64 <=? v then c_undefined else
          let key := if neg : bool then u64 (- v) else v in
          cmd ← store_word (scan_word rest);
          match cmd with
          | None => mret (1, key, [], [])
          | Some (cmd, rest) =>
              path ← store_word (scan_word rest);
              match path with
              | None => mret (2, key, cmd, [])
              | Some (path, _) => mret (3, key, cmd, path)
              end
          end
      end
  end.

Definition process_stdin_line (s : fsw) (str : cstr) : C E fsw :=
  if MAX_CMD_LEN <? Zlen str then
    print_error SYSTEM_KEY ERR_INVALID_COMMAND (cs "command line too long") ;; mret s
  else
  '(res, key, cmd, path) ← sscanf_command str;
  if negb ((res =? 2) || (res =? 3)) then
    print_error SYSTEM_KEY ERR_INVALID_COMMAND (cs "invalid command line") ;; mret s
  else if key =? SYSTEM_KEY then
    print_error SYSTEM_KEY ERR_INVALID_KEY (cs "invalid key: " ++ print_d SYSTEM_KEY) ;; mret s
  else if strcmp (cs "UNWATCH") cmd =? 0 then
    match path with
    | [] => print_error SYSTEM_KEY ERR_INVALID_COMMAND (cs "invalid command line - UNWATCH requires pathname") ;; mret s
    | _ => unwatch_path s path key
    end
  else if strcmp (cs "WATCH") cmd =? 0 then
    match path with
    | [] => print_error SYSTEM_KEY ERR_INVALID_COMMAND (cs "invalid command line - WATCH requires pathname") ;; mret s
    | _ => watch_path s path key
    end
  else if strcmp (cs "STATUS") cmd =? 0 then
    match path with
    | [] => print_status s key ;; mret s
    | _ => print_error SYSTEM_KEY ERR_INVALID_COMMAND (cs "invalid command line - STATUS takes no arguments") ;; mret s
    end
  else print_error key ERR_UNKNOWN_COMMAND (cs "unknown command '" ++ cmd ++ cs "'") ;; mret s.

(** One turn of [wait_for_stdin]: the state and what is left to read.  At the end of the input the
    process exits with 0. *)
Definition wait_for_stdin (s : fsw) (input : list char) : C E (fsw * list char) :=
  match fgets (MAX_CMD_LEN + 1) input with
  | None => c_exit 0
  | Some (str, rest) => s ← process_stdin_line s (c_text str); mret (s, rest)
  end.

(** [port_event_t]: the source, the events, the object and the user value. *)
Record port_event := PortEvent { portev_source : Z; portev_events : Z; portev_object : Z; portev_user : Z }.

(** [port_get(port, &pe, NULL)], before the mutex is taken: the process is aborted when it fails. *)
Definition port_get : C E port_event :=
  r ← syscall "port_get" [AZ port];
  if negb (sr_ret r =? 0) then c_abort
  else match sr_vals r with [src; ev; obj; user] => mret (PortEvent src ev obj user) | _ => c_undefined end.

(** The rest of a turn of [wait_for_events], with the mutex held. *)
Definition handle_event (s : fsw) (pe : port_event) : C E fsw :=
  if portev_source pe =? PORT_SOURCE_FILE
  then check_and_rearm_event s 0 (portev_user pe) (i32 (portev_events pe)) None
  else c_abort.
End fswatcher.

(** The options: an exit status, or [-j] and [-r].  [getopt(argc, argv, "hjr")] gives each
    option character, or a question mark. *)
Fixpoint fsw_options (opt_j opt_r : bool) (opts : list char) : Z + bool * bool :=
  match opts with
  | [] => inr (opt_j, opt_r)
  | c :: opts =>
      if Ascii.eqb c "h"%char then inl 0
      else if Ascii.eqb c "j"%char then fsw_options true opt_r opts
      else if Ascii.eqb c "r"%char then fsw_options opt_j true opts
      else inl 1
  end.

(** [main] up to the creation of the threads, and the [ready] message: the port and the state. *)
Definition fsw_start `{AvlTree files_tree_node} {E} `{NvOut E} `{Kernel E} (opts : list char) : C E (bool * Z * fsw) :=
  match fsw_options false false opts with
  | inl status => c_exit status
  | inr (opt_j, opt_r) =>
      port ← sys "port_create" [];
      if port =? -1 then c_exit 1 else
      let s := Fsw (avl_create files_tree_node_comparator) ∅ ∅ 1 in
      (if opt_r : bool then print_ready opt_j else mret tt) ;;
      mret (opt_j, port, s)
  end.
