(* ===== verification/FswatcherEnv.v ===== *)
(** * FswatcherEnv: the event port

    [FswEnv] is what [Fswatcher] relies on of the kernel: [watching] tells, for each object, the
    user value its next event will carry, while the object is associated or its event waits to be
    taken.  [fenv] is a concrete environment: a libnvpair that keeps its lists in a tray, and a
    kernel with an event port. *)
From Stdlib Require Import Lia.
From S2P Require Import Prelude Custr Strset Sys Avl Nvlist NvOut Fswatcher.

(** The calls that concern the associations of the port. *)
Definition is_port_call (name : string) : bool :=
  existsb (String.eqb name) ["port_associate"; "port_dissociate"; "port_get"]%string.

(** The event port and the other system calls. *)
Class FswEnv (E : Type) `{NvOutLaws E} `{Kernel E} := {
  watching : E -> gmap Z Z;
  quiet_watching e e' : quiet e e' -> watching e' = watching e;
  sys_nvs name args e r e' ls : sys_step name args e = (r, e') -> nvs ls e -> nvs ls e';
  sys_printed name args e r e' : sys_step name args e = (r, e') -> nv_printed e' = nv_printed e;
  sys_watching name args e r e' :
    is_port_call name = false ->
    sys_step name args e = (r, e') -> watching e' = watching e;
  sys_clock_gettime args e r e' : sys_step "clock_gettime" args e = (r, e') ->
    sr_ret r = 0 /\ exists sec nsec, sr_vals r = [sec; nsec];
  sys_stat path e r e' : sys_step "stat" [AS path] e = (r, e') -> sr_ret r = 0 \/ sr_ret r = -1 /\ sr_errno r <> 0;
  sys_port_associate port obj text times events user e r e' :
    sys_step "port_associate" ([AZ port; AZ PORT_SOURCE_FILE; AZ obj; AS text] ++ (AZ <$> times) ++ [AZ events; AZ user]) e
      = (r, e') ->
    watching e' = if sr_ret r =? -1 then watching e else <[obj := user]> (watching e);
  sys_port_dissociate port obj e r e' :
    sys_step "port_dissociate" [AZ port; AZ PORT_SOURCE_FILE; AZ obj] e = (r, e') ->
    watching e' = delete obj (watching e);
  sys_port_get port e r e' : sys_step "port_get" [AZ port] e = (r, e') -> sr_ret r = 0 ->
    exists events obj user, sr_vals r = [PORT_SOURCE_FILE; events; obj; user] /\ i32 events <> 0 /\
      watching e !! obj = Some user /\ watching e' = delete obj (watching e)
}.

(** ** A concrete environment *)

(** The lists held, the number of the next one, what was printed, and the objects the port
    watches. *)
Record fenv := Fenv {
  fe_lists : list (nat * list (cstr * nvval));
  fe_fresh : nat;
  fe_printed : nvprinted;
  fe_watching : gmap Z Z
}.

Definition fe_with (e : fenv) (ls : list (nat * list (cstr * nvval))) : fenv :=
  Fenv ls (fe_fresh e) (fe_printed e) (fe_watching e).

(** The list [h]; a list that is not held is a dangling pointer. *)
Fixpoint tray_get (h : nat) (ls : list (nat * nvpairs)) : option nvpairs :=
  match ls with [] => None | (h', l) :: ls => if decide (h' = h) then Some l else tray_get h ls end.

Definition tray_put (h : nat) (k : cstr) (v : nvval) : C fenv Z :=
  e ← get_env;
  _ ← c_access (tray_get h (fe_lists e));
  put_env (fe_with e ((fun p => if decide (p.1 = h) then (h, nv_put k v p.2) else p) <$> fe_lists e)) ;; mret 0.

Definition tray_new : C fenv nat :=
  e ← get_env;
  put_env (Fenv ((fe_fresh e, []) :: fe_lists e) (S (fe_fresh e)) (fe_printed e) (fe_watching e)) ;;
  mret (fe_fresh e).

Definition tray_print (json : bool) (h : nat) : C fenv () :=
  e ← get_env;
  l ← c_access (tray_get h (fe_lists e));
  put_env (Fenv (fe_lists e) (fe_fresh e) (fe_printed e ++ [(json, l)]) (fe_watching e)).

Definition tray_look {A} (h : nat) (f : nvpairs -> C fenv A) : C fenv A :=
  e ← get_env; l ← c_access (tray_get h (fe_lists e)); f l.

#[export] Instance tray_nvlist : Nvlist fenv := {|
  nvlist_t := nat;
  nvlist_alloc := h ← tray_new; mret (0, Some h);
  nvlist_free := fun h => e ← get_env; put_env (fe_with e (filter (fun p => p.1 <> h) (fe_lists e)));
  nvlist_add_string := fun h k s => tray_put h k (NvString s);
  nvlist_add_boolean_value := fun h k b => tray_put h k (NvBooleanValue b);
  nvlist_add_boolean := fun h k => tray_put h k NvBoolean;
  nvlist_add_int32 := fun h k z => tray_put h k (NvInt32 z);
  nvlist_add_uint32 := fun h k z => tray_put h k (NvUint32 z);
  nvlist_add_nvlist := fun h k d => tray_look d (fun l => tray_put h k (NvNvlist l));
  nvlist_lookup_nvlist := fun _ _ => mret (ENOTDIR, None);
  nvlist_lookup_string := fun h k => tray_look h (fun l =>
    mret match nv_find k l with Some (NvString s) => (0, Some s) | _ => (2, None) end);
  nvlist_lookup_uint32 := fun h k => tray_look h (fun l =>
    mret match nv_find k l with Some (NvUint32 z) => (0, Some z) | _ => (2, None) end)
|}.

#[export] Instance tray_nvout : NvOut fenv := {|
  fnvlist_alloc := tray_new;
  nvlist_add_uint64 := fun h k z => tray_put h k (NvUint64 z);
  nvlist_add_uint64_array := fun h k zs => tray_put h k (NvUint64Array zs);
  nvlist_add_string_array := fun h k ss => tray_put h k (NvStringArray ss);
  nvlist_print := tray_print false;
  nvlist_print_json := tray_print true
|}.

Definition tray_holds (ls : list (nat * nvpairs)) (e : fenv) : Prop :=
  fe_lists e = ls /\ NoDup ls.*1 /\ Forall (fun p => (p.1 < fe_fresh e)%nat) ls.

Lemma tray_get_at l1 h l l2 : h ∉ l1.*1 -> tray_get h (l1 ++ (h, l) :: l2) = Some l.
Proof.
  induction l1 as [|[h' l'] l1 IH]; cbn; [by rewrite decide_True|].
  rewrite not_elem_of_cons. intros [Hne Hn]. rewrite decide_False by congruence. by apply IH.
Qed.

Lemma nodup_at (l1 l2 : list (nat * nvpairs)) h l :
  NoDup (l1 ++ (h, l) :: l2).*1 -> h ∉ l1.*1 /\ h ∉ l2.*1 /\ NoDup (l1 ++ l2).*1.
Proof.
  rewrite !fmap_app, fmap_cons. cbn [fst]. intros (Hn1 & Hd & [Hh Hn2]%list.NoDup_cons)%list.NoDup_app.
  split_and!; [|done|].
  - intros Hin. apply (Hd _ Hin). by left.
  - apply list.NoDup_app. split_and!; [done| |done]. intros x Hx Hx2. apply (Hd _ Hx). by right.
Qed.

Lemma tray_modify_at l1 h l l2 k v : h ∉ l1.*1 -> h ∉ l2.*1 ->
  (fun p : nat * nvpairs => if decide (p.1 = h) then (h, nv_put k v p.2) else p) <$> (l1 ++ (h, l) :: l2)
  = l1 ++ (h, nv_put k v l) :: l2.
Proof.
  intros H1 H2. rewrite fmap_app, fmap_cons. cbn [fst snd]. rewrite decide_True by done.
  assert (Hid : forall ls : list (nat * nvpairs), h ∉ ls.*1 ->
    (fun p : nat * nvpairs => if decide (p.1 = h) then (h, nv_put k v p.2) else p) <$> ls = ls).
  { induction ls as [|[h' l'] ls IH]; [done|]. cbn. rewrite not_elem_of_cons. intros [Hne Hn].
    rewrite decide_False by congruence. by rewrite IH. }
  by rewrite !Hid.
Qed.

Lemma tray_put_law h k v l1 l l2 (w : world fenv) :
  good w -> tray_holds (l1 ++ (h, l) :: l2) (w_env w) ->
  tray_put h k v w = Done (0, set_env w (fe_with (w_env w) (l1 ++ (h, nv_put k v l) :: l2))) /\
  tray_holds (l1 ++ (h, nv_put k v l) :: l2) (fe_with (w_env w) (l1 ++ (h, nv_put k v l) :: l2)).
Proof.
  intros Hg (Hl & Hnd & Hf). pose proof (nodup_at _ _ _ _ Hnd) as (H1 & H2 & _). split.
  - unfold tray_put, mbind, C_bind, get_env, c_access, put_env, mret, C_ret. rewrite Hl, tray_get_at by done.
    by rewrite tray_modify_at.
  - split; [done|]. split.
    + by rewrite fmap_app, fmap_cons in *.
    + apply Forall_app in Hf as [? [? ?]%Forall_cons_1]. apply Forall_app. split; [done|]. by constructor.
Qed.

Definition tray_quiet (e e' : fenv) : Prop := fe_watching e' = fe_watching e.

Lemma tray_adds k v op : op = (fun h => tray_put h k v) -> nv_adds tray_holds tray_quiet fe_printed k v op.
Proof.
  intros -> l1 h l l2 w Hg Hh. destruct (tray_put_law h k v _ _ _ _ Hg Hh) as [He Hh'].
  unfold wp. rewrite He. by split_and!.
Qed.

Lemma tray_allocs {A} (op : C fenv A) result :
  op = (h ← tray_new; mret (result h)) -> nv_allocs tray_holds tray_quiet fe_printed op result.
Proof.
  intros -> ls w Hg (Hl & Hnd & Hf). unfold wp, tray_new, mbind, C_bind, get_env, put_env, mret, C_ret. cbn.
  split; [done|]. split; [done|]. exists (fe_fresh (w_env w)). split; [done|]. split; [by cbn; rewrite Hl|].
  split.
  - cbn. apply list.NoDup_cons. split; [|done]. intros ([h l] & Hh & Hin)%list_elem_of_fmap. cbn in Hh.
    rewrite list.Forall_forall in Hf. specialize (Hf _ Hin). cbn in Hf. lia.
  - cbn. constructor; [cbn; lia|]. eapply Forall_impl; [|exact Hf]. intros p Hp. cbn in Hp. lia.
Qed.

Lemma tray_prints json : nv_prints tray_holds tray_quiet fe_printed json (tray_print json).
Proof.
  intros l1 h l l2 w Hg (Hl & Hnd & Hf). pose proof (nodup_at _ _ _ _ Hnd) as (H1 & _ & _).
  unfold wp, tray_print, mbind, C_bind, get_env, c_access, put_env. rewrite Hl, tray_get_at by done. by split_and!.
Qed.

#[export] Instance tray_laws : NvOutLaws fenv.
Proof.
  refine {| nvs := tray_holds : list (nvlist_t * nvpairs) -> fenv -> Prop; nv_printed := fe_printed; quiet := tray_quiet |};
    try (intros; by apply tray_adds); try apply tray_prints.
  - split; [done|]. intros e1 e2 e3. unfold tray_quiet. congruence.
  - by apply tray_allocs.
  - intros ls w. by apply (tray_allocs (h ← tray_new; mret h) id eq_refl).
  - intros l1 h l l2 w Hg (Hl & Hnd & Hf). pose proof (nodup_at _ _ _ _ Hnd) as (H1 & H2 & Hnd').
    unfold wp. cbn. unfold mbind, C_bind, get_env, put_env. split; [done|]. split; [done|].
    assert (filter (fun p : nat * nvpairs => p.1 <> h) (fe_lists (w_env w)) = l1 ++ l2) as Hfl.
    { rewrite Hl, list.filter_app, filter_cons_False by auto.
      f_equal; apply filter_id, list.Forall_forall; intros p Hp Heq; cbn in Heq; subst h;
        [apply H1|apply H2]; apply list_elem_of_fmap; by exists p. }
    split; [by cbn; rewrite Hfl|]. split; [done|]. apply Forall_app in Hf as [? [? ?]%Forall_cons_1].
    apply Forall_app. by split.
  - intros k h1 h2 d l w Hg Hh. pose proof Hh as (Hl & _). unfold wp. cbn.
    unfold tray_look, mbind, C_bind, get_env, c_access. rewrite Hl. cbn [tray_get]. rewrite decide_True by done.
    destruct (tray_put_law h1 k (NvNvlist d) [(h2, d)] l [] w Hg Hh) as [He Hh']. rewrite He. by split_and!.
Defined.

(** The kernel: files are always there, the clock stands still, and [port_get] delivers a
    modification of one of the objects watched. *)
#[export] Instance fenv_kernel : Kernel fenv := fun name args e =>
  let watch m := Fenv (fe_lists e) (fe_fresh e) (fe_printed e) m in
  if String.eqb name "clock_gettime" then (SysRet 0 0 [] [100; 5], e)
  else if String.eqb name "stat" then (SysRet 0 0 [] [1; 0; 2; 0; 3; 0], e)
  else if String.eqb name "port_create" then (SysRet 3 0 [] [], e)
  else if String.eqb name "port_associate" then
    match args, list.last args with
    | _ :: _ :: AZ obj :: _, Some (AZ user) => (SysRet 0 0 [] [], watch (<[obj := user]> (fe_watching e)))
    | _, _ => (SysRet (-1) EINVAL [] [], e)
    end
  else if String.eqb name "port_dissociate" then
    match args with
    | [_; _; AZ obj] => (SysRet (if bool_decide (is_Some (fe_watching e !! obj)) then 0 else -1) ENOENT [] [],
                         watch (delete obj (fe_watching e)))
    | _ => (SysRet (-1) EINVAL [] [], e)
    end
  else if String.eqb name "port_get" then
    match map_to_list (fe_watching e) with
    | (obj, user) :: _ => (SysRet 0 0 [] [PORT_SOURCE_FILE; FILE_MODIFIED; obj; user], watch (delete obj (fe_watching e)))
    | [] => (SysRet (-1) EINTR [] [], e)
    end
  else (SysRet 0 0 [] [], e).

#[export] Instance fenv_laws : FswEnv fenv.
Proof.
  refine {| watching := fe_watching |}.
  - intros e e' Hq. exact Hq.
  - intros name args e r e' ls Hs Hh.
    assert (fe_lists e' = fe_lists e /\ fe_fresh e' = fe_fresh e) as [Hl Hf].
    { unfold sys_step, fenv_kernel in Hs. repeat case_match; by injection Hs as <- <-. }
    destruct Hh as (? & ? & ?). split; [congruence|]. split; [done|]. by rewrite Hf.
  - intros name args e r e' Hs. unfold sys_step, fenv_kernel in Hs. repeat case_match; by injection Hs as <- <-.
  - intros name args e r e' Hn Hs. unfold sys_step, fenv_kernel in Hs. cbn [is_port_call existsb] in Hn.
    apply orb_false_iff in Hn as [Ha [Hd [Hg _]%orb_false_iff]%orb_false_iff]. rewrite Ha, Hd, Hg in Hs.
    repeat case_match; by injection Hs as <- <-.
  - intros args e r e' [= <- <-]. split; [done|]. by exists 100, 5.
  - intros path e r e' [= <- <-]. by left.
  - intros port obj text times events user e r e' Hs. unfold sys_step, fenv_kernel in Hs. cbn [String.eqb Ascii.eqb Bool.eqb app] in Hs.
    assert (Hl : list.last ([AZ port; AZ PORT_SOURCE_FILE; AZ obj; AS text] ++ (AZ <$> times) ++ [AZ events; AZ user]) = Some (AZ user)).
    { change [AZ events; AZ user] with ([AZ events] ++ [AZ user]). by rewrite !app_assoc, list.last_snoc. }
    cbn [app] in Hl. rewrite Hl in Hs. by injection Hs as <- <-.
  - intros port obj e r e' Hs. unfold sys_step, fenv_kernel in Hs. cbn [String.eqb Ascii.eqb Bool.eqb] in Hs.
    by injection Hs as <- <-.
  - intros port e r e' Hs Hr. unfold sys_step, fenv_kernel in Hs. cbn [String.eqb Ascii.eqb Bool.eqb] in Hs.
    destruct (map_to_list (fe_watching e)) as [|[obj user] l] eqn:Hm; injection Hs as <- <-; [done|].
    exists FILE_MODIFIED, obj, user. split; [done|]. split; [by_decide|]. split; [|done].
    apply elem_of_map_to_list. rewrite Hm. by left.
Defined.
