(* ===== verification/FswatcherSpec.v ===== *)
(** * FswatcherSpec: what the file watcher promises

    The messages are values of [message]; [line_reply] and [event_reply] say which ones
    answer a line and an event, and how the set of the watched files changes.  [fsw_step] is the
    program with its two threads, one step for each turn of a loop with the mutex held. *)
From Stdlib Require Import Lia.
From S2P Require Import Prelude Custr Strset Cnum Sys Avl Nvlist NvOut Fswatcher FswatcherEnv.

(** ** Computations that may abort

    As [wp], but the computation may also call [abort] when [P] holds. *)
Definition wpa {E A} (P : Prop) (m : C E A) (Q : A -> world E -> Prop) (w : world E) : Prop :=
  match m w with Done (a, w') => Q a w' | Aborted => P | _ => False end.

Lemma wpa_wp {E A} P (m : C E A) Q (w : world E) : wp m Q w -> wpa P m Q w.
Proof. unfold wp, wpa. by destruct (m w) as [[a w']| | |]. Qed.
Lemma wpa_bind {E A B} P (m : C E A) (k : A -> C E B) Q w :
  wpa P m (fun a => wpa P (k a) Q) w -> wpa P (m ≫= k) Q w.
Proof. unfold wpa, mbind, C_bind. by destruct (m w) as [[a w']| | |]. Qed.
Lemma wpa_mono {E A} P (m : C E A) (Q Q' : A -> world E -> Prop) w :
  wpa P m Q w -> (forall a w', Q a w' -> Q' a w') -> wpa P m Q' w.
Proof. unfold wpa. destruct (m w) as [[a w']| | |]; naive_solver. Qed.
Lemma wpa_ret {E A} P (a : A) (Q : A -> world E -> Prop) w : Q a w -> wpa P (mret a) Q w.
Proof. done. Qed.
Lemma wpa_done {E A} P (m : C E A) Q (w : world E) a w' : wpa P m Q w -> m w = Done (a, w') -> Q a w'.
Proof. unfold wpa. intros HQ Hm. by rewrite Hm in HQ. Qed.

(** ** Messages *)

Inductive message :=
| MsgReady
| MsgEvent (revents : Z) (path : cstr) (final : bool)
| MsgError (key code : Z) (text : cstr)
| MsgResponse (key code : Z) (path text : cstr)
| MsgStatus (key : Z) (files : list cstr) (pid : Z).

Definition msg_type (m : message) : cstr :=
  match m with
  | MsgReady => cs "ready" | MsgEvent _ _ _ => cs "event" | MsgError _ _ _ => cs "error"
  | MsgResponse _ _ _ _ | MsgStatus _ _ _ => cs "response"
  end.

Definition msg_fields (m : message) : nvpairs :=
  match m with
  | MsgReady => []
  | MsgEvent revents path final =>
      [(cs "changes", NvStringArray (changes_of revents)); (cs "pathname", NvString path);
       (cs "revents", NvInt32 revents); (cs "final", NvBooleanValue final)]
  | MsgError key code text =>
      [(cs "key", NvUint64 key); (cs "code", NvUint32 code); (cs "message", NvString (snprintf 4096 text))]
  | MsgResponse key code path text =>
      [(cs "key", NvUint64 key); (cs "code", NvUint32 code); (cs "pathname", NvString path);
       (cs "message", NvString (snprintf 4096 text));
       (cs "result", NvString (if code =? RESULT_SUCCESS then cs "SUCCESS" else cs "FAIL"))]
  | MsgStatus key files pid =>
      [(cs "key", NvUint64 key); (cs "code", NvUint32 RESULT_SUCCESS); (cs "result", NvString (cs "SUCCESS"));
       (cs "data", NvNvlist [(cs "files", NvStringArray files);
                             (cs "files_count", NvUint32 (u32 (Zlen files))); (cs "pid", NvInt32 pid)])]
  end.

Definition stamp (type : cstr) (sec nsec : Z) : nvpairs :=
  [(cs "type", NvString type); (cs "time", NvUint64Array [u64 sec; u64 nsec])].

(** What the printer is handed for a message, at some time. *)
Definition prints (json : bool) (m : message) (p : bool * nvpairs) : Prop :=
  p.1 = json /\ exists sec nsec, p.2 = stamp (msg_type m) sec nsec ++ msg_fields m.

(** ** Words of a line *)

Section scan.
Context {E : Type}.
Implicit Types (w : world E).


(** The conversions of a line; none when its number is no [unsigned long long]. *)
Definition scan_command (str : cstr) : option (Z * Z * cstr * cstr) :=
  match skip_space str with
  | [] => Some (-1, 0, [], [])
  | _ =>
      match scan_number 10 str with
      | None => Some (0, 0, [], [])
      | Some (neg, v, rest) =>
          if 2 ^ 64 <=? v then None else
          let key := if neg : bool then u64 (- v) else v in
          match scan_word rest with
          | None => Some (1, key, [], [])
          | Some (cmd, rest) =>
              match scan_word rest with
              | None => Some (2, key, cmd, [])
              | Some (path, _) => Some (3, key, cmd, path)
              end
          end
      end
  end.

Lemma skip_blank_length (s : cstr) : Zlen (skip_space s) <= Zlen s.
Proof. induction s as [|c s IH]; cbn; [done|]. destruct (isspace c); zlen; lia. Qed.

Lemma span_word_app (s : cstr) : s = (span_word s).1 ++ (span_word s).2.
Proof.
  induction s as [|c s IH]; [done|]. cbn [span_word]. destruct (isspace c); [done|].
  destruct (span_word s) as [w rest]. cbn in *. by rewrite IH.
Qed.

Lemma scan_word_length (s : cstr) word rest : scan_word s = Some (word, rest) -> word <> [] /\ Zlen word + Zlen rest <= Zlen s.
Proof.
  unfold scan_word. pose proof (span_word_app (skip_space s)) as Happ. pose proof (skip_blank_length s) as Hlen.
  destruct (span_word (skip_space s)) as [[|c cs] r]; [done|]. intros [= <- <-]. cbn in Happ.
  rewrite Happ in Hlen. split; [done|]. rewrite app_comm_cons in Hlen. zlen; lia.
Qed.

Lemma scan_digits_length base acc (s : cstr) : Zlen (scan_digits base acc s).2 <= Zlen s.
Proof.
  revert acc. induction s as [|c s IH]; intros acc; cbn [scan_digits]; [done|].
  destruct (digit_val c) as [d|]; [|done]. destruct (d <? base); [|done]. specialize (IH (acc * base + d)). zlen; lia.
Qed.

Lemma scan_number_length (s : cstr) neg v rest : scan_number 10 s = Some (neg, v, rest) -> Zlen rest <= Zlen s.
Proof.
  unfold scan_number. pose proof (skip_blank_length s) as Hlen.
  destruct (scan_sign (skip_space s)) as [n s1] eqn:Hs1.
  assert (Zlen s1 <= Zlen (skip_space s)).
  { unfold scan_sign in Hs1. destruct (skip_space s) as [|c s']; [by injection Hs1 as <- <-|].
    repeat case_match; injection Hs1 as <- <-; zlen; lia. }
  assert (skip_prefix 10 s1 = s1) as ->.
  { unfold skip_prefix. by destruct s1 as [|? [|? [|? ?]]]. }
  destruct s1 as [|c s1]; [done|]. destruct (is_digit_in 10 c); [|done].
  pose proof (scan_digits_length 10 0 (c :: s1)). destruct (scan_digits 10 0 (c :: s1)) as [v' r].
  intros [= <- <- <-]. cbn in *. lia.
Qed.

Lemma store_word_fits r : (forall word rest, r = Some (word, rest) -> Zlen word <= MAX_CMD_LEN) ->
  store_word (E := E) r = mret r.
Proof.
  intros Hr. destruct r as [[word rest]|]; [|done]. specialize (Hr _ _ eq_refl). cbn [store_word].
  destruct (Z.ltb_spec (MAX_CMD_LEN + 1) (Zlen word + 1)); [lia|done].
Qed.

(** The words of a line that [fgets] returns fit the buffers. *)
Lemma sscanf_command_scan str c w :
  Zlen str <= MAX_CMD_LEN -> scan_command str = Some c -> sscanf_command str w = Done (c, w).
Proof.
  intros Hlen. unfold scan_command, sscanf_command. destruct (skip_space str); [by intros [= <-]|].
  destruct (scan_number 10 str) as [[[neg v] rest]|] eqn:Hn; [|by intros [= <-]].
  apply scan_number_length in Hn. destruct (2 ^ 64 <=? v); [done|].
  rewrite store_word_fits by (intros word r Hw; apply scan_word_length in Hw; pose proof (Zlen_nonneg r); lia).
  destruct (scan_word rest) as [[cmd rest']|] eqn:Hw; [|by intros [= <-]].
  apply scan_word_length in Hw as [_ Hw]. unfold mbind, C_bind, mret, C_ret.
  rewrite store_word_fits by (intros word r Hw'; apply scan_word_length in Hw'; pose proof (Zlen_nonneg r);
    pose proof (Zlen_nonneg cmd); lia).
  destruct (scan_word rest') as [[path r]|]; by intros [= <-].
Qed.

Lemma sscanf_command_none str w :
  Zlen str <= MAX_CMD_LEN -> scan_command str = None -> sscanf_command str w = Undefined.
Proof.
  intros Hlen. unfold scan_command, sscanf_command. destruct (skip_space str); [done|].
  destruct (scan_number 10 str) as [[[neg v] rest]|]; [|done]. destruct (2 ^ 64 <=? v); [done|].
  destruct (scan_word rest) as [[cmd rest']|]; [|done]. by destruct (scan_word rest') as [[path r]|].
Qed.

(** A path was converted exactly when three conversions were made. *)
Lemma scan_command_path str res key cmd path :
  scan_command str = Some (res, key, cmd, path) -> (res = 3 <-> path <> []) /\ (res = 2 -> path = []).
Proof.
  unfold scan_command. destruct (skip_space str); [intros [= <- <- <- <-]; naive_solver lia|].
  destruct (scan_number 10 str) as [[[neg v] rest]|]; [|intros [= <- <- <- <-]; naive_solver lia].
  destruct (2 ^ 64 <=? v); [done|].
  destruct (scan_word rest) as [[cmd' rest']|]; [|intros [= <- <- <- <-]; naive_solver lia].
  destruct (scan_word rest') as [[path' r]|] eqn:Hw; [|intros [= <- <- <- <-]; naive_solver lia].
  apply scan_word_length in Hw as [Hw _]. intros [= <- <- <- <-]. naive_solver.
Qed.

Lemma scan_command_length str res key cmd path :
  scan_command str = Some (res, key, cmd, path) -> Zlen path <= Zlen str.
Proof.
  unfold scan_command. pose proof (Zlen_nonneg str). destruct (skip_space str); [by intros [= <- <- <- <-]|].
  destruct (scan_number 10 str) as [[[neg v] rest]|] eqn:Hn; [|by intros [= <- <- <- <-]].
  apply scan_number_length in Hn. destruct (2 ^ 64 <=? v); [done|].
  destruct (scan_word rest) as [[cmd' rest']|] eqn:Hw; [|by intros [= <- <- <- <-]].
  apply scan_word_length in Hw as [_ Hw]. pose proof (Zlen_nonneg cmd'). pose proof (Zlen_nonneg rest').
  destruct (scan_word rest') as [[path' r]|] eqn:Hw'; intros [= <- <- <- <-]; [|zlen; lia].
  apply scan_word_length in Hw' as [_ Hw']. pose proof (Zlen_nonneg r). lia.
Qed.
End scan.

Section spec.
Context `{DM : DataModel}.
Context `{AvlTree files_tree_node, !AvlLaws files_tree_node}.
Context {E : Type} `{FswEnv E}.
Context (opt_j : bool).
Implicit Types (s : fsw) (w : world E).

(** From [e] to [e'] the messages [ms] were printed. *)
Definition said (ms : list message) (e e' : E) : Prop :=
  exists new, nv_printed e' = nv_printed e ++ new /\ Forall2 (prints opt_j) ms new.

Lemma said_nil e e' : nv_printed e' = nv_printed e -> said [] e e'.
Proof. intros He. exists []. by rewrite app_nil_r. Qed.

Lemma said_app ms ms' e e1 e2 : said ms e e1 -> said ms' e1 e2 -> said (ms ++ ms') e e2.
Proof.
  intros (new & Hp & HF) (new' & Hp' & HF'). exists (new ++ new'). split; [by rewrite Hp', Hp, app_assoc|].
  by apply Forall2_app.
Qed.

(** Between two messages: no list is held and allocations succeed. *)
Definition idle w : Prop := good w /\ nvs [] (w_env w).

(** From [w0] to [w] nothing was printed and the port was left alone. *)
Definition since w0 w : Prop :=
  good w /\ nv_printed (w_env w) = nv_printed (w_env w0) /\ watching (w_env w) = watching (w_env w0).

Lemma since_kept w0 w w' : since w0 w -> good w' -> kept quiet nv_printed (w_env w) (w_env w') -> since w0 w'.
Proof.
  intros (Hg & Hp & Hw) Hg' [Hq Hp']. split; [done|]. split; [by rewrite Hp'|].
  by rewrite (quiet_watching _ _ Hq).
Qed.

Lemma since_sys w0 w name args r e' :
  since w0 w -> is_port_call name = false ->
  sys_step name args (w_env w) = (r, e') ->
  since w0 (World (if sr_ret r =? -1 then sr_errno r else w_errno w) (w_heap w) (w_stderr w) e').
Proof.
  intros (Hg & Hp & Hw) Hn Hs. split; [done|]. cbn.
  by rewrite (sys_printed _ _ _ _ _ Hs), (sys_watching _ _ _ _ _ Hn Hs).
Qed.

(** A pair is added to a list held, and the call checked. *)
Lemma add_pair {A} k v op l1 h l l2 (rest : C E A) Q w0 w :
  nv_adds nvs quiet nv_printed k v op -> since w0 w -> nvs (l1 ++ (h, l) :: l2) (w_env w) ->
  (forall w', since w0 w' -> nvs (l1 ++ (h, nv_put k v l) :: l2) (w_env w') -> wp rest Q w') ->
  wp (r ← op h; ENSURE0 r ;; rest) Q w.
Proof.
  intros Hop Hs Hh Hk. apply wp_bind. eapply wp_mono; [by eapply Hop; [apply Hs|]|].
  intros r w' (-> & Hg & Hq & Hh'). apply wp_bind, wp_ret. apply Hk; [by eapply since_kept|done].
Qed.

(** Adds the pair of the call at the head to the list between [l1] and [l2]. *)
Ltac add_between l1 l2 :=
  let go op k v h law := eapply (add_pair k v op l1 h _ l2); [apply law|eassumption|cbn [app]; eassumption|];
    let Hput := fresh "Hput" in
    intros ? ? Hput; rewrite nv_put_fresh in Hput by reflexivity; cbn [app stamp] in Hput in
  lazymatch goal with
  | |- wp (mbind _ (nvlist_add_string ?h ?k ?v)) _ _ => go (fun h => nvlist_add_string h k v) k (NvString v) h nvs_add_string
  | |- wp (mbind _ (nvlist_add_uint64 ?h ?k ?v)) _ _ => go (fun h => nvlist_add_uint64 h k v) k (NvUint64 v) h nvs_add_uint64
  | |- wp (mbind _ (nvlist_add_uint32 ?h ?k ?v)) _ _ => go (fun h => nvlist_add_uint32 h k v) k (NvUint32 v) h nvs_add_uint32
  | |- wp (mbind _ (nvlist_add_int32 ?h ?k ?v)) _ _ => go (fun h => nvlist_add_int32 h k v) k (NvInt32 v) h nvs_add_int32
  | |- wp (mbind _ (nvlist_add_boolean_value ?h ?k ?v)) _ _ =>
      go (fun h => nvlist_add_boolean_value h k v) k (NvBooleanValue v) h nvs_add_boolean_value
  | |- wp (mbind _ (nvlist_add_string_array ?h ?k ?v)) _ _ =>
      go (fun h => nvlist_add_string_array h k v) k (NvStringArray v) h nvs_add_string_array
  | |- wp (mbind _ (nvlist_add_uint64_array ?h ?k ?v)) _ _ =>
      go (fun h => nvlist_add_uint64_array h k v) k (NvUint64Array v) h nvs_add_uint64_array
  end.
Ltac add_field := add_between (@nil (nvlist_t * nvpairs)) (@nil (nvlist_t * nvpairs)).

Lemma make_nvlist_spec type ls w :
  good w -> nvs ls (w_env w) ->
  wp (make_nvlist type) (fun h w' => since w w' /\ exists sec nsec,
    nvs ((h, stamp type sec nsec) :: ls) (w_env w')) w.
Proof.
  intros Hg Hn. unfold make_nvlist. apply wp_bind. eapply wp_mono; [by apply nvs_alloc|].
  intros r w1 (Hg1 & Hk1 & h & -> & Hh). cbn beta iota zeta. apply wp_bind, wp_ret.
  apply wp_bind. eapply wp_access; [done|].
  assert (Hs1 : since w w1) by (by eapply since_kept; [|done..]; split_and!).
  destruct (sys_step "clock_gettime" [AZ CLOCK_MONOTONIC] (w_env w1)) as [t e'] eqn:Ht.
  apply wp_bind. eapply wp_syscall; [done|].
  destruct (sys_clock_gettime _ _ _ _ Ht) as (Hr & sec & nsec & Hv). rewrite Hr, Hv. cbn [Z.eqb negb].
  apply wp_bind. eapply wp_access; [done|]. apply wp_bind. eapply wp_access; [done|].
  pose proof (since_sys _ _ "clock_gettime" _ _ _ Hs1 eq_refl Ht) as Hs2. rewrite Hr in Hs2.
  pose proof (sys_nvs _ _ _ _ _ _ Ht Hh) as Hh2.
  do 2 add_between (@nil (nvlist_t * nvpairs)) ls.
  apply wp_ret. split; [done|]. by exists sec, nsec.
Qed.

(** A message was printed, and the program is between two messages again. *)
Definition spoke (ms : list message) w w' : Prop :=
  idle w' /\ said ms (w_env w) (w_env w') /\ watching (w_env w') = watching (w_env w).

(** Printing the list held, and releasing it. *)
Lemma print_last m h sec nsec w0 w :
  since w0 w -> nvs [(h, stamp (msg_type m) sec nsec ++ msg_fields m)] (w_env w) ->
  wp (print_nvlist opt_j h ;; nvlist_free h) (fun _ => spoke [m] w0) w.
Proof.
  intros (Hg & Hp & Hwt) Hh. apply wp_bind.
  assert (Hpr : nv_prints nvs quiet nv_printed opt_j (print_nvlist opt_j)).
  { unfold print_nvlist. destruct opt_j; [apply nvs_print_json|apply nvs_print]. }
  eapply wp_mono; [by eapply (Hpr [] _ _ [])|]. intros _ w1 (Hg1 & Hq1 & Hp1 & Hh1).
  eapply wp_mono; [by eapply (nvs_free [] _ _ [])|]. intros _ w2 (Hg2 & [Hq2 Hp2] & Hh2).
  split; [by split|]. split.
  - eexists. split; [by rewrite Hp2, Hp1, Hp|]. constructor; [|done]. split; [done|]. by exists sec, nsec.
  - by rewrite (quiet_watching _ _ Hq2), (quiet_watching _ _ Hq1).
Qed.

Ltac message_start :=
  intros [Hg Hn]; apply wp_bind; eapply wp_mono; [by eapply make_nvlist_spec|];
  intros h w1 (Hs1 & sec & nsec & Hh1); cbn beta zeta.

Ltac message_end m :=
  eapply (print_last m); [eassumption|];
  lazymatch goal with Hh : nvs _ (w_env ?w) |- nvs _ (w_env ?w) => exact Hh end.

Lemma print_event_spec revents path final w :
  idle w -> wp (print_event opt_j revents path final) (fun _ => spoke [MsgEvent revents path final] w) w.
Proof. unfold print_event. message_start. do 4 add_field. message_end (MsgEvent revents path final). Qed.

Lemma print_ready_spec w : idle w -> wp (print_ready opt_j) (fun _ => spoke [MsgReady] w) w.
Proof. unfold print_ready. message_start. message_end MsgReady. Qed.

Lemma print_error_spec key code text w :
  idle w -> wp (print_error opt_j key code text) (fun _ => spoke [MsgError key code text] w) w.
Proof. unfold print_error. message_start. do 3 add_field. message_end (MsgError key code text). Qed.

Lemma print_response_spec key code path text w :
  idle w -> wp (print_response opt_j key code path text) (fun _ => spoke [MsgResponse key code path text] w) w.
Proof. unfold print_response. message_start. do 5 add_field. message_end (MsgResponse key code path text). Qed.

(** ** The tree *)

#[local] Abbreviation nodes s := (avl_nodes (fs_tree s)).
#[local] Abbreviation cmp := files_tree_node_comparator.

Lemma comparator_sgn l r :
  cmp l r = if ftn_hash l =? ftn_hash r then Z.sgn (strcmp (ftn_text l) (ftn_text r)) else Z.sgn (ftn_hash l - ftn_hash r).
Proof.
  unfold cmp. destruct (Z.ltb_spec (ftn_hash l) (ftn_hash r)), (Z.ltb_spec (ftn_hash r) (ftn_hash l)),
    (Z.eqb_spec (ftn_hash l) (ftn_hash r)); try lia.
  destruct (Z.ltb_spec (strcmp (ftn_text l) (ftn_text r)) 0), (Z.ltb_spec 0 (strcmp (ftn_text l) (ftn_text r))); lia.
Qed.

#[export] Instance comparator_laws : CmpLaws cmp.
Proof.
  constructor.
  - intros x. by rewrite comparator_sgn, Z.eqb_refl, (proj2 (strcmp_eq _ _)).
  - intros x y. rewrite !comparator_sgn, (Z.eqb_sym (ftn_hash y)), (strcmp_opp (ftn_text y)).
    destruct (Z.eqb_spec (ftn_hash x) (ftn_hash y)); lia.
  - intros x y z. rewrite !comparator_sgn. pose proof (strcmp_trans (ftn_text x) (ftn_text y) (ftn_text z)).
    destruct (Z.eqb_spec (ftn_hash x) (ftn_hash y)), (Z.eqb_spec (ftn_hash y) (ftn_hash z)),
      (Z.eqb_spec (ftn_hash x) (ftn_hash z)); lia.
Qed.

Lemma comparator_eq l r : cmp l r = 0 <-> ftn_hash l = ftn_hash r /\ ftn_text l = ftn_text r.
Proof. rewrite comparator_sgn, <-strcmp_eq. destruct (Z.eqb_spec (ftn_hash l) (ftn_hash r)); lia. Qed.

(** In an increasing sequence equal nodes are the same. *)
Lemma increasing_inj l x y : increasing cmp l -> x ∈ l -> y ∈ l -> cmp x y = 0 -> x = y.
Proof.
  induction l as [|z l IH]; [by intros _ Hx%not_elem_of_nil|]. intros [Hz Hl].
  rewrite !elem_of_cons. rewrite list.Forall_forall in Hz.
  intros [->|Hx] [->|Hy] He; [done| | |by apply IH].
  - specialize (Hz _ Hy). cbn in Hz. lia.
  - specialize (Hz _ Hx). cbn in Hz. apply (cmp_sym cmp) in He. lia.
Qed.

(** ** The invariant

    The tree holds each watched file once; each node owns its block and the block of its name, and
    there are no others; and the port watches exactly the objects of the nodes, but those in [X]. *)
Record fsw_ok (X : gset Z) s (e : E) : Prop := {
  ok_cmp : avl_cmp (fs_tree s) = cmp;
  ok_increasing : increasing cmp (nodes s);
  ok_hash n : n ∈ nodes s -> ftn_hash n = djb2 (ftn_text n);
  ok_mem a t : fs_mem s !! a = Some t <-> exists n, n ∈ nodes s /\ ftn_name n = a /\ ftn_text n = t;
  ok_fobj n : n ∈ nodes s -> exists ts, fs_fobj s !! ftn_addr n = Some (FileObj (ftn_name n) ts);
  ok_fobj_only a : is_Some (fs_fobj s !! a) -> exists n, n ∈ nodes s /\ ftn_addr n = a;
  ok_next n : n ∈ nodes s -> ftn_addr n < fs_next s /\ ftn_name n < fs_next s;
  ok_names n m : n ∈ nodes s -> m ∈ nodes s -> ftn_name n = ftn_name m -> n = m;
  ok_addrs n m : n ∈ nodes s -> m ∈ nodes s -> ftn_addr n = ftn_addr m -> n = m;
  ok_port o u : watching e !! o = Some u <-> (exists n, n ∈ nodes s /\ ftn_addr n = o /\ ftn_name n = u) /\ o ∉ X
}.

Lemma node_text_inj X s e n m : fsw_ok X s e -> n ∈ nodes s -> m ∈ nodes s -> ftn_text n = ftn_text m -> n = m.
Proof.
  intros Hok Hn Hm Ht. apply (increasing_inj (nodes s)); [apply Hok|done|done|].
  rewrite comparator_eq, !(ok_hash _ _ _ Hok) by done. split; congruence.
Qed.

(** The names of the files watched. *)
Definition watched s : gset cstr := list_to_set (ftn_text <$> nodes s).

Lemma elem_of_watched s p : p ∈ watched s <-> exists n, n ∈ nodes s /\ ftn_text n = p.
Proof.
  unfold watched. rewrite elem_of_list_to_set, list_elem_of_fmap.
  split; intros (n & ? & ?); exists n; by split.
Qed.

Lemma find_handle_spec X s e p n :
  fsw_ok X s e -> (find_handle s p = Some n <-> n ∈ nodes s /\ ftn_text n = p).
Proof.
  intros Hok. unfold find_handle.
  rewrite avl_find_nodes by (rewrite (ok_cmp _ _ _ Hok); apply _ || apply Hok). rewrite (ok_cmp _ _ _ Hok).
  set (key := FilesTreeNode 0 0 p (djb2 p)).
  assert (Hf : forall m, m ∈ filter (fun y => cmp key y = 0) (nodes s) <-> m ∈ nodes s /\ ftn_text m = p).
  { intros m. rewrite list_elem_of_filter, comparator_eq. cbn [key ftn_hash ftn_text].
    pose proof (ok_hash _ _ _ Hok m). naive_solver congruence. }
  destruct (filter _ _) as [|m l]; cbn [head].
  - split; [done|]. intros Hn. by apply Hf, not_elem_of_nil in Hn.
  - destruct (proj1 (Hf m)) as [Hm Ht]; [by left|]. split; [by intros [= <-]|]. intros [Hn Ht'].
    f_equal. eapply node_text_inj; [exact Hok|done|done|congruence].
Qed.

Lemma find_handle_none X s e p : fsw_ok X s e -> (find_handle s p = None <-> p ∉ watched s).
Proof.
  intros Hok. rewrite elem_of_watched. destruct (find_handle s p) as [n|] eqn:Hf.
  - apply (find_handle_spec X s e) in Hf as [Hn Ht]; [|done]. split; [done|]. intros []. eauto.
  - split; [|done]. intros _ (n & Hn & Ht).
    assert (find_handle s p = Some n) by (by apply (find_handle_spec X s e)). congruence.
Qed.

Lemma fsw_ok_env X s e e' : watching e' = watching e -> fsw_ok X s e -> fsw_ok X s e'.
Proof. intros He []. constructor; try done. by rewrite He. Qed.

(** Only the objects of nodes matter in [X]. *)
Lemma fsw_ok_exempt X Y s e :
  (forall n, n ∈ nodes s -> ftn_addr n ∈ X <-> ftn_addr n ∈ Y) -> fsw_ok X s e -> fsw_ok Y s e.
Proof.
  intros HXY []. constructor; try done. intros o u. rewrite ok_port0.
  split; intros [(n & Hn & <- & <-) Ho]; (split; [by exists n|]; specialize (HXY n Hn); tauto).
Qed.

(** The port lets an object go. *)
Lemma fsw_ok_release X s e e' o :
  watching e' = delete o (watching e) -> fsw_ok X s e -> fsw_ok ({[o]} ∪ X) s e'.
Proof.
  intros He []. constructor; try done. intros o' u. rewrite He, lookup_delete_Some, ok_port0. set_solver.
Qed.

(** The port watches the object of a node. *)
Lemma fsw_ok_arm X s e e' n ts :
  fsw_ok X s e -> n ∈ nodes s -> watching e' = <[ftn_addr n := ftn_name n]> (watching e) ->
  fsw_ok (X ∖ {[ftn_addr n]}) (Fsw (fs_tree s) (<[ftn_addr n := FileObj (ftn_name n) ts]> (fs_fobj s)) (fs_mem s) (fs_next s)) e'.
Proof.
  intros [] Hn He. constructor; cbn [fs_tree fs_fobj fs_mem fs_next]; try done.
  - intros m Hm. destruct (decide (ftn_addr m = ftn_addr n)) as [Ha|Ha].
    + rewrite (ok_addrs0 _ _ Hm Hn Ha), lookup_insert_eq. by exists ts.
    + rewrite lookup_insert_ne by done. by apply ok_fobj0.
  - intros a Ha. apply lookup_insert_is_Some in Ha as [<-|[_ Ha]]; [by exists n|by apply ok_fobj_only0].
  - intros o u. rewrite He, lookup_insert_Some, ok_port0. split.
    + intros [[<- <-]|[Hne [Hm Ho]]]; [split; [by exists n|set_solver]|]. split; [done|]. set_solver.
    + intros [(m & Hm & <- & <-) Ho]. destruct (decide (ftn_addr n = ftn_addr m)) as [Ha|Ha].
      * left. by rewrite (ok_addrs0 _ _ Hn Hm Ha).
      * right. split; [done|]. split; [by exists m|set_solver].
Qed.

(** The times of a node change. *)
Lemma fsw_ok_times X s e n ts :
  fsw_ok X s e -> n ∈ nodes s ->
  fsw_ok X (Fsw (fs_tree s) (<[ftn_addr n := FileObj (ftn_name n) ts]> (fs_fobj s)) (fs_mem s) (fs_next s)) e.
Proof.
  intros [] Hn. constructor; cbn [fs_tree fs_fobj fs_mem fs_next]; try done.
  - intros m Hm. destruct (decide (ftn_addr m = ftn_addr n)) as [Ha|Ha].
    + rewrite (ok_addrs0 _ _ Hm Hn Ha), lookup_insert_eq. by exists ts.
    + rewrite lookup_insert_ne by done. by apply ok_fobj0.
  - intros a Ha. apply lookup_insert_is_Some in Ha as [<-|[_ Ha]]; [by exists n|by apply ok_fobj_only0].
Qed.

(** The state with a new node. *)
Definition with_node s (p : cstr) : fsw :=
  Fsw (avl_insert (fs_tree s) (FilesTreeNode (fs_next s) (fs_next s + 1) p (djb2 p)))
    (<[fs_next s := FileObj (fs_next s + 1) []]> (fs_fobj s)) (<[fs_next s + 1 := p]> (fs_mem s)) (fs_next s + 2).

Definition new_node s (p : cstr) : files_tree_node := FilesTreeNode (fs_next s) (fs_next s + 1) p (djb2 p).

Lemma fsw_ok_find_new X s e p : fsw_ok X s e -> p ∉ watched s -> avl_find (fs_tree s) (new_node s p) = None.
Proof.
  intros Hok Hp. apply (find_handle_none _ _ _ _ Hok) in Hp. unfold find_handle in Hp.
  rewrite avl_find_nodes in * by (rewrite (ok_cmp _ _ _ Hok); apply _ || apply Hok).
  by rewrite (ok_cmp _ _ _ Hok) in *.
Qed.

Lemma elem_of_with_node X s e p n :
  fsw_ok X s e -> p ∉ watched s -> (n ∈ nodes (with_node s p) <-> n = new_node s p \/ n ∈ nodes s).
Proof.
  intros Hok Hp. cbn [with_node fs_tree]. rewrite avl_insert_nodes by
    (rewrite ?(ok_cmp _ _ _ Hok); apply _ || apply Hok || by eapply fsw_ok_find_new).
  by rewrite insert_sorted_perm, elem_of_cons.
Qed.

Lemma fsw_ok_with_node X s e p :
  fsw_ok X s e -> p ∉ watched s -> fsw_ok ({[fs_next s]} ∪ X) (with_node s p) e.
Proof.
  intros Hok Hp. pose proof (fun n => elem_of_with_node X s e p n Hok Hp) as Hin.
  pose proof (ok_next _ _ _ Hok) as Hnext.
  constructor.
  - cbn [with_node fs_tree]. by rewrite avl_insert_cmp, (ok_cmp _ _ _ Hok).
  - cbn [with_node fs_tree]. rewrite avl_insert_nodes by
      (rewrite ?(ok_cmp _ _ _ Hok); apply _ || apply Hok || by eapply fsw_ok_find_new).
    rewrite (ok_cmp _ _ _ Hok). apply insert_sorted_increasing; [apply _|apply Hok|].
    apply list.Forall_forall. intros m Hm [_ Ht]%comparator_eq. apply Hp. apply elem_of_watched.
    exists m. by rewrite <-Ht.
  - intros n. rewrite Hin. intros [->|Hn]; [done|by apply (ok_hash _ _ _ Hok)].
  - intros a t. cbn [with_node fs_mem]. rewrite lookup_insert_Some, (ok_mem _ _ _ Hok). split.
    + intros [[<- <-]|[_ (n' & ? & ? & ?)]]; [exists (new_node s p)|exists n']; rewrite Hin; auto.
    + intros (n' & [->|Hn']%Hin & <- & <-); [by left|]. right. split; [|by exists n'].
      specialize (Hnext _ Hn'). lia.
  - intros n [->|Hn]%Hin; cbn [with_node fs_fobj].
    + exists []. by rewrite lookup_insert_eq.
    + rewrite lookup_insert_ne by (specialize (Hnext _ Hn); lia). by apply (ok_fobj _ _ _ Hok).
  - intros a Ha. cbn [with_node fs_fobj] in Ha.
    apply lookup_insert_is_Some in Ha as [<-|[_ Ha]]; [by exists (new_node s p); rewrite Hin; auto|].
    destruct (ok_fobj_only _ _ _ Hok a Ha) as (n & Hn & ?). exists n. rewrite Hin. auto.
  - intros n [->|Hn]%Hin; cbn; [lia|]. specialize (Hnext _ Hn). lia.
  - intros n m [->|Hn]%Hin [->|Hm]%Hin Hnm; [done| | |by apply (ok_names _ _ _ Hok)];
      [specialize (Hnext _ Hm)|specialize (Hnext _ Hn)]; cbn in Hnm; lia.
  - intros n m [->|Hn]%Hin [->|Hm]%Hin Hnm; [done| | |by apply (ok_addrs _ _ _ Hok)];
      [specialize (Hnext _ Hm)|specialize (Hnext _ Hn)]; cbn in Hnm; lia.
  - intros o u. rewrite (ok_port _ _ _ Hok). split.
    + intros [(n & Hn & <- & <-) Ho]. specialize (Hnext _ Hn). split; [exists n; rewrite Hin; auto|].
      rewrite elem_of_union, elem_of_singleton. intros [?|?]; [lia|done].
    + intros [(n & [->|Hn]%Hin & <- & <-) Ho]; [set_solver|]. split; [by exists n|set_solver].
Qed.

(** A node is taken out. *)
Lemma elem_of_removed X s e n m :
  fsw_ok X s e -> n ∈ nodes s -> (m ∈ nodes (remove_handle s n) <-> m ∈ nodes s /\ m <> n).
Proof.
  intros Hok Hn. cbn [remove_handle fs_tree].
  rewrite avl_remove_nodes by (rewrite (ok_cmp _ _ _ Hok); apply _ || apply Hok). rewrite (ok_cmp _ _ _ Hok).
  rewrite list_elem_of_filter. split.
  - intros [Hne Hm]. split; [done|]. intros ->. apply Hne, cmp_refl.
  - intros [Hm Hne]. split; [|done]. intros Hc. apply Hne. symmetry. by eapply increasing_inj; [apply Hok|..].
Qed.

(** The state without a node. *)
Definition without_node s (n : files_tree_node) : fsw :=
  Fsw (avl_remove (fs_tree s) n) (delete (ftn_addr n) (fs_fobj s)) (delete (ftn_name n) (fs_mem s)) (fs_next s).

Lemma fsw_ok_without X s e n :
  fsw_ok X s e -> n ∈ nodes s -> watching e !! ftn_addr n = None -> fsw_ok X (without_node s n) e.
Proof.
  intros Hok Hn Hw.
  assert (Hin : forall m, m ∈ nodes (without_node s n) <-> m ∈ nodes s /\ m <> n) by
    (intros m; by apply (elem_of_removed X s e)).
  destruct Hok. constructor; cbn [without_node fs_mem fs_fobj fs_next].
  - cbn [without_node fs_tree]. by rewrite avl_remove_cmp.
  - cbn [without_node fs_tree]. rewrite avl_remove_nodes by (rewrite ok_cmp0; apply _ || done).
    rewrite ok_cmp0. by apply filter_increasing.
  - intros m [Hm _]%Hin. by apply ok_hash0.
  - intros a t. rewrite lookup_delete_Some, ok_mem0. split.
    + intros [Hne (m & Hm & <- & <-)]. exists m. rewrite Hin. split_and!; [done|congruence|done|done].
    + intros (m & [Hm Hne]%Hin & <- & <-). split; [|by exists m]. intros Ha. by apply Hne, ok_names0.
  - intros m [Hm Hne]%Hin. rewrite lookup_delete_ne; [by apply ok_fobj0|]. intros Ha. by apply Hne, ok_addrs0.
  - intros a [fo [Hne Ha]%lookup_delete_Some]. destruct (ok_fobj_only0 a) as (m & Hm & <-); [by eexists|].
    exists m. rewrite Hin. split; [|done]. split; [done|congruence].
  - intros m [Hm _]%Hin. by apply ok_next0.
  - intros m m' [Hm _]%Hin [Hm' _]%Hin. by apply ok_names0.
  - intros m m' [Hm _]%Hin [Hm' _]%Hin. by apply ok_addrs0.
  - intros o u. split.
    + intros Ho. pose proof Ho as [(m & Hm & <- & <-) HX]%ok_port0. split; [|done]. exists m. rewrite Hin.
      split; [|done]. split; [done|congruence].
    + intros [(m & [Hm _]%Hin & <- & <-) HX]. apply ok_port0. split; [by exists m|done].
Qed.

Lemma destroy_handle_spec X s e n (Q : fsw -> world E -> Prop) w :
  fsw_ok X s e -> n ∈ nodes s -> Q (without_node s n) w -> wp (destroy_handle s n) Q w.
Proof.
  intros Hok Hn HQ. unfold destroy_handle. cbn [remove_handle fs_tree fs_fobj fs_mem fs_next].
  destruct (ok_fobj _ _ _ Hok n Hn) as [ts Hts]. apply wp_bind. eapply wp_access.
  { apply (ok_mem _ _ _ Hok). by exists n. }
  apply wp_bind. eapply wp_access; [exact Hts|]. by apply wp_ret.
Qed.

(** ** Calls of the kernel *)

Lemma spoke_trans ms ms' w w1 w2 : spoke ms w w1 -> spoke ms' w1 w2 -> spoke (ms ++ ms') w w2.
Proof.
  intros (_ & Hs & Hw) (Hi & Hs' & Hw'). split; [done|]. split; [by eapply said_app|congruence].
Qed.

Lemma spoke_refl w : idle w -> spoke [] w w.
Proof. intros Hi. split; [done|]. split; [by apply said_nil|done]. Qed.

Lemma spoke_idle ms w w' : spoke ms w w' -> idle w'.
Proof. by intros [? _]. Qed.

(** [errno] and the allocator do not matter. *)
Lemma spoke_frame ms w w1 w2 : spoke ms w w1 -> frame w1 w2 -> spoke ms w w2.
Proof.
  intros ([Hg Hn] & Hs & Hw) Hf. pose proof (frame_env _ _ Hf) as He.
  split; [split; [by eapply good_frame|by rewrite He]|]. split; by rewrite He.
Qed.

Lemma spoke_sys w name args r e' :
  idle w -> is_port_call name = false -> sys_step name args (w_env w) = (r, e') ->
  spoke [] w (World (if sr_ret r =? -1 then sr_errno r else w_errno w) (w_heap w) (w_stderr w) e').
Proof.
  intros [Hg Hn] Hp Hs. split; [split; [done|by eapply sys_nvs]|]. split.
  - by apply said_nil, (sys_printed _ _ _ _ _ Hs).
  - by apply (sys_watching _ _ _ _ _ Hp Hs).
Qed.

(** What [stat], and the calls of the port, were seen to answer. *)
Definition fails (name : string) (args : list sarg) (er : Z) : Prop :=
  exists e r e', sys_step name args e = (r, e') /\ sr_ret r = -1 /\ sr_errno r = er.
Definition stat_succeeds (path : cstr) : Prop :=
  exists e r e', sys_step "stat" [AS path] e = (r, e') /\ sr_ret r = 0.

Definition fixable : list Z := [ELOOP; ENOTDIR; EACCES; ENOENT].

(** [stat] failed in another way than those the program is prepared for. *)
Definition stat_unexpected : Prop := exists path er, fails "stat" [AS path] er /\ er ∉ fixable.

Lemma stat_retry_spec n path w :
  idle w -> (n = 0%nat -> stat_unexpected) ->
  wpa stat_unexpected (stat_retry n path) (fun '(er, _) w' => spoke [] w w' /\
    (er = 0 /\ stat_succeeds path \/ er <> EINTR /\ er <> 0 /\ fails "stat" [AS path] er)) w.
Proof.
  revert w. induction n as [|n IH]; intros w Hi Hn; [by apply Hn|]. cbn [stat_retry].
  destruct (sys_step "stat" [AS path] (w_env w)) as [r e'] eqn:Hs.
  pose proof (spoke_sys _ "stat" _ _ _ Hi eq_refl Hs) as Hsp.
  apply wpa_bind, wpa_wp. eapply wp_syscall; [done|].
  apply wpa_bind, wpa_wp, wp_get_errno. cbn [w_errno].
  destruct (sys_stat _ _ _ _ Hs) as [Hr|[Hr Hnz]]; rewrite Hr in *; cbn [Z.eqb Pos.eqb] in *.
  - apply wpa_ret. split; [done|]. left. split; [done|]. by exists (w_env w), r, e'.
  - assert (Hf : fails "stat" [AS path] (sr_errno r)) by by exists (w_env w), r, e'.
    destruct (Z.eqb_spec (sr_errno r) EINTR) as [He|He]; cbn [negb].
    + eapply wpa_mono; [apply IH|].
      * by eapply spoke_idle.
      * intros _. exists path, (sr_errno r). split; [done|]. rewrite He. by_decide.
      * intros [er ts] w' [Hsp' Ho]. split; [by eapply (spoke_trans [] [])|done].
    + apply wpa_ret. split; [done|]. by right.
Qed.

Lemma get_stat_spec path w :
  idle w ->
  wpa stat_unexpected (get_stat path) (fun '(er, _) w' => spoke [] w w' /\
    (er = 0 /\ stat_succeeds path \/ er ∈ fixable /\ fails "stat" [AS path] er)) w.
Proof.
  intros Hi. unfold get_stat. apply wpa_bind. eapply wpa_mono; [by apply stat_retry_spec|].
  intros [er ts] w' [Hsp Ho]. destruct (Z.eqb_spec er 0) as [->|Hz].
  - apply wpa_ret. split; [done|]. destruct Ho as [?|(_ & [] & _)]; [by left|done].
  - destruct Ho as [[? _]|(_ & _ & Hf)]; [done|]. case_bool_decide as Hfx.
    + apply wpa_ret. split; [done|by right].
    + by exists path, er.
Qed.

(** ** Arming a watch *)

Context (strerror : Z -> cstr) (port : Z).

Definition stat_text (er : Z) : cstr := cs "stat(2) failed with errno " ++ print_d er ++ cs ": " ++ strerror er.
Definition associate_text (er : Z) : cstr :=
  cs "port_associate(3c) failed with errno " ++ print_d er ++ cs ": " ++ strerror er.
Definition lost_text (path : cstr) (er : Z) : cstr :=
  cs "port_associate(3c) failed for '" ++ path ++ cs "', errno " ++ print_d er ++ cs ": " ++ strerror er.

(** The answers when a watch is armed ([key] is the command's, [revents] 0) or armed again after
    the events [revents] ([key] 0), and whether the file is watched from then on. *)
Inductive rearm_reply (path : cstr) : Z -> Z -> list message -> bool -> Prop :=
| watch_no_stat key er : key <> 0 -> fails "stat" [AS path] er ->
    rearm_reply path key 0 [MsgResponse key RESULT_FAILURE path (stat_text er)] false
| watch_refused key er args : key <> 0 -> stat_succeeds path -> fails "port_associate" args er ->
    rearm_reply path key 0 [MsgResponse key RESULT_FAILURE path (associate_text er)] false
| watch_started key : key <> 0 -> stat_succeeds path ->
    rearm_reply path key 0
      [MsgResponse key RESULT_SUCCESS path (cs "port_associate(3c) started watching path")] true
| event_gone revents : revents <> 0 -> is_gone revents = true \/ (exists er, fails "stat" [AS path] er) ->
    rearm_reply path 0 revents [MsgEvent revents path true] false
| event_again revents : revents <> 0 -> is_gone revents = false -> stat_succeeds path ->
    rearm_reply path 0 revents [MsgEvent revents path false] true
| event_lost revents er args er' : revents <> 0 -> is_gone revents = false -> stat_succeeds path ->
    fails "port_associate" args er' ->
    rearm_reply path 0 revents
      [MsgEvent revents path false; MsgError 0 ERR_CANNOT_ASSOCIATE (lost_text path er)] false.

(** The arguments of [port_associate] for a node. *)
Definition associate_args (n : files_tree_node) (times : list Z) : list sarg :=
  [AZ port; AZ PORT_SOURCE_FILE; AZ (ftn_addr n); AS (ftn_text n)] ++ (AZ <$> times) ++
  [AZ (Z.lor FILE_MODIFIED FILE_TRUNC); AZ (ftn_name n)].

(** What is left of the nodes. *)
Definition keeps (kept : bool) (n : files_tree_node) s s' : Prop :=
  fs_next s' = fs_next s /\ forall m, m ∈ nodes s' <-> m ∈ nodes s /\ (kept = true \/ m <> n).

(** After the object of [n] was dealt with, with the answers [ms]. *)
Definition dealt (X : gset Z) (n : files_tree_node) key revents s w s' w' : Prop :=
  exists ms kept, rearm_reply (ftn_text n) key revents ms kept /\ keeps kept n s s' /\
    fsw_ok (X ∖ {[ftn_addr n]}) s' (w_env w') /\
    idle w' /\ said ms (w_env w) (w_env w').

Lemma keeps_without X s e n : fsw_ok X s e -> n ∈ nodes s -> keeps false n s (without_node s n).
Proof.
  intros Hok Hn. split; [done|]. intros m. pose proof (elem_of_removed X s e n m Hok Hn) as Hr.
  change (nodes (without_node s n)) with (nodes (remove_handle s n)). rewrite Hr. naive_solver.
Qed.

(** The end of a watch whose object the port has let go. *)
Lemma destroy_dealt X s e w0 w n key revents ms :
  fsw_ok X s e -> n ∈ nodes s -> ftn_addr n ∈ X -> watching (w_env w) = watching e ->
  rearm_reply (ftn_text n) key revents ms false -> idle w -> said ms (w_env w0) (w_env w) ->
  wp (destroy_handle s n) (dealt X n key revents s w0) w.
Proof.
  intros Hok Hn HX Hw Hr Hi Hs. eapply destroy_handle_spec; [exact Hok|done|].
  exists ms, false. split; [done|]. split; [by eapply keeps_without|]. split; [|done].
  assert (Ho : watching e !! ftn_addr n = None).
  { apply eq_None_not_Some. intros [u Hu]. by apply (ok_port _ _ _ Hok) in Hu as [_ Hno]. }
  apply (fsw_ok_env _ _ e); [done|]. eapply fsw_ok_exempt; [|by eapply fsw_ok_without].
  intros m Hm. change (nodes (without_node s n)) with (nodes (remove_handle s n)) in Hm.
  apply (elem_of_removed _ _ _ _ _ Hok Hn) in Hm as [Hm Hne].
  rewrite elem_of_difference, elem_of_singleton. split; [|tauto]. intros HmX. split; [done|].
  intros Ha. by apply Hne, (ok_addrs _ _ _ Hok).
Qed.

(** What [port_associate] does: it arms the object, or fails and leaves the port alone. *)
Lemma associate_spec X s w n times (Q : Z -> world E -> Prop) :
  fsw_ok X s (w_env w) -> n ∈ nodes s -> idle w ->
  (forall w', spoke [] w w' -> fails "port_associate" (associate_args n times) (w_errno w') -> Q (-1) w') ->
  (forall r w', r <> -1 -> idle w' -> said [] (w_env w) (w_env w') ->
    watching (w_env w') = <[ftn_addr n := ftn_name n]> (watching (w_env w)) -> Q r w') ->
  wp (sys "port_associate" (associate_args n times)) Q w.
Proof.
  intros Hok Hn Hi Hfail Hdone.
  destruct (sys_step "port_associate" (associate_args n times) (w_env w)) as [r e'] eqn:Hs.
  eapply wp_sys; [exact Hs|]. pose proof (sys_port_associate _ _ _ _ _ _ _ _ _ Hs) as Hw.
  assert (Hi1 : nvs [] e') by (eapply sys_nvs; [exact Hs|apply Hi]).
  assert (Hp1 : said [] (w_env w) e') by (by apply said_nil, (sys_printed _ _ _ _ _ Hs)).
  destruct (Z.eqb_spec (sr_ret r) (-1)) as [Hr|Hr].
  - rewrite Hr. apply Hfail; [|by exists (w_env w), r, e'].
    split; [split; [apply Hi|done]|]. by split.
  - apply Hdone; [done| |done|done]. split; [apply Hi|done].
Qed.

Lemma rearm_spec X s w n key revents times :
  fsw_ok X s (w_env w) -> n ∈ nodes s -> ftn_addr n ∈ X -> idle w -> stat_succeeds (ftn_text n) ->
  (key <> 0 /\ revents = 0 \/ key = 0 /\ revents <> 0 /\ is_gone revents = false) ->
  wp (rearm strerror opt_j port s key (ftn_name n) (ftn_text n) revents n times) (dealt X n key revents s w) w.
Proof.
  intros Hok Hn HX Hi Hst Hkey. unfold rearm. change SYSTEM_KEY with 0.
  destruct (ok_fobj _ _ _ Hok n Hn) as [ts Hts]. apply wp_bind. eapply wp_access; [exact Hts|].
  cbn [fo_name fo_times fs_tree fs_fobj fs_mem fs_next]. apply wp_bind. eapply wp_access.
  { apply (ok_mem _ _ _ Hok). by exists n. }
  pose proof (fsw_ok_times _ _ _ _ times Hok Hn) as Hok1. pose proof (fun e' => fsw_ok_arm X s _ e' n times Hok Hn) as Harm.
  set (s1 := Fsw _ _ _ _) in *. apply wp_bind, (associate_spec X s); [done..| |].
  - intros w1 Hsp Hf. cbn [Z.eqb Pos.eqb]. destruct Hkey as [[Hk ->]|(-> & Hrev & Hgone)].
    + rewrite (proj2 (Z.eqb_neq _ _) Hk). cbn [negb]. apply wp_bind, wp_VERIFY; [done|].
      apply wp_bind, wp_get_errno, wp_bind. eapply wp_mono; [by eapply print_response_spec, spoke_idle|].
      intros [] w2 Hsp2. pose proof (spoke_trans _ _ _ _ _ Hsp Hsp2) as (Hi2 & Hs2 & Hw2).
      by eapply (destroy_dealt X s1); [..|eapply watch_refused| |].
    + cbn [negb Z.eqb]. apply wp_bind, wp_VERIFY; [by rewrite (proj2 (Z.eqb_neq _ _) Hrev)|].
      apply wp_bind. eapply wp_mono; [by eapply print_event_spec, spoke_idle|]. intros [] w2 Hsp2.
      apply wp_bind, wp_get_errno, wp_bind. eapply wp_mono; [by eapply print_error_spec, spoke_idle|].
      intros [] w3 Hsp3. pose proof (spoke_trans _ _ _ _ _ (spoke_trans _ _ _ _ _ Hsp Hsp2) Hsp3) as (Hi3 & Hs3 & Hw3).
      eapply (destroy_dealt X s1); [exact Hok1|done|done|exact Hw3| |done|exact Hs3]. by eapply event_lost.
  - intros r w1 Hr Hi1 Hs1 Hw1. rewrite (proj2 (Z.eqb_neq _ _) Hr). destruct Hkey as [[Hk ->]|(-> & Hrev & Hgone)].
    + rewrite (proj2 (Z.eqb_neq _ _) Hk). cbn [negb]. apply wp_bind, wp_VERIFY; [done|].
      apply wp_bind. eapply wp_mono; [by eapply print_response_spec|]. intros [] w2 (Hi2 & Hs2 & Hw2). apply wp_ret.
      eexists _, true. split; [by apply watch_started|]. split; [by split; [|intros m; tauto]|].
      split; [by apply Harm; rewrite Hw2|]. split; [done|by eapply (said_app [])].
    + cbn [negb Z.eqb]. apply wp_bind, wp_VERIFY; [by rewrite (proj2 (Z.eqb_neq _ _) Hrev)|].
      apply wp_bind. eapply wp_mono; [by eapply print_event_spec|]. intros [] w2 (Hi2 & Hs2 & Hw2). apply wp_ret.
      eexists _, true. split; [by apply event_again|]. split; [by split; [|intros m; tauto]|].
      split; [by apply Harm; rewrite Hw2|]. split; [done|by eapply (said_app [])].
Qed.

Lemma dealt_after X n key revents s w w1 s' w' :
  spoke [] w w1 -> dealt X n key revents s w1 s' w' -> dealt X n key revents s w s' w'.
Proof.
  intros (_ & Hs & _) (ms & kept & ? & ? & ? & ? & Hs'). exists ms, kept. split_and!; try done.
  by eapply (said_app []).
Qed.

(** The last event of a file. *)
Lemma gone_spec X s w n revents :
  fsw_ok X s (w_env w) -> n ∈ nodes s -> ftn_addr n ∈ X -> idle w -> revents <> 0 ->
  (is_gone revents = true \/ exists er, fails "stat" [AS (ftn_text n)] er) ->
  wp ((if negb (revents =? 0) then print_event opt_j revents (ftn_text n) true else mret tt) ;; destroy_handle s n)
    (dealt X n 0 revents s w) w.
Proof.
  intros Hok Hn HX Hi Hrev Hgone. rewrite (proj2 (Z.eqb_neq _ _) Hrev). cbn [negb].
  apply wp_bind. eapply wp_mono; [by apply print_event_spec|]. intros [] w1 (Hi1 & Hs1 & Hw1).
  by eapply destroy_dealt; [..|apply event_gone| |].
Qed.

Lemma is_gone_0 : is_gone 0 = false.
Proof. done. Qed.

Lemma check_and_rearm_event_spec X s w n key revents ftn :
  fsw_ok X s (w_env w) -> n ∈ nodes s -> ftn_addr n ∈ X -> idle w -> (ftn = None \/ ftn = Some n) ->
  (key <> 0 /\ revents = 0 \/ key = 0 /\ revents <> 0) ->
  wpa stat_unexpected (check_and_rearm_event strerror opt_j port s key (ftn_name n) revents ftn)
    (dealt X n key revents s w) w.
Proof.
  intros Hok Hn HX Hi Hftn Hkey. unfold check_and_rearm_event. change SYSTEM_KEY with 0.
  apply wpa_bind, wpa_wp. eapply wp_access. { apply (ok_mem _ _ _ Hok). by exists n. }
  assert (match ftn with None => find_handle s (ftn_text n) | _ => ftn end = Some n) as ->.
  { destruct Hftn as [-> | ->]; [|done]. by apply (find_handle_spec _ _ _ _ _ Hok). }
  apply wpa_bind. eapply wpa_mono; [by apply get_stat_spec|]. intros [er times] w1 [Hsp Ho].
  assert (Hok1 : fsw_ok X s (w_env w1)) by (by eapply fsw_ok_env; [apply Hsp|]).
  assert (Hi1 : idle w1) by (by eapply spoke_idle). apply wpa_wp.
  eapply wp_mono; [|intros s' w'; by apply dealt_after].
  destruct (Z.eqb_spec er 0) as [->|Her]; cbn [negb orb andb].
  - assert (Hst : stat_succeeds (ftn_text n)).
    { destruct Ho as [[_ ?]|[Hf _]]; [done|]. exfalso. revert Hf. by_decide. }
    rewrite andb_false_r. apply wp_bind, wp_ret. destruct (is_gone revents) eqn:Hgone.
    + destruct Hkey as [[_ ->]|[-> Hrev]]; [done|]. apply gone_spec; by auto.
    + apply rearm_spec; try done. naive_solver.
  - destruct Ho as [[? _]|[Hfx Hf]]; [done|]. rewrite andb_true_r. destruct Hkey as [[Hk ->]|[-> Hrev]].
    + rewrite (proj2 (Z.eqb_neq _ _) Hk). cbn [negb Z.eqb]. apply wp_bind, wp_bind.
      eapply wp_mono; [by apply print_response_spec|]. intros [] w2 (Hi2 & Hs2 & Hw2).
      apply wp_VERIFY; [done|]. apply wp_bind, wp_ret.
      by eapply destroy_dealt; [..|by apply watch_no_stat| |].
    + cbn [negb Z.eqb]. apply wp_bind, wp_ret. apply gone_spec; try done. by right; exists er.
Qed.

(** ** The commands *)

(** The state after a command, with respect to the handles that other objects [X] refer to. *)
Definition steady s s' : Prop :=
  fs_next s <= fs_next s' /\
  forall m, m ∈ nodes s' -> m ∈ nodes s \/ fs_next s <= ftn_addr m /\ fs_next s <= ftn_name m.

(** What a turn of the stdin thread leaves: the messages [ms] printed. *)
Definition served (X : gset Z) ms s w s' w' : Prop :=
  fsw_ok X s' (w_env w') /\ steady s s' /\ idle w' /\ said ms (w_env w) (w_env w').

Lemma served_same X ms s w w' :
  fsw_ok X s (w_env w) -> spoke ms w w' -> served X ms s w s w'.
Proof.
  intros Hok (Hi & Hs & Hw). split; [by eapply fsw_ok_env|]. split; [|done]. split; [done|]. by left.
Qed.

Lemma watched_with_node X s e p : fsw_ok X s e -> p ∉ watched s -> watched (with_node s p) = {[p]} ∪ watched s.
Proof.
  intros Hok Hp. apply set_eq. intros q. rewrite elem_of_union, elem_of_singleton, !elem_of_watched.
  split.
  - intros (n & [->|Hn]%(elem_of_with_node _ _ _ _ _ Hok Hp) & <-); [by left|right; by exists n].
  - intros [->|(n & Hn & <-)]; [exists (new_node s p)|exists n]; rewrite (elem_of_with_node _ _ _ _ _ Hok Hp); auto.
Qed.

Lemma watched_kept X s e kept n s' :
  fsw_ok X s e -> n ∈ nodes s -> keeps kept n s s' ->
  watched s' = if kept then watched s else watched s ∖ {[ftn_text n]}.
Proof.
  intros Hok Hn [_ Hk]. apply set_eq. intros p. rewrite elem_of_watched. destruct kept.
  - rewrite elem_of_watched. setoid_rewrite Hk. naive_solver.
  - rewrite elem_of_difference, elem_of_singleton, elem_of_watched. setoid_rewrite Hk. split.
    + intros (m & [Hm [?|Hne]] & <-); [done|]. split; [by exists m|]. intros Ht. apply Hne. by eapply node_text_inj.
    + intros [(m & Hm & <-) Hne]. exists m. split; [|done]. split; [done|]. right. congruence.
Qed.

(** The answers to [WATCH] and [UNWATCH]. *)
Inductive watch_reply (W : gset cstr) (path : cstr) (key : Z) : list message -> gset cstr -> Prop :=
| watch_again : path ∈ W ->
    watch_reply W path key [MsgResponse key RESULT_SUCCESS path (cs "already watching")] W
| watch_new ms kept : path ∉ W -> rearm_reply path key 0 ms kept ->
    watch_reply W path key ms (if kept then {[path]} ∪ W else W).

Inductive unwatch_reply (W : gset cstr) (path : cstr) (key : Z) : list message -> gset cstr -> Prop :=
| unwatch_none : path ∉ W ->
    unwatch_reply W path key
      [MsgResponse key RESULT_FAILURE path (cs "not watching '" ++ path ++ cs "', cannot unwatch")] W
| unwatch_done : path ∈ W ->
    unwatch_reply W path key
      [MsgResponse key RESULT_SUCCESS path (cs "no longer watching '" ++ path ++ cs "'")] (W ∖ {[path]})
| unwatch_failed args er : path ∈ W -> fails "port_dissociate" args er ->
    unwatch_reply W path key
      [MsgResponse key RESULT_FAILURE path
         (cs "failed to unregister '" ++ path ++ cs "' (errno " ++ print_d er ++ cs "): " ++ strerror er)] (W ∖ {[path]}).

(** The new node is dealt with. *)
Lemma watch_served X s w path key s' w' :
  fsw_ok X s (w_env w) -> (forall o, o ∈ X -> o < fs_next s) -> path ∉ watched s ->
  dealt ({[fs_next s]} ∪ X) (new_node s path) key 0 (with_node s path) w s' w' ->
  exists ms, watch_reply (watched s) path key ms (watched s') /\ served X ms s w s' w'.
Proof.
  intros Hok HX Hp (ms & kept & Hr & Hk & Hok' & Hi & Hs). exists ms.
  assert (Hok1 : fsw_ok ({[fs_next s]} ∪ X) (with_node s path) (w_env w)) by (by apply fsw_ok_with_node).
  assert (Hn : new_node s path ∈ nodes (with_node s path)) by (rewrite (elem_of_with_node _ _ _ _ _ Hok Hp); auto).
  split.
  - rewrite (watched_kept _ _ _ _ _ _ Hok1 Hn Hk), (watched_with_node _ _ _ _ Hok Hp).
    replace (({[path]} ∪ watched s) ∖ {[ftn_text (new_node s path)]}) with (watched s) by (cbn [new_node ftn_text]; apply set_eq; set_solver).
    by apply watch_new.
  - split; [|split; [|done]].
    + eapply fsw_ok_exempt; [|exact Hok']. intros n _. cbn [new_node ftn_addr].
      assert (fs_next s ∉ X) by (intros Hin; specialize (HX _ Hin); lia).
      rewrite elem_of_difference, elem_of_union, !elem_of_singleton. split; [tauto|].
      intros Hx. split; [by right|]. congruence.
    + destruct Hk as [Hnext Hk]. split; [rewrite Hnext; cbn; lia|]. intros m Hm.
      apply Hk in Hm as [[->|Hm]%(elem_of_with_node _ _ _ _ _ Hok Hp) _]; [right; cbn; lia|by left].
Qed.

Lemma watch_path_spec X s w path key :
  fsw_ok X s (w_env w) -> (forall o, o ∈ X -> o < fs_next s) -> idle w -> Zlen path < HEAP_HI -> key <> 0 ->
  wpa stat_unexpected (watch_path strerror opt_j port s path key) (fun s' w' => exists ms,
    watch_reply (watched s) path key ms (watched s') /\ served X ms s w s' w') w.
Proof.
  intros Hok HX Hi Hlen Hkey. unfold watch_path. destruct (find_handle s path) as [n|] eqn:Hf.
  - apply (find_handle_spec _ _ _ _ _ Hok) in Hf as [Hn Ht].
    apply wpa_bind, wpa_wp. eapply wp_mono; [by apply print_response_spec|]. intros [] w1 Hsp. apply wpa_ret.
    eexists. split; [|by eapply served_same]. apply watch_again. apply elem_of_watched. by exists n.
  - apply (find_handle_none _ _ _ _ Hok) in Hf.
    assert (0 <= 16 * ptr_bytes <= HEAP_HI) by (unfold HEAP_HI; destruct ptr_bytes_ok as [-> | ->]; lia).
    pose proof (Zlen_nonneg path).
    apply wpa_bind, wpa_wp, wp_malloc_good; [apply Hi|done|]. intros a w1 Hw1.
    apply wpa_bind, wpa_wp, wp_malloc_good; [by eapply good_frame, Hi|lia|]. intros a' w2 Hw2.
    assert (Hsp : spoke [] w w2) by (eapply spoke_frame; [by apply spoke_refl|by etrans]).
    unfold add_handle. cbn [fs_tree fs_fobj fs_mem fs_next].
    pose proof (fsw_ok_find_new _ _ _ _ Hok Hf) as Hnew. unfold new_node in Hnew.
    rewrite Hnew. apply wpa_bind, wpa_ret. eapply wpa_mono.
    + apply (check_and_rearm_event_spec ({[fs_next s]} ∪ X) (with_node s path) w2 (new_node s path));
        [|rewrite (elem_of_with_node _ _ _ _ _ Hok Hf); auto|cbn; set_solver|by eapply spoke_idle|by right|by left].
      apply fsw_ok_with_node; [|done]. eapply fsw_ok_env; [|exact Hok]. apply Hsp.
    + intros s' w' Hd. apply (dealt_after _ _ _ _ _ _ _ _ _ Hsp) in Hd. by eapply watch_served.
Qed.

Lemma unwatch_path_spec X s w path key :
  fsw_ok X s (w_env w) -> idle w ->
  wp (unwatch_path strerror opt_j port s path key) (fun s' w' => exists ms,
    unwatch_reply (watched s) path key ms (watched s') /\ served X ms s w s' w' /\
    forall n, n ∈ nodes s -> ftn_text n = path -> fs_mem s' !! ftn_name n = None) w.
Proof.
  intros Hok Hi. unfold unwatch_path. destruct (find_handle s path) as [n|] eqn:Hf.
  - apply (find_handle_spec _ _ _ _ _ Hok) in Hf as [Hn Ht].
    destruct (sys_step "port_dissociate" [AZ port; AZ PORT_SOURCE_FILE; AZ (ftn_addr n)] (w_env w)) as [r e'] eqn:Hs.
    apply wp_bind. eapply wp_sys; [exact Hs|]. set (w1 := World _ _ _ e').
    pose proof (sys_port_dissociate _ _ _ _ _ Hs) as Hw.
    assert (Hi1 : idle w1) by (split; [apply Hi|by eapply sys_nvs; [exact Hs|apply Hi]]).
    assert (Hp1 : nv_printed (w_env w1) = nv_printed (w_env w)) by (by apply (sys_printed _ _ _ _ _ Hs)).
    assert (Hok1 : fsw_ok ({[ftn_addr n]} ∪ X) s (w_env w1)) by (by eapply fsw_ok_release).
    assert (Hno : watching (w_env w1) !! ftn_addr n = None) by (change (w_env w1) with e'; rewrite Hw; apply lookup_delete_eq).
    apply wp_bind. eapply destroy_handle_spec; [exact Hok1|done|].
    pose proof (fsw_ok_without _ _ _ _ Hok1 Hn Hno) as Hok2.
    apply wp_bind. eapply wp_mono with (P := fun _ w2 => exists ms, spoke ms w1 w2 /\ unwatch_reply (watched s) path key ms (watched s ∖ {[path]})).
    + assert (path ∈ watched s) by (apply elem_of_watched; by exists n).
      destruct (Z.eqb_spec (sr_ret r) (-1)) as [Hr|Hr].
      * apply wp_bind, wp_get_errno. eapply wp_mono; [by apply print_response_spec|]. intros [] w2 Hsp. eexists.
        split; [exact Hsp|]. eapply unwatch_failed; [done|]. exists (w_env w), r, e'. split; [exact Hs|].
        by rewrite Hr.
      * eapply wp_mono; [by apply print_response_spec|]. intros [] w2 Hsp. eexists. split; [exact Hsp|].
        by apply unwatch_done.
    + intros [] w2 (ms & (Hi2 & (new & Hp2 & Hsaid) & Hw2) & Hr). apply wp_ret. exists ms.
      pose proof (keeps_without _ _ _ _ Hok Hn) as Hk.
      rewrite (watched_kept _ _ _ _ _ _ Hok Hn Hk), Ht. split; [done|]. split; [split; [|split; [|split; [done|]]]|].
      * eapply fsw_ok_exempt; [|by eapply fsw_ok_env]. intros m Hm. apply Hk in Hm as [Hm [|Hne]]; [done|].
        assert (ftn_addr m <> ftn_addr n) by (intros Ha; by apply Hne, (ok_addrs _ _ _ Hok)). set_solver.
      * split; [done|]. intros m Hm. apply Hk in Hm as [Hm _]. by left.
      * exists new. by rewrite <-Hp1.
      * intros m Hm Htm. assert (m = n) as -> by (eapply node_text_inj; [exact Hok|done|done|congruence]). apply lookup_delete_eq.
  - apply (find_handle_none _ _ _ _ Hok) in Hf as Hp.
    apply wp_bind. eapply wp_mono; [by apply print_response_spec|]. intros [] w1 Hsp. apply wp_ret.
    eexists. split; [by apply unwatch_none|]. split; [by eapply served_same|].
    intros n Hn Ht. destruct Hp. apply elem_of_watched. by exists n.
Qed.

(** The walk collects the names in the order of the tree. *)
Lemma collect_names_spec t l1 l2 fuel size (Q : list cstr -> world E -> Prop) w :
  avl_cmp t = cmp -> avl_nodes t = l1 ++ l2 -> increasing cmp (avl_nodes t) ->
  (length l2 < fuel)%nat -> size = Zlen (avl_nodes t) -> Q (ftn_text <$> avl_nodes t) w ->
  wp (collect_names fuel t (head l2) size (ftn_text <$> l1)) Q w.
Proof.
  intros Hc Ht Hi Hfuel -> HQ. revert l1 l2 Ht Hfuel. induction fuel as [|fuel IH]; intros l1 l2 Ht Hfuel; [lia|].
  destruct l2 as [|n l2]; cbn [collect_names head].
  - apply wp_ret. by rewrite Ht, app_nil_r in HQ.
  - destruct (Z.leb_spec (Zlen (avl_nodes t)) (Zlen (ftn_text <$> l1))) as [Hle|_].
    { rewrite Ht in Hle. unfold Zlen in Hle. rewrite length_fmap, length_app in Hle. cbn in Hle. lia. }
    rewrite avl_next_nodes, Hc by (rewrite Hc; apply _ || done). rewrite Ht at 1.
    rewrite filter_after by (apply _ || by rewrite <-Ht).
    specialize (IH (l1 ++ [n]) l2). rewrite fmap_app in IH. cbn [fmap list_fmap] in IH. apply IH; [|cbn in Hfuel; lia].
    by rewrite Ht, <-app_assoc.
Qed.

Lemma since_frame w0 w w' : since w0 w -> frame w w' -> since w0 w'.
Proof.
  intros (Hg & Hp & Hw) Hf. pose proof (frame_env _ _ Hf) as He. split; [by eapply good_frame|]. by rewrite He.
Qed.

(** Attaching the data, printing and releasing both lists. *)
Lemma status_last key files pid d l h sec nsec w0 w :
  since w0 w ->
  nvs [(d, [(cs "files", NvStringArray files); (cs "files_count", NvUint32 (u32 (Zlen files))); (cs "pid", NvInt32 pid)]);
       (h, stamp (cs "response") sec nsec ++ l)] (w_env w) ->
  l = [(cs "key", NvUint64 key); (cs "code", NvUint32 RESULT_SUCCESS); (cs "result", NvString (cs "SUCCESS"))] ->
  wp (r ← nvlist_add_nvlist h (cs "data") d; ENSURE0 r ;;
      print_nvlist opt_j h ;; nvlist_free d ;; nvlist_free h) (fun _ => spoke [MsgStatus key files pid] w0) w.
Proof.
  intros Hs Hh ->. apply wp_bind. eapply wp_mono; [by eapply nvs_add_nvlist, Hh; apply Hs|].
  intros r w1 (-> & Hg1 & Hk1 & Hh1). apply wp_bind, wp_ret.
  assert (Hs1 : since w0 w1) by (by eapply since_kept). destruct Hs1 as (_ & Hp1 & Hw1).
  rewrite nv_put_fresh in Hh1 by reflexivity. apply wp_bind.
  assert (Hpr : nv_prints nvs quiet nv_printed opt_j (print_nvlist opt_j)).
  { unfold print_nvlist. destruct opt_j; [apply nvs_print_json|apply nvs_print]. }
  eapply wp_mono; [exact (Hpr [_] _ _ [] _ Hg1 Hh1)|]. intros [] w2 (Hg2 & Hq2 & Hp2 & Hh2).
  apply wp_bind. eapply wp_mono; [exact (nvs_free [] _ _ [_] _ Hg2 Hh2)|]. intros [] w3 (Hg3 & [Hq3 Hp3] & Hh3).
  eapply wp_mono; [exact (nvs_free [] _ _ [] _ Hg3 Hh3)|]. intros [] w4 (Hg4 & [Hq4 Hp4] & Hh4).
  split; [by split|]. split.
  - eexists. split; [by rewrite Hp4, Hp3, Hp2, Hp1|]. constructor; [|done]. split; [done|]. by exists sec, nsec.
  - by rewrite (quiet_watching _ _ Hq4), (quiet_watching _ _ Hq3), (quiet_watching _ _ Hq2).
Qed.

(** As many files as a block of pointers within 1 GB holds. *)
Definition FILES_MAX : Z := 134217728.

Lemma print_status_spec X s w key :
  fsw_ok X s (w_env w) -> idle w -> Zlen (nodes s) <= FILES_MAX ->
  wp (print_status opt_j s key) (fun _ w' => exists pid,
    spoke [MsgStatus key (ftn_text <$> nodes s) pid] w w') w.
Proof.
  intros Hok [Hg Hn] Hlen. unfold print_status.
  apply wp_bind. eapply wp_mono; [by eapply make_nvlist_spec|]. intros h w1 (Hs1 & sec & nsec & Hh1). cbn beta.
  apply wp_bind. eapply wp_mono; [by eapply nvs_falloc, Hh1; apply Hs1|]. intros r w2 (Hg2 & Hk2 & d & -> & Hh2).
  cbn beta delta [id]. assert (Hs2 : since w w2) by (by eapply since_kept).
  do 3 add_between [(d, @nil (cstr * nvval))] (@nil (nvlist_t * nvpairs)).
  rewrite avl_numnodes_nodes. pose proof (Zlen_nonneg (nodes s)). unfold FILES_MAX in Hlen.
  assert (0 <= Zlen (nodes s) * ptr_bytes <= HEAP_HI) by (unfold HEAP_HI; destruct ptr_bytes_ok as [-> | ->]; lia).
  rewrite sz_small32 by (unfold HEAP_HI, UINT_MAX in *; lia).
  apply wp_bind, wp_malloc_good; [by match goal with Hs : since w ?w' |- good ?w' => apply Hs end|done|].
  intros a w6 Hf6.
  match goal with Hs : since w ?w', Hh : nvs _ (w_env ?w') |- _ =>
    lazymatch type of Hf6 with frame w' _ =>
      pose proof (since_frame _ _ _ Hs Hf6); rewrite <-(frame_env _ _ Hf6) in Hh end end.
  rewrite avl_first_nodes. apply wp_bind, (collect_names_spec _ [] (nodes s)); [apply Hok|done|apply Hok|unfold Zlen; lia|done|].
  match goal with Hh : nvs [_; ?p] (w_env w6) |- _ => do 2 add_between (@nil (nvlist_t * nvpairs)) [p] end.
  match goal with Hs : since w ?w', Hh : nvs _ (w_env ?w') |- wp _ _ ?w' =>
    destruct (sys_step "getpid" [] (w_env w')) as [r e'] eqn:Hpid;
    pose proof (since_sys _ _ "getpid" _ _ _ Hs eq_refl Hpid); pose proof (sys_nvs _ _ _ _ _ _ Hpid Hh) end.
  apply wp_bind. eapply wp_sys; [exact Hpid|].
  match goal with Hh : nvs [_; ?p] e' |- _ => add_between (@nil (nvlist_t * nvpairs)) [p] end.
  eapply wp_mono; [eapply (status_last key); [eassumption| |reflexivity]|].
  - replace (Zlen (nodes s)) with (Zlen (ftn_text <$> nodes s)) in * by (unfold Zlen; by rewrite length_fmap).
    lazymatch goal with Hh : nvs _ (w_env ?w) |- nvs _ (w_env ?w) => exact Hh end.
  - intros [] w7 Hsp. by eexists.
Qed.

(** ** Lines *)

(** The answers to a line, from what was converted, and the files watched from then on. *)
Inductive line_reply (W : gset cstr) : Z * Z * cstr * cstr -> list message -> gset cstr -> Prop :=
| line_invalid res key cmd path : res <> 2 -> res <> 3 ->
    line_reply W (res, key, cmd, path) [MsgError 0 ERR_INVALID_COMMAND (cs "invalid command line")] W
| line_key_0 res cmd path : res = 2 \/ res = 3 ->
    line_reply W (res, 0, cmd, path) [MsgError 0 ERR_INVALID_KEY (cs "invalid key: 0")] W
| line_no_path key cmd : key <> 0 -> cmd = cs "WATCH" \/ cmd = cs "UNWATCH" ->
    line_reply W (2, key, cmd, [])
      [MsgError 0 ERR_INVALID_COMMAND (cs "invalid command line - " ++ cmd ++ cs " requires pathname")] W
| line_watch key path ms W' : key <> 0 -> watch_reply W path key ms W' ->
    line_reply W (3, key, cs "WATCH", path) ms W'
| line_unwatch key path ms W' : key <> 0 -> unwatch_reply W path key ms W' ->
    line_reply W (3, key, cs "UNWATCH", path) ms W'
| line_status key files pid : key <> 0 -> files ≡ₚ elements W ->
    line_reply W (2, key, cs "STATUS", []) [MsgStatus key files pid] W
| line_status_path key path : key <> 0 ->
    line_reply W (3, key, cs "STATUS", path)
      [MsgError 0 ERR_INVALID_COMMAND (cs "invalid command line - STATUS takes no arguments")] W
| line_unknown res key cmd path : res = 2 \/ res = 3 -> key <> 0 ->
    cmd ∉ [cs "WATCH"; cs "UNWATCH"; cs "STATUS"] ->
    line_reply W (res, key, cmd, path) [MsgError key ERR_UNKNOWN_COMMAND (cs "unknown command '" ++ cmd ++ cs "'")] W.

Lemma nodes_watched X s e : fsw_ok X s e -> ftn_text <$> nodes s ≡ₚ elements (watched s).
Proof.
  intros Hok. unfold watched. rewrite elements_list_to_set; [done|].
  apply NoDup_fmap_2_strong; [intros n m Hn Hm; by eapply node_text_inj|].
  pose proof (ok_increasing _ _ _ Hok) as Hi. clear -Hi AvlLaws0. revert Hi. generalize (nodes s) as l.
  induction l as [|x l IH]; [by constructor|]. intros [Hx Hl]. constructor; [|by apply IH].
  rewrite list.Forall_forall in Hx. intros Hin. specialize (Hx _ Hin). by apply (cmp_lt_irrefl cmp) in Hx.
Qed.

(** The error messages of the stdin thread. *)
Lemma line_error X s w key code text (ms : list message) :
  fsw_ok X s (w_env w) -> idle w -> ms = [MsgError key code text] ->
  wpa stat_unexpected (print_error opt_j key code text ;; mret s) (fun s' w' => s' = s /\ served X ms s w s' w') w.
Proof.
  intros Hok Hi ->. apply wpa_bind, wpa_wp. eapply wp_mono; [by apply print_error_spec|].
  intros [] w1 Hsp. apply wpa_ret. split; [done|by apply served_same].
Qed.

Lemma process_stdin_line_spec X s w line c :
  fsw_ok X s (w_env w) -> (forall o, o ∈ X -> o < fs_next s) -> idle w -> Zlen (nodes s) <= FILES_MAX ->
  Zlen line <= MAX_CMD_LEN -> scan_command line = Some c ->
  wpa stat_unexpected (process_stdin_line strerror opt_j port s line) (fun s' w' => exists ms,
    line_reply (watched s) c ms (watched s') /\ served X ms s w s' w') w.
Proof.
  intros Hok HX Hi Hfiles Hlen Hc. unfold process_stdin_line. change SYSTEM_KEY with 0.
  destruct (Z.ltb_spec MAX_CMD_LEN (Zlen line)); [lia|].
  destruct c as [[[res key] cmd] path]. pose proof (scan_command_path _ _ _ _ _ Hc) as [Hpath Hpath'].
  apply wpa_bind. unfold wpa at 1. rewrite (sscanf_command_scan _ _ _ Hlen Hc).
  assert (Herr : forall k code text ms, ms = [MsgError k code text] ->
    line_reply (watched s) (res, key, cmd, path) ms (watched s) ->
    wpa stat_unexpected (print_error opt_j k code text ;; mret s) (fun s' w' => exists ms,
      line_reply (watched s) (res, key, cmd, path) ms (watched s') /\ served X ms s w s' w') w).
  { intros k code text ms Hms Hr. eapply wpa_mono; [by eapply line_error|].
    intros s' w' [-> Hs]. by exists ms. }
  destruct (decide (res = 2 \/ res = 3)) as [Hres|Hres].
  2:{ replace (negb ((res =? 2) || (res =? 3))) with true by lia. eapply Herr; [done|]. apply line_invalid; lia. }
  replace (negb ((res =? 2) || (res =? 3))) with false by lia.
  destruct (Z.eqb_spec key 0) as [->|Hkey]; [by eapply Herr; [|apply line_key_0]|].
  assert (Hp : path = [] /\ res = 2 \/ path <> [] /\ res = 3) by (destruct Hres as [-> | ->]; naive_solver).
  assert (Hpl : Zlen path < HEAP_HI) by (pose proof (scan_command_length _ _ _ _ _ Hc); unfold MAX_CMD_LEN,
    MAX_KEY_LEN, PATH_MAX, HEAP_HI in *; lia).
  destruct (Z.eqb_spec (strcmp (cs "UNWATCH") cmd) 0) as [<-%strcmp_eq|Hu].
  { destruct path as [|p path]; destruct Hp as [[? ->]|[? ->]]; try done.
    - eapply Herr; [done|]. apply line_no_path; [done|by right].
    - eapply wpa_mono; [by apply wpa_wp, unwatch_path_spec|]. intros s' w' (ms & Hr & Hs & _).
      exists ms. split; [by apply line_unwatch|done]. }
  destruct (Z.eqb_spec (strcmp (cs "WATCH") cmd) 0) as [<-%strcmp_eq|Hwt].
  { destruct path as [|p path]; destruct Hp as [[? ->]|[? ->]]; try done.
    - eapply Herr; [done|]. apply line_no_path; [done|by left].
    - eapply wpa_mono; [by apply watch_path_spec|]. intros s' w' (ms & Hr & Hs).
      exists ms. split; [by apply line_watch|done]. }
  destruct (Z.eqb_spec (strcmp (cs "STATUS") cmd) 0) as [<-%strcmp_eq|Hst].
  { destruct path as [|p path]; destruct Hp as [[? ->]|[? ->]]; try done.
    - apply wpa_bind, wpa_wp. eapply wp_mono; [by eapply print_status_spec|]. intros [] w1 [pid Hsp].
      apply wpa_ret. eexists. split; [|by eapply served_same]. apply line_status; [done|by eapply nodes_watched].
    - eapply Herr; [done|]. by apply line_status_path. }
  eapply Herr; [done|]. apply line_unknown; [done..|]. rewrite !not_elem_of_cons.
  split_and!; [intros ->; by apply Hwt, strcmp_eq|intros ->; by apply Hu, strcmp_eq|intros ->; by apply Hst, strcmp_eq|].
  apply not_elem_of_nil.
Qed.

(** What [fgets] reads into the buffer of a line. *)
Lemma fgets_length n input str rest : fgets n input = Some (str, rest) -> 1 <= n -> Zlen str <= n - 1.
Proof.
  unfold fgets. destruct input as [|c input]; [done|]. intros [= Hs] Hn.
  assert (Hgen : forall k (l : list char), Zlen (fgets_chars k l).1 <= Z.of_nat k).
  { induction k as [|k IH]; intros l; cbn [fgets_chars]; [done|]. destruct l as [|d l]; [cbn; unfold Zlen; cbn; lia|].
    destruct (Ascii.eqb d LF); [unfold Zlen; cbn; lia|]. specialize (IH l). destruct (fgets_chars k l) as [u r].
    cbn in *. zlen; lia. }
  specialize (Hgen (Z.to_nat (n - 1)) (c :: input)). rewrite Hs in Hgen. cbn in Hgen. lia.
Qed.

Lemma wait_for_stdin_spec X s w input str rest c :
  fsw_ok X s (w_env w) -> (forall o, o ∈ X -> o < fs_next s) -> idle w -> Zlen (nodes s) <= FILES_MAX ->
  fgets (MAX_CMD_LEN + 1) input = Some (str, rest) -> scan_command (c_text str) = Some c ->
  wpa stat_unexpected (wait_for_stdin strerror opt_j port s input) (fun '(s', rest') w' => rest' = rest /\
    exists ms, line_reply (watched s) c ms (watched s') /\ served X ms s w s' w') w.
Proof.
  intros Hok HX Hi Hfiles Hgets Hc. unfold wait_for_stdin. rewrite Hgets.
  assert (Zlen (c_text str) <= MAX_CMD_LEN).
  { apply fgets_length in Hgets; [|done]. pose proof (c_text_length str). unfold Zlen in *. lia. }
  apply wpa_bind. eapply wpa_mono; [by eapply process_stdin_line_spec|].
  intros s' w' Hr. by apply wpa_ret.
Qed.

(** C4: each line of the input is answered by the one message that its words call for, and the
    set of the watched files changes with it: a turn of the stdin thread either does so and keeps
    the invariant, or calls [abort] because [stat] failed in a way the program is not prepared
    for.  The check of the length of the line never fails: [fgets] splits a longer line. *)
Theorem wait_for_stdin_serves X s w input str rest c :
  fsw_ok X s (w_env w) -> (forall o, o ∈ X -> o < fs_next s) -> idle w -> Zlen (nodes s) <= FILES_MAX ->
  fgets (MAX_CMD_LEN + 1) input = Some (str, rest) -> scan_command (c_text str) = Some c ->
  wpa stat_unexpected (wait_for_stdin strerror opt_j port s input) (fun '(s', rest') w' => rest' = rest /\
    exists ms, line_reply (watched s) c ms (watched s') /\ served X ms s w s' w') w.
Proof. apply wait_for_stdin_spec. Qed.

(** ** Events *)

Lemma handle_event_spec s w pe n :
  fsw_ok {[portev_object pe]} s (w_env w) -> idle w -> n ∈ nodes s ->
  portev_object pe = ftn_addr n -> portev_user pe = ftn_name n ->
  portev_source pe = PORT_SOURCE_FILE -> i32 (portev_events pe) <> 0 ->
  wpa stat_unexpected (handle_event strerror opt_j port s pe) (fun s' w' => exists ms kept,
    rearm_reply (ftn_text n) 0 (i32 (portev_events pe)) ms kept /\
    watched s' = (if kept then watched s else watched s ∖ {[ftn_text n]}) /\
    fsw_ok ∅ s' (w_env w') /\ keeps kept n s s' /\ idle w' /\ said ms (w_env w) (w_env w')) w.
Proof.
  intros Hok Hi Hn Ho Hu Hsrc Hev. unfold handle_event. rewrite Hsrc, Hu, Ho in *. cbn [Z.eqb Pos.eqb PORT_SOURCE_FILE].
  eapply wpa_mono; [apply (check_and_rearm_event_spec {[ftn_addr n]}); [done|done|set_solver|done|by left|by right]|].
  intros s' w' (ms & kept & Hr & Hk & Hok' & Hi' & Hs'). exists ms, kept.
  split_and!; try done; [by eapply watched_kept|].
  by replace (∅ : gset Z) with ({[ftn_addr n]} ∖ {[ftn_addr n]} : gset Z) by (apply set_eq; set_solver).
Qed.

(** C19: an event of a file that is watched is answered by one event message: with [final] true and
    the end of the watch when the file is gone or cannot be reached, with [final] false when the
    watch is armed again.  When the port refuses to arm it again the event was already reported as
    not final; an error message follows and the file is watched no more. *)
Theorem handle_event_serves s w pe n :
  fsw_ok {[portev_object pe]} s (w_env w) -> idle w -> n ∈ nodes s ->
  portev_object pe = ftn_addr n -> portev_user pe = ftn_name n ->
  portev_source pe = PORT_SOURCE_FILE -> i32 (portev_events pe) <> 0 ->
  wpa stat_unexpected (handle_event strerror opt_j port s pe) (fun s' w' => exists ms kept,
    rearm_reply (ftn_text n) 0 (i32 (portev_events pe)) ms kept /\
    watched s' = (if kept then watched s else watched s ∖ {[ftn_text n]}) /\
    fsw_ok ∅ s' (w_env w') /\ keeps kept n s s' /\ idle w' /\ said ms (w_env w) (w_env w')) w.
Proof. apply handle_event_spec. Qed.

(** The state [main] creates. *)
Lemma fsw_ok_start e next : watching e = ∅ -> fsw_ok ∅ (Fsw (avl_create cmp) ∅ ∅ next) e.
Proof.
  intros He. constructor; cbn [fs_tree fs_mem fs_fobj fs_next]; rewrite ?avl_create_nodes;
    try (intros; by lazymatch goal with Hn : _ ∈ [] |- _ => apply not_elem_of_nil in Hn end).
  - apply avl_create_cmp.
  - done.
  - intros a t. rewrite lookup_empty. split; [done|]. intros (n & Hn & _). by apply not_elem_of_nil in Hn.
  - intros a [fo Ha]. by rewrite lookup_empty in Ha.
  - intros o u. rewrite He, lookup_empty. split; [done|]. intros [(n & Hn & _) _]. by apply not_elem_of_nil in Hn.
Qed.
End spec.

(** ** A run *)

#[local] Existing Instance LP64.
#[local] Instance sample_tree : AvlTree files_tree_node := list_avl files_tree_node.
#[local] Instance sample_tree_laws : AvlLaws files_tree_node := list_avl_laws files_tree_node.

Definition sample_strerror (e : Z) : cstr := cs "Error " ++ print_d e.
Definition sample_start : fsw := Fsw (avl_create files_tree_node_comparator) ∅ ∅ 1.
Definition sample_world : world fenv := World 0 [] [] (Fenv [] 0 [] ∅).

Lemma sample_idle : idle sample_world.
Proof. split; [by split; constructor|]. split; [done|]. split; [by constructor|by constructor]. Qed.

(** The state and the world a computation leaves. *)
Definition left_by {E A} (o : outcome (A * world E)) (a : A) (w : world E) : A * world E :=
  match o with Done r => r | _ => (a, w) end.

(** After the line [7 WATCH /a]. *)
Definition sample_watching : fsw * world fenv :=
  left_by (process_stdin_line sample_strerror true 3 sample_start (cs "7 WATCH /a") sample_world) sample_start sample_world.

Example sample_watching_printed :
  (fun p => p.2) <$> fe_printed (w_env sample_watching.2) =
  [stamp (cs "response") 100 5 ++
   [(cs "key", NvUint64 7); (cs "code", NvUint32 0); (cs "pathname", NvString (cs "/a"));
    (cs "message", NvString (cs "port_associate(3c) started watching path")); (cs "result", NvString (cs "SUCCESS"))]].
Proof. vm_compute. reflexivity. Qed.

Lemma sample_start_ok : fsw_ok ∅ sample_start (w_env sample_world).
Proof. apply fsw_ok_start. reflexivity. Qed.

Lemma sample_unwatched p : p ∉ watched sample_start.
Proof. rewrite elem_of_watched. intros (n & Hn & _). by apply not_elem_of_nil in Hn. Qed.

(** The file [/a] is watched and an event of it was taken from the port. *)
Definition sample_taken : fsw := with_node sample_start (cs "/a").
Definition sample_event : port_event := PortEvent PORT_SOURCE_FILE FILE_MODIFIED 1 2.

Lemma sample_taken_ok : fsw_ok {[portev_object sample_event]} sample_taken (w_env sample_world).
Proof.
  replace ({[portev_object sample_event]} : gset Z) with ({[fs_next sample_start]} ∪ ∅ : gset Z) by (apply set_eq; set_solver).
  apply fsw_ok_with_node; [apply sample_start_ok|apply sample_unwatched].
Qed.

Lemma wait_for_stdin_serves_witness :
  wpa (stat_unexpected (E := fenv))
    (wait_for_stdin sample_strerror true 3 sample_start (cs "7 WATCH /a" ++ LF :: cs "8 STATUS"))
    (fun '(s', rest') w' => rest' = cs "8 STATUS" /\ exists ms,
      line_reply sample_strerror (watched sample_start) (3, 7, cs "WATCH", cs "/a") ms (watched s') /\
      served true ∅ ms sample_start sample_world s' w') sample_world.
Proof.
  apply (wait_for_stdin_serves true _ _ ∅ _ _ _ (cs "7 WATCH /a" ++ [LF]));
    [apply sample_start_ok|by intros o Ho%elem_of_empty|apply sample_idle|by vm_compute|by vm_compute|by vm_compute].
Defined.

Lemma handle_event_serves_witness :
  wpa (stat_unexpected (E := fenv)) (handle_event sample_strerror true 3 sample_taken sample_event)
    (fun s' w' => exists ms kept,
      rearm_reply sample_strerror (cs "/a") 0 FILE_MODIFIED ms kept /\
      watched s' = (if kept then watched sample_taken else watched sample_taken ∖ {[cs "/a"]}) /\
      fsw_ok ∅ s' (w_env w') /\ keeps kept (new_node sample_start (cs "/a")) sample_taken s' /\
      idle w' /\ said true ms (w_env sample_world) (w_env w')) sample_world.
Proof.
  apply (handle_event_serves true sample_strerror 3 sample_taken sample_world sample_event (new_node sample_start (cs "/a")));
    [apply sample_taken_ok|apply sample_idle| |done|done|done|by vm_compute].
  apply (elem_of_with_node ∅ _ _ _ _ sample_start_ok); [|by left]. apply sample_unwatched.
Defined.
