(* ===== verification/FswatcherSys.v ===== *)
(** * FswatcherSys: the two threads of the file watcher

    [fsw_step] is the program after [fsw_start]: a turn of the stdin thread, a turn of the events
    thread, each with the mutex held, and between the two halves of the latter the event is in
    the hand of its thread.  [port_get] takes the event before the mutex, so a turn of the stdin
    thread can come in between.  Taking an event commutes with the one call of the port a turn
    makes, so it is a step of its own between turns.  Files change meanwhile: the world moves,
    and [watching] stays, as it counts an event that waits as a watch. *)
From Stdlib Require Import Lia.
From stdpp Require Import relations.
From S2P Require Import Prelude Custr Strset Cnum Sys Avl Nvlist NvOut Fswatcher FswatcherEnv FswatcherSpec.

Section system.
Context `{DM : DataModel}.
Context `{AvlTree files_tree_node, !AvlLaws files_tree_node}.
Context {E : Type} `{FswEnv E}.
Context (strerror : Z -> cstr) (opt_j : bool) (port : Z).
Implicit Types (s : fsw) (w : world E) (h : option port_event).

#[local] Abbreviation nodes s := (avl_nodes (fs_tree s)).

(** The state, the world, and the event in the hand of the events thread.  A tree of more than
    [FILES_MAX] nodes does not fit the address space. *)
Inductive fsw_step : fsw * world E * option port_event -> fsw * world E * option port_event -> Prop :=
| step_stdin s w h input s' rest w' :
    Zlen (nodes s) <= FILES_MAX ->
    wait_for_stdin strerror opt_j port s input w = Done ((s', rest), w') -> fsw_step (s, w, h) (s', w', h)
| step_take s w pe w' :
    port_get port w = Done (pe, w') -> fsw_step (s, w, None) (s, w', Some pe)
| step_event s w pe s' w' :
    handle_event strerror opt_j port s pe w = Done (s', w') -> fsw_step (s, w, Some pe) (s', w', None)
| step_world s w h e' :
    nvs [] e' -> nv_printed e' = nv_printed (w_env w) -> watching e' = watching (w_env w) ->
    fsw_step (s, w, h) (s, set_env w e', h).

(** The object of the event in hand: the port watches it no more. *)
Definition in_hand h : gset Z := match h with None => ∅ | Some pe => {[portev_object pe]} end.

(** An event in hand is of one node, or of none when its watch was ended meanwhile. *)
Definition hand_ok h s : Prop :=
  match h with
  | None => True
  | Some pe => portev_source pe = PORT_SOURCE_FILE /\ i32 (portev_events pe) <> 0 /\
      portev_object pe < fs_next s /\ portev_user pe < fs_next s /\
      forall n, n ∈ nodes s -> ftn_name n = portev_user pe <-> ftn_addr n = portev_object pe
  end.

Definition system_ok (c : fsw * world E * option port_event) : Prop :=
  let '(s, w, h) := c in fsw_ok (in_hand h) s (w_env w) /\ hand_ok h s /\ idle w.

Lemma hand_ok_steady h s s' : steady s s' -> hand_ok h s -> hand_ok h s'.
Proof.
  intros [Hnext Hs] Hh. destruct h as [pe|]; [|done]. destruct Hh as (? & ? & ? & ? & Hn). cbn.
  split_and!; [done|done|lia|lia|]. intros n Hin. destruct (Hs n Hin) as [Hold|[? ?]]; [by apply Hn|lia].
Qed.

Lemma stdin_step_ok s w h input s' rest w' :
  system_ok (s, w, h) -> Zlen (nodes s) <= FILES_MAX ->
  wait_for_stdin strerror opt_j port s input w = Done ((s', rest), w') -> system_ok (s', w', h).
Proof.
  intros (Hok & Hh & Hi) Hfiles Hw.
  assert (HX : forall o, o ∈ in_hand h -> o < fs_next s).
  { intros o Ho. destruct h as [pe|]; cbn in Ho; [|by apply not_elem_of_empty in Ho].
    apply elem_of_singleton in Ho as ->. apply Hh. }
  destruct (fgets (MAX_CMD_LEN + 1) input) as [[str rest']|] eqn:Hgets;
    [|unfold wait_for_stdin in Hw; by rewrite Hgets in Hw].
  destruct (scan_command (c_text str)) as [c|] eqn:Hc.
  - pose proof (wait_for_stdin_spec opt_j strerror port _ _ _ _ _ _ _ Hok HX Hi Hfiles Hgets Hc) as Hwp.
    destruct (wpa_done _ _ _ _ _ _ Hwp Hw) as (_ & ms & _ & Hok' & Hst & Hi' & _).
    split; [done|]. split; [by eapply hand_ok_steady|done].
  - exfalso. unfold wait_for_stdin in Hw. rewrite Hgets in Hw. revert Hw.
    assert (Zlen (c_text str) <= MAX_CMD_LEN).
    { apply fgets_length in Hgets; [|done]. pose proof (c_text_length str). unfold Zlen in *. lia. }
    unfold process_stdin_line. destruct (Z.ltb_spec MAX_CMD_LEN (Zlen (c_text str))); [lia|].
    unfold mbind, C_bind. by rewrite sscanf_command_none.
Qed.

Lemma take_step_ok s w pe w' :
  system_ok (s, w, None) -> port_get port w = Done (pe, w') -> system_ok (s, w', Some pe).
Proof.
  intros (Hok & _ & Hi) Hg. unfold port_get, mbind, C_bind, syscall in Hg.
  destruct (sys_step "port_get" [AZ port] (w_env w)) as [r e'] eqn:Hs.
  destruct (Z.eqb_spec (sr_ret r) 0) as [Hr|]; [|done]. cbn [negb] in Hg.
  destruct (sys_port_get _ _ _ _ Hs Hr) as (ev & obj & user & Hv & Hev & Hwt & Hwt').
  rewrite Hv in Hg. injection Hg as <- <-. cbn [system_ok in_hand hand_ok portev_object portev_user portev_source portev_events].
  pose proof Hwt as [(n & Hn & Ha & Hu) _]%(ok_port _ _ _ Hok). destruct (ok_next _ _ _ Hok n Hn). split; [|split].
  - replace ({[obj]} : gset Z) with ({[obj]} ∪ ∅ : gset Z) by (apply set_eq; set_solver).
    by eapply fsw_ok_release.
  - split_and!; [done|done|lia|lia|]. intros m Hm. split; intros Hmn.
    + by rewrite (ok_names _ _ _ Hok m n) by congruence.
    + by rewrite (ok_addrs _ _ _ Hok m n) by congruence.
  - split; [apply Hi|]. eapply sys_nvs; [done|apply Hi].
Qed.

Lemma event_step_ok s w pe s' w' :
  system_ok (s, w, Some pe) -> handle_event strerror opt_j port s pe w = Done (s', w') -> system_ok (s', w', None).
Proof.
  intros (Hok & (Hsrc & Hev & _ & _ & Hn) & Hi) Hh.
  assert (Hex : exists n, n ∈ nodes s /\ ftn_name n = portev_user pe).
  { unfold handle_event, check_and_rearm_event, mbind, C_bind, c_access in Hh. rewrite Hsrc in Hh.
    destruct (fs_mem s !! portev_user pe) as [t|] eqn:Hm; [|done].
    apply (ok_mem _ _ _ Hok) in Hm as (n & Hin & Hu & _). by exists n. }
  destruct Hex as (n & Hin & Hu).
  pose proof (proj1 (Hn n Hin) Hu) as Ha.
  pose proof (handle_event_spec opt_j strerror port _ _ _ _ Hok Hi Hin (eq_sym Ha) (eq_sym Hu) Hsrc Hev) as Hwp.
  destruct (wpa_done _ _ _ _ _ _ Hwp Hh) as (ms & kept & _ & _ & Hok' & _ & Hi' & _).
  by split; [|split].
Qed.

Lemma step_ok c c' : fsw_step c c' -> system_ok c -> system_ok c'.
Proof.
  intros Hs Hok. destruct Hs.
  - by eapply stdin_step_ok.
  - by eapply take_step_ok.
  - by eapply event_step_ok.
  - destruct Hok as (Hok & Hh & Hi). split; [by eapply fsw_ok_env|]. split; [done|]. by split; [apply Hi|].
Qed.

(** [main] leaves the system in order. *)
Lemma fsw_start_ok opts w0 opt_j' port' s w :
  idle w0 -> watching (w_env w0) = ∅ ->
  fsw_start opts w0 = Done ((opt_j', port', s), w) -> system_ok (s, w, None).
Proof.
  intros Hi Hw. unfold fsw_start. destruct (fsw_options false false opts) as [st|[j r]]; [done|].
  unfold mbind at 1, C_bind at 1, sys, syscall, mbind at 1, C_bind at 1.
  destruct (sys_step "port_create" [] (w_env w0)) as [a e'] eqn:Hs. cbn [mret C_ret].
  destruct (sr_ret a =? -1) eqn:Ha; [done|]. set (w1 := World _ _ _ e').
  assert (Hi1 : idle w1) by (split; [apply Hi|by eapply sys_nvs; [exact Hs|apply Hi]]).
  assert (Hw1 : watching (w_env w1) = ∅) by (rewrite <-Hw; by eapply (sys_watching "port_create")).
  assert (Hwp : wp (if r then print_ready j else mret tt) (fun _ w' => idle w' /\ watching (w_env w') = ∅) w1).
  { destruct r; [|by apply wp_ret]. eapply wp_mono; [by apply print_ready_spec|].
    intros [] w2 (Hi2 & _ & Hw2). by rewrite Hw2. }
  unfold wp in Hwp. unfold mbind, C_bind. destruct (_ w1) as [[[] w2]| | |]; [|done..].
  intros [= <- <- <- <-]. destruct Hwp as [Hi2 Hw2]. split; [by apply fsw_ok_start|done].
Qed.

Lemma reachable_ok c c' : rtc fsw_step c c' -> system_ok c -> system_ok c'.
Proof. induction 1 as [|c c1 c' Hs _ IH]; [done|]. intros Hok. by eapply IH, step_ok. Qed.

(** C3: no watch is lost and no stale one is kept, in every state the two threads reach from the
    start: each file in the tree is there once, its name is a live block, and either the port
    watches its object or its event is in the hand of the events thread; and the port watches only
    objects of files in the tree. *)
Theorem fswatcher_watches opts w0 opt_j' port' s0 w1 s w h :
  idle w0 -> watching (w_env w0) = ∅ -> fsw_start opts w0 = Done ((opt_j', port', s0), w1) ->
  rtc fsw_step (s0, w1, None) (s, w, h) ->
  NoDup (ftn_text <$> nodes s) /\
  (forall n, n ∈ nodes s -> fs_mem s !! ftn_name n = Some (ftn_text n) /\
    (watching (w_env w) !! ftn_addr n = Some (ftn_name n) \/
     exists pe, h = Some pe /\ portev_object pe = ftn_addr n /\ portev_user pe = ftn_name n)) /\
  (forall o u, watching (w_env w) !! o = Some u -> exists n, n ∈ nodes s /\ ftn_addr n = o /\ ftn_name n = u).
Proof.
  intros Hi Hw Hstart Hr. pose proof (fsw_start_ok _ _ _ _ _ _ Hi Hw Hstart) as Hok0.
  destruct (reachable_ok _ _ Hr Hok0) as (Hok & Hh & _). split_and!.
  - rewrite (nodes_watched _ _ _ Hok). apply NoDup_elements.
  - intros n Hn. split; [apply (ok_mem _ _ _ Hok); by exists n|].
    destruct h as [pe|].
    + destruct Hh as (_ & _ & _ & _ & Hhn). destruct (decide (ftn_addr n = portev_object pe)) as [Ha|Ha].
      * right. exists pe. split; [done|]. split; [done|]. symmetry. by apply Hhn.
      * left. apply (ok_port _ _ _ Hok). split; [by exists n|]. cbn. by rewrite elem_of_singleton.
    + left. apply (ok_port _ _ _ Hok). split; [by exists n|]. apply not_elem_of_empty.
  - intros o u Ho. by apply (ok_port _ _ _ Hok) in Ho as [? _].
Qed.

(** C39: when a file is unwatched while its event is in the hand of the events thread, the name the
    event carries is freed, and the turn of the events thread reads it all the same. *)
Theorem unwatch_frees_event_name s w pe n line key :
  system_ok (s, w, Some pe) -> n ∈ nodes s -> portev_object pe = ftn_addr n ->
  Zlen line <= MAX_CMD_LEN -> key <> 0 -> scan_command line = Some (3, key, cs "UNWATCH", ftn_text n) ->
  wp (process_stdin_line strerror opt_j port s line) (fun s' _ =>
    forall w', handle_event strerror opt_j port s' pe w' = Undefined) w.
Proof.
  intros (Hok & (Hsrc & _ & _ & _ & Hn) & Hi) Hin Ho Hlen Hkey Hc.
  unfold process_stdin_line. change SYSTEM_KEY with 0. destruct (Z.ltb_spec MAX_CMD_LEN (Zlen line)); [lia|].
  apply wp_bind. unfold wp at 1. rewrite (sscanf_command_scan _ _ _ Hlen Hc). cbn [Z.eqb Pos.eqb orb negb].
  rewrite (proj2 (Z.eqb_neq _ _) Hkey), (proj2 (strcmp_eq _ _) eq_refl). cbn [Z.eqb].
  pose proof (scan_command_path _ _ _ _ _ Hc) as [[Hp _] _]. specialize (Hp eq_refl).
  destruct (ftn_text n) as [|c t] eqn:Ht; [done|].
  eapply wp_mono; [by eapply unwatch_path_spec|]. intros s' w1 (ms & _ & _ & Hfree) w'.
  unfold handle_event, check_and_rearm_event, mbind, C_bind, c_access. rewrite Hsrc.
  cbn [Z.eqb Pos.eqb PORT_SOURCE_FILE].
  rewrite <-(proj2 (Hn n Hin)) by done. by rewrite (Hfree n Hin Ht).
Qed.
End system.

(** ** A run *)

#[local] Existing Instance LP64.
#[local] Instance sample_tree : AvlTree files_tree_node := list_avl files_tree_node.
#[local] Instance sample_tree_laws : AvlLaws files_tree_node := list_avl_laws files_tree_node.

(** The file [/a] is watched, and an event of it taken. *)
Definition sample_run : fsw * world fenv :=
  (fun r => (r.1.1, r.2)) (left_by (wait_for_stdin sample_strerror true 3 sample_start (cs "7 WATCH /a" ++ [LF])
    (left_by (fsw_start (cs "j") sample_world) (true, 3, sample_start) sample_world).2)
    (sample_start, []) sample_world).

Definition sample_run_event : world fenv := (left_by (port_get 3 sample_run.2) sample_event sample_run.2).2.

Lemma fswatcher_watches_witness :
  rtc (fsw_step sample_strerror true 3) (sample_start, sample_world, None) (sample_run.1, sample_run_event, Some sample_event) /\
  NoDup (ftn_text <$> avl_nodes (fs_tree sample_run.1)) /\
  (forall n, n ∈ avl_nodes (fs_tree sample_run.1) -> fs_mem sample_run.1 !! ftn_name n = Some (ftn_text n) /\
    (watching (w_env sample_run_event) !! ftn_addr n = Some (ftn_name n) \/
     exists pe, Some sample_event = Some pe /\ portev_object pe = ftn_addr n /\ portev_user pe = ftn_name n)) /\
  (forall o u, watching (w_env sample_run_event) !! o = Some u ->
    exists n, n ∈ avl_nodes (fs_tree sample_run.1) /\ ftn_addr n = o /\ ftn_name n = u).
Proof.
  assert (Hr : rtc (fsw_step sample_strerror true 3) (sample_start, sample_world, None)
    (sample_run.1, sample_run_event, Some sample_event)).
  { eapply rtc_l.
    - eapply (step_stdin _ _ _ _ _ _ (cs "7 WATCH /a" ++ [LF]) sample_run.1 [] sample_run.2); vm_compute; [done|reflexivity].
    - eapply rtc_once, step_take. vm_compute. reflexivity. }
  split; [exact Hr|].
  apply (fswatcher_watches sample_strerror true 3 (cs "j") sample_world true 3 sample_start sample_world);
    [apply sample_idle|done|by vm_compute|exact Hr].
Defined.

Lemma unwatch_frees_event_name_witness :
  wp (process_stdin_line sample_strerror true 3 sample_taken (cs "8 UNWATCH /a")) (fun s' _ =>
    forall w', handle_event (E := fenv) sample_strerror true 3 s' sample_event w' = Undefined) sample_world.
Proof.
  apply (unwatch_frees_event_name sample_strerror true 3 sample_taken sample_world sample_event
    (new_node sample_start (cs "/a")) _ 8);
    [|by apply (elem_of_with_node ∅ _ _ _ _ sample_start_ok); [apply sample_unwatched|left]|done|by vm_compute|done|by vm_compute].
  split; [apply sample_taken_ok|]. split; [|apply sample_idle]. split_and!; [done|by vm_compute|by vm_compute|by vm_compute|].
  intros n [->|Hn]%(elem_of_with_node ∅ _ _ _ _ sample_start_ok); [done| |apply sample_unwatched].
  by apply not_elem_of_nil in Hn.
Defined.
