(* ===== verification/Builder.v ===== *)
(** * Builder: building a file tree from a manifest, [tools/builder/builder.c] and [file_cp.c]

    The manifest is read five times, once for each kind of entry and once more for the modes of
    the directories; its lines are a parameter ([None] when it cannot be opened), as is what
    [fgets] cuts them into.  Files are calls of the [Kernel], and so is a [printf] to standard
    output.  [uid_from_name] and [gid_from_name] are in the generated file [users.c]: they are
    parameters.  The global [exit_status] is an argument and a result; [main] returns what it
    hands to [exit].  The loops of [file_cp] wait for the kernel and are given fuel. *)
From Stdlib Require Import Lia.
From S2P Require Import Prelude Custr Strset Cnum Sys Fswatcher.

Definition MAX_DIRS : Z := 10.
Definition MAX_LINE_LEN : Z := 1024.

Definition O_RDONLY : Z := 0.
Definition O_WRONLY : Z := 1.
Definition O_CREAT : Z := 256.
Definition O_EXCL : Z := 1024.

(** The conversions of [sscanf(line, "%c %s %s %s %s", ...)] after the character: up to [n] words. *)
Fixpoint scan_words (n : nat) (s : cstr) : list cstr :=
  match n with
  | O => []
  | S n => match scan_word s with None => [] | Some (w, rest) => w :: scan_words n rest end
  end.

(** What is before the first ['='] of a link target, and after it. *)
Fixpoint split_link (target : cstr) : cstr * option cstr :=
  match target with
  | [] => ([], None)
  | c :: t => if Ascii.eqb c "="%char then ([], Some t) else let '(a, b) := split_link t in (c :: a, b)
  end.

Section builder.
Context {E : Type} `{Kernel E} `{DM : DataModel}.
Context (strerror : Z -> cstr) (uid_from_name gid_from_name : cstr -> Z).

Definition perror (s : cstr) : C E () := e ← get_errno; eprint (s ++ cs ": " ++ strerror e).
Definition printf (text : cstr) : C E () := _ ← sys "printf" [AS text]; mret tt.

(** [mode_t] is an unsigned 32-bit integer. *)
Definition str_to_mode (mode : cstr) : C E Z :=
  set_errno 0 ;;
  let '(result, range, p) := strtol 8 mode in
  (if range : bool then set_errno ERANGE else mret tt) ;;
  e ← get_errno;
  if negb (e =? 0) || negb (bool_decide (p = [])) || (Zlen p =? Zlen mode)
  then perror (cs "converting string to octal") ;; mret (u32 (-1))
  else mret (u32 result).

(** ** Copying a file *)

(** The inner loop: the bytes are written, or the copy fails. *)
Fixpoint write_loop (fuel : nat) (fd_to : Z) (out : list char) : C E bool :=
  match fuel with
  | O => c_undefined
  | S fuel =>
      nwritten ← sys "write" [AZ fd_to; AS out];
      if 0 <=? nwritten then
        let out := drop (Z.to_nat nwritten) out in
        if 0 <? Zlen out then write_loop fuel fd_to out else mret true
      else
        e ← get_errno;
        if negb (e =? EINTR) then mret false
        else if 0 <? Zlen out then write_loop fuel fd_to out else mret true
  end.

(** The outer loop: the last result of [read], or [None] when a write failed. *)
Fixpoint copy_loop (fuel : nat) (fd_from fd_to : Z) : C E (option Z) :=
  match fuel with
  | O => c_undefined
  | S fuel =>
      r ← syscall "read" [AZ fd_from; AZ 4096];
      if 0 <? sr_ret r then
        ok ← write_loop fuel fd_to (sr_data r);
        if ok : bool then copy_loop fuel fd_from fd_to else mret None
      else mret (Some (sr_ret r))
  end.

(** The label [out_error]. *)
Definition cp_error (to from : cstr) (fd_from fd_to : Z) : C E Z :=
  e ← get_errno;
  eprint (cs "Error copying " ++ from ++ cs " to " ++ to ++ [LF] ++ cs ": " ++ strerror e) ;;
  saved_errno ← get_errno;
  _ ← sys "close" [AZ fd_from];
  (if 0 <=? fd_to then _ ← sys "close" [AZ fd_to]; mret tt else mret tt) ;;
  set_errno saved_errno ;;
  mret (-1).

Definition file_cp (fuel : nat) (to from : cstr) : C E Z :=
  fd_from ← sys "open" [AS from; AZ O_RDONLY];
  if fd_from <? 0 then mret (-1) else
  fd_to ← sys "open" [AS to; AZ (Z.lor O_WRONLY (Z.lor O_CREAT O_EXCL)); AZ 438];
  if fd_to <? 0 then cp_error to from fd_from fd_to else
  nread ← copy_loop fuel fd_from fd_to;
  match nread with
  | Some 0 =>
      r ← sys "close" [AZ fd_to];
      if r <? 0 then cp_error to from fd_from (-1)
      else _ ← sys "close" [AZ fd_from]; mret 0
  | _ => cp_error to from fd_from fd_to
  end.

(** ** Entries *)

(** The line that announces an entry. *)
Definition announce (kind target : cstr) (m : Z) (user group : cstr) : cstr :=
  kind ++ cs ": [" ++ target ++ cs "][" ++ print_o 4 m ++ cs "][" ++ user ++ cs "/" ++ print_d (uid_from_name user) ++
  cs "][" ++ group ++ cs "/" ++ print_d (gid_from_name group) ++ cs "]: ".

Definition chown_or_exit (target user group : cstr) : C E () :=
  r ← sys "chown" [AS target; AZ (u32 (uid_from_name user)); AZ (u32 (gid_from_name group))];
  if negb (r =? 0) then perror (cs "chown()") ;; c_exit 1 else mret tt.

Definition chmod_or_exit (target : cstr) (m : Z) : C E () :=
  r ← sys "chmod" [AS target; AZ m];
  if negb (r =? 0) then perror (cs "chmod()") ;; c_exit 1 else mret tt.

Definition handle_dir (target mode user group : cstr) : C E () :=
  m ← str_to_mode mode;
  printf (announce (cs "DIR") target m user group) ;;
  r ← sys "mkdir" [AS target; AZ m];
  e ← get_errno;
  if negb (r =? 0) && negb (e =? EEXIST) then perror (cs "mkdir()") ;; c_exit 1
  else chown_or_exit target user group ;; printf (cs "OK" ++ [LF]).

(** The search of a file in the directories: where it was found.  [testfile] has [MAX_LINE_LEN]
    characters. *)
Fixpoint find_file (fuel : nat) (search_dirs : list cstr) (target : cstr) : C E (option cstr) :=
  match search_dirs with
  | [] => mret None
  | dir :: search_dirs =>
      let testfile := dir ++ cs "/" ++ target in
      if MAX_LINE_LEN <? Zlen testfile + 1 then c_undefined else
      r ← file_cp fuel target testfile;
      if r <? 0 then
        e ← get_errno;
        if negb (e =? ENOENT) then perror (cs "file_cp()") ;; c_exit 1
        else find_file fuel search_dirs target
      else mret (Some dir)
  end.

Definition handle_file (fuel : nat) (search_dirs : list cstr) (exit_status : Z) (target mode user group : cstr) : C E Z :=
  m ← str_to_mode mode;
  printf (announce (cs "FILE") target m user group) ;;
  found ← find_file fuel search_dirs target;
  match found with
  | Some dir =>
      chown_or_exit target user group ;;
      chmod_or_exit target m ;;
      printf (cs "OK (" ++ dir ++ cs ")" ++ [LF]) ;; mret exit_status
  | None => printf (cs "FAILED" ++ [LF]) ;; mret 1
  end.

Definition symlink (oldpath newpath : cstr) : C E Z := sys "symlink" [AS oldpath; AS newpath].
Definition AT_FDCWD : Z := -3041965.
Definition no_xpg4_link (existing new : cstr) : C E Z :=
  sys "linkat" [AZ AT_FDCWD; AS existing; AZ AT_FDCWD; AS new; AZ 0].

Definition handle_link (target type : cstr) (linker : cstr -> cstr -> C E Z) : C E () :=
  m ← malloc (Zlen target + 1);
  match m with
  | None => printf (cs "OUT OF MEMORY" ++ [LF]) ;; c_exit 1
  | Some _ =>
      match split_link target with
      | (newpath, Some ((_ :: _) as oldpath)) =>
          printf (cs "LINK(" ++ type ++ cs "): " ++ newpath ++ cs " => " ++ oldpath ++ cs ": ") ;;
          r ← linker oldpath newpath;
          if negb (r =? 0) then perror type ;; c_exit 1 else printf (cs "OK" ++ [LF])
      | _ => printf (cs "invalid " ++ type ++ cs " target: '" ++ target ++ cs "'" ++ [LF]) ;; c_exit 1
      end
  end.

(** ** The passes *)

Definition wrong_number (what : cstr) (lineno : Z) (line : cstr) : C E () :=
  printf (cs "Wrong number of arguments for " ++ what ++ cs " on line[" ++ print_d lineno ++ cs "]: " ++ line ++ [LF]).

(** One line, of type [type], in a pass.  [args] are the words after it. *)
Definition handle_line (fuel : nat) (search_dirs : list cstr) (pass lineno : Z) (line : cstr) (type : char)
    (args : list cstr) (exit_status : Z) : C E Z :=
  if Ascii.eqb type "d"%char then
    match args with
    | [target; mode; user; group] =>
        if pass =? 1 then handle_dir target mode user group ;; mret exit_status
        else if pass =? 5 then m ← str_to_mode mode; chmod_or_exit target m ;; mret exit_status
        else mret exit_status
    | _ => wrong_number (cs "directory") lineno line ;; mret exit_status
    end
  else if Ascii.eqb type "f"%char then
    match args with
    | [target; mode; user; group] =>
        if pass =? 2 then handle_file fuel search_dirs exit_status target mode user group else mret exit_status
    | _ => wrong_number (cs "file") lineno line ;; mret exit_status
    end
  else if Ascii.eqb type "s"%char then
    match args with
    | [target] =>
        if pass =? 3 then handle_link target (cs "symlink") symlink ;; mret exit_status else mret exit_status
    | _ => wrong_number (cs "symlink") lineno line ;; mret exit_status
    end
  else if Ascii.eqb type "h"%char then
    match args with
    | [target] =>
        if pass =? 4 then handle_link target (cs "link") no_xpg4_link ;; mret exit_status else mret exit_status
    | _ => wrong_number (cs "link") lineno line ;; mret exit_status
    end
  else
    printf (cs "Invalid type (" ++ [type] ++ cs ") on line[" ++ print_d lineno ++ cs "]: " ++ line ++ [LF]) ;;
    mret exit_status.

(** The lines of a pass.  [type] keeps its value on an empty string; at first it has none. *)
Fixpoint pass_lines (fuel : nat) (search_dirs : list cstr) (pass lineno : Z) (type : option char) (exit_status : Z)
    (lines : list cstr) : C E (Z * option char * Z) :=
  match lines with
  | [] => mret (lineno, type, exit_status)
  | line :: lines =>
      let lineno := i32 (lineno + 1) in
      let '(type, args) := match line with [] => (type, []) | c :: rest => (Some c, scan_words 4 rest) end in
      t ← c_access type;
      exit_status ← handle_line fuel search_dirs pass lineno line t args exit_status;
      pass_lines fuel search_dirs pass lineno type exit_status lines
  end.

Fixpoint passes (n : nat) (fuel : nat) (search_dirs : list cstr) (manifest : cstr) (content : option (list cstr))
    (pass lineno : Z) (type : option char) (exit_status : Z) : C E Z :=
  match n with
  | O => mret exit_status
  | S n =>
      match content with
      | None => perror manifest ;; passes n fuel search_dirs manifest content (pass + 1) lineno type exit_status
      | Some lines =>
          '(lineno, type, exit_status) ← pass_lines fuel search_dirs pass lineno type exit_status lines;
          passes n fuel search_dirs manifest content (pass + 1) lineno type exit_status
      end
  end.

(** The pointers [argv[3]] to [argv[MAX_DIRS + 2]] are read whatever [argc] is: [argv] is the memory
    from its first element on, the NULL after the last argument and what follows it included. *)
Fixpoint read_dirs (n : nat) (argv : list (option cstr)) : C E (list (option cstr)) :=
  match n with
  | O => mret []
  | S n => match argv with [] => c_undefined | a :: argv => l ← read_dirs n argv; mret (a :: l) end
  end.

(** The elements before the first NULL. *)
Fixpoint until_null (l : list (option cstr)) : list cstr :=
  match l with Some a :: l => a :: until_null l | _ => [] end.

Fixpoint log_dirs (i : Z) (dirs : list cstr) : C E () :=
  match dirs with
  | [] => mret tt
  | d :: dirs => printf (cs "SEARCH[" ++ pad0 2 (print_d i) ++ cs "]: " ++ d ++ [LF]) ;; log_dirs (i + 1) dirs
  end.

Definition main (fuel : nat) (argc : Z) (argv : list (option cstr)) (content : option (list cstr)) : C E Z :=
  euid ← sys "geteuid" [];
  if negb (euid =? 0) then printf (cs "euid must be 0 to use this tool." ++ [LF]) ;; mret 1
  else if (argc <? 4) || (MAX_DIRS + 3 <? argc) then
    name ← c_access (mjoin (argv !! 0%nat));
    printf (cs "Usage: " ++ name ++ cs " <manifest> <output dir> <dir1> [<dir2> ... <dirX>]" ++ [LF]) ;;
    printf [LF] ;;
    printf (cs " * Use only absolute paths" ++ [LF]) ;;
    printf (cs " * Directories are searched in order listed, stop at first match" ++ [LF]) ;;
    printf (cs " * MAX_DIRS=" ++ print_d MAX_DIRS ++ cs ", modify and recompile if you need more" ++ [LF]) ;;
    printf [LF] ;;
    mret 1
  else
    manifest ← c_access (mjoin (argv !! 1%nat));
    output ← c_access (mjoin (argv !! 2%nat));
    dirs ← read_dirs (Z.to_nat MAX_DIRS) (drop 3 argv);
    let search_dirs := until_null dirs in
    printf (cs "MANIFEST:   " ++ manifest ++ [LF]) ;;
    printf (cs "OUTPUT:     " ++ output ++ [LF]) ;;
    log_dirs 0 search_dirs ;;
    r ← sys "chdir" [AS output];
    if negb (r =? 0) then perror (cs "failed to chdir(<output dir>)") ;; mret 1
    else passes 5 fuel search_dirs manifest content 1 0 None 0.
End builder.

(** ** Copies are complete *)

(** A kernel that serves the requests of a copy: [read] delivers some of what is left or is
    interrupted, which [cut] remembers; [write] takes some of what it is given or is interrupted, a
    bounded number of times. *)
Class Copying (E : Type) `{Kernel E} := {
  contents : cstr -> E -> option (list char);
  unread : Z -> E -> list char;
  target : Z -> E -> option cstr;
  interrupts : E -> nat;
  cut : E -> bool;
  open_source from c e r e' : contents from e = Some c ->
    sys_step "open" [AS from; AZ O_RDONLY] e = (r, e') ->
    0 <= sr_ret r /\ unread (sr_ret r) e' = c /\ interrupts e' = interrupts e /\ cut e' = cut e /\
    (forall p, contents p e' = contents p e);
  open_new to fd e r e' : contents to e = None ->
    sys_step "open" [AS to; AZ (Z.lor O_WRONLY (Z.lor O_CREAT O_EXCL)); AZ 438] e = (r, e') ->
    0 <= sr_ret r /\ target (sr_ret r) e' = Some to /\ contents to e' = Some [] /\ interrupts e' = interrupts e /\
    cut e' = cut e /\ unread fd e' = unread fd e;
  read_some fd to e r e' : sys_step "read" [AZ fd; AZ 4096] e = (r, e') ->
    interrupts e' = interrupts e /\ (forall p, contents p e' = contents p e) /\ target to e' = target to e /\
    (sr_ret r = -1 /\ sr_errno r = EINTR /\ cut e' = true \/
     sr_ret r = Zlen (sr_data r) /\ unread fd e = sr_data r ++ unread fd e' /\ (sr_data r = [] -> unread fd e = []) /\ cut e' = cut e);
  write_some fd to c fd' out e r e' : out <> [] -> target fd e = Some to -> contents to e = Some c ->
    sys_step "write" [AZ fd; AS out] e = (r, e') ->
    unread fd' e' = unread fd' e /\ target fd e' = Some to /\ cut e' = cut e /\
    (sr_ret r = -1 /\ sr_errno r = EINTR /\ contents to e' = Some c /\ (interrupts e' < interrupts e)%nat \/
     0 < sr_ret r <= Zlen out /\ contents to e' = Some (c ++ take (Z.to_nat (sr_ret r)) out) /\
     (interrupts e' <= interrupts e)%nat);
  close_ok fd e r e' : sys_step "close" [AZ fd] e = (r, e') -> sr_ret r = 0 /\ (forall p, contents p e' = contents p e) /\ cut e' = cut e
}.

Section copies.
Context {E : Type} `{Copying E} (strerror : Z -> cstr).
Implicit Types w : world E.

(** Destination [fd_to] is [to] and holds [c]; [k] bounds what is left to read and interrupts. *)
Definition copying (fd_from fd_to : Z) (to : cstr) (left c : list char) (k : nat) w : Prop :=
  unread fd_from (w_env w) = left /\ target fd_to (w_env w) = Some to /\ contents to (w_env w) = Some c /\
  cut (w_env w) = false /\ (interrupts (w_env w) <= k)%nat.

Lemma write_loop_spec fuel fd_from fd_to to left c k out (Q : bool -> world E -> Prop) w :
  copying fd_from fd_to to left c k w -> out <> [] -> (length out + k < fuel)%nat ->
  (forall w', copying fd_from fd_to to left (c ++ out) k w' -> Q true w') ->
  wp (write_loop fuel fd_to out) Q w.
Proof.
  revert c k out w. induction fuel as [|fuel IH]; intros c k out w (Hu & Ht & Hc & Hx & Hk) Hout Hf HQ; [lia|].
  cbn [write_loop]. destruct (sys_step "write" [AZ fd_to; AS out] (w_env w)) as [r e'] eqn:Hs.
  apply wp_bind. eapply wp_sys; [exact Hs|].
  destruct (write_some _ _ _ fd_from _ _ _ _ Hout Ht Hc Hs) as (Hu' & Ht' & Hx' & [(Hr & He & Hc' & Hi)|(Hr & Hc' & Hi)]).
  - rewrite Hr. cbn [Z.leb Z.compare Z.eqb Pos.eqb]. apply wp_bind, wp_get_errno. cbn [w_errno]. rewrite He. cbn [Z.eqb Pos.eqb EINTR negb].
    destruct (Z.ltb_spec 0 (Zlen out)); [|destruct out; [done|zlen; pose proof (Zlen_nonneg out); lia]].
    apply (IH c (k - 1)%nat); [split_and!; cbn; [congruence|done|done|congruence|lia]|done|lia|].
    intros w' (? & ? & ? & ? & ?). apply HQ. split_and!; [done..|lia].
  - destruct (Z.leb_spec 0 (sr_ret r)); [|lia]. pose proof (take_drop (Z.to_nat (sr_ret r)) out) as Htd.
    destruct (Z.ltb_spec 0 (Zlen (drop (Z.to_nat (sr_ret r)) out))) as [Hd|Hd].
    + apply (IH (c ++ take (Z.to_nat (sr_ret r)) out) k).
      * split_and!; cbn; [congruence|done|done|congruence|lia].
      * intros Hnil. rewrite Hnil in Hd. done.
      * rewrite length_drop. unfold Zlen in *. lia.
      * intros w' Hw'. apply HQ. by rewrite <-app_assoc, Htd in Hw'.
    + apply wp_ret, HQ. assert (drop (Z.to_nat (sr_ret r)) out = []) as Hnil.
      { apply length_zero_iff_nil. unfold Zlen in Hd. lia. }
      rewrite Hnil, app_nil_r in Htd. rewrite Htd in Hc'. split_and!; cbn; [congruence|done|done|congruence|lia].
Qed.

Lemma copy_loop_spec fuel fd_from fd_to to left c k (Q : option Z -> world E -> Prop) w :
  copying fd_from fd_to to left c k w -> (S (length left) + k < fuel)%nat ->
  (forall w', contents to (w_env w') = Some (c ++ left) -> cut (w_env w') = false -> Q (Some 0) w') ->
  (forall n w', contents to (w_env w') = Some (c ++ take n left) -> cut (w_env w') = true -> w_errno w' = EINTR -> Q (Some (-1)) w') ->
  wp (copy_loop fuel fd_from fd_to) Q w.
Proof.
  revert left c w. induction fuel as [|fuel IH]; intros left c w (Hu & Ht & Hc & Hx & Hk) Hf HQ HX; [lia|].
  cbn [copy_loop]. destruct (sys_step "read" [AZ fd_from; AZ 4096] (w_env w)) as [r e'] eqn:Hs.
  apply wp_bind. eapply wp_syscall; [exact Hs|].
  destruct (read_some _ fd_to _ _ _ Hs) as (Hi & Hc' & Ht' & [(Hr & He & Hx')|(Hr & Hu' & Hnil & Hx')]); rewrite Hr.
  { apply wp_ret, (HX 0%nat); [by rewrite app_nil_r, <-Hc; apply Hc'|done|done]. }
  destruct (sr_data r) as [|d data] eqn:Hd.
  - change (0 <? Zlen (@nil char)) with false. cbn iota. apply wp_ret, HQ; [|cbn; congruence].
    rewrite Hnil in Hu by done. rewrite <-Hu, app_nil_r, <-Hc. apply Hc'.
  - destruct (Z.ltb_spec 0 (Zlen (d :: data))); [|zlen; pose proof (Zlen_nonneg data); lia].
    assert (Hlen : (length left = S (length data) + length (unread fd_from e'))%nat).
    { rewrite <-Hu, Hu', length_app. done. }
    apply wp_bind, (write_loop_spec _ fd_from _ to (unread fd_from e') c k); [|done|cbn; lia|].
    + split_and!; cbn; [done|congruence|by rewrite Hc'|congruence|lia].
    + intros w' Hw'. apply (IH (unread fd_from e') (c ++ d :: data)); [done|lia| |].
      * intros w2 Hw2. apply HQ. by rewrite <-Hu, Hu', app_assoc.
      * intros n w2 Hw2. apply (HX (length (d :: data) + n)%nat). by rewrite <-Hu, Hu', take_app_add, app_assoc.
Qed.

Lemma close_wp fd (Q : Z -> world E -> Prop) w :
  (forall w', (forall p, contents p (w_env w') = contents p (w_env w)) -> cut (w_env w') = cut (w_env w) -> Q 0 w') -> wp (sys "close" [AZ fd]) Q w.
Proof.
  intros HQ. destruct (sys_step "close" [AZ fd] (w_env w)) as [r e'] eqn:Hs. eapply wp_sys; [exact Hs|].
  destruct (close_ok _ _ _ _ Hs) as (-> & Hc & Hx). by apply HQ.
Qed.

(** The end of a copy that failed: [errno] is kept. *)
Lemma cp_error_spec to from fd_from fd_to w :
  wp (cp_error strerror to from fd_from fd_to) (fun r w' => r = -1 /\ w_errno w' = w_errno w /\
    (forall p, contents p (w_env w') = contents p (w_env w)) /\ cut (w_env w') = cut (w_env w)) w.
Proof.
  unfold cp_error. apply wp_bind, wp_get_errno, wp_bind, wp_eprint, wp_bind, wp_get_errno, wp_bind, close_wp. intros w1 Hc1 Hx1. apply wp_bind.
  eapply (wp_mono _ (fun _ w' => (forall p, contents p (w_env w') = contents p (w_env w)) /\ cut (w_env w') = cut (w_env w))).
  - destruct (0 <=? fd_to); [|by split]. apply wp_bind, close_wp. intros w2 Hc2 Hx2. split; [intros p; by rewrite Hc2, Hc1|by rewrite Hx2, Hx1].
  - intros _ w2 [Hc2 Hx2]. done.
Qed.

(** C37: with a kernel that serves its requests, [file_cp] creates the target with exactly the bytes
    of the source, however few bytes each [read] and [write] moves and however often [write] is
    interrupted; it takes at most one turn for each byte and each interrupt.  A [read] that is
    interrupted is not repeated: the result is -1 with EINTR, and the target that was created is
    left behind with some beginning of the source. *)
Theorem file_cp_copies fuel to from c w :
  contents from (w_env w) = Some c -> contents to (w_env w) = None -> cut (w_env w) = false ->
  (length c + interrupts (w_env w) + 2 <= fuel)%nat ->
  wp (file_cp strerror fuel to from) (fun r w' =>
    if cut (w_env w') then r = -1 /\ w_errno w' = EINTR /\ exists n, contents to (w_env w') = Some (take n c)
    else r = 0 /\ contents to (w_env w') = Some c) w.
Proof.
  intros Hfrom Hto Hcut Hf. unfold file_cp.
  destruct (sys_step "open" [AS from; AZ O_RDONLY] (w_env w)) as [r1 e1] eqn:Hs1.
  apply wp_bind. eapply wp_sys; [exact Hs1|].
  destruct (open_source _ _ _ _ _ Hfrom Hs1) as (Hr1 & Hu1 & Hi1 & Hx1 & Hc1).
  destruct (Z.ltb_spec (sr_ret r1) 0); [lia|].
  destruct (sys_step "open" [AS to; AZ (Z.lor O_WRONLY (Z.lor O_CREAT O_EXCL)); AZ 438] e1) as [r2 e2] eqn:Hs2.
  apply wp_bind. eapply wp_sys; [exact Hs2|]. rewrite <-Hc1 in Hto.
  destruct (open_new _ (sr_ret r1) _ _ _ Hto Hs2) as (Hr2 & Ht2 & Hc2 & Hi2 & Hx2 & Hu2).
  destruct (Z.ltb_spec (sr_ret r2) 0); [lia|].
  apply wp_bind, (copy_loop_spec _ _ _ to c [] (interrupts (w_env w))); [split_and!; cbn; [congruence|done|done|congruence|lia]|lia| |].
  - intros w3 Hc3 Hx3. apply wp_bind, close_wp. intros w4 Hc4 Hx4. cbn [Z.ltb Z.compare]. apply wp_bind, close_wp.
    intros w5 Hc5 Hx5. apply wp_ret. rewrite Hx5, Hx4, Hx3. split; [done|]. by rewrite Hc5, Hc4.
  - intros n w3 Hc3 Hx3 He3. eapply wp_mono; [apply cp_error_spec|]. intros r w4 (-> & He4 & Hc4 & Hx4). rewrite Hx4, Hx3.
    split; [done|]. split; [congruence|]. exists n. by rewrite Hc4.
Qed.
End copies.

(** ** The order of the work *)

Inductive entry :=
| Dir (target mode user group : cstr)
| File (target mode user group : cstr)
| Symlink (target : cstr)
| Hardlink (target : cstr).

(** The entry of a line; none for a line the program complains about. *)
Definition entry_of (line : cstr) : option entry :=
  match line with
  | [] => None
  | c :: rest =>
      match scan_words 4 rest with
      | [target; mode; user; group] =>
          if Ascii.eqb c "d"%char then Some (Dir target mode user group)
          else if Ascii.eqb c "f"%char then Some (File target mode user group) else None
      | [target] =>
          if Ascii.eqb c "s"%char then Some (Symlink target)
          else if Ascii.eqb c "h"%char then Some (Hardlink target) else None
      | _ => None
      end
  end.

Definition dirs_of (es : list entry) : list (cstr * cstr * cstr * cstr) :=
  omap (fun e => match e with Dir t m u g => Some (t, m, u, g) | _ => None end) es.
Definition files_of (es : list entry) : list (cstr * cstr * cstr * cstr) :=
  omap (fun e => match e with File t m u g => Some (t, m, u, g) | _ => None end) es.
Definition symlinks_of (es : list entry) : list cstr := omap (fun e => match e with Symlink t => Some t | _ => None end) es.
Definition hardlinks_of (es : list entry) : list cstr := omap (fun e => match e with Hardlink t => Some t | _ => None end) es.

Section order.
Context {E : Type} `{Kernel E} `{DM : DataModel}.
Context (strerror : Z -> cstr) (uid_from_name gid_from_name : cstr -> Z) (fuel : nat) (search_dirs : list cstr).
Implicit Types w : world E.

Fixpoint each {A} (f : A -> C E ()) (l : list A) : C E () :=
  match l with [] => mret tt | a :: l => f a ;; each f l end.

Fixpoint each_file (exit_status : Z) (l : list (cstr * cstr * cstr * cstr)) : C E Z :=
  match l with
  | [] => mret exit_status
  | (t, m, u, g) :: l =>
      exit_status ← handle_file strerror uid_from_name gid_from_name fuel search_dirs exit_status t m u g;
      each_file exit_status l
  end.

(** Directories first, then files, symbolic links and links, and the modes of the directories last. *)
Definition build (es : list entry) : C E Z :=
  each (fun '(t, m, u, g) => handle_dir strerror uid_from_name gid_from_name t m u g) (dirs_of es) ;;
  exit_status ← each_file 0 (files_of es);
  each (fun t => handle_link strerror t (cs "symlink") symlink) (symlinks_of es) ;;
  each (fun t => handle_link strerror t (cs "link") no_xpg4_link) (hardlinks_of es) ;;
  each (fun '(t, m, _, _) => m ← str_to_mode strerror m; chmod_or_exit strerror t m) (dirs_of es) ;;
  mret exit_status.

(** What a pass does. *)
Definition pass_work (pass : Z) (es : list entry) (exit_status : Z) : C E Z :=
  if pass =? 1 then
    each (fun '(t, m, u, g) => handle_dir strerror uid_from_name gid_from_name t m u g) (dirs_of es) ;; mret exit_status
  else if pass =? 2 then each_file exit_status (files_of es)
  else if pass =? 3 then
    each (fun t => handle_link strerror t (cs "symlink") symlink) (symlinks_of es) ;; mret exit_status
  else if pass =? 4 then
    each (fun t => handle_link strerror t (cs "link") no_xpg4_link) (hardlinks_of es) ;; mret exit_status
  else each (fun '(t, m, _, _) => m ← str_to_mode strerror m; chmod_or_exit strerror t m) (dirs_of es) ;; mret exit_status.

(** Computations with equal results. *)
Definition same_as {A} (m m' : C E A) : Prop := forall w, m w = m' w.

Lemma same_bind {A B} (m : C E A) (k k' : A -> C E B) : (forall a, same_as (k a) (k' a)) -> same_as (m ≫= k) (m ≫= k').
Proof. intros Hk w. unfold mbind, C_bind. destruct (m w) as [[a w']| | |]; [apply Hk|done..]. Qed.

Lemma bind_assoc {A B D} (m : C E A) (k : A -> C E B) (k' : B -> C E D) :
  same_as ((m ≫= k) ≫= k') (m ≫= fun a => k a ≫= k').
Proof. intros w. unfold mbind, C_bind. by destruct (m w) as [[a w']| | |]. Qed.

Lemma ret_bind {A B} (a : A) (k : A -> C E B) : same_as (mret a ≫= k) (k a).
Proof. done. Qed.

Lemma same_trans {A} (m1 m2 m3 : C E A) : same_as m1 m2 -> same_as m2 m3 -> same_as m1 m3.
Proof. intros H1 H2 w. by rewrite H1. Qed.

Lemma same_bind_l {A B} (m m' : C E A) (k : A -> C E B) : same_as m m' -> same_as (m ≫= k) (m' ≫= k).
Proof. intros Hm w. unfold mbind, C_bind. by rewrite Hm. Qed.

Lemma same_sym {A} (m1 m2 : C E A) : same_as m1 m2 -> same_as m2 m1.
Proof. intros Hm w. by rewrite Hm. Qed.

(** The five passes of a line. *)
Ltac work :=
  let Hpass := fresh in
  match goal with Hp : _ \/ _ |- _ => destruct Hp as [-> |[-> |[-> |[-> | ->]]]] end; intros w; try reflexivity;
  cbn [pass_work Z.eqb Pos.eqb dirs_of files_of symlinks_of hardlinks_of omap list_omap each each_file Ascii.eqb Bool.eqb];
  rewrite ?bind_assoc; try done; apply same_bind; intros ? ?; by rewrite ?bind_assoc.

(** A well-formed line does the work of its pass. *)
Lemma handle_line_work pass lineno line c rest e es exit_status :
  line = c :: rest -> entry_of line = Some e -> 1 <= pass <= 5 ->
  same_as (x ← handle_line strerror uid_from_name gid_from_name fuel search_dirs pass lineno line c (scan_words 4 rest) exit_status;
           pass_work pass es x)
          (pass_work pass (e :: es) exit_status).
Proof.
  intros -> He Hp. unfold handle_line. unfold entry_of in He.
  assert (Hpass : pass = 1 \/ pass = 2 \/ pass = 3 \/ pass = 4 \/ pass = 5) by lia.
  destruct (scan_words 4 rest) as [|t [|m [|u [|g [|? ?]]]]]; try done.
  - destruct (Ascii.eqb c "s") eqn:Hs; [|destruct (Ascii.eqb c "h") eqn:Hh; [|done]]; injection He as <-.
    + apply Ascii.eqb_eq in Hs as ->. work.
    + apply Ascii.eqb_eq in Hh as ->. work.
  - destruct (Ascii.eqb c "d") eqn:Hd; [|destruct (Ascii.eqb c "f") eqn:Hf; [|done]]; injection He as <-.
    + apply Ascii.eqb_eq in Hd as ->. work.
    + apply Ascii.eqb_eq in Hf as ->. work.
Qed.

(** A pass over well-formed lines. *)
Lemma pass_lines_work pass lineno type lines es :
  entry_of <$> lines = Some <$> es -> 1 <= pass <= 5 ->
  exists lineno' type', forall exit_status, same_as
    (pass_lines strerror uid_from_name gid_from_name fuel search_dirs pass lineno type exit_status lines)
    (x ← pass_work pass es exit_status; mret (lineno', type', x)).
Proof.
  intros Hl Hp. revert lineno type es Hl. induction lines as [|line lines IH]; intros lineno type [|e es] Hl; try done.
  - exists lineno, type. intros exit_status w. unfold pass_work. repeat (case_match; [reflexivity|]). reflexivity.
  - cbn in Hl. injection Hl as He Hl. destruct line as [|c rest]; [done|].
    destruct (IH (i32 (lineno + 1)) (Some c) es Hl) as (lineno' & type' & Hrest). exists lineno', type'. intros exit_status.
    cbn [pass_lines].
    eapply same_trans; [|intros w; symmetry; apply (same_bind_l _ _ _ (same_sym _ _ (handle_line_work pass (i32 (lineno + 1)) _ _ _ _ es exit_status eq_refl He Hp)))].
    intros w. rewrite bind_assoc.
    exact (same_bind (handle_line strerror uid_from_name gid_from_name fuel search_dirs pass (i32 (lineno + 1)) (c :: rest) c
      (scan_words 4 rest) exit_status) _ _ Hrest w).
Qed.

(** C38: for a manifest of well-formed lines the five passes do the work in order: every directory,
    then every file, every symbolic link, every link, and the modes of the directories last, each
    kind in the order of its lines. *)
Theorem builder_in_order manifest lines es w :
  entry_of <$> lines = Some <$> es ->
  passes strerror uid_from_name gid_from_name 5 fuel search_dirs manifest (Some lines) 1 0 None 0 w = build es w.
Proof.
  intros Hl. revert w. cbn [passes].
  assert (Hstep : forall n pass lineno type x (k : Z -> C E Z), 1 <= pass <= 5 ->
    (forall lineno type y, same_as (passes strerror uid_from_name gid_from_name n fuel search_dirs manifest (Some lines) (pass + 1) lineno type y) (k y)) ->
    same_as (passes strerror uid_from_name gid_from_name (S n) fuel search_dirs manifest (Some lines) pass lineno type x)
      (pass_work pass es x ≫= k)).
  { intros n pass lineno type x k Hp Hk. cbn [passes].
    destruct (pass_lines_work pass lineno type lines es Hl Hp) as (l' & t' & Hw).
    eapply same_trans; [apply same_bind_l, Hw|]. eapply same_trans; [apply bind_assoc|]. apply same_bind. intros y.
    apply Hk. }
  change (same_as (passes strerror uid_from_name gid_from_name 5 fuel search_dirs manifest (Some lines) 1 0 None 0) (build es)).
  eapply same_trans.
  { apply (Hstep 4%nat 1 _ _ _ (fun y => pass_work 2 es y ≫= fun y => pass_work 3 es y ≫= fun y => pass_work 4 es y ≫= pass_work 5 es)); [lia|].
    intros ???. apply (Hstep 3%nat 2); [lia|]. intros ???. apply (Hstep 2%nat 3); [lia|]. intros ???.
    apply (Hstep 1%nat 4); [lia|]. intros l' t' z w.
    rewrite (Hstep 0%nat 5 l' t' z mret); [|lia|done]. unfold mbind, C_bind.
    by destruct (pass_work 5 es z w) as [[? ?]| | |]. }
  intros w. unfold build, pass_work. cbn [Z.eqb Pos.eqb]. rewrite !bind_assoc.
  repeat (apply same_bind; intros ? ?; rewrite ?ret_bind, ?bind_assoc; try done).
Qed.
End order.

(** A name whose path does not fit [testfile] makes the search write past it. *)
Lemma find_file_overrun {E} `{Kernel E} `{DM : DataModel} (strerror : Z -> cstr) fuel dir dirs target (w : world E) :
  MAX_LINE_LEN <= Zlen dir + 1 + Zlen target -> find_file strerror fuel (dir :: dirs) target w = Undefined.
Proof.
  intros Hl. cbn [find_file]. destruct (Z.ltb_spec MAX_LINE_LEN (Zlen (dir ++ cs "/" ++ target) + 1)) as [|Hle]; [done|].
  exfalso. zlen. change (Zlen (cs "/")) with 1 in Hle. lia.
Qed.

(** ** A run *)

(** A kernel with one file open for reading and one for writing, which reads three bytes at a time
    and writes two, after [ce_interrupts] interrupts; [ce_reads] reads later, if it is a number, a
    read is interrupted. *)
Record cp_env := CpEnv {
  ce_files : gmap cstr (list char);
  ce_unread : list char;
  ce_target : option cstr;
  ce_interrupts : nat;
  ce_reads : option nat;
  ce_cut : bool
}.

#[local] Instance cp_kernel : Kernel cp_env := fun name args e =>
  let ok ret data e' := (SysRet ret 0 data [], e') in
  let fail er := (SysRet (-1) er [] [], e) in
  match args with
  | [AS from; AZ _] =>
      match ce_files e !! from with
      | Some c => ok 3 [] (CpEnv (ce_files e) c (ce_target e) (ce_interrupts e) (ce_reads e) (ce_cut e))
      | None => fail ENOENT
      end
  | [AS to; AZ _; AZ _] =>
      match ce_files e !! to with
      | Some _ => fail EEXIST
      | None => ok 4 [] (CpEnv (<[to := []]> (ce_files e)) (ce_unread e) (Some to) (ce_interrupts e) (ce_reads e) (ce_cut e))
      end
  | [AZ _; AZ _] =>
      match ce_reads e with
      | Some O => (SysRet (-1) EINTR [] [], CpEnv (ce_files e) (ce_unread e) (ce_target e) (ce_interrupts e) None true)
      | n => ok (Zlen (take 3 (ce_unread e))) (take 3 (ce_unread e))
               (CpEnv (ce_files e) (drop 3 (ce_unread e)) (ce_target e) (ce_interrupts e) (pred <$> n) (ce_cut e))
      end
  | [AZ _; AS out] =>
      match ce_interrupts e with
      | S n => (SysRet (-1) EINTR [] [], CpEnv (ce_files e) (ce_unread e) (ce_target e) n (ce_reads e) (ce_cut e))
      | O =>
          match ce_target e with
          | Some to => ok (Zlen (take 2 out)) []
              (CpEnv (alter (fun c => c ++ take 2 out) to (ce_files e)) (ce_unread e) (ce_target e) O (ce_reads e) (ce_cut e))
          | None => fail EINVAL
          end
      end
  | _ => ok 0 [] e
  end.

#[local] Instance cp_copying : Copying cp_env.
Proof.
  refine {| contents := fun p e => ce_files e !! p; unread := fun _ => ce_unread; target := fun _ => ce_target;
            interrupts := ce_interrupts; cut := ce_cut |}.
  - intros from c e r e' Hc Hs. unfold sys_step, cp_kernel in Hs. rewrite Hc in Hs. by injection Hs as <- <-.
  - intros to fd e r e' Hc Hs. unfold sys_step, cp_kernel in Hs. rewrite Hc in Hs. injection Hs as <- <-. cbn.
    by rewrite lookup_insert_eq.
  - intros fd to e r e' Hs. unfold sys_step, cp_kernel in Hs. destruct (ce_reads e) as [[|n]|]; injection Hs as <- <-.
    1: by split_and!; [..|left].
    all: cbn [sr_ret sr_data ce_unread ce_files ce_target ce_interrupts ce_cut]; split_and!; [done..|right];
      split_and!; [done|by rewrite take_drop| |done]; by destruct (ce_unread e).
  - intros fd to c fd' out e r e' Hout Ht Hc Hs. unfold sys_step, cp_kernel in Hs.
    destruct (ce_interrupts e) as [|n] eqn:Hi; [rewrite Ht in Hs|]; injection Hs as <- <-; cbn.
    + split; [done|]. split; [done|]. split; [done|]. right. rewrite lookup_alter_eq, Hc. cbn. rewrite Zlen_to_nat.
      split; [rewrite Zlen_take; destruct out as [|c' out]; [done|zlen; pose proof (Zlen_nonneg out); lia]|]. split; [|lia].
      by rewrite length_take, <-take_take, firstn_all.
    + split; [done|]. split; [done|]. split; [done|]. left. split_and!; [done|done|done|lia].
  - intros fd e r e' Hs. injection Hs as <- <-. done.
Defined.

(** A copy whose reads are not interrupted, and one whose second read is. *)
Lemma file_cp_copies_witness :
  let w n := World 0 [] [] (CpEnv {[cs "proto/etc/passwd" := cs "root:x:0:0"]} [] None 3 n false) in
  let copied n := wp (file_cp (fun _ => cs "error") 15 (cs "etc/passwd") (cs "proto/etc/passwd")) (fun r w' =>
    if cut (w_env w') then r = -1 /\ w_errno w' = EINTR /\ exists n, contents (cs "etc/passwd") (w_env w') = Some (take n (cs "root:x:0:0"))
    else r = 0 /\ contents (cs "etc/passwd") (w_env w') = Some (cs "root:x:0:0")) (w n) in
  copied None /\ copied (Some 1%nat).
Proof.
  intros w copied. split.
  - apply (file_cp_copies (fun _ => cs "error") 15 (cs "etc/passwd") (cs "proto/etc/passwd") (cs "root:x:0:0") (w None));
      [by vm_compute|by vm_compute|done|cbn; lia].
  - apply (file_cp_copies (fun _ => cs "error") 15 (cs "etc/passwd") (cs "proto/etc/passwd") (cs "root:x:0:0") (w (Some 1%nat)));
      [by vm_compute|by vm_compute|done|cbn; lia].
Defined.

Definition sample_manifest : list cstr :=
  [cs "f etc/passwd 0644 root sys" ++ [LF]; cs "s sbin=./usr/sbin" ++ [LF]; cs "d etc 0755 root sys" ++ [LF]].

Lemma builder_in_order_witness :
  passes (DM := LP64) (E := cp_env) (fun _ => cs "error") (fun _ => 0) (fun _ => 3) 5 9 [cs "proto"] (cs "manifest")
    (Some sample_manifest) 1 0 None 0 (World 0 [] [] (CpEnv ∅ [] None 0 None false)) =
  build (DM := LP64) (fun _ => cs "error") (fun _ => 0) (fun _ => 3) 9 [cs "proto"]
    [File (cs "etc/passwd") (cs "0644") (cs "root") (cs "sys"); Symlink (cs "sbin=./usr/sbin");
     Dir (cs "etc") (cs "0755") (cs "root") (cs "sys")] (World 0 [] [] (CpEnv ∅ [] None 0 None false)).
Proof. apply builder_in_order. vm_compute. reflexivity. Defined.
