(* ===== verification/Tools.v ===== *)
(** * Tools: what the checkers of [src/tools] share

    [mancheck], [mancf], [tzcheck] and [ucodecheck] read manifests, look at the file system and
    print what they find.  The file system is a parameter ([FileSystem]): it answers by path and
    does not change while a tool runs.  The environment of a tool is its standard output and the
    state its callbacks share ([tool_env]).  A local variable whose address a callback is given is
    a second component of the environment for the time of the call ([with_var]).  [err] and [errx]
    end the process: their message is not kept.  The functions of the C library that the tools call
    on strings are defined here. *)
From Stdlib Require Import Lia.
From S2P Require Import Prelude Manifest Avl Strset.

(** ** The C library *)

Definition MAXPATHLEN : Z := 1024.

(** [strlcpy(buf, s, size)] and [snprintf(buf, size, ...)]: what fits the buffer. *)
Definition str_fit (size : Z) (s : cstr) : cstr := take (Z.to_nat (size - 1)) s.

Definition strncmp (s t : cstr) (n : Z) : Z := strcmp (take (Z.to_nat n) s) (take (Z.to_nat n) t).

Definition QUOTE : char := chr 34.
Definition SLASH : char := "/"%char.

(** A text between double quotes. *)
Definition quoted (s : string) : cstr := QUOTE :: cs s ++ [QUOTE].

(** A reversed path without the slashes at its head, and without the component there. *)
Fixpoint drop_slashes (r : cstr) : cstr :=
  match r with c :: r' => if Ascii.eqb c SLASH then drop_slashes r' else r | [] => [] end.
Fixpoint drop_component (r : cstr) : cstr :=
  match r with c :: r' => if Ascii.eqb c SLASH then r else drop_component r' | [] => [] end.
Fixpoint component (r : cstr) : cstr :=
  match r with c :: r' => if Ascii.eqb c SLASH then [] else c :: component r' | [] => [] end.

(** [basename]: the last component of a path; [dirname]: the path before it. *)
Definition basename (s : cstr) : cstr :=
  match s with
  | [] => cs "."
  | _ => match drop_slashes (rev s) with [] => cs "/" | r => rev (component r) end
  end.

Definition dirname (s : cstr) : cstr :=
  match s with
  | [] => cs "."
  | _ =>
      match drop_slashes (rev s) with
      | [] => cs "/"
      | r =>
          match drop_component r with
          | [] => cs "."
          | r => match drop_slashes r with [] => cs "/" | r => rev r end
          end
      end
  end.

(** What [getopt] returns: an option and its operand, [':'] or ['?'].  [takes c] says whether the
    option string has [c], and followed by a colon; the string itself begins with one. *)
Inductive getopt_result := OptChar (c : char) (optarg : option cstr) | OptMissing (optopt : char) | OptUnknown (optopt : char).

Fixpoint getopts (takes : char -> option bool) (args : list cstr) : list getopt_result :=
  match args with
  | (m :: ((_ :: _) as word)) :: rest =>
      if negb (Ascii.eqb m "-"%char) || bool_decide (word = cs "-") then []
      else
        (fix letters (word : cstr) : list getopt_result :=
           match word with
           | [] => getopts takes rest
           | c :: word' =>
               match takes c with
               | None => OptUnknown c :: letters word'
               | Some false => OptChar c None :: letters word'
               | Some true =>
                   match word', rest with
                   | _ :: _, _ => OptChar c (Some word') :: getopts takes rest
                   | [], optarg :: rest => OptChar c (Some optarg) :: getopts takes rest
                   | [], [] => [OptMissing c]
                   end
               end
           end) word
  | _ => []
  end.

(** The operands that are left when [getopt] has returned -1 ([argv + optind]). *)
Fixpoint operands (takes : char -> option bool) (args : list cstr) : list cstr :=
  match args with
  | (m :: ((_ :: _) as word)) :: rest =>
      if negb (Ascii.eqb m "-"%char) then args else if bool_decide (word = cs "-") then rest
      else
        (fix letters (word : cstr) : list cstr :=
           match word with
           | [] => operands takes rest
           | c :: word' =>
               match takes c with
               | Some true => match word', rest with _ :: _, _ => operands takes rest | [], _ :: rest => operands takes rest | [], [] => [] end
               | _ => letters word'
               end
           end) word
  | _ => args
  end.

(** ** The file system *)

(** A file read by character: the mode [fstat] gives, the characters, and the [errno] of the last
    read (0 at the end of the file). *)
Record char_file := CharFile { cf_mode : option Z; cf_chars : list char; cf_errno : Z }.

(** Each function gives the [errno] of a failure, or the answer: the mode and inode of a file, the
    names in a directory with the [errno] their reading ends with, the target of a link, a file.
    [fs_open] opens a path for reading, [fs_opendir] opens a directory and reads it. *)
Class FileSystem := {
  fs_stat : cstr -> Z + (Z * Z);
  fs_lstat : cstr -> Z + (Z * Z);
  fs_opendir : cstr -> Z + (list cstr * Z);
  fs_readlink : cstr -> Z + cstr;
  fs_open : cstr -> Z + ();
  fs_manifest : cstr -> Z + stream;
  fs_fopen : cstr -> Z + char_file
}.

(** What a path names for the functions that look in an open directory ([openat], [fstatat],
    [readlinkat]); a file descriptor is the path of its directory. *)
Definition at_path (dirfd path : cstr) : cstr :=
  match path with c :: _ => if Ascii.eqb c SLASH then path else dirfd ++ cs "/" ++ path | [] => dirfd ++ cs "/" end.

(** The names of a directory itself and of its parent. *)
Definition dot_name (name : cstr) : bool := (strcmp name (cs ".") =? 0) || (strcmp name (cs "..") =? 0).

Definition S_IFDIR : Z := 16384.
Definition S_IFLNK : Z := 40960.
Definition mode_is (type mode : Z) : bool := Z.land mode S_IFMT =? type.

(** [is_regular_file] of [common.c] on such a file. *)
Definition char_file_regular (f : char_file) : bool := is_regular_file (Stream (cf_mode f) [] (cf_errno f)).

(** ** The environment of a tool *)

Record tool_env (S : Type) := ToolEnv { te_stdout : list cstr; te_state : S }.
Arguments ToolEnv {S}.
Arguments te_stdout {S}.
Arguments te_state {S}.

Section tool.
Context {S : Type}.

(** [fprintf(stdout, ...)]. *)
Definition print_out (text : cstr) : C (tool_env S) () :=
  e ← get_env; put_env (ToolEnv (te_stdout e ++ [text]) (te_state e)).
Definition get_state : C (tool_env S) S := e ← get_env; mret (te_state e).
Definition put_state (s : S) : C (tool_env S) () := e ← get_env; put_env (ToolEnv (te_stdout e) s).
End tool.

(** A local variable, initially [v], whose address the calls of [m] are given. *)
Definition with_var {E V A : Type} (v : V) (m : C (E * V) A) : C E (A * V) := fun w =>
  match m (World (w_errno w) (w_heap w) (w_stderr w) (w_env w, v)) with
  | Done (a, w') => Done ((a, snd (w_env w')), World (w_errno w') (w_heap w') (w_stderr w') (fst (w_env w')))
  | Exited st => Exited st
  | Aborted => Aborted
  | Undefined => Undefined
  end.

Definition get_var {E V : Type} : C (E * V) V := e ← get_env; mret (snd e).
Definition put_var {E V : Type} (v : V) : C (E * V) () := e ← get_env; put_env (fst e, v).

(** A computation that does not see the local variable. *)
Definition outer {E V A : Type} (m : C E A) : C (E * V) A := fun w =>
  match m (World (w_errno w) (w_heap w) (w_stderr w) (fst (w_env w))) with
  | Done (a, w') => Done (a, World (w_errno w') (w_heap w') (w_stderr w') (w_env w', snd (w_env w)))
  | Exited st => Exited st
  | Aborted => Aborted
  | Undefined => Undefined
  end.

Section sets.
Context `{AvlTree cstr} `{DM : DataModel}.

(** The number of strings of a set bounds the walks over it. *)
Definition walk_fuel (ss : strset) : nat := S (Z.to_nat (avl_numnodes (ss_strings ss))).

(** [if (strset_add(...) != 0) err(1, ...)]. *)
Definition add_or_exit {E} (ss : strset) (str : cstr) : C E strset :=
  '(r, ss) ← strset_add ss str; if negb (r =? 0) then c_exit 1 else mret ss.

End sets.

(** [strdup(s)]. *)
Definition dup_str {E} `{DM : DataModel} (s : cstr) : C E (option cstr) :=
  m ← malloc (Zlen s + 1); mret (match m with Some _ => Some s | None => None end).

(** [if (getenv("ABORT_ON_EXIT") != NULL) abort();] *)
Definition abort_on_exit {E : Type} (set : bool) (rval : Z) : C E Z :=
  if set then c_abort else mret rval.

(** A signed [long] with the bits of an [unsigned long], as [%ld] prints one. *)
Definition as_long `{DM : DataModel} (z : Z) : Z := if LONG_MAX <? z then z - (SIZE_MAX + 1) else z.
