(* ===== verification/Run.v ===== *)
(** * Run: computations whose result depends only on the environment

    [run m Q X e] says what [m] does from any world in which allocations succeed and whose
    environment is [e]: it returns and [Q] holds of the value and of the environment left, or it
    exits with a status that satisfies [X].  The tools are specified with it, and the libraries
    they call: sets of strings as increasing sequences ([strset_seq]), growable strings, and the
    reading of a manifest.  [tree_seq] is about the AVL trees whose nodes are ordered by a string. *)
From Stdlib Require Import Lia.
From S2P Require Import Prelude Custr Strpath Strlist Parser Manifest Avl Strset Sys Tools.

Definition run {E A : Type} (m : C E A) (Q : A -> E -> Prop) (X : Z -> Prop) (e : E) : Prop :=
  forall w, good w -> w_env w = e ->
  match m w with
  | Done (a, w') => good w' /\ Q a (w_env w')
  | Exited st => X st
  | _ => False
  end.

Arguments run : simpl never.

(** No exit. *)
Definition never (st : Z) : Prop := False.

Section run_rules.
Context {E : Type}.

Lemma run_ret {A} (a : A) (Q : A -> E -> Prop) X e : Q a e -> run (mret a) Q X e.
Proof. intros HQ w Hw He. split; [done|]. by rewrite He. Qed.

Lemma run_bind {A B} (m : C E A) (k : A -> C E B) Q X e :
  run m (fun a => run (k a) Q X) X e -> run (m ≫= k) Q X e.
Proof.
  intros Hm w Hw He. specialize (Hm w Hw He). unfold mbind, C_bind.
  destruct (m w) as [[a w']| | |]; [|done..]. destruct Hm as [Hw' Hk]. by apply Hk.
Qed.

Lemma run_mono {A} (m : C E A) (Q Q' : A -> E -> Prop) (X X' : Z -> Prop) e :
  run m Q X e -> (forall a e', Q a e' -> Q' a e') -> (forall st, X st -> X' st) -> run m Q' X' e.
Proof.
  intros Hm HQ HX w Hw He. specialize (Hm w Hw He).
  destruct (m w) as [[a w']| | |]; [|by apply HX|done..]. destruct Hm as [? ?]. split; [done|by apply HQ].
Qed.

(** From a specification of a library function, which never exits. *)
Lemma run_use {A} (m : C E A) (Q Q' : A -> E -> Prop) (X : Z -> Prop) e :
  run m Q never e -> (forall a e', Q a e' -> Q' a e') -> run m Q' X e.
Proof. intros Hm HQ. eapply run_mono; [exact Hm|done|done]. Qed.

Lemma run_wp {A} (m : C E A) (Q : A -> E -> Prop) e :
  (forall w, good w -> w_env w = e -> wp m (fun a w' => good w' /\ Q a (w_env w')) w) -> run m Q never e.
Proof. intros Hm w Hw He. specialize (Hm w Hw He). unfold wp in Hm. by destruct (m w) as [[a w']| | |]. Qed.

Lemma wp_run {A} (m : C E A) (Q : A -> E -> Prop) e w :
  run m Q never e -> good w -> w_env w = e -> wp m (fun a w' => good w' /\ Q a (w_env w')) w.
Proof. intros Hm Hw He. specialize (Hm w Hw He). unfold wp. by destruct (m w) as [[a w']| | |]. Qed.

Lemma run_exit {A} st (Q : A -> E -> Prop) (X : Z -> Prop) e : X st -> run (c_exit st) Q X e.
Proof. by intros HX w _ _. Qed.

Lemma run_get_env (Q : E -> E -> Prop) X e : Q e e -> run get_env Q X e.
Proof. intros HQ w Hw He. cbn. by rewrite He. Qed.
Lemma run_put_env e' (Q : () -> E -> Prop) X e : Q tt e' -> run (put_env e') Q X e.
Proof. intros HQ w [Hl Ht] He. cbn. by split. Qed.
Lemma run_set_errno n (Q : () -> E -> Prop) X e : Q tt e -> run (set_errno n) Q X e.
Proof. intros HQ w [Hl Ht] He. cbn. by rewrite He. Qed.
Lemma run_get_errno (Q : Z -> E -> Prop) X e : (forall n, Q n e) -> run get_errno Q X e.
Proof. intros HQ w Hw He. cbn. rewrite He. by split. Qed.
Lemma run_eprint msg (Q : () -> E -> Prop) X e : Q tt e -> run (eprint msg) Q X e.
Proof. intros HQ w [Hl Ht] He. cbn. by rewrite He. Qed.
Lemma run_access {A} o (a : A) (Q : A -> E -> Prop) X e : o = Some a -> Q a e -> run (c_access o) Q X e.
Proof. intros -> HQ w Hw He. cbn. by rewrite He. Qed.
Lemma run_VERIFY b (Q : () -> E -> Prop) X e : b = true -> Q tt e -> run (VERIFY b) Q X e.
Proof. intros -> HQ w Hw He. cbn. by rewrite He. Qed.

Lemma run_malloc `{DM : DataModel} n (Q : option Z -> E -> Prop) X e :
  0 <= n <= HEAP_HI -> (forall a, Q (Some a) e) -> run (malloc n) Q X e.
Proof.
  intros Hn HQ. eapply run_use; [|intros a e' H; exact H]. apply run_wp. intros w Hw <-.
  apply wp_malloc_good; [done|done|]. intros a w' Hw'. split; [by eapply good_frame|].
  rewrite (frame_env _ _ Hw'). apply HQ.
Qed.
End run_rules.

(** A call of the kernel. *)
Section run_calls.
Context {E : Type} `{Kernel E}.

Lemma run_syscall name args (Q : sysret -> E -> Prop) X e :
  (forall r e', sys_step name args e = (r, e') -> Q r e') -> run (syscall name args) Q X e.
Proof.
  intros HQ w Hg <-. unfold syscall. destruct (sys_step name args (w_env w)) as [r e'] eqn:Hs. split; [done|by apply HQ].
Qed.
Lemma run_sys name args (Q : Z -> E -> Prop) X e :
  (forall r e', sys_step name args e = (r, e') -> Q (sr_ret r) e') -> run (sys name args) Q X e.
Proof. intros HQ. unfold sys. apply run_bind, run_syscall. intros r e' Hs. by apply run_ret, HQ. Qed.
End run_calls.

Section run_tool.
Context {S : Type}.
Implicit Types (e : tool_env S).

Lemma run_get_state (Q : S -> tool_env S -> Prop) X e : Q (te_state e) e -> run get_state Q X e.
Proof. intros HQ. by apply run_bind, run_get_env, run_ret. Qed.
Lemma run_put_state s (Q : () -> tool_env S -> Prop) X e :
  Q tt (ToolEnv (te_stdout e) s) -> run (put_state s) Q X e.
Proof. intros HQ. by apply run_bind, run_get_env, run_put_env. Qed.
Lemma run_print text (Q : () -> tool_env S -> Prop) X e :
  Q tt (ToolEnv (te_stdout e ++ [text]) (te_state e)) -> run (print_out text) Q X e.
Proof. intros HQ. by apply run_bind, run_get_env, run_put_env. Qed.
End run_tool.

Section run_var.
Context {E V : Type}.

Lemma run_with_var {A} v (m : C (E * V) A) Q X (e : E) :
  run m (fun a ev => Q (a, ev.2) ev.1) X (e, v) -> run (with_var v m) Q X e.
Proof.
  intros Hm w [Hl Ht] He. unfold with_var.
  specialize (Hm (World (w_errno w) (w_heap w) (w_stderr w) (w_env w, v)) ltac:(by split) ltac:(cbn; congruence)).
  destruct (m _) as [[a w']| | |]; [|done..]. destruct Hm as [[? ?] ?]. split; [by split|done].
Qed.

Lemma run_outer {A} (m : C E A) Q X (e : E) (v : V) :
  run m (fun a e' => Q a (e', v)) X e -> run (outer m) Q X (e, v).
Proof.
  intros Hm w [Hl Ht] He. unfold outer.
  specialize (Hm (World (w_errno w) (w_heap w) (w_stderr w) (fst (w_env w))) ltac:(by split) ltac:(cbn; by rewrite He)).
  destruct (m _) as [[a w']| | |]; [|done..]. destruct Hm as [[? ?] ?]. split; [by split|]. cbn. by rewrite He.
Qed.

Lemma run_get_var (Q : V -> E * V -> Prop) X ev : Q ev.2 ev -> run get_var Q X ev.
Proof. intros HQ. by apply run_bind, run_get_env, run_ret. Qed.
Lemma run_put_var v (Q : () -> E * V -> Prop) X ev : Q tt (ev.1, v) -> run (put_var v) Q X ev.
Proof. intros HQ. by apply run_bind, run_get_env, run_put_env. Qed.
End run_var.

(** The primitive steps at the head of a [run] goal. *)
Ltac run_prim :=
  lazymatch goal with
  | |- run (mret _) _ _ _ => apply run_ret
  | |- run (mbind _ _) _ _ _ => apply run_bind
  | |- run (set_errno _) _ _ _ => apply run_set_errno
  | |- run (eprint _) _ _ _ => apply run_eprint
  | |- run get_state _ _ _ => apply run_get_state
  | |- run (put_state _) _ _ _ => apply run_put_state
  | |- run (print_out _) _ _ _ => apply run_print
  | |- run get_var _ _ _ => apply run_get_var
  | |- run (put_var _) _ _ _ => apply run_put_var
  | |- run (with_var _ _) _ _ _ => apply run_with_var
  | |- run (outer _) _ _ _ => apply run_outer
  end.
Ltac run_steps := repeat (run_prim; cbn beta iota zeta; cbn [te_stdout te_state fst snd]).

(** ** Growable strings *)

Section run_custr.
Context {E : Type} `{DM : DataModel}.

(** A string on the heap with text [t]. *)
Definition custr_text (cu : custr) (t : list char) : Prop := custr_rep cu t /\ cus_flags cu = 0.

(** A text that can be appended to a string that may not have a block yet. *)
Definition text_fits (s : cstr) : Prop :=
  is_cstr s /\ Zlen s + 1 <= CUSTR_MAX /\ chunk_loop 32 STRING_CHUNK_SIZE (Zlen s) <> Zlen s.

#[export] Instance text_fits_dec s : Decision (text_fits s).
Proof. unfold text_fits. apply _. Defined.

Lemma run_custr_alloc (Q : option custr -> E -> Prop) X e :
  (forall cu, custr_text cu [] -> Q (Some cu) e) -> run custr_alloc Q X e.
Proof.
  intros HQ. eapply run_use; [|intros a e' H; exact H]. apply run_wp. intros w [Hl Ht] <-.
  apply custr_alloc_spec; [done| |done]. intros w' Hw'. split; [by eapply good_frame|].
  rewrite (frame_env _ _ Hw'). by apply HQ.
Qed.

Lemma run_custr_reset cu t (Q : custr -> E -> Prop) X e :
  custr_text cu t -> (forall cu', custr_text cu' [] -> Q cu' e) -> run (custr_reset cu) Q X e.
Proof.
  intros [Hcu Hf] HQ. eapply run_use; [|intros a e' H; exact H]. apply run_wp. intros w Hw <-.
  eapply custr_reset_spec; [exact Hcu|]. intros cu' Hcu' Hf' _ _. split; [done|]. apply HQ. split; [done|congruence].
Qed.

Lemma run_custr_cstr cu t (Q : cstr -> E -> Prop) X e :
  custr_text cu t -> Q (c_text t) e -> run (custr_cstr cu) Q X e.
Proof.
  intros [Hcu Hf] HQ. eapply run_use; [|intros a e' H; exact H]. apply run_wp. intros w Hw <-.
  eapply custr_cstr_spec; [exact Hcu|]. by split.
Qed.

Lemma run_append_printf cu t s (Q : Z * custr -> E -> Prop) X e :
  custr_text cu t -> append_fits cu s -> Zlen t + Zlen s + 1 <= CUSTR_MAX ->
  (forall cu', custr_text cu' (t ++ s) -> Q (0, cu') e) -> run (custr_append_printf cu s) Q X e.
Proof.
  intros [Hcu Hf] Hfit Hlen HQ. eapply run_use; [|intros a e' H; exact H]. apply run_wp. intros w [Hl Ht] <-.
  wp_use append_vprintf_spec; [done..|].
  intros [r cu'] w' [Hw' [(Hr & Hrep & _ & Hf')|(_ & Hnt & _)]]; [|done]. cbn in Hr, Hrep, Hf'. subst r.
  split; [by eapply good_frame|]. rewrite (frame_env _ _ Hw'). apply HQ. split; [done|congruence].
Qed.

Lemma run_append_text cu s (Q : Z * custr -> E -> Prop) X e :
  custr_text cu [] -> text_fits s -> (forall cu', custr_text cu' s -> Q (0, cu') e) ->
  run (custr_append_printf cu s) Q X e.
Proof. intros Hcu (_ & Hl & Hc) HQ. eapply run_append_printf; [exact Hcu|by right|done|done]. Qed.

Lemma run_appendc cu t c (Q : Z * custr -> E -> Prop) X e :
  custr_text cu t -> Zlen t + 2 <= CUSTR_MAX ->
  (forall cu', custr_text cu' (t ++ [c]) -> Q (0, cu') e) -> run (custr_appendc cu c) Q X e.
Proof. intros Hcu Hl HQ. eapply run_append_printf; [exact Hcu|right; by vm_compute|zlen|done]. Qed.

Lemma run_strpath_append cu t inp (Q : Z * custr -> E -> Prop) X e :
  custr_text cu t -> Zlen t + 2 * Zlen inp + 4 <= CUSTR_MAX ->
  (forall cu', custr_text cu' (path_join t inp) -> Q (0, cu') e) -> run (strpath_append cu inp) Q X e.
Proof.
  intros [Hcu Hf] Hlen HQ. eapply run_use; [|intros a e' H; exact H]. apply run_wp. intros w [Hl Ht] <-.
  wp_use strpath_append_spec; [done..|]. intros [r cu'] w' (Hw' & Hf' & Hr).
  cbn in Hf', Hr. split; [by eapply good_frame|]. rewrite (frame_env _ _ Hw'). destruct Hr as [[-> Hrep]|(_ & Hnt & _)]; [|done]. by apply HQ.
Qed.
End run_custr.

(** ** Lists of strings *)

Section run_strlist.
Context {E : Type} `{DM : DataModel}.

(** The strings of a list whose array is not too large. *)
Definition strlist_text (sl : strlist) (l : list cstr) : Prop :=
  strlist_rep sl l /\ sl_capacity sl <= GROW_COUNT * (Zlen l + 1).

(** The longest list the results speak of. *)
Definition LIST_STRINGS_MAX : Z := 1048576.

Lemma run_strlist_alloc (Q : Z * option strlist -> E -> Prop) X e :
  (forall sl, strlist_text sl [] -> Q (0, Some sl) e) -> run (strlist_alloc 0) Q X e.
Proof.
  intros HQ. eapply run_use; [|intros a e' H; exact H]. apply run_wp. intros w [Hl Ht] <-.
  apply alloc_spec; [done|by vm_compute| |done]. intros sl w' Hw' Hrep Hcap. split; [by eapply good_frame|].
  rewrite (frame_env _ _ Hw'). apply HQ. split; [done|]. rewrite Hcap. by vm_compute.
Qed.

Lemma run_set_tail sl l s (Q : Z * strlist -> E -> Prop) X e :
  strlist_text sl l -> Zlen l <= LIST_STRINGS_MAX -> Zlen s + 1 <= HEAP_HI ->
  (forall sl', strlist_text sl' (l ++ [s]) -> Q (0, sl') e) -> run (strlist_set_tail sl s) Q X e.
Proof.
  intros [Hrep Hcap] Hlen Hs HQ. eapply run_use; [|intros a e' H; exact H]. apply run_wp. intros w [Hl Ht] <-.
  wp_use set_tail_spec; [done|done| |done|].
  { unfold STRLIST_MAX, LIST_STRINGS_MAX, GROW_COUNT in *. lia. }
  intros [r sl'] w' (Hw' & Hcap' & [(Hr & Hrep')|(_ & Hnt & _)]); [|done]. cbn in Hr, Hrep', Hcap'. subst r.
  split; [by eapply good_frame|]. rewrite (frame_env _ _ Hw'). apply HQ. split; [done|]. rewrite Zlen_app, Zlen_cons, Zlen_nil.
  unfold GROW_COUNT in *. lia.
Qed.

Lemma run_contig_count sl l (Q : Z -> E -> Prop) X e :
  strlist_text sl l -> Q (Zlen l) e -> run (strlist_contig_count sl) Q X e.
Proof.
  intros [Hrep _] HQ. eapply run_use; [|intros a e' H; exact H]. apply run_wp. intros w Hw <-.
  eapply contig_count_spec; [exact Hrep|]. by split.
Qed.

Lemma run_strlist_get sl l (i : nat) (Q : option cstr -> E -> Prop) X e :
  strlist_text sl l -> Q (l !! i) e -> run (strlist_get sl (Z.of_nat i)) Q X e.
Proof.
  intros [Hrep _] HQ. eapply run_use; [|intros a e' H; exact H]. apply run_wp. intros w Hw <-.
  eapply get_spec; [exact Hrep|]. by split.
Qed.
End run_strlist.

(** ** Sets of strings *)

(** The sequence with [s] in it. *)
Definition seq_add (s : cstr) (l : list cstr) : list cstr :=
  if decide (s ∈ l) then l else insert_sorted (strset_comparator None) s l.
Definition seq_of (l : list cstr) : list cstr := foldl (fun l s => seq_add s l) [] l.

Section run_strset.
Context `{AvlTree cstr, !AvlLaws cstr} {E : Type} `{DM : DataModel}.
Implicit Types (ss : strset).

(** The set has the strings [l], in order; and it is not being walked. *)
Definition seq_nodes ss (l : list cstr) : Prop :=
  avl_cmp (ss_strings ss) = strset_comparator None /\ avl_nodes (ss_strings ss) = l /\
  increasing (strset_comparator None) l.
Definition strset_seq (flags : Z) ss (l : list cstr) : Prop :=
  seq_nodes ss l /\ ss_flags ss = flags /\ ss_walking ss = 0.

Lemma seq_find flags ss l s :
  strset_seq flags ss l -> avl_find (ss_strings ss) s = if decide (s ∈ l) then Some s else None.
Proof.
  intros ((Hc & <- & Hi) & _). rewrite (rep_find ss (list_to_set (avl_nodes (ss_strings ss)))).
  - apply decide_ext. by rewrite elem_of_list_to_set.
  - split_and!; [done|done|]. intros s'. by rewrite elem_of_list_to_set.
Qed.

Lemma seq_contains flags ss l s : strset_seq flags ss l -> strset_contains ss s = bool_decide (s ∈ l).
Proof. intros Hss. unfold strset_contains. rewrite (seq_find _ _ _ _ Hss). by repeat case_decide. Qed.

Lemma seq_numnodes flags ss l : strset_seq flags ss l -> avl_numnodes (ss_strings ss) = Zlen l.
Proof. intros ((_ & <- & _) & _). apply avl_numnodes_nodes. Qed.

Lemma seq_count flags ss l : strset_seq flags ss l -> strset_count ss = i32 (Zlen l).
Proof. intros Hss. unfold strset_count. by rewrite (seq_numnodes _ _ _ Hss). Qed.

Lemma seq_count_small flags ss l : strset_seq flags ss l -> Zlen l <= INT_MAX -> strset_count ss = Zlen l.
Proof.
  intros Hss Hl. rewrite (seq_count _ _ _ Hss). pose proof (Zlen_nonneg l). apply i32_small.
  by unfold INT_MIN; lia.
Qed.

Lemma seq_insert flags ss l s :
  strset_seq flags ss l -> s ∉ l -> strset_seq flags (with_strings ss (avl_insert (ss_strings ss) s)) (seq_add s l).
Proof.
  intros Hss Hs. pose proof (seq_find _ _ _ s Hss) as Hf. rewrite decide_False in Hf by done.
  destruct Hss as ((Hc & <- & Hi) & Hfl & Hw). unfold strset_seq, seq_nodes, seq_add. cbn [ss_strings with_strings ss_flags ss_walking].
  rewrite decide_False by done.
  rewrite avl_insert_cmp, avl_insert_nodes by (rewrite ?Hc; done || apply _). rewrite Hc. split_and!; try done.
  apply insert_sorted_increasing; [apply _|done|]. apply Forall_lookup_2. intros i y Hy ->%strset_comparator_eq.
  by apply list_elem_of_lookup_2 in Hy.
Qed.

Lemma run_strset_alloc flags (Q : Z * option strset -> E -> Prop) X e :
  Z.land flags (Z.lnot STRSET_FLAGS_ALL) = 0 ->
  (forall ss, strset_seq flags ss [] -> Q (0, Some ss) e) -> run (strset_alloc flags) Q X e.
Proof.
  intros Hfl HQ. unfold strset_alloc, strset_allocx. rewrite Hfl. cbn [negb Z.eqb].
  apply run_bind, run_malloc; [unfold HEAP_HI; destruct ptr_bytes_ok as [-> | ->]; lia|]. intros a.
  apply run_ret, HQ. unfold strset_seq, seq_nodes. cbn [ss_strings ss_flags ss_walking].
  by rewrite avl_create_cmp, avl_create_nodes.
Qed.

(** A string the allocator has room for. *)
Definition str_ok (s : cstr) : Prop := Zlen s + 1 <= HEAP_HI.

Lemma run_strset_add flags ss l s (Q : Z * strset -> E -> Prop) X e :
  strset_seq flags ss l -> str_ok s ->
  (s ∈ l -> Z.land flags STRSET_IGNORE_DUPLICATES = 0 -> Q (-1, ss) e) ->
  (forall ss', s ∉ l \/ Z.land flags STRSET_IGNORE_DUPLICATES <> 0 ->
     strset_seq flags ss' (seq_add s l) -> Q (0, ss') e) ->
  run (strset_add ss s) Q X e.
Proof.
  intros Hss Hs Hdup HQ. unfold strset_add. rewrite (seq_find _ _ _ _ Hss). pose proof Hss as (_ & Hfl & _).
  case_decide as Hin.
  - rewrite Hfl. destruct (Z.eqb_spec (Z.land flags STRSET_IGNORE_DUPLICATES) 0) as [He|He]; cbn [negb].
    + run_steps. by apply Hdup.
    + apply run_ret, HQ; [by right|]. unfold seq_add. by rewrite decide_True.
  - apply run_bind. unfold strset_node_alloc. pose proof (Zlen_nonneg s). apply run_bind, run_malloc;
      [unfold HEAP_HI; destruct ptr_bytes_ok as [-> | ->]; lia|]. intros _. apply run_bind, run_malloc; [by unfold str_ok in Hs; lia|].
    intros _. run_steps. cbn [negb Z.eqb]. apply run_ret, HQ; [by left|]. by apply seq_insert.
Qed.

Lemma run_add_or_exit ss l s (Q : strset -> E -> Prop) X e :
  strset_seq STRSET_IGNORE_DUPLICATES ss l -> str_ok s ->
  (forall ss', strset_seq STRSET_IGNORE_DUPLICATES ss' (seq_add s l) -> Q ss' e) -> run (add_or_exit ss s) Q X e.
Proof.
  intros Hss Hs HQ. apply run_bind. eapply run_strset_add; [done|done|done|]. intros ss' _ Hss'. apply run_ret. by apply HQ.
Qed.

Lemma walk_fuel_ok flags ss l : strset_seq flags ss l -> (length l < walk_fuel ss)%nat.
Proof. intros Hss. unfold walk_fuel. rewrite (seq_numnodes _ _ _ Hss). unfold Zlen. lia. Qed.

Lemma run_strset_reset flags ss l (Q : strset -> E -> Prop) X e :
  strset_seq flags ss l -> (forall ss', strset_seq flags ss' [] -> Q ss' e) -> run (strset_reset ss) Q X e.
Proof.
  intros ((Hc & Hn & Hi) & Hfl & Hw) HQ. apply run_bind, run_VERIFY; [by rewrite Hw|]. apply run_ret, HQ.
  unfold strset_seq, seq_nodes. cbn [ss_strings with_strings ss_flags ss_walking].
  by rewrite avl_create_cmp, avl_create_nodes.
Qed.

(** A walk whose callback leaves the set alone: [I] holds of the strings seen so far, until the
    end or until the callback stops the walk, with [F], at a string that it may have removed. *)
Definition walk_post (ss : strset) (l : list cstr) (I : list cstr -> E -> Prop) (F : list cstr -> cstr -> bool -> E -> Prop)
    (r : Z * strset) (e : E) : Prop :=
  r.1 = 0 /\ ((r.2 = ss /\ I l e) \/
    (exists pre s post rm, l = pre ++ s :: post /\ F pre s rm e /\
     if rm : bool then seq_nodes r.2 (pre ++ post) /\ ss_flags r.2 = ss_flags ss /\ ss_walking r.2 = ss_walking ss
     else r.2 = ss)).

Definition walk_cb_ok (ss : strset) (l : list cstr) (I : list cstr -> E -> Prop) (F : list cstr -> cstr -> bool -> E -> Prop)
    (X : Z -> Prop) (cb : strset -> cstr -> C E (Z * strset)) : Prop :=
  forall pre s post e, l = pre ++ s :: post -> I pre e ->
  run (cb ss s) (fun '(r, ss') e' => ss' = ss /\
    ((r = STRSET_WALK_NEXT /\ I (pre ++ [s]) e') \/
     (exists rm : bool, r = (if rm then Z.lor STRSET_WALK_DONE STRSET_WALK_REMOVE else STRSET_WALK_DONE) /\
        F pre s rm e'))) X e.

Lemma run_walk_loop cb fuel pre post ss I F X e :
  seq_nodes ss (pre ++ post) -> (length post < fuel)%nat -> I pre e ->
  walk_cb_ok ss (pre ++ post) I F X cb ->
  run (walk_loop fuel cb (head post) ss) (walk_post ss (pre ++ post) I F) X e.
Proof.
  revert pre post e. induction fuel as [|fuel IH]; intros pre post e Hss Hf HI Hcb; [lia|].
  destruct post as [|s post]; cbn [walk_loop head].
  { apply run_ret. split; [done|]. left. by rewrite app_nil_r in *. }
  apply run_bind. eapply run_mono; [by eapply Hcb| |done].
  intros [r ss'] e' [-> Hr]. pose proof Hss as (Hc & Hn & Hi).
  pose proof (walk_step ss pre s post r ltac:(by rewrite Hc, Hn)) as [Hnext Hnodes]. rewrite Hnext.
  destruct Hr as [[-> HI']|([] & -> & HF)].
  - change (negb (Z.land STRSET_WALK_NEXT STRSET_WALK_REMOVE =? 0)) with false. cbn beta iota.
    change (STRSET_WALK_WHATNEXT STRSET_WALK_NEXT =? STRSET_WALK_NEXT) with true. cbn beta iota.
    assert (Happ : pre ++ s :: post = (pre ++ [s]) ++ post) by by rewrite <-app_assoc.
    rewrite Happ in *. apply IH; [done|cbn in Hf; lia|done|done].
  - change (negb (Z.land (Z.lor STRSET_WALK_DONE STRSET_WALK_REMOVE) STRSET_WALK_REMOVE =? 0)) with true in *. cbn beta iota in *.
    change (STRSET_WALK_WHATNEXT (Z.lor STRSET_WALK_DONE STRSET_WALK_REMOVE) =? STRSET_WALK_NEXT) with false.
    change (STRSET_WALK_WHATNEXT (Z.lor STRSET_WALK_DONE STRSET_WALK_REMOVE) =? STRSET_WALK_DONE) with true. cbn beta iota.
    apply run_ret. split; [done|]. right. exists pre, s, post, true. split_and!; try done.
    change (Z.land (Z.lor STRSET_WALK_DONE STRSET_WALK_REMOVE) STRSET_WALK_REMOVE =? 0) with false in Hnodes.
    by rewrite app_nil_r in Hnodes.
  - change (negb (Z.land STRSET_WALK_DONE STRSET_WALK_REMOVE =? 0)) with false. cbn beta iota.
    change (STRSET_WALK_WHATNEXT STRSET_WALK_DONE =? STRSET_WALK_NEXT) with false.
    change (STRSET_WALK_WHATNEXT STRSET_WALK_DONE =? STRSET_WALK_DONE) with true. cbn beta iota.
    apply run_ret. split; [done|]. right. by exists pre, s, post, false.
Qed.

Lemma run_strset_walk cb fuel l ss I F X e :
  seq_nodes ss l -> (length l < fuel)%nat -> I [] e ->
  walk_cb_ok (with_walking ss (ss_walking ss + 1)) l I F X cb ->
  run (strset_walk fuel ss cb) (walk_post ss l I F) X e.
Proof.
  intros Hss Hf HI Hcb. unfold strset_walk. pose proof Hss as (Hc & Hn & Hi). cbn [ss_strings with_walking].
  rewrite avl_first_nodes, Hn. apply run_bind. eapply run_mono; [|intros r e' Hwalk|done].
  - apply (run_walk_loop cb fuel [] l); [done|done|exact HI|exact Hcb].
  - destruct r as [r ss']. destruct Hwalk as [Hr Hpost]. cbn in Hr. subst r. run_steps. split; [done|].
    cbn [snd] in *. destruct Hpost as [[-> HI']|(pre & s & post & rm & Hl & HF & Hn')].
    + left. split; [|done]. cbn. replace (ss_walking ss + 1 - 1) with (ss_walking ss) by lia. by destruct ss.
    + right. exists pre, s, post, rm. split_and!; [done|done|]. destruct rm; cbn in *.
      * destruct Hn' as (Hn' & Hfl & Hw). split_and!; [done|done|lia].
      * subst ss'. cbn. replace (ss_walking ss + 1 - 1) with (ss_walking ss) by lia. by destruct ss.
Qed.

(** A walk to the end. *)
Lemma run_strset_each cb fuel l ss (I : list cstr -> E -> Prop) X e :
  seq_nodes ss l -> (length l < fuel)%nat -> I [] e ->
  (forall pre s post e, l = pre ++ s :: post -> I pre e ->
   let ss' := with_walking ss (ss_walking ss + 1) in
   run (cb ss' s) (fun r e' => r = (STRSET_WALK_NEXT, ss') /\ I (pre ++ [s]) e') X e) ->
  run (strset_walk fuel ss cb) (fun r e' => r = (0, ss) /\ I l e') X e.
Proof.
  intros Hss Hf HI Hcb. eapply run_mono; [apply (run_strset_walk cb fuel l ss I (fun _ _ _ _ => False))| |done]; [done..| |].
  - intros pre s post e' Hl HI'. eapply run_mono; [by eapply Hcb| |done]. intros r e'' [-> HI'']. split; [done|by left].
  - intros [r ss'] e' [Hr [[Hs HI']|(? & ? & ? & ? & _ & [] & _)]]. cbn in *. by subst.
Qed.

(** Adding strings one after the other. *)
Lemma seq_add_snoc l s : seq_of (l ++ [s]) = seq_add s (seq_of l).
Proof. unfold seq_of. by rewrite foldl_app. Qed.
End run_strset.

Lemma seq_of_length l : (length (seq_of l) <= length l)%nat.
Proof.
  induction l as [|t l IH] using rev_ind; [done|]. rewrite seq_add_snoc, length_app. unfold seq_add. cbn [length].
  case_decide; [lia|]. rewrite insert_sorted_perm. cbn [length]. lia.
Qed.

Lemma elem_of_seq_add s t l : s ∈ seq_add t l <-> s = t \/ s ∈ l.
Proof.
  unfold seq_add. case_decide; [naive_solver|]. by rewrite insert_sorted_perm, elem_of_cons.
Qed.

Lemma elem_of_seq_of s l : s ∈ seq_of l <-> s ∈ l.
Proof.
  induction l as [|t l IH] using rev_ind; [done|]. rewrite seq_add_snoc, elem_of_seq_add, elem_of_app, IH, list_elem_of_singleton.
  naive_solver.
Qed.

Lemma increasing_seq_add s l :
  increasing (strset_comparator None) l -> increasing (strset_comparator None) (seq_add s l).
Proof.
  intros Hl. unfold seq_add. case_decide; [done|]. apply insert_sorted_increasing; [apply _|done|].
  apply Forall_lookup_2. intros i y Hy ->%strset_comparator_eq. by apply list_elem_of_lookup_2 in Hy.
Qed.

Lemma increasing_seq_of l : increasing (strset_comparator None) (seq_of l).
Proof.
  induction l as [|t l IH] using rev_ind; [done|]. rewrite seq_add_snoc. by apply increasing_seq_add.
Qed.

(** ** Manifests *)

(** The entries of a manifest whose lines are well formed. *)
Fixpoint manifest_entries `{DM : DataModel} (lines : list cstr) : option (list manifest_ent) :=
  match lines with
  | [] => Some []
  | line :: lines =>
      o ← parse_entry line;
      es ← manifest_entries lines;
      Some (match o with Some e => e :: es | None => es end)
  end.

(** A manifest that can be read, and its entries. *)
Definition manifest_has `{DM : DataModel} (opened : Z + stream) (es : list manifest_ent) : Prop :=
  exists mf, opened = inr mf /\ is_regular_file mf = true /\ Forall short (sm_lines mf) /\ sm_errno mf = 0 /\
  manifest_entries (sm_lines mf) = Some es.

Section run_manifest.
Context {E : Type} `{DM : DataModel}.

Lemma run_process_line line (Q : Z * manifest_ent -> E -> Prop) X e o :
  short line -> parse_entry line = Some o ->
  (forall me, me = default manifest_ent_reset o -> (o = None \/ me_type me <> ME_TYPE_INVALID) -> Q (0, me) e) ->
  run (process_manifest_line line manifest_ent_reset) Q X e.
Proof.
  intros Hs Hp HQ. eapply run_use; [|intros a e' H; exact H]. apply run_wp. intros w [Hl Ht] <-.
  wp_use process_line_spec; [done..|]. intros [r me] w' ([k Hk] & He & Hr).
  assert (Hw' : good w') by (unfold good, heap_low, heap_total; rewrite Hk; split; by apply Forall_drop).
  split; [done|]. rewrite He. rewrite Hp in Hr.
  destruct Hr as [(me' & [= ->] & [= -> ->] & Hty & _)|[([= ->] & [= -> ->] & _)|[(? & _)|(_ & _ & ? & _)]]]; [| |done|done].
  - apply HQ; [done|by right].
  - apply HQ; [done|by left].
Qed.

Lemma run_read_loop lines mecb pre (I : list manifest_ent -> E -> Prop) X e es :
  Forall short lines -> manifest_entries lines = Some es -> I pre e ->
  (forall pre' me post e, es = pre' ++ me :: post -> I (pre ++ pre') e ->
   run (mecb me) (fun r e' => r = MECB_NEXT /\ I (pre ++ pre' ++ [me]) e') X e) ->
  run (read_loop lines 0 mecb manifest_ent_reset) (fun r e' => r = (0, 0) /\ I (pre ++ es) e') X e.
Proof.
  revert pre es e. induction lines as [|line lines IH]; intros pre es e Hs Hes HI Hcb; cbn [read_loop manifest_entries] in *.
  { injection Hes as <-. run_steps. split; [done|]. by rewrite app_nil_r. }
  apply Forall_cons_1 in Hs as [Hline Hs]. apply bind_Some in Hes as (o & Ho & (es' & Hes & [= <-])%bind_Some).
  apply run_bind, run_set_errno, run_bind. eapply run_process_line; [done|exact Ho|]. intros me -> Hty. cbn beta iota.
  change (negb (0 =? 0)) with false. cbn beta iota.
  destruct o as [me|]; cbn [default] in *.
  - destruct Hty as [|Hty]; [done|]. rewrite decide_False by done. apply run_bind.
    eapply run_mono; [apply (Hcb [] me es'); [done|by rewrite app_nil_r]| |done].
    intros r e' [-> HI']. change (MECB_NEXT =? MECB_NEXT) with true. cbn beta iota. cbn [app] in HI'.
    eapply run_mono; [apply (IH (pre ++ [me]) es'); [done..|]| |done].
    + intros pre' me' post e'' -> HI''. rewrite <-!app_assoc. cbn [app].
      apply (Hcb (me :: pre') me' post); [done|]. rewrite <-app_assoc in HI''. exact HI''.
    + intros r e'' [-> HI'']. split; [done|]. by rewrite <-app_assoc in HI''.
  - rewrite decide_True by done. apply IH; [done..|]. exact Hcb.
Qed.

Lemma run_read_manifest path opened mecb (I : list manifest_ent -> E -> Prop) X e es :
  manifest_has opened es -> I [] e ->
  (forall pre me post e, es = pre ++ me :: post -> I pre e ->
   run (mecb me) (fun r e' => r = MECB_NEXT /\ I (pre ++ [me]) e') X e) ->
  run (read_manifest_file path opened mecb) (fun r e' => r = 0 /\ I es e') X e.
Proof.
  intros (mf & -> & Hreg & Hs & He & Hes) HI Hcb. unfold read_manifest_file. rewrite Hreg, He. cbn [negb].
  apply run_bind. eapply run_mono; [apply (run_read_loop (sm_lines mf) mecb [] I); [done..|exact Hcb]| |done].
  intros [r error] e' [[= -> ->] HI']. by run_steps.
Qed.
End run_manifest.

Lemma run_dup_str {E} `{DM : DataModel} s (Q : option cstr -> E -> Prop) X e :
  str_ok s -> Q (Some s) e -> run (dup_str s) Q X e.
Proof.
  intros Hs HQ. unfold dup_str. apply run_bind, run_malloc; [unfold str_ok in Hs; pose proof (Zlen_nonneg s); lia|].
  intros a. by apply run_ret.
Qed.

Lemma strncmp_prefix name p : (strncmp name p (Zlen p) =? 0) = bool_decide (p `prefix_of` name).
Proof.
  unfold strncmp, Zlen. rewrite Nat2Z.id, (take_ge p) by lia.
  case_bool_decide as Hp.
  - destruct Hp as [k ->]. rewrite take_app_length. by apply Z.eqb_eq, strcmp_eq.
  - apply Z.eqb_neq. rewrite strcmp_eq. intros Heq. apply Hp. exists (drop (length p) name). by rewrite <-Heq at 1; rewrite take_drop.
Qed.

Lemma strncmp_swap s t n : (strncmp s t n =? 0) = (strncmp t s n =? 0).
Proof. unfold strncmp. rewrite strcmp_opp. destruct (Z.eqb_spec (strcmp (take (Z.to_nat n) t) (take (Z.to_nat n) s)) 0); lia. Qed.

(** ** Trees ordered by a string *)

Section keyed.
Context {T : Type} `{AvlTree T, !AvlLaws T} (key : T -> cstr) (cmp : T -> T -> Z).
Hypothesis Hcmp : forall l r, cmp l r = Z.sgn (strcmp (key l) (key r)).

Lemma keyed_laws : CmpLaws cmp.
Proof.
  constructor.
  - intros x. by rewrite Hcmp, (proj2 (strcmp_eq _ _)).
  - intros x y. rewrite !Hcmp, (strcmp_opp (key y)). lia.
  - intros x y z. rewrite !Hcmp. pose proof (strcmp_trans (key x) (key y) (key z)). lia.
Qed.

(** The nodes of a tree, in order. *)
Definition tree_seq (t : avl_tree) (l : list T) : Prop := avl_cmp t = cmp /\ avl_nodes t = l /\ increasing cmp l.

(** The node with a key, and the sequence of the elements of a list. *)
Definition find_key (k : cstr) (l : list T) : option T := head (filter (fun y => key y = k) l).
Definition sorted_of (l : list T) : list T := foldl (fun l x => insert_sorted cmp x l) [] l.

Lemma find_key_none k l : find_key k l = None <-> k ∉ key <$> l.
Proof.
  unfold find_key. rewrite list_elem_of_fmap. destruct (filter _ l) as [|y f] eqn:Hf; cbn; split; try done.
  - intros _ (x & -> & Hx). assert (Hin : x ∈ filter (fun y => key y = key x) l) by by apply list_elem_of_filter.
    rewrite Hf in Hin. by apply not_elem_of_nil in Hin.
  - intros Hno. exfalso. apply Hno. assert (Hin : y ∈ filter (fun y => key y = k) l) by (rewrite Hf; by left).
    apply list_elem_of_filter in Hin as [<- Hin]. by exists y.
Qed.

Lemma find_key_some k l x : NoDup (key <$> l) -> find_key k l = Some x <-> x ∈ l /\ key x = k.
Proof.
  unfold find_key. induction l as [|y l IH]; cbn [fmap list_fmap].
  - intros _. split; [done|]. by intros [?%not_elem_of_nil _].
  - intros [Hy Hnd]%list.NoDup_cons. rewrite filter_cons, elem_of_cons. case_decide as Hk; cbn [head].
    + split; [intros [= ->]; auto|]. intros [[->|Hx] Hkx]; [done|]. exfalso. apply Hy. rewrite Hk, <-Hkx. by apply list_elem_of_fmap_2.
    + rewrite IH by done. split; [intros [? ?]; auto|]. by intros [[->|?] ?].
Qed.

Lemma find_key_perm k l l' : NoDup (key <$> l) -> l ≡ₚ l' -> find_key k l = find_key k l'.
Proof.
  intros Hnd Hp. pose proof Hnd as Hnd'. rewrite Hp in Hnd'. destruct (find_key k l) as [x|] eqn:Hl.
  - symmetry. apply find_key_some in Hl as [Hx Hk]; [|done]. apply find_key_some; [done|]. by rewrite <-Hp.
  - symmetry. apply find_key_none. apply find_key_none in Hl. by rewrite <-Hp.
Qed.

Lemma tree_seq_create : tree_seq (avl_create cmp) [].
Proof. split; [apply avl_create_cmp|]. split; [apply avl_create_nodes|done]. Qed.

Lemma tree_seq_find t l x : tree_seq t l -> avl_find t x = find_key (key x) l.
Proof.
  intros (Hc & <- & Hi). pose proof keyed_laws. rewrite avl_find_nodes by (rewrite Hc; done). unfold find_key. f_equal.
  apply list_filter_iff. intros y. rewrite Hc, Hcmp, Z.sgn_null_iff, strcmp_eq. split; intros He; by rewrite He.
Qed.

Lemma tree_seq_insert t l x :
  tree_seq t l -> find_key (key x) l = None -> tree_seq (avl_insert t x) (insert_sorted cmp x l).
Proof.
  intros Ht Hx. pose proof (tree_seq_find t l x Ht) as Hf. rewrite Hx in Hf. destruct Ht as (Hc & <- & Hi). pose proof keyed_laws.
  split; [by rewrite avl_insert_cmp|]. split; [rewrite avl_insert_nodes by (rewrite ?Hc; done); by rewrite Hc|].
  apply insert_sorted_increasing; [done..|]. apply list.Forall_forall. intros y Hy. rewrite Hcmp.
  apply find_key_none in Hx. intros Hz. assert (strcmp (key x) (key y) = 0) as Hk%strcmp_eq by lia. apply Hx. rewrite Hk.
  by apply list_elem_of_fmap_2.
Qed.

Lemma tree_seq_first t l : tree_seq t l -> avl_first t = head l.
Proof. intros (_ & <- & _). apply avl_first_nodes. Qed.

Lemma tree_seq_next t pre x post : tree_seq t (pre ++ x :: post) -> avl_next t x = head post.
Proof.
  intros (Hc & Hn & Hi). pose proof keyed_laws. rewrite avl_next_nodes by (rewrite Hc, ?Hn; done). by rewrite Hc, Hn, filter_after.
Qed.

Lemma tree_seq_numnodes t l : tree_seq t l -> avl_numnodes t = Zlen l.
Proof. intros (_ & <- & _). apply avl_numnodes_nodes. Qed.

Lemma sorted_of_snoc l x : sorted_of (l ++ [x]) = insert_sorted cmp x (sorted_of l).
Proof. unfold sorted_of. by rewrite foldl_app. Qed.

Lemma sorted_of_perm l : sorted_of l ≡ₚ l.
Proof.
  induction l as [|x l IH] using rev_ind; [done|]. rewrite sorted_of_snoc, insert_sorted_perm, IH. by rewrite Permutation_app_comm.
Qed.
End keyed.
