(* ===== verification/Mancheck.v ===== *)
(** * Mancheck: no manual page is left behind, [tools/mancheck/main.c]

    The commands in a manifest are checked for manual pages, and the manual pages in the proto
    area for being shipped.  The functions below have the names of the source; the loops over the
    tables [cm_mpaths] and [cm_mansects] and over directories are functions of their own.
    [fnmatch] is a parameter: it gives 0, [FNM_NOMATCH] or an error.  The structure [mancheck_t]
    is the state of the environment ([tool_env]). *)
From Stdlib Require Import Lia.
From S2P Require Import Prelude Cnum Custr Avl Manifest Strset Tools.

Definition cm_bpaths : list cstr := [cs "bin"; cs "usr/bin"; cs "sbin"; cs "usr/sbin"; cs "smartdc/bin"].
Definition cm_mpaths : list cstr := [cs "proto/usr/share/man"].
Definition cm_mansects : list cstr := [cs "1"; cs "8"].
Definition cm_pdir : cstr := cs "usr/share/man".

(** [mancheck_flags_t]. *)
Definition MCF_DONT_EXIST : Z := 1.
Definition MCF_NOT_SHIPPED : Z := 2.
Definition MCF_WHOLE_SECTS : Z := 4.
Definition MCF_DUMP_CONFIG : Z := 8.
Definition flag_set (flags flag : Z) : bool := negb (Z.land flags flag =? 0).

Definition FNM_PATHNAME : Z := 1.
Definition FNM_NOMATCH : Z := 1.

(** The states of [read_config_file]. *)
Inductive config_state :=
  ST_REST | ST_COMMENT_0 | ST_COMMENT_1 | ST_COMMENT_2 | ST_PRE_STRING | ST_STRING | ST_PRE_SEMICOLON | ST_KEYWORD.

#[export] Instance config_state_eq_dec : EqDecision config_state.
Proof. solve_decision. Defined.

(** [isalnum] in the C locale. *)
Definition isalnum (c : char) : bool :=
  let n := code c in
  ((48 <=? n) && (n <=? 57)) || ((65 <=? n) && (n <=? 90)) || ((97 <=? n) && (n <=? 122)).

(** The options: whether each takes an operand. *)
Definition mancheck_opts (c : char) : option bool :=
  if bool_decide (c ∈ cs "cf") then Some true else if bool_decide (c ∈ cs "Dhms") then Some false else None.

Section mancheck.
Context `{AvlTree cstr} `{DM : DataModel} `{FileSystem} (fnmatch : cstr -> cstr -> Z -> Z)
  (strerror : Z -> cstr).

Record mancheck := Mancheck {
  mc_flags : Z;
  mc_manifest_path : option cstr;
  mc_config_paths : strset;
  mc_cnt_dont_exist : Z;
  mc_cnt_not_shipped : Z;
  mc_cnt_whole_sects : Z;
  mc_shiplist : strset;
  mc_section_includes : strset;
  mc_section_excludes : strset;
  mc_page_excludes : strset
}.

Definition set_flags (mc : mancheck) (flags : Z) : mancheck :=
  Mancheck flags (mc_manifest_path mc) (mc_config_paths mc) (mc_cnt_dont_exist mc) (mc_cnt_not_shipped mc)
    (mc_cnt_whole_sects mc) (mc_shiplist mc) (mc_section_includes mc) (mc_section_excludes mc) (mc_page_excludes mc).
Definition set_manifest_path (mc : mancheck) (path : option cstr) : mancheck :=
  Mancheck (mc_flags mc) path (mc_config_paths mc) (mc_cnt_dont_exist mc) (mc_cnt_not_shipped mc)
    (mc_cnt_whole_sects mc) (mc_shiplist mc) (mc_section_includes mc) (mc_section_excludes mc) (mc_page_excludes mc).
Definition set_config_paths (mc : mancheck) (ss : strset) : mancheck :=
  Mancheck (mc_flags mc) (mc_manifest_path mc) ss (mc_cnt_dont_exist mc) (mc_cnt_not_shipped mc)
    (mc_cnt_whole_sects mc) (mc_shiplist mc) (mc_section_includes mc) (mc_section_excludes mc) (mc_page_excludes mc).
Definition set_counts (mc : mancheck) (dont_exist not_shipped whole_sects : Z) : mancheck :=
  Mancheck (mc_flags mc) (mc_manifest_path mc) (mc_config_paths mc) dont_exist not_shipped whole_sects
    (mc_shiplist mc) (mc_section_includes mc) (mc_section_excludes mc) (mc_page_excludes mc).
Definition set_shiplist (mc : mancheck) (ss : strset) : mancheck :=
  Mancheck (mc_flags mc) (mc_manifest_path mc) (mc_config_paths mc) (mc_cnt_dont_exist mc) (mc_cnt_not_shipped mc)
    (mc_cnt_whole_sects mc) ss (mc_section_includes mc) (mc_section_excludes mc) (mc_page_excludes mc).
Definition set_patterns (mc : mancheck) (includes excludes pages : strset) : mancheck :=
  Mancheck (mc_flags mc) (mc_manifest_path mc) (mc_config_paths mc) (mc_cnt_dont_exist mc) (mc_cnt_not_shipped mc)
    (mc_cnt_whole_sects mc) (mc_shiplist mc) includes excludes pages.

Notation M := (C (tool_env mancheck)).

Definition perror (s : cstr) : M () := e ← get_errno; eprint (s ++ cs ": " ++ strerror e ++ [LF]).

(** ** Options *)

Definition strset_alloc_all : M mancheck :=
  '(e1, config_paths) ← strset_alloc STRSET_IGNORE_DUPLICATES;
  '(e2, shiplist) ← strset_alloc 0;
  '(e3, section_includes) ← strset_alloc STRSET_IGNORE_DUPLICATES;
  '(e4, section_excludes) ← strset_alloc STRSET_IGNORE_DUPLICATES;
  '(e5, page_excludes) ← strset_alloc STRSET_IGNORE_DUPLICATES;
  match config_paths, shiplist, section_includes, section_excludes, page_excludes with
  | Some c, Some s, Some i, Some e, Some p =>
      if Z.lor (Z.lor (Z.lor (Z.lor e1 e2) e3) e4) e5 =? 0 then mret (Mancheck 0 None c 0 0 0 s i e p) else c_exit 1
  | _, _, _, _, _ => c_exit 1
  end.

Definition mancheck_init : M () := mc ← strset_alloc_all; put_state mc.

(** The loop over the options: [mflag], [sflag] and [Dflag]. *)
Fixpoint option_loop (opts : list getopt_result) (mc : mancheck) (mflag sflag Dflag : Z) : M (mancheck * Z * Z * Z) :=
  match opts with
  | [] => mret (mc, mflag, sflag, Dflag)
  | OptMissing _ :: _ | OptUnknown _ :: _ => c_exit 2
  | OptChar c optarg :: opts =>
      if Ascii.eqb c "c"%char then
        optarg ← c_access optarg;
        ss ← add_or_exit (mc_config_paths mc) optarg;
        option_loop opts (set_config_paths mc ss) mflag sflag Dflag
      else if Ascii.eqb c "D"%char then option_loop opts mc mflag sflag (i32 (Dflag + 1))
      else if Ascii.eqb c "f"%char then
        optarg ← c_access optarg;
        m ← malloc (Zlen optarg + 1);
        option_loop opts (set_manifest_path mc (match m with Some _ => Some optarg | None => None end)) mflag sflag Dflag
      else if Ascii.eqb c "h"%char then c_exit 0
      else if Ascii.eqb c "m"%char then option_loop opts mc (i32 (mflag + 1)) sflag Dflag
      else if Ascii.eqb c "s"%char then option_loop opts mc mflag (i32 (sflag + 1)) Dflag
      else option_loop opts mc mflag sflag Dflag
  end.

Definition parse_opts (argv : list cstr) : M () :=
  mc ← get_state;
  '(mc, mflag, sflag, Dflag) ← option_loop (getopts mancheck_opts argv) mc 0 0 0;
  match mc_manifest_path mc with
  | None | Some [] => c_exit 2
  | Some _ =>
      let flags := Z.lor (mc_flags mc) (Z.lor MCF_DONT_EXIST MCF_NOT_SHIPPED) in
      if (0 <? mflag) && (0 <? sflag) then c_exit 2 else
      let flags := if 0 <? mflag then Z.land flags (Z.lnot MCF_NOT_SHIPPED)
                   else if 0 <? sflag then Z.land flags (Z.lnot MCF_DONT_EXIST) else flags in
      let flags := if 0 <? strset_count (mc_config_paths mc) then Z.lor flags MCF_WHOLE_SECTS else flags in
      let flags := if negb (Dflag =? 0) then MCF_DUMP_CONFIG else flags in
      put_state (set_flags mc flags)
  end.

(** ** The configuration files *)

(** The local variables of [read_config_file]. *)
Record config_locals := ConfigLocals {
  cl_state : config_state;
  cl_comment_state : config_state;
  cl_type : char;
  cl_keyword : custr;
  cl_value : custr
}.

Definition with_state (l : config_locals) (st : config_state) : config_locals :=
  ConfigLocals st (cl_comment_state l) (cl_type l) (cl_keyword l) (cl_value l).

Definition appendc_or_exit {E} (cu : custr) (c : char) : C E custr :=
  '(r, cu) ← custr_appendc cu c; if negb (r =? 0) then c_exit 1 else mret cu.

(** The end of a directive: the semicolon. *)
Definition config_directive (l : config_locals) : M () :=
  keyword ← custr_cstr (cl_keyword l);
  value ← custr_cstr (cl_value l);
  mc ← get_state;
  if strcmp keyword (cs "section") =? 0 then
    if Ascii.eqb (cl_type l) "+"%char then
      a ← add_or_exit (mc_section_includes mc) value;
      put_state (set_patterns mc a (mc_section_excludes mc) (mc_page_excludes mc))
    else
      a ← add_or_exit (mc_section_excludes mc) value;
      put_state (set_patterns mc (mc_section_includes mc) a (mc_page_excludes mc))
  else if strcmp keyword (cs "page") =? 0 then
    if Ascii.eqb (cl_type l) "+"%char then c_exit 1
    else
      a ← add_or_exit (mc_page_excludes mc) value;
      put_state (set_patterns mc (mc_section_includes mc) (mc_section_excludes mc) a)
  else c_exit 1.

(** One character, from the label [top]; [jumps] bounds the jumps back to it. *)
Fixpoint config_char (jumps : nat) (c : char) (l : config_locals) : M config_locals :=
  match jumps with
  | O => c_undefined
  | S jumps =>
      if bool_decide (cl_state l ∈ [ST_REST; ST_PRE_STRING; ST_PRE_SEMICOLON]) && Ascii.eqb c "/"%char
      then mret (ConfigLocals ST_COMMENT_0 (cl_state l) (cl_type l) (cl_keyword l) (cl_value l)) else
      match cl_state l with
      | ST_REST =>
          if isspace c then mret l
          else if Ascii.eqb c "+"%char || Ascii.eqb c "-"%char then
            keyword ← custr_reset (cl_keyword l);
            value ← custr_reset (cl_value l);
            mret (ConfigLocals ST_KEYWORD (cl_comment_state l) c keyword value)
          else c_exit 1
      | ST_KEYWORD =>
          if isalnum c then
            keyword ← appendc_or_exit (cl_keyword l) c;
            mret (ConfigLocals (cl_state l) (cl_comment_state l) (cl_type l) keyword (cl_value l))
          else if isspace c then
            _ ← custr_cstr (cl_keyword l);
            config_char jumps c (with_state l ST_PRE_STRING)
          else c_exit 1
      | ST_PRE_STRING =>
          if isspace c then mret l
          else if Ascii.eqb c QUOTE then
            value ← custr_reset (cl_value l);
            mret (ConfigLocals ST_STRING (cl_comment_state l) (cl_type l) (cl_keyword l) value)
          else c_exit 1
      | ST_STRING =>
          if Ascii.eqb c LF || Ascii.eqb c (chr 13) then c_exit 1
          else if Ascii.eqb c QUOTE then mret (with_state l ST_PRE_SEMICOLON)
          else
            value ← appendc_or_exit (cl_value l) c;
            mret (ConfigLocals (cl_state l) (cl_comment_state l) (cl_type l) (cl_keyword l) value)
      | ST_PRE_SEMICOLON =>
          if isspace c then mret l
          else if negb (Ascii.eqb c ";"%char) then c_exit 1
          else config_directive l ;; mret (with_state l ST_REST)
      | ST_COMMENT_0 =>
          if Ascii.eqb c "*"%char then mret (with_state l ST_COMMENT_1) else c_exit 1
      | ST_COMMENT_1 =>
          if Ascii.eqb c "*"%char then mret (with_state l ST_COMMENT_2) else mret l
      | ST_COMMENT_2 =>
          if Ascii.eqb c "/"%char then mret (with_state l (cl_comment_state l))
          else config_char jumps c (with_state l ST_COMMENT_1)
      end
  end.

(** The loop over the characters of the file, up to the end of the file. *)
Fixpoint config_loop (chars : list char) (last_errno : Z) (l : config_locals) : M () :=
  set_errno 0 ;;
  match chars with
  | [] =>
      set_errno last_errno ;;
      if negb (last_errno =? 0) then c_exit 1
      else if decide (cl_state l = ST_REST) then mret tt else c_exit 1
  | c :: chars => l ← config_char 2 c l; config_loop chars last_errno l
  end.

Definition read_config_file (ss : strset) (config_path : cstr) : M (Z * strset) :=
  k ← custr_alloc;
  v ← custr_alloc;
  match k, v with
  | Some keyword, Some value =>
      match fs_fopen config_path with
      | inl e => c_exit 1
      | inr f =>
          if negb (char_file_regular f) then c_exit 1 else
          config_loop (cf_chars f) (cf_errno f) (ConfigLocals ST_REST ST_REST "?"%char keyword value) ;;
          mret (STRSET_WALK_NEXT, ss)
      end
  | _, _ => c_exit 1
  end.

(** ** The checks *)

Fixpoint check_sects (mpath basen : cstr) (sects : list cstr) (pages : strset) : M strset :=
  match sects with
  | [] => mret pages
  | sect :: sects =>
      let fullp := str_fit MAXPATHLEN (mpath ++ cs "/man" ++ sect ++ cs "/" ++ basen ++ cs "." ++ sect) in
      pages ←
        match fs_stat fullp with
        | inr (mode, _) =>
            if mode_is S_IFREG mode
            then add_or_exit pages (str_fit MAXPATHLEN (cs "man" ++ sect ++ cs "/" ++ basen ++ cs "." ++ sect))
            else mret pages
        | inl e => set_errno e ;; mret pages
        end;
      check_sects mpath basen sects pages
  end.

Fixpoint check_mpaths (mpaths : list cstr) (basen : cstr) (pages : strset) : M strset :=
  match mpaths with
  | [] => mret pages
  | mpath :: mpaths => pages ← check_sects mpath basen cm_mansects pages; check_mpaths mpaths basen pages
  end.

Definition check_man (filen : cstr) (pages : strset) : M (bool * strset) :=
  let basen := basename (str_fit MAXPATHLEN filen) in
  pages ← strset_reset pages;
  pages ← check_mpaths cm_mpaths basen pages;
  mret (0 <? strset_count pages, pages).

Definition in_dir (filen : cstr) : bool :=
  let dirn := dirname (str_fit MAXPATHLEN filen) in
  existsb (fun bpath => strcmp dirn bpath =? 0) cm_bpaths.

(** The three types that name a file. *)
Definition is_file_type (type : manifest_ent_type) : bool :=
  match type with ME_TYPE_FILE | ME_TYPE_HARDLINK | ME_TYPE_SYMLINK => true | _ => false end.

Definition populate_shiplist (me : manifest_ent) : M Z :=
  if is_file_type (me_type me) then
    name ← c_access (me_name me);
    if strncmp name cm_pdir (Zlen cm_pdir) =? 0 then
      mc ← get_state;
      ss ← add_or_exit (mc_shiplist mc) name;
      put_state (set_shiplist mc ss) ;;
      mret MECB_NEXT
    else mret MECB_NEXT
  else mret MECB_NEXT.

Definition check_shipped (me : manifest_ent) (ss : strset) (page : cstr) : M (Z * strset) :=
  mc ← get_state;
  let buf := str_fit MAXPATHLEN (cm_pdir ++ cs "/" ++ page) in
  if strset_contains (mc_shiplist mc) buf then mret (STRSET_WALK_NEXT, ss)
  else
    put_state (set_counts mc (mc_cnt_dont_exist mc) (sz (mc_cnt_not_shipped mc + 1)) (mc_cnt_whole_sects mc)) ;;
    (if flag_set (mc_flags mc) MCF_NOT_SHIPPED then
       name ← c_access (me_name me);
       print_out (cs "binary /" ++ name ++ cs " has unshipped manual page: " ++ page ++ [LF])
     else mret tt) ;;
    mret (STRSET_WALK_NEXT, ss).

(** The body of the switch for a file. *)
Definition check_command (me : manifest_ent) (pages : strset) : M () :=
  name ← c_access (me_name me);
  if negb (in_dir name) then mret tt else
  '(found, pages) ← check_man name pages;
  if negb found then
    mc ← get_state;
    put_state (set_counts mc (sz (mc_cnt_dont_exist mc + 1)) (mc_cnt_not_shipped mc) (mc_cnt_whole_sects mc)) ;;
    if flag_set (mc_flags mc) MCF_DONT_EXIST
    then print_out (cs "missing manual page for /" ++ name ++ [LF]) else mret tt
  else
    '(r, _) ← strset_walk (walk_fuel pages) pages (check_shipped me);
    VERIFY (r =? 0).

Definition check_manifest_ent (me : manifest_ent) : M Z :=
  '(r, pages) ← strset_alloc STRSET_IGNORE_DUPLICATES;
  match pages with
  | Some pages =>
      if negb (r =? 0) then perror (cs "strset_alloc") ;; mret MECB_CANCEL else
      (if is_file_type (me_type me) then check_command me pages else mret tt) ;;
      mret MECB_NEXT
  | None => perror (cs "strset_alloc") ;; mret MECB_CANCEL
  end.

Definition strset_fnmatch_walker {E} (input : cstr) (ss : strset) (pattern : cstr) : C (E * Z) (Z * strset) :=
  let r := fnmatch pattern input FNM_PATHNAME in
  if r =? 0 then count ← get_var; put_var (i32 (count + 1)) ;; mret (STRSET_WALK_NEXT, ss)
  else if r =? FNM_NOMATCH then mret (STRSET_WALK_NEXT, ss)
  else c_exit 1.

(** The number of patterns of the set that match; the set itself does not change. *)
Definition strset_fnmatch {E} (set : strset) (input : cstr) : C E Z :=
  '(r, _, count) ← with_var 0 (strset_walk (walk_fuel set) set (strset_fnmatch_walker input));
  if negb (r =? 0) then c_exit 1 else mret count.

(** The names [readdir] gives that are not [.], [..] or empty are looked at. *)
Definition special_name (name : cstr) : bool :=
  (strcmp name (cs ".") =? 0) || (strcmp name (cs "..") =? 0) || (Zlen name <? 1).

(** One name of a directory of a section: an error ends the reading. *)
Definition whole_sect_entry (sect sectpath d_name : cstr) (path shipname : custr) : M (Z + custr * custr) :=
  path ← custr_reset path;
  '(r, path) ← custr_append_printf path (sectpath ++ cs "/" ++ d_name);
  if negb (r =? 0) then e ← get_errno; eprint (cs "custr_append_printf failure" ++ [LF]) ;; mret (inl e) else
  p ← custr_cstr path;
  match fs_lstat p with
  | inl e => set_errno e ;; eprint (cs "lstat(" ++ p ++ cs ") failed: " ++ strerror e ++ [LF]) ;; mret (inl e)
  | inr (mode, _) =>
      if negb (mode_is S_IFREG mode) && negb (mode_is S_IFLNK mode) then mret (inr (path, shipname)) else
      mc ← get_state;
      excluded ← strset_fnmatch (mc_page_excludes mc) d_name;
      if 0 <? excluded then mret (inr (path, shipname)) else
      shipname ← custr_reset shipname;
      '(r, shipname) ← custr_append_printf shipname (cm_pdir ++ cs "/man" ++ sect ++ cs "/" ++ d_name);
      if negb (r =? 0) then e ← get_errno; eprint (cs "custr_append_printf failure" ++ [LF]) ;; mret (inl e) else
      s ← custr_cstr shipname;
      if strset_contains (mc_shiplist mc) s then mret (inr (path, shipname))
      else
        p ← custr_cstr path;
        print_out (cs "section " ++ sect ++ cs " page not shipped: " ++ p ++ [LF]) ;;
        put_state (set_counts mc (mc_cnt_dont_exist mc) (mc_cnt_not_shipped mc) (sz (mc_cnt_whole_sects mc + 1))) ;;
        mret (inr (path, shipname))
  end.

(** The loop over the directory: the value of [e] at the label [out]. *)
Fixpoint whole_sect_loop (sect sectpath : cstr) (names : list cstr) (last_errno : Z) (path shipname : custr) : M Z :=
  set_errno 0 ;;
  match names with
  | [] => set_errno last_errno ;; mret last_errno
  | d_name :: names =>
      if special_name d_name then whole_sect_loop sect sectpath names last_errno path shipname else
      r ← whole_sect_entry sect sectpath d_name path shipname;
      match r with
      | inl e => mret e
      | inr (path, shipname) => whole_sect_loop sect sectpath names last_errno path shipname
      end
  end.

Definition check_whole_sect_dir (sect sectpath : cstr) : M Z :=
  match fs_opendir sectpath with
  | inl e =>
      set_errno e ;;
      if e =? ENOENT then mret 0 else eprint (cs "opendir failure" ++ [LF]) ;; mret (-1)
  | inr (names, last_errno) =>
      s ← custr_alloc;
      p ← match s with None => mret None | Some _ => custr_alloc end;
      e ← match s, p with
          | Some shipname, Some path => whole_sect_loop sect sectpath names last_errno path shipname
          | _, _ => get_errno
          end;
      set_errno e ;;
      mret (if e =? 0 then 0 else -1)
  end.

Fixpoint whole_sect_paths (mpaths : list cstr) (sect : cstr) : C (tool_env mancheck * custr) () :=
  match mpaths with
  | [] => mret tt
  | mpath :: mpaths =>
      tmp ← get_var;
      tmp ← custr_reset tmp;
      '(r, tmp) ← custr_append_printf tmp (mpath ++ cs "/man" ++ sect);
      put_var tmp ;;
      if negb (r =? 0) then c_exit 1 else
      sectpath ← custr_cstr tmp;
      r ← outer (check_whole_sect_dir sect sectpath);
      (if negb (r =? 0)
       then
         e ← get_errno;
         eprint (cs "ERROR: failed to check section " ++ sect ++ cs " in directory " ++ sectpath ++ cs ": " ++
                 strerror e ++ [LF])
       else mret tt) ;;
      whole_sect_paths mpaths sect
  end.

Definition check_whole_sect (ss : strset) (sect : cstr) : C (tool_env mancheck * custr) (Z * strset) :=
  whole_sect_paths cm_mpaths sect ;; mret (STRSET_WALK_NEXT, ss).

(** The names of a manual page directory: an error, or the sections that are shipped whole. *)
Fixpoint section_names (names : list cstr) (last_errno : Z) (wholesects : strset) : M (Z * strset) :=
  set_errno 0 ;;
  match names with
  | [] => set_errno last_errno ;; mret (0, wholesects)
  | d_name :: names =>
      if special_name d_name then section_names names last_errno wholesects
      else if negb (strncmp d_name (cs "man") 3 =? 0) then section_names names last_errno wholesects
      else
        let sect := drop 3 d_name in
        mc ← get_state;
        excluded ← strset_fnmatch (mc_section_excludes mc) sect;
        if 0 <? excluded then section_names names last_errno wholesects else
        included ← strset_fnmatch (mc_section_includes mc) sect;
        if included <? 1 then section_names names last_errno wholesects else
        '(r, wholesects) ← strset_add wholesects sect;
        if negb (r =? 0) then e ← get_errno; mret (e, wholesects)
        else section_names names last_errno wholesects
  end.

Fixpoint section_dirs (mpaths : list cstr) (wholesects : strset) : M (Z * strset) :=
  match mpaths with
  | [] => mret (0, wholesects)
  | mpath :: mpaths =>
      match fs_opendir mpath with
      | inl e => set_errno e ;; 
          eprint (cs "ERROR: failed to open directory " ++ mpath ++ cs ": " ++ strerror e ++ [LF]) ;; mret (e, wholesects)
      | inr (names, last_errno) =>
          '(e, wholesects) ← section_names names last_errno wholesects;
          if negb (e =? 0) then mret (e, wholesects) else section_dirs mpaths wholesects
      end
  end.

Definition check_whole_sects : M Z :=
  cu ← custr_alloc;
  ws ← match cu with
       | None => mret None
       | Some _ => '(r, ws) ← strset_alloc STRSET_IGNORE_DUPLICATES; mret (if r =? 0 then ws else None)
       end;
  e ←
    match cu, ws with
    | Some sectpath, Some wholesects =>
        '(e, wholesects) ← section_dirs cm_mpaths wholesects;
        if negb (e =? 0) then mret e else
        '(r, _, _) ← with_var sectpath (strset_walk (walk_fuel wholesects) wholesects check_whole_sect);
        VERIFY (r =? 0) ;; mret 0
    | _, _ => get_errno
    end;
  set_errno e ;;
  mret (if e =? 0 then 0 else -1).

(** ** The program *)

Definition dump_record (ss : strset) (pattern : cstr) : M (Z * strset) :=
  print_out (chr 9 :: pattern ++ [LF]) ;; mret (STRSET_WALK_NEXT, ss).

Definition dump_set (title : cstr) (ss : strset) : M () :=
  print_out (title ++ [LF]) ;; _ ← strset_walk (walk_fuel ss) ss dump_record; print_out [LF].

Definition dump_config (mc : mancheck) : M () :=
  print_out (cs "dumping config in processing order:" ++ [LF]) ;;
  print_out [LF] ;;
  dump_set (cs "   1. section excludes:") (mc_section_excludes mc) ;;
  dump_set (cs "   2. section includes:") (mc_section_includes mc) ;;
  dump_set (cs "   3. page excludes:") (mc_page_excludes mc).

(** One of the final counts: whether the empty line has been printed, and the exit status. *)
Definition print_count (flag count : Z) (title : cstr) (endl : bool) (rval : Z) : M (bool * Z) :=
  mc ← get_state;
  if flag_set (mc_flags mc) flag && (0 <? count) then
    (if endl then mret tt else print_out [LF]) ;;
    print_out (title ++ print_d (as_long count) ++ [LF]) ;;
    mret (true, 60)
  else mret (endl, rval).

Definition print_counts : M Z :=
  mc ← get_state;
  '(endl, rval) ← print_count MCF_WHOLE_SECTS (mc_cnt_whole_sects mc)
    (cs "unshipped manual pages from entirely shipped sections: ") false 0;
  '(endl, rval) ← print_count MCF_DONT_EXIST (mc_cnt_dont_exist mc) (cs "missing manual pages: ") endl rval;
  '(_, rval) ← print_count MCF_NOT_SHIPPED (mc_cnt_not_shipped mc) (cs "unshipped manual pages: ") endl rval;
  mret rval.

Definition run_checks (manifest_path : cstr) : M Z :=
  r ← read_manifest_file manifest_path (fs_manifest manifest_path) populate_shiplist;
  if negb (r =? 0) then perror (cs "ERROR: could not read manifest file") ;; mret 50 else
  r ← read_manifest_file manifest_path (fs_manifest manifest_path) check_manifest_ent;
  if negb (r =? 0) then perror (cs "ERROR: could not read manifest file") ;; mret 50 else
  r ← check_whole_sects;
  if negb (r =? 0) then mret 50 else print_counts.

(** [abort_set]: whether [ABORT_ON_EXIT] is in the environment. *)
Definition main (abort_set : bool) (argv : list cstr) : M Z :=
  mancheck_init ;;
  parse_opts argv ;;
  mc ← get_state;
  '(_, ss) ← strset_walk (walk_fuel (mc_config_paths mc)) (mc_config_paths mc) read_config_file;
  mc ← get_state;
  (if flag_set (mc_flags mc) MCF_DUMP_CONFIG then dump_config mc else mret tt) ;;
  if mc_flags mc =? MCF_DUMP_CONFIG then print_out (cs "dumping only" ++ [LF]) ;; mret 0 else
  path ← c_access (mc_manifest_path mc);
  rval ← run_checks path;
  abort_on_exit abort_set rval.
End mancheck.
