(* ===== verification/MancheckConf.v ===== *)
(** * MancheckConf: the language of the configuration files of mancheck

    The grammar [config] describes a file as directives between blanks and comments.
    [read_config_file] accepts exactly the files of the grammar whose directives are valid, and
    adds their patterns to the three sets.  The characters are first followed without memory
    ([conf_run]); that function is then compared with the grammar in both directions. *)
From Stdlib Require Import Lia.
From S2P Require Import Prelude Cnum Custr Avl Manifest Strset Tools Run Mancheck.

(** ** The grammar *)

Record directive := Directive { d_sign : char; d_keyword : cstr; d_value : list char }.

Definition starts_slash (s : list char) : bool :=
  match s with c :: _ => Ascii.eqb c "/"%char | [] => false end.

(** The text of a comment: it has no [*/]. *)
Fixpoint no_close (b : list char) : bool :=
  match b with
  | [] => true
  | c :: b' => negb (Ascii.eqb c "*"%char && starts_slash b') && no_close b'
  end.

Inductive blanks : list char -> Prop :=
| blanks_nil : blanks []
| blanks_space c s : isspace c = true -> blanks s -> blanks (c :: s)
| blanks_comment b s : no_close b = true -> blanks s -> blanks (cs "/*" ++ b ++ cs "*/" ++ s).

Definition sign_char (c : char) : bool := Ascii.eqb c "+"%char || Ascii.eqb c "-"%char.
Definition string_char (c : char) : bool :=
  negb (Ascii.eqb c LF || Ascii.eqb c (chr 13)) && negb (Ascii.eqb c QUOTE).

Inductive config : list char -> list directive -> Prop :=
| config_end b : blanks b -> config b []
| config_item b0 sign kw c b1 v b2 s ds :
    blanks b0 -> sign_char sign = true -> Forall (fun c => isalnum c = true) kw -> isspace c = true -> blanks b1 ->
    Forall (fun c => string_char c = true) v -> blanks b2 -> config s ds ->
    config (b0 ++ sign :: kw ++ c :: b1 ++ QUOTE :: v ++ QUOTE :: b2 ++ ";"%char :: s) (Directive sign kw v :: ds).

(** The directives that are accepted: [+section], [-section] and [-page]. *)
Definition valid_directive (d : directive) : bool :=
  bool_decide (d_keyword d = cs "section") ||
  (bool_decide (d_keyword d = cs "page") && negb (Ascii.eqb (d_sign d) "+"%char)).

(** The patterns of the three sets: section includes, section excludes and page excludes. *)
Definition patterns : Type := list cstr * list cstr * list cstr.

Definition add_directive (ps : patterns) (d : directive) : patterns :=
  let '(includes, excludes, pages) := ps in
  let value := c_text (d_value d) in
  if bool_decide (d_keyword d = cs "section") then
    if Ascii.eqb (d_sign d) "+"%char then (seq_add value includes, excludes, pages)
    else (includes, seq_add value excludes, pages)
  else (includes, excludes, seq_add value pages).

(** ** The characters one at a time *)

Record conf_state := ConfState {
  cn_state : config_state; cn_comment : config_state; cn_sign : char; cn_keyword : list char; cn_value : list char }.

Definition conf_goto (p : conf_state) (st : config_state) : conf_state :=
  ConfState st (cn_comment p) (cn_sign p) (cn_keyword p) (cn_value p).

Definition blank_state (st : config_state) : bool := bool_decide (st ∈ [ST_REST; ST_PRE_STRING; ST_PRE_SEMICOLON]).

Definition conf_step (c : char) (p : conf_state) : option (conf_state * list directive) :=
  if blank_state (cn_state p) && Ascii.eqb c "/"%char
  then Some (ConfState ST_COMMENT_0 (cn_state p) (cn_sign p) (cn_keyword p) (cn_value p), []) else
  match cn_state p with
  | ST_REST =>
      if isspace c then Some (p, [])
      else if sign_char c then Some (ConfState ST_KEYWORD (cn_comment p) c [] [], []) else None
  | ST_KEYWORD =>
      if isalnum c then Some (ConfState ST_KEYWORD (cn_comment p) (cn_sign p) (cn_keyword p ++ [c]) (cn_value p), [])
      else if isspace c then Some (conf_goto p ST_PRE_STRING, []) else None
  | ST_PRE_STRING =>
      if isspace c then Some (p, [])
      else if Ascii.eqb c QUOTE then Some (ConfState ST_STRING (cn_comment p) (cn_sign p) (cn_keyword p) [], []) else None
  | ST_STRING =>
      if Ascii.eqb c LF || Ascii.eqb c (chr 13) then None
      else if Ascii.eqb c QUOTE then Some (conf_goto p ST_PRE_SEMICOLON, [])
      else Some (ConfState ST_STRING (cn_comment p) (cn_sign p) (cn_keyword p) (cn_value p ++ [c]), [])
  | ST_PRE_SEMICOLON =>
      if isspace c then Some (p, [])
      else if negb (Ascii.eqb c ";"%char) then None
      else let d := Directive (cn_sign p) (cn_keyword p) (cn_value p) in
           if valid_directive d then Some (conf_goto p ST_REST, [d]) else None
  | ST_COMMENT_0 => if Ascii.eqb c "*"%char then Some (conf_goto p ST_COMMENT_1, []) else None
  | ST_COMMENT_1 => if Ascii.eqb c "*"%char then Some (conf_goto p ST_COMMENT_2, []) else Some (p, [])
  | ST_COMMENT_2 =>
      if Ascii.eqb c "/"%char then Some (conf_goto p (cn_comment p), [])
      else if Ascii.eqb c "*"%char then Some (p, []) else Some (conf_goto p ST_COMMENT_1, [])
  end.

Fixpoint conf_run (p : conf_state) (s : list char) : option (list directive) :=
  match s with
  | [] => if decide (cn_state p = ST_REST) then Some [] else None
  | c :: s => r ← conf_step c p; ds ← conf_run r.1 s; Some (r.2 ++ ds)
  end.

Definition conf_start : conf_state := ConfState ST_REST ST_REST "?"%char [] [].

(** ** The grammar is accepted *)

Lemma isspace_not c : isspace c = true ->
  Ascii.eqb c "/"%char = false /\ Ascii.eqb c QUOTE = false /\ Ascii.eqb c ";"%char = false /\
  isalnum c = false /\ sign_char c = false.
Proof.
  unfold isspace. intros Hc.
  assert (Hd : forall d, isspace d = false -> Ascii.eqb c d = false).
  { intros d Hd. apply Ascii.eqb_neq. intros ->. by unfold isspace in Hd; rewrite Hc in Hd. }
  rewrite !Hd by done. unfold sign_char. rewrite !Hd by done. split_and!; try done. unfold isalnum. lia.
Qed.

Lemma isalnum_not c : isalnum c = true -> isspace c = false.
Proof. unfold isalnum, isspace. lia. Qed.

Lemma conf_run_step c p q s : conf_step c p = Some (q, []) -> conf_run p (c :: s) = conf_run q s.
Proof. intros Hc. cbn [conf_run]. rewrite Hc. cbn. by destruct (conf_run q s). Qed.

(** The steps inside a comment. *)
Lemma comment_1_step p c : cn_state p = ST_COMMENT_1 ->
  conf_step c p = Some (if Ascii.eqb c "*"%char then conf_goto p ST_COMMENT_2 else p, []).
Proof. intros Hp. unfold conf_step. rewrite Hp. cbn. by destruct (Ascii.eqb c "*"%char). Qed.

Lemma comment_2_step p c : cn_state p = ST_COMMENT_2 ->
  conf_step c p = Some (if Ascii.eqb c "/"%char then conf_goto p (cn_comment p)
    else if Ascii.eqb c "*"%char then p else conf_goto p ST_COMMENT_1, []).
Proof. intros Hp. unfold conf_step. rewrite Hp. cbn. destruct (Ascii.eqb c "/"%char); [done|]. by destruct (Ascii.eqb c "*"%char). Qed.

Lemma run_comment_body b s p : no_close b = true ->
  (cn_state p = ST_COMMENT_1 -> conf_run p (b ++ cs "*/" ++ s) = conf_run (conf_goto p (cn_comment p)) s) /\
  (cn_state p = ST_COMMENT_2 -> starts_slash b = false ->
     conf_run p (b ++ cs "*/" ++ s) = conf_run (conf_goto p (cn_comment p)) s).
Proof.
  revert p. induction b as [|c b IH]; intros p Hb; cbn [no_close] in Hb.
  - cbn [app cs list_ascii_of_string]. split; intros Hp.
    + rewrite (conf_run_step _ _ _ _ (comment_1_step _ _ Hp)). cbn [Ascii.eqb Bool.eqb].
      by rewrite (conf_run_step _ _ _ _ (comment_2_step (conf_goto p ST_COMMENT_2) _ eq_refl)).
    + intros _. rewrite (conf_run_step _ _ _ _ (comment_2_step _ _ Hp)). cbn [Ascii.eqb Bool.eqb].
      by rewrite (conf_run_step _ _ _ _ (comment_2_step _ _ Hp)).
  - apply andb_prop in Hb as [Hc Hb]. apply negb_true_iff in Hc. cbn [app]. split; intros Hp.
    + rewrite (conf_run_step _ _ _ _ (comment_1_step _ _ Hp)). destruct (Ascii.eqb c "*"%char) in *.
      * destruct (IH (conf_goto p ST_COMMENT_2) Hb) as [_ IH2]. by apply IH2.
      * destruct (IH p Hb) as [IH1 _]. by apply IH1.
    + intros Hs. cbn in Hs. rewrite (conf_run_step _ _ _ _ (comment_2_step _ _ Hp)), Hs.
      destruct (Ascii.eqb c "*"%char); [destruct (IH p Hb) as [_ IH2]; by apply IH2|].
      destruct (IH (conf_goto p ST_COMMENT_1) Hb) as [IH1 _]. by apply IH1.
Qed.

(** Blanks are skipped; only the memory of the state a comment interrupts changes. *)
Definition conf_eq (p q : conf_state) : Prop :=
  cn_state p = cn_state q /\ cn_sign p = cn_sign q /\ cn_keyword p = cn_keyword q /\ cn_value p = cn_value q.

Lemma run_blanks b s p : blanks b -> blank_state (cn_state p) = true ->
  exists q, conf_eq p q /\ conf_run p (b ++ s) = conf_run q s.
Proof.
  intros Hb. revert p. induction Hb as [|c b Hc Hb IH|b b' Hcl Hb IH]; intros p Hp.
  - by exists p.
  - destruct (IH p Hp) as (q & Hq & Hr). exists q. split; [done|]. cbn [app].
    rewrite (conf_run_step _ _ p); [done|]. destruct (isspace_not c Hc) as (Hsl & _).
    unfold conf_step, blank_state in *. rewrite Hsl, andb_false_r, Hc. by destruct (cn_state p).
  - set (p1 := ConfState (cn_state p) (cn_state p) (cn_sign p) (cn_keyword p) (cn_value p)).
    destruct (IH p1 Hp) as (q & Hq & Hr). exists q. split; [exact Hq|]. rewrite <-!app_assoc.
    cbn [app cs list_ascii_of_string]. rewrite (conf_run_step _ _ (conf_goto p1 ST_COMMENT_0))
      by (unfold conf_step; by rewrite Hp).
    rewrite (conf_run_step _ _ (conf_goto p1 ST_COMMENT_1)) by done.
    destruct (run_comment_body b (b' ++ s) (conf_goto p1 ST_COMMENT_1) Hcl) as [Hbody _].
    rewrite <-Hr. by apply Hbody.
Qed.

Lemma run_keyword kw s p : Forall (fun c => isalnum c = true) kw -> cn_state p = ST_KEYWORD ->
  conf_run p (kw ++ s) = conf_run (ConfState ST_KEYWORD (cn_comment p) (cn_sign p) (cn_keyword p ++ kw) (cn_value p)) s.
Proof.
  intros Hkw. revert p. induction Hkw as [|c kw Hc _ IH]; intros p Hp.
  - rewrite app_nil_r. destruct p. cbn in Hp. by subst.
  - cbn [app]. rewrite (conf_run_step _ _ _ _ (ltac:(unfold conf_step; rewrite Hp, Hc; reflexivity))).
    rewrite IH by done. cbn. by rewrite <-app_assoc.
Qed.

Lemma run_string v s p : Forall (fun c => string_char c = true) v -> cn_state p = ST_STRING ->
  conf_run p (v ++ s) = conf_run (ConfState ST_STRING (cn_comment p) (cn_sign p) (cn_keyword p) (cn_value p ++ v)) s.
Proof.
  intros Hv. revert p. induction Hv as [|c v Hc _ IH]; intros p Hp.
  - rewrite app_nil_r. destruct p. cbn in Hp. by subst.
  - cbn [app]. apply andb_prop in Hc as [Hc1 Hc2]. apply negb_true_iff in Hc1, Hc2.
    rewrite (conf_run_step _ _ _ _ (ltac:(unfold conf_step; rewrite Hp, Hc1, Hc2; reflexivity))).
    rewrite IH by done. cbn. by rewrite <-app_assoc.
Qed.

Definition accepts (s : list char) (ds : list directive) : Prop :=
  config s ds /\ Forall (fun d => valid_directive d = true) ds.

Lemma sign_char_not c : sign_char c = true -> isspace c = false /\ Ascii.eqb c "/"%char = false.
Proof. unfold sign_char. intros [->%Ascii.eqb_eq | ->%Ascii.eqb_eq]%orb_prop; done. Qed.

Lemma conf_run_complete s ds p : accepts s ds -> cn_state p = ST_REST -> conf_run p s = Some ds.
Proof.
  intros [Hs Hds]. revert Hds p. induction Hs as [b Hb|b0 sign kw c b1 v b2 s ds Hb0 Hsign Hkw Hc Hb1 Hv Hb2 _ IH]; intros Hds p Hp.
  { destruct (run_blanks b [] p Hb) as (q & (Hq & _) & Hr); [by rewrite Hp|]. rewrite app_nil_r in Hr. rewrite Hr. cbn.
    rewrite decide_True by congruence. done. }
  apply Forall_cons_1 in Hds as [Hd Hds].
  destruct (run_blanks b0 (sign :: kw ++ c :: b1 ++ QUOTE :: v ++ QUOTE :: b2 ++ ";"%char :: s) p Hb0)
    as (q & (Hq & _) & ->); [by rewrite Hp|]. rewrite Hp in Hq.
  destruct (sign_char_not _ Hsign) as [Hsp Hsl].
  rewrite (conf_run_step _ _ (ConfState ST_KEYWORD (cn_comment q) sign [] []))
    by (unfold conf_step; rewrite <-Hq, Hsl, Hsp, Hsign; reflexivity).
  rewrite run_keyword by done. cbn [cn_comment cn_sign cn_keyword cn_value app]. destruct (isspace_not c Hc) as (_ & _ & _ & Hal & _).
  rewrite (conf_run_step _ _ (ConfState ST_PRE_STRING (cn_comment q) sign kw []))
    by (unfold conf_step; cbn; rewrite Hal, Hc; reflexivity).
  match goal with |- conf_run ?p (?b ++ ?s) = _ => destruct (run_blanks b s p Hb1) as (q1 & (Hq1 & Hs1 & Hk1 & _) & ->); [done|] end.
  cbn in Hq1, Hs1, Hk1.
  rewrite (conf_run_step _ _ (ConfState ST_STRING (cn_comment q1) sign kw []))
    by (unfold conf_step; rewrite <-Hq1, <-Hs1, <-Hk1; reflexivity).
  rewrite run_string by done. cbn [cn_comment cn_sign cn_keyword cn_value app].
  rewrite (conf_run_step _ _ (ConfState ST_PRE_SEMICOLON (cn_comment q1) sign kw v)) by done.
  match goal with |- conf_run ?p (?b ++ ?s) = _ => destruct (run_blanks b s p Hb2) as (q2 & (Hq2 & Hs2 & Hk2 & Hv2) & ->); [done|] end.
  cbn in Hq2, Hs2, Hk2, Hv2. cbn [conf_run]. unfold conf_step. rewrite <-Hq2, <-Hs2, <-Hk2, <-Hv2. cbn. rewrite Hd, andb_false_r.
  change (isspace ";"%char) with false. cbn. by rewrite IH.
Qed.

(** ** Only the grammar is accepted *)

(** What is left of a directive in each of its states, and of a comment. *)
Definition rest_semicolon (sign : char) (kw v s : list char) (ds : list directive) : Prop :=
  exists b s' ds', s = b ++ ";"%char :: s' /\ blanks b /\ ds = Directive sign kw v :: ds' /\
    valid_directive (Directive sign kw v) = true /\ accepts s' ds'.
Definition rest_string (sign : char) (kw v s : list char) (ds : list directive) : Prop :=
  exists v' s', s = v' ++ QUOTE :: s' /\ Forall (fun c => string_char c = true) v' /\ rest_semicolon sign kw (v ++ v') s' ds.
Definition rest_pre_string (sign : char) (kw s : list char) (ds : list directive) : Prop :=
  exists b s', s = b ++ QUOTE :: s' /\ blanks b /\ rest_string sign kw [] s' ds.
Definition rest_keyword (sign : char) (kw s : list char) (ds : list directive) : Prop :=
  exists kw' c s', s = kw' ++ c :: s' /\ Forall (fun c => isalnum c = true) kw' /\ isspace c = true /\
    rest_pre_string sign (kw ++ kw') s' ds.

Definition rest_of (st : config_state) (p : conf_state) (s : list char) (ds : list directive) : Prop :=
  match st with
  | ST_REST => accepts s ds
  | ST_KEYWORD => rest_keyword (cn_sign p) (cn_keyword p) s ds
  | ST_PRE_STRING => rest_pre_string (cn_sign p) (cn_keyword p) s ds
  | ST_STRING => rest_string (cn_sign p) (cn_keyword p) (cn_value p) s ds
  | ST_PRE_SEMICOLON => rest_semicolon (cn_sign p) (cn_keyword p) (cn_value p) s ds
  | _ => False
  end.

(** [text]: what the comment has so far that may be the beginning of its end. *)
Definition rest_comment (text : list char) (p : conf_state) (s : list char) (ds : list directive) : Prop :=
  exists b s', text ++ s = b ++ cs "*/" ++ s' /\ no_close b = true /\ rest_of (cn_comment p) p s' ds.

Definition rest_ok (p : conf_state) (s : list char) (ds : list directive) : Prop :=
  match cn_state p with
  | ST_COMMENT_0 => exists s', s = "*"%char :: s' /\ rest_comment [] p s' ds
  | ST_COMMENT_1 => rest_comment [] p s ds
  | ST_COMMENT_2 => rest_comment (cs "*") p s ds
  | st => rest_of st p s ds
  end.

Lemma blanks_app b b' : blanks b -> blanks b' -> blanks (b ++ b').
Proof.
  induction 1 as [|c b Hc Hb IH|x b Hx Hb IH]; intros Hb'; [done|apply blanks_space; auto|].
  rewrite <-!app_assoc. apply blanks_comment; auto.
Qed.

Lemma config_blanks b s ds : blanks b -> config s ds -> config (b ++ s) ds.
Proof.
  intros Hb [b' Hb'|]; [by constructor; apply blanks_app|]. rewrite app_assoc. by constructor; [apply blanks_app|..].
Qed.

Lemma rest_blanks st p b s ds : blank_state st = true -> blanks b -> rest_of st p s ds -> rest_of st p (b ++ s) ds.
Proof.
  intros Hst Hb Hs. destruct st; try done; cbn in *.
  - destruct Hs. split; [by apply config_blanks|done].
  - destruct Hs as (b' & s' & -> & ? & ?). exists (b ++ b'), s'. rewrite <-app_assoc. split_and!; try done; by apply blanks_app.
  - destruct Hs as (b' & s' & ds' & -> & ? & ? & ? & ?). exists (b ++ b'), s', ds'. rewrite <-app_assoc. split_and!; try done; by apply blanks_app.
Qed.

Lemma rest_ok_blank p s ds : blank_state (cn_state p) = true -> rest_of (cn_state p) p s ds -> rest_ok p s ds.
Proof. unfold rest_ok. by destruct (cn_state p). Qed.

Lemma rest_of_blank p s ds : blank_state (cn_state p) = true -> rest_ok p s ds -> rest_of (cn_state p) p s ds.
Proof. unfold rest_ok. by destruct (cn_state p). Qed.

(** A state a comment returns to. *)
Definition comment_ok (p : conf_state) : Prop := blank_state (cn_comment p) = true.

Lemma slash_sound p q s ds c :
  blank_state (cn_state p) = true -> Ascii.eqb c "/"%char = true ->
  q = ConfState ST_COMMENT_0 (cn_state p) (cn_sign p) (cn_keyword p) (cn_value p) ->
  rest_ok q s ds -> rest_ok p (c :: s) ds.
Proof.
  intros Hp ->%Ascii.eqb_eq -> (s1 & -> & b & s2 & Hs & Hb & Hr). cbn [app] in Hs. subst s1. apply rest_ok_blank; [done|].
  assert (Happ : "/"%char :: "*"%char :: b ++ cs "*/" ++ s2 = (cs "/*" ++ b ++ cs "*/" ++ []) ++ s2)
    by (rewrite <-!app_assoc; done).
  rewrite Happ. apply (rest_blanks (cn_state p) p (cs "/*" ++ b ++ cs "*/" ++ []) s2); [done| |by destruct (cn_state p)].
  apply blanks_comment; [done|apply blanks_nil].
Qed.

Lemma space_sound p c s ds :
  blank_state (cn_state p) = true -> isspace c = true -> rest_ok p s ds -> rest_ok p (c :: s) ds.
Proof.
  intros Hp Hc Hr. apply rest_ok_blank; [done|]. change (c :: s) with ([c] ++ s). apply rest_blanks; [done| |by apply rest_of_blank].
  by apply blanks_space, blanks_nil.
Qed.

(** One step, outside comments. *)
Lemma directive_step_sound c p q out s ds :
  conf_step c p = Some (q, out) -> rest_ok q s ds ->
  cn_state p ∈ [ST_REST; ST_KEYWORD; ST_PRE_STRING; ST_STRING; ST_PRE_SEMICOLON] -> rest_ok p (c :: s) (out ++ ds).
Proof.
  intros Hstep Hr Hst. unfold conf_step in Hstep.
  destruct (blank_state (cn_state p) && Ascii.eqb c "/"%char) eqn:Hsl.
  { apply andb_prop in Hsl as [Hb Hsl]. injection Hstep as <- <-. by eapply slash_sound. }
  clear Hsl. unfold rest_ok. destruct (cn_state p) eqn:Hp; try (exfalso; by set_solver).
  - destruct (isspace c) eqn:Hc; [injection Hstep as <- <-|].
    { pose proof (space_sound p c s ds ltac:(by rewrite Hp) Hc Hr) as Hok. unfold rest_ok in Hok. by rewrite Hp in Hok. }
    destruct (sign_char c) eqn:Hsign; [|done]. injection Hstep as <- <-. cbn in Hr.
    destruct Hr as (kw & c' & s1 & -> & Hkw & Hc' & b1 & s2 & -> & Hb1 & v & s3 & -> & Hv & b2 & s4 & ds' & -> & Hb2 & -> & Hd & Hs & Hds).
    cbn [app]. split; [|by constructor]. apply (config_item [] c kw c' b1 v b2 s4 ds'); try done. apply blanks_nil.
  - destruct (isspace c) eqn:Hc; [injection Hstep as <- <-|].
    { pose proof (space_sound p c s ds ltac:(by rewrite Hp) Hc Hr) as Hok. unfold rest_ok in Hok. by rewrite Hp in Hok. }
    destruct (Ascii.eqb c QUOTE) eqn:Hq; [|done]. injection Hstep as <- <-. apply Ascii.eqb_eq in Hq as ->.
    exists [], s. split_and!; [done|apply blanks_nil|exact Hr].
  - destruct (Ascii.eqb c LF || Ascii.eqb c (chr 13)) eqn:Hnl; [done|].
    destruct (Ascii.eqb c QUOTE) eqn:Hq; injection Hstep as <- <-.
    + apply Ascii.eqb_eq in Hq as ->. exists [], s. rewrite app_nil_r. split_and!; [done|by constructor|exact Hr].
    + destruct Hr as (v & s1 & -> & Hv & Hr). exists (c :: v), s1. split_and!; [done| |].
      * constructor; [|done]. unfold string_char. by rewrite Hnl, Hq.
      * cbn in Hr. by rewrite <-app_assoc in Hr.
  - destruct (isspace c) eqn:Hc; [injection Hstep as <- <-|].
    { pose proof (space_sound p c s ds ltac:(by rewrite Hp) Hc Hr) as Hok. unfold rest_ok in Hok. by rewrite Hp in Hok. }
    destruct (Ascii.eqb c ";"%char) eqn:Hq; [|done]. cbn [negb] in Hstep. apply Ascii.eqb_eq in Hq as ->.
    destruct (valid_directive _) eqn:Hd; [|done]. injection Hstep as <- <-.
    exists [], s, ds. split_and!; [done|apply blanks_nil|done|done|exact Hr].
  - destruct (isalnum c) eqn:Hal; [injection Hstep as <- <-|].
    + destruct Hr as (kw & c' & s1 & -> & Hkw & Hc' & Hr). exists (c :: kw), c', s1. cbn in Hr. rewrite <-app_assoc in Hr.
      split_and!; [done|by constructor|done|exact Hr].
    + destruct (isspace c) eqn:Hc; [|done]. injection Hstep as <- <-. exists [], c, s. rewrite app_nil_r.
      split_and!; [done|by constructor|done|exact Hr].
Qed.

(** One step of a comment. *)
Lemma comment_step_sound c p q out s ds :
  conf_step c p = Some (q, out) -> comment_ok p -> rest_ok q s ds ->
  cn_state p ∈ [ST_COMMENT_0; ST_COMMENT_1; ST_COMMENT_2] -> rest_ok p (c :: s) (out ++ ds).
Proof.
  intros Hstep Hcm Hr Hst. unfold rest_ok. destruct (cn_state p) eqn:Hp; try (exfalso; by set_solver).
  - unfold conf_step in Hstep. rewrite Hp in Hstep. cbn in Hstep. destruct (Ascii.eqb c "*"%char) eqn:Hc; [|done].
    injection Hstep as <- <-. apply Ascii.eqb_eq in Hc as ->. exists s. split; [done|]. by destruct (cn_comment p).
  - rewrite (comment_1_step _ _ Hp) in Hstep. injection Hstep as <- <-. destruct (Ascii.eqb c "*"%char) eqn:Hc.
    + apply Ascii.eqb_eq in Hc as ->. exact Hr.
    + unfold rest_ok in Hr. rewrite Hp in Hr. destruct Hr as (b & s' & Hs & Hb & Hr). cbn [app] in Hs. subst s.
      exists (c :: b), s'. split_and!; [done| |done]. cbn [no_close]. by rewrite Hc, Hb.
  - rewrite (comment_2_step _ _ Hp) in Hstep. injection Hstep as <- <-. destruct (Ascii.eqb c "/"%char) eqn:Hsl.
    + apply Ascii.eqb_eq in Hsl as ->. exists [], s. split_and!; [done|done|].
      by apply (rest_of_blank (conf_goto p (cn_comment p))).
    + destruct (Ascii.eqb c "*"%char) eqn:Hc.
      * apply Ascii.eqb_eq in Hc as ->. unfold rest_ok in Hr. rewrite Hp in Hr. destruct Hr as (b & s' & Hs & Hb & Hr).
        exists ("*"%char :: b), s'. cbn in Hs. cbn [app cs list_ascii_of_string]. rewrite Hs. split_and!; [done| |done].
        cbn [no_close]. rewrite Hb. destruct b as [|c b]; [done|]. by injection Hs as <- _.
      * destruct Hr as (b & s' & Hs & Hb & Hr). cbn [app] in Hs. subst s. exists ("*"%char :: c :: b), s'.
        split_and!; [done| |done]. cbn [no_close starts_slash]. by rewrite Hb, Hc, Hsl, andb_false_r.
Qed.

Lemma conf_step_comment_ok c p q out : conf_step c p = Some (q, out) -> comment_ok p -> comment_ok q.
Proof.
  unfold conf_step, comment_ok. intros Hstep Hp.
  destruct (blank_state (cn_state p) && Ascii.eqb c "/"%char) eqn:Hsl.
  { apply andb_prop in Hsl as [Hb _]. by injection Hstep as <- <-. }
  by repeat (case_match; try done); injection Hstep as <- <-.
Qed.

Lemma conf_run_sound s p ds : comment_ok p -> conf_run p s = Some ds -> rest_ok p s ds.
Proof.
  revert p ds. induction s as [|c s IH]; intros p ds Hp Hrun; cbn [conf_run] in Hrun.
  - case_decide as Hst; [|done]. injection Hrun as <-. unfold rest_ok. rewrite Hst. split; [|constructor].
    by apply config_end, blanks_nil.
  - apply bind_Some in Hrun as ([q out] & Hstep & (ds' & Hrun & [= <-])%bind_Some). cbn in Hrun.
    assert (Hr : rest_ok q s ds') by by eapply IH; [eapply conf_step_comment_ok|].
    destruct (decide (cn_state p ∈ [ST_COMMENT_0; ST_COMMENT_1; ST_COMMENT_2])).
    + by eapply comment_step_sound.
    + eapply directive_step_sound; [done|done|]. destruct (cn_state p); set_solver.
Qed.

(** The machine accepts exactly the grammar. *)
Lemma conf_run_config s ds : conf_run conf_start s = Some ds <-> accepts s ds.
Proof.
  split.
  - intros Hs. by apply (conf_run_sound s conf_start).
  - intros Hs. by apply conf_run_complete.
Qed.

(** ** The program follows the machine *)

Section conf_facts.
Context `{AvlTree cstr, !AvlLaws cstr} `{DM : DataModel}.
Implicit Types (mc : mancheck) (e : tool_env mancheck).

(** The three sets hold the patterns. *)
Definition holds_patterns mc (ps : patterns) : Prop :=
  let '(includes, excludes, pages) := ps in
  strset_seq STRSET_IGNORE_DUPLICATES (mc_section_includes mc) includes /\
  strset_seq STRSET_IGNORE_DUPLICATES (mc_section_excludes mc) excludes /\
  strset_seq STRSET_IGNORE_DUPLICATES (mc_page_excludes mc) pages.

(** Only the three sets have changed. *)
Definition patterns_only e e' : Prop :=
  te_stdout e' = te_stdout e /\
  te_state e' = set_patterns (te_state e) (mc_section_includes (te_state e')) (mc_section_excludes (te_state e'))
                  (mc_page_excludes (te_state e')).

#[export] Instance patterns_only_preorder : PreOrder patterns_only.
Proof.
  split.
  - intros e. split; [done|]. by destruct (te_state e).
  - intros e1 e2 e3 [Ho1 Hs1] [Ho2 Hs2]. split; [congruence|].
    rewrite Hs2 at 1. rewrite Hs1. done.
Qed.

Definition locals_hold (l : config_locals) (p : conf_state) : Prop :=
  cl_state l = cn_state p /\ cl_comment_state l = cn_comment p /\ cl_type l = cn_sign p /\
  custr_text (cl_keyword l) (cn_keyword p) /\ custr_text (cl_value l) (cn_value p) /\ is_cstr (cn_keyword p).

Lemma c_text_fits v : Zlen (c_text v) <= Zlen v.
Proof. unfold Zlen. pose proof (c_text_length v). lia. Qed.

Lemma conf_directive_run l p ps e :
  locals_hold l p -> Zlen (cn_value p) + 2 <= CUSTR_MAX -> holds_patterns (te_state e) ps ->
  let d := Directive (cn_sign p) (cn_keyword p) (cn_value p) in
  run (config_directive l)
    (fun _ e' => valid_directive d = true /\ holds_patterns (te_state e') (add_directive ps d) /\ patterns_only e e')
    (fun st => st = 1 /\ valid_directive d = false) e.
Proof.
  intros (_ & _ & Hsign & Hk & Hv & Hkc) Hlen Hps d. destruct ps as [[includes excludes] pages]. destruct Hps as (Hi & Hx & Hp).
  assert (Hok : str_ok (c_text (cn_value p))).
  { unfold str_ok, CUSTR_MAX, HEAP_HI in *. pose proof (c_text_fits (cn_value p)). lia. }
  unfold config_directive. apply run_bind. eapply run_custr_cstr; [exact Hk|].
  apply run_bind. eapply run_custr_cstr; [exact Hv|]. rewrite c_text_id by done. run_steps.
  unfold valid_directive, add_directive. cbn [d_keyword d_sign d_value d]. rewrite Hsign.
  destruct (Z.eqb_spec (strcmp (cn_keyword p) (cs "section")) 0) as [Hs%strcmp_eq|Hs].
  - rewrite bool_decide_true by done. cbn [orb].
    destruct (Ascii.eqb (cn_sign p) "+"%char); apply run_bind; (eapply run_add_or_exit; [done|done|]); intros a Ha;
      apply run_put_state; (split; [done|]); cbn; (split_and!; [done|done|done|]); done.
  - rewrite strcmp_eq in Hs. rewrite (bool_decide_false (cn_keyword p = cs "section")) by done. cbn [orb].
    destruct (Z.eqb_spec (strcmp (cn_keyword p) (cs "page")) 0) as [Hg%strcmp_eq|Hg].
    + rewrite bool_decide_true by done. destruct (Ascii.eqb (cn_sign p) "+"%char); [by apply run_exit|].
      apply run_bind. eapply run_add_or_exit; [done|done|]. intros a Ha.
      apply run_put_state. split; [done|]. cbn. by split_and!.
    + rewrite strcmp_eq in Hg. rewrite bool_decide_false by done. by apply run_exit.
Qed.

Lemma run_appendc_or_exit cu t c (Q : custr -> tool_env mancheck -> Prop) X e :
  custr_text cu t -> Zlen t + 2 <= CUSTR_MAX ->
  (forall cu', custr_text cu' (t ++ [c]) -> Q cu' e) -> run (appendc_or_exit cu c) Q X e.
Proof. intros Hcu Hl HQ. apply run_bind. eapply run_appendc; [done|done|]. intros cu' Hcu'. by apply run_ret, HQ. Qed.

(** What one character does. *)
Definition char_post (c : char) (p : conf_state) (ps : patterns) e (l' : config_locals) e' : Prop :=
  exists q out, conf_step c p = Some (q, out) /\ locals_hold l' q /\
    holds_patterns (te_state e') (foldl add_directive ps out) /\ patterns_only e e'.

Lemma char_quiet c p q ps e l' :
  conf_step c p = Some (q, []) -> locals_hold l' q -> holds_patterns (te_state e) ps -> char_post c p ps e l' e.
Proof. intros Hs Hl Hps. by exists q, []. Qed.

Lemma isalnum_nul c : isalnum c = true -> c <> NUL.
Proof. intros Hc ->. done. Qed.

(** Evaluates a step from the equations at hand. *)
Ltac conf_eval :=
  unfold conf_step;
  repeat match goal with
  | Heq : ?b = _ |- context [?b] =>
      lazymatch type of Heq with
      | _ = true => rewrite Heq
      | _ = false => rewrite Heq
      | cn_state _ = _ => rewrite Heq
      end
  end; try reflexivity.

(** The local variables after a step. *)
Ltac locals_ok := first [eassumption | by split_and!].

Lemma conf_char_run l p c ps e :
  locals_hold l p -> Zlen (cn_keyword p) + 2 <= CUSTR_MAX -> Zlen (cn_value p) + 2 <= CUSTR_MAX ->
  holds_patterns (te_state e) ps ->
  run (config_char 2 c l) (char_post c p ps e) (fun st => st = 1 /\ conf_step c p = None) e.
Proof.
  intros Hl Hkl Hvl Hps. pose proof Hl as (Hst & Hcm & Hsg & Hk & Hv & Hkc).
  assert (Hquiet : forall q l', conf_step c p = Some (q, []) -> locals_hold l' q -> run (mret l') (char_post c p ps e)
    (fun st => st = 1 /\ conf_step c p = None) e) by (intros; by eapply run_ret, char_quiet).
  assert (Hexit : conf_step c p = None -> run (c_exit 1) (char_post c p ps e) (fun st => st = 1 /\ conf_step c p = None) e)
    by (intros; by apply run_exit).
  unfold config_char at 1. rewrite Hst. fold (blank_state (cn_state p)).
  destruct (blank_state (cn_state p) && Ascii.eqb c "/"%char) eqn:Hsl.
  { eapply Hquiet; [conf_eval|]. by rewrite Hsg. }
  destruct (cn_state p) eqn:Hp; cbn [config_char].
  - destruct (isspace c) eqn:Hc; [eapply Hquiet; [conf_eval|done]|]. fold (sign_char c).
    destruct (sign_char c) eqn:Hs; [|apply Hexit; conf_eval].
    apply run_bind. eapply run_custr_reset; [done|]. intros k' Hk'.
    apply run_bind. eapply run_custr_reset; [done|]. intros v' Hv'.
    eapply Hquiet; [conf_eval|]. split_and!; try done; apply is_cstr_nil.
  - destruct (Ascii.eqb c "*"%char) eqn:Hc; [eapply Hquiet; [conf_eval|locals_ok]|apply Hexit; conf_eval].
  - destruct (Ascii.eqb c "*"%char) eqn:Hc; (eapply Hquiet; [conf_eval|locals_ok]).
  - destruct (Ascii.eqb c "/"%char) eqn:Hc; [eapply Hquiet; [conf_eval|locals_ok]|].
    cbn [with_state cl_state]. rewrite bool_decide_false by set_solver. cbn [andb].
    destruct (Ascii.eqb c "*"%char) eqn:Hs; (eapply Hquiet; [conf_eval|locals_ok]).
  - destruct (isspace c) eqn:Hc; [eapply Hquiet; [conf_eval|done]|].
    destruct (Ascii.eqb c QUOTE) eqn:Hq; [|apply Hexit; conf_eval].
    apply run_bind. eapply run_custr_reset; [done|]. intros v' Hv'. eapply Hquiet; [conf_eval|]. locals_ok.
  - destruct (Ascii.eqb c LF || Ascii.eqb c (chr 13)) eqn:Hnl; [apply Hexit; conf_eval|].
    destruct (Ascii.eqb c QUOTE) eqn:Hq; [eapply Hquiet; [conf_eval|locals_ok]|].
    apply run_bind. eapply run_appendc_or_exit; [done|done|]. intros v' Hv'. eapply Hquiet; [conf_eval|]. locals_ok.
  - destruct (isspace c) eqn:Hc; [eapply Hquiet; [conf_eval|done]|].
    destruct (Ascii.eqb c ";"%char) eqn:Hq; [|apply Hexit; conf_eval]. cbn [negb].
    apply run_bind. eapply run_mono; [by apply conf_directive_run| |].
    + intros [] e' (Hd & Hps' & He'). apply run_ret. eexists _, _. split; [conf_eval|]. locals_ok.
    + intros st [-> Hd]. split; [done|]. conf_eval.
  - destruct (isalnum c) eqn:Hal.
    + apply run_bind. eapply run_appendc_or_exit; [done|done|]. intros k' Hk'. eapply Hquiet; [conf_eval|].
      split_and!; try done. cbn. apply is_cstr_snoc; [done|by apply isalnum_nul].
    + destruct (isspace c) eqn:Hsp; [|apply Hexit; conf_eval]. apply run_bind. eapply run_custr_cstr; [exact Hk|].
      cbn [with_state cl_state]. destruct (isspace_not c Hsp) as (-> & _). rewrite andb_false_r.
      eapply Hquiet; [conf_eval|locals_ok].
Qed.

Lemma conf_step_lengths c p q out :
  conf_step c p = Some (q, out) ->
  Zlen (cn_keyword q) <= Zlen (cn_keyword p) + 1 /\ Zlen (cn_value q) <= Zlen (cn_value p) + 1.
Proof.
  pose proof (Zlen_nonneg (cn_keyword p)). pose proof (Zlen_nonneg (cn_value p)).
  unfold conf_step. repeat case_match; intros [= <- <-]; cbn [cn_keyword cn_value conf_goto]; zlen.
Qed.

Lemma config_loop_run chars l p ps e :
  locals_hold l p -> Zlen (cn_keyword p) + Zlen chars + 2 <= CUSTR_MAX -> Zlen (cn_value p) + Zlen chars + 2 <= CUSTR_MAX ->
  holds_patterns (te_state e) ps ->
  run (config_loop chars 0 l)
    (fun _ e' => exists ds, conf_run p chars = Some ds /\
       holds_patterns (te_state e') (foldl add_directive ps ds) /\ patterns_only e e')
    (fun st => st = 1 /\ conf_run p chars = None) e.
Proof.
  revert l p ps e. induction chars as [|c chars IH]; intros l p ps e Hl Hk Hv Hps; cbn [config_loop conf_run].
  - run_steps. cbn [negb Z.eqb]. destruct Hl as (Hst & _). rewrite <-Hst. case_decide; [|by apply run_exit].
    apply run_ret. by exists [].
  - run_steps. rewrite Zlen_cons in *. pose proof (Zlen_nonneg chars).
    eapply run_mono; [apply conf_char_run; [exact Hl|lia|lia|exact Hps]| |].
    + intros l' e' (q & out & Hs & Hl' & Hps' & He'). rewrite Hs. cbn [mbind option_bind fst snd].
      apply conf_step_lengths in Hs as [? ?].
      eapply run_mono; [apply (IH l' q); [done|lia|lia|exact Hps']| |].
      * intros [] e2 (ds & -> & Hds & He2). exists (out ++ ds). cbn. split; [done|].
        rewrite foldl_app. split; [done|by etrans].
      * intros st [-> ->]. by split.
    + by intros st [-> ->].
Qed.
End conf_facts.

Section conf_file.
Context `{AvlTree cstr, !AvlLaws cstr} `{DM : DataModel} `{FileSystem}.

(** C21: [read_config_file] accepts exactly the files of the grammar with valid directives, and
    adds their patterns to the three sets, in the order of the file; on any other file the
    program exits with status 1. *)
Theorem read_config_file_grammar (path : cstr) (f : char_file) (ss : strset) (ps : patterns) (e : tool_env mancheck) :
  fs_fopen path = inr f -> char_file_regular f = true -> cf_errno f = 0 -> Zlen (cf_chars f) + 3 <= CUSTR_MAX ->
  holds_patterns (te_state e) ps ->
  run (read_config_file ss path)
    (fun r e' => r = (STRSET_WALK_NEXT, ss) /\ exists ds, accepts (cf_chars f) ds /\
       holds_patterns (te_state e') (foldl add_directive ps ds) /\ patterns_only e e')
    (fun st => st = 1 /\ forall ds, ~ accepts (cf_chars f) ds) e.
Proof.
  intros Hf Hreg Herr Hlen Hps. unfold read_config_file. apply run_bind, run_custr_alloc. intros k Hk.
  apply run_bind, run_custr_alloc. intros v Hv. cbn beta iota. rewrite Hf, Hreg, Herr. cbn [negb].
  apply run_bind. eapply run_mono; [apply (config_loop_run _ _ conf_start ps)| |].
  - split_and!; done || apply is_cstr_nil.
  - change (Zlen (cn_keyword conf_start)) with 0. lia.
  - change (Zlen (cn_value conf_start)) with 0. lia.
  - exact Hps.
  - intros [] e' (ds & Hds & Hps' & He'). apply run_ret. split; [done|]. exists ds. by rewrite <-conf_run_config.
  - intros st [-> Hnone]. split; [done|]. intros ds Hds. by apply conf_run_config in Hds; congruence.
Qed.
End conf_file.

(** ** A configuration file *)

Definition sample_config : char_file :=
  CharFile (Some 33188)
    (cs "/** whole sections **/" ++ [LF] ++ cs "+section " ++ quoted "8*" ++ cs ";" ++ [LF] ++
     cs "-page /* not ours */ " ++ quoted "sendmail.*" ++ cs " ;" ++ [LF] ++ cs "+section " ++ quoted "1" ++ cs ";" ++ [LF]) 0.

(** A file system with one configuration file. *)
Definition config_fs (f : char_file) : FileSystem := {|
  fs_stat _ := inl ENOENT;
  fs_lstat _ := inl ENOENT;
  fs_opendir _ := inl ENOENT;
  fs_readlink _ := inl ENOENT; fs_open _ := inl ENOENT;
  fs_manifest _ := inl ENOENT;
  fs_fopen _ := inr f
|}.

Definition empty_set `{AvlTree cstr} (flags : Z) : strset := Strset (avl_create (strset_comparator None)) flags 0 None.

Definition empty_mancheck `{AvlTree cstr} : mancheck :=
  Mancheck 0 None (empty_set 1) 0 0 0 (empty_set 0) (empty_set 1) (empty_set 1) (empty_set 1).

Lemma read_config_file_grammar_witness :
  let H := list_avl cstr in
  run (@read_config_file H LP64 (config_fs sample_config) (empty_set 1) (cs "f"))
    (fun r e' => r = (STRSET_WALK_NEXT, empty_set 1) /\
       holds_patterns (te_state e') ([cs "1"; cs "8*"], [], [cs "sendmail.*"]))
    never (ToolEnv [] empty_mancheck).
Proof.
  cbn zeta. eapply run_mono.
  - apply (@read_config_file_grammar (list_avl cstr) (list_avl_laws cstr) LP64 (config_fs sample_config) (cs "f") sample_config
      (@empty_set (list_avl cstr) 1) ([], [], []) (ToolEnv [] (@empty_mancheck (list_avl cstr)))).
    + done.
    + done.
    + done.
    + by vm_compute.
    + done.
  - intros r e' (-> & ds & Hds%conf_run_config & Hps & _). split; [done|]. revert Hds. vm_compute. by intros [= <-].
  - intros st [-> Hno].
    destruct (conf_run conf_start (cf_chars sample_config)) as [ds|] eqn:Hds; [|by vm_compute in Hds].
    by apply (Hno ds), conf_run_config.
Defined.
