(* ===== verification/MancheckSpec.v ===== *)
(** * MancheckSpec: what mancheck finds and reports

    From the entries of the manifest, the patterns and the file system: the commands without a
    manual page, the pages of commands that are not shipped, and the pages of whole sections that
    are not shipped.  [run_checks] prints exactly these, with their numbers, and its status says
    whether there are any. *)
From Stdlib Require Import Lia.
From S2P Require Import Prelude Cnum Custr Parser Avl Manifest Strset Tools Run Mancheck MancheckConf.

(** ** The findings *)

Section finding_defs.
Context `{DM : DataModel} `{FileSystem} (fnmatch : cstr -> cstr -> Z -> Z).

(** The names of the files among the entries, of those that are manual pages, and of the commands. *)
Definition file_names (es : list manifest_ent) : list cstr :=
  omap (fun me => if is_file_type (me_type me) then me_name me else None) es.
Definition is_page_name (name : cstr) : bool := strncmp name cm_pdir (Zlen cm_pdir) =? 0.
Definition page_names (es : list manifest_ent) : list cstr := filter (fun n => is_page_name n) (file_names es).
Definition command_names (es : list manifest_ent) : list cstr := filter (fun n => in_dir n) (file_names es).

Definition man_dir : cstr := cs "proto/usr/share/man".

(** The manual pages of a command that are in the proto area. *)
Definition page_in (name sect : cstr) : list cstr :=
  let base := basename (str_fit MAXPATHLEN name) in
  match fs_stat (str_fit MAXPATHLEN (man_dir ++ cs "/man" ++ sect ++ cs "/" ++ base ++ cs "." ++ sect)) with
  | inr (mode, _) =>
      if mode_is S_IFREG mode then [str_fit MAXPATHLEN (cs "man" ++ sect ++ cs "/" ++ base ++ cs "." ++ sect)] else []
  | inl _ => []
  end.
Definition pages_of (name : cstr) : list cstr := seq_of (cm_mansects ≫= page_in name).

Definition is_shipped (shipped : list cstr) (page : cstr) : bool :=
  bool_decide (str_fit MAXPATHLEN (cm_pdir ++ cs "/" ++ page) ∈ shipped).

(** The pages of a command that are not shipped. *)
Definition unshipped_of (shipped : list cstr) (name : cstr) : list cstr :=
  filter (fun p => is_shipped shipped p = false) (pages_of name).

Definition has_no_page (name : cstr) : bool := bool_decide (pages_of name = []).

Definition missing_commands (es : list manifest_ent) : list cstr := filter (fun n => has_no_page n) (command_names es).
Definition unshipped_pages (es : list manifest_ent) : list cstr := command_names es ≫= unshipped_of (page_names es).

Definition pattern_matches (pats : list cstr) (s : cstr) : bool := existsb (fun p => fnmatch p s FNM_PATHNAME =? 0) pats.

(** The sections that are to be shipped whole, from the names in the manual page directory. *)
Definition is_whole (includes excludes : list cstr) (d_name : cstr) : bool :=
  negb (special_name d_name) && (strncmp d_name (cs "man") 3 =? 0) &&
  negb (pattern_matches excludes (drop 3 d_name)) && pattern_matches includes (drop 3 d_name).
Definition whole_sects (includes excludes : list cstr) (names : list cstr) : list cstr :=
  seq_of (drop 3 <$> filter (fun n => is_whole includes excludes n) names).

(** The pages of a directory that are not shipped, up to a name that [lstat] fails on. *)
Fixpoint unshipped_in (shipped pages : list cstr) (sect : cstr) (names : list cstr) : list cstr :=
  match names with
  | [] => []
  | n :: names =>
      if special_name n then unshipped_in shipped pages sect names else
      let path := man_dir ++ cs "/man" ++ sect ++ cs "/" ++ n in
      match fs_lstat path with
      | inl _ => []
      | inr (mode, _) =>
          if negb (mode_is S_IFREG mode) && negb (mode_is S_IFLNK mode) || pattern_matches pages n ||
             bool_decide (cm_pdir ++ cs "/man" ++ sect ++ cs "/" ++ n ∈ shipped)
          then unshipped_in shipped pages sect names
          else path :: unshipped_in shipped pages sect names
      end
  end.

Definition sect_dir (sect : cstr) : cstr := man_dir ++ cs "/man" ++ sect.

Definition unshipped_sect (shipped pages : list cstr) (sect : cstr) : list cstr :=
  match fs_opendir (sect_dir sect) with
  | inl _ => []
  | inr (names, _) => unshipped_in shipped pages sect names
  end.

(** ** The report *)

Definition missing_line (name : cstr) : cstr := cs "missing manual page for /" ++ name ++ [LF].
Definition unshipped_line (name page : cstr) : cstr :=
  cs "binary /" ++ name ++ cs " has unshipped manual page: " ++ page ++ [LF].
Definition whole_line (sect path : cstr) : cstr := cs "section " ++ sect ++ cs " page not shipped: " ++ path ++ [LF].

(** Lines that are printed only if the flag is set. *)
Definition flagged (flags flag : Z) (lines : list cstr) : list cstr := if flag_set flags flag then lines else [].

Definition command_lines (flags : Z) (shipped : list cstr) (name : cstr) : list cstr :=
  if has_no_page name then flagged flags MCF_DONT_EXIST [missing_line name]
  else flagged flags MCF_NOT_SHIPPED (unshipped_line name <$> unshipped_of shipped name).

Definition sect_lines (shipped pages : list cstr) (sect : cstr) : list cstr :=
  whole_line sect <$> unshipped_sect shipped pages sect.

(** The lines of the counts, after an empty one, and the status. *)
Definition counts (flags : Z) (whole missing unshipped : Z) : list (cstr * Z) :=
  filter (fun tc => 0 < tc.2)
    ((if flag_set flags MCF_WHOLE_SECTS then [(cs "unshipped manual pages from entirely shipped sections: ", whole)] else []) ++
     (if flag_set flags MCF_DONT_EXIST then [(cs "missing manual pages: ", missing)] else []) ++
     (if flag_set flags MCF_NOT_SHIPPED then [(cs "unshipped manual pages: ", unshipped)] else [])).
Definition count_lines (cts : list (cstr * Z)) : list cstr :=
  match cts with
  | [] => []
  | _ => [LF] :: ((fun tc => tc.1 ++ print_d tc.2 ++ [LF]) <$> cts)
  end.
Definition count_status (cts : list (cstr * Z)) : Z := match cts with [] => 0 | _ => 60 end.

Record findings := Findings { fd_lines : list cstr; fd_missing : Z; fd_unshipped : Z; fd_whole : Z }.

Definition all_findings (flags : Z) (es : list manifest_ent) (ps : patterns) (names : list cstr) : findings :=
  let '(includes, excludes, pages) := ps in
  let shipped := page_names es in
  let sects := whole_sects includes excludes names in
  Findings
    ((command_names es ≫= command_lines flags shipped) ++ (sects ≫= sect_lines shipped pages))
    (Zlen (missing_commands es)) (Zlen (unshipped_pages es)) (Zlen (sects ≫= unshipped_sect shipped pages)).

Definition finding_counts (flags : Z) (fd : findings) : list (cstr * Z) :=
  counts flags (fd_whole fd) (fd_missing fd) (fd_unshipped fd).
End finding_defs.

(** ** Names *)

Section names.
Context `{DM : DataModel}.

Lemma parse_entry_name line me :
  short line -> parse_entry line = Some (Some me) -> exists name, me_name me = Some name /\ short name.
Proof.
  intros Hline Hp. unfold parse_entry in Hp. pose proof (fun f => line_words_short line f Hline) as Hw.
  destruct (line_words line) as [|w0 words]; [done|]. destruct w0 as [|c [|? ?]]; try done.
  assert (Hlink : forall ty o, link_entry ty words = Some o -> exists name, me_name o = Some name /\ short name).
  { intros ty o Ho. unfold link_entry in Ho. destruct words as [|w [|? ?]]; try done.
    destruct (drop_last_empty (split_fields "="%char w)) as [|name [|target [|? ?]]] eqn:Hs; try done.
    destruct (bool_decide _ || bool_decide _); [done|]. injection Ho as <-. exists name. split; [done|].
    assert (Hin : name ∈ split_fields "="%char w).
    { destruct (split_fields "="%char w) as [|f fs]; [done|]. revert Hs. clear. revert f. induction fs as [|g fs IH]; intros f; cbn.
      - case_decide; [done|]. intros [= <- <-].
      - intros [= -> Hs]. by left. }
    apply split_fields_sub in Hin as [Hl Hc]. destruct (Hw w ltac:(by right; left)) as [[Hws Hwl] _]. split; [|lia].
    intros Hnul. by apply Hws, Hc. }
  assert (Hfile : forall ty o, file_entry ty words = Some o -> exists name, me_name o = Some name /\ short name).
  { intros ty o Ho. unfold file_entry in Ho. destruct words as [|name [|m [|u [|g [|? ?]]]]]; try done.
    apply bind_Some in Ho as (? & _ & [= <-]). exists name. split; [done|]. apply (Hw name). by right; left. }
  repeat case_match; try done; apply fmap_Some in Hp as (o & Ho & [= ->]); eauto.
Qed.

Lemma manifest_names lines es :
  Forall short lines -> manifest_entries lines = Some es ->
  Forall (fun me => exists name, me_name me = Some name /\ short name) es.
Proof.
  intros Hs. revert es. induction Hs as [|line lines Hline _ IH]; intros es Hes; cbn in Hes; [by injection Hes as <-|].
  apply bind_Some in Hes as (o & Ho & (es' & Hes & [= <-])%bind_Some). destruct o as [me|]; [|by apply IH].
  constructor; [by eapply parse_entry_name|by apply IH].
Qed.

Lemma short_str_ok s : short s -> str_ok s.
Proof. unfold short, str_ok, HEAP_HI. intros [_ ?]. lia. Qed.

Lemma text_fits_str_ok s : text_fits s -> str_ok s.
Proof. unfold text_fits, str_ok, HEAP_HI, CUSTR_MAX. intros (_ & ? & _). lia. Qed.

Lemma str_fit_ok s : str_ok (str_fit MAXPATHLEN s).
Proof. unfold str_ok, str_fit, HEAP_HI, MAXPATHLEN. zlen. Qed.
End names.

(** ** The walks over patterns *)

Section pattern_facts.
Context `{AvlTree cstr, !AvlLaws cstr} `{DM : DataModel} (fnmatch : cstr -> cstr -> Z -> Z).

(** [fnmatch] has no errors. *)
Definition fnmatch_ok : Prop := forall p s, fnmatch p s FNM_PATHNAME = 0 \/ fnmatch p s FNM_PATHNAME = FNM_NOMATCH.

Hypothesis Hfnmatch : fnmatch_ok.

Definition matching (input : cstr) (pats : list cstr) : list cstr := filter (fun p => fnmatch p input FNM_PATHNAME = 0) pats.

Lemma run_strset_fnmatch {E} flags ss pats input (Q : Z -> E -> Prop) X e :
  strset_seq flags ss pats -> Zlen pats <= INT_MAX ->
  Q (Zlen (matching input pats)) e -> run (strset_fnmatch fnmatch ss input) Q X e.
Proof.
  intros Hss Hlen HQ. unfold strset_fnmatch. apply run_bind, run_with_var.
  eapply run_mono; [eapply (run_strset_each _ _ pats ss (fun seen ev => ev = (e, Zlen (matching input seen))))| |done].
  - apply Hss.
  - by eapply walk_fuel_ok.
  - done.
  - intros pre p post ev Hl ->. cbn zeta. unfold strset_fnmatch_walker. unfold matching. rewrite list.filter_app, filter_cons.
    assert (Hb : 0 <= Zlen (filter (fun p => fnmatch p input FNM_PATHNAME = 0) pre) <= INT_MAX - 1).
    { split; [apply Zlen_nonneg|]. pose proof (length_filter (fun p => fnmatch p input FNM_PATHNAME = 0) pre).
      subst pats. autorewrite with zlen in Hlen. unfold Zlen in *. cbn [length] in *. lia. }
    destruct (Z.eqb_spec (fnmatch p input FNM_PATHNAME) 0) as [Hm|Hm].
    + rewrite decide_True by done. run_steps. split; [done|]. rewrite i32_small by (unfold INT_MIN, INT_MAX in *; lia).
      rewrite Zlen_app. done.
    + rewrite decide_False by done. destruct (Hfnmatch p input) as [|Hn]; [done|]. rewrite Hn. cbn.
      apply run_ret. split; [done|]. by rewrite app_nil_r.
  - intros [r ss'] ev [[= -> ->] ->]. cbn. by apply run_ret.
Qed.

Lemma matching_some input pats : (0 <? Zlen (matching input pats)) = pattern_matches fnmatch pats input.
Proof.
  unfold pattern_matches, matching. induction pats as [|p pats IH]; [done|]. rewrite filter_cons. cbn [existsb].
  destruct (Z.eqb_spec (fnmatch p input FNM_PATHNAME) 0) as [Hm|Hm].
  - rewrite decide_True by done. cbn. rewrite Zlen_cons. pose proof (Zlen_nonneg (filter (fun p => fnmatch p input FNM_PATHNAME = 0) pats)). lia.
  - by rewrite decide_False.
Qed.

Lemma matching_none input pats : (Zlen (matching input pats) <? 1) = negb (pattern_matches fnmatch pats input).
Proof. rewrite <-matching_some. lia. Qed.
End pattern_facts.

(** ** The checks of one command *)

Section command_facts.
Context `{AvlTree cstr, !AvlLaws cstr} `{DM : DataModel} `{FileSystem} (strerror : Z -> cstr).
Implicit Types (mc : mancheck) (e : tool_env mancheck).

Lemma run_check_sects base sects flags pages l (Q : strset -> tool_env mancheck -> Prop) X e :
  flags = STRSET_IGNORE_DUPLICATES -> strset_seq flags pages l ->
  (forall pages', strset_seq flags pages' (foldl (fun l s => seq_add s l) l (sects ≫= fun sect =>
     match fs_stat (str_fit MAXPATHLEN (man_dir ++ cs "/man" ++ sect ++ cs "/" ++ base ++ cs "." ++ sect)) with
     | inr (mode, _) =>
         if mode_is S_IFREG mode then [str_fit MAXPATHLEN (cs "man" ++ sect ++ cs "/" ++ base ++ cs "." ++ sect)] else []
     | inl _ => []
     end)) -> Q pages' e) ->
  run (check_sects man_dir base sects pages) Q X e.
Proof.
  intros ->. revert pages l. induction sects as [|sect sects IH]; intros pages l Hp HQ; cbn [check_sects mbind list_bind] in *.
  { by apply run_ret, HQ. }
  apply run_bind. destruct (fs_stat _) as [er|[mode ino]].
  - run_steps. by eapply IH.
  - destruct (mode_is S_IFREG mode).
    + eapply run_add_or_exit; [done|apply str_fit_ok|]. intros pages' Hp'. by eapply IH.
    + apply run_ret. by eapply IH.
Qed.

(** A command has a page in two sections at most. *)
Lemma pages_of_few name : Zlen (pages_of name) <= INT_MAX.
Proof.
  assert (Hsect : forall sect, (length (page_in name sect) <= 1)%nat)
    by (intros sect; unfold page_in; repeat case_match; cbn; lia).
  pose proof (seq_of_length (cm_mansects ≫= page_in name)) as Hle. unfold pages_of, Zlen, INT_MAX.
  unfold cm_mansects in *. cbn [mbind list_bind] in *. rewrite !length_app in Hle. cbn [length] in Hle.
  pose proof (Hsect (cs "1")). pose proof (Hsect (cs "8")). lia.
Qed.

Lemma run_check_man name pages l (Q : bool * strset -> tool_env mancheck -> Prop) X e :
  strset_seq STRSET_IGNORE_DUPLICATES pages l ->
  (forall pages', strset_seq STRSET_IGNORE_DUPLICATES pages' (pages_of name) ->
     Q (negb (has_no_page name), pages') e) ->
  run (check_man name pages) Q X e.
Proof.
  intros Hp HQ. unfold check_man. apply run_bind. eapply run_strset_reset; [exact Hp|]. intros p1 Hp1.
  apply run_bind. unfold check_mpaths, cm_mpaths. apply run_bind. eapply run_check_sects; [done|exact Hp1|].
  intros p2 Hp2. apply run_ret, run_ret. rewrite (seq_count_small _ _ _ Hp2) by apply pages_of_few.
  change (foldl _ [] _) with (pages_of name) in Hp2 |- *. specialize (HQ p2 Hp2). unfold has_no_page in HQ.
  destruct (pages_of name) as [|p ps]; [exact HQ|]. by assert (0 <? Zlen (p :: ps) = true) as -> by zlen.
Qed.

(** The names that are in the list of shipped pages. *)
Definition ships mc (shipped : list cstr) : Prop :=
  forall name, strset_contains (mc_shiplist mc) name = bool_decide (name ∈ shipped).

(** The state after [missing] and [unshipped] more findings. *)
Definition counted mc (missing unshipped whole : Z) : mancheck :=
  set_counts mc (mc_cnt_dont_exist mc + missing) (mc_cnt_not_shipped mc + unshipped) (mc_cnt_whole_sects mc + whole).

Definition counts_fit mc (missing unshipped whole : Z) : Prop :=
  0 <= mc_cnt_dont_exist mc /\ 0 <= mc_cnt_not_shipped mc /\ 0 <= mc_cnt_whole_sects mc /\
  0 <= missing /\ 0 <= unshipped /\ 0 <= whole /\
  mc_cnt_dont_exist mc + missing <= INT_MAX /\ mc_cnt_not_shipped mc + unshipped <= INT_MAX /\
  mc_cnt_whole_sects mc + whole <= INT_MAX.

Lemma counted_0 mc : counted mc 0 0 0 = mc.
Proof. unfold counted. rewrite !Z.add_0_r. by destruct mc. Qed.

Lemma env_0 (out : list cstr) mc : ToolEnv (out ++ []) (counted mc 0 0 0) = ToolEnv out mc.
Proof. by rewrite app_nil_r, counted_0. Qed.

Lemma counted_counted mc a b c a' b' c' : counted (counted mc a b c) a' b' c' = counted mc (a + a') (b + b') (c + c').
Proof. unfold counted, set_counts. cbn. by rewrite !Z.add_assoc. Qed.

Lemma run_check_shipped me name pages ss l shipped flags mc out X :
  me_name me = Some name -> strset_seq flags ss l -> mc_flags mc = pages -> ships mc shipped ->
  counts_fit mc 0 (Zlen (filter (fun p => is_shipped shipped p = false) l)) 0 ->
  run (strset_walk (walk_fuel ss) ss (check_shipped me))
    (fun r e' => r = (0, ss) /\ e' = ToolEnv
       (out ++ flagged pages MCF_NOT_SHIPPED (unshipped_line name <$> filter (fun p => is_shipped shipped p = false) l))
       (counted mc 0 (Zlen (filter (fun p => is_shipped shipped p = false) l)) 0)) X (ToolEnv out mc).
Proof.
  intros Hme Hss Hfl Hship Hfit. eapply run_mono; [eapply (run_strset_each _ _ l ss (fun seen e' => e' = ToolEnv
    (out ++ flagged pages MCF_NOT_SHIPPED (unshipped_line name <$> filter (fun p => is_shipped shipped p = false) seen))
    (counted mc 0 (Zlen (filter (fun p => is_shipped shipped p = false) seen)) 0)))| |done]; [apply Hss|by eapply walk_fuel_ok| | |done].
  { f_equal; [|symmetry; apply counted_0]. unfold flagged. case_match; symmetry; apply app_nil_r. }
  intros pre p post e Hl ->. cbn zeta. unfold check_shipped. run_steps. cbn [counted set_counts mc_shiplist].
  rewrite Hship. fold (is_shipped shipped p). rewrite !list.filter_app, filter_cons.
  destruct (is_shipped shipped p) eqn:Hp.
  { rewrite decide_False by done. apply run_ret. split; [done|]. by rewrite app_nil_r. }
  rewrite decide_True, filter_nil by done. set (n := Zlen (filter _ pre)).
  assert (Hn : 0 <= n /\ mc_cnt_not_shipped mc + (n + 1) <= INT_MAX).
  { split; [apply Zlen_nonneg|]. unfold counts_fit in Hfit. subst l. rewrite list.filter_app, filter_cons, decide_True in Hfit by done.
    autorewrite with zlen in Hfit. fold n in Hfit.
    pose proof (Zlen_nonneg (filter (fun p => is_shipped shipped p = false) post)). lia. }
  unfold counts_fit in Hfit. pose proof UINT_MAX as _.
  assert (Hsz : sz (mc_cnt_not_shipped mc + n + 1) = mc_cnt_not_shipped mc + (n + 1))
    by (rewrite sz_small32 by (unfold INT_MAX, UINT_MAX in *; lia); lia).
  run_steps. cbn [set_counts mc_flags mc_cnt_not_shipped counted]. rewrite Hsz, Hfl. unfold flagged.
  destruct (flag_set pages MCF_NOT_SHIPPED).
  - apply run_bind. eapply run_access; [exact Hme|]. run_steps. split; [done|].
    rewrite <-app_assoc, fmap_app, Zlen_app. done.
  - run_steps. split; [done|]. by rewrite Zlen_app.
Qed.

Lemma run_check_command me name pages l shipped flags mc out X :
  me_name me = Some name -> strset_seq STRSET_IGNORE_DUPLICATES pages l -> mc_flags mc = flags -> ships mc shipped ->
  in_dir name = true ->
  counts_fit mc (if has_no_page name then 1 else 0) (Zlen (unshipped_of shipped name)) 0 ->
  run (check_command me pages)
    (fun _ e' => e' = ToolEnv (out ++ command_lines flags shipped name)
       (counted mc (if has_no_page name then 1 else 0) (Zlen (unshipped_of shipped name)) 0)) X (ToolEnv out mc).
Proof.
  intros Hme Hp Hfl Hship Hdir Hfit. unfold check_command. apply run_bind. eapply run_access; [exact Hme|]. rewrite Hdir. cbn [negb].
  apply run_bind. eapply run_check_man; [exact Hp|]. intros pages' Hp'. cbn beta iota. unfold command_lines.
  destruct (has_no_page name) eqn:Hno; cbn [negb].
  - run_steps. unfold counts_fit in Hfit. unfold has_no_page in Hno. apply bool_decide_eq_true in Hno.
    unfold unshipped_of. rewrite Hno, filter_nil, Zlen_nil.
    assert (Hsz : sz (mc_cnt_dont_exist mc + 1) = mc_cnt_dont_exist mc + 1)
      by (apply sz_small32; unfold INT_MAX, UINT_MAX in *; lia).
    rewrite Hsz. unfold counted. rewrite !Z.add_0_r, Hfl. unfold flagged.
    destruct (flag_set flags MCF_DONT_EXIST); run_steps; [done|by rewrite app_nil_r].
  - apply run_bind. eapply run_mono; [by eapply (run_check_shipped me name flags pages' (pages_of name) shipped)| |done].
    intros [r ss] e' [[= -> ->] ->]. by apply run_VERIFY.
Qed.

Lemma run_check_manifest_ent me name shipped flags mc out X :
  me_name me = Some name -> mc_flags mc = flags -> ships mc shipped ->
  counts_fit mc (Zlen (missing_commands [me])) (Zlen (command_names [me] ≫= unshipped_of shipped)) 0 ->
  run (check_manifest_ent strerror me)
    (fun r e' => r = MECB_NEXT /\ e' = ToolEnv (out ++ (command_names [me] ≫= command_lines flags shipped))
       (counted mc (Zlen (missing_commands [me])) (Zlen (command_names [me] ≫= unshipped_of shipped)) 0)) X (ToolEnv out mc).
Proof.
  intros Hme Hfl Hship Hfit. unfold check_manifest_ent. apply run_bind, run_strset_alloc; [done|]. intros pages Hp. cbn beta iota.
  change (negb (0 =? 0)) with false. cbn beta iota. apply run_bind. revert Hfit.
  unfold missing_commands, command_names, file_names. cbn [omap list_omap]. destruct (is_file_type (me_type me)); rewrite ?Hme; cbn [filter list_filter].
  - destruct (in_dir name) eqn:Hdir.
    + rewrite (decide_True (P := Is_true true)) by done. cbn [filter list_filter mbind list_bind]. rewrite app_nil_r. intros Hfit.
      assert (Hm : Zlen (if decide (has_no_page name) then [name] else []) = if has_no_page name then 1 else 0)
        by by destruct (has_no_page name).
      rewrite Hm in *. eapply run_mono; [by eapply (run_check_command me name pages [] shipped flags)| |done].
      intros [] e' ->. apply run_ret. by rewrite app_nil_r.
    + rewrite (decide_False (P := Is_true false)) by (by intros []). intros _. cbn.
      unfold check_command. apply run_bind. eapply run_access; [exact Hme|]. rewrite Hdir. cbn [negb]. run_steps. split; [done|].
      by rewrite app_nil_r, !Zlen_nil, counted_0.
  - intros _. run_steps. split; [done|]. cbn. by rewrite app_nil_r, !Zlen_nil, counted_0.
Qed.
End command_facts.

(** Arithmetic of the counts. *)
Ltac counts_lia :=
  unfold counts_fit, counted, set_counts, set_shiplist in *;
  cbn [mc_cnt_dont_exist mc_cnt_not_shipped mc_cnt_whole_sects] in *; lia.

(** ** Whole sections *)

Section whole_facts.
Context `{AvlTree cstr, !AvlLaws cstr} `{DM : DataModel} `{FileSystem} (fnmatch : cstr -> cstr -> Z -> Z) (strerror : Z -> cstr).
Hypothesis Hfnmatch : fnmatch_ok fnmatch.
Implicit Types (mc : mancheck) (e : tool_env mancheck).

Definition has_pages mc (pages : list cstr) : Prop :=
  strset_seq STRSET_IGNORE_DUPLICATES (mc_page_excludes mc) pages /\ Zlen pages <= INT_MAX.

(** The names of a directory of a section are short enough for the strings they are put into. *)
Definition sect_names_ok (sect : cstr) (names : list cstr) : Prop :=
  Forall (fun n => text_fits (sect_dir sect ++ cs "/" ++ n) /\ text_fits (cm_pdir ++ cs "/man" ++ sect ++ cs "/" ++ n)) names.

Lemma set_counts_counted mc whole : 0 <= whole -> counts_fit mc 0 0 whole -> 1 <= whole ->
  set_counts mc (mc_cnt_dont_exist mc) (mc_cnt_not_shipped mc) (sz (mc_cnt_whole_sects mc + 1)) = counted mc 0 0 1.
Proof.
  unfold counts_fit, counted. intros ? Hfit ?. rewrite sz_small32 by (unfold INT_MAX, UINT_MAX in *; lia). by rewrite !Z.add_0_r.
Qed.

Lemma counts_fit_step mc n : counts_fit mc 0 0 (1 + n) -> 0 <= n -> counts_fit (counted mc 0 0 1) 0 0 n.
Proof. unfold counts_fit, counted, set_counts. cbn. lia. Qed.

Lemma run_whole_sect_loop sect names last path shipname t1 t2 shipped pages mc out X :
  custr_text path t1 -> custr_text shipname t2 -> sect_names_ok sect names ->
  ships mc shipped -> has_pages mc pages ->
  counts_fit mc 0 0 (Zlen (unshipped_in fnmatch shipped pages sect names)) ->
  run (whole_sect_loop fnmatch strerror sect (sect_dir sect) names last path shipname)
    (fun _ e' => e' = ToolEnv (out ++ (whole_line sect <$> unshipped_in fnmatch shipped pages sect names))
       (counted mc 0 0 (Zlen (unshipped_in fnmatch shipped pages sect names)))) X (ToolEnv out mc).
Proof.
  revert path shipname t1 t2 mc out. induction names as [|n names IH]; intros path shipname t1 t2 mc out Hp Hs Hok Hship Hpg Hfit;
    cbn [whole_sect_loop unshipped_in fmap list_fmap] in *.
  { run_steps. symmetry. apply env_0. }
  apply Forall_cons_1 in Hok as [[Hn1 Hn2] Hok]. apply run_bind, run_set_errno.
  destruct (special_name n); [by eapply IH|]. apply run_bind. unfold whole_sect_entry.
  apply run_bind. eapply run_custr_reset; [exact Hp|]. intros p1 Hp1.
  apply run_bind. eapply run_append_text; [exact Hp1|exact Hn1|]. intros p2 Hp2. cbn beta iota.
  change (negb (0 =? 0)) with false. cbn beta iota.
  apply run_bind. eapply run_custr_cstr; [exact Hp2|]. rewrite c_text_id by apply Hn1.
  change (sect_dir sect ++ cs "/" ++ n) with (man_dir ++ cs "/man" ++ sect ++ cs "/" ++ n) in *.
  replace (sect_dir sect ++ cs "/" ++ n) with (man_dir ++ cs "/man" ++ sect ++ cs "/" ++ n) in *
    by (unfold sect_dir; by rewrite <-!app_assoc).
  destruct (fs_lstat _) as [er|[mode ino]].
  { run_steps. symmetry. apply env_0. }
  destruct (negb (mode_is S_IFREG mode) && negb (mode_is S_IFLNK mode)).
  { run_steps. by eapply IH. }
  cbn [orb] in *. apply run_bind, run_get_state. cbn [te_state].
  apply run_bind. destruct Hpg as [Hpg Hpl]. eapply run_strset_fnmatch; [exact Hfnmatch|exact Hpg|exact Hpl|].
  rewrite matching_some. destruct (pattern_matches fnmatch pages n); cbn [orb] in *.
  { run_steps. by eapply IH. }
  apply run_bind. eapply run_custr_reset; [exact Hs|]. intros s1 Hs1.
  apply run_bind. eapply run_append_text; [exact Hs1|exact Hn2|]. intros s2 Hs2. cbn beta iota.
  change (negb (0 =? 0)) with false. cbn beta iota.
  apply run_bind. eapply run_custr_cstr; [exact Hs2|]. rewrite c_text_id by apply Hn2. rewrite Hship.
  destruct (bool_decide (cm_pdir ++ cs "/man" ++ sect ++ cs "/" ++ n ∈ shipped)).
  { run_steps. by eapply IH. }
  apply run_bind. eapply run_custr_cstr; [exact Hp2|]. rewrite c_text_id by apply Hn1.
  rewrite Zlen_cons in Hfit. pose proof (Zlen_nonneg (unshipped_in fnmatch shipped pages sect names)) as Hz.
  run_steps. rewrite (set_counts_counted _ (1 + Zlen (unshipped_in fnmatch shipped pages sect names))) by (done || lia).
  eapply run_mono; [eapply (IH p2 s2 _ _ (counted mc 0 0 1)); [done|done|done|exact Hship|by split|by apply counts_fit_step]| |done].
  intros r e' ->. cbn [fmap list_fmap]. rewrite counted_counted, Zlen_cons, <-app_assoc. done.
Qed.

(** The directory of a section, when it can be read at all, has such names. *)
Definition sect_ok (sect : cstr) : Prop :=
  text_fits (sect_dir sect) /\ forall names last, fs_opendir (sect_dir sect) = inr (names, last) -> sect_names_ok sect names.

Lemma run_check_whole_sect_dir sect shipped pages mc out X :
  sect_ok sect -> ships mc shipped -> has_pages mc pages ->
  counts_fit mc 0 0 (Zlen (unshipped_sect fnmatch shipped pages sect)) ->
  run (check_whole_sect_dir fnmatch strerror sect (sect_dir sect))
    (fun _ e' => e' = ToolEnv (out ++ sect_lines fnmatch shipped pages sect)
       (counted mc 0 0 (Zlen (unshipped_sect fnmatch shipped pages sect)))) X (ToolEnv out mc).
Proof.
  intros [_ Hok] Hship Hpg. unfold check_whole_sect_dir, sect_lines, unshipped_sect.
  destruct (fs_opendir (sect_dir sect)) as [er|[names last]]; intros Hfit.
  { run_steps. destruct (er =? ENOENT); run_steps; symmetry; apply env_0. }
  apply run_bind, run_custr_alloc. intros s Hs. apply run_bind, run_custr_alloc. intros p Hp. apply run_bind.
  eapply run_mono; [eapply (run_whole_sect_loop sect names last p s [] [] shipped pages); eauto| |done].
  intros er e' ->. by run_steps.
Qed.

Lemma run_check_whole_sect ss sect shipped pages mc out t tmp X :
  sect_ok sect -> ships mc shipped -> has_pages mc pages -> custr_text tmp t ->
  counts_fit mc 0 0 (Zlen (unshipped_sect fnmatch shipped pages sect)) ->
  run (check_whole_sect fnmatch strerror ss sect)
    (fun r ev => r = (STRSET_WALK_NEXT, ss) /\
       ev.1 = ToolEnv (out ++ sect_lines fnmatch shipped pages sect)
         (counted mc 0 0 (Zlen (unshipped_sect fnmatch shipped pages sect))) /\
       exists t, custr_text ev.2 t) X (ToolEnv out mc, tmp).
Proof.
  intros Hok Hship Hpg Htmp Hfit. unfold check_whole_sect, cm_mpaths. cbn [whole_sect_paths].
  apply run_bind. run_steps. eapply run_custr_reset; [exact Htmp|]. intros c1 Hc1.
  apply run_bind. eapply run_append_text; [exact Hc1|apply Hok|]. intros c2 Hc2. cbn beta iota. run_steps.
  change (negb (0 =? 0)) with false. cbn beta iota.
  apply run_bind. eapply run_custr_cstr; [exact Hc2|]. rewrite c_text_id by apply Hok. run_steps.
  change (cs "proto/usr/share/man" ++ cs "/man" ++ sect) with (sect_dir sect) in *.
  eapply run_mono; [by eapply (run_check_whole_sect_dir sect shipped pages mc out)| |done].
  intros r e' ->. cbn beta. apply run_bind. destruct (negb (r =? 0)).
  - apply run_bind, run_get_errno. intros er. run_steps. split_and!; [done|done|by eexists].
  - run_steps. split_and!; [done|done|by eexists].
Qed.

Lemma run_section_names names last includes excludes wholesects l mc out (Q : Z * strset -> tool_env mancheck -> Prop) X :
  strset_seq STRSET_IGNORE_DUPLICATES (mc_section_includes mc) includes -> Zlen includes <= INT_MAX ->
  strset_seq STRSET_IGNORE_DUPLICATES (mc_section_excludes mc) excludes -> Zlen excludes <= INT_MAX ->
  Forall (fun n => str_ok (drop 3 n)) names ->
  strset_seq STRSET_IGNORE_DUPLICATES wholesects l ->
  (forall ws, strset_seq STRSET_IGNORE_DUPLICATES ws
     (foldl (fun l s => seq_add s l) l (drop 3 <$> filter (fun n => is_whole fnmatch includes excludes n) names)) ->
     Q (0, ws) (ToolEnv out mc)) ->
  run (section_names fnmatch names last wholesects) Q X (ToolEnv out mc).
Proof.
  intros Hi Hil Hx Hxl. revert wholesects l. induction names as [|n names IH]; intros ws l Hok Hws HQ; cbn [section_names].
  { run_steps. by apply HQ. }
  apply Forall_cons_1 in Hok as [Hn Hok]. apply run_bind, run_set_errno. rewrite filter_cons in HQ.
  assert (Hskip : is_whole fnmatch includes excludes n = false -> run (section_names fnmatch names last ws) Q X (ToolEnv out mc)).
  { intros Hw. rewrite Hw in HQ. rewrite decide_False in HQ by by intros []. by eapply IH. }
  assert (Hkeep : is_whole fnmatch includes excludes n = true -> forall ws', strset_seq STRSET_IGNORE_DUPLICATES ws' (seq_add (drop 3 n) l) ->
    run (section_names fnmatch names last ws') Q X (ToolEnv out mc)).
  { intros Hw ws' Hws'. rewrite Hw in HQ. rewrite decide_True in HQ by done. by eapply IH. }
  clear HQ. unfold is_whole in Hskip, Hkeep.
  destruct (special_name n); cbn [negb andb] in *; [by apply Hskip|].
  destruct (strncmp n (cs "man") 3 =? 0); cbn [negb andb] in *; [|by apply Hskip].
  run_steps. eapply run_strset_fnmatch; [exact Hfnmatch|exact Hx|exact Hxl|]. rewrite matching_some.
  destruct (pattern_matches fnmatch excludes (drop 3 n)); cbn [negb andb] in *; [by apply Hskip|].
  run_steps. eapply run_strset_fnmatch; [exact Hfnmatch|exact Hi|exact Hil|]. rewrite matching_none.
  destruct (pattern_matches fnmatch includes (drop 3 n)); cbn [negb] in *; [|by apply Hskip].
  run_steps. eapply run_strset_add; [exact Hws|exact Hn|done|]. intros ws' _ Hws'. cbn beta iota.
  change (negb (0 =? 0)) with false. cbn beta iota. by apply Hkeep.
Qed.

(** The manual page directory can be read, and its sections too. *)
Definition man_dir_ok (names : list cstr) : Prop :=
  (exists last, fs_opendir man_dir = inr (names, last)) /\ Forall (fun n => sect_ok (drop 3 n)) names.

Lemma whole_sects_sub includes excludes names sect :
  sect ∈ whole_sects fnmatch includes excludes names -> exists n, n ∈ names /\ sect = drop 3 n.
Proof.
  unfold whole_sects. rewrite elem_of_seq_of. intros (n & -> & [_ Hn]%list_elem_of_filter)%list_elem_of_fmap. by exists n.
Qed.

Lemma sect_ok_str_ok sect : sect_ok sect -> str_ok sect.
Proof.
  intros [Hfit%text_fits_str_ok _]. unfold str_ok, sect_dir, HEAP_HI in *. autorewrite with zlen in Hfit.
  pose proof (Zlen_nonneg man_dir). pose proof (Zlen_nonneg (cs "/man")). lia.
Qed.

Lemma bind_cons {A B} (f : A -> list B) x l : (x :: l) ≫= f = f x ++ (l ≫= f).
Proof. done. Qed.

Lemma unshipped_app shipped pages l1 l2 :
  Zlen ((l1 ++ l2) ≫= unshipped_sect fnmatch shipped pages)
  = Zlen (l1 ≫= unshipped_sect fnmatch shipped pages) + Zlen (l2 ≫= unshipped_sect fnmatch shipped pages).
Proof. by rewrite bind_app, Zlen_app. Qed.

Lemma run_check_whole_sects names includes excludes pages shipped mc out X :
  man_dir_ok names -> holds_patterns mc (includes, excludes, pages) ->
  Zlen includes <= INT_MAX -> Zlen excludes <= INT_MAX -> Zlen pages <= INT_MAX -> ships mc shipped ->
  counts_fit mc 0 0 (Zlen (whole_sects fnmatch includes excludes names ≫= unshipped_sect fnmatch shipped pages)) ->
  run (check_whole_sects fnmatch strerror)
    (fun r e' => r = 0 /\ e' = ToolEnv
       (out ++ (whole_sects fnmatch includes excludes names ≫= sect_lines fnmatch shipped pages))
       (counted mc 0 0 (Zlen (whole_sects fnmatch includes excludes names ≫= unshipped_sect fnmatch shipped pages)))) X (ToolEnv out mc).
Proof.
  intros [[last Hdir] Hsects] (Hi & Hx & Hp) Hil Hxl Hpl Hship Hfit. unfold check_whole_sects.
  apply run_bind, run_custr_alloc. intros cu Hcu. apply run_bind, run_bind, run_strset_alloc; [done|]. intros ws Hws.
  cbn beta iota. change (0 =? 0) with true. cbn beta iota. apply run_ret, run_bind, run_bind.
  unfold cm_mpaths. cbn [section_dirs]. change (cs "proto/usr/share/man") with man_dir. rewrite Hdir.
  apply run_bind. eapply (run_section_names names last includes excludes); [done|done|done|done| |exact Hws|].
  { eapply Forall_impl; [|exact Hsects]. intros n Hn. by apply sect_ok_str_ok. }
  intros ws' Hws'. change (foldl _ [] _) with (whole_sects fnmatch includes excludes names) in Hws'.
  set (sects := whole_sects fnmatch includes excludes names) in *. cbn beta iota.
  change (negb (0 =? 0)) with false. cbn beta iota. run_steps. change (negb (0 =? 0)) with false. cbn beta iota. run_steps.
  eapply run_mono; [eapply (run_strset_each _ _ sects ws' (fun seen ev =>
    ev.1 = ToolEnv (out ++ (seen ≫= sect_lines fnmatch shipped pages))
      (counted mc 0 0 (Zlen (seen ≫= unshipped_sect fnmatch shipped pages))) /\ exists t, custr_text ev.2 t))| |done].
  - apply Hws'.
  - by eapply walk_fuel_ok.
  - cbn. split; [symmetry; apply env_0|by eexists].
  - intros pre sect post [e tmp] Hl [He [t Ht]]. cbn in He, Ht. subst e. cbn zeta.
    rewrite Hl, unshipped_app, bind_cons, Zlen_app in Hfit.
    pose proof (Zlen_nonneg (pre ≫= unshipped_sect fnmatch shipped pages)).
    pose proof (Zlen_nonneg (post ≫= unshipped_sect fnmatch shipped pages)).
    pose proof (Zlen_nonneg (unshipped_sect fnmatch shipped pages sect)).
    eapply run_mono; [eapply (run_check_whole_sect _ sect shipped pages)| |done].
    + destruct (whole_sects_sub includes excludes names sect) as (n & Hn & ->); [fold sects; rewrite Hl; set_solver|].
      by apply (proj1 (list.Forall_forall _ _) Hsects).
    + exact Hship.
    + by split.
    + exact Ht.
    + unfold counts_fit, counted, set_counts in *. cbn. lia.
    + intros r ev (-> & -> & Ht'). split; [done|]. split; [|done].
      by rewrite !bind_app, <-app_assoc, counted_counted, Zlen_app, !bind_cons, !app_nil_r.
  - intros [r ss] [e tmp] [[= -> ->] [He _]]. cbn in He |- *. subst e. apply run_bind, run_VERIFY; [done|]. by run_steps.
Qed.
End whole_facts.

(** ** The whole program *)

Section program_facts.
Context `{AvlTree cstr, !AvlLaws cstr} `{DM : DataModel} `{FileSystem} (fnmatch : cstr -> cstr -> Z -> Z) (strerror : Z -> cstr).
Hypothesis Hfnmatch : fnmatch_ok fnmatch.
Implicit Types (mc : mancheck) (e : tool_env mancheck).

Lemma file_names_app l1 l2 : file_names (l1 ++ l2) = file_names l1 ++ file_names l2.
Proof. unfold file_names. apply omap_app. Qed.
Lemma page_names_app l1 l2 : page_names (l1 ++ l2) = page_names l1 ++ page_names l2.
Proof. unfold page_names. by rewrite file_names_app, list.filter_app. Qed.
Lemma command_names_app l1 l2 : command_names (l1 ++ l2) = command_names l1 ++ command_names l2.
Proof. unfold command_names. by rewrite file_names_app, list.filter_app. Qed.
Lemma missing_commands_app l1 l2 : missing_commands (l1 ++ l2) = missing_commands l1 ++ missing_commands l2.
Proof. unfold missing_commands. by rewrite command_names_app, list.filter_app. Qed.

Lemma page_names_one me name : me_name me = Some name ->
  page_names [me] = if is_file_type (me_type me) && is_page_name name then [name] else [].
Proof.
  intros Hme. unfold page_names, file_names. cbn [omap list_omap]. destruct (is_file_type (me_type me)); [|done]. rewrite Hme.
  rewrite filter_cons. by destruct (is_page_name name).
Qed.

Lemma run_populate_shiplist me name pre ss mc out (Q : Z -> tool_env mancheck -> Prop) (X : Z -> Prop) :
  me_name me = Some name -> short name -> strset_seq 0 ss (seq_of (page_names pre)) -> NoDup (page_names pre) ->
  (forall ss', strset_seq 0 ss' (seq_of (page_names (pre ++ [me]))) -> NoDup (page_names (pre ++ [me])) ->
     Q MECB_NEXT (ToolEnv out (set_shiplist mc ss'))) ->
  (~ NoDup (page_names (pre ++ [me])) -> X 1) ->
  run (populate_shiplist me) Q X (ToolEnv out (set_shiplist mc ss)).
Proof.
  intros Hme Hs Hss Hnd HQ HX. rewrite page_names_app, (page_names_one me name) in HQ, HX by done. unfold populate_shiplist.
  destruct (is_file_type (me_type me)); cbn [andb] in HQ, HX; [|apply run_ret; rewrite app_nil_r in HQ; by apply HQ].
  apply run_bind. eapply run_access; [exact Hme|]. unfold is_page_name in *.
  destruct (strncmp name cm_pdir (Zlen cm_pdir) =? 0); [|apply run_ret; rewrite app_nil_r in HQ; by apply HQ].
  run_steps. apply run_bind. eapply run_strset_add; [exact Hss|by apply short_str_ok| |].
  - intros Hin _. cbn. apply run_exit, HX. rewrite elem_of_seq_of in Hin. rewrite list.NoDup_app. intros (_ & Hd & _).
    apply (Hd name Hin). by left.
  - intros ss' [Hni|?] Hss'; [|done]. cbn beta iota. change (negb (0 =? 0)) with false. cbn beta iota. run_steps.
    rewrite elem_of_seq_of in Hni. apply HQ.
    + by rewrite seq_add_snoc.
    + apply list.NoDup_app. split_and!; [done| |apply NoDup_singleton]. intros x Hx ->%list_elem_of_singleton. done.
Qed.

(** [%ld] of a count that fits. *)
Lemma as_long_small z : 0 <= z <= INT_MAX -> as_long z = z.
Proof. intros Hz. unfold as_long. pose proof LONG_MAX_bound. by assert (LONG_MAX <? z = false) as -> by lia. Qed.

Lemma run_print_count flag count title endl rval mc out (Q : bool * Z -> tool_env mancheck -> Prop) X :
  0 <= count <= INT_MAX ->
  (let b := flag_set (mc_flags mc) flag && (0 <? count) in
   Q (if b then (true, 60) else (endl, rval))
     (ToolEnv (out ++ if b then (if endl then [] else [[LF]]) ++ [title ++ print_d count ++ [LF]] else []) mc)) ->
  run (print_count flag count title endl rval) Q X (ToolEnv out mc).
Proof.
  intros Hc HQ. unfold print_count. rewrite as_long_small by done. run_steps.
  destruct (flag_set (mc_flags mc) flag && (0 <? count)); cbn zeta in HQ.
  - destruct endl; run_steps; [exact HQ|]. by rewrite <-app_assoc.
  - rewrite app_nil_r in HQ. by run_steps.
Qed.

Lemma run_print_counts mc out fd X :
  0 <= mc_cnt_dont_exist mc <= INT_MAX -> 0 <= mc_cnt_not_shipped mc <= INT_MAX -> 0 <= mc_cnt_whole_sects mc <= INT_MAX ->
  fd_missing fd = mc_cnt_dont_exist mc -> fd_unshipped fd = mc_cnt_not_shipped mc -> fd_whole fd = mc_cnt_whole_sects mc ->
  run print_counts (fun r e' => r = count_status (finding_counts (mc_flags mc) fd) /\
    te_stdout e' = out ++ count_lines (finding_counts (mc_flags mc) fd)) X (ToolEnv out mc).
Proof.
  intros Hm Hu Hw Em Eu Ew. unfold print_counts, finding_counts, counts. rewrite Em, Eu, Ew. run_steps.
  assert (Hpos : forall (b : bool) t n, 0 <= n -> filter (fun tc : cstr * Z => 0 < tc.2) (if b then [(t, n)] else [])
    = if b && (0 <? n) then [(t, n)] else []).
  { intros [] t n _; [|done]. rewrite filter_cons. destruct (Z.ltb_spec 0 n); [by rewrite decide_True|by rewrite decide_False by (cbn; lia)]. }
  rewrite !list.filter_app, !Hpos by lia.
  apply run_print_count; [done|]. cbn zeta. set (b1 := flag_set _ _ && _). destruct b1; cbn beta iota zeta; apply run_bind;
    (apply run_print_count; [done|]); cbn zeta; set (b2 := flag_set _ _ && _); destruct b2; cbn beta iota zeta; apply run_bind;
    (apply run_print_count; [done|]); cbn zeta; set (b3 := flag_set _ _ && _); destruct b3; cbn beta iota zeta; run_steps;
    (split; [done|]); by rewrite ?app_nil_r, <-?app_assoc.
Qed.

(** The state in which the checks start, and what they are run on. *)
Record mancheck_scene (path : cstr) mc (es : list manifest_ent) (names : list cstr) (ps : patterns) : Prop := {
  sc_manifest : manifest_has (fs_manifest path) es;
  sc_names : man_dir_ok names;
  sc_patterns : holds_patterns mc ps;
  sc_sizes : Zlen ps.1.1 <= INT_MAX /\ Zlen ps.1.2 <= INT_MAX /\ Zlen ps.2 <= INT_MAX;
  sc_shiplist : strset_seq 0 (mc_shiplist mc) [];
  sc_counts : mc_cnt_dont_exist mc = 0 /\ mc_cnt_not_shipped mc = 0 /\ mc_cnt_whole_sects mc = 0;
  sc_fits : let fd := all_findings fnmatch (mc_flags mc) es ps names in
    fd_missing fd <= INT_MAX /\ fd_unshipped fd <= INT_MAX /\ fd_whole fd <= INT_MAX
}.

Lemma ships_seq ss es mc : strset_seq 0 ss (seq_of (page_names es)) -> ships (set_shiplist mc ss) (page_names es).
Proof. intros Hss name. cbn. rewrite (seq_contains _ _ _ _ Hss). apply bool_decide_ext, elem_of_seq_of. Qed.

(** The first reading of the manifest. *)
Lemma run_first_pass path es mc out X :
  manifest_has (fs_manifest path) es -> strset_seq 0 (mc_shiplist mc) [] ->
  (forall st, st = 1 /\ ~ NoDup (page_names es) -> X st) ->
  run (read_manifest_file path (fs_manifest path) populate_shiplist)
    (fun r e' => r = 0 /\ NoDup (page_names es) /\ exists ss, strset_seq 0 ss (seq_of (page_names es)) /\
       e' = ToolEnv out (set_shiplist mc ss)) X (ToolEnv out mc).
Proof.
  intros Hman Hss HX. pose proof Hman as (mf & _ & _ & Hshort & _ & Hes). pose proof (manifest_names _ _ Hshort Hes) as Hnames.
  apply (run_read_manifest path _ populate_shiplist (fun pre e' => NoDup (page_names pre) /\
    exists ss, strset_seq 0 ss (seq_of (page_names pre)) /\ e' = ToolEnv out (set_shiplist mc ss))); [done| |].
  - split; [constructor|]. exists (mc_shiplist mc). split; [done|]. by destruct mc.
  - intros pre me post e' -> (Hnd & ss & Hs & ->). apply Forall_app in Hnames as [_ [(name & Hme & Hname) _]%Forall_cons_1].
    eapply run_populate_shiplist; [done|done|done|done| |].
    + intros ss' Hs' Hnd'. split; [done|]. split; [done|]. by exists ss'.
    + intros Hnd'. apply HX. split; [done|]. intros Hall. apply Hnd'.
      change (me :: post) with ([me] ++ post) in Hall. rewrite app_assoc, page_names_app in Hall. by apply list.NoDup_app in Hall as [? _].
Qed.

(** The second reading. *)
Lemma run_second_pass path es mc out shipped X :
  manifest_has (fs_manifest path) es -> ships mc shipped ->
  counts_fit mc (Zlen (missing_commands es)) (Zlen (command_names es ≫= unshipped_of shipped)) 0 ->
  run (read_manifest_file path (fs_manifest path) (check_manifest_ent strerror))
    (fun r e' => r = 0 /\ e' = ToolEnv (out ++ (command_names es ≫= command_lines (mc_flags mc) shipped))
       (counted mc (Zlen (missing_commands es)) (Zlen (command_names es ≫= unshipped_of shipped)) 0)) X (ToolEnv out mc).
Proof.
  intros Hman Hship Hfit. pose proof Hman as (mf & _ & _ & Hshort & _ & Hes). pose proof (manifest_names _ _ Hshort Hes) as Hnames.
  apply (run_read_manifest path _ (check_manifest_ent strerror) (fun pre e' => e' = ToolEnv
    (out ++ (command_names pre ≫= command_lines (mc_flags mc) shipped))
    (counted mc (Zlen (missing_commands pre)) (Zlen (command_names pre ≫= unshipped_of shipped)) 0))); [done|symmetry; apply env_0|].
  intros pre me post e' -> ->. apply Forall_app in Hnames as [_ [(name & Hme & _) _]%Forall_cons_1].
  change (me :: post) with ([me] ++ post) in Hfit.
  rewrite !missing_commands_app, !command_names_app, !bind_app, !Zlen_app in Hfit.
  pose proof (Zlen_nonneg (missing_commands pre)). pose proof (Zlen_nonneg (missing_commands post)). pose proof (Zlen_nonneg (missing_commands [me])).
  pose proof (Zlen_nonneg (command_names pre ≫= unshipped_of shipped)). pose proof (Zlen_nonneg (command_names post ≫= unshipped_of shipped)).
  pose proof (Zlen_nonneg (command_names [me] ≫= unshipped_of shipped)).
  eapply run_mono; [eapply (run_check_manifest_ent strerror me name shipped (mc_flags mc)); [done|done|exact Hship|]| |done].
  - counts_lia.
  - intros r e' [-> ->]. split; [done|].
    by rewrite counted_counted, !missing_commands_app, !command_names_app, !bind_app, !Zlen_app, <-app_assoc.
Qed.

Lemma filter_lt_nil (l : list (cstr * Z)) : count_status (filter (fun tc => 0 < tc.2) l) = 0 <-> Forall (fun tc => tc.2 <= 0) l.
Proof.
  induction l as [|tc l IH]; [done|]. rewrite filter_cons, list.Forall_cons. case_decide; [split; [done|lia]|].
  rewrite IH. split; [|by intros [_ ?]]. intros ?. split; [lia|done].
Qed.

Lemma Zlen_zero {A} (l : list A) : Zlen l <= 0 <-> l = [].
Proof. destruct l; [done|]. split; [zlen|done]. Qed.

(** Nothing is counted exactly when there is nothing to report. *)
Lemma clean_status flags es ps names :
  let fd := all_findings fnmatch flags es ps names in
  let '(includes, excludes, pages) := ps in
  count_status (finding_counts flags fd) = 0 <->
    (flag_set flags MCF_DONT_EXIST = true -> missing_commands es = []) /\
    (flag_set flags MCF_NOT_SHIPPED = true -> unshipped_pages es = []) /\
    (flag_set flags MCF_WHOLE_SECTS = true ->
       (whole_sects fnmatch includes excludes names ≫= unshipped_sect fnmatch (page_names es) pages) = []).
Proof.
  destruct ps as [[includes excludes] pages]. cbn zeta beta iota. unfold finding_counts, counts, all_findings.
  cbn [fd_missing fd_unshipped fd_whole]. rewrite filter_lt_nil, !Forall_app, <-!Zlen_zero.
  assert (Hif : forall (b : bool) (tc : cstr * Z), Forall (fun tc => tc.2 <= 0) (if b then [tc] else []) <-> (b = true -> tc.2 <= 0)).
  { intros [] tc; [rewrite Forall_singleton; split; auto|]. split; [done|constructor]. }
  rewrite !Hif. cbn [snd]. split; intros (? & ? & ?); split_and!; auto.
Qed.

Lemma run_checks_spec path es names ps mc out :
  mancheck_scene path mc es names ps ->
  let fd := all_findings fnmatch (mc_flags mc) es ps names in
  run (run_checks fnmatch strerror path)
    (fun r e' => NoDup (page_names es) /\ r = count_status (finding_counts (mc_flags mc) fd) /\
       te_stdout e' = out ++ fd_lines fd ++ count_lines (finding_counts (mc_flags mc) fd))
    (fun st => st = 1 /\ ~ NoDup (page_names es)) (ToolEnv out mc).
Proof.
  intros [Hman Hdir Hps (Hil & Hxl & Hpl) Hss (Hc1 & Hc2 & Hc3) Hfits] fd. fold fd in Hfits.
  destruct ps as [[includes excludes] pages]. cbn [fst snd] in *. unfold fd, all_findings in Hfits |- *. cbn [fd_missing fd_unshipped fd_whole fd_lines] in *.
  set (shipped := page_names es) in *.
  pose proof (Zlen_nonneg (missing_commands es)). pose proof (Zlen_nonneg (unshipped_pages es)) as Hu0.
  pose proof (Zlen_nonneg (whole_sects fnmatch includes excludes names ≫= unshipped_sect fnmatch shipped pages)).
  unfold run_checks. apply run_bind. eapply run_mono; [by apply (run_first_pass path es mc out (fun st => st = 1 /\ ~ NoDup (page_names es)))| |done].
  intros r e1 (-> & Hnd & ss & Hs & ->). change (negb (0 =? 0)) with false. cbn beta iota.
  pose proof (ships_seq ss es mc Hs) as Hship. fold shipped in Hship.
  apply run_bind. eapply run_use; [eapply (run_second_pass path es _ out shipped); [done|done|]|].
  { unfold unshipped_pages in *. fold shipped in Hfits, Hu0. counts_lia. }
  intros r e2 (-> & ->). change (negb (0 =? 0)) with false. cbn beta iota.
  apply run_bind. eapply run_use; [eapply (run_check_whole_sects fnmatch strerror Hfnmatch names includes excludes pages shipped); try done|].
  { unfold unshipped_pages in *. fold shipped in Hfits, Hu0. counts_lia. }
  intros r e3 (-> & ->). change (negb (0 =? 0)) with false. cbn beta iota. rewrite counted_counted.
  eapply run_use; [eapply (run_print_counts _ _ fd)|]; unfold fd, all_findings; cbn [fd_missing fd_unshipped fd_whole counted set_counts set_shiplist
    mc_cnt_dont_exist mc_cnt_not_shipped mc_cnt_whole_sects mc_flags]; unfold unshipped_pages in *; fold shipped in Hfits, Hu0 |- *; try lia.
  intros r e4 [-> ->]. split; [done|]. split; [done|]. by rewrite <-!app_assoc.
Qed.
End program_facts.

Lemma length_seq_add s l : Zlen (seq_add s l) <= Zlen l + 1.
Proof. unfold seq_add. case_decide; [lia|]. unfold Zlen. rewrite insert_sorted_perm. cbn. lia. Qed.

Lemma add_directive_sizes ds ps :
  let ps' := foldl add_directive ps ds in
  Zlen ps'.1.1 <= Zlen ps.1.1 + Zlen ds /\ Zlen ps'.1.2 <= Zlen ps.1.2 + Zlen ds /\ Zlen ps'.2 <= Zlen ps.2 + Zlen ds.
Proof.
  revert ps. induction ds as [|d ds IH]; intros ps; cbn [foldl]; [zlen|]. destruct (IH (add_directive ps d)) as (H1 & H2 & H3).
  enough (Zlen (add_directive ps d).1.1 <= Zlen ps.1.1 + 1 /\ Zlen (add_directive ps d).1.2 <= Zlen ps.1.2 + 1 /\
    Zlen (add_directive ps d).2 <= Zlen ps.2 + 1) by (rewrite Zlen_cons; lia).
  destruct ps as [[i x] p]. unfold add_directive. pose proof (length_seq_add (c_text (d_value d))) as Hl.
  repeat case_match; cbn [fst snd]; split_and!; try apply Hl; lia.
Qed.

Lemma config_length s ds : config s ds -> Zlen ds <= Zlen s.
Proof.
  induction 1 as [b _|b0 sign kw c b1 v b2 s ds _ _ _ _ _ _ _ _ IH]; [zlen|].
  autorewrite with zlen. pose proof (Zlen_nonneg b0). pose proof (Zlen_nonneg kw). pose proof (Zlen_nonneg b1).
  pose proof (Zlen_nonneg v). pose proof (Zlen_nonneg b2). lia.
Qed.

Section main_facts.
Context `{AvlTree cstr, !AvlLaws cstr} `{DM : DataModel} `{FileSystem} (fnmatch : cstr -> cstr -> Z -> Z) (strerror : Z -> cstr).
Hypothesis Hfnmatch : fnmatch_ok fnmatch.
Implicit Types (mc : mancheck) (e : tool_env mancheck).

(** The flags of a run with a configuration file and neither [-m] nor [-s]. *)
Definition all_flags : Z := Z.lor (Z.lor MCF_DONT_EXIST MCF_NOT_SHIPPED) MCF_WHOLE_SECTS.

Definition mancheck_args (conf path : cstr) : list cstr := [cs "-c"; conf; cs "-f"; path].

(** What the program starts its checks from. *)
Definition ready (conf path : cstr) mc : Prop :=
  mc_flags mc = all_flags /\ mc_manifest_path mc = Some path /\
  strset_seq STRSET_IGNORE_DUPLICATES (mc_config_paths mc) [conf] /\
  strset_seq 0 (mc_shiplist mc) [] /\
  (mc_cnt_dont_exist mc = 0 /\ mc_cnt_not_shipped mc = 0 /\ mc_cnt_whole_sects mc = 0).

Lemma run_mancheck_init (Q : () -> tool_env mancheck -> Prop) X e :
  (forall mc, mc_flags mc = 0 -> strset_seq STRSET_IGNORE_DUPLICATES (mc_config_paths mc) [] ->
     strset_seq 0 (mc_shiplist mc) [] -> (mc_cnt_dont_exist mc = 0 /\ mc_cnt_not_shipped mc = 0 /\ mc_cnt_whole_sects mc = 0) ->
     holds_patterns mc ([], [], []) -> Q tt (ToolEnv (te_stdout e) mc)) ->
  run mancheck_init Q X e.
Proof.
  intros HQ. unfold mancheck_init, strset_alloc_all. apply run_bind.
  apply run_bind, run_strset_alloc; [done|]. intros s1 H1. apply run_bind, run_strset_alloc; [done|]. intros s2 H2.
  apply run_bind, run_strset_alloc; [done|]. intros s3 H3. apply run_bind, run_strset_alloc; [done|]. intros s4 H4.
  apply run_bind, run_strset_alloc; [done|]. intros s5 H5. cbn beta iota. change (_ =? 0) with true. cbn beta iota.
  run_steps. by apply HQ.
Qed.

Lemma run_parse_opts conf path mc out (Q : () -> tool_env mancheck -> Prop) X :
  str_ok conf -> str_ok path -> path <> [] -> mc_flags mc = 0 ->
  strset_seq STRSET_IGNORE_DUPLICATES (mc_config_paths mc) [] ->
  (forall ss, strset_seq STRSET_IGNORE_DUPLICATES ss [conf] ->
     Q tt (ToolEnv out (set_flags (set_manifest_path (set_config_paths mc ss) (Some path)) all_flags))) ->
  run (parse_opts (mancheck_args conf path)) Q X (ToolEnv out mc).
Proof.
  intros Hc Hp Hne Hfl Hss HQ. unfold parse_opts. run_steps.
  change (getopts mancheck_opts (mancheck_args conf path)) with [OptChar "c" (Some conf); OptChar "f" (Some path)].
  cbn [option_loop]. change (Ascii.eqb "c" "c") with true. change (Ascii.eqb "f" "c") with false.
  change (Ascii.eqb "f" "D") with false. change (Ascii.eqb "f" "f") with true. cbn beta iota.
  apply run_bind. eapply run_access; [done|]. apply run_bind. eapply run_add_or_exit; [exact Hss|done|]. intros ss Hss'.
  apply run_bind. eapply run_access; [done|]. apply run_bind, run_malloc; [unfold str_ok in Hp; pose proof (Zlen_nonneg path); lia|].
  intros a. apply run_ret. cbn beta iota. cbn [mc_manifest_path set_manifest_path set_config_paths mc_flags mc_config_paths].
  destruct path as [|c path]; [done|]. change ((0 <? 0) && (0 <? 0)) with false. change (0 <? 0) with false. cbn beta iota zeta.
  change (negb (0 =? 0)) with false. cbn beta iota.
  change (seq_add conf []) with [conf] in Hss'. rewrite (seq_count_small _ _ _ Hss'), Hfl by done. run_steps. by apply HQ.
Qed.

(** C20: mancheck with a configuration file and a manifest ends.  If the file is one of the
    grammar and no manual page is in the manifest twice, the program prints the commands that
    have no manual page, the pages of commands that are not shipped, and the pages of the
    sections to be shipped whole that are not, and returns 60, or prints nothing and returns 0
    if there are none; otherwise it exits with status 1. *)
Theorem mancheck_reports (conf path : cstr) (f : char_file) (es : list manifest_ent) (names : list cstr) (e : tool_env mancheck) :
  str_ok conf -> str_ok path -> path <> [] ->
  fs_fopen conf = inr f -> char_file_regular f = true -> cf_errno f = 0 -> Zlen (cf_chars f) + 3 <= CUSTR_MAX ->
  manifest_has (fs_manifest path) es -> man_dir_ok names ->
  (forall ds, accepts (cf_chars f) ds ->
     let fd := all_findings fnmatch all_flags es (foldl add_directive ([], [], []) ds) names in
     fd_missing fd <= INT_MAX /\ fd_unshipped fd <= INT_MAX /\ fd_whole fd <= INT_MAX) ->
  run (main fnmatch strerror false (mancheck_args conf path))
    (fun r e' => exists ds, accepts (cf_chars f) ds /\ NoDup (page_names es) /\
       let '(includes, excludes, pages) := foldl add_directive ([], [], []) ds in
       let fd := all_findings fnmatch all_flags es (includes, excludes, pages) names in
       te_stdout e' = te_stdout e ++ fd_lines fd ++ count_lines (finding_counts all_flags fd) /\
       (r = 0 \/ r = 60) /\
       (r = 0 <-> missing_commands es = [] /\ unshipped_pages es = [] /\
          (whole_sects fnmatch includes excludes names ≫= unshipped_sect fnmatch (page_names es) pages) = []))
    (fun st => st = 1 /\ ((forall ds, ~ accepts (cf_chars f) ds) \/ ~ NoDup (page_names es))) e.
Proof.
  intros Hconf Hpath Hne Hf Hreg Herr Hlen Hman Hdir Hfits. unfold main.
  apply run_bind, run_mancheck_init. intros mc Hfl Hcp Hsl Hcn Hps. apply run_bind. apply run_parse_opts; [done..|].
  intros ss Hss. set (mc1 := set_flags _ _). run_steps.
  eapply run_mono; [eapply (run_strset_each _ _ [conf] (mc_config_paths mc1) (fun seen e1 =>
    match seen with
    | [] => e1 = ToolEnv (te_stdout e) mc1
    | _ => exists ds, accepts (cf_chars f) ds /\ holds_patterns (te_state e1) (foldl add_directive ([], [], []) ds) /\
             patterns_only (ToolEnv (te_stdout e) mc1) e1
    end) (fun st => st = 1 /\ forall ds, ~ accepts (cf_chars f) ds))| |].
  - apply Hss.
  - by eapply walk_fuel_ok.
  - done.
  - intros pre s post e1 Hl He1. destruct pre as [|? pre]; [|by destruct pre]. injection Hl as <- <-. subst e1. cbn zeta.
    eapply run_mono; [by eapply (read_config_file_grammar conf f _ ([], [], []))| |done].
    intros r e2 (-> & ds & Hds & Hp & He2). split; [done|]. by exists ds.
  - intros [r ss'] e1 [_ (ds & Hds & Hp & [Ho Hs])]. cbn [te_stdout te_state] in Ho, Hs.
    destruct e1 as [out1 mc2]. cbn [te_stdout te_state] in *. subst out1. run_steps.
    assert (Hfl2 : mc_flags mc2 = all_flags) by (by rewrite Hs). rewrite Hfl2.
    change (flag_set all_flags MCF_DUMP_CONFIG) with false. change (all_flags =? MCF_DUMP_CONFIG) with false. cbn beta iota.
    apply run_ret. apply run_bind. eapply run_access; [by rewrite Hs|]. apply run_bind.
    pose proof (config_length _ _ (proj1 Hds)) as Hlds. pose proof (add_directive_sizes ds ([], [], [])) as Hsz.
    set (ps := foldl add_directive ([], [], []) ds) in *.
    eapply run_mono; [apply (run_checks_spec fnmatch strerror Hfnmatch path es names ps mc2)| |].
    + constructor; [done|done|done| | | |].
      * cbn [fst snd] in Hsz. rewrite !Zlen_nil in Hsz. unfold CUSTR_MAX, INT_MAX in *. lia.
      * by rewrite Hs.
      * by rewrite Hs.
      * rewrite Hfl2. by apply Hfits.
    + intros r' e' (Hnd & -> & Hout). unfold abort_on_exit. apply run_ret. exists ds. split; [done|]. split; [done|]. fold ps.
      pose proof (clean_status fnmatch all_flags es ps names) as Hclean. cbn zeta in Hclean. rewrite Hfl2 in *.
      destruct ps as [[includes excludes] pages]. cbn zeta. split; [done|]. split.
      * unfold count_status. case_match; auto.
      * rewrite Hclean. change (flag_set all_flags _) with true. naive_solver.
    + intros st [-> Hst]. split; [done|]. by right.
  - intros st [-> Hst]. split; [done|]. by left.
Qed.
End main_facts.

(** ** A manifest with three findings *)

Definition sample_lines : list cstr :=
  [cs "f usr/bin/ls 0755 root bin" ++ [LF]; cs "f usr/bin/pfls 0755 root bin" ++ [LF];
   cs "s usr/sbin/zfs=../../sbin/zfs" ++ [LF]; cs "f usr/share/man/man1/ls.1 0444 root bin" ++ [LF]].

Definition regular (path : cstr) (present : list cstr) : Z + (Z * Z) :=
  if decide (path ∈ present) then inr (33188, 1) else inl ENOENT.

Definition proto_pages : list cstr :=
  [cs "proto/usr/share/man/man1/ls.1"; cs "proto/usr/share/man/man1/cat.1"; cs "proto/usr/share/man/man8/zfs.8"].

Definition sample_fs : FileSystem := {|
  fs_stat path := regular path proto_pages;
  fs_lstat path := regular path proto_pages;
  fs_opendir path :=
    if decide (path = cs "proto/usr/share/man") then inr ([cs "."; cs ".."; cs "man1"; cs "man8"], 0)
    else if decide (path = cs "proto/usr/share/man/man1") then inr ([cs "."; cs ".."; cs "cat.1"; cs "ls.1"], 0)
    else inl ENOENT;
  fs_readlink _ := inl ENOENT; fs_open _ := inl ENOENT;
  fs_manifest _ := inr (Stream (Some 33188) sample_lines 0);
  fs_fopen _ := inr (CharFile (Some 33188) (cs "+section " ++ quoted "1" ++ cs ";" ++ [LF]) 0)
|}.

(** A pattern language of literals. *)
Definition literal_fnmatch (pattern s : cstr) (flags : Z) : Z := if decide (pattern = s) then 0 else FNM_NOMATCH.

Definition sample_entries : list manifest_ent := default [] (@manifest_entries LP64 sample_lines).

Definition sample_report : list cstr :=
  [cs "missing manual page for /usr/bin/pfls" ++ [LF];
   cs "binary /usr/sbin/zfs has unshipped manual page: man8/zfs.8" ++ [LF];
   cs "section 1 page not shipped: proto/usr/share/man/man1/cat.1" ++ [LF];
   [LF];
   cs "unshipped manual pages from entirely shipped sections: 1" ++ [LF];
   cs "missing manual pages: 1" ++ [LF];
   cs "unshipped manual pages: 1" ++ [LF]].

Lemma sample_sect_ok sect : sect ∈ [cs "1"; cs "8"; []] -> @sect_ok LP64 sample_fs sect.
Proof.
  intros Hs. rewrite !elem_of_cons in Hs. destruct Hs as [->|[->|[->|Hs]]]; [..|by apply not_elem_of_nil in Hs].
  - split; [by_decide|]. intros names last Hn. vm_compute in Hn. injection Hn as <- <-. unfold sect_names_ok. by_decide.
  - split; [by_decide|]. intros names last Hn. by vm_compute in Hn.
  - split; [by_decide|]. intros names last Hn. by vm_compute in Hn.
Qed.

Lemma mancheck_reports_witness :
  run (@main (list_avl cstr) LP64 sample_fs literal_fnmatch (fun _ => []) false (mancheck_args (cs "mancheck.conf") (cs "manifest")))
    (fun r e' => r = 60 /\ te_stdout e' = sample_report) never (ToolEnv [] empty_mancheck).
Proof.
  eapply run_mono.
  - eapply (@mancheck_reports (list_avl cstr) (list_avl_laws cstr) LP64 sample_fs literal_fnmatch (fun _ => [])
      ltac:(intros p s; unfold literal_fnmatch; case_decide; [by left|by right])
      (cs "mancheck.conf") (cs "manifest") (CharFile (Some 33188) (cs "+section " ++ quoted "1" ++ cs ";" ++ [LF]) 0) sample_entries
      [cs "."; cs ".."; cs "man1"; cs "man8"] (ToolEnv [] empty_mancheck)).
    + by vm_compute.
    + by vm_compute.
    + done.
    + done.
    + done.
    + done.
    + by vm_compute.
    + exists (Stream (Some 33188) sample_lines 0). split_and!; [done|done| |done|by vm_compute].
      repeat constructor; by_decide.
    + split; [by eexists|]. repeat constructor; apply sample_sect_ok; by_decide.
    + intros ds Hds%conf_run_config. vm_compute in Hds. injection Hds as <-. by vm_compute.
  - intros r e' (ds & Hds%conf_run_config & _ & Hrest). vm_compute in Hds. injection Hds as <-.
    revert Hrest. vm_compute. intros (-> & [->| ->] & [H _]); [|done]. destruct (H eq_refl) as [? _]. done.
  - intros st [-> [Hno|Hnd]].
    + exfalso. destruct (conf_run conf_start (cs "+section " ++ quoted "1" ++ cs ";" ++ [LF])) as [ds|] eqn:Hds; [|by vm_compute in Hds].
      by apply (Hno ds), conf_run_config.
    + apply Hnd. by_decide.
Defined.
