(* ===== verification/Mancf.v ===== *)
(** * Mancf: the search order of the manual sections, [tools/mancf/main.c]

    The sections a manifest ships are put in an order that respects the rules of [cm_manorders],
    and printed as a [man.cf] file.  [fnmatch] is a parameter.  The set of sections that a walk
    hands to its callback is the set [mcf_sections] itself: the callback uses the set it is given.
    The local variables [blocked] and [made_progress] are components of the environment for the
    time of the walk. *)
From Stdlib Require Import Lia.
From S2P Require Import Prelude Custr Strlist Manifest Avl Strset Tools.

(** [cm_manorders]: the entry with an empty pattern ends the table. *)
Definition cm_manorders : list (cstr * cstr) :=
  [(cs "1m", cs "1b"); (cs "8*", cs "1b"); (cs "8*", cs "[2-7]*"); (cs "3c", cs "3?*");
   (cs "3socket", cs "3xnet"); (cs "3socket", cs "3head"); ([], [])].

Definition cm_pdir : cstr := cs "usr/share/man".

(** The options: whether each takes an operand. *)
Definition mancf_opts (c : char) : option bool :=
  if bool_decide (c ∈ cs "f") then Some true else if bool_decide (c ∈ cs "ht") then Some false else None.

Section mancf.
Context `{AvlTree cstr} `{DM : DataModel} `{FileSystem} (fnmatch : cstr -> cstr -> Z -> Z) (strerror : Z -> cstr).

Record mancf := Mancf {
  mcf_manifest_path : option cstr;
  mcf_trailing_comma : bool;
  mcf_sections : strset;
  mcf_output : strlist
}.

Definition set_sections (mcf : mancf) (ss : strset) : mancf :=
  Mancf (mcf_manifest_path mcf) (mcf_trailing_comma mcf) ss (mcf_output mcf).
Definition set_output (mcf : mancf) (sl : strlist) : mancf :=
  Mancf (mcf_manifest_path mcf) (mcf_trailing_comma mcf) (mcf_sections mcf) sl.
Definition set_path (mcf : mancf) (path : option cstr) : mancf :=
  Mancf path (mcf_trailing_comma mcf) (mcf_sections mcf) (mcf_output mcf).
Definition set_trailing_comma (mcf : mancf) : mancf :=
  Mancf (mcf_manifest_path mcf) true (mcf_sections mcf) (mcf_output mcf).

Notation M := (C (tool_env mancf)).

Definition mancf_init : M () :=
  '(r, ss) ← strset_alloc 0;
  match ss with
  | None => c_exit 1
  | Some ss =>
      if negb (r =? 0) then c_exit 1 else
      '(r, sl) ← strlist_alloc 0;
      match sl with
      | None => c_exit 1
      | Some sl => if negb (r =? 0) then c_exit 1 else put_state (Mancf None false ss sl)
      end
  end.

(** ** The order *)

(** The loop over the rules. *)
Fixpoint more_important_loop (maos : list (cstr * cstr)) (section other_section : cstr) : bool :=
  match maos with
  | [] => false
  | (mao_more_important, mao_less_important) :: maos =>
      match mao_more_important with
      | [] => false
      | _ =>
          if (fnmatch mao_more_important section 0 =? 0) && (fnmatch mao_less_important other_section 0 =? 0)
          then true else more_important_loop maos section other_section
      end
  end.

Definition section_is_more_important (section other_section : cstr) : bool :=
  if strcmp section other_section =? 0 then false else more_important_loop cm_manorders section other_section.

Definition section_sort_walk_blocked_check {E} (sect : cstr) (set : strset) (other_sect : cstr) : C (E * bool) (Z * strset) :=
  if section_is_more_important other_sect sect
  then put_var true ;; mret (STRSET_WALK_DONE, set)
  else mret (STRSET_WALK_NEXT, set).

Definition section_sort_walk (set : strset) (sect : cstr) : C (tool_env mancf * bool) (Z * strset) :=
  '(r, set, blocked) ← with_var false (strset_walk (walk_fuel set) set (section_sort_walk_blocked_check sect));
  if negb (r =? 0) then c_exit 1 else
  if negb blocked then
    mcf ← outer get_state;
    '(_, output) ← outer (strlist_set_tail (mcf_output mcf) sect);
    outer (put_state (set_output mcf output)) ;;
    put_var true ;;
    mret (Z.lor STRSET_WALK_DONE STRSET_WALK_REMOVE, set)
  else mret (STRSET_WALK_NEXT, set).

(** The loop of [main]: each turn moves one section to the output. *)
Fixpoint sort_loop (fuel : nat) : M () :=
  match fuel with
  | O => c_undefined
  | S fuel =>
      mcf ← get_state;
      if negb (0 <? strset_count (mcf_sections mcf)) then mret tt else
      '(r, ss, made_progress) ← with_var false (strset_walk (walk_fuel (mcf_sections mcf)) (mcf_sections mcf) section_sort_walk);
      if negb (r =? 0) then c_exit 1 else
      mcf ← get_state;
      put_state (set_sections mcf ss) ;;
      if negb made_progress then c_exit 1 else sort_loop fuel
  end.

(** ** Input *)

(** The loop over the options. *)
Fixpoint option_loop (opts : list getopt_result) (mcf : mancf) : M mancf :=
  match opts with
  | [] => mret mcf
  | OptMissing _ :: _ | OptUnknown _ :: _ => c_exit 2
  | OptChar c optarg :: opts =>
      if Ascii.eqb c "f"%char then
        optarg ← c_access optarg;
        m ← malloc (Zlen optarg + 1);
        option_loop opts (set_path mcf (match m with Some _ => Some optarg | None => None end))
      else if Ascii.eqb c "t"%char then option_loop opts (set_trailing_comma mcf)
      else if Ascii.eqb c "h"%char then c_exit 0
      else option_loop opts mcf
  end.

Definition parse_opts (argv : list cstr) : M () :=
  mcf ← get_state;
  mcf ← option_loop (getopts mancf_opts argv) mcf;
  match mcf_manifest_path mcf with
  | None | Some [] => c_exit 2
  | Some _ => put_state mcf
  end.

Definition populate_sections (me : manifest_ent) : M Z :=
  let prefix := cm_pdir ++ cs "/man" in
  m ← malloc (Zlen prefix + 1);
  match m with
  | None => c_exit 1
  | Some _ =>
      match me_type me with
      | ME_TYPE_DIRECTORY =>
          name ← c_access (me_name me);
          if negb (strncmp name prefix (Zlen prefix) =? 0) then mret MECB_NEXT else
          let sect := drop (length prefix) name in
          if (Zlen sect <? 1) || bool_decide (SLASH ∈ sect) then mret MECB_NEXT else
          mcf ← get_state;
          ss ← add_or_exit (mcf_sections mcf) sect;
          put_state (set_sections mcf ss) ;;
          mret MECB_NEXT
      | _ => mret MECB_NEXT
      end
  end.

(** ** Output *)

Definition append_to_str (pattern : cstr) (mansect : custr) : M custr :=
  mcf ← get_state;
  mansect ←
    (if negb (mcf_trailing_comma mcf) && (0 <? custr_len mansect) then
       '(r, mansect) ← custr_appendc mansect ","%char; if negb (r =? 0) then c_exit 1 else mret mansect
     else mret mansect);
  '(r, mansect) ← custr_append mansect pattern;
  if negb (r =? 0) then c_exit 1 else
  if mcf_trailing_comma mcf then
    '(r, mansect) ← custr_appendc mansect ","%char; if negb (r =? 0) then c_exit 1 else mret mansect
  else mret mansect.

(** The loop over the output list: [fuel] is the number of its strings that are left. *)
Fixpoint sects_loop (fuel : nat) (i : Z) (mansect : custr) : M custr :=
  match fuel with
  | O => c_undefined
  | S fuel =>
      mcf ← get_state;
      n ← strlist_contig_count (mcf_output mcf);
      if negb (i <? n) then mret mansect else
      s ← strlist_get (mcf_output mcf) i;
      s ← c_access s;
      mansect ← append_to_str s mansect;
      sects_loop fuel (u32 (i + 1)) mansect
  end.

(** [filestr]. *)
Definition filestr (mansects : cstr) : cstr :=
  cs "#" ++ [LF] ++
  cs "# This file is automatically generated by the " ++ quoted "mancf" ++ cs " tool" ++ [LF] ++
  cs "# in " ++ quoted "smartos-live.git" ++ cs ".  It affects the search order of" ++ [LF] ++
  cs "# manual page sections for pages shipped in " ++ quoted "/usr/share/man" ++ cs "." ++ [LF] ++
  cs "#" ++ [LF] ++
  cs "# NOTE: All sections must be listed in this file, or they will" ++ [LF] ++
  cs "#       NOT be searched.  See man(1) for more details." ++ [LF] ++
  cs "#" ++ [LF] ++
  cs "MANSECTS=" ++ mansects ++ [LF].

Definition make_sects : M () :=
  mansect ← custr_alloc;
  match mansect with
  | None => c_exit 1
  | Some mansect =>
      mcf ← get_state;
      n ← strlist_contig_count (mcf_output mcf);
      mansect ← sects_loop (S (Z.to_nat n)) 0 mansect;
      s ← custr_cstr mansect;
      print_out (filestr s)
  end.

(** [abort_set]: whether [ABORT_ON_EXIT] is in the environment. *)
Definition main (abort_set : bool) (argv : list cstr) : M Z :=
  mancf_init ;;
  parse_opts argv ;;
  mcf ← get_state;
  path ← c_access (mcf_manifest_path mcf);
  r ← read_manifest_file path (fs_manifest path) populate_sections;
  if negb (r =? 0) then
    e ← get_errno;
    eprint (cs "ERROR: could not read manifest file: " ++ strerror e ++ [LF]) ;;
    abort_on_exit abort_set 50
  else
    mcf ← get_state;
    sort_loop (walk_fuel (mcf_sections mcf)) ;;
    make_sects ;;
    abort_on_exit abort_set 0.
End mancf.
