(* ===== verification/MancfSpec.v ===== *)
(** * MancfSpec: the order mancf prints

    The sections of the manifest are printed in an order in which no section comes after a less
    important one; sections that no rule separates keep the order of [strcmp].  The rules of
    [cm_manorders] have no cycle, so there is always such an order. *)
From Stdlib Require Import Lia.
From S2P Require Import Prelude Cnum Custr Strlist Parser Manifest Avl Strset Tools Run Mancf MancheckSpec.

(** ** Patterns *)

(** The patterns of the rules: characters, [?], [*] and a range of characters. *)
Inductive glob := GChar (c : char) | GAny | GStar | GRange (lo hi : char).

Definition print_glob1 (g : glob) : cstr :=
  match g with GChar c => [c] | GAny => cs "?" | GStar => cs "*" | GRange lo hi => cs "[" ++ [lo] ++ cs "-" ++ [hi] ++ cs "]" end.
Definition print_glob (gs : list glob) : cstr := gs ≫= print_glob1.

Fixpoint glob_match (gs : list glob) (s : cstr) : Prop :=
  match gs with
  | [] => s = []
  | GChar c :: gs => exists s', s = c :: s' /\ glob_match gs s'
  | GAny :: gs => exists c s', s = c :: s' /\ glob_match gs s'
  | GStar :: gs => exists s1 s2, s = s1 ++ s2 /\ glob_match gs s2
  | GRange lo hi :: gs => exists c s', s = c :: s' /\ code lo <= code c <= code hi /\ glob_match gs s'
  end.

(** The characters that stand for themselves in a pattern, and those that can bound a range. *)
Definition plain_glob (g : glob) : Prop :=
  match g with
  | GChar c => c ∉ cs "*?[\"
  | GRange lo hi => is_digit_in 10 lo = true /\ is_digit_in 10 hi = true
  | _ => True
  end.

(** What [fnmatch] does with such a pattern and no flags. *)
Definition fnmatch_glob (fnmatch : cstr -> cstr -> Z -> Z) : Prop :=
  forall gs s, Forall plain_glob gs -> fnmatch (print_glob gs) s 0 = 0 <-> glob_match gs s.

(** ** The order *)

Section order.
Context (fnmatch : cstr -> cstr -> Z -> Z).

Notation more := (section_is_more_important fnmatch).

(** No section is followed by a more important one. *)
Definition respects (o : list cstr) : Prop :=
  forall pre s post t, o = pre ++ s :: post -> t ∈ post -> more t s = false.

(** A section is followed by one that precedes it in the order of [strcmp] only if a section that
    is still to come, or it itself, is more important than that one. *)
Definition ties_sorted (o : list cstr) : Prop :=
  forall pre s post t, o = pre ++ s :: post -> t ∈ post -> strcmp t s < 0 -> exists u, u ∈ s :: post /\ more u t = true.

Definition blocked (l : list cstr) (s : cstr) : bool := existsb (fun t => more t s) l.

(** The first section that no other one blocks, with what is before and after it. *)
Fixpoint first_free (l pre post : list cstr) : option (list cstr * cstr * list cstr) :=
  match post with
  | [] => None
  | s :: post => if blocked l s then first_free l (pre ++ [s]) post else Some (pre, s, post)
  end.

Fixpoint sort_sections (n : nat) (l : list cstr) : option (list cstr) :=
  match l, n with
  | [], _ => Some []
  | _, O => None
  | _, S n => '(pre, s, post) ← first_free l [] l; o ← sort_sections n (pre ++ post); Some (s :: o)
  end.

Lemma first_free_some l pre post p s q :
  first_free l pre post = Some (p, s, q) ->
  pre ++ post = p ++ s :: q /\ blocked l s = false /\ exists mid, p = pre ++ mid /\ Forall (fun t => blocked l t = true) mid.
Proof.
  revert pre. induction post as [|t post IH]; intros pre; cbn; [done|]. destruct (blocked l t) eqn:Ht.
  - intros (Happ & Hs & mid & -> & Hmid)%IH. rewrite <-!app_assoc in Happ. cbn [app] in Happ. rewrite <-!app_assoc. split; [exact Happ|].
    split; [done|]. exists (t :: mid). split; [done|by constructor].
  - intros [= <- <- <-]. split; [done|]. split; [done|]. exists []. by rewrite app_nil_r.
Qed.

Lemma first_free_none l pre post : first_free l pre post = None -> Forall (fun t => blocked l t = true) post.
Proof.
  revert pre. induction post as [|t post IH]; intros pre; cbn; [constructor|]. destruct (blocked l t) eqn:Ht; [|done].
  intros ?%IH. by constructor.
Qed.

Lemma first_free_intro l pre acc t post :
  Forall (fun t => blocked l t = true) pre -> blocked l t = false -> first_free l acc (pre ++ t :: post) = Some (acc ++ pre, t, post).
Proof.
  revert acc. induction pre as [|u pre IH]; intros acc Hpre Ht; cbn [app first_free]; [by rewrite Ht, app_nil_r|].
  apply Forall_cons_1 in Hpre as [Hu Hpre]. rewrite Hu, IH by done. by rewrite <-app_assoc.
Qed.

Lemma blocked_false l s t : blocked l s = false -> t ∈ l -> more t s = false.
Proof.
  intros Hb Ht. destruct (more t s) eqn:Hm; [|done]. rewrite <-Hb. symmetry. apply existsb_exists. exists t.
  split; [|done]. by apply list_elem_of_In.
Qed.

Lemma blocked_true l t : blocked l t = true -> exists u, u ∈ l /\ more u t = true.
Proof. intros (u & Hu & Hm)%existsb_exists. exists u. by rewrite list_elem_of_In. Qed.

Lemma sort_sections_perm n l o : sort_sections n l = Some o -> o ≡ₚ l.
Proof.
  revert l o. induction n as [|n IH]; intros [|x l] o; cbn [sort_sections]; try done; try by intros [= <-].
  intros ([[p s] q] & Hf & (o' & Ho & [= <-])%bind_Some)%bind_Some. apply first_free_some in Hf as (Happ & _).
  cbn [app] in Happ. rewrite Happ, (IH _ _ Ho). apply Permutation_middle.
Qed.

Lemma sort_sections_respects n l o : sort_sections n l = Some o -> respects o.
Proof.
  revert l o. induction n as [|n IH]; intros [|x l] o; cbn [sort_sections]; try done;
    try by intros [= <-]; intros pre s post t H; destruct pre.
  intros ([[p s] q] & Hf & (o' & Ho & [= <-])%bind_Some)%bind_Some.
  pose proof (sort_sections_perm _ _ _ Ho) as Hperm. apply IH in Ho. apply first_free_some in Hf as (Happ & Hb & _). cbn [app] in Happ.
  intros [|y pre] s' post t Heq Ht; injection Heq as <- Heq.
  - subst o'. apply (blocked_false _ _ _ Hb). rewrite Happ. rewrite Hperm in Ht. set_solver.
  - by eapply Ho.
Qed.

Lemma sort_sections_ties n l o : increasing (strset_comparator None) l -> sort_sections n l = Some o -> ties_sorted o.
Proof.
  revert l o. induction n as [|n IH]; intros [|x l] o Hi; cbn [sort_sections]; try done;
    try by intros [= <-]; intros pre s post t H; destruct pre.
  intros ([[p s] q] & Hf & (o' & Ho & [= <-])%bind_Some)%bind_Some.
  pose proof (sort_sections_perm _ _ _ Ho) as Hperm. apply first_free_some in Hf as (Happ & Hb & mid & Hmid & Hall). cbn [app] in Happ, Hmid.
  subst mid. rewrite Happ in Hi. apply IH in Ho; [|by eapply increasing_without].
  intros [|y pre] s' post t Heq Ht Hlt; injection Heq as <- Heq.
  - subst o'. rewrite Hperm in Ht. apply elem_of_app in Ht as [Ht|Ht].
    + apply (proj1 (list.Forall_forall _ _) Hall) in Ht. apply blocked_true in Ht as (u & Hu & Hm). exists u. split; [|done].
      rewrite Happ in Hu. rewrite elem_of_cons, Hperm. set_solver.
    + exfalso. apply increasing_app in Hi as (_ & [Hs _] & _).
      apply (proj1 (list.Forall_forall _ _) Hs) in Ht. rewrite strset_comparator_sgn in Ht. rewrite strcmp_opp in Hlt. lia.
  - by eapply Ho.
Qed.

(** There is one such order only. *)
Lemma order_unique o o' :
  NoDup o -> o ≡ₚ o' -> respects o -> ties_sorted o -> respects o' -> ties_sorted o' -> o = o'.
Proof.
  assert (Htl : forall s l, (respects (s :: l) -> respects l) /\ (ties_sorted (s :: l) -> ties_sorted l)).
  { intros s l. split; intros Hl pre t post u ->; by apply (Hl (s :: pre) t post u). }
  assert (Hirr : forall s, more s s = false).
  { intros s. unfold section_is_more_important. assert (strcmp s s = 0) as -> by by apply strcmp_eq. done. }
  assert (Hfirst : forall s l s' l', s :: l ≡ₚ s' :: l' -> s <> s' -> ties_sorted (s :: l) -> respects (s' :: l') -> ~ strcmp s' s < 0).
  { intros s l s' l' Hp Hne Ht Hr Hlt. assert (s' ∈ l) by (assert (s' ∈ s :: l) by (rewrite Hp; by left); set_solver).
    destruct (Ht [] s l s') as (u & Hu & Hm); [done..|]. rewrite Hp in Hu. apply elem_of_cons in Hu as [->|Hu]; [by rewrite Hirr in Hm|].
    specialize (Hr [] s' l' u eq_refl Hu). congruence. }
  revert o'. induction o as [|s l IH]; intros [|s' l'] Hnd Hp Hr Ht Hr' Ht'.
  - done.
  - by apply Permutation_nil_cons in Hp.
  - symmetry in Hp. by apply Permutation_nil_cons in Hp.
  - destruct (decide (s = s')) as [<-|Hne].
    + f_equal. apply NoDup_cons_1_2 in Hnd. apply IH; [done|by apply Permutation_cons_inv in Hp|by eapply Htl..].
    + exfalso. pose proof (Hfirst s l s' l' Hp Hne Ht Hr'). pose proof (Hfirst s' l' s l (symmetry Hp) (not_eq_sym Hne) Ht' Hr) as Hlt.
      rewrite strcmp_opp in Hlt. assert (strcmp s' s <> 0) by (rewrite strcmp_eq; by intros ->). lia.
Qed.

(** A strict ranking leaves a section that is not blocked. *)
Lemma first_free_ranked (rank : cstr -> nat) l :
  (forall s t, more s t = true -> (rank s < rank t)%nat) -> l <> [] -> first_free l [] l <> None.
Proof.
  intros Hrank Hne Hnone%first_free_none.
  assert (Hmin : exists m, m ∈ l /\ forall u, u ∈ l -> (rank m <= rank u)%nat).
  { clear Hnone. induction l as [|x l IH]; [done|]. destruct l as [|y l].
    - exists x. split; [by left|]. intros u Hu. apply list_elem_of_singleton in Hu as ->. done.
    - destruct (IH ltac:(done)) as (m & Hm & Hle). destruct (decide (rank x <= rank m)%nat).
      + exists x. split; [by left|]. intros u [->|Hu]%elem_of_cons; [done|]. specialize (Hle u Hu). lia.
      + exists m. split; [by right|]. intros u [->|Hu]%elem_of_cons; [lia|]. by apply Hle. }
  destruct Hmin as (m & Hm & Hle). apply (proj1 (list.Forall_forall _ _) Hnone) in Hm.
  apply blocked_true in Hm as (u & Hu & Hlt%Hrank). specialize (Hle u Hu). lia.
Qed.

Lemma sort_sections_total (rank : cstr -> nat) n l :
  (forall s t, more s t = true -> (rank s < rank t)%nat) -> (length l <= n)%nat -> sort_sections n l <> None.
Proof.
  intros Hrank. revert l. induction n as [|n IH]; intros [|x l] Hl; cbn [sort_sections] in *; try done; [cbn in Hl; lia|].
  destruct (first_free (x :: l) [] (x :: l)) as [[[p s] q]|] eqn:Hf.
  2:{ by apply (first_free_ranked rank) in Hf. }
  pose proof (first_free_some _ _ _ _ _ _ Hf) as (Happ & _). cbn.
  destruct (sort_sections n (p ++ q)) eqn:Hs; [done|]. exfalso. revert Hs. apply IH.
  apply (f_equal length) in Happ. rewrite !length_app in *. cbn in *. lia.
Qed.
End order.

(** ** The rules have no cycle *)

Definition literal (s : cstr) : list glob := GChar <$> s.

Definition order_globs : list (list glob * list glob) :=
  [(literal (cs "1m"), literal (cs "1b")); ([GChar "8"; GStar], literal (cs "1b"));
   ([GChar "8"; GStar], [GRange "2" "7"; GStar]); (literal (cs "3c"), [GChar "3"; GAny; GStar]);
   (literal (cs "3socket"), literal (cs "3xnet")); (literal (cs "3socket"), literal (cs "3head"))]%char.

Lemma orders_are_globs : cm_manorders = (prod_map print_glob print_glob <$> order_globs) ++ [([], [])].
Proof. done. Qed.

Lemma literal_match s t : glob_match (literal s) t -> t = s.
Proof.
  revert t. induction s as [|c s IH]; intros t; cbn; [done|]. by intros (s' & -> & ->%IH).
Qed.

(** A rule that makes one section more important than another. *)
Lemma more_important_rule fnmatch s t :
  fnmatch_glob fnmatch -> section_is_more_important fnmatch s t = true ->
  s <> t /\ Exists (fun p => glob_match p.1 s /\ glob_match p.2 t) order_globs.
Proof.
  intros Hg. unfold section_is_more_important. destruct (Z.eqb_spec (strcmp s t) 0) as [|Hne]; [done|]. rewrite strcmp_eq in Hne.
  intros Hm. split; [done|]. rewrite orders_are_globs in Hm.
  assert (Hplain : Forall (fun p => Forall plain_glob p.1 /\ Forall plain_glob p.2 /\ p.1 <> []) order_globs)
    by (repeat constructor; cbn; done || by_decide).
  induction Hplain as [|[a b] rules (Ha & Hb & Hn) _ IH]; [done|]. cbn [fmap list_fmap prod_map app more_important_loop fst snd] in Hm.
  cbn [fst snd] in Ha, Hb, Hn. assert (Hpa : print_glob a <> []) by by destruct a as [|[] ?].
  destruct (print_glob a) as [|c pa] eqn:Hca; [done|]. rewrite <-Hca in Hm.
  destruct (Z.eqb_spec (fnmatch (print_glob a) s 0) 0) as [Hs|]; cbn [andb] in Hm.
  2:{ apply Exists_cons_tl. by apply IH. }
  destruct (Z.eqb_spec (fnmatch (print_glob b) t 0) 0) as [Ht|]; [|apply Exists_cons_tl; by apply IH].
  apply Exists_cons_hd. cbn. by apply Hg in Hs, Ht.
Qed.

Definition section_rank (s : cstr) : nat :=
  match s with
  | c :: _ =>
      if decide (c = "8"%char \/ s = cs "1m") then 0
      else if decide (s = cs "3c") then 1
      else if decide (s = cs "3socket") then 2 else 3
  | [] => 3
  end.

Lemma section_rank_8 s : section_rank ("8"%char :: s) = 0%nat.
Proof. cbn [section_rank]. by rewrite decide_True by by left. Qed.

Lemma section_rank_pos c s : c <> "8"%char -> c <> "1"%char -> (0 < section_rank (c :: s))%nat.
Proof.
  intros H8 H1. cbn [section_rank]. rewrite decide_False by (intros [->|[= -> _]]; done). repeat case_decide; lia.
Qed.

Lemma orders_ranked fnmatch s t :
  fnmatch_glob fnmatch -> section_is_more_important fnmatch s t = true -> (section_rank s < section_rank t)%nat.
Proof.
  intros Hg (Hne & Hr)%more_important_rule; [|done]. unfold order_globs in Hr.
  rewrite !Exists_cons, Exists_nil in Hr. cbn [fst snd glob_match] in Hr.
  destruct Hr as [[->%literal_match ->%literal_match]|[[(s' & -> & _) ->%literal_match]|[[(s' & -> & _) (c & t' & -> & Hc & _)]|
    [[->%literal_match (t' & -> & c & t2 & -> & _)]|[[->%literal_match ->%literal_match]|
    [[->%literal_match ->%literal_match]|[]]]]]]].
  - by_decide.
  - rewrite section_rank_8. by_decide.
  - rewrite section_rank_8. apply section_rank_pos; intros ->; revert Hc; by_decide.
  - change (section_rank (cs "3c")) with 1%nat. cbn [section_rank]. rewrite decide_False by by intros [|].
    rewrite decide_False by (intros Heq; by apply Hne). case_decide; lia.
  - by_decide.
  - by_decide.
Qed.

(** ** The walks of the sort *)

Section sort_facts.
Context `{AvlTree cstr, !AvlLaws cstr} `{DM : DataModel} (fnmatch : cstr -> cstr -> Z -> Z).
Implicit Types (mcf : mancf) (out l o : list cstr).

Notation more := (section_is_more_important fnmatch).

Lemma run_blocked_check {E} set l s X (e : E) :
  seq_nodes set l -> (length l < walk_fuel set)%nat ->
  run (with_var false (strset_walk (walk_fuel set) set (section_sort_walk_blocked_check fnmatch s)))
    (fun '(r, set', b) e' => r = 0 /\ set' = set /\ b = blocked fnmatch l s /\ e' = e) X e.
Proof.
  intros Hset Hf. apply run_with_var.
  eapply run_mono; [apply (run_strset_walk _ _ l set
    (fun seen ev => ev = (e, false) /\ Forall (fun t => more t s = false) seen)
    (fun _ t rm ev => rm = false /\ more t s = true /\ ev = (e, true)))| |done]; [done|done|by split| |].
  - intros pre t post ev Hl [-> Hseen]. unfold section_sort_walk_blocked_check. destruct (more t s) eqn:Ht; run_steps; (split; [done|]).
    + right. by exists false.
    + left. split; [done|]. split; [done|]. apply Forall_app. split; [done|]. by repeat constructor.
  - intros [r set'] ev [Hr [[Hset' [-> Hall]]|(pre & t & post & rm & Hl & (-> & Ht & ->) & Hset')]]; cbn in *; subst r set'.
    + split_and!; try done. unfold blocked. symmetry. apply not_true_is_false. intros (t & Ht & Hm)%existsb_exists.
      rewrite list.Forall_forall in Hall. rewrite (Hall t) in Hm; [done|]. by apply list_elem_of_In.
    + split_and!; try done. symmetry. apply existsb_exists. exists t. split; [|done]. subst l. apply list_elem_of_In. set_solver.
Qed.

(** The list of sections and the output of a state. *)
Definition sorting mcf l o : Prop :=
  strset_seq 0 (mcf_sections mcf) l /\ strlist_text (mcf_output mcf) o.

(** One turn of the loop of [main]. *)
Lemma run_sort_walk mcf l o out X :
  sorting mcf l o -> Forall str_ok l -> Zlen o <= LIST_STRINGS_MAX ->
  run (with_var false (strset_walk (walk_fuel (mcf_sections mcf)) (mcf_sections mcf) (section_sort_walk fnmatch)))
    (fun '(r, ss, progress) e' => r = 0 /\
       match first_free fnmatch l [] l with
       | Some (pre, s, post) => progress = true /\ strset_seq 0 ss (pre ++ post) /\
           exists sl, strlist_text sl (o ++ [s]) /\ e' = ToolEnv out (set_output mcf sl)
       | None => progress = false /\ e' = ToolEnv out mcf
       end) X (ToolEnv out mcf).
Proof.
  intros [Hss Ho] Hok Hlen. pose proof Hss as (Hn & Hfl & Hw). apply run_with_var.
  eapply run_mono; [apply (run_strset_walk _ _ l (mcf_sections mcf)
    (fun seen ev => ev = (ToolEnv out mcf, false) /\ Forall (fun t => blocked fnmatch l t = true) seen)
    (fun pre t rm ev => rm = true /\ Forall (fun t => blocked fnmatch l t = true) pre /\ blocked fnmatch l t = false /\
       exists sl, strlist_text sl (o ++ [t]) /\ ev = (ToolEnv out (set_output mcf sl), true)))| |done];
    [done|by eapply walk_fuel_ok|by split| |].
  - intros pre t post ev Hl [-> Hpre]. unfold section_sort_walk. apply run_bind.
    eapply run_use; [apply (run_blocked_check _ l); [done|]|].
    { change (walk_fuel (with_walking (mcf_sections mcf) (ss_walking (mcf_sections mcf) + 1))) with (walk_fuel (mcf_sections mcf)).
      by eapply walk_fuel_ok. }
    intros [[r set'] b] ev (-> & -> & -> & ->). change (negb (0 =? 0)) with false. cbn beta iota.
    destruct (blocked fnmatch l t) eqn:Ht; cbn [negb].
    + run_steps. split; [done|]. left. split; [done|]. split; [done|]. apply Forall_app. split; [done|]. by repeat constructor.
    + run_steps. eapply run_set_tail; [exact Ho|done| |].
      { apply (proj1 (list.Forall_forall _ _) Hok). subst l. set_solver. }
      intros sl Hsl. run_steps. split; [done|]. right. exists true. split; [done|]. split_and!; try done. by exists sl.
  - intros [r ss] ev [Hr Hpost]. cbn in Hr, Hpost. subst r.
    destruct Hpost as [[-> [-> Hall]]|(pre & t & post & rm & Hl & (-> & Hpre & Ht & sl & Hsl & ->) & Hss')].
    + split; [done|]. destruct (first_free fnmatch l [] l) as [[[p t] q]|] eqn:Hf; [|done].
      apply first_free_some in Hf as (Heq & Ht & _). cbn [app] in Heq. rewrite list.Forall_forall in Hall. rewrite (Hall t) in Ht; [done|].
      rewrite Heq. set_solver.
    + split; [done|]. assert (first_free fnmatch l [] l = Some (pre, t, post)) as -> by (rewrite Hl at 2; by apply (first_free_intro fnmatch l pre [])). cbn [snd] in *. destruct Hss' as (Hn' & Hfl' & Hw').
      split; [done|]. split; [|by exists sl]. split; [done|]. split; congruence.
Qed.

Lemma run_sort_loop n fuel mcf l o so out X :
  sorting mcf l o -> Forall str_ok l -> Zlen o + Zlen l <= LIST_STRINGS_MAX ->
  sort_sections fnmatch n l = Some so -> (n < fuel)%nat ->
  run (sort_loop fnmatch fuel)
    (fun _ e' => exists mcf', e' = ToolEnv out mcf' /\ mcf_trailing_comma mcf' = mcf_trailing_comma mcf /\
       strlist_text (mcf_output mcf') (o ++ so)) X (ToolEnv out mcf).
Proof.
  revert fuel mcf l o so. induction n as [|n IH]; intros [|fuel] mcf l o so Hs Hok Hlen Hso Hf; try lia; cbn [sort_loop].
  all: pose proof Hs as [Hss Ho]; run_steps; pose proof (Zlen_nonneg o);
    rewrite (seq_count_small _ _ _ Hss) by (unfold LIST_STRINGS_MAX, INT_MAX in *; lia).
  all: destruct l as [|x l]; [injection Hso as <-; change (negb (0 <? Zlen [])) with true; cbn beta iota; run_steps;
    exists mcf; by rewrite app_nil_r|]; try done.
  assert (0 <? Zlen (x :: l) = true) as -> by zlen. cbn [negb]. cbn [sort_sections] in Hso.
  apply bind_Some in Hso as ([[p s] q] & Hff & (o' & Hso & [= <-])%bind_Some).
  apply run_bind. eapply run_use; [apply (run_sort_walk mcf (x :: l) o out); [done|done|pose proof (Zlen_nonneg l); zlen]|].
  pose proof (Zlen_nonneg l). intros [[r ss] b] e' [-> Hpost]. rewrite Hff in Hpost. destruct Hpost as (-> & Hss' & sl & Hsl & ->).
  change (negb (0 =? 0)) with false. cbn beta iota. run_steps. cbn [negb].
  apply first_free_some in Hff as (Happ & _ & _). cbn [app] in Happ.
  eapply run_mono; [eapply (IH fuel _ (p ++ q) (o ++ [s])); [by split| | |done|lia]| |done].
  - rewrite Happ in Hok. apply Forall_app in Hok as [? [_ ?]%Forall_cons_1]. by apply Forall_app.
  - rewrite Happ in Hlen. autorewrite with zlen in *. lia.
  - intros [] e' (mcf' & -> & Ht & Hout). exists mcf'. split; [done|]. split; [done|]. by rewrite <-app_assoc in Hout.
Qed.
End sort_facts.

(** ** The text of the file *)

(** The sections separated by commas, or each followed by one. *)
Definition sections_text (trailing : bool) (o : list cstr) : cstr :=
  if trailing then o ≫= (fun s => s ++ cs ",") else join_fields ","%char o.

Section text_facts.
Context `{AvlTree cstr} `{DM : DataModel}.
Implicit Types (mcf : mancf) (out o : list cstr).

Lemma run_append cu t s (Q : Z * custr -> tool_env mancf -> Prop) X e :
  custr_text cu t -> t <> [] \/ text_fits s -> NUL ∉ s -> Zlen t + Zlen s + 1 <= CUSTR_MAX ->
  (forall cu', custr_text cu' (t ++ s) -> Q (0, cu') e) -> run (custr_append cu s) Q X e.
Proof.
  intros Hcu Hfit Hs Hlen HQ. unfold custr_append. rewrite c_text_id by done. eapply run_append_printf; [exact Hcu| |done|done].
  destruct Hfit as [Ht|(_ & _ & ?)]; [left|by right]. destruct Hcu as [Hcu _]. unfold custr_rep in Hcu.
  destruct (cus_data cu); [done|]. by destruct Hcu as (_ & _ & _ & ->).
Qed.

Lemma sections_text_snoc trailing o s :
  sections_text trailing (o ++ [s]) =
  sections_text trailing o ++ (if trailing then s ++ cs "," else match o with [] => s | _ => cs "," ++ s end).
Proof.
  unfold sections_text. destruct trailing; [by rewrite bind_app; cbn; rewrite app_nil_r|].
  induction o as [|x [|y o] IH]; [done|done|].
  change (join_fields "," ((x :: y :: o) ++ [s])) with (x ++ ","%char :: join_fields "," ((y :: o) ++ [s])).
  rewrite IH. change (join_fields "," (x :: y :: o)) with (x ++ ","%char :: join_fields "," (y :: o)). by rewrite <-app_assoc.
Qed.

Lemma run_append_to_str mcf s cu o out (Q : custr -> tool_env mancf -> Prop) X :
  custr_text cu (sections_text (mcf_trailing_comma mcf) o) -> Forall (fun s => s <> []) o ->
  o <> [] \/ text_fits s -> NUL ∉ s ->
  Zlen (sections_text (mcf_trailing_comma mcf) o) + Zlen s + 3 <= CUSTR_MAX ->
  (forall cu', custr_text cu' (sections_text (mcf_trailing_comma mcf) (o ++ [s])) -> Q cu' (ToolEnv out mcf)) ->
  run (append_to_str s cu) Q X (ToolEnv out mcf).
Proof.
  intros Hcu Hne Hfit Hs Hlen HQ. unfold append_to_str. setoid_rewrite sections_text_snoc in HQ. run_steps.
  pose proof (Zlen_nonneg s).
  assert (Hnil : sections_text (mcf_trailing_comma mcf) o = [] <-> o = []).
  { split; [|by intros ->; destruct (mcf_trailing_comma mcf)]. destruct Hne as [|x o Hx Hne]; [done|].
    unfold sections_text. destruct x; [done|]. by destruct (mcf_trailing_comma mcf), o. }
  assert (custr_len cu = Zlen (sections_text (mcf_trailing_comma mcf) o)) as -> by apply custr_rep_len, Hcu.
  set (t := sections_text (mcf_trailing_comma mcf) o) in *. destruct (mcf_trailing_comma mcf) eqn:Htr; cbn [negb andb].
  - run_steps. eapply run_append; [exact Hcu| |done|lia|].
    { destruct Hfit as [Ho|]; [left; naive_solver|by right]. }
    intros cu1 Hcu1. change (negb (0 =? 0)) with false. cbn beta iota. run_steps. eapply run_appendc; [exact Hcu1|zlen|].
    intros cu2 Hcu2. change (negb (0 =? 0)) with false. cbn beta iota. run_steps. apply HQ. by rewrite <-app_assoc in Hcu2.
  - destruct t as [|c t'] eqn:Ht; [change (0 <? Zlen []) with false|assert (0 <? Zlen (c :: t') = true) as -> by zlen].
    + destruct Hnil as [Hnil _]. rewrite (Hnil eq_refl) in *. run_steps. eapply run_append; [exact Hcu| |done|lia|].
      { destruct Hfit as [|]; [done|by right]. }
      intros cu1 Hcu1. change (negb (0 =? 0)) with false. cbn beta iota. run_steps. by apply HQ.
    + destruct o as [|x o]; [by destruct Hnil as [_ Hnil]; specialize (Hnil eq_refl)|]. run_steps.
      eapply run_appendc; [exact Hcu|lia|]. intros cu1 Hcu1. change (negb (0 =? 0)) with false. cbn beta iota. run_steps.
      eapply run_append; [exact Hcu1|by left|done|zlen|]. intros cu2 Hcu2. change (negb (0 =? 0)) with false. cbn beta iota. run_steps.
      apply HQ. by rewrite <-app_assoc in Hcu2.
Qed.

(** The sections fit the string that is built. *)
Definition sections_fit (o : list cstr) : Prop :=
  Forall (fun s => s <> [] /\ text_fits s) o /\ Zlen o <= LIST_STRINGS_MAX /\ Zlen (sections_text true o) + 3 <= CUSTR_MAX.

Lemma sections_fit_perm o o' : o ≡ₚ o' -> sections_fit o -> sections_fit o'.
Proof.
  intros Hp (Hall & Hl & Ht). unfold sections_fit.
  assert (Zlen o' = Zlen o) as -> by (unfold Zlen; by rewrite Hp).
  assert (Zlen (sections_text true o') = Zlen (sections_text true o)) as -> by (unfold Zlen, sections_text; by rewrite Hp).
  split; [|by split]. by rewrite <-Hp.
Qed.

Lemma sections_text_le trailing pre s post :
  Zlen (sections_text trailing pre) + Zlen s <= Zlen (sections_text true (pre ++ s :: post)).
Proof.
  assert (Hle : forall o, Zlen (sections_text trailing o) <= Zlen (sections_text true o)).
  { intros o. destruct trailing; [done|]. cbn [sections_text]. induction o as [|x [|y o] IH]; [done|cbn; zlen|].
    change (join_fields "," (x :: y :: o)) with (x ++ ","%char :: join_fields "," (y :: o)).
    change ((x :: y :: o) ≫= (fun s => s ++ cs ",")) with ((x ++ cs ",") ++ ((y :: o) ≫= (fun s => s ++ cs ","))).
    autorewrite with zlen in *. change (Zlen (cs ",")) with 1. lia. }
  specialize (Hle pre). unfold sections_text in *. rewrite bind_app. cbn [mbind list_bind]. autorewrite with zlen in *.
  pose proof (Zlen_nonneg (cs ",")). pose proof (Zlen_nonneg (post ≫= (fun s => s ++ cs ","))). unfold mbind in *. lia.
Qed.

Lemma run_sects_loop fuel mcf cu pre post out (Q : custr -> tool_env mancf -> Prop) X :
  strlist_text (mcf_output mcf) (pre ++ post) -> sections_fit (pre ++ post) -> (length post < fuel)%nat ->
  custr_text cu (sections_text (mcf_trailing_comma mcf) pre) ->
  (forall cu', custr_text cu' (sections_text (mcf_trailing_comma mcf) (pre ++ post)) -> Q cu' (ToolEnv out mcf)) ->
  run (sects_loop fuel (Z.of_nat (length pre)) cu) Q X (ToolEnv out mcf).
Proof.
  revert cu pre post. induction fuel as [|fuel IH]; intros cu pre post Hl Hfit Hf Hcu HQ; [lia|]. cbn [sects_loop].
  run_steps. eapply run_contig_count; [exact Hl|]. destruct post as [|s post].
  - rewrite app_nil_r in *. assert (Z.of_nat (length pre) <? Zlen pre = false) as -> by (unfold Zlen; lia). cbn [negb]. run_steps. by apply HQ.
  - assert (Z.of_nat (length pre) <? Zlen (pre ++ s :: post) = true) as -> by (rewrite Zlen_app, Zlen_cons; pose proof (Zlen_nonneg post); unfold Zlen in *; lia).
    cbn [negb]. run_steps. eapply run_strlist_get; [exact Hl|]. rewrite list_lookup_middle by done. run_steps.
    eapply run_access; [done|]. apply run_bind.
    destruct Hfit as (Hall & Hn & Ht). pose proof Hall as [Hpre [[Hs0 Hs] _]%Forall_cons_1]%Forall_app.
    pose proof (sections_text_le (mcf_trailing_comma mcf) pre s post) as Hle.
    eapply run_append_to_str; [exact Hcu| |by right|apply Hs|lia|].
    { eapply Forall_impl; [|exact Hpre]. by intros x [? _]. }
    intros cu' Hcu'.
    assert (u32 (Z.of_nat (length pre) + 1) = Z.of_nat (length (pre ++ [s]))) as ->.
    { rewrite length_app. cbn [length]. autorewrite with zlen in Hn. pose proof (Zlen_nonneg post). unfold LIST_STRINGS_MAX, Zlen in *.
      rewrite u32_small by (unfold UINT_MAX; lia). lia. }
    assert (Happ : pre ++ s :: post = (pre ++ [s]) ++ post) by by rewrite <-app_assoc.
    rewrite Happ in *. apply (IH cu' (pre ++ [s]) post); [done|by split|cbn in Hf; lia|done|done].
Qed.

Lemma run_make_sects mcf o out (Q : () -> tool_env mancf -> Prop) X :
  strlist_text (mcf_output mcf) o -> sections_fit o ->
  Q tt (ToolEnv (out ++ [filestr (sections_text (mcf_trailing_comma mcf) o)]) mcf) ->
  run make_sects Q X (ToolEnv out mcf).
Proof.
  intros Ho Hfit HQ. unfold make_sects. apply run_bind, run_custr_alloc. intros cu Hcu. run_steps.
  eapply run_contig_count; [exact Ho|]. run_steps.
  eapply (run_sects_loop _ mcf cu [] o); [done|done|unfold Zlen; lia|by destruct (mcf_trailing_comma mcf)|].
  intros cu' Hcu'. run_steps. eapply run_custr_cstr; [exact Hcu'|]. rewrite c_text_id; [by run_steps|].
  destruct Hfit as (Hall & _). cbn [app]. assert (Hnul : forall s, s ∈ o -> NUL ∉ s).
  { intros s Hs. rewrite list.Forall_forall in Hall. by apply (Hall s). }
  clear -Hnul. unfold sections_text. destruct (mcf_trailing_comma mcf).
  - unfold is_cstr. rewrite list_elem_of_bind. intros (s & [Hs|Hs]%elem_of_app & Hin); [by apply (Hnul s)|].
    revert Hs. by_decide.
  - induction o as [|x [|y o] IH]; [by intros ?%not_elem_of_nil|by apply Hnul; left|].
    change (join_fields "," (x :: y :: o)) with (x ++ ","%char :: join_fields "," (y :: o)).
    intros [Hx|[Hx|Hx]%elem_of_cons]%elem_of_app; [by apply (Hnul x); [left|]|done|].
    apply IH; [|done]. intros s Hs. apply Hnul. by right.
Qed.
End text_facts.

(** ** The program *)

Section program.
Context `{AvlTree cstr, !AvlLaws cstr} `{DM : DataModel} `{FileSystem} (fnmatch : cstr -> cstr -> Z -> Z) (strerror : Z -> cstr).
Hypothesis Hglob : fnmatch_glob fnmatch.
Implicit Types (mcf : mancf) (out : list cstr).

Definition man_prefix : cstr := cs "usr/share/man/man".

(** The sections of a manifest: what follows the prefix, in the names of directories. *)
Definition section_of (name : cstr) : option cstr :=
  if decide (man_prefix `prefix_of` name) then
    let sect := drop (length man_prefix) name in
    if decide (sect = [] \/ SLASH ∈ sect) then None else Some sect
  else None.
Definition shipped_sections (es : list manifest_ent) : list cstr :=
  omap (fun me => match me_type me with ME_TYPE_DIRECTORY => name ← me_name me; section_of name | _ => None end) es.

Lemma shipped_sections_snoc es me name :
  me_name me = Some name ->
  shipped_sections (es ++ [me]) = shipped_sections es ++
    (if decide (me_type me = ME_TYPE_DIRECTORY) then option_list (section_of name) else []).
Proof.
  intros Hme. unfold shipped_sections. rewrite omap_app. f_equal. cbn. rewrite Hme. by destruct (me_type me); cbn; try destruct (section_of name).
Qed.

Lemma section_of_ok name sect : section_of name = Some sect -> short name -> str_ok sect.
Proof.
  unfold section_of. repeat case_decide; try done. intros [= <-] Hs%short_str_ok. unfold str_ok in *. zlen.
Qed.

Lemma run_populate_sections me name pre ss mcf out (Q : Z -> tool_env mancf -> Prop) (X : Z -> Prop) :
  me_name me = Some name -> short name -> strset_seq 0 ss (seq_of (shipped_sections pre)) -> NoDup (shipped_sections pre) ->
  (forall ss', strset_seq 0 ss' (seq_of (shipped_sections (pre ++ [me]))) -> NoDup (shipped_sections (pre ++ [me])) ->
     Q MECB_NEXT (ToolEnv out (set_sections mcf ss'))) ->
  (~ NoDup (shipped_sections (pre ++ [me])) -> X 1) ->
  run (populate_sections me) Q X (ToolEnv out (set_sections mcf ss)).
Proof.
  intros Hme Hs Hss Hnd HQ HX. rewrite (shipped_sections_snoc _ _ name Hme) in HQ, HX.
  unfold populate_sections. apply run_bind, run_malloc; [by vm_compute|]. intros a.
  assert (Hskip : run (mret MECB_NEXT) Q X (ToolEnv out (set_sections mcf ss)) \/
    exists sect, me_type me = ME_TYPE_DIRECTORY /\ section_of name = Some sect).
  { destruct (decide (me_type me = ME_TYPE_DIRECTORY)); [destruct (section_of name) as [sect|]; [right; by exists sect|]|];
      left; apply run_ret; cbn in HQ; rewrite app_nil_r in HQ; by apply HQ. }
  destruct (me_type me) eqn:Hty; try by (destruct Hskip as [?|(? & ? & _)]).
  apply run_bind. eapply run_access; [exact Hme|]. change (cm_pdir ++ cs "/man") with man_prefix. rewrite strncmp_prefix.
  case_bool_decide as Hp; cbn [negb].
  2:{ destruct Hskip as [?|(sect & _ & Hsect)]; [done|]. unfold section_of in Hsect. by rewrite decide_False in Hsect. }
  unfold section_of in *. rewrite decide_True in * by done. set (sect := drop (length man_prefix) name) in *.
  pose proof (Zlen_nonneg sect) as Hnn.
  destruct ((Zlen sect <? 1) || bool_decide (SLASH ∈ sect)) eqn:Hb.
  { destruct Hskip as [?|(? & _ & Hsect)]; [done|]. case_decide as Hd; [done|]. exfalso. apply Hd.
    apply orb_true_iff in Hb as [Hb|Hb%bool_decide_eq_true]; [left|by right].
    apply length_zero_iff_nil. unfold Zlen in *. lia. }
  apply orb_false_iff in Hb as [Hl Hsl%bool_decide_eq_false]. rewrite decide_True in HQ, HX by done.
  rewrite decide_False in HQ, HX by (intros [Hn|?]; [by rewrite Hn in Hl|done]). change (option_list (Some sect)) with [sect] in HQ, HX.
  run_steps. apply run_bind. eapply run_strset_add; [exact Hss| | |].
  - apply short_str_ok in Hs. assert (Zlen sect <= Zlen name) by (unfold sect, Zlen; rewrite length_drop; lia).
    unfold str_ok in *. lia.
  - intros Hin _. change (negb (-1 =? 0)) with true. cbn beta iota. apply run_exit, HX. rewrite elem_of_seq_of in Hin.
    rewrite list.NoDup_app. intros (_ & Hd & _). apply (Hd sect Hin). by left.
  - intros ss' [Hni|?] Hss'; [|done]. change (negb (0 =? 0)) with false. cbn beta iota. run_steps.
    rewrite elem_of_seq_of in Hni. apply HQ.
    + by rewrite seq_add_snoc.
    + apply list.NoDup_app. split_and!; [done| |apply NoDup_singleton]. intros x Hx ->%list_elem_of_singleton. done.
Qed.

Lemma seq_of_perm l : NoDup l -> seq_of l ≡ₚ l.
Proof.
  induction l as [|s l IH] using rev_ind; [done|]. rewrite seq_add_snoc. intros (Hnd & Hd & _)%list.NoDup_app.
  unfold seq_add. rewrite decide_False.
  - rewrite insert_sorted_perm, IH by done. by rewrite Permutation_app_comm.
  - rewrite elem_of_seq_of. intros Hin. apply (Hd s Hin). by left.
Qed.

Lemma run_read_sections path es mcf out X :
  manifest_has (fs_manifest path) es -> strset_seq 0 (mcf_sections mcf) [] ->
  (forall st, st = 1 /\ ~ NoDup (shipped_sections es) -> X st) ->
  run (read_manifest_file path (fs_manifest path) populate_sections)
    (fun r e' => r = 0 /\ NoDup (shipped_sections es) /\ exists ss, strset_seq 0 ss (seq_of (shipped_sections es)) /\
       e' = ToolEnv out (set_sections mcf ss)) X (ToolEnv out mcf).
Proof.
  intros Hman Hss HX. pose proof Hman as (mf & _ & _ & Hshort & _ & Hes). pose proof (manifest_names _ _ Hshort Hes) as Hnames.
  apply (run_read_manifest path _ populate_sections (fun pre e' => NoDup (shipped_sections pre) /\
    exists ss, strset_seq 0 ss (seq_of (shipped_sections pre)) /\ e' = ToolEnv out (set_sections mcf ss))); [done| |].
  - split; [constructor|]. exists (mcf_sections mcf). split; [done|]. by destruct mcf.
  - intros pre me post e' -> (Hnd & ss & Hs & ->). apply Forall_app in Hnames as [_ [(name & Hme & Hname) _]%Forall_cons_1].
    eapply run_populate_sections; [done|done|done|done| |].
    + intros ss' Hs' Hnd'. split; [done|]. split; [done|]. by exists ss'.
    + intros Hnd'. apply HX. split; [done|]. intros Hall. apply Hnd'.
      change (me :: post) with ([me] ++ post) in Hall. unfold shipped_sections in *. rewrite app_assoc, omap_app in Hall.
      by apply list.NoDup_app in Hall as [? _].
Qed.

Definition mancf_args (trailing : bool) (path : cstr) : list cstr :=
  (if trailing then [cs "-t"] else []) ++ [cs "-f"; path].

Lemma run_mancf_start {A} trailing path out mcf0 (k : C (tool_env mancf) A) Q X :
  str_ok path -> path <> [] ->
  (forall mcf, mcf_manifest_path mcf = Some path -> mcf_trailing_comma mcf = trailing -> sorting mcf [] [] -> run k Q X (ToolEnv out mcf)) ->
  run (mancf_init ;; parse_opts (mancf_args trailing path) ;; k) Q X (ToolEnv out mcf0).
Proof.
  intros Hp Hne HQ. apply run_bind. unfold mancf_init. apply run_bind, run_strset_alloc; [done|]. intros ss Hss.
  change (negb (0 =? 0)) with false. cbn beta iota. apply run_bind, run_strlist_alloc. intros sl Hsl.
  change (negb (0 =? 0)) with false. cbn beta iota. run_steps. unfold parse_opts. apply run_bind. run_steps.
  assert (Hopts : getopts mancf_opts (mancf_args trailing path) =
    (if trailing then [OptChar "t" None] else []) ++ [OptChar "f" (Some path)]) by by destruct trailing.
  rewrite Hopts. set (mcf := Mancf None false ss sl).
  assert (Hend : forall m e (Qm : mancf -> tool_env mancf -> Prop),
    Qm (set_path m (Some path)) e -> run (option_loop [OptChar "f" (Some path)] m) Qm X e).
  { intros m e Qm Hm. cbn [option_loop]. change (Ascii.eqb "f" "f") with true. cbn beta iota. apply run_bind.
    eapply run_access; [done|]. apply run_bind, run_malloc; [unfold str_ok in Hp; pose proof (Zlen_nonneg path); lia|].
    intros a. by apply run_ret. }
  destruct trailing; cbn [app option_loop].
  - change (Ascii.eqb "t" "f") with false. change (Ascii.eqb "t" "t") with true. cbn beta iota. apply Hend.
    cbn [mcf_manifest_path set_path]. destruct path; [done|]. run_steps. by apply HQ.
  - apply Hend. cbn [mcf_manifest_path set_path]. destruct path; [done|]. run_steps. by apply HQ.
Qed.

(** C22: mancf with a manifest ends.  If no section is shipped twice, it prints the sections in the
    one order in which none comes after a less important one and ties keep the order of
    [strcmp], and returns 0; otherwise it exits with status 1. *)
Theorem mancf_orders (trailing : bool) (path : cstr) (es : list manifest_ent) (e : tool_env mancf) :
  str_ok path -> path <> [] -> manifest_has (fs_manifest path) es -> sections_fit (shipped_sections es) ->
  run (main fnmatch strerror false (mancf_args trailing path))
    (fun r e' => r = 0 /\ NoDup (shipped_sections es) /\
       exists o, o ≡ₚ shipped_sections es /\ respects fnmatch o /\ ties_sorted fnmatch o /\
         (forall o', o' ≡ₚ shipped_sections es -> respects fnmatch o' -> ties_sorted fnmatch o' -> o' = o) /\
         te_stdout e' = te_stdout e ++ [filestr (sections_text trailing o)])
    (fun st => st = 1 /\ ~ NoDup (shipped_sections es)) e.
Proof.
  intros Hp Hne Hman Hfit. destruct e as [out mcf0]. cbn [te_stdout]. unfold main.
  apply run_mancf_start; [done|done|]. intros mcf Hpath Htr [Hss Hol]. run_steps. eapply run_access; [exact Hpath|]. apply run_bind.
  eapply run_mono; [apply (run_read_sections path es mcf out (fun st => st = 1 /\ ~ NoDup (shipped_sections es))); [done|done|auto]| |done].
  intros r e (-> & Hnd & ss & Hss' & ->). change (negb (0 =? 0)) with false. cbn beta iota. run_steps.
  pose proof (seq_of_perm _ Hnd) as Hperm. set (l := seq_of (shipped_sections es)) in *.
  pose proof (sections_fit_perm _ _ (symmetry Hperm) Hfit) as (Hall & Hlen & _).
  destruct (sort_sections fnmatch (length l) l) as [o|] eqn:Hsort;
    [|exfalso; revert Hsort; apply (sort_sections_total fnmatch section_rank); [intros s t; by apply orders_ranked|done]].
  pose proof (sort_sections_perm _ _ _ _ Hsort) as Ho. pose proof (sort_sections_respects _ _ _ _ Hsort) as Hr.
  pose proof (sort_sections_ties _ _ _ _ (increasing_seq_of _) Hsort) as Ht.
  eapply run_use; [apply (run_sort_loop fnmatch (length l) _ _ l [] o out); [by split| |by rewrite Zlen_nil|done|]|].
  - eapply Forall_impl; [|exact Hall]. intros s [_ Hs]. by apply text_fits_str_ok.
  - by eapply walk_fuel_ok.
  - intros [] e (mcf' & -> & Htr' & Hout). apply run_bind. eapply run_make_sects; [exact Hout| |].
    { cbn [app]. eapply sections_fit_perm; [|exact Hfit]. by rewrite Ho, Hperm. }
    unfold abort_on_exit. apply run_ret. split; [done|]. split; [done|]. exists o. split; [by rewrite Ho, Hperm|].
    split_and!; [done|done| |by rewrite Htr'; cbn; rewrite Htr].
    intros o' Ho' Hr' Ht'. symmetry. apply (order_unique fnmatch); [by rewrite Ho, Hperm|by rewrite Ho, Hperm, Ho'|done..].
Qed.
End program.

(** ** A manifest of nine sections *)

(** [fnmatch] of such patterns. *)
Fixpoint simple_match (p s : cstr) {struct p} : bool :=
  match p with
  | [] => match s with [] => true | _ => false end
  | c :: p' =>
      if Ascii.eqb c "*" then
        (fix suffixes (s : cstr) : bool := simple_match p' s || match s with [] => false | _ :: s' => suffixes s' end) s
      else if Ascii.eqb c "?" then match s with _ :: s' => simple_match p' s' | [] => false end
      else if Ascii.eqb c "[" then
        match p', s with
        | lo :: _ :: hi :: _ :: p', d :: s' => (code lo <=? code d) && (code d <=? code hi) && simple_match p' s'
        | _, _ => false
        end
      else match s with d :: s' => Ascii.eqb c d && simple_match p' s' | [] => false end
  end.

Definition simple_fnmatch (p s : cstr) (flags : Z) : Z := if simple_match p s then 0 else 1.

Lemma simple_fnmatch_glob : fnmatch_glob simple_fnmatch.
Proof.
  intros gs s Hgs. transitivity (simple_match (print_glob gs) s = true).
  { unfold simple_fnmatch. by destruct (simple_match _ s). }
  revert s. induction Hgs as [|g gs Hg Hgs IH]; intros s; [by destruct s|].
  change (print_glob (g :: gs)) with (print_glob1 g ++ print_glob gs). destruct g as [c| | |lo hi].
  - cbn [print_glob1 app simple_match glob_match]. unfold plain_glob in Hg. change (c ∉ ["*"; "?"; "["; "\"]%char) in Hg.
    rewrite !not_elem_of_cons in Hg. destruct Hg as (H1 & H2 & H3 & _). apply Ascii.eqb_neq in H1, H2, H3. rewrite H1, H2, H3.
    destruct s as [|d s]; [split; [done|by intros (? & ? & _)]|]. rewrite andb_true_iff, Ascii.eqb_eq, IH.
    split; [intros [-> ?]; by exists s|intros (s' & [= -> ->] & ?); done].
  - cbn. destruct s as [|d s]; [split; [done|by intros (? & ? & ? & _)]|]. rewrite IH.
    split; [intros ?; by exists d, s|intros (c & s' & [= -> ->] & ?); done].
  - cbn. induction s as [|d s IHs]; rewrite orb_true_iff, IH.
    + split; [intros [Hm|]; [|done]; by exists [], []|]. intros (s1 & s2 & Happ & Hm). symmetry in Happ. apply app_nil in Happ as [-> ->]. by left.
    + rewrite IHs. split.
      * intros [Hm|(s1 & s2 & -> & Hm)]; [by exists [], (d :: s)|by exists (d :: s1), s2].
      * intros ([|x s1] & s2 & Happ & Hm); cbn in Happ; [subst s2; by left|]. injection Happ as <- ->. right. by exists s1, s2.
  - cbn. destruct s as [|d s]; [split; [done|by intros (? & ? & ? & _)]|]. rewrite !andb_true_iff, !Z.leb_le, IH.
    split; [intros [? ?]; by exists d, s|intros (c & s' & [= -> ->] & ? & ?); done].
Qed.

Definition dir_line (sect : string) : cstr := cs "d usr/share/man/man" ++ cs sect ++ cs " 0755 root bin" ++ [LF].

Definition mancf_lines : list cstr := dir_line <$> ["1"; "1b"; "1m"; "3"; "3c"; "3socket"; "3xnet"; "5"; "8"]%string.
Definition mancf_entries : list manifest_ent := default [] (@manifest_entries LP64 mancf_lines).

Definition mancf_fs : FileSystem := {|
  fs_stat _ := inl ENOENT; fs_lstat _ := inl ENOENT; fs_opendir _ := inl ENOENT; fs_readlink _ := inl ENOENT; fs_open _ := inl ENOENT;
  fs_manifest _ := inr (Stream (Some 33188) mancf_lines 0); fs_fopen _ := inl ENOENT
|}.

Lemma mancf_orders_witness :
  run (@main (list_avl cstr) LP64 mancf_fs simple_fnmatch (fun _ => []) false (mancf_args false (cs "manifest")))
    (fun r e' => r = 0 /\ te_stdout e' = [filestr (cs "1,1m,8,1b,3,3c,3socket,3xnet,5")]) never
    (ToolEnv [] (Mancf None false (@Strset (list_avl cstr) (avl_create (strset_comparator None)) 0 0 None) (Strlist [] 0))).
Proof.
  eapply run_mono.
  - eapply (@mancf_orders (list_avl cstr) (list_avl_laws cstr) LP64 mancf_fs simple_fnmatch (fun _ => []) simple_fnmatch_glob
      false (cs "manifest") mancf_entries).
    + by vm_compute.
    + done.
    + exists (Stream (Some 33188) mancf_lines 0). split_and!; [done|done| |done|by vm_compute]. repeat constructor; by_decide.
    + split; [|split; by vm_compute]. assert (shipped_sections mancf_entries = cs <$> ["1"; "1b"; "1m"; "3"; "3c"; "3socket"; "3xnet"; "5"; "8"]%string)
        as -> by by vm_compute. repeat constructor; done || by_decide.
  - intros r e' (-> & _ & o & _ & _ & _ & Huniq & ->). split; [done|].
    destruct (sort_sections simple_fnmatch 9 (shipped_sections mancf_entries)) as [o'|] eqn:Ho; [|by vm_compute in Ho].
    assert (o' = o) as <-.
    { apply Huniq; [by eapply sort_sections_perm|by eapply sort_sections_respects|].
      eapply sort_sections_ties; [|exact Ho]. change (shipped_sections mancf_entries) with (seq_of (shipped_sections mancf_entries)). apply increasing_seq_of. }
    vm_compute in Ho. injection Ho as <-. by vm_compute.
  - intros st [-> Hnd]. apply Hnd. by_decide.
Defined.
