(* ===== verification/Tzcheck.v ===== *)
(** * Tzcheck: the check of time zone files, [tools/tzcheck/main.c]

    The entries of the manifest and the tree of the proto area are recorded in two AVL trees and
    compared.  A file descriptor of a directory is its path ([at_path]).  The loops over the AVL
    trees take the number of nodes as fuel; [dirwalk] takes a bound on the depth of the tree. *)
From Stdlib Require Import Lia.
From S2P Require Import Prelude Cnum Custr Strpath Manifest Avl Strset Tools.

Definition cm_pdir : cstr := cs "usr/share/lib/zoneinfo".

Record tzent := Tzent {
  tze_type : manifest_ent_type;
  tze_path : option cstr;
  tze_target : option cstr;
  tze_inode : Z
}.

(** [tzent_comparator]; [tz_find] sees to it that it is not given a NULL path. *)
Definition tzent_comparator (l r : tzent) : Z :=
  let comp := strcmp (default [] (tze_path l)) (default [] (tze_path r)) in
  if comp <? 0 then -1 else if 0 <? comp then 1 else 0.

Definition TAB : char := chr 9.
Definition PATH_MAX : Z := 1024.

(** The options: whether each takes an operand. *)
Definition tzcheck_opts (c : char) : option bool :=
  if bool_decide (c ∈ cs "fp") then Some true else if bool_decide (c ∈ cs "hv") then Some false else None.

Section tzcheck.
Context `{AvlTree tzent} `{DM : DataModel} `{FileSystem} (strerror : Z -> cstr).

Record tzcheck := Tzcheck {
  tzc_manifest_path : option cstr;
  tzc_proto_path : option cstr;
  tzc_zoneinfo_manifest : avl_tree;
  tzc_zoneinfo_proto : avl_tree;
  tzc_verbose : bool;
  tzc_prefix : custr
}.

Definition set_paths (tzc : tzcheck) (manifest proto : option cstr) : tzcheck :=
  Tzcheck manifest proto (tzc_zoneinfo_manifest tzc) (tzc_zoneinfo_proto tzc) (tzc_verbose tzc) (tzc_prefix tzc).
Definition set_zoneinfo (tzc : tzcheck) (manifest proto : avl_tree) : tzcheck :=
  Tzcheck (tzc_manifest_path tzc) (tzc_proto_path tzc) manifest proto (tzc_verbose tzc) (tzc_prefix tzc).
Definition set_verbose (tzc : tzcheck) : tzcheck :=
  Tzcheck (tzc_manifest_path tzc) (tzc_proto_path tzc) (tzc_zoneinfo_manifest tzc) (tzc_zoneinfo_proto tzc) true (tzc_prefix tzc).

Notation M := (C (tool_env tzcheck)).

Definition tzcheck_init : M () :=
  prefix ← custr_alloc;
  match prefix with
  | None => c_exit 1
  | Some prefix =>
      '(r, prefix) ← strpath_append prefix cm_pdir;
      if negb (r =? 0) then c_exit 1 else
      '(r, prefix) ← custr_appendc prefix SLASH;
      if negb (r =? 0) then c_exit 1 else
      put_state (Tzcheck None None (avl_create tzent_comparator) (avl_create tzent_comparator) false prefix)
  end.

(** [avl_find]: [strcmp] reads the path that is looked for and those of the nodes it meets.  A
    node without a path can only be the first of its tree, and then it stays the only one. *)
Definition tz_find (t : avl_tree) (look : tzent) : M (option tzent) :=
  match avl_first t with
  | None => mret None
  | Some tze => c_access (tze_path tze) ;; c_access (tze_path look) ;; mret (avl_find t look)
  end.

(** The checks and the insertion at the end of [record_statbuf] and [record_zoneinfo]. *)
Definition tz_insert (t : avl_tree) (tze : tzent) : M avl_tree :=
  found ← tz_find t tze;
  match found with
  | Some _ => c_exit 1
  | None => mret (avl_insert t tze)
  end.

(** [calloc] of a [tzent_t]. *)
Definition tzent_alloc : M () := m ← malloc (7 * ptr_bytes); match m with None => c_exit 1 | Some _ => mret tt end.

Definition record_statbuf (dirfd name : cstr) (st : Z * Z) : M () :=
  let '(st_mode, st_ino) := st in
  tzent_alloc ;;
  path ← dup_str name;
  tze ←
    (if mode_is S_IFDIR st_mode then mret (Tzent ME_TYPE_DIRECTORY path None 0)
     else if mode_is S_IFREG st_mode then mret (Tzent ME_TYPE_FILE path None st_ino)
     else if mode_is S_IFLNK st_mode then
       match fs_readlink (at_path dirfd name) with
       | inl e => set_errno e ;; c_exit 1
       | inr buf =>
           if Zlen buf <? 2 * PATH_MAX then
             target ← dup_str buf;
             mret (Tzent ME_TYPE_SYMLINK path target 0)
           else c_undefined
       end
     else c_exit 1);
  tzc ← get_state;
  t ← tz_insert (tzc_zoneinfo_proto tzc) tze;
  put_state (set_zoneinfo tzc (tzc_zoneinfo_manifest tzc) t).

Definition record_zoneinfo (me : manifest_ent) : M Z :=
  tzc ← get_state;
  prefix ← custr_cstr (tzc_prefix tzc);
  let len := custr_len (tzc_prefix tzc) in
  name ← c_access (me_name me);
  if negb (strncmp prefix name len =? 0) then mret MECB_NEXT else
  tzent_alloc ;;
  path ← dup_str (drop (Z.to_nat len) name);
  tze ←
    match me_type me with
    | ME_TYPE_HARDLINK =>
        me_target ← c_access (me_target me);
        if negb (strncmp me_target prefix len =? 0) then c_exit 1 else
        target ← dup_str (drop (Z.to_nat len) me_target);
        mret (Tzent (me_type me) path target 0)
    | ME_TYPE_SYMLINK =>
        me_target ← c_access (me_target me);
        target ← dup_str me_target;
        mret (Tzent (me_type me) path target 0)
    | ME_TYPE_DIRECTORY | ME_TYPE_FILE => mret (Tzent (me_type me) path None 0)
    | ME_TYPE_INVALID => c_exit 1
    end;
  t ← tz_insert (tzc_zoneinfo_manifest tzc) tze;
  put_state (set_zoneinfo tzc t (tzc_zoneinfo_proto tzc)) ;;
  mret MECB_NEXT.

(** The loop over the options. *)
Fixpoint option_loop (opts : list getopt_result) (tzc : tzcheck) : M tzcheck :=
  match opts with
  | [] => mret tzc
  | OptMissing _ :: _ | OptUnknown _ :: _ => c_exit 2
  | OptChar c optarg :: opts =>
      if Ascii.eqb c "f"%char then
        optarg ← c_access optarg;
        path ← dup_str optarg;
        option_loop opts (set_paths tzc path (tzc_proto_path tzc))
      else if Ascii.eqb c "p"%char then
        optarg ← c_access optarg;
        path ← dup_str optarg;
        option_loop opts (set_paths tzc (tzc_manifest_path tzc) path)
      else if Ascii.eqb c "h"%char then c_exit 0
      else if Ascii.eqb c "v"%char then option_loop opts (set_verbose tzc)
      else option_loop opts tzc
  end.

Definition parse_opts (argv : list cstr) : M () :=
  tzc ← get_state;
  tzc ← option_loop (getopts tzcheck_opts argv) tzc;
  match tzc_manifest_path tzc, tzc_proto_path tzc with
  | None, _ | Some [], _ | _, None | _, Some [] => c_exit 2
  | Some _, Some _ => put_state tzc
  end.

(** ** The tree of the proto area *)

(** The loop over the names of a directory; [walk] is [dirwalk]. *)
Fixpoint dir_loop (walk : option cstr -> cstr -> option cstr -> M ()) (dirfd parentdir : cstr) (names : list cstr)
    (cu : custr) : M () :=
  match names with
  | [] => mret tt
  | d_name :: names =>
      if dot_name d_name then dir_loop walk dirfd parentdir names cu else
      match fs_lstat (at_path dirfd d_name) with
      | inl e => set_errno e ;; c_exit 1
      | inr st =>
          cu ← custr_reset cu;
          '(r, cu) ← strpath_append cu parentdir;
          if negb (r =? 0) then c_exit 1 else
          '(r, cu) ← strpath_append cu d_name;
          if negb (r =? 0) then c_exit 1 else
          name ← custr_cstr cu;
          record_statbuf dirfd name st ;;
          (if mode_is S_IFDIR (fst st) then walk (Some dirfd) name (Some d_name) else mret tt) ;;
          dir_loop walk dirfd parentdir names cu
      end
  end.

(** [parentfd] is [None] for -1. *)
Fixpoint dirwalk (depth : nat) (parentfd : option cstr) (parentdir : cstr) (dirname : option cstr) : M () :=
  match depth with
  | O => c_undefined
  | S depth =>
      cu ← custr_alloc;
      match cu with
      | None => c_exit 1
      | Some cu =>
          dirfd ← match parentfd with None => mret parentdir | Some fd => dirname ← c_access dirname; mret (at_path fd dirname) end;
          match fs_opendir dirfd with
          | inl e => set_errno e ;; c_exit 1
          | inr (names, _) =>
              let parentdir := match parentfd with None => [] | Some _ => parentdir end in
              dir_loop (dirwalk depth) dirfd parentdir names cu
          end
      end
  end.

Definition load_from_proto (depth : nat) : M () :=
  cu ← custr_alloc;
  match cu with
  | None => c_exit 1
  | Some cu =>
      tzc ← get_state;
      proto ← c_access (tzc_proto_path tzc);
      '(r, cu) ← strpath_append cu proto;
      if negb (r =? 0) then c_exit 1 else
      '(r, cu) ← strpath_append cu cm_pdir;
      if negb (r =? 0) then c_exit 1 else
      dir ← custr_cstr cu;
      dirwalk depth None dir None
  end.

(** ** The comparison *)

Definition lookup_tzent (t : avl_tree) (path : option cstr) : M (option tzent) :=
  tz_find t (Tzent ME_TYPE_INVALID path None 0).

Definition hardlink_check (t : avl_tree) (path_l path_r : option cstr) : M bool :=
  el ← lookup_tzent t path_l;
  er ← lookup_tzent t path_r;
  match el, er with
  | Some el, Some er =>
      if (tze_inode el =? 0) || (tze_inode er =? 0) then
        l ← c_access path_l;
        r ← c_access path_r;
        eprint (cs "tzcheck: wanted inode check, but inode was 0 (" ++ l ++ cs ", " ++ r ++ cs ")" ++ [LF]) ;;
        mret false
      else mret (tze_inode el =? tze_inode er)
  | _, _ => mret false
  end.

(** [fprintf(stdout, title "%s\n", s)] *)
Definition print_line (title : string) (s : option cstr) : M () :=
  s ← c_access s; print_out (cs title ++ s ++ [LF]).

(** The comparison of one file of the proto area: whether it is as in the manifest. *)
Definition check_proto_ent (pp : tzent) : M bool :=
  tzc ← get_state;
  mp ← lookup_tzent (tzc_zoneinfo_manifest tzc) (tze_path pp);
  match mp with
  | None => print_line "missing from manifest: " (tze_path pp) ;; mret false
  | Some mp =>
      let mptype := match tze_type mp with ME_TYPE_HARDLINK => ME_TYPE_FILE | type => type end in
      if negb (bool_decide (tze_type pp = mptype)) then
        print_line "type mismatch: " (tze_path mp) ;;
        print_out (TAB :: cs "proto:    " ++ manifest_ent_type_name (tze_type pp) ++ [LF]) ;;
        print_out (TAB :: cs "manifest: " ++ manifest_ent_type_name (tze_type mp) ++ [LF]) ;;
        mret false
      else
        differ ←
          match tze_type pp with
          | ME_TYPE_SYMLINK => tp ← c_access (tze_target pp); tm ← c_access (tze_target mp); mret (negb (strcmp tp tm =? 0))
          | _ => mret false
          end;
        if differ : bool then
          print_line "symlink target mismatch: " (tze_path pp) ;;
          tp ← c_access (tze_target pp);
          print_out (TAB :: cs "proto:    " ++ tp ++ [LF]) ;;
          tm ← c_access (tze_target mp);
          print_out (TAB :: cs "manifest: " ++ tm ++ [LF]) ;;
          mret false
        else mret true
  end.

Fixpoint proto_loop (fuel : nat) (pp : option tzent) (errors : Z) : M Z :=
  match pp, fuel with
  | None, _ => mret errors
  | Some _, O => c_undefined
  | Some pp, S fuel =>
      let errors := i32 (errors + 1) in
      ok ← check_proto_ent pp;
      tzc ← get_state;
      let next := avl_next (tzc_zoneinfo_proto tzc) pp in
      if ok : bool then
        (if tzc_verbose tzc then print_line "ok: " (tze_path pp) else mret tt) ;;
        proto_loop fuel next (i32 (errors - 1))
      else proto_loop fuel next errors
  end.

Fixpoint hardlink_loop (fuel : nat) (mp : option tzent) (errors : Z) : M Z :=
  match mp, fuel with
  | None, _ => mret errors
  | Some _, O => c_undefined
  | Some mp, S fuel =>
      tzc ← get_state;
      let next := avl_next (tzc_zoneinfo_manifest tzc) mp in
      match tze_type mp with
      | ME_TYPE_HARDLINK =>
          let errors := i32 (errors + 1) in
          ok ← hardlink_check (tzc_zoneinfo_proto tzc) (tze_path mp) (tze_target mp);
          if negb ok then
            print_line "hardlink mismatch: " (tze_path mp) ;;
            target ← c_access (tze_target mp);
            print_out (TAB :: cs "manifest: " ++ target ++ [LF]) ;;
            print_out (TAB :: cs "proto:    check manually" ++ [LF]) ;;
            hardlink_loop fuel next errors
          else hardlink_loop fuel next (i32 (errors - 1))
      | _ => hardlink_loop fuel next errors
      end
  end.

Definition tree_fuel (t : avl_tree) : nat := Z.to_nat (avl_numnodes t).

(** [abort_set]: whether [ABORT_ON_EXIT] is in the environment. *)
Definition main (depth : nat) (abort_set : bool) (argv : list cstr) : M Z :=
  tzcheck_init ;;
  parse_opts argv ;;
  tzc ← get_state;
  path ← c_access (tzc_manifest_path tzc);
  r ← read_manifest_file path (fs_manifest path) record_zoneinfo;
  if negb (r =? 0) then
    e ← get_errno;
    eprint (cs "tzcheck: could not read manifest file " ++ QUOTE :: path ++ QUOTE :: cs ": " ++ strerror e ++ [LF]) ;;
    abort_on_exit abort_set 50
  else
    load_from_proto depth ;;
    tzc ← get_state;
    errors ← proto_loop (tree_fuel (tzc_zoneinfo_proto tzc)) (avl_first (tzc_zoneinfo_proto tzc)) 0;
    errors ← hardlink_loop (tree_fuel (tzc_zoneinfo_manifest tzc)) (avl_first (tzc_zoneinfo_manifest tzc)) errors;
    if 0 <? errors then
      print_out (LF :: cs "time zone errors found: " ++ print_d errors ++ [LF]) ;;
      abort_on_exit abort_set 60
    else abort_on_exit abort_set 0.
End tzcheck.
