(* ===== verification/TzcheckSpec.v ===== *)
(** * TzcheckSpec: what tzcheck compares and reports

    The proto area is a tree ([zone]); its files are the entries [dir_ents], those of the manifest
    [zone_ents].  The program reports the differences between the two in the order of the paths.
    A symbolic link below the top directory is looked for in the wrong place, and ends the run. *)
From Stdlib Require Import Lia.
From S2P Require Import Prelude Cnum Custr Strpath Parser Manifest Avl Strset Tools Run Tzcheck.

(** ** Relative paths *)

(** A name in a directory. *)
Definition plain_name (n : cstr) : Prop := n <> [] /\ SLASH ∉ n /\ NUL ∉ n /\ dot_name n = false.

Definition sub_path (parent n : cstr) : cstr := match parent with [] => n | _ => parent ++ SLASH :: n end.

(** A path made of such names. *)
Inductive rel_path : cstr -> Prop :=
| rel_nil : rel_path []
| rel_sub p n : rel_path p -> plain_name n -> rel_path (sub_path p n).

Lemma split_fields_snoc d p n : d ∉ n -> split_fields d (p ++ d :: n) = split_fields d p ++ [n].
Proof.
  intros Hn. induction p as [|c p IH]; cbn [app split_fields]; [by rewrite decide_True, split_fields_free|].
  rewrite IH. case_decide; [done|]. pose proof (split_fields_nonnil d p). by destruct (split_fields d p).
Qed.

Lemma rel_path_fields p : rel_path p -> p = [] \/ Forall plain_name (split_fields SLASH p).
Proof.
  induction 1 as [|p n Hp IH Hn]; [by left|]. right. pose proof Hn as (_ & Hs & _).
  destruct p as [|c p]; cbn [sub_path]; [rewrite split_fields_free by done; by constructor|].
  rewrite split_fields_snoc by done. apply Forall_app. destruct IH as [?|IH]; [done|]. split; [done|by constructor].
Qed.

Lemma rel_path_chars p c : rel_path p -> c ∈ p -> c = SLASH \/ exists n, plain_name n /\ c ∈ n.
Proof.
  induction 1 as [|p n Hp IH Hn]; [by intros ?%not_elem_of_nil|]. intros Hc.
  destruct p as [|d p]; cbn [sub_path] in Hc; [right; by exists n|].
  apply elem_of_app in Hc as [Hc|[->|Hc]%elem_of_cons]; [by apply IH|by left|right; by exists n].
Qed.

Lemma rel_path_cstr p : rel_path p -> is_cstr p.
Proof. intros Hp Hc. apply (rel_path_chars _ _ Hp) in Hc as [|(n & (_ & _ & ? & _) & ?)]; done. Qed.

(** [strpath_append] on such paths. *)
Lemma path_join_rel p : rel_path p -> path_join [] p = p.
Proof.
  intros Hp. unfold path_join, path_base, components. cbn [list.last]. destruct (rel_path_fields p Hp) as [->|Hf]; [done|].
  rewrite (filter_id _ (split_fields Strpath.SLASH p)) by (eapply Forall_impl; [|exact Hf]; by intros n [? _]).
  change Strpath.SLASH with SLASH. rewrite join_split. destruct p as [|c p]; [done|].
  destruct (Ascii.eqb_spec c SLASH) as [->|]; [|done]. cbn [split_fields] in Hf. rewrite decide_True in Hf by done.
  apply Forall_cons_1 in Hf as [[? _] _]. done.
Qed.

Lemma plain_join n : plain_name n -> join_fields SLASH (components n) = n.
Proof. intros (Hn & Hs & _). unfold components. change Strpath.SLASH with SLASH. rewrite split_fields_free by done. cbn. by rewrite decide_True. Qed.

Lemma plain_head n : plain_name n -> exists c n', n = c :: n' /\ Ascii.eqb c SLASH = false.
Proof.
  intros (Hn & Hs & _). destruct n as [|c n]; [done|]. exists c, n. split; [done|]. apply Ascii.eqb_neq. intros ->. apply Hs. by left.
Qed.

Lemma path_join_sub p n : rel_path p -> plain_name n -> path_join p n = sub_path p n.
Proof.
  intros Hp Hn. unfold path_join. change Strpath.SLASH with SLASH. rewrite plain_join by done. unfold path_base. change Strpath.SLASH with SLASH. destruct (plain_head _ Hn) as (d & n' & -> & Hd).
  destruct Hp as [|q m Hq Hm]; cbn [list.last]; [by rewrite Hd|].
  assert (Hlast : exists c, list.last (sub_path q m) = Some c /\ Ascii.eqb c SLASH = false).
  { destruct Hm as (Hne & Hs & _). destruct m as [|c m _] using rev_ind; [done|]. exists c. split.
    - destruct q as [|b q]; cbn [sub_path]; [by rewrite last_snoc|]. change (SLASH :: m ++ [c]) with ((SLASH :: m) ++ [c]). by rewrite app_assoc, last_snoc.
    - apply Ascii.eqb_neq. intros ->. apply Hs. apply elem_of_app. right. by left. }
  destruct Hlast as (c & -> & ->). rewrite <-app_assoc. cbn [app]. destruct (sub_path q m) eqn:He; [|done].
  destruct q; cbn in He; [|done]. destruct Hm as [? _]. done.
Qed.

Lemma at_path_plain dir n : plain_name n -> at_path dir n = dir ++ SLASH :: n.
Proof. intros Hn. unfold at_path. destruct (plain_head _ Hn) as (c & n' & -> & ->). done. Qed.

Lemma at_path_rel dir p : rel_path p -> p <> [] -> at_path dir p = dir ++ SLASH :: p.
Proof.
  intros Hp Hne. unfold at_path. destruct (rel_path_fields p Hp) as [|Hf]; [done|]. destruct p as [|c p]; [done|].
  destruct (Ascii.eqb_spec c SLASH) as [->|]; [|done]. cbn [split_fields] in Hf. rewrite decide_True in Hf by done.
  by apply Forall_cons_1 in Hf as [[? _] _].
Qed.

(** ** Trees *)

(** What a path names: a regular file with its inode, a symbolic link, or a directory. *)
Inductive zone := ZFile (ino : Z) | ZLink (target : cstr) | ZDir (entries : list (cstr * zone)).

Fixpoint zone_depth (z : zone) : nat :=
  match z with ZDir es => S (max_list_with (fun e => zone_depth e.2) es) | _ => 0 end.
Definition dir_depth (es : list (cstr * zone)) : nat := max_list_with (fun e => zone_depth e.2) es.

(** The entries of a tree, in the order of the walk, with their paths. *)
Fixpoint file_ents (path : cstr) (z : zone) : list tzent :=
  match z with
  | ZFile ino => [Tzent ME_TYPE_FILE (Some path) None ino]
  | ZLink target => [Tzent ME_TYPE_SYMLINK (Some path) (Some target) 0]
  | ZDir es => Tzent ME_TYPE_DIRECTORY (Some path) None 0 :: (es ≫= (fun e => file_ents (sub_path path e.1) e.2))
  end.
Definition dir_ents (parent : cstr) (es : list (cstr * zone)) : list tzent :=
  es ≫= (fun e => file_ents (sub_path parent e.1) e.2).

Definition tze_key (t : tzent) : cstr := default [] (tze_path t).

Lemma tzent_comparator_sgn l r : tzent_comparator l r = Z.sgn (strcmp (tze_key l) (tze_key r)).
Proof.
  unfold tzent_comparator. fold (tze_key l) (tze_key r). destruct (Z.ltb_spec (strcmp (tze_key l) (tze_key r)) 0),
    (Z.ltb_spec 0 (strcmp (tze_key l) (tze_key r))); lia.
Qed.

Section trees.
Context `{FileSystem}.

(** The file system has the tree at a path. *)
Inductive shows (path : cstr) : zone -> Prop :=
| shows_file mode ino : fs_lstat path = inr (mode, ino) -> mode_is S_IFREG mode = true -> shows path (ZFile ino)
| shows_link mode ino target : fs_lstat path = inr (mode, ino) -> mode_is S_IFLNK mode = true ->
    fs_readlink path = inr target -> Zlen target < 2 * PATH_MAX -> shows path (ZLink target)
| shows_dir mode ino es : fs_lstat path = inr (mode, ino) -> mode_is S_IFDIR mode = true -> shows_entries path es ->
    shows path (ZDir es)
with shows_entries (path : cstr) : list (cstr * zone) -> Prop :=
| shows_all names last es : fs_opendir path = inr (names, last) -> filter (fun n => dot_name n = false) names = es.*1 ->
    NoDup es.*1 -> shows_each path es -> shows_entries path es
with shows_each (path : cstr) : list (cstr * zone) -> Prop :=
| shows_none : shows_each path []
| shows_one n z es : plain_name n -> shows (path ++ SLASH :: n) z -> shows_each path es -> shows_each path ((n, z) :: es).

End trees.

(** ** No path occurs twice *)

Lemma dir_depth_le es k : (dir_depth es <= k)%nat -> Forall (fun e => (zone_depth e.2 <= k)%nat) es.
Proof. unfold dir_depth. induction es as [|e es IH]; cbn [max_list_with]; constructor; [lia|apply IH; lia]. Qed.

Lemma sub_path_ext p n r : sub_path p n ++ r = match p with [] => [] | _ => p ++ [SLASH] end ++ n ++ r.
Proof. destruct p; [done|]. cbn [sub_path]. by rewrite <-!app_assoc. Qed.

Lemma file_ents_key k path z t :
  (zone_depth z <= k)%nat -> path <> [] -> t ∈ file_ents path z ->
  exists r, tze_key t = path ++ r /\ (r = [] \/ head r = Some SLASH).
Proof.
  revert path z. induction k as [|k IH]; intros path [ino|target|es] Hle Hne; cbn [file_ents zone_depth] in *;
    try (rewrite list_elem_of_singleton; intros ->; exists []; cbn; rewrite app_nil_r; auto); [lia|].
  rewrite elem_of_cons. intros [->|Ht]; [exists []; cbn; rewrite app_nil_r; auto|].
  apply list_elem_of_bind in Ht as (e & Ht & He). assert (Hd : (dir_depth es <= k)%nat) by (unfold dir_depth; lia).
  apply dir_depth_le in Hd. rewrite list.Forall_forall in Hd. destruct path as [|c path]; [done|].
  apply IH in Ht as (r & -> & Hr); [|by apply Hd|done]. exists (SLASH :: e.1 ++ r). cbn [sub_path]. rewrite <-app_assoc. auto.
Qed.

(** Two names without a slash are told apart by what follows them. *)
Lemma names_apart n m r r' : SLASH ∉ n -> SLASH ∉ m -> (r = [] \/ head r = Some SLASH) -> (r' = [] \/ head r' = Some SLASH) ->
  n ++ r = m ++ r' -> n = m.
Proof.
  revert m. induction n as [|c n IH]; intros [|d m] Hn Hm Hr Hr' Heq; cbn in Heq; [done| | |].
  - destruct Hr as [->|Hr]; [done|]. rewrite Heq in Hr. injection Hr as ->. by rewrite elem_of_cons in Hm; destruct Hm; left.
  - destruct Hr' as [->|Hr']; [done|]. rewrite <-Heq in Hr'. injection Hr' as ->. by rewrite elem_of_cons in Hn; destruct Hn; left.
  - injection Heq as -> Heq. f_equal. rewrite not_elem_of_cons in Hn, Hm. apply (IH m); naive_solver.
Qed.

Section paths.
Context `{FileSystem}.

Lemma shows_each_names path es : shows_each path es -> Forall plain_name es.*1.
Proof. induction 1; cbn; by constructor. Qed.

Lemma nodup_dir_ents (P : cstr -> zone -> Prop) parent es :
  (forall p z, P p z -> p <> [] -> NoDup (tze_key <$> file_ents p z)) ->
  NoDup es.*1 -> Forall plain_name es.*1 -> Forall (fun e => P (sub_path parent e.1) e.2) es -> NoDup (tze_key <$> dir_ents parent es).
Proof.
  intros HP. unfold dir_ents. induction es as [|[n z] es IH]; cbn [fmap list_fmap mbind list_bind fst snd]; [constructor|].
  intros [Hn Hnd]%list.NoDup_cons [Hpl Hpls]%Forall_cons_1 [Hz Hzs]%Forall_cons_1. rewrite fmap_app. apply list.NoDup_app.
  assert (Hsub : forall p m, m <> [] -> sub_path p m <> []) by (intros [|? ?] m ?; done).
  pose proof Hpl as (Hne & Hsl & _). split_and!; [by apply HP; [|apply Hsub]| |by apply IH].
  intros k (t & -> & Ht)%list_elem_of_fmap (t' & Hk & Ht')%list_elem_of_fmap. apply list_elem_of_bind in Ht' as ([m z'] & Ht' & He).
  cbn [fst snd] in *. assert (Hm : m ∈ es.*1) by by apply (list_elem_of_fmap_2 fst) in He.
  rewrite list.Forall_forall in Hpls. destruct (Hpls m Hm) as (Hne' & Hsl' & _).
  apply (file_ents_key (zone_depth z)) in Ht as (r & Hr & Hr0); [|done|by apply Hsub].
  apply (file_ents_key (zone_depth z')) in Ht' as (r' & Hr' & Hr0'); [|done|by apply Hsub].
  rewrite Hr, Hr', !sub_path_ext in Hk. apply app_inv_head in Hk. apply (names_apart n m r r') in Hk; [by subst|done..].
Qed.

Lemma file_ents_nodup k path p z : (zone_depth z <= k)%nat -> shows path z -> p <> [] -> NoDup (tze_key <$> file_ents p z).
Proof.
  revert path p z. induction k as [|k IH]; intros path p [ino|target|es] Hk Hz Hne; cbn [zone_depth file_ents] in *; try apply NoDup_singleton; [lia|].
  inversion_clear Hz as [| |? ? ? _ _ Hes]. inversion_clear Hes as [names last ? _ _ Hnd Heach].
  cbn [fmap list_fmap]. apply list.NoDup_cons. split.
  - intros (t & Ht & Hin)%list_elem_of_fmap. apply list_elem_of_bind in Hin as ([n z] & Hin & He). cbn [fst snd] in Hin.
    assert (Hn : plain_name n). { apply shows_each_names in Heach. rewrite list.Forall_forall in Heach. apply Heach. by apply (list_elem_of_fmap_2 fst) in He. }
    apply (file_ents_key (zone_depth z)) in Hin as (r & Hr & _); [|done|destruct p; [done|by cbn]].
    rewrite Hr in Ht. cbn in Ht. destruct p as [|c p]; [done|]. cbn [sub_path] in Ht. rewrite <-app_assoc in Ht.
    apply (f_equal length) in Ht. rewrite length_app in Ht. cbn in Ht. lia.
  - apply (nodup_dir_ents (fun q z => exists path, shows path z /\ (zone_depth z <= k)%nat)).
    + intros q z (path' & Hz & Hd) Hq. by eapply IH.
    + done.
    + by eapply shows_each_names.
    + assert (Hd : (dir_depth es <= k)%nat) by (unfold dir_depth; lia). apply dir_depth_le in Hd.
      clear -Heach Hd. induction Heach as [|path n z es Hn Hz Heach IH]; [constructor|]. apply Forall_cons_1 in Hd as [Hd Hds].
      constructor; [by eexists|by apply IH].
Qed.

Lemma dir_ents_nodup path es : shows_entries path es -> NoDup (tze_key <$> dir_ents [] es).
Proof.
  inversion_clear 1 as [names last ? _ _ Hnd Heach]. apply (nodup_dir_ents (fun q z => exists path, shows path z)); [|done|by eapply shows_each_names|].
  - intros q z (path' & Hz) Hq. by eapply file_ents_nodup.
  - clear -Heach. induction Heach; constructor; [by eexists|done].
Qed.
End paths.

(** ** The walk over the proto area *)

(** The longest path the results speak of. *)
Definition PATHS_MAX : Z := 1048576.

(** No symbolic link is below the top directory. *)
Definition links_top (ts : list tzent) : Prop := Forall (fun t => tze_type t = ME_TYPE_SYMLINK -> SLASH ∉ tze_key t) ts.

Section walk_facts.
Context `{AvlTree tzent, !AvlLaws tzent} `{DM : DataModel} `{FileSystem} (root : cstr).
Implicit Types (tzc : tzcheck) (out : list cstr) (ts : list tzent).

Notation tree := (tree_seq tzent_comparator).
Notation sorted := (sorted_of tzent_comparator).
Notation keys ts := (tze_key <$> ts).

Definition with_proto tzc t : tzcheck := set_zoneinfo tzc (tzc_zoneinfo_manifest tzc) t.

Definition have_paths ts : Prop := Forall (fun t => is_Some (tze_path t)) ts.

(** Where the program looks for a link below the top directory, there is none. *)
Definition strays_missing ts : Prop :=
  forall d n target, Tzent ME_TYPE_SYMLINK (Some (d ++ SLASH :: n)) (Some target) 0 ∈ ts -> SLASH ∉ n ->
  exists er, fs_readlink (root ++ SLASH :: d ++ SLASH :: d ++ SLASH :: n) = inl er.

Definition short_paths ts : Prop := Forall (fun t => Zlen (tze_key t) <= PATHS_MAX) ts.

Definition dir_path (parent : cstr) : cstr := match parent with [] => root | _ => root ++ SLASH :: parent end.

Lemma run_tz_find {Q : option tzent -> tool_env tzcheck -> Prop} {X e} t ts x p :
  tree t (sorted ts) -> have_paths ts -> tze_path x = Some p -> Q (find_key tze_key p (sorted ts)) e -> run (tz_find t x) Q X e.
Proof.
  intros Ht Hp Hx HQ. unfold tz_find. rewrite (tree_seq_first tzent_comparator t _ Ht).
  assert (Hp' : have_paths (sorted ts)) by (unfold have_paths in *; by rewrite (sorted_of_perm tzent_comparator)).
  assert (Hk : tze_key x = p) by (unfold tze_key; by rewrite Hx).
  pose proof (tree_seq_find tze_key tzent_comparator tzent_comparator_sgn t _ x Ht) as Hf. rewrite Hk in Hf.
  destruct (sorted ts) as [|y l]; cbn [head]; [by apply run_ret|]. apply Forall_cons_1 in Hp' as [[q Hq] _].
  apply run_bind. eapply run_access; [exact Hq|]. apply run_bind. eapply run_access; [exact Hx|]. apply run_ret. by rewrite Hf.
Qed.

Lemma run_tz_insert {Q : avl_tree -> tool_env tzcheck -> Prop} {X : Z -> Prop} {e} t ts x p :
  tree t (sorted ts) -> have_paths ts -> tze_path x = Some p ->
  (p ∈ keys ts -> X 1) -> (forall t', p ∉ keys ts -> tree t' (sorted (ts ++ [x])) -> Q t' e) -> run (tz_insert t x) Q X e.
Proof.
  intros Ht Hp Hx HX HQ. unfold tz_insert. apply run_bind. eapply run_tz_find; [done..|].
  assert (Hk : tze_key x = p) by (unfold tze_key; by rewrite Hx).
  assert (Hin : p ∈ keys (sorted ts) <-> p ∈ keys ts) by by rewrite (sorted_of_perm tzent_comparator).
  destruct (find_key tze_key p (sorted ts)) as [y|] eqn:Hf.
  - apply run_exit, HX. destruct (decide (p ∈ keys ts)) as [|Hno]; [done|]. rewrite <-Hin in Hno.
    apply (find_key_none tze_key) in Hno. congruence.
  - apply run_ret, HQ; [by rewrite <-Hin, <-(find_key_none tze_key)|]. rewrite sorted_of_snoc.
    apply (tree_seq_insert tze_key tzent_comparator tzent_comparator_sgn); [done|by rewrite Hk].
Qed.

(** [m] adds the entries [ts] to the tree of the proto area, or exits at a link that is not at the top. *)
Definition inserts ts (m : C (tool_env tzcheck) ()) : Prop :=
  forall ts0 tzc out (X : Z -> Prop),
  tree (tzc_zoneinfo_proto tzc) (sorted ts0) -> have_paths ts0 -> NoDup (keys (ts0 ++ ts)) ->
  short_paths ts -> strays_missing ts -> (~ links_top ts -> X 1) ->
  run m (fun _ e' => links_top ts /\ exists t, e' = ToolEnv out (with_proto tzc t) /\ tree t (sorted (ts0 ++ ts)) /\ have_paths (ts0 ++ ts))
    X (ToolEnv out tzc).

Lemma inserts_nil : inserts [] (mret tt).
Proof.
  intros ts0 tzc out X Ht Hp Hnd _ _ _. apply run_ret. split; [constructor|]. exists (tzc_zoneinfo_proto tzc). rewrite app_nil_r.
  split; [|done]. by destruct tzc.
Qed.

Lemma inserts_app ts1 ts2 m1 m2 : inserts ts1 m1 -> inserts ts2 m2 -> inserts (ts1 ++ ts2) (m1 ;; m2).
Proof.
  intros H1 H2 ts0 tzc out X Ht Hp Hnd Hs Hm HX. apply Forall_app in Hs as [Hs1 Hs2]. unfold links_top in *. setoid_rewrite Forall_app in HX.
  rewrite app_assoc in Hnd. apply run_bind. eapply run_mono; [apply H1; [done|done| |done| |]| |done].
  - rewrite fmap_app in Hnd. by apply list.NoDup_app in Hnd as [? _].
  - intros d n target Hin Hn. apply (Hm d n target); [|done]. apply elem_of_app. by left.
  - intros Hno. apply HX. by intros [? _].
  - intros [] e' (Hl1 & t & -> & Ht1 & Hp1). eapply run_mono; [apply H2; [done|done|done|done| |]| |done].
    + intros d n target Hin Hn. apply (Hm d n target); [|done]. apply elem_of_app. by right.
    + intros Hno. apply HX. by intros [_ ?].
    + intros [] e' (Hl2 & t2 & -> & Ht2 & Hp2). rewrite Forall_app. split; [done|]. exists t2. rewrite app_assoc. by split_and!.
Qed.

Lemma inserts_one tze p (m : C (tool_env tzcheck) tzent) :
  tze_path tze = Some p -> links_top [tze] ->
  (forall (Q : tzent -> tool_env tzcheck -> Prop) X e, Q tze e -> run m Q X e) ->
  inserts [tze] (tze ← m; tzc ← get_state; t ← tz_insert (tzc_zoneinfo_proto tzc) tze;
    put_state (set_zoneinfo tzc (tzc_zoneinfo_manifest tzc) t)).
Proof.
  intros Hp Hl Hm ts0 tzc out X Ht Hps Hnd _ _ _. apply run_bind, Hm. run_steps.
  assert (Hk : tze_key tze = p) by (unfold tze_key; by rewrite Hp).
  rewrite fmap_app in Hnd. apply list.NoDup_app in Hnd as (_ & Hd & _).
  eapply run_tz_insert; [done|done|done| |].
  - intros Hin. exfalso. apply (Hd p Hin). cbn. rewrite Hk. by left.
  - intros t' _ Ht'. run_steps. split; [done|]. exists t'. split; [done|]. split; [done|]. apply Forall_app. split; [done|]. by repeat constructor.
Qed.

Definition zone_ent (path : cstr) (z : zone) : tzent :=
  match z with
  | ZFile ino => Tzent ME_TYPE_FILE (Some path) None ino
  | ZLink target => Tzent ME_TYPE_SYMLINK (Some path) (Some target) 0
  | ZDir _ => Tzent ME_TYPE_DIRECTORY (Some path) None 0
  end.
Definition zone_subs (path : cstr) (z : zone) : list tzent := match z with ZDir es => dir_ents path es | _ => [] end.

Lemma file_ents_cons path z : file_ents path z = [zone_ent path z] ++ zone_subs path z.
Proof. by destruct z. Qed.

Lemma mode_is_only a b mode : mode_is a mode = true -> a <> b -> mode_is b mode = false.
Proof. unfold mode_is. rewrite Z.eqb_eq, Z.eqb_neq. by intros ->. Qed.

Lemma run_tzent_alloc (Q : () -> tool_env tzcheck -> Prop) X e : Q tt e -> run tzent_alloc Q X e.
Proof.
  intros HQ. unfold tzent_alloc. apply run_bind, run_malloc; [unfold HEAP_HI; destruct ptr_bytes_ok as [-> | ->]; lia|].
  intros a. by apply run_ret.
Qed.

Lemma short_path_ok p : Zlen p <= PATHS_MAX -> str_ok p.
Proof. unfold str_ok, PATHS_MAX, HEAP_HI. lia. Qed.

(** The mode of what a path names. *)
Definition zone_mode (z : zone) : Z := match z with ZFile _ => S_IFREG | ZLink _ => S_IFLNK | ZDir _ => S_IFDIR end.

Lemma shows_stat path z : shows path z -> exists mode ino, fs_lstat path = inr (mode, ino) /\ mode_is (zone_mode z) mode = true /\
  match z with ZFile i => ino = i | ZLink t => fs_readlink path = inr t /\ Zlen t < 2 * PATH_MAX | ZDir es => shows_entries path es end.
Proof. destruct 1 as [mode ino|mode ino target|mode ino es]; by exists mode, ino. Qed.

Lemma record_inserts parent n z st :
  rel_path parent -> plain_name n -> shows (dir_path parent ++ SLASH :: n) z ->
  fs_lstat (dir_path parent ++ SLASH :: n) = inr st ->
  inserts [zone_ent (sub_path parent n) z] (record_statbuf (dir_path parent) (sub_path parent n) st).
Proof.
  intros Hp Hn Hz Hst ts0 tzc out X Ht Hps Hnd Hs Hm HX. apply shows_stat in Hz as (mode & ino & Hst' & Hmode & Hz).
  rewrite Hst in Hst'. injection Hst' as ->. assert (Hlen : str_ok (sub_path parent n)).
  { apply Forall_cons_1 in Hs as [Hs _]. apply short_path_ok. by destruct z. }
  unfold record_statbuf. apply run_bind, run_tzent_alloc, run_bind, run_dup_str; [done|].
  destruct z as [i|target|es]; cbn [zone_mode zone_ent] in *.
  - subst i. rewrite (mode_is_only _ S_IFDIR mode Hmode), Hmode by done. by eapply inserts_one; [|repeat constructor|auto using run_ret|..].
  - rewrite (mode_is_only _ S_IFDIR mode Hmode), (mode_is_only _ S_IFREG mode Hmode), Hmode by done. destruct Hz as [Hl Hlt].
    assert (Hsub : rel_path (sub_path parent n)) by by constructor. pose proof Hn as (Hne & Hsl & _).
    rewrite at_path_rel by (done || by destruct parent, n). destruct parent as [|c parent]; cbn [dir_path sub_path] in *.
    + rewrite Hl. apply Z.ltb_lt in Hlt as Hltb. rewrite Hltb. eapply (inserts_one (Tzent ME_TYPE_SYMLINK (Some n) (Some target) 0));
        [done|by repeat constructor| |done..].
      intros Q X' e HQ. apply run_bind, run_dup_str; [unfold str_ok, PATH_MAX, HEAP_HI in *; lia|]. by apply run_ret.
    + destruct (Hm (c :: parent) n target) as [er Her]; [by left|done|]. rewrite <-!app_assoc. cbn [app] in *. rewrite Her.
      apply run_bind, run_bind, run_set_errno, run_exit, HX. intros Htop. apply Forall_cons_1 in Htop as [Htop _].
      apply Htop; [done|]. cbn. apply elem_of_cons. right. apply elem_of_app. right. by left.
  - rewrite Hmode. by eapply inserts_one; [|repeat constructor|auto using run_ret|..].
Qed.

(** [walk] does what [dirwalk] does for trees of a depth. *)
Definition walks (k : nat) (walk : option cstr -> cstr -> option cstr -> C (tool_env tzcheck) ()) : Prop :=
  forall parent n es, rel_path parent -> plain_name n -> shows_entries (dir_path (sub_path parent n)) es -> (dir_depth es < k)%nat ->
  inserts (dir_ents (sub_path parent n) es) (walk (Some (dir_path parent)) (sub_path parent n) (Some n)).

Lemma dir_path_sub parent n : plain_name n -> dir_path (sub_path parent n) = dir_path parent ++ SLASH :: n.
Proof.
  intros (Hn & _). destruct parent as [|c parent]; cbn [sub_path]; [by destruct n|]. cbn [dir_path]. by rewrite <-app_assoc.
Qed.

Lemma sub_path_len parent n : Zlen parent <= Zlen (sub_path parent n) /\ Zlen n <= Zlen (sub_path parent n).
Proof. destruct parent; cbn [sub_path]; [zlen|]. rewrite !Zlen_app. zlen. Qed.

Lemma entry_inserts k walk parent n z rest st (m : C (tool_env tzcheck) ()) :
  rel_path parent -> plain_name n -> shows (dir_path parent ++ SLASH :: n) z -> (zone_depth z <= k)%nat -> walks k walk ->
  fs_lstat (dir_path parent ++ SLASH :: n) = inr st -> inserts rest m ->
  inserts (file_ents (sub_path parent n) z ++ rest)
    (record_statbuf (dir_path parent) (sub_path parent n) st ;;
     (if mode_is S_IFDIR st.1 then walk (Some (dir_path parent)) (sub_path parent n) (Some n) else mret tt) ;; m).
Proof.
  intros Hp Hn Hz Hk Hw Hst Hm. rewrite file_ents_cons, <-app_assoc. apply inserts_app; [by apply record_inserts|].
  apply inserts_app; [|done]. apply shows_stat in Hz as (mode & ino & Hst' & Hmode & Hz). rewrite Hst in Hst'. injection Hst' as ->. cbn [fst].
  destruct z as [i|target|es]; cbn [zone_mode zone_subs] in *.
  - rewrite (mode_is_only _ S_IFDIR mode Hmode) by done. apply inserts_nil.
  - rewrite (mode_is_only _ S_IFDIR mode Hmode) by done. apply inserts_nil.
  - rewrite Hmode. apply Hw; [done|done|by rewrite dir_path_sub|]. cbn [zone_depth] in Hk. unfold dir_depth. lia.
Qed.

Lemma dir_loop_inserts k walk parent names es cu t :
  rel_path parent -> custr_text cu t -> walks k walk -> filter (fun n => dot_name n = false) names = es.*1 ->
  shows_each (dir_path parent) es -> (dir_depth es <= k)%nat ->
  inserts (dir_ents parent es) (dir_loop walk (dir_path parent) parent names cu).
Proof.
  intros Hp Hcu Hw. revert es cu t Hcu. induction names as [|d names IH]; intros es cu t Hcu Hes Hsh Hk; cbn [dir_loop].
  { destruct es; [|done]. apply inserts_nil. }
  rewrite filter_cons in Hes. destruct (dot_name d) eqn:Hd; [rewrite decide_False in Hes by done; by eapply IH|].
  rewrite decide_True in Hes by done. destruct es as [|[n z] es]; [done|]. cbn in Hes. injection Hes as -> Hes.
  inversion_clear Hsh as [|? ? ? Hn Hz Hsh']. unfold dir_depth in Hk. cbn [max_list_with snd] in Hk.
  rewrite at_path_plain by done. pose proof (shows_stat _ _ Hz) as (mode & ino & Hst & _). rewrite Hst.
  intros ts0 tzc out X Ht Hps Hnd Hs Hm HX. pose proof (sub_path_len parent n) as [Hl1 Hl2].
  assert (Hlen : Zlen (sub_path parent n) <= PATHS_MAX).
  { unfold dir_ents in Hs. cbn [mbind list_bind] in Hs. rewrite file_ents_cons, <-app_assoc in Hs. cbn [app fst snd] in Hs. apply Forall_cons_1 in Hs as [Hs _].
    by destruct z. }
  apply run_bind. eapply run_custr_reset; [exact Hcu|]. intros cu1 Hcu1. apply run_bind.
  eapply run_strpath_append; [exact Hcu1|unfold PATHS_MAX, CUSTR_MAX in *; zlen|]. rewrite path_join_rel by done. intros cu2 Hcu2.
  change (negb (0 =? 0)) with false. cbn beta iota. apply run_bind.
  eapply run_strpath_append; [exact Hcu2|unfold PATHS_MAX, CUSTR_MAX in *; zlen|]. rewrite path_join_sub by done. intros cu3 Hcu3.
  change (negb (0 =? 0)) with false. cbn beta iota. apply run_bind. eapply run_custr_cstr; [exact Hcu3|].
  rewrite c_text_id by (apply rel_path_cstr; by constructor).
  eapply (entry_inserts k walk parent n z (dir_ents parent es)); [done|done|done|lia|done|done| |exact Ht|done..].
  eapply IH; [exact Hcu3|done|done|unfold dir_depth; lia].
Qed.

Lemma dirwalk_walks k : walks k (dirwalk k).
Proof.
  induction k as [|k IH]; intros parent n es Hp Hn Hes Hd; [lia|]. cbn [dirwalk]. inversion_clear Hes as [names last ? Ho Hf Hnd Heach].
  intros ts0 tzc out X Ht Hps Hnd' Hs Hm HX. apply run_bind, run_custr_alloc. intros cu Hcu. run_steps. eapply run_access; [done|].
  run_steps. rewrite at_path_plain, <-dir_path_sub, Ho by done.
  eapply (dir_loop_inserts k); [by constructor|exact Hcu|exact IH|done|done|lia|done..].
Qed.

(** The walk from the top. *)
Lemma run_dirwalk k es tzc out (X : Z -> Prop) :
  shows_entries root es -> (dir_depth es < k)%nat ->
  tree (tzc_zoneinfo_proto tzc) [] -> short_paths (dir_ents [] es) -> strays_missing (dir_ents [] es) ->
  (~ links_top (dir_ents [] es) -> X 1) ->
  run (dirwalk k None root None)
    (fun _ e' => links_top (dir_ents [] es) /\ exists t, e' = ToolEnv out (with_proto tzc t) /\
       tree t (sorted (dir_ents [] es)) /\ have_paths (dir_ents [] es)) X (ToolEnv out tzc).
Proof.
  intros Hes Hd Ht Hs Hm HX. pose proof (dir_ents_nodup root es Hes) as Hnd. destruct k as [|k]; [lia|]. cbn [dirwalk].
  inversion_clear Hes as [names last ? Ho Hf _ Heach]. apply run_bind, run_custr_alloc. intros cu Hcu. run_steps. rewrite Ho.
  eapply (dir_loop_inserts k (dirwalk k) [] names es cu [] rel_nil Hcu (dirwalk_walks k) Hf Heach ltac:(lia) []); done || constructor.
Qed.
End walk_facts.

(** ** The manifest *)

Definition zone_prefix : cstr := cs "usr/share/lib/zoneinfo/".

(** The path below the zone directory. *)
Definition below (name : cstr) : option cstr :=
  if decide (zone_prefix `prefix_of` name) then Some (drop (length zone_prefix) name) else None.

(** The entry a line of the manifest ships. *)
Definition shipped_ent (me : manifest_ent) : option tzent :=
  path ← me_name me ≫= below;
  match me_type me with
  | ME_TYPE_HARDLINK => target ← me_target me ≫= below; Some (Tzent ME_TYPE_HARDLINK (Some path) (Some target) 0)
  | ME_TYPE_SYMLINK => target ← me_target me; Some (Tzent ME_TYPE_SYMLINK (Some path) (Some target) 0)
  | ME_TYPE_DIRECTORY => Some (Tzent ME_TYPE_DIRECTORY (Some path) None 0)
  | ME_TYPE_FILE => Some (Tzent ME_TYPE_FILE (Some path) None 0)
  | ME_TYPE_INVALID => None
  end.
Definition shipped_ents (es : list manifest_ent) : list tzent := omap shipped_ent es.

(** A hard link of the zone directory to a file outside of it. *)
Definition stray_hardlink (me : manifest_ent) : Prop :=
  me_type me = ME_TYPE_HARDLINK /\ is_Some (me_name me ≫= below) /\ me_target me ≫= below = None.

#[export] Instance stray_hardlink_dec me : Decision (stray_hardlink me).
Proof. unfold stray_hardlink. apply _. Defined.

(** What the entries of a manifest are. *)
Definition entry_wf (me : manifest_ent) : Prop :=
  (exists name, me_name me = Some name /\ short name) /\ me_type me <> ME_TYPE_INVALID /\
  (me_type me = ME_TYPE_HARDLINK \/ me_type me = ME_TYPE_SYMLINK -> exists target, me_target me = Some target /\ short target).

Section manifest_facts.
Context `{DM : DataModel}.

Lemma drop_last_empty_sub fs f : f ∈ drop_last_empty fs -> f ∈ fs.
Proof.
  induction fs as [|g fs IH]; [done|]. cbn. destruct fs as [|h fs].
  - case_decide; [by intros ?%not_elem_of_nil|done].
  - intros [->|Hf]%elem_of_cons; [by left|right; by apply IH].
Qed.

Lemma parse_entry_wf line me : short line -> parse_entry line = Some (Some me) -> entry_wf me.
Proof.
  intros Hline Hp. unfold parse_entry in Hp. pose proof (fun f => line_words_short line f Hline) as Hw.
  destruct (line_words line) as [|w0 words]; [done|]. destruct w0 as [|c [|? ?]]; try done.
  assert (Hlink : forall ty o, (ty = ME_TYPE_HARDLINK \/ ty = ME_TYPE_SYMLINK) -> link_entry ty words = Some o -> entry_wf o).
  { intros ty o Hty Ho. unfold link_entry in Ho. destruct words as [|w [|? ?]]; try done.
    destruct (drop_last_empty (split_fields "="%char w)) as [|name [|target [|? ?]]] eqn:Hs; try done.
    destruct (bool_decide _ || bool_decide _); [done|]. injection Ho as <-.
    assert (Hin : forall f, f ∈ [name; target] -> short f).
    { intros f Hf. rewrite <-Hs in Hf. apply drop_last_empty_sub, split_fields_sub in Hf as [Hl Hc].
      destruct (Hw w ltac:(by right; left)) as [[Hws Hwl] _]. split; [|lia]. intros Hnul. by apply Hws, Hc. }
    split_and!; cbn; [exists name; split; [done|apply Hin; by left]|by destruct Hty as [-> | ->]|].
    intros _. exists target. split; [done|]. apply Hin. by right; left. }
  assert (Hfile : forall ty o, (ty = ME_TYPE_FILE \/ ty = ME_TYPE_DIRECTORY) -> file_entry ty words = Some o -> entry_wf o).
  { intros ty o Hty Ho. unfold file_entry in Ho. destruct words as [|name [|m [|u [|g [|? ?]]]]]; try done.
    apply bind_Some in Ho as (? & _ & [= <-]). split_and!; cbn; [|by destruct Hty as [-> | ->]|by destruct Hty as [-> | ->]; intros [|]].
    exists name. split; [done|]. apply (Hw name). by right; left. }
  repeat case_match; try done; apply fmap_Some in Hp as (o & Ho & [= ->]); eauto.
Qed.

Lemma manifest_wf lines es : Forall short lines -> manifest_entries lines = Some es -> Forall entry_wf es.
Proof.
  intros Hs. revert es. induction Hs as [|line lines Hline _ IH]; intros es Hes; cbn in Hes; [by injection Hes as <-|].
  apply bind_Some in Hes as (o & Ho & (es' & Hes & [= <-])%bind_Some). destruct o as [me|]; [|by apply IH].
  constructor; [by eapply parse_entry_wf|by apply IH].
Qed.
End manifest_facts.

Lemma shipped_ents_snoc es me : shipped_ents (es ++ [me]) = shipped_ents es ++ option_list (shipped_ent me).
Proof. unfold shipped_ents. by rewrite omap_app. Qed.

Section record_facts.
Context `{AvlTree tzent, !AvlLaws tzent} `{DM : DataModel} `{FileSystem}.
Implicit Types (tzc : tzcheck) (out : list cstr) (ts : list tzent).

Notation tree := (tree_seq tzent_comparator).
Notation sorted := (sorted_of tzent_comparator).
Notation keys ts := (tze_key <$> ts).

Definition with_manifest tzc t : tzcheck := set_zoneinfo tzc t (tzc_zoneinfo_proto tzc).

Definition manifest_ok (es : list manifest_ent) : Prop := NoDup (keys (shipped_ents es)) /\ Forall (fun me => ~ stray_hardlink me) es.

Lemma have_paths_shipped es : have_paths (shipped_ents es).
Proof.
  unfold shipped_ents. apply list.Forall_forall. intros t (me & _ & Ht)%list_elem_of_omap. unfold shipped_ent in Ht.
  apply bind_Some in Ht as (p & _ & Ht). by destruct (me_type me); simplify_option_eq; eexists.
Qed.

Lemma manifest_ok_snoc es me :
  manifest_ok (es ++ [me]) <-> NoDup (keys (shipped_ents es ++ option_list (shipped_ent me))) /\
    Forall (fun me => ~ stray_hardlink me) es /\ ~ stray_hardlink me.
Proof. unfold manifest_ok. by rewrite shipped_ents_snoc, Forall_app, Forall_singleton. Qed.

Lemma run_record_insert es me x tzc t out (Q : Z -> tool_env tzcheck -> Prop) (X : Z -> Prop) :
  shipped_ent me = Some x -> is_Some (tze_path x) -> ~ stray_hardlink me -> tree t (sorted (shipped_ents es)) -> manifest_ok es ->
  (forall t', tree t' (sorted (shipped_ents (es ++ [me]))) -> manifest_ok (es ++ [me]) -> Q MECB_NEXT (ToolEnv out (with_manifest tzc t'))) ->
  (~ manifest_ok (es ++ [me]) -> X 1) ->
  run (tz_insert t x) (fun t' => run (put_state (set_zoneinfo (with_manifest tzc t) t' (tzc_zoneinfo_proto tzc)) ;; mret MECB_NEXT) Q X)
    X (ToolEnv out (with_manifest tzc t)).
Proof.
  intros Hx [p Hp] Hst Ht Hok HQ HX. rewrite manifest_ok_snoc, Hx in HX. pose proof (have_paths_shipped es).
  assert (Hk : tze_key x = p) by (unfold tze_key; by rewrite Hp). rewrite fmap_app, list.NoDup_app in HX.
  eapply run_tz_insert; [done|done|done| |].
  - intros Hin. apply HX. intros [(_ & Hd & _) _]. apply (Hd p Hin). cbn. rewrite Hk. by left.
  - intros t' Hni Ht'. run_steps. apply HQ; [by rewrite shipped_ents_snoc, Hx|]. rewrite manifest_ok_snoc, Hx, fmap_app, list.NoDup_app.
    destruct Hok as [Hnd Hall]. split_and!; [done| |apply NoDup_singleton|done|done]. intros k Hin Hk'. cbn in Hk'.
    apply list_elem_of_singleton in Hk' as ->. by rewrite Hk in Hin.
Qed.

Lemma below_ok name p : below name = Some p -> short name -> str_ok p.
Proof.
  unfold below. case_decide; [|done]. intros [= <-] [_ Hs]. unfold str_ok, HEAP_HI, Zlen in *.
  rewrite length_drop. lia.
Qed.

Lemma run_record_zoneinfo es me tzc t out (Q : Z -> tool_env tzcheck -> Prop) (X : Z -> Prop) :
  entry_wf me -> custr_text (tzc_prefix tzc) zone_prefix -> tree t (sorted (shipped_ents es)) -> manifest_ok es ->
  (forall t', tree t' (sorted (shipped_ents (es ++ [me]))) -> manifest_ok (es ++ [me]) -> Q MECB_NEXT (ToolEnv out (with_manifest tzc t'))) ->
  (~ manifest_ok (es ++ [me]) -> X 1) ->
  run (record_zoneinfo me) Q X (ToolEnv out (with_manifest tzc t)).
Proof.
  intros ((name & Hname & Hshort) & Hinv & Htarget) Hpre Ht Hok HQ HX. unfold record_zoneinfo. run_steps.
  change (tzc_prefix (with_manifest tzc t)) with (tzc_prefix tzc).
  eapply run_custr_cstr; [exact Hpre|]. change (c_text zone_prefix) with zone_prefix. run_steps.
  eapply run_access; [exact Hname|]. assert (custr_len (tzc_prefix tzc) = Zlen zone_prefix) as -> by apply custr_rep_len, Hpre.
  rewrite strncmp_swap, strncmp_prefix. change (Z.to_nat (Zlen zone_prefix)) with (length zone_prefix).
  assert (Hb : below name = if decide (zone_prefix `prefix_of` name) then Some (drop (length zone_prefix) name) else None) by done.
  case_bool_decide as Hp; cbn [negb].
  2:{ rewrite decide_False in Hb by done. run_steps. destruct Hok as [Hnd Hall].
      assert (Hnone : shipped_ent me = None) by (unfold shipped_ent; by rewrite Hname; cbn; rewrite Hb).
      assert (Hns : ~ stray_hardlink me) by (intros (_ & [? Hs] & _); rewrite Hname in Hs; cbn in Hs; congruence).
      apply HQ; [by rewrite shipped_ents_snoc, Hnone, app_nil_r|]. rewrite manifest_ok_snoc, Hnone, app_nil_r. by split_and!. }
  rewrite decide_True in Hb by done. set (p := drop (length zone_prefix) name) in *.
  apply run_bind, run_tzent_alloc, run_bind, run_dup_str; [by eapply below_ok|].
  assert (Hsh : shipped_ent me = match me_type me with
    | ME_TYPE_HARDLINK => target ← me_target me ≫= below; Some (Tzent ME_TYPE_HARDLINK (Some p) (Some target) 0)
    | ME_TYPE_SYMLINK => target ← me_target me; Some (Tzent ME_TYPE_SYMLINK (Some p) (Some target) 0)
    | ME_TYPE_DIRECTORY => Some (Tzent ME_TYPE_DIRECTORY (Some p) None 0)
    | ME_TYPE_FILE => Some (Tzent ME_TYPE_FILE (Some p) None 0)
    | ME_TYPE_INVALID => None
    end) by (unfold shipped_ent; by rewrite Hname; cbn; rewrite Hb).
  assert (Hst : stray_hardlink me <-> me_type me = ME_TYPE_HARDLINK /\ me_target me ≫= below = None).
  { unfold stray_hardlink. rewrite Hname. cbn. rewrite Hb. split; [by intros (? & _ & ?)|intros [? ?]; by split_and!; [|eexists|]]. }
  destruct (me_type me) eqn:Hty; [done| | | |]; run_steps.
  - eapply (run_record_insert es me _ tzc t out Q X); [exact Hsh|by eexists|rewrite Hst; by intros [? _]|done..].
  - eapply (run_record_insert es me _ tzc t out Q X); [exact Hsh|by eexists|rewrite Hst; by intros [? _]|done..].
  - destruct (Htarget ltac:(by left)) as (target & Htg & Htgs). rewrite Htg in Hsh, Hst. cbn in Hsh, Hst.
    eapply run_access; [exact Htg|]. rewrite strncmp_prefix. case_bool_decide as Hpt; cbn [negb].
    + assert (Hbt : below target = Some (drop (length zone_prefix) target)) by (unfold below; by rewrite decide_True).
      rewrite Hbt in Hsh, Hst. run_steps. apply run_dup_str; [by eapply below_ok|]. run_steps.
      eapply (run_record_insert es me _ tzc t out Q X); [exact Hsh|by eexists|rewrite Hst; by intros [_ ?]|done..].
    + assert (Hbt : below target = None) by (unfold below; by rewrite decide_False). apply run_exit, HX. rewrite manifest_ok_snoc.
      intros (_ & _ & Hno). apply Hno, Hst. by rewrite Hbt.
  - destruct (Htarget ltac:(by right)) as (target & Htg & Htgs). rewrite Htg in Hsh. cbn in Hsh.
    eapply run_access; [exact Htg|]. run_steps. apply run_dup_str; [destruct Htgs as [_ ?]; unfold str_ok, HEAP_HI; lia|]. run_steps.
    eapply (run_record_insert es me _ tzc t out Q X); [exact Hsh|by eexists|rewrite Hst; by intros [? _]|done..].
Qed.

Lemma run_read_zoneinfo path es tzc out (X : Z -> Prop) :
  manifest_has (fs_manifest path) es -> custr_text (tzc_prefix tzc) zone_prefix -> tree (tzc_zoneinfo_manifest tzc) [] ->
  (forall st, st = 1 /\ ~ manifest_ok es -> X st) ->
  run (read_manifest_file path (fs_manifest path) record_zoneinfo)
    (fun r e' => r = 0 /\ manifest_ok es /\ exists t, tree t (sorted (shipped_ents es)) /\ e' = ToolEnv out (with_manifest tzc t)) X (ToolEnv out tzc).
Proof.
  intros Hman Hpre Ht HX. pose proof Hman as (mf & _ & _ & Hshort & _ & Hes). pose proof (manifest_wf _ _ Hshort Hes) as Hwf.
  apply (run_read_manifest path _ record_zoneinfo (fun pre e' => manifest_ok pre /\
    exists t, tree t (sorted (shipped_ents pre)) /\ e' = ToolEnv out (with_manifest tzc t))); [done| |].
  - split; [by repeat constructor|]. exists (tzc_zoneinfo_manifest tzc). split; [done|]. by destruct tzc.
  - intros pre me post e' -> (Hok & t & Hs & ->). apply Forall_app in Hwf as [_ [Hme _]%Forall_cons_1].
    eapply run_record_zoneinfo; [done|done|done|done| |].
    + intros t' Ht' Hok'. split; [done|]. split; [done|]. by exists t'.
    + intros Hno. apply HX. split; [done|]. intros [Hnd Hall]. apply Hno. change (me :: post) with ([me] ++ post) in Hnd, Hall.
      rewrite app_assoc in Hnd, Hall. unfold shipped_ents in Hnd. rewrite omap_app, fmap_app in Hnd. apply list.NoDup_app in Hnd as [Hnd _].
      by apply Forall_app in Hall as [Hall _].
Qed.
End record_facts.

(** ** The report *)

Definition manifest_type (mp : tzent) : manifest_ent_type :=
  match tze_type mp with ME_TYPE_HARDLINK => ME_TYPE_FILE | type => type end.
Definition target_of (t : tzent) : cstr := default [] (tze_target t).
Definition tab_line (title : string) (text : cstr) : cstr := TAB :: cs title ++ text ++ [LF].

(** What is wrong with a file of the proto area, given the entries of the manifest. *)
Definition mismatch (ms : list tzent) (pp : tzent) : list cstr :=
  match find_key tze_key (tze_key pp) ms with
  | None => [cs "missing from manifest: " ++ tze_key pp ++ [LF]]
  | Some mp =>
      if decide (tze_type pp = manifest_type mp) then
        if decide (tze_type pp = ME_TYPE_SYMLINK /\ target_of pp <> target_of mp) then
          [cs "symlink target mismatch: " ++ tze_key pp ++ [LF]; tab_line "proto:    " (target_of pp); tab_line "manifest: " (target_of mp)]
        else []
      else
        [cs "type mismatch: " ++ tze_key mp ++ [LF]; tab_line "proto:    " (manifest_ent_type_name (tze_type pp));
         tab_line "manifest: " (manifest_ent_type_name (tze_type mp))]
  end.

Definition proto_lines (verbose : bool) (ms : list tzent) (pp : tzent) : list cstr :=
  match mismatch ms pp with
  | [] => if verbose then [cs "ok: " ++ tze_key pp ++ [LF]] else []
  | ls => ls
  end.

(** Two paths of the proto area name the same file. *)
Definition same_inode (ps : list tzent) (l r : cstr) : bool :=
  match find_key tze_key l ps, find_key tze_key r ps with
  | Some el, Some er => negb (tze_inode el =? 0) && negb (tze_inode er =? 0) && (tze_inode el =? tze_inode er)
  | _, _ => false
  end.

Definition hardlink_lines (ps : list tzent) (mp : tzent) : list cstr :=
  if decide (tze_type mp = ME_TYPE_HARDLINK /\ same_inode ps (tze_key mp) (target_of mp) = false) then
    [cs "hardlink mismatch: " ++ tze_key mp ++ [LF]; tab_line "manifest: " (target_of mp); tab_line "proto:    check manually" []]
  else [].

Definition error_count (ms ps : list tzent) : Z :=
  Zlen (filter (fun pp => mismatch ms pp <> []) ps) + Zlen (filter (fun mp => hardlink_lines ps mp <> []) ms).

Definition zone_report (verbose : bool) (ms ps : list tzent) : list cstr :=
  (ps ≫= proto_lines verbose ms) ++ (ms ≫= hardlink_lines ps) ++
  (if decide (0 < error_count ms ps) then [LF :: cs "time zone errors found: " ++ print_d (error_count ms ps) ++ [LF]] else []).

(** The entries that point somewhere say where. *)
Definition have_targets (ts : list tzent) : Prop :=
  Forall (fun t => tze_type t = ME_TYPE_SYMLINK \/ tze_type t = ME_TYPE_HARDLINK -> is_Some (tze_target t)) ts.

Section report_facts.
Context `{AvlTree tzent, !AvlLaws tzent} `{DM : DataModel} `{FileSystem}.
Implicit Types (tzc : tzcheck) (out : list cstr) (ts ms ps pre post : list tzent).

Notation tree := (tree_seq tzent_comparator).
Notation sorted := (sorted_of tzent_comparator).

Lemma run_print_line title text o (Q : () -> tool_env tzcheck -> Prop) X out tzc :
  o = Some text -> Q tt (ToolEnv (out ++ [cs title ++ text ++ [LF]]) tzc) -> run (print_line title o) Q X (ToolEnv out tzc).
Proof. intros -> HQ. unfold print_line. run_steps. eapply run_access; [done|]. by run_steps. Qed.

Lemma path_key t : is_Some (tze_path t) -> tze_path t = Some (tze_key t).
Proof. intros [p Hp]. unfold tze_key. by rewrite Hp. Qed.

Lemma target_key t : is_Some (tze_target t) -> tze_target t = Some (target_of t).
Proof. intros [p Hp]. unfold target_of. by rewrite Hp. Qed.

(** The trees of both sides. *)
Record compared tzc ms ps : Prop := Compared {
  cd_manifest : tree (tzc_zoneinfo_manifest tzc) (sorted ms);
  cd_proto : tree (tzc_zoneinfo_proto tzc) (sorted ps);
  cd_mpaths : have_paths ms;
  cd_ppaths : have_paths ps;
  cd_mtargets : have_targets ms;
  cd_ptargets : have_targets ps
}.

Lemma run_lookup t ts o p (Q : option tzent -> tool_env tzcheck -> Prop) X e :
  tree t (sorted ts) -> have_paths ts -> o = Some p -> Q (find_key tze_key p (sorted ts)) e -> run (lookup_tzent t o) Q X e.
Proof. intros Ht Hp -> HQ. unfold lookup_tzent. by eapply run_tz_find. Qed.

Lemma find_sorted k ts x : find_key tze_key k (sorted ts) = Some x -> x ∈ ts.
Proof.
  intros Hf. unfold find_key in Hf. apply head_Some_elem_of, list_elem_of_filter in Hf as [_ Hf].
  by rewrite (sorted_of_perm tzent_comparator) in Hf.
Qed.

Lemma run_check_proto_ent tzc ms ps pp out X :
  compared tzc ms ps -> is_Some (tze_path pp) -> (tze_type pp = ME_TYPE_SYMLINK -> is_Some (tze_target pp)) ->
  run (check_proto_ent pp) (fun ok e' => ok = bool_decide (mismatch (sorted ms) pp = []) /\ e' = ToolEnv (out ++ mismatch (sorted ms) pp) tzc)
    X (ToolEnv out tzc).
Proof.
  intros [Hm Hp Hmp Hpp Hmt Hpt] Hpath%path_key Htarget. unfold check_proto_ent, mismatch. run_steps.
  eapply run_lookup; [exact Hm|exact Hmp|exact Hpath|]. destruct (find_key tze_key (tze_key pp) (sorted ms)) as [mp|] eqn:Hf.
  2:{ apply run_bind. eapply run_print_line; [exact Hpath|]. by run_steps. }
  apply find_sorted in Hf. pose proof (path_key _ (proj1 (list.Forall_forall _ _) Hmp mp Hf)) as Hmpath.
  assert (Hmtarget : tze_type mp = ME_TYPE_SYMLINK -> tze_target mp = Some (target_of mp)).
  { intros Hty. apply target_key, (proj1 (list.Forall_forall _ _) Hmt mp Hf). by left. }
  change (match tze_type mp with ME_TYPE_HARDLINK => ME_TYPE_FILE | type => type end) with (manifest_type mp).
  case_bool_decide as Hty; cbn [negb].
  - rewrite decide_True by done. destruct (decide (tze_type pp = ME_TYPE_SYMLINK)) as [Hsym|Hsym].
    + assert (Hmsym : tze_type mp = ME_TYPE_SYMLINK) by (revert Hty; unfold manifest_type; rewrite Hsym; by destruct (tze_type mp)).
      rewrite Hsym. specialize (Hmtarget Hmsym). pose proof (target_key _ (Htarget Hsym)) as Hptarget. run_steps.
      eapply run_access; [exact Hptarget|]. run_steps. eapply run_access; [exact Hmtarget|]. run_steps.
      destruct (Z.eqb_spec (strcmp (target_of pp) (target_of mp)) 0) as [He|He]; rewrite strcmp_eq in He; cbn [negb].
      * rewrite decide_False by (by intros [_ ?]). run_steps. by rewrite app_nil_r.
      * rewrite decide_True by done. run_steps. eapply run_print_line; [exact Hpath|]. run_steps.
        eapply run_access; [exact Hptarget|]. run_steps. eapply run_access; [exact Hmtarget|]. run_steps. by rewrite <-!app_assoc.
    + rewrite decide_False by (by intros [? _]). apply run_bind.
      eapply (run_use _ (fun b e => b = false /\ e = ToolEnv out tzc)); [destruct (tze_type pp); try done; by apply run_ret|].
      intros b e [-> ->]. run_steps. by rewrite app_nil_r.
  - rewrite decide_False by done. run_steps. eapply run_print_line; [exact Hmpath|]. run_steps. by rewrite <-!app_assoc.
Qed.

Lemma filter_not_empty {A} (P : A -> list cstr) x xs :
  Zlen (filter (fun x => P x <> []) (x :: xs)) = (if decide (P x = []) then 0 else 1) + Zlen (filter (fun x => P x <> []) xs).
Proof. rewrite filter_cons. destruct (decide (P x = [])); [rewrite decide_False by auto|rewrite decide_True by done; zlen]; done. Qed.

Lemma run_proto_loop fuel tzc ms ps pre post errors out X :
  compared tzc ms ps -> sorted ps = pre ++ post -> (length post <= fuel)%nat -> 0 <= errors -> errors + Zlen post <= INT_MAX ->
  run (proto_loop fuel (head post) errors)
    (fun r e' => r = errors + Zlen (filter (fun pp => mismatch (sorted ms) pp <> []) post) /\
       e' = ToolEnv (out ++ (post ≫= proto_lines (tzc_verbose tzc) (sorted ms))) tzc) X (ToolEnv out tzc).
Proof.
  intros Hc. revert pre post errors out. induction fuel as [|fuel IH]; intros pre post errors out Hs Hf He Hmax;
    (destruct post as [|pp post]; cbn [head proto_loop mbind list_bind]; [apply run_ret; split; [zlen|by rewrite app_nil_r]|]); [cbn in Hf; lia|].
  assert (Hpp : pp ∈ ps) by (rewrite <-(sorted_of_perm tzent_comparator), Hs; set_solver).
  assert (Hpath : is_Some (tze_path pp)) by apply (proj1 (list.Forall_forall _ _) (cd_ppaths _ _ _ Hc) pp Hpp).
  rewrite filter_not_empty. rewrite Zlen_cons in Hmax. pose proof (Zlen_nonneg post). unfold INT_MAX in Hmax.
  rewrite (i32_small (errors + 1)) by (unfold INT_MIN, INT_MAX; lia). apply run_bind.
  eapply run_use; [apply (run_check_proto_ent tzc ms ps); [done|done|]|].
  { intros Hty. apply (proj1 (list.Forall_forall _ _) (cd_ptargets _ _ _ Hc) pp Hpp). by left. }
  intros ok e' [-> ->]. run_steps.
  assert (Hnext : avl_next (tzc_zoneinfo_proto tzc) pp = head post).
  { pose proof (cd_proto _ _ _ Hc) as Ht. rewrite Hs in Ht. by apply (tree_seq_next tze_key tzent_comparator tzent_comparator_sgn _ pre). }
  rewrite Hnext. assert (Hs' : sorted ps = (pre ++ [pp]) ++ post) by by rewrite <-app_assoc.
  unfold proto_lines at 1. case_bool_decide as Hm.
  - rewrite decide_True, Hm, app_nil_r by done. rewrite (i32_small (errors + 1 - 1)) by (unfold INT_MIN, INT_MAX; lia). apply run_bind.
    eapply (run_use _ (fun _ e' => e' = ToolEnv (out ++ if tzc_verbose tzc then [cs "ok: " ++ tze_key pp ++ [LF]] else []) tzc)).
    { destruct (tzc_verbose tzc); [eapply run_print_line; [by apply path_key|done]|by run_steps; rewrite app_nil_r]. }
    intros [] e' ->. eapply run_mono; [eapply (IH (pre ++ [pp])); [done|cbn in Hf; lia|lia|unfold INT_MAX; lia]| |done].
    intros r e' [-> ->]. split; [lia|]. by rewrite <-app_assoc.
  - rewrite decide_False by done. eapply run_mono; [eapply (IH (pre ++ [pp])); [done|cbn in Hf; lia|lia|unfold INT_MAX; lia]| |done].
    intros r e' [-> ->]. split; [lia|]. rewrite <-app_assoc. by destruct (mismatch (sorted ms) pp).
Qed.

Lemma run_hardlink_check tzc ms ps l r out (Q : bool -> tool_env tzcheck -> Prop) X :
  compared tzc ms ps -> Q (same_inode (sorted ps) l r) (ToolEnv out tzc) ->
  run (hardlink_check (tzc_zoneinfo_proto tzc) (Some l) (Some r)) Q X (ToolEnv out tzc).
Proof.
  intros [_ Hp _ Hpp _ _] HQ. unfold hardlink_check. apply run_bind. eapply run_lookup; [exact Hp|exact Hpp|done|].
  apply run_bind. eapply run_lookup; [exact Hp|exact Hpp|done|]. unfold same_inode in HQ.
  destruct (find_key tze_key l (sorted ps)) as [el|]; [|by apply run_ret].
  destruct (find_key tze_key r (sorted ps)) as [er|]; [|by apply run_ret].
  destruct (tze_inode el =? 0), (tze_inode er =? 0); cbn [negb andb orb] in *; try by apply run_ret.
  all: run_steps; eapply run_access; [done|]; run_steps; eapply run_access; [done|]; by run_steps.
Qed.

Lemma run_hardlink_loop fuel tzc ms ps pre post errors out X :
  compared tzc ms ps -> sorted ms = pre ++ post -> (length post <= fuel)%nat -> 0 <= errors -> errors + Zlen post <= INT_MAX ->
  run (hardlink_loop fuel (head post) errors)
    (fun r e' => r = errors + Zlen (filter (fun mp => hardlink_lines (sorted ps) mp <> []) post) /\
       e' = ToolEnv (out ++ (post ≫= hardlink_lines (sorted ps))) tzc) X (ToolEnv out tzc).
Proof.
  intros Hc. revert pre post errors out. induction fuel as [|fuel IH]; intros pre post errors out Hs Hf He Hmax;
    (destruct post as [|mp post]; cbn [head hardlink_loop mbind list_bind]; [apply run_ret; split; [zlen|by rewrite app_nil_r]|]); [cbn in Hf; lia|].
  assert (Hmp : mp ∈ ms) by (rewrite <-(sorted_of_perm tzent_comparator), Hs; set_solver).
  pose proof (path_key _ (proj1 (list.Forall_forall _ _) (cd_mpaths _ _ _ Hc) mp Hmp)) as Hpath.
  rewrite filter_not_empty. rewrite Zlen_cons in Hmax. pose proof (Zlen_nonneg post). unfold INT_MAX in Hmax. run_steps.
  assert (Hnext : avl_next (tzc_zoneinfo_manifest tzc) mp = head post).
  { pose proof (cd_manifest _ _ _ Hc) as Ht. rewrite Hs in Ht. by apply (tree_seq_next tze_key tzent_comparator tzent_comparator_sgn _ pre). }
  rewrite Hnext. assert (Hs' : sorted ms = (pre ++ [mp]) ++ post) by by rewrite <-app_assoc.
  assert (Hrest : forall errors' out', 0 <= errors' <= errors + 1 -> run (hardlink_loop fuel (head post) errors')
    (fun r e' => r = errors' + Zlen (filter (fun mp => hardlink_lines (sorted ps) mp <> []) post) /\
       e' = ToolEnv (out' ++ (post ≫= hardlink_lines (sorted ps))) tzc) X (ToolEnv out' tzc)).
  { intros errors' out' He'. apply (IH (pre ++ [mp])); [done|cbn in Hf; lia|lia|unfold INT_MAX; lia]. }
  destruct (decide (tze_type mp = ME_TYPE_HARDLINK)) as [Hty|Hty].
  - pose proof (target_key _ (proj1 (list.Forall_forall _ _) (cd_mtargets _ _ _ Hc) mp Hmp ltac:(by right))) as Htarget.
    rewrite Hty, Hpath, Htarget. rewrite (i32_small (errors + 1)) by (unfold INT_MIN, INT_MAX; lia). apply run_bind.
    eapply run_hardlink_check; [exact Hc|]. destruct (same_inode (sorted ps) (tze_key mp) (target_of mp)) eqn:Hsame; cbn [negb].
    + assert (hardlink_lines (sorted ps) mp = []) as -> by (unfold hardlink_lines; rewrite decide_False; [done|intros [_ ?]; congruence]).
      rewrite decide_True by done. rewrite (i32_small (errors + 1 - 1)) by (unfold INT_MIN, INT_MAX; lia). eapply run_mono; [apply Hrest; lia| |done].
      intros r e' [-> ->]. split; [lia|done].
    + assert (hardlink_lines (sorted ps) mp = [cs "hardlink mismatch: " ++ tze_key mp ++ [LF]; tab_line "manifest: " (target_of mp);
        tab_line "proto:    check manually" []]) as -> by (unfold hardlink_lines; by rewrite decide_True).
      rewrite decide_False by done. apply run_bind. eapply run_print_line; [done|]. run_steps.
      eapply run_access; [done|]. run_steps. eapply run_mono; [apply Hrest; lia| |done].
      intros r e' [-> ->]. split; [lia|]. by rewrite <-!app_assoc.
  - assert (hardlink_lines (sorted ps) mp = []) as -> by (unfold hardlink_lines; rewrite decide_False; [done|by intros [? _]]).
    rewrite decide_True by done.
    replace (errors + (0 + Zlen (filter (fun mp => hardlink_lines (sorted ps) mp <> []) post)))
      with (errors + Zlen (filter (fun mp => hardlink_lines (sorted ps) mp <> []) post)) by lia.
    destruct (tze_type mp); try done; apply Hrest; lia.
Qed.
End report_facts.

(** ** Consistency *)

(** Every file of the proto area is in the manifest, with its type and target, and every hard link
    of the manifest has the inode of its target. *)
Definition consistent (ms ps : list tzent) : Prop :=
  (forall pp, pp ∈ ps -> exists mp, mp ∈ ms /\ tze_key mp = tze_key pp /\ manifest_type mp = tze_type pp /\
     (tze_type pp = ME_TYPE_SYMLINK -> target_of mp = target_of pp)) /\
  (forall mp, mp ∈ ms -> tze_type mp = ME_TYPE_HARDLINK ->
     exists l r, l ∈ ps /\ r ∈ ps /\ tze_key l = tze_key mp /\ tze_key r = target_of mp /\ tze_inode l = tze_inode r /\ tze_inode l <> 0).

Lemma filter_none_zlen {A} (P : A -> Prop) `{forall x, Decision (P x)} l : Zlen (filter P l) = 0 <-> forall x, x ∈ l -> ~ P x.
Proof.
  split.
  - intros Hz x Hx HP. assert (Hin : x ∈ filter P l) by by apply list_elem_of_filter. destruct (filter P l); [by apply not_elem_of_nil in Hin|].
    autorewrite with zlen in Hz. pose proof (Zlen_nonneg l0). lia.
  - intros Hno. destruct (filter P l) as [|x f] eqn:Hf; [done|]. assert (Hin : x ∈ filter P l) by (rewrite Hf; by left).
    apply list_elem_of_filter in Hin as [HP Hx]. by destruct (Hno x).
Qed.

Lemma error_count_consistent ms ps :
  NoDup (tze_key <$> ms) -> NoDup (tze_key <$> ps) -> error_count ms ps = 0 <-> consistent ms ps.
Proof.
  intros Hm Hp. unfold error_count. pose proof (Zlen_nonneg (filter (fun pp => mismatch ms pp <> []) ps)).
  pose proof (Zlen_nonneg (filter (fun mp => hardlink_lines ps mp <> []) ms)).
  transitivity (Zlen (filter (fun pp => mismatch ms pp <> []) ps) = 0 /\ Zlen (filter (fun mp => hardlink_lines ps mp <> []) ms) = 0); [lia|].
  rewrite !filter_none_zlen. unfold consistent. f_equiv.
  - apply forall_proper; intros pp. apply forall_proper; intros Hpp. unfold mismatch.
    destruct (find_key tze_key (tze_key pp) ms) as [mp|] eqn:Hf.
    + apply (find_key_some tze_key) in Hf as [Hin Hk]; [|done]. split.
      * intros Hno. exists mp. split; [done|]. split; [done|]. case_decide as Hty; [|by destruct Hno]. split; [done|]. case_decide as Ht; [by destruct Hno|].
        intros Hs. destruct (decide (target_of pp = target_of mp)); [done|]. by destruct Ht.
      * intros (mp' & Hin' & Hk' & Hty & Ht) Hno. assert (mp' = mp) as ->.
        { assert (Hf : find_key tze_key (tze_key pp) ms = Some mp') by by apply find_key_some.
          assert (Hf' : find_key tze_key (tze_key pp) ms = Some mp) by by apply find_key_some. congruence. }
        apply Hno. rewrite decide_True by done. rewrite decide_False; [done|]. intros [Hs Hne]. by destruct Hne; rewrite Ht.
    + apply (find_key_none tze_key) in Hf. split; [by intros []|]. intros (mp & Hin & Hk & _). exfalso. apply Hf. rewrite <-Hk. by apply list_elem_of_fmap_2.
  - apply forall_proper; intros mp. apply forall_proper; intros Hmp. unfold hardlink_lines. split.
    + intros Hno Hty. case_decide as Hd; [by destruct Hno|]. assert (Hs : same_inode ps (tze_key mp) (target_of mp) = true).
      { apply not_false_is_true. intros ?. by apply Hd. }
      unfold same_inode in Hs. destruct (find_key tze_key (tze_key mp) ps) as [l|] eqn:Hl; [|done].
      destruct (find_key tze_key (target_of mp) ps) as [r|] eqn:Hr; [|done]. apply (find_key_some tze_key) in Hl as [? ?], Hr as [? ?]; [|done..].
      exists l, r. split_and!; try done; [|]; revert Hs; rewrite !andb_true_iff, !negb_true_iff, Z.eqb_eq, !Z.eqb_neq; tauto.
    + intros Hall. case_decide as Hd; [|by intros []]. destruct Hd as [Hty Hs]. destruct (Hall Hty) as (l & r & Hl & Hr & Hkl & Hkr & Hi & Hz).
      exfalso. unfold same_inode in Hs. rewrite (proj2 (find_key_some tze_key _ ps l Hp)) in Hs by done.
      rewrite (proj2 (find_key_some tze_key _ ps r Hp)) in Hs by done. rewrite Hi in *. apply Z.eqb_neq in Hz. rewrite Hz, Z.eqb_refl in Hs. done.
Qed.

(** ** The program *)

Definition zone_root (proto : cstr) : cstr := path_join (path_join [] proto) cm_pdir.

Lemma copied_spec b s : Zlen (copied b s) <= Zlen s + 1 /\ forall c, c ∈ copied b s -> c = SLASH \/ c ∈ s.
Proof.
  assert (H : Zlen (copied b s) <= Zlen s + (if b then 1 else 0) /\ forall c, c ∈ copied b s -> c = SLASH \/ c ∈ s).
  { revert b. induction s as [|d s IH]; intros b; cbn [copied]; [split; [by destruct b|by intros c ?%not_elem_of_nil]|]. rewrite Zlen_cons.
    destruct (Ascii.eqb d Strpath.SLASH).
    - destruct (IH true) as [Hl Hc]. split; [destruct b; lia|]. intros c Hin. destruct (Hc c Hin); [by left|right; by right].
    - destruct (IH false) as [Hl Hc]. destruct b; cbn [app]; rewrite ?Zlen_cons; (split; [lia|]); intros c Hin.
      + apply elem_of_cons in Hin as [->|[->|Hin]%elem_of_cons]; [by left|right; by left|]. destruct (Hc c Hin); [by left|right; by right].
      + apply elem_of_cons in Hin as [->|Hin]; [right; by left|]. destruct (Hc c Hin); [by left|right; by right]. }
  destruct H as [Hl Hc]. split; [|done]. destruct b; lia.
Qed.

Lemma skip_slashes_suffix s : exists p, s = p ++ skip_slashes s.
Proof.
  induction s as [|c s [p IH]]; [by exists []|]. cbn [skip_slashes]. destruct (Ascii.eqb c Strpath.SLASH); [|by exists []].
  exists (c :: p). cbn. by rewrite <-IH.
Qed.

Lemma path_join_spec t inp :
  Zlen (path_join t inp) <= Zlen t + Zlen inp + 2 /\ forall c, c ∈ path_join t inp -> c = SLASH \/ c ∈ t \/ c ∈ inp.
Proof.
  assert (Hb : Zlen (path_base t inp) <= Zlen t + 1 /\ forall c, c ∈ path_base t inp -> c = SLASH \/ c ∈ t).
  { pose proof (Zlen_nonneg t) as Ht. assert (Hnil : Zlen ([] : cstr) <= Zlen t + 1 /\ forall c, c ∈ ([] : cstr) -> c = SLASH \/ c ∈ t).
    { split; [zlen|]. by intros c ?%not_elem_of_nil. }
    unfold path_base. destruct (list.last t) as [d|].
    - destruct (Ascii.eqb d Strpath.SLASH); (split; [zlen|]); intros c; [by right|].
      intros [?|Hc]%elem_of_app; [by right|]. left. by apply list_elem_of_singleton in Hc.
    - destruct inp as [|d inp]; [done|]. destruct (Ascii.eqb d Strpath.SLASH); [|done]. split; [zlen|].
      intros c Hc. left. by apply list_elem_of_singleton in Hc. }
  destruct Hb as [Hl Hc]. unfold path_join. rewrite <-copied_skip. destruct (copied_spec false (skip_slashes inp)) as [Hl' Hc'].
  destruct (skip_slashes_suffix inp) as [p Hp]. assert (Zlen (skip_slashes inp) <= Zlen inp) by (rewrite Hp at 2; zlen). split; [zlen|].
  intros c [Hin|Hin]%elem_of_app; [destruct (Hc c Hin); auto|]. destruct (Hc' c Hin) as [?|Hs]; [by left|]. right; right. rewrite Hp. set_solver.
Qed.

Lemma zone_root_cstr proto : is_cstr proto -> is_cstr (zone_root proto).
Proof.
  intros Hp Hc. apply path_join_spec in Hc as [Hc|[Hc|Hc]]; [done| |by vm_compute in Hc; set_solver].
  apply path_join_spec in Hc as [Hc|[Hc|Hc]]; [done|by apply not_elem_of_nil in Hc|done].
Qed.

Section program.
Context `{AvlTree tzent, !AvlLaws tzent} `{DM : DataModel} `{FileSystem} (strerror : Z -> cstr).
Implicit Types (tzc : tzcheck) (out : list cstr).

Notation tree := (tree_seq tzent_comparator).
Notation sorted := (sorted_of tzent_comparator).

Definition tzcheck_args (verbose : bool) (manifest proto : cstr) : list cstr :=
  (if verbose then [cs "-v"] else []) ++ [cs "-f"; manifest; cs "-p"; proto].

(** What the program starts from. *)
Record started (verbose : bool) (manifest proto : cstr) tzc : Prop := Started {
  st_manifest : tzc_manifest_path tzc = Some manifest;
  st_proto : tzc_proto_path tzc = Some proto;
  st_verbose : tzc_verbose tzc = verbose;
  st_prefix : custr_text (tzc_prefix tzc) zone_prefix;
  st_trees : tree (tzc_zoneinfo_manifest tzc) [] /\ tree (tzc_zoneinfo_proto tzc) []
}.

Lemma run_tzcheck_start {A} verbose manifest proto out tzc0 (k : C (tool_env tzcheck) A) Q X :
  str_ok manifest -> manifest <> [] -> str_ok proto -> proto <> [] ->
  (forall tzc, started verbose manifest proto tzc -> run k Q X (ToolEnv out tzc)) ->
  run (tzcheck_init ;; parse_opts (tzcheck_args verbose manifest proto) ;; k) Q X (ToolEnv out tzc0).
Proof.
  intros Hm Hm0 Hp Hp0 Hk. apply run_bind. unfold tzcheck_init. apply run_bind, run_custr_alloc. intros cu Hcu. apply run_bind.
  eapply run_strpath_append; [exact Hcu|by vm_compute|]. intros cu1 Hcu1. change (negb (0 =? 0)) with false. cbn beta iota. apply run_bind.
  eapply run_appendc; [exact Hcu1|by vm_compute|]. intros cu2 Hcu2. change (negb (0 =? 0)) with false. cbn beta iota. run_steps.
  change (path_join [] cm_pdir ++ [SLASH]) with zone_prefix in Hcu2. unfold parse_opts. run_steps.
  assert (Hopts : getopts tzcheck_opts (tzcheck_args verbose manifest proto) =
    (if verbose then [OptChar "v" None] else []) ++ [OptChar "f" (Some manifest); OptChar "p" (Some proto)]) by by destruct verbose.
  rewrite Hopts. set (tzc := Tzcheck None None _ _ false cu2).
  assert (Hend : forall m e (Qm : tzcheck -> tool_env tzcheck -> Prop), Qm (set_paths m (Some manifest) (Some proto)) e ->
    run (option_loop [OptChar "f" (Some manifest); OptChar "p" (Some proto)] m) Qm X e).
  { intros m e Qm HQm. cbn [option_loop]. change (Ascii.eqb "f" "f") with true. change (Ascii.eqb "p" "f") with false.
    change (Ascii.eqb "p" "p") with true. cbn beta iota. apply run_bind. eapply run_access; [done|]. apply run_bind, run_dup_str; [done|].
    apply run_bind. eapply run_access; [done|]. apply run_bind, run_dup_str; [done|]. by apply run_ret. }
  assert (Hfin : forall m, m = (if verbose then set_verbose tzc else tzc) ->
    run (match tzc_manifest_path (set_paths m (Some manifest) (Some proto)), tzc_proto_path (set_paths m (Some manifest) (Some proto)) with
      | None, _ | Some [], _ | _, None | _, Some [] => c_exit 2
      | Some _, Some _ => put_state (set_paths m (Some manifest) (Some proto))
      end) (fun _ => run k Q X) X (ToolEnv out tzc)).
  { intros m ->. cbn [set_paths tzc_manifest_path tzc_proto_path]. destruct manifest, proto; try done. run_steps. apply Hk.
    split; [done|done|by destruct verbose|by destruct verbose|by destruct verbose; split; apply tree_seq_create]. }
  destruct verbose; cbn [app]; [cbn [option_loop]; change (Ascii.eqb "v" "f") with false; change (Ascii.eqb "v" "p") with false;
    change (Ascii.eqb "v" "h") with false; change (Ascii.eqb "v" "v") with true; cbn beta iota|]; apply Hend; by apply Hfin.
Qed.

Lemma run_load_from_proto depth proto zs tzc out (X : Z -> Prop) :
  tzc_proto_path tzc = Some proto -> is_cstr proto -> Zlen proto <= PATHS_MAX ->
  shows_entries (zone_root proto) zs -> (dir_depth zs < depth)%nat -> tree (tzc_zoneinfo_proto tzc) [] ->
  short_paths (dir_ents [] zs) -> strays_missing (zone_root proto) (dir_ents [] zs) -> (~ links_top (dir_ents [] zs) -> X 1) ->
  run (load_from_proto depth) (fun _ e' => links_top (dir_ents [] zs) /\ exists t, e' = ToolEnv out (with_proto tzc t) /\
       tree t (sorted (dir_ents [] zs)) /\ have_paths (dir_ents [] zs)) X (ToolEnv out tzc).
Proof.
  intros Hproto Hcstr Hlen Hzs Hd Ht Hs Hm HX. unfold load_from_proto. apply run_bind, run_custr_alloc. intros cu Hcu. run_steps.
  eapply run_access; [exact Hproto|]. apply run_bind. eapply run_strpath_append; [exact Hcu|unfold PATHS_MAX, CUSTR_MAX in *; zlen|].
  intros cu1 Hcu1. change (negb (0 =? 0)) with false. cbn beta iota. apply run_bind. destruct (path_join_spec [] proto) as [Hl _].
  eapply run_strpath_append; [exact Hcu1|change (Zlen cm_pdir) with 22; unfold PATHS_MAX, CUSTR_MAX in *; rewrite Zlen_nil in Hl; lia|].
  intros cu2 Hcu2. change (negb (0 =? 0)) with false. cbn beta iota. run_steps. eapply run_custr_cstr; [exact Hcu2|].
  fold (zone_root proto). rewrite c_text_id by exact (zone_root_cstr _ Hcstr). by apply run_dirwalk.
Qed.

Lemma have_targets_dir parent es : have_targets (dir_ents parent es).
Proof.
  assert (Hf : forall k p z, (zone_depth z <= k)%nat -> have_targets (file_ents p z)).
  { assert (Hone : forall p z, have_targets [zone_ent p z]).
    { intros p z. apply Forall_singleton. destruct z; cbn; [by intros [|]|intros _; by eexists|by intros [|]]. }
    unfold have_targets in *. induction k as [|k IH]; intros p z Hk; rewrite file_ents_cons, Forall_app; (split; [done|]);
      destruct z as [ino|target|zs]; cbn [zone_subs zone_depth] in *; try constructor; [lia|].
    apply list.Forall_forall. intros t (e & Ht & He)%list_elem_of_bind. assert (Hd : (dir_depth zs <= k)%nat) by (unfold dir_depth; lia).
    apply dir_depth_le in Hd. apply (proj1 (list.Forall_forall _ _) Hd) in He. specialize (IH (sub_path p e.1) e.2 He).
    by apply (proj1 (list.Forall_forall _ _) IH). }
  apply list.Forall_forall. intros t (e & Ht & He)%list_elem_of_bind. specialize (Hf (zone_depth e.2) (sub_path parent e.1) e.2 ltac:(done)).
  by apply (proj1 (list.Forall_forall _ _) Hf).
Qed.

Lemma have_targets_shipped es : have_targets (shipped_ents es).
Proof.
  apply list.Forall_forall. intros t (me & _ & Ht)%list_elem_of_omap. unfold shipped_ent in Ht.
  apply bind_Some in Ht as (p & _ & Ht). destruct (me_type me); simplify_option_eq; intros [Hty|Hty]; try done; by eexists.
Qed.

Lemma error_count_sorted ms ps : NoDup (tze_key <$> ms) -> NoDup (tze_key <$> ps) ->
  error_count (sorted ms) (sorted ps) = 0 <-> consistent ms ps.
Proof.
  intros Hm Hp. rewrite error_count_consistent by by rewrite (sorted_of_perm tzent_comparator). unfold consistent.
  by setoid_rewrite (sorted_of_perm tzent_comparator).
Qed.

Lemma zlen_sorted ts : Zlen (sorted ts) = Zlen ts.
Proof. unfold Zlen. by rewrite (sorted_of_perm tzent_comparator). Qed.

(** The two loops and the count. *)
Lemma run_compare tzc ms ps out X :
  compared tzc ms ps -> Zlen ps + Zlen ms <= INT_MAX ->
  run (errors ← proto_loop (tree_fuel (tzc_zoneinfo_proto tzc)) (avl_first (tzc_zoneinfo_proto tzc)) 0;
       errors ← hardlink_loop (tree_fuel (tzc_zoneinfo_manifest tzc)) (avl_first (tzc_zoneinfo_manifest tzc)) errors;
       if 0 <? errors then print_out (LF :: cs "time zone errors found: " ++ print_d errors ++ [LF]) ;; abort_on_exit false 60
       else abort_on_exit false 0)
    (fun r e' => te_stdout e' = out ++ zone_report (tzc_verbose tzc) (sorted ms) (sorted ps) /\
       r = if decide (0 < error_count (sorted ms) (sorted ps)) then 60 else 0) X (ToolEnv out tzc).
Proof.
  intros Hc Hmax. rewrite (tree_seq_first tzent_comparator _ _ (cd_proto _ _ _ Hc)), (tree_seq_first tzent_comparator _ _ (cd_manifest _ _ _ Hc)).
  unfold tree_fuel. rewrite (tree_seq_numnodes tzent_comparator _ _ (cd_proto _ _ _ Hc)), (tree_seq_numnodes tzent_comparator _ _ (cd_manifest _ _ _ Hc)).
  pose proof (Zlen_nonneg (sorted ms)). pose proof (Zlen_nonneg (sorted ps)). rewrite <-(zlen_sorted ms), <-(zlen_sorted ps) in Hmax. apply run_bind.
  eapply run_use; [apply (run_proto_loop _ tzc ms ps [] (sorted ps) 0 out); [exact Hc|done|unfold Zlen; lia|lia|lia]|].
  intros e1 e' [-> ->]. apply run_bind.
  pose proof (length_filter (fun pp => mismatch (sorted ms) pp <> []) (sorted ps)) as Hlf.
  eapply run_use; [apply (run_hardlink_loop _ tzc ms ps [] (sorted ms)); [exact Hc|done|unfold Zlen; lia|unfold Zlen; lia|unfold Zlen in *; lia]|].
  intros e2 e' [-> ->]. rewrite Z.add_0_l. fold (error_count (sorted ms) (sorted ps)). unfold zone_report.
  destruct (Z.ltb_spec 0 (error_count (sorted ms) (sorted ps))); [rewrite !decide_True by done|rewrite !decide_False by lia].
  - unfold abort_on_exit. run_steps. split; [|done]. by rewrite <-!app_assoc.
  - unfold abort_on_exit. run_steps. split; [|done]. by rewrite app_nil_r, <-app_assoc.
Qed.

(** C23: tzcheck with a manifest and a proto area whose time zone directory is the tree [zs] ends.
    If no path is in the manifest twice, no hard link leaves the zone directory and no symbolic
    link is below its top, the program prints the report of the two sides, in the order of the
    paths, and returns 0 when they are consistent and 60 otherwise; in the other cases it exits
    with status 1. *)
Theorem tzcheck_reports (verbose : bool) (manifest proto : cstr) (depth : nat) (es : list manifest_ent) (zs : list (cstr * zone))
    (e : tool_env tzcheck) :
  str_ok manifest -> manifest <> [] -> is_cstr proto -> proto <> [] -> Zlen proto <= PATHS_MAX ->
  manifest_has (fs_manifest manifest) es -> shows_entries (zone_root proto) zs -> (dir_depth zs < depth)%nat ->
  short_paths (dir_ents [] zs) -> strays_missing (zone_root proto) (dir_ents [] zs) ->
  Zlen (dir_ents [] zs) + Zlen (shipped_ents es) <= INT_MAX ->
  run (main strerror depth false (tzcheck_args verbose manifest proto))
    (fun r e' => manifest_ok es /\ links_top (dir_ents [] zs) /\
       te_stdout e' = te_stdout e ++ zone_report verbose (sorted (shipped_ents es)) (sorted (dir_ents [] zs)) /\
       (r = 0 \/ r = 60) /\ (r = 0 <-> consistent (shipped_ents es) (dir_ents [] zs)))
    (fun st => st = 1 /\ (~ manifest_ok es \/ ~ links_top (dir_ents [] zs))) e.
Proof.
  intros Hm Hm0 Hpc Hp0 Hpl Hman Hzs Hd Hs Hstray Hmax. destruct e as [out tzc0]. cbn [te_stdout]. unfold main.
  apply run_tzcheck_start; [done|done|by apply short_path_ok|done|]. intros tzc [Hmp Hpp Hv Hpre [Htm Htp]]. run_steps. eapply run_access; [exact Hmp|].
  apply run_bind. eapply run_mono; [apply (run_read_zoneinfo manifest es tzc out (fun st => st = 1 /\ ~ manifest_ok es)); try done; auto| |intros st [? ?]; auto].
  intros r e (-> & Hok & tm & Htm' & ->). change (negb (0 =? 0)) with false. cbn beta iota. apply run_bind.
  eapply run_mono; [by apply (run_load_from_proto depth proto zs _ out (fun st => st = 1 /\ ~ links_top (dir_ents [] zs)))| |intros st [? ?]; auto].
  intros [] e (Hl & tp & -> & Htp' & Hpaths). apply run_bind, run_get_state. cbn [te_state]. pose proof (dir_ents_nodup _ _ Hzs) as Hnd. set (tzc' := with_proto _ tp).
  assert (Hc : compared tzc' (shipped_ents es) (dir_ents [] zs)).
  { split; [done|done|apply have_paths_shipped|done|apply have_targets_shipped|apply have_targets_dir]. }
  eapply run_use; [by apply run_compare|]. intros r e [Hout ->]. split; [done|]. split; [done|].
  assert (Hvb : tzc_verbose tzc' = verbose) by done. rewrite Hvb in Hout. split; [done|].
  rewrite <-(error_count_sorted _ _ (proj1 Hok) Hnd). pose proof (Zlen_nonneg (filter (fun pp => mismatch (sorted (shipped_ents es)) pp <> []) (sorted (dir_ents [] zs)))).
  pose proof (Zlen_nonneg (filter (fun mp => hardlink_lines (sorted (dir_ents [] zs)) mp <> []) (sorted (shipped_ents es)))).
  unfold error_count in *. case_decide; split; auto; lia.
Qed.
End program.

(** ** A zone directory with two errors *)

Definition zone_lines : list cstr :=
  [cs "d usr/share/lib/zoneinfo/US 0755 root bin" ++ [LF]; cs "f usr/share/lib/zoneinfo/UTC 0444 root bin" ++ [LF];
   cs "h usr/share/lib/zoneinfo/GMT=usr/share/lib/zoneinfo/UTC" ++ [LF]; cs "s usr/share/lib/zoneinfo/Zulu=UTC" ++ [LF];
   cs "h usr/share/lib/zoneinfo/EST=usr/share/lib/zoneinfo/UTC" ++ [LF]; cs "f usr/bin/ls 0755 root bin" ++ [LF]].

Definition sample_zones : list (cstr * zone) :=
  [(cs "UTC", ZFile 5); (cs "GMT", ZFile 5); (cs "Zulu", ZLink (cs "UTC")); (cs "US", ZDir [(cs "Pacific", ZFile 7)])].

Definition in_zones (name : string) : cstr := cs "proto/usr/share/lib/zoneinfo" ++ cs name.

Definition zone_fs : FileSystem := {|
  fs_stat _ := inl ENOENT;
  fs_lstat path :=
    if decide (path = in_zones "/UTC" \/ path = in_zones "/GMT") then inr (33060, 5)
    else if decide (path = in_zones "/Zulu") then inr (41471, 6)
    else if decide (path = in_zones "/US") then inr (16877, 8)
    else if decide (path = in_zones "/US/Pacific") then inr (33060, 7) else inl ENOENT;
  fs_opendir path :=
    if decide (path = in_zones "") then inr ([cs "."; cs ".."; cs "UTC"; cs "GMT"; cs "Zulu"; cs "US"], 0)
    else if decide (path = in_zones "/US") then inr ([cs "."; cs ".."; cs "Pacific"], 0) else inl ENOENT;
  fs_readlink path := if decide (path = in_zones "/Zulu") then inr (cs "UTC") else inl ENOENT; fs_open _ := inl ENOENT;
  fs_manifest _ := inr (Stream (Some 33188) zone_lines 0);
  fs_fopen _ := inl ENOENT
|}.

Definition zone_entries : list manifest_ent := default [] (@manifest_entries LP64 zone_lines).

Definition sample_zone_report : list cstr :=
  [cs "missing from manifest: US/Pacific" ++ [LF]; cs "hardlink mismatch: EST" ++ [LF]; tab_line "manifest: " (cs "UTC");
   tab_line "proto:    check manually" []; LF :: cs "time zone errors found: 2" ++ [LF]].

Lemma plain_name_dec_ok n : bool_decide (n <> [] /\ SLASH ∉ n /\ NUL ∉ n) && negb (dot_name n) = true -> plain_name n.
Proof. intros [(? & ? & ?)%bool_decide_eq_true ?%negb_true_iff]%andb_true_iff. by split_and!. Qed.

Lemma sample_zones_shown : @shows_entries zone_fs (zone_root (cs "proto")) sample_zones.
Proof.
  assert (Hsub : @shows_entries zone_fs (in_zones "/US") [(cs "Pacific", ZFile 7)]).
  { eapply shows_all; [by vm_compute|by vm_compute|by_decide|].
    eapply shows_one; [by apply plain_name_dec_ok; vm_compute| |constructor]. eapply shows_file; by vm_compute. }
  change (zone_root (cs "proto")) with (in_zones ""). eapply shows_all; [by vm_compute|by vm_compute|by_decide|].
  repeat (eapply shows_one; [by apply plain_name_dec_ok; vm_compute| |]); [..|constructor].
  - eapply shows_file; by vm_compute.
  - eapply shows_file; by vm_compute.
  - eapply shows_link; by vm_compute.
  - eapply shows_dir; [by vm_compute|by vm_compute|exact Hsub].
Qed.

Lemma sample_zone_ents : dir_ents [] sample_zones =
  [Tzent ME_TYPE_FILE (Some (cs "UTC")) None 5; Tzent ME_TYPE_FILE (Some (cs "GMT")) None 5;
   Tzent ME_TYPE_SYMLINK (Some (cs "Zulu")) (Some (cs "UTC")) 0; Tzent ME_TYPE_DIRECTORY (Some (cs "US")) None 0;
   Tzent ME_TYPE_FILE (Some (cs "US/Pacific")) None 7].
Proof. done. Qed.

Lemma sample_no_strays : @strays_missing zone_fs (zone_root (cs "proto")) (dir_ents [] sample_zones).
Proof.
  intros d n target Hin. rewrite sample_zone_ents, !elem_of_cons in Hin.
  destruct Hin as [Hin|[Hin|[Hin|[Hin|[Hin|Hin]]]]]; try done; [injection Hin as Hd _|]; [|by apply not_elem_of_nil in Hin].
  exfalso. assert (Hs : SLASH ∈ d ++ SLASH :: n) by (apply elem_of_app; right; by left). rewrite Hd in Hs. revert Hs. by_decide.
Qed.

Lemma tzcheck_reports_witness :
  run (@main (list_avl tzent) LP64 zone_fs (fun _ => []) 3 false (tzcheck_args false (cs "manifest") (cs "proto")))
    (fun r e' => r = 60 /\ te_stdout e' = sample_zone_report) never
    (ToolEnv [] (@Tzcheck (list_avl tzent) None None (avl_create tzent_comparator) (avl_create tzent_comparator) false (Custr 0 0 None 0))).
Proof.
  eapply run_mono.
  - eapply (@tzcheck_reports (list_avl tzent) (list_avl_laws tzent) LP64 zone_fs (fun _ => []) false (cs "manifest") (cs "proto") 3 zone_entries
      sample_zones).
    + by vm_compute.
    + done.
    + by_decide.
    + done.
    + by vm_compute.
    + exists (Stream (Some 33188) zone_lines 0). split_and!; [done|done| |done|by vm_compute]. repeat constructor; by_decide.
    + apply sample_zones_shown.
    + by_decide.
    + repeat constructor; by vm_compute.
    + apply sample_no_strays.
    + by vm_compute.
  - intros r e' (_ & _ & -> & Hr & Hcons). split; [|by vm_compute]. destruct Hr as [-> | ->]; [|done]. exfalso.
    destruct (proj1 Hcons eq_refl) as [Hall _]. destruct (Hall (Tzent ME_TYPE_FILE (Some (cs "US/Pacific")) None 7)) as (mp & Hmp & Hk & _).
    { rewrite sample_zone_ents. by do 4 right; left. }
    apply (list_elem_of_fmap_2 tze_key) in Hmp. rewrite Hk in Hmp. revert Hmp. by_decide.
  - intros st [-> [Hno|Hno]].
    + apply Hno. split; [by_decide|]. repeat constructor; by_decide.
    + apply Hno. repeat constructor; by_decide.
Defined.
