(* ===== verification/Ucodecheck.v ===== *)
(** * Ucodecheck: the check of microcode files, [tools/ucodecheck/ucodecheck.c]

    The microcode files of the proto area must be in the manifest.  A file descriptor of a
    directory is its path ([at_path]).  The nodes of the two AVL trees are the names. *)
From Stdlib Require Import Lia.
From S2P Require Import Prelude Cnum Manifest Avl Strset Tools.

Definition amd_ucodedir : cstr := cs "platform/i86pc/ucode/AuthenticAMD".
Definition amd_ucodedir_fallback : cstr := cs "platform/i86pc/ucode/AuthenticAMD/fallback".
Definition intc_ucodedir : cstr := cs "platform/i86pc/ucode/GenuineIntel".

(** A [ucode_ent_t] is its [uce_name]. *)
Definition ucode_ent_comparator (l r : cstr) : Z :=
  let ret := strcmp l r in if ret <? 0 then -1 else if 0 <? ret then 1 else 0.

Definition EXIT_FAILURE : Z := 1.

(** The options: whether each takes an operand. *)
Definition ucodecheck_opts (c : char) : option bool :=
  if bool_decide (c ∈ cs "fp") then Some true else if bool_decide (c ∈ cs "hv") then Some false else None.

Section ucodecheck.
Context `{AvlTree cstr} `{DM : DataModel} `{FileSystem}.

Record ucodecheck := Ucodecheck {
  ucc_manifest_path : option cstr;
  ucc_proto_path : option cstr;
  ucc_proto_dir : cstr;
  ucc_verbose : bool;
  ucc_manifest_ents : avl_tree;
  ucc_proto_ents : avl_tree;
  ucc_errors : Z
}.

Definition set_paths (ucc : ucodecheck) (manifest proto : option cstr) : ucodecheck :=
  Ucodecheck manifest proto (ucc_proto_dir ucc) (ucc_verbose ucc) (ucc_manifest_ents ucc) (ucc_proto_ents ucc) (ucc_errors ucc).
Definition set_verbose (ucc : ucodecheck) : ucodecheck :=
  Ucodecheck (ucc_manifest_path ucc) (ucc_proto_path ucc) (ucc_proto_dir ucc) true (ucc_manifest_ents ucc) (ucc_proto_ents ucc) (ucc_errors ucc).
Definition set_proto_dir (ucc : ucodecheck) (fd : cstr) : ucodecheck :=
  Ucodecheck (ucc_manifest_path ucc) (ucc_proto_path ucc) fd (ucc_verbose ucc) (ucc_manifest_ents ucc) (ucc_proto_ents ucc) (ucc_errors ucc).
Definition set_ents (ucc : ucodecheck) (manifest proto : avl_tree) : ucodecheck :=
  Ucodecheck (ucc_manifest_path ucc) (ucc_proto_path ucc) (ucc_proto_dir ucc) (ucc_verbose ucc) manifest proto (ucc_errors ucc).
Definition set_errors (ucc : ucodecheck) (n : Z) : ucodecheck :=
  Ucodecheck (ucc_manifest_path ucc) (ucc_proto_path ucc) (ucc_proto_dir ucc) (ucc_verbose ucc) (ucc_manifest_ents ucc) (ucc_proto_ents ucc) n.

Notation M := (C (tool_env ucodecheck)).

(** [malloc] of a [ucode_ent_t]. *)
Definition ucode_ent_alloc : M () := m ← malloc (4 * ptr_bytes); match m with None => c_exit EXIT_FAILURE | Some _ => mret tt end.

Definition ucc_manifest_cb (me : manifest_ent) : M Z :=
  name ← c_access (me_name me);
  if negb (strncmp amd_ucodedir name (Zlen amd_ucodedir) =? 0) &&
     negb (strncmp amd_ucodedir_fallback name (Zlen amd_ucodedir_fallback) =? 0) &&
     negb (strncmp intc_ucodedir name (Zlen intc_ucodedir) =? 0)
  then mret MECB_NEXT else
  match me_type me with
  | ME_TYPE_DIRECTORY => mret MECB_NEXT
  | ME_TYPE_FILE | ME_TYPE_HARDLINK =>
      ucode_ent_alloc ;;
      uce_name ← dup_str name;
      (* when it is NULL, the message of [err] prints it *)
      uce_name ← c_access uce_name;
      ucc ← get_state;
      match avl_find (ucc_manifest_ents ucc) uce_name with
      | Some _ => c_exit EXIT_FAILURE
      | None => put_state (set_ents ucc (avl_insert (ucc_manifest_ents ucc) uce_name) (ucc_proto_ents ucc)) ;; mret MECB_NEXT
      end
  | _ => c_exit EXIT_FAILURE
  end.

(** The loop over the names of a directory, with the number of files found. *)
Fixpoint ucc_read_loop (dirfd dir : cstr) (names : list cstr) (nfound : Z) : M Z :=
  match names with
  | [] => mret nfound
  | d_name :: names =>
      if dot_name d_name then ucc_read_loop dirfd dir names nfound else
      if bool_decide (dir = amd_ucodedir) && (strcmp d_name (cs "fallback") =? 0) then ucc_read_loop dirfd dir names nfound else
      match fs_lstat (at_path dirfd d_name) with
      | inl e => set_errno e ;; c_exit EXIT_FAILURE
      | inr (st_mode, _) =>
          if negb (mode_is S_IFREG st_mode) then c_exit EXIT_FAILURE else
          ucode_ent_alloc ;;
          (* [asprintf]; when it fails, the message of [err] prints what [uce_name] points to *)
          m ← malloc (Zlen dir + 1 + Zlen d_name + 1);
          _ ← c_access m;
          let uce_name := dir ++ cs "/" ++ d_name in
          ucc ← get_state;
          match avl_find (ucc_proto_ents ucc) uce_name with
          | Some _ => c_exit EXIT_FAILURE
          | None =>
              put_state (set_ents ucc (ucc_manifest_ents ucc) (avl_insert (ucc_proto_ents ucc) uce_name)) ;;
              ucc_read_loop dirfd dir names (u32 (nfound + 1))
          end
      end
  end.

(** [dir] is one of the three directories: comparing the pointers is comparing the strings.  Only a
    failure of [openat] is forgiven, and only for the fallback; what is there must be a directory.
    When no file is found, the message of [errx] prints the name in the NULL that [readdir] ended
    with. *)
Definition ucc_read_proto (dir : cstr) : M () :=
  ucc ← get_state;
  let dirfd := at_path (ucc_proto_dir ucc) dir in
  match fs_open dirfd with
  | inl e =>
      set_errno e ;;
      if bool_decide (dir = amd_ucodedir_fallback) then eprint (cs "  (AMD fallback directory not in proto.)  ")
      else c_exit EXIT_FAILURE
  | inr _ =>
      match fs_opendir dirfd with
      | inl e => set_errno e ;; c_exit EXIT_FAILURE
      | inr (names, _) =>
          nfound ← ucc_read_loop dirfd dir names 0;
          if nfound =? 0 then c_undefined else
          ucc ← get_state;
          if ucc_verbose ucc then print_out (cs "found " ++ print_base 10 nfound ++ cs " entries in " ++ dir ++ [LF]) else mret tt
      end
  end.

Fixpoint check_proto_loop (fuel : nat) (ent : option cstr) : M () :=
  match ent, fuel with
  | None, _ => mret tt
  | Some _, O => c_undefined
  | Some uce_name, S fuel =>
      ucc ← get_state;
      match avl_find (ucc_manifest_ents ucc) uce_name with
      | None =>
          eprint (cs "missing from manifest: " ++ uce_name ++ [LF]) ;;
          put_state (set_errors ucc (u32 (ucc_errors ucc + 1)))
      | Some _ => if ucc_verbose ucc then print_out (uce_name ++ cs " OK" ++ [LF]) else mret tt
      end ;;
      check_proto_loop fuel (avl_next (ucc_proto_ents ucc) uce_name)
  end.

Definition ucc_check_proto : M () :=
  ucc ← get_state;
  check_proto_loop (Z.to_nat (avl_numnodes (ucc_proto_ents ucc))) (avl_first (ucc_proto_ents ucc)).

(** The loop over the options: the status [main] returns, or the state to go on with.  The usage
    that is printed is not kept. *)
Fixpoint option_loop (opts : list getopt_result) (ucc : ucodecheck) : M (Z + ucodecheck) :=
  match opts with
  | [] => mret (inr ucc)
  | OptMissing _ :: _ | OptUnknown _ :: _ => mret (inl 2)
  | OptChar c optarg :: opts =>
      if Ascii.eqb c "f"%char then
        optarg ← c_access optarg;
        path ← dup_str optarg;
        match path with None => c_exit EXIT_FAILURE | _ => option_loop opts (set_paths ucc path (ucc_proto_path ucc)) end
      else if Ascii.eqb c "p"%char then
        optarg ← c_access optarg;
        path ← dup_str optarg;
        match path with None => c_exit EXIT_FAILURE | _ => option_loop opts (set_paths ucc (ucc_manifest_path ucc) path) end
      else if Ascii.eqb c "h"%char then mret (inl 2)
      else if Ascii.eqb c "v"%char then option_loop opts (set_verbose ucc)
      else option_loop opts ucc
  end.

Definition main (argv : list cstr) : M Z :=
  r ← option_loop (getopts ucodecheck_opts argv)
    (Ucodecheck None None [] false (avl_create ucode_ent_comparator) (avl_create ucode_ent_comparator) 0);
  match r with
  | inl status => mret status
  | inr ucc =>
      match ucc_manifest_path ucc, ucc_proto_path ucc with
      | None, _ | _, None => mret 2
      | Some manifest, Some proto =>
          match fs_open proto with
          | inl e => set_errno e ;; c_exit EXIT_FAILURE
          | inr _ =>
              put_state (set_proto_dir ucc proto) ;;
              r ← read_manifest_file manifest (fs_manifest manifest) ucc_manifest_cb;
              if negb (r =? 0) then c_exit EXIT_FAILURE else
              ucc_read_proto amd_ucodedir ;;
              ucc_read_proto amd_ucodedir_fallback ;;
              ucc_read_proto intc_ucodedir ;;
              ucc_check_proto ;;
              ucc ← get_state;
              if 0 <? ucc_errors ucc then c_exit EXIT_FAILURE else mret 0
          end
      end
  end.
End ucodecheck.
