(* ===== verification/UcodecheckSpec.v ===== *)
(** * UcodecheckSpec: what ucodecheck requires of a manifest

    The microcode files of the proto area are those of three directories, one of which, the
    fallback, may be missing, but must be a directory when it is there.  The program succeeds exactly when each of them is in the manifest. *)
From Stdlib Require Import Lia.
From S2P Require Import Prelude Cnum Custr Manifest Avl Strset Tools Run TzcheckSpec Ucodecheck.

(** The files and hard links the manifest ships in the microcode directories. *)
Definition in_ucode (name : cstr) : bool := bool_decide (amd_ucodedir `prefix_of` name) || bool_decide (intc_ucodedir `prefix_of` name).
Definition ucode_file (me : manifest_ent) : option cstr :=
  name ← me_name me;
  match me_type me with ME_TYPE_FILE | ME_TYPE_HARDLINK => if in_ucode name then Some name else None | _ => None end.
Definition ucode_files (es : list manifest_ent) : list cstr := omap ucode_file es.

(** An entry of another type there. *)
Definition odd_entry (me : manifest_ent) : Prop :=
  exists name, me_name me = Some name /\ in_ucode name = true /\ me_type me = ME_TYPE_SYMLINK.
Definition ucode_manifest_ok (es : list manifest_ent) : Prop := NoDup (ucode_files es) /\ Forall (fun me => ~ odd_entry me) es.

(** The names that count in a directory. *)
Definition skipped (dir n : cstr) : bool := dot_name n || bool_decide (dir = amd_ucodedir /\ n = cs "fallback").

Definition dir_files (dir : cstr) (names : list cstr) : list cstr := (fun n => dir ++ SLASH :: n) <$> names.
Definition found_line (dir : cstr) (names : list cstr) : cstr :=
  cs "found " ++ print_base 10 (Zlen names) ++ cs " entries in " ++ dir ++ [LF].

Section listing.
Context `{FileSystem} (root : cstr).

(** A directory of regular files. *)
Record lists (dir : cstr) (names : list cstr) : Prop := Lists {
  ls_open : fs_open (root ++ SLASH :: dir) = inr tt;
  ls_names : exists all last, fs_opendir (root ++ SLASH :: dir) = inr (all, last) /\ names = filter (fun n => skipped dir n = false) all;
  ls_nodup : NoDup names;
  ls_plain : Forall plain_name names;
  ls_files : Forall (fun n => exists mode ino, fs_lstat (root ++ SLASH :: dir ++ SLASH :: n) = inr (mode, ino) /\ mode_is S_IFREG mode = true) names;
  ls_sizes : Forall (fun n => Zlen n <= PATHS_MAX) names /\ 0 < Zlen names <= PATHS_MAX
}.

(** The fallback: a directory, nothing, or something that can be opened but is no directory. *)
Inductive fallback_area := FallbackFiles (names : list cstr) | FallbackMissing | FallbackUnreadable.

Definition fallback_names (f : fallback_area) : option (list cstr) :=
  match f with FallbackFiles names => Some names | _ => None end.

Definition fallback_is (f : fallback_area) : Prop :=
  let path := root ++ SLASH :: amd_ucodedir_fallback in
  match f with
  | FallbackFiles names => lists amd_ucodedir_fallback names
  | FallbackMissing => exists er, fs_open path = inl er
  | FallbackUnreadable => fs_open path = inr tt /\ exists er, fs_opendir path = inl er
  end.
End listing.

Definition proto_files (amd : list cstr) (fallback : option (list cstr)) (intc : list cstr) : list cstr :=
  dir_files amd_ucodedir amd ++ from_option (dir_files amd_ucodedir_fallback) [] fallback ++ dir_files intc_ucodedir intc.

Definition found_lines (amd : list cstr) (fallback : option (list cstr)) (intc : list cstr) : list cstr :=
  [found_line amd_ucodedir amd] ++ from_option (fun ns => [found_line amd_ucodedir_fallback ns]) [] fallback ++ [found_line intc_ucodedir intc].

Notation ucode_sorted := (sorted_of ucode_ent_comparator).

Definition ucode_report (verbose : bool) (amd : list cstr) (fallback : option (list cstr)) (intc : list cstr) : list cstr :=
  if verbose then found_lines amd fallback intc ++ ((fun n => n ++ cs " OK" ++ [LF]) <$> ucode_sorted (proto_files amd fallback intc)) else [].

Lemma ucode_ent_comparator_sgn l r : ucode_ent_comparator l r = Z.sgn (strcmp l r).
Proof. unfold ucode_ent_comparator. destruct (Z.ltb_spec (strcmp l r) 0), (Z.ltb_spec 0 (strcmp l r)); lia. Qed.

Section ucode_facts.
Context `{AvlTree cstr, !AvlLaws cstr} `{DM : DataModel} `{FileSystem}.
Implicit Types (ucc : ucodecheck) (out ts : list cstr).

Notation tree := (tree_seq ucode_ent_comparator).

Lemma tree_find (t : avl_tree) ts s : tree t (ucode_sorted ts) -> avl_find t s = if decide (s ∈ ts) then Some s else None.
Proof.
  intros Ht. rewrite (tree_seq_find (fun s => s) ucode_ent_comparator ucode_ent_comparator_sgn t _ s Ht).
  destruct (find_key (fun s => s) s (ucode_sorted ts)) as [x|] eqn:Hf.
  - unfold find_key in Hf. apply head_Some_elem_of, list_elem_of_filter in Hf as [-> Hin].
    rewrite (sorted_of_perm ucode_ent_comparator) in Hin. by rewrite decide_True.
  - apply find_key_none in Hf. rewrite list_fmap_id, (sorted_of_perm ucode_ent_comparator) in Hf. by rewrite decide_False.
Qed.

Lemma tree_insert (t : avl_tree) ts s : tree t (ucode_sorted ts) -> s ∉ ts -> tree (avl_insert t s) (ucode_sorted (ts ++ [s])).
Proof.
  intros Ht Hs. rewrite sorted_of_snoc. apply (tree_seq_insert (fun s => s) ucode_ent_comparator ucode_ent_comparator_sgn); [done|].
  apply find_key_none. by rewrite list_fmap_id, (sorted_of_perm ucode_ent_comparator).
Qed.

Definition with_manifest_ents ucc t : ucodecheck := set_ents ucc t (ucc_proto_ents ucc).
Definition with_proto_ents ucc t : ucodecheck := set_ents ucc (ucc_manifest_ents ucc) t.

Lemma run_ent_alloc (Q : () -> tool_env ucodecheck -> Prop) X e : Q tt e -> run ucode_ent_alloc Q X e.
Proof.
  intros HQ. unfold ucode_ent_alloc. apply run_bind, run_malloc; [unfold HEAP_HI; destruct ptr_bytes_ok as [-> | ->]; lia|].
  intros a. by apply run_ret.
Qed.

Lemma ucode_files_snoc es me : ucode_files (es ++ [me]) = ucode_files es ++ option_list (ucode_file me).
Proof. unfold ucode_files. by rewrite omap_app. Qed.

Lemma ucode_manifest_ok_snoc es me :
  ucode_manifest_ok (es ++ [me]) <-> NoDup (ucode_files es ++ option_list (ucode_file me)) /\ Forall (fun me => ~ odd_entry me) es /\ ~ odd_entry me.
Proof. unfold ucode_manifest_ok. by rewrite ucode_files_snoc, Forall_app, Forall_singleton. Qed.

Lemma run_manifest_cb es me ucc t out (Q : Z -> tool_env ucodecheck -> Prop) (X : Z -> Prop) :
  entry_wf me -> tree t (ucode_sorted (ucode_files es)) -> ucode_manifest_ok es ->
  (forall t', tree t' (ucode_sorted (ucode_files (es ++ [me]))) -> ucode_manifest_ok (es ++ [me]) ->
     Q MECB_NEXT (ToolEnv out (with_manifest_ents ucc t'))) ->
  (~ ucode_manifest_ok (es ++ [me]) -> X 1) ->
  run (ucc_manifest_cb me) Q X (ToolEnv out (with_manifest_ents ucc t)).
Proof.
  intros ((name & Hname & Hshort) & Hinv & _) Ht [Hnd Hall] HQ HX. rewrite ucode_manifest_ok_snoc in HX. unfold ucc_manifest_cb.
  setoid_rewrite ucode_manifest_ok_snoc in HQ. rewrite ucode_files_snoc in HQ. run_steps. eapply run_access; [exact Hname|].
  rewrite !(strncmp_swap _ name), !strncmp_prefix.
  assert (Hcond : negb (bool_decide (amd_ucodedir `prefix_of` name)) && negb (bool_decide (amd_ucodedir_fallback `prefix_of` name)) &&
    negb (bool_decide (intc_ucodedir `prefix_of` name)) = negb (in_ucode name)).
  { unfold in_ucode. repeat case_bool_decide; try done. exfalso. apply H1. etrans; [|exact H2]. by exists (cs "/fallback"). }
  rewrite Hcond. clear Hcond.
  assert (Hskip : ucode_file me = None -> ~ odd_entry me -> Q MECB_NEXT (ToolEnv out (with_manifest_ents ucc t))).
  { intros Hf Ho. rewrite Hf, app_nil_r in HQ. by apply HQ. }
  assert (Hfile : ucode_file me = match me_type me with ME_TYPE_FILE | ME_TYPE_HARDLINK => if in_ucode name then Some name else None | _ => None end)
    by (unfold ucode_file; by rewrite Hname).
  assert (Hodd : odd_entry me <-> in_ucode name = true /\ me_type me = ME_TYPE_SYMLINK).
  { unfold odd_entry. rewrite Hname. split; [by intros (? & [= <-] & ?)|]. intros ?. by exists name. }
  destruct (in_ucode name); cbn [negb].
  2:{ run_steps. apply Hskip; [by rewrite Hfile; destruct (me_type me)|rewrite Hodd; by intros [? _]]. }
  assert (Hadd : ucode_file me = Some name -> ~ odd_entry me ->
    run (ucode_ent_alloc ;; uce_name ← dup_str name; uce_name ← c_access uce_name; ucc ← get_state;
      match avl_find (ucc_manifest_ents ucc) uce_name with
      | Some _ => c_exit EXIT_FAILURE
      | None => put_state (set_ents ucc (avl_insert (ucc_manifest_ents ucc) uce_name) (ucc_proto_ents ucc)) ;; mret MECB_NEXT
      end) Q X (ToolEnv out (with_manifest_ents ucc t))).
  { intros Hf Ho. rewrite Hf in HQ, HX. change (option_list (Some name)) with [name] in HQ, HX. rewrite list.NoDup_app in HX. setoid_rewrite list.NoDup_app in HQ.
    apply run_bind, run_ent_alloc, run_bind, run_dup_str; [destruct Hshort; unfold str_ok, HEAP_HI; lia|]. apply run_bind.
    eapply run_access; [done|]. apply run_bind, run_get_state. cbn [te_state with_manifest_ents set_ents ucc_manifest_ents].
    rewrite (tree_find t _ name Ht). case_decide as Hin.
    - apply run_exit, HX. intros ((_ & Hd & _) & _). apply (Hd name Hin). by left.
    - run_steps. apply HQ; [by apply tree_insert|]. split_and!; [done| |apply NoDup_singleton|done|done]. by intros x Hx ->%list_elem_of_singleton. }
  destruct (me_type me) eqn:Hty; [done| |by apply Hadd; [|rewrite Hodd; by intros [_ ?]]|by apply Hadd; [|rewrite Hodd; by intros [_ ?]]|].
  - run_steps. apply Hskip; [done|rewrite Hodd; by intros [_ ?]].
  - apply run_exit, HX. intros (_ & _ & Hno). by apply Hno, Hodd.
Qed.

Lemma run_read_ucode path es ucc out (X : Z -> Prop) :
  manifest_has (fs_manifest path) es -> tree (ucc_manifest_ents ucc) [] ->
  (forall st, st = 1 /\ ~ ucode_manifest_ok es -> X st) ->
  run (read_manifest_file path (fs_manifest path) ucc_manifest_cb)
    (fun r e' => r = 0 /\ ucode_manifest_ok es /\ exists t, tree t (ucode_sorted (ucode_files es)) /\ e' = ToolEnv out (with_manifest_ents ucc t))
    X (ToolEnv out ucc).
Proof.
  intros Hman Ht HX. pose proof Hman as (mf & _ & _ & Hshort & _ & Hes). pose proof (manifest_wf _ _ Hshort Hes) as Hwf.
  apply (run_read_manifest path _ ucc_manifest_cb (fun pre e' => ucode_manifest_ok pre /\
    exists t, tree t (ucode_sorted (ucode_files pre)) /\ e' = ToolEnv out (with_manifest_ents ucc t))); [done| |].
  - split; [by repeat constructor|]. exists (ucc_manifest_ents ucc). split; [done|]. by destruct ucc.
  - intros pre me post e' -> (Hok & t & Hs & ->). apply Forall_app in Hwf as [_ [Hme _]%Forall_cons_1].
    eapply run_manifest_cb; [done|done|done| |].
    + intros t' Ht' Hok'. split; [done|]. split; [done|]. by exists t'.
    + intros Hno. apply HX. split; [done|]. intros [Hnd Hall]. apply Hno. change (me :: post) with ([me] ++ post) in Hnd, Hall.
      rewrite app_assoc in Hnd, Hall. unfold ucode_files in Hnd. rewrite omap_app in Hnd. apply list.NoDup_app in Hnd as [Hnd _].
      by apply Forall_app in Hall as [Hall _].
Qed.

(** ** The proto area *)

Lemma proto_files_nodup root amd fallback intc :
  lists root amd_ucodedir amd -> fallback_is root fallback -> lists root intc_ucodedir intc ->
  NoDup (proto_files amd (fallback_names fallback) intc).
Proof.
  intros Ha Hf Hi. assert (Hdir : forall dir ns, NoDup ns -> NoDup (dir_files dir ns)).
  { intros dir ns Hns. apply NoDup_fmap_2; [|done]. intros n m Hnm. apply app_inv_head in Hnm. by injection Hnm. }
  unfold proto_files. apply list.NoDup_app. split_and!; [by eapply Hdir, ls_nodup| |].
  - intros s (n & -> & Hn)%list_elem_of_fmap [Hin|Hin]%elem_of_app.
    + destruct fallback as [fs| |]; [|by apply not_elem_of_nil in Hin..]. apply list_elem_of_fmap in Hin as (m & Heq & _).
      change (amd_ucodedir_fallback ++ SLASH :: m) with (amd_ucodedir ++ SLASH :: cs "fallback" ++ SLASH :: m) in Heq.
      apply app_inv_head in Heq. injection Heq as ->. pose proof (proj1 (list.Forall_forall _ _) (ls_plain _ _ _ Ha) _ Hn) as (_ & Hs & _).
      apply Hs. by do 8 right; left.
    + apply list_elem_of_fmap in Hin as (m & Heq & _). discriminate Heq.
  - apply list.NoDup_app. split_and!; [destruct fallback; [by eapply Hdir, ls_nodup|constructor|constructor]| |by eapply Hdir, ls_nodup].
    intros s Hs (m & -> & _)%list_elem_of_fmap. destruct fallback as [fs| |]; [|by apply not_elem_of_nil in Hs..].
    apply list_elem_of_fmap in Hs as (n & Heq & _). discriminate Heq.
Qed.

Lemma skipped_test dir n : dot_name n = false ->
  bool_decide (dir = amd_ucodedir) && (strcmp n (cs "fallback") =? 0) = skipped dir n.
Proof.
  intros Hd. unfold skipped. rewrite Hd. cbn [orb].
  destruct (Z.eqb_spec (strcmp n (cs "fallback")) 0) as [He|He]; rewrite strcmp_eq in He; repeat case_bool_decide; naive_solver.
Qed.

Lemma run_ucode_loop root dir all names ts nfound ucc t out X :
  filter (fun n => skipped dir n = false) all = names -> Forall plain_name names ->
  Forall (fun n => exists mode ino, fs_lstat (root ++ SLASH :: dir ++ SLASH :: n) = inr (mode, ino) /\ mode_is S_IFREG mode = true) names ->
  Forall (fun n => Zlen n <= PATHS_MAX) names -> Zlen dir <= PATHS_MAX -> 0 <= nfound -> nfound + Zlen names <= UINT_MAX ->
  tree t (ucode_sorted ts) -> NoDup (ts ++ dir_files dir names) ->
  run (ucc_read_loop (root ++ SLASH :: dir) dir all nfound)
    (fun r e' => r = nfound + Zlen names /\ exists t', e' = ToolEnv out (with_proto_ents ucc t') /\ tree t' (ucode_sorted (ts ++ dir_files dir names)))
    X (ToolEnv out (with_proto_ents ucc t)).
Proof.
  revert names ts nfound t. induction all as [|n all IH]; intros names ts nfound t Hall Hplain Hfiles Hsizes Hdir Hn Hmax Ht Hnd; cbn [ucc_read_loop].
  { subst names. apply run_ret. split; [zlen|]. exists t. split; [done|]. unfold dir_files. cbn. by rewrite app_nil_r. }
  rewrite filter_cons in Hall. destruct (dot_name n) eqn:Hd.
  { rewrite decide_False in Hall by (unfold skipped; by rewrite Hd). by apply IH. }
  rewrite skipped_test by done. destruct (skipped dir n); [rewrite decide_False in Hall by done; by apply IH|].
  rewrite decide_True in Hall by done. subst names. apply Forall_cons_1 in Hplain as [Hpn Hplain], Hsizes as [Hsz Hsizes].
  apply Forall_cons_1 in Hfiles as [(mode & ino & Hst & Hreg) Hfiles]. rewrite at_path_plain, <-app_assoc by done. cbn [app].
  rewrite Hst, Hreg. cbn [negb]. set (rest := filter _ all) in *. rewrite Zlen_cons in *. pose proof (Zlen_nonneg rest).
  apply run_bind, run_ent_alloc, run_bind, run_malloc; [pose proof (Zlen_nonneg n); pose proof (Zlen_nonneg dir); unfold PATHS_MAX, HEAP_HI in *; lia|].
  intros a. apply run_bind. eapply run_access; [done|]. cbn zeta. change (dir ++ cs "/" ++ n) with (dir ++ SLASH :: n). apply run_bind, run_get_state.
  cbn [te_state with_proto_ents set_ents ucc_proto_ents ucc_manifest_ents].
  change (dir_files dir (n :: rest)) with ([dir ++ SLASH :: n] ++ dir_files dir rest) in *. rewrite app_assoc in *.
  rewrite (tree_find t ts _ Ht), decide_False.
  2:{ apply list.NoDup_app in Hnd as [(_ & Hno & _)%list.NoDup_app _]. intros Hin. apply (Hno _ Hin). by left. }
  run_steps. rewrite u32_small by lia. unfold UINT_MAX in Hmax.
  eapply run_mono; [apply (IH rest (ts ++ [dir ++ SLASH :: n])); try done; [lia|unfold UINT_MAX; lia|]| |done].
  - apply tree_insert; [done|]. apply list.NoDup_app in Hnd as [(_ & Hno & _)%list.NoDup_app _]. intros Hin. apply (Hno _ Hin). by left.
  - intros r e' (-> & t' & -> & Ht'). split; [lia|]. by exists t'.
Qed.

Definition ucode_dirs : list cstr := [amd_ucodedir; amd_ucodedir_fallback; intc_ucodedir].

Lemma ucode_dir_path root dir : dir ∈ ucode_dirs -> at_path root dir = root ++ SLASH :: dir /\ Zlen dir <= PATHS_MAX.
Proof.
  unfold ucode_dirs. rewrite !elem_of_cons. intros [->|[->|[->|Hno]]]; [split; [done|by vm_compute]..|by apply not_elem_of_nil in Hno].
Qed.

Lemma run_read_proto root dir names ts ucc t out X :
  dir ∈ ucode_dirs -> lists root dir names -> ucc_proto_dir ucc = root -> tree t (ucode_sorted ts) -> NoDup (ts ++ dir_files dir names) ->
  run (ucc_read_proto dir)
    (fun _ e' => exists t', e' = ToolEnv (out ++ if ucc_verbose ucc then [found_line dir names] else []) (with_proto_ents ucc t') /\
       tree t' (ucode_sorted (ts ++ dir_files dir names))) X (ToolEnv out (with_proto_ents ucc t)).
Proof.
  intros Hdir [Hopen (all & last & Ho & Hnames) _ Hplain Hfiles (Hsz & Hlen)] Hroot Ht Hnd. destruct (ucode_dir_path root dir Hdir) as [Hat Hdl].
  unfold ucc_read_proto. run_steps. change (ucc_proto_dir (with_proto_ents ucc t)) with (ucc_proto_dir ucc). rewrite Hroot, Hat, Hopen, Ho. apply run_bind.
  eapply run_use; [eapply (run_ucode_loop root dir all names ts 0); try done|].
  { unfold PATHS_MAX, UINT_MAX in *. lia. }
  intros r e' (-> & t' & -> & Ht'). rewrite Z.add_0_l. assert (Zlen names =? 0 = false) as -> by lia. run_steps.
  change (ucc_verbose (with_proto_ents ucc t')) with (ucc_verbose ucc). destruct (ucc_verbose ucc); run_steps; exists t'; [done|by rewrite app_nil_r].
Qed.

(** The three directories. *)
Lemma run_read_all {A} root amd fallback intc ucc t out (k : C (tool_env ucodecheck) A) Q X :
  lists root amd_ucodedir amd -> fallback_is root fallback -> lists root intc_ucodedir intc ->
  ucc_proto_dir ucc = root -> tree t (ucode_sorted []) -> (fallback = FallbackUnreadable -> X 1) ->
  (forall t', fallback <> FallbackUnreadable -> tree t' (ucode_sorted (proto_files amd (fallback_names fallback) intc)) ->
     run k Q X (ToolEnv (out ++ if ucc_verbose ucc then found_lines amd (fallback_names fallback) intc else []) (with_proto_ents ucc t'))) ->
  run (ucc_read_proto amd_ucodedir ;; ucc_read_proto amd_ucodedir_fallback ;; ucc_read_proto intc_ucodedir ;; k) Q X
    (ToolEnv out (with_proto_ents ucc t)).
Proof.
  intros Ha Hf Hi Hroot Ht HX Hk. pose proof (proto_files_nodup _ _ _ _ Ha Hf Hi) as Hnd. unfold proto_files in *.
  apply run_bind. eapply run_use; [eapply (run_read_proto root _ amd []); [by left|done|done|done|]|].
  { by apply list.NoDup_app in Hnd as [? _]. }
  intros [] e' (t1 & -> & Ht1). cbn [app] in Ht1. apply run_bind. rewrite app_assoc in Hnd, Hk.
  eapply (run_mono _ (fun _ e' => fallback <> FallbackUnreadable /\ exists t2, e' = ToolEnv ((out ++ if ucc_verbose ucc then [found_line amd_ucodedir amd] else []) ++
      if ucc_verbose ucc then from_option (fun ns => [found_line amd_ucodedir_fallback ns]) [] (fallback_names fallback) else []) (with_proto_ents ucc t2) /\
    tree t2 (ucode_sorted (dir_files amd_ucodedir amd ++ from_option (dir_files amd_ucodedir_fallback) [] (fallback_names fallback)))) _ X X).
  { pose proof (proj1 (ucode_dir_path root amd_ucodedir_fallback ltac:(by right; left))) as Hpath.
    destruct fallback as [fs| |]; cbn [from_option fallback_is fallback_names] in *.
    - eapply run_use; [eapply (run_read_proto root _ fs); [by right; left|done|done|exact Ht1|by apply list.NoDup_app in Hnd as [? _]]|].
      intros [] e' (t2 & -> & Ht2). split; [done|]. by exists t2.
    - destruct Hf as [er Hf]. unfold ucc_read_proto. run_steps. change (ucc_proto_dir (with_proto_ents ucc t1)) with (ucc_proto_dir ucc).
      rewrite Hroot, Hpath, Hf. run_steps. rewrite bool_decide_eq_true_2 by done. run_steps.
      split; [done|]. exists t1. rewrite app_nil_r in *. split; [|done]. by destruct (ucc_verbose ucc); rewrite ?app_nil_r.
    - destruct Hf as (Ho & er & Hf). unfold ucc_read_proto. run_steps. change (ucc_proto_dir (with_proto_ents ucc t1)) with (ucc_proto_dir ucc).
      rewrite Hroot, Hpath, Ho, Hf. run_steps. by apply run_exit, HX. }
  2: by intros st Hst; exact Hst.
  intros [] e' (Hread & t2 & -> & Ht2). apply run_bind.
  eapply run_use; [eapply (run_read_proto root _ intc); [by right; right; left|done|done|exact Ht2|done]|].
  intros [] e' (t3 & -> & Ht3). specialize (Hk t3 Hread Ht3). revert Hk. rewrite <-!app_assoc. unfold found_lines.
  by destruct (ucc_verbose ucc), fallback.
Qed.

(** ** The comparison *)

Definition missing_files (files ts : list cstr) : list cstr := filter (fun s => s ∉ files) ts.

Lemma run_check_proto_loop fuel ucc files ts pre post out X :
  tree (ucc_manifest_ents ucc) (ucode_sorted files) -> tree (ucc_proto_ents ucc) (ucode_sorted ts) ->
  ucode_sorted ts = pre ++ post -> (length post <= fuel)%nat -> 0 <= ucc_errors ucc -> ucc_errors ucc + Zlen post <= UINT_MAX ->
  run (check_proto_loop fuel (head post))
    (fun _ e' => ucc_errors (te_state e') = ucc_errors ucc + Zlen (missing_files files post) /\
       te_stdout e' = out ++ (if ucc_verbose ucc then (fun n => n ++ cs " OK" ++ [LF]) <$> filter (fun s => s ∈ files) post else []))
    X (ToolEnv out ucc).
Proof.
  revert ucc pre post out. induction fuel as [|fuel IH]; intros ucc pre post out Hm Hp Hs Hf He Hmax;
    (destruct post as [|s post]; cbn [head check_proto_loop]; [apply run_ret; cbn; split; [zlen|destruct (ucc_verbose ucc); by rewrite app_nil_r]|]);
    [cbn in Hf; lia|].
  run_steps. rewrite (tree_find _ _ s Hm). rewrite Zlen_cons in Hmax. pose proof (Zlen_nonneg post). unfold missing_files. rewrite !filter_cons.
  assert (Hnext : avl_next (ucc_proto_ents ucc) s = head post).
  { rewrite Hs in Hp. by apply (tree_seq_next (fun s => s) ucode_ent_comparator ucode_ent_comparator_sgn _ pre). }
  rewrite Hnext. assert (Hs' : ucode_sorted ts = (pre ++ [s]) ++ post) by by rewrite <-app_assoc. cbn in Hf.
  destruct (decide (s ∈ files)) as [Hin|Hin].
  - rewrite (decide_False (P := s ∉ files)) by auto.
    eapply (run_use _ (fun _ e' => e' = ToolEnv (out ++ if ucc_verbose ucc then [s ++ cs " OK" ++ [LF]] else []) ucc)).
    { destruct (ucc_verbose ucc); run_steps; [done|by rewrite app_nil_r]. }
    intros [] e' ->. eapply run_mono; [apply (IH _ (pre ++ [s]) post); try done; lia| |done].
    intros [] e' [Her Hout]. split; [done|]. rewrite Hout. destruct (ucc_verbose ucc); [|by rewrite app_nil_r]. by rewrite <-app_assoc.
  - rewrite (decide_True (P := s ∉ files)) by done. run_steps. rewrite u32_small by lia.
    eapply run_mono; [apply (IH (set_errors ucc (ucc_errors ucc + 1)) (pre ++ [s]) post); try done; cbn; lia| |done].
    intros [] e' [Her Hout]. cbn [set_errors ucc_errors ucc_verbose] in *. split; [|done]. rewrite Her, Zlen_cons. unfold missing_files. lia.
Qed.
End ucode_facts.

(** ** The program *)

Section ucode_program.
Context `{AvlTree cstr, !AvlLaws cstr} `{DM : DataModel} `{FileSystem}.
Implicit Types (ucc : ucodecheck) (out : list cstr).

Notation tree := (tree_seq ucode_ent_comparator).

Definition ucodecheck_args (verbose : bool) (manifest proto : cstr) : list cstr :=
  (if verbose then [cs "-v"] else []) ++ [cs "-f"; manifest; cs "-p"; proto].

Lemma run_ucode_options (verbose : bool) (manifest proto : cstr) ucc0 (Q : Z + ucodecheck -> tool_env ucodecheck -> Prop) X e :
  str_ok manifest -> str_ok proto ->
  Q (inr (set_paths (if verbose then set_verbose ucc0 else ucc0) (Some manifest) (Some proto))) e ->
  run (option_loop (getopts ucodecheck_opts (ucodecheck_args verbose manifest proto)) ucc0) Q X e.
Proof.
  intros Hm Hp HQ.
  assert (Hopts : getopts ucodecheck_opts (ucodecheck_args verbose manifest proto) =
    (if verbose then [OptChar "v" None] else []) ++ [OptChar "f" (Some manifest); OptChar "p" (Some proto)]) by by destruct verbose.
  rewrite Hopts.
  assert (Hend : forall ucc, Q (inr (set_paths ucc (Some manifest) (Some proto))) e ->
    run (option_loop [OptChar "f" (Some manifest); OptChar "p" (Some proto)] ucc) Q X e).
  { intros ucc HQ'. cbn [option_loop]. change (Ascii.eqb "f" "f") with true. change (Ascii.eqb "p" "f") with false.
    change (Ascii.eqb "p" "p") with true. cbn beta iota. apply run_bind. eapply run_access; [done|]. apply run_bind, run_dup_str; [done|].
    apply run_bind. eapply run_access; [done|]. apply run_bind, run_dup_str; [done|]. by apply run_ret. }
  destruct verbose; [|by apply Hend]. cbn [app option_loop]. change (Ascii.eqb "v" "f") with false. change (Ascii.eqb "v" "p") with false.
  change (Ascii.eqb "v" "h") with false. change (Ascii.eqb "v" "v") with true. cbn beta iota. by apply Hend.
Qed.

Lemma missing_none files ts : missing_files files ts = [] <-> forall s, s ∈ ts -> s ∈ files.
Proof.
  unfold missing_files. split.
  - intros Hnone s Hs. destruct (decide (s ∈ files)) as [|Hno]; [done|]. assert (Hin : s ∈ filter (fun s => s ∉ files) ts) by by apply list_elem_of_filter.
    rewrite Hnone in Hin. by apply not_elem_of_nil in Hin.
  - intros Hall. apply filter_none, list.Forall_forall. auto.
Qed.

(** C24: ucodecheck with a manifest and a proto area ends.  It returns 0, and with [-v] prints the
    number of files of each directory and the names of all files in order, if each microcode file
    of the proto area is in the manifest; it exits with status 1 if one is not, the manifest has a
    file twice or a symbolic link in the microcode directories, or the fallback is there and is no
    directory; a fallback that is not there is no error. *)
Theorem ucodecheck_requires (verbose : bool) (manifest proto : cstr) (es : list manifest_ent)
    (amd : list cstr) (fallback : fallback_area) (intc : list cstr) (e : tool_env ucodecheck) :
  str_ok manifest -> str_ok proto -> fs_open proto = inr tt -> manifest_has (fs_manifest manifest) es ->
  lists proto amd_ucodedir amd -> fallback_is proto fallback -> lists proto intc_ucodedir intc ->
  let files := proto_files amd (fallback_names fallback) intc in
  run (main (ucodecheck_args verbose manifest proto))
    (fun r e' => r = 0 /\ ucode_manifest_ok es /\ fallback <> FallbackUnreadable /\ (forall s, s ∈ files -> s ∈ ucode_files es) /\
       te_stdout e' = te_stdout e ++ ucode_report verbose amd (fallback_names fallback) intc)
    (fun st => st = 1 /\ (~ ucode_manifest_ok es \/ fallback = FallbackUnreadable \/ exists s, s ∈ files /\ s ∉ ucode_files es)) e.
Proof.
  intros Hm Hp Hopen Hman Ha Hf Hi files. destruct e as [out ucc0]. cbn [te_stdout]. unfold main. apply run_bind, run_ucode_options; [done|done|].
  set (ucc := set_paths _ _ _). assert (Hucc : ucc_manifest_path ucc = Some manifest /\ ucc_proto_path ucc = Some proto) by done.
  destruct Hucc as [-> ->]. rewrite Hopen. run_steps. set (ucc1 := set_proto_dir ucc proto).
  assert (Htrees : tree (ucc_manifest_ents ucc1) [] /\ tree (ucc_proto_ents ucc1) [] /\ ucc_errors ucc1 = 0 /\ ucc_verbose ucc1 = verbose).
  { unfold ucc1, ucc. destruct verbose; cbn; split_and!; done || apply tree_seq_create. }
  destruct Htrees as (Htm & Htp & Herr & Hverb).
  eapply run_mono; [apply (run_read_ucode manifest es ucc1 out (fun st => st = 1 /\ ~ ucode_manifest_ok es)); try done; auto| |intros st [? ?]; auto].
  intros r e (-> & Hok & tm & Htm' & ->). change (negb (0 =? 0)) with false. cbn beta iota.
  assert (Hwp : with_manifest_ents ucc1 tm = with_proto_ents (with_manifest_ents ucc1 tm) (ucc_proto_ents ucc1)) by done. rewrite Hwp. clear Hwp.
  eapply run_read_all; [exact Ha|exact Hf|exact Hi|done|exact Htp|by auto|]. intros tp Hread Htp'. fold files in Htp'. apply run_bind. unfold ucc_check_proto. run_steps.
  change (ucc_verbose (with_manifest_ents ucc1 tm)) with (ucc_verbose ucc1). rewrite Hverb.
  set (ucc2 := with_proto_ents (with_manifest_ents ucc1 tm) tp). change (ucc_proto_ents ucc2) with tp.
  rewrite (tree_seq_first ucode_ent_comparator _ _ Htp'), (tree_seq_numnodes ucode_ent_comparator _ _ Htp').
  assert (Hlen : Zlen (ucode_sorted files) <= UINT_MAX).
  { unfold Zlen. rewrite (sorted_of_perm ucode_ent_comparator). unfold files, proto_files, dir_files. pose proof (proj2 (ls_sizes _ _ _ Ha)).
    pose proof (proj2 (ls_sizes _ _ _ Hi)). rewrite !length_app, !length_fmap. unfold Zlen, PATHS_MAX, UINT_MAX in *.
    destruct fallback as [fs| |]; cbn [from_option fallback_names]; [pose proof (proj2 (ls_sizes _ _ _ Hf)); rewrite length_fmap; unfold Zlen, PATHS_MAX in *; lia|cbn [length]; lia..]. }
  eapply run_use; [apply (run_check_proto_loop _ ucc2 (ucode_files es) files []); [done|done|done|unfold Zlen; lia|change (ucc_errors ucc2) with (ucc_errors ucc1); lia|change (ucc_errors ucc2) with (ucc_errors ucc1); lia]|].
  intros [] [out' ucc3] [Herr' Hout]. cbn [te_stdout te_state] in *. run_steps. rewrite Herr'. change (ucc_errors ucc2) with (ucc_errors ucc1).
  rewrite Herr, Z.add_0_l. change (ucc_verbose ucc2) with (ucc_verbose ucc1) in Hout. rewrite Hverb in Hout.
  assert (Hmiss : (forall s, s ∈ ucode_sorted files -> s ∈ ucode_files es) <-> forall s, s ∈ files -> s ∈ ucode_files es)
    by (intros; by setoid_rewrite (sorted_of_perm ucode_ent_comparator files)).
  destruct (missing_files (ucode_files es) (ucode_sorted files)) as [|s l] eqn:Hms.
  - pose proof (proj1 (missing_none _ _) Hms) as Hall. change (0 <? Zlen ([] : list cstr)) with false. cbn beta iota. run_steps. split; [done|]. split; [done|]. split; [done|]. split; [by apply Hmiss|].
    rewrite Hout. unfold ucode_report. fold files. rewrite filter_id by (by apply list.Forall_forall).
    destruct verbose; [by rewrite <-app_assoc|by rewrite !app_nil_r].
  - assert (0 <? Zlen (s :: l) = true) as -> by (rewrite Zlen_cons; pose proof (Zlen_nonneg l); lia). apply run_exit. split; [done|]. right; right.
    exists s. assert (Hin : s ∈ missing_files (ucode_files es) (ucode_sorted files)) by (rewrite Hms; by left).
    apply list_elem_of_filter in Hin as [Hno Hin]. by rewrite (sorted_of_perm ucode_ent_comparator) in Hin.
Qed.
End ucode_program.

(** ** A proto area without a fallback directory *)

Definition ucode_lines : list cstr :=
  [cs "d platform/i86pc/ucode 0755 root sys" ++ [LF]; cs "d platform/i86pc/ucode/AuthenticAMD 0755 root sys" ++ [LF];
   cs "f platform/i86pc/ucode/AuthenticAMD/2031-00 0444 root sys" ++ [LF];
   cs "f platform/i86pc/ucode/GenuineIntel/000906EA-22 0444 root sys" ++ [LF];
   cs "h platform/i86pc/ucode/GenuineIntel/000906EB-02=platform/i86pc/ucode/GenuineIntel/000906EA-22" ++ [LF]].
Definition ucode_entries : list manifest_ent := default [] (@manifest_entries LP64 ucode_lines).

Definition ucode_fs : FileSystem := {|
  fs_stat _ := inl ENOENT;
  fs_lstat _ := inr (33060, 1);
  fs_opendir path :=
    if decide (path = cs "proto/platform/i86pc/ucode/AuthenticAMD") then inr ([cs "."; cs ".."; cs "2031-00"], 0)
    else if decide (path = cs "proto/platform/i86pc/ucode/GenuineIntel") then inr ([cs "."; cs ".."; cs "000906EB-02"; cs "000906EA-22"], 0)
    else inl ENOENT;
  fs_readlink _ := inl ENOENT;
  fs_open path := if decide (path = cs "proto/platform/i86pc/ucode/AuthenticAMD/fallback") then inl ENOENT else inr tt;
  fs_manifest _ := inr (Stream (Some 33188) ucode_lines 0);
  fs_fopen _ := inl ENOENT
|}.

Definition sample_ucode_report : list cstr :=
  [cs "found 1 entries in platform/i86pc/ucode/AuthenticAMD" ++ [LF]; cs "found 2 entries in platform/i86pc/ucode/GenuineIntel" ++ [LF];
   cs "platform/i86pc/ucode/AuthenticAMD/2031-00 OK" ++ [LF]; cs "platform/i86pc/ucode/GenuineIntel/000906EA-22 OK" ++ [LF];
   cs "platform/i86pc/ucode/GenuineIntel/000906EB-02 OK" ++ [LF]].

Lemma sample_lists dir names all :
  @fs_opendir ucode_fs (cs "proto" ++ SLASH :: dir) = inr (all, 0) -> names = filter (fun n => skipped dir n = false) all ->
  @fs_open ucode_fs (cs "proto" ++ SLASH :: dir) = inr tt -> NoDup names -> forallb (fun n => bool_decide (n <> [] /\ SLASH ∉ n /\ NUL ∉ n) && negb (dot_name n)) names = true ->
  Forall (fun n => Zlen n <= PATHS_MAX) names -> 0 < Zlen names <= PATHS_MAX -> @lists ucode_fs (cs "proto") dir names.
Proof.
  intros Ho Hn Hop Hnd Hp Hs Hl. split; [done|by exists all, 0|done| | |done].
  - rewrite forallb_forall in Hp. apply list.Forall_forall. intros n Hin%list_elem_of_In. by apply plain_name_dec_ok, Hp.
  - apply list.Forall_forall. intros n _. by exists 33060, 1.
Qed.

Lemma ucodecheck_requires_witness :
  run (@main (list_avl cstr) LP64 ucode_fs (ucodecheck_args true (cs "manifest") (cs "proto")))
    (fun r e' => r = 0 /\ te_stdout e' = sample_ucode_report) never
    (ToolEnv [] (@Ucodecheck (list_avl cstr) None None [] false (avl_create ucode_ent_comparator) (avl_create ucode_ent_comparator) 0)).
Proof.
  eapply run_mono.
  - eapply (@ucodecheck_requires (list_avl cstr) (list_avl_laws cstr) LP64 ucode_fs true (cs "manifest") (cs "proto") ucode_entries
      [cs "2031-00"] FallbackMissing [cs "000906EB-02"; cs "000906EA-22"]).
    + by vm_compute.
    + by vm_compute.
    + done.
    + exists (Stream (Some 33188) ucode_lines 0). split_and!; [done|done| |done|by vm_compute]. repeat constructor; by_decide.
    + eapply sample_lists; [by vm_compute|by vm_compute|by vm_compute|by_decide|by vm_compute|by_decide|by_decide].
    + by exists ENOENT.
    + eapply sample_lists; [by vm_compute|by vm_compute|by vm_compute|by_decide|by vm_compute|by_decide|by_decide].
  - intros r e' (-> & _ & _ & _ & ->). split; [done|]. by vm_compute.
  - intros st [-> [Hno|[Hbad|(s & Hs & Hno)]]]; [|done|].
    + apply Hno. split; [by_decide|]. assert (Hall : Forall (fun me => me_type me <> ME_TYPE_SYMLINK) ucode_entries) by by_decide.
      eapply Forall_impl; [|exact Hall]. by intros me Hme (name & _ & _ & Ht).
    + apply Hno. unfold proto_files, dir_files in Hs. cbn [fallback_names from_option fmap list_fmap app] in Hs. rewrite !elem_of_cons in Hs.
      destruct Hs as [->|[->|[->|Hs]]]; [by_decide..|by apply not_elem_of_nil in Hs].
Defined.
