(* ===== verification/Vmunbundle.v ===== *)
(** * Vmunbundle: taking apart virtual machine bundles, [src/vmunbundle.c]

    A bundle is a header of 512 bytes and a body.  [vmunbundle json] copies the JSON body to
    standard output, and input without a header as it is; [vmunbundle dataset] hands standard input
    to [zfs receive].  The calls of the kernel are those of [Sys]; the loops that wait for it are
    given fuel.  [main] returns the status it hands to [exit].  A member of the header that the
    code has not stored is [None]. *)
From Stdlib Require Import Lia.
From S2P Require Import Prelude Cnum Sys Strset Tools.

Definition VMBUNDLE_MAGIC : cstr := cs "MAGIC-VMBUNDLE".
Definition VMBUNDLE_HEADER_SIZE : Z := 512.

Record header_t := Header {
  version : Z;
  checksum : option cstr;
  name : option cstr;
  size : Z;
  padded_size : Z
}.

Inductive vm_mode := JSON | DATASET.

#[export] Instance vm_mode_eq_dec : EqDecision vm_mode.
Proof. solve_decision. Defined.

Definition EINTR : Z := 4.

(** The string that starts at an index of an array, if it ends in it. *)
Fixpoint c_string (b : list char) : option cstr :=
  match b with
  | [] => None
  | c :: b => if decide (c = NUL) then Some [] else cons c <$> c_string b
  end.

(** [strtoull(s, NULL, 10)]: its value, and whether it is out of range. *)
Definition ULLONG_MAX : Z := 2 ^ 64 - 1.
Definition strtoull (s : cstr) : Z * bool :=
  match scan_number 10 s with
  | None => (0, false)
  | Some (neg, v, _) => if ULLONG_MAX <? v then (ULLONG_MAX, true) else ((if neg then - v else v) mod 2 ^ 64, false)
  end.

Section vmunbundle.
Context {E : Type} `{Kernel E} `{DM : DataModel} (strerror : Z -> cstr).

Definition perror (s : string) : C E () := e ← get_errno; eprint (cs s ++ cs ": " ++ strerror e ++ [LF]).

(** ** Input and output *)

(** The loop of [write_bytes]: the last result of [write] and the bytes that remain.  [ptr] is an
    index into the buffer: nothing may be read outside of it. *)
Fixpoint write_loop (fuel : nat) (fd : Z) (buf : list char) (ptr remain numwritten : Z) : C E (Z * Z) :=
  match fuel with
  | O => c_undefined
  | S fuel =>
      if 0 <? remain then
        if (0 <=? ptr) && (ptr + remain <=? Zlen buf) then
          numwritten ← sys "write" [AZ fd; AS (take (Z.to_nat remain) (drop (Z.to_nat ptr) buf))];
          if numwritten =? 0 then mret (numwritten, remain)
          else write_loop fuel fd buf (ptr + numwritten) (sz (remain - numwritten)) numwritten
        else c_undefined
      else mret (numwritten, remain)
  end.

Definition write_bytes (fuel : nat) (fd : Z) (buf : list char) (bytes : Z) : C E Z :=
  '(numwritten, remain) ← write_loop fuel fd buf 0 bytes 0;
  if numwritten <? 0 then perror "write" ;; mret (- remain)
  else if 0 <? remain then mret (- remain)
  else mret bytes.

(** The loop of [read_bytes]: the last result of [read], the bytes that remain, and those read. *)
Fixpoint read_loop (fuel : nat) (fd remain numread : Z) (data : list char) : C E (Z * Z * list char) :=
  match fuel with
  | O => c_undefined
  | S fuel =>
      if 0 <? remain then
        r ← syscall "read" [AZ fd; AZ remain];
        if 0 <? sr_ret r then read_loop fuel fd (sz (remain - sr_ret r)) (sr_ret r) (data ++ sr_data r)
        else mret (sr_ret r, remain, data)
      else mret (numread, remain, data)
  end.

(** The result, and what is stored in the buffer. *)
Definition read_bytes (fuel : nat) (fd bytes : Z) : C E (Z * list char) :=
  '(numread, remain, data) ← read_loop fuel fd bytes 0 [];
  if numread <? 0 then perror "read" ;; mret (- remain, data)
  else mret (Zlen data, data).

(** ** The dataset *)

(** The loop over [waitpid]: the status, or [None] when it failed. *)
Fixpoint wait_loop (fuel : nat) (pid : Z) : C E (option Z) :=
  match fuel with
  | O => c_undefined
  | S fuel =>
      r ← syscall "waitpid" [AZ pid; AZ 0];
      if sr_ret r =? pid then
        stat ← c_access (head (sr_vals r));
        mret (Some stat)
      else
        e ← get_errno;
        if (sr_ret r =? -1) && negb (e =? EINTR) then perror "waitpid" ;; mret None else wait_loop fuel pid
  end.

(** In the child [fork] returns 0; an [execve] that succeeds is the end of this program. *)
Definition zfs_receive (fuel : nat) (fd : Z) (snapshot : cstr) : C E Z :=
  pid ← sys "fork" [];
  if pid =? 0 then
    r ← sys "dup2" [AZ fd; AZ 0];
    if r <? 0 then perror "dup2()" ;; mret 1 else
    r ← sys "execve" [AS (cs "/usr/sbin/zfs"); AS (cs "receive"); AS (cs "-F"); AS snapshot];
    if r =? 0 then c_exit 0 else
    perror "execve" ;; mret 2
  else if 0 <? pid then
    stat ← wait_loop fuel pid;
    match stat with
    | None => mret 3
    | Some stat =>
        if negb (WIFEXITED stat) || negb (WEXITSTATUS stat =? 0) then
          eprint (cs "zfs receive barfed on " ++ snapshot ++ [LF]) ;; mret 4
        else mret 0
    end
  else perror "fork" ;; mret 5.

(** ** The header *)

(** [strlcpy(tmp, data + str_pos, VMBUNDLE_HEADER_SIZE - str_pos)] and the test of its result:
    [strlcpy] reads up to the NUL, wherever that is. *)
Definition header_field (data : list char) (str_pos : Z) : C E (option cstr) :=
  tmp ← c_access (c_string (drop (Z.to_nat str_pos) data));
  if sz (VMBUNDLE_HEADER_SIZE - str_pos) <=? Zlen tmp then perror "strlcpy" ;; mret None else mret (Some tmp).

(** The numbers: [errno] is looked at after the conversion. *)
Definition header_number (title : string) (value : Z) (range : bool) : C E (option Z) :=
  (if range then set_errno ERANGE else mret tt) ;;
  e ← get_errno;
  if negb (e =? 0) then perror title ;; mret None else mret (Some value).

(** The fields, from the one after the magic on. *)
Definition header_fields (data : list char) (header : header_t) : C E (Z * header_t) :=
  let str_pos := Zlen VMBUNDLE_MAGIC + 1 in
  tmp ← header_field data str_pos;
  match tmp with None => mret (-1, header) | Some tmp =>
  let '(v, range, _) := strtoul 10 tmp in
  n ← header_number "strtoul" (u32 v) range;
  match n with None => mret (-1, header) | Some n =>
  let header := Header n (checksum header) (name header) (size header) (padded_size header) in
  let str_pos := str_pos + Zlen tmp + 1 in
  tmp ← header_field data str_pos;
  match tmp with None => mret (-1, header) | Some tmp =>
  let header :=
    if negb (strncmp tmp (cs "0") (if Zlen tmp =? 0 then 1 else 0) =? 0)
    then Header (version header) (Some (cs "0")) (name header) (size header) (padded_size header) else header in
  let str_pos := str_pos + Zlen tmp + 1 in
  tmp ← header_field data str_pos;
  match tmp with None => mret (-1, header) | Some tmp =>
  name ← dup_str tmp;
  let header := Header (version header) (checksum header) name (size header) (padded_size header) in
  let str_pos := str_pos + Zlen tmp + 1 in
  tmp ← header_field data str_pos;
  match tmp with None => mret (-1, header) | Some tmp =>
  let '(v, range) := strtoull tmp in
  n ← header_number "strtoull" (sz v) range;
  match n with None => mret (-1, header) | Some n =>
  let header := Header (version header) (checksum header) name n (padded_size header) in
  let str_pos := str_pos + Zlen tmp + 1 in
  tmp ← header_field data str_pos;
  match tmp with None => mret (-1, header) | Some tmp =>
  let '(v, range) := strtoull tmp in
  n ← header_number "strtoull" (sz v) range;
  match n with None => mret (-1, header) | Some n =>
  mret (0, Header (version header) (checksum header) name (size header) n)
  end end end end end end end end.

(** The magic at [offset]: the rest of the header is read after it. *)
Definition header_at (fuel : nat) (fd : Z) (data : list char) (offset : Z) (header : header_t) : C E (Z * header_t) :=
  eprint (cs "found magic at offset " ++ print_d offset ++ [LF]) ;;
  if 0 <? offset then
    let data := drop (Z.to_nat offset) data in
    '(nread, more) ← read_bytes fuel fd offset;
    if nread =? 0 then eprint (cs "EOF while reading header." ++ [LF]) ;; mret (-1, header)
    else if nread <? 1 then eprint (cs "Error " ++ print_d nread ++ cs " while reading header." ++ [LF]) ;; mret (-1, header)
    else if negb (sz nread =? offset) then
      eprint (cs "ERROR short read reading second header chunk." ++ [LF]) ;; mret (-1, header)
    else header_fields (data ++ more) header
  else header_fields data header.

(** The search: [n] offsets are left.  Until the magic is found [nread] stays equal to [data_size].
    The result is [None] when there is no magic. *)
Fixpoint magic_loop (n : nat) (fuel : nat) (fd : Z) (data : list char) (offset : Z) (header : header_t) : C E (option (Z * header_t)) :=
  match n with
  | O => mret None
  | S n =>
      if strncmp (c_text (drop (Z.to_nat offset) data)) VMBUNDLE_MAGIC (Zlen VMBUNDLE_MAGIC + 1) =? 0
      then r ← header_at fuel fd data offset header; mret (Some r)
      else magic_loop n fuel fd data (offset + 1) header
  end.

(** The loop that copies the input: the last result of [read_bytes]. *)
Fixpoint raw_loop (n : nat) (fuel : nat) (fd : Z) : C E Z :=
  match n with
  | O => c_undefined
  | S n =>
      '(nread, data) ← read_bytes fuel fd VMBUNDLE_HEADER_SIZE;
      if 0 <? nread then
        eprint (cs "got " ++ print_d nread ++ cs " bytes" ++ [LF]) ;;
        _ ← write_bytes fuel 1 data nread;
        raw_loop n fuel fd
      else mret nread
  end.

Definition get_header (fuel : nat) (fd : Z) (header : header_t) (fallback_to_raw : bool) : C E (Z * header_t) :=
  eprint (cs "looking for magic..." ++ [LF]) ;;
  '(nread, data) ← read_bytes fuel fd VMBUNDLE_HEADER_SIZE;
  if nread =? 0 then eprint (cs "EOF looking for magic (no data)" ++ [LF]) ;; mret (-3, header)
  else if nread <? 0 then eprint (cs "Error reading magic" ++ [LF]) ;; mret (-1, header)
  else
    let data_size := nread in
    let data := data ++ replicate (Z.to_nat (VMBUNDLE_HEADER_SIZE - Zlen data)) NUL in
    set_errno 0 ;;
    found ← magic_loop (length VMBUNDLE_MAGIC + 1) fuel fd data 0 header;
    match found with
    | Some r => mret r
    | None =>
        if fallback_to_raw then
          eprint (cs "No magic! Dumping raw JSON." ++ [LF]) ;;
          _ ← write_bytes fuel 1 data data_size;
          nread ← raw_loop fuel fuel fd;
          if nread <? 0 then eprint (cs "Error " ++ print_d nread ++ cs " reading raw data" ++ [LF]) ;; mret (-1, header)
          else mret (-2, header)
        else eprint (cs "No magic!" ++ [LF]) ;; mret (1, header)
    end.

(** ** The program *)

Definition read_json (fuel : nat) (header : header_t) : C E (list char) :=
  json ← malloc (padded_size header);
  match json with
  | None => perror "malloc" ;; c_exit 1
  | Some _ =>
      '(nread, data) ← read_bytes fuel 0 (padded_size header);
      if nread =? 0 then eprint (cs "EOF reading JSON" ++ [LF]) ;; c_exit 1
      else if nread <? 0 then eprint (cs "Error " ++ print_d nread ++ cs " reading JSON" ++ [LF]) ;; c_exit 1
      else if negb (sz nread =? padded_size header) then
        eprint (cs "JSON truncated: " ++ print_u nread ++ cs " of " ++ print_u (padded_size header) ++ cs " bytes" ++ [LF]) ;; c_exit 1
      else mret data
  end.

Definition usage (progname : cstr) : C E Z :=
  eprint (cs "Usage: " ++ progname ++ cs " [json|dataset]" ++ [LF]) ;; mret 1.

(** [main] after the arguments; [header] is indeterminate. *)
Definition run_mode (fuel : nat) (mode : vm_mode) (header : header_t) : C E Z :=
  '(res, header) ← get_header fuel 0 header (bool_decide (mode = JSON));
  if (res =? -1) || (0 <? res) then eprint (cs "No header: this doesn't look like a vmbundle." ++ [LF]) ;; mret 1
  else if res =? -3 then mret 3
  else if bool_decide (mode = JSON) && (res =? -2) then mret 0
  else if bool_decide (mode = JSON) && negb (res =? 0) then
    eprint (cs "Error " ++ print_d res ++ cs ": reading vmbundle header." ++ [LF]) ;; mret 1
  else
    eprint (cs "Version: " ++ print_u (version header) ++ [LF]) ;;
    name ← c_access (name header);
    eprint (cs "Name: [" ++ name ++ cs "]" ++ [LF]) ;;
    eprint (cs "Size: " ++ print_u (size header) ++ [LF]) ;;
    eprint (cs "Padded Size: " ++ print_u (padded_size header) ++ [LF]) ;;
    match mode with
    | JSON =>
        if strcmp (cs "JSON") name =? 0 then
          json ← read_json fuel header;
          _ ← write_bytes fuel 1 json (size header);
          _ ← sys "fsync" [AZ 1];
          eprint (cs "END JSON" ++ [LF]) ;; mret 0
        else eprint (cs "FATAL: expecting JSON, got '" ++ name ++ cs "'" ++ [LF]) ;; mret 1
    | DATASET =>
        eprint (cs "Attempting zfs receive " ++ name ++ [LF]) ;;
        res ← zfs_receive fuel 0 name;
        if negb (res =? 0) then eprint (cs "Failed to receive dataset code: " ++ print_d res ++ [LF]) ;; mret 1
        else eprint (cs "END DATASET" ++ [LF]) ;; mret 0
    end.

Definition main (fuel : nat) (argv : list cstr) : C E Z :=
  match argv with
  | [_; mode] =>
      let header := Header 0 None None 0 0 in
      if strcmp mode (cs "json") =? 0 then run_mode fuel JSON header
      else if strcmp mode (cs "dataset") =? 0 then run_mode fuel DATASET header
      else usage (default [] (head argv))
  | _ => usage (default [] (head argv))
  end.
End vmunbundle.
