(* ===== verification/VmunbundleSpec.v ===== *)
(** * VmunbundleSpec: what vmunbundle copies

    [does m i o n Q X] says what [m] does when [i] is left on standard input, [o] was written to
    standard output and [errno] is [n].  The kernel may deliver and take less than it is asked
    for, as long as it makes progress ([VmEnv]).  [json_result] is the contract of [vmunbundle
    json] for the input it speaks of; [get_header_finds] says where the standard input is left for [zfs receive]. *)
From Stdlib Require Import Lia.
From S2P Require Import Prelude Cnum Sys Strset Tools Run Vmunbundle.

(** What is left on standard input, and what was written to standard output. *)
Class VmEnv (E : Type) `{Kernel E} := {
  vm_in : E -> list char;
  vm_out : E -> list char;
  vm_read n e r e' : 0 < n -> sys_step "read" [AZ 0; AZ n] e = (r, e') ->
    vm_out e' = vm_out e /\ vm_in e = sr_data r ++ vm_in e' /\ sr_ret r = Zlen (sr_data r) /\ sr_ret r <= n /\
    (vm_in e <> [] -> 0 < sr_ret r);
  vm_write s e r e' : s <> [] -> sys_step "write" [AZ 1; AS s] e = (r, e') ->
    vm_in e' = vm_in e /\ vm_out e' = vm_out e ++ take (Z.to_nat (sr_ret r)) s /\ 0 < sr_ret r <= Zlen s;
  vm_fsync e r e' : sys_step "fsync" [AZ 1] e = (r, e') -> vm_in e' = vm_in e /\ vm_out e' = vm_out e
}.

(** Where the input has the magic. *)
Definition magic_at (i : list char) (k : nat) : Prop := c_text (drop k i) = VMBUNDLE_MAGIC.
#[export] Instance magic_at_dec i k : Decision (magic_at i k).
Proof. unfold magic_at. solve_decision. Defined.

Definition magic_offsets : nat := S (length VMBUNDLE_MAGIC).

(** A header of 512 bytes and what it says. *)
Definition header_text (v c n s p fill : list char) : list char :=
  VMBUNDLE_MAGIC ++ NUL :: v ++ NUL :: c ++ NUL :: n ++ NUL :: s ++ NUL :: p ++ NUL :: fill.

(** What its texts say; [None] when a number is out of range. *)
Definition header_says `{DM : DataModel} (v c n s p : cstr) : option header_t :=
  let '(vv, vrange, _) := strtoul 10 v in
  let '(sv, srange) := strtoull s in
  let '(pv, prange) := strtoull p in
  if vrange || srange || prange then None
  else Some (Header (u32 vv) (if decide (c = []) then Some (cs "0") else None) (Some n) (sz sv) (sz pv)).

Definition header_is `{DM : DataModel} (h : list char) (says : option header_t) : Prop :=
  exists v c n s p fill,
    h = header_text v c n s p fill /\ Zlen h = VMBUNDLE_HEADER_SIZE /\ Forall is_cstr [v; c; n; s; p] /\ header_says v c n s p = says.

(** The input is [junk] of less than 15 bytes, a header and a body. *)
Definition bundle_is `{DM : DataModel} (i junk : list char) (says : option header_t) (body : list char) : Prop :=
  exists h, i = junk ++ h ++ body /\ header_is h says /\ (length junk < magic_offsets)%nat /\
    (forall k, (k < length junk)%nat -> ~ magic_at i k).
Definition bundle `{DM : DataModel} (i junk : list char) (b : header_t) (body : list char) : Prop := bundle_is i junk (Some b) body.

(** The end of a run: a status and what was written, or a read beyond the block of the body. *)
Inductive vm_end := VmExit (st : Z) (out : list char) | VmOverread.

(** The input has its first magic at [k] and ends before 512 bytes from there, and from the start
    by 6 bytes at least if [k] is 0: the rest of the header is then read from zeros. *)
Definition header_cut (i : list char) : Prop :=
  exists k, (k < magic_offsets)%nat /\ magic_at i k /\ (forall k', (k' < k)%nat -> ~ magic_at i k') /\
    Zlen i < (if decide (k = 0%nat) then 507 else 512 + Z.of_nat k).

(** [json_result i r]: the end for the input [i].  Not in it are a header with a text that does not
    end within its 512 bytes and a complete body of more than [HEAP_HI] bytes. *)
Inductive json_result `{DM : DataModel} (i : list char) : vm_end -> Prop :=
| json_empty : i = [] -> json_result i (VmExit 3 [])
| json_raw : i <> [] -> (forall k, (k < magic_offsets)%nat -> ~ magic_at i k) -> json_result i (VmExit 0 i)
| json_body junk b body :
    bundle i junk b body -> name b = Some (cs "JSON") -> 0 <= size b <= padded_size b ->
    0 < padded_size b <= HEAP_HI -> padded_size b <= Zlen body -> json_result i (VmExit 0 (take (Z.to_nat (size b)) body))
| json_overread junk b body :
    bundle i junk b body -> name b = Some (cs "JSON") -> padded_size b < size b ->
    0 < padded_size b <= HEAP_HI -> padded_size b <= Zlen body -> json_result i VmOverread
| json_short junk b body :
    bundle i junk b body -> name b = Some (cs "JSON") -> padded_size b = 0 \/ Zlen body < padded_size b ->
    json_result i (VmExit 1 [])
| json_other junk b body :
    bundle i junk b body -> name b <> Some (cs "JSON") -> json_result i (VmExit 1 [])
| json_range junk body : bundle_is i junk None body -> json_result i (VmExit 1 [])
| json_cut : header_cut i -> json_result i (VmExit 1 []).

Lemma c_text_take k d : c_text (take k d) = take k (c_text d).
Proof.
  revert k. induction d as [|c d IH]; intros [|k]; cbn; [done..|]. case_decide; [done|]. cbn. by rewrite IH.
Qed.

Lemma c_string_app s t : is_cstr s -> c_string (s ++ NUL :: t) = Some s.
Proof.
  induction s as [|c s IH]; intros Hs; [done|]. apply is_cstr_cons in Hs as [Hc Hs]. cbn.
  rewrite decide_False by done. by rewrite IH.
Qed.

Lemma take_magic k t : (magic_offsets <= k)%nat -> take k t = VMBUNDLE_MAGIC <-> t = VMBUNDLE_MAGIC.
Proof.
  intros Hk. split; [|intros ->; apply take_ge; unfold magic_offsets in Hk; lia].
  intros Ht. rewrite <-Ht. symmetry. apply take_ge. apply (f_equal length) in Ht. rewrite length_take in Ht.
  change (length VMBUNDLE_MAGIC) with 14%nat in Ht. change magic_offsets with 15%nat in Hk. lia.
Qed.

(** The first 512 bytes, and zeros after a shorter input, have the magic where the input has it. *)
Definition header_buffer (i : list char) : list char := take 512 i ++ replicate (512 - length i) NUL.

Lemma c_text_zeros d k : c_text (d ++ replicate k NUL) = c_text d.
Proof. destruct k as [|k]; cbn; [by rewrite app_nil_r|]. apply c_text_app_nul_any. Qed.

Lemma magic_at_buffer i k : (k < magic_offsets)%nat ->
  strncmp (c_text (drop k (header_buffer i))) VMBUNDLE_MAGIC (Zlen VMBUNDLE_MAGIC + 1) =? 0 = bool_decide (magic_at i k).
Proof.
  intros Hk. unfold strncmp, magic_at, header_buffer. change magic_offsets with 15%nat in Hk.
  replace (c_text (drop k _)) with (take (512 - k) (c_text (drop k i))).
  2:{ rewrite drop_app, drop_replicate, skipn_firstn_comm, c_text_zeros. by rewrite c_text_take. }
  rewrite take_take. change (Z.to_nat _) with 15%nat. rewrite Nat.min_l by lia. rewrite (take_ge VMBUNDLE_MAGIC) by by apply leb_complete.
  apply eq_bool_prop_intro. rewrite !Is_true_true, Z.eqb_eq, strcmp_eq, bool_decide_eq_true. by apply take_magic.
Qed.

(** Texts that end, one after the other, in a buffer with enough zeros at its end. *)
Lemma split_texts m d z : (m <= z)%nat ->
  exists fs fill, length fs = m /\ Forall is_cstr fs /\ d ++ replicate z NUL = concat ((fun f => f ++ [NUL]) <$> fs) ++ fill /\
    (m <> 0%nat -> head fs = Some (c_text d)).
Proof.
  revert d z. induction m as [|m IH]; intros d z Hm; [by exists [], (d ++ replicate z NUL)|].
  assert (Hfirst : exists d' z', (m <= z')%nat /\ d ++ replicate z NUL = c_text d ++ NUL :: d' ++ replicate z' NUL).
  { clear IH. induction d as [|c d IHd]; [destruct z as [|z]; [lia|]; exists [], z; split; [lia|done]|].
    cbn [c_text]. case_decide as Hc; [subst c; exists d, z; split; [lia|done]|].
    destruct IHd as (d' & z' & Hz' & Heq). exists d', z'. split; [done|]. cbn. by rewrite Heq. }
  destruct Hfirst as (d' & z' & Hz' & ->). destruct (IH d' z' Hz') as (fs & fill & Hl & Hall & -> & _).
  exists (c_text d :: fs), fill. cbn. rewrite <-!app_assoc. cbn. split_and!; [lia| |done|done].
  constructor; [apply c_text_is_cstr|done].
Qed.

(** A cut header at the start of the input: the buffer has one all the same. *)
Lemma cut_buffer `{DM : DataModel} i : magic_at i 0 -> Zlen i < 507 -> exists says, header_is (header_buffer i) says.
Proof.
  intros Hm Hi. unfold header_buffer. rewrite take_ge by (unfold Zlen in *; lia).
  destruct (split_texts 6 i (512 - length i)) as (fs & fill & Hl & Hall & Heq & Hhead); [unfold Zlen in *; lia|].
  destruct fs as [|m [|v [|c [|n [|s [|p [|? ?]]]]]]]; try done. injection (Hhead ltac:(done)) as ->.
  change (c_text i) with (c_text (drop 0 i)) in *. rewrite Hm in *. apply Forall_cons_1 in Hall as [_ Hall].
  exists (header_says v c n s p), v, c, n, s, p, fill. split_and!; [|unfold Zlen; rewrite length_app, length_replicate; unfold VMBUNDLE_HEADER_SIZE, Zlen in *; lia|done|done].
  rewrite Heq. cbn [fmap list_fmap concat app]. rewrite app_nil_r, <-!app_assoc. done.
Qed.

Section spec.
Context {E : Type} `{VmEnv E} `{DM : DataModel} (strerror : Z -> cstr).
Implicit Types (i o : list char) (n : Z) (w : world E).

Definition vm_at i o n w : Prop :=
  good w /\ vm_in (w_env w) = i /\ vm_out (w_env w) = o /\ w_errno w = n.

Definition does {A} (m : C E A) i o n (Q : A -> list char -> list char -> Z -> Prop) (X : Z -> Prop) : Prop :=
  forall w, vm_at i o n w ->
  match m w with
  | Done (a, w') => exists i' o' n', vm_at i' o' n' w' /\ Q a i' o' n'
  | Exited st => X st
  | _ => False
  end.

Lemma does_ret {A} (a : A) i o n (Q : A -> list char -> list char -> Z -> Prop) X : Q a i o n -> does (mret a) i o n Q X.
Proof. intros HQ w Hw. cbn. by exists i, o, n. Qed.
Lemma does_bind {A B} (m : C E A) (k : A -> C E B) i o n Q X :
  does m i o n (fun a i o n => does (k a) i o n Q X) X -> does (m ≫= k) i o n Q X.
Proof.
  intros Hm w Hw. specialize (Hm w Hw). unfold mbind, C_bind.
  destruct (m w) as [[a w']| | |]; [|done..]. destruct Hm as (i' & o' & n' & Hw' & Hk). by apply Hk.
Qed.
Lemma does_mono {A} (m : C E A) i o n (Q Q' : A -> list char -> list char -> Z -> Prop) (X : Z -> Prop) :
  does m i o n Q X -> (forall a i o n, Q a i o n -> Q' a i o n) -> does m i o n Q' X.
Proof.
  intros Hm HQ w Hw. specialize (Hm w Hw). destruct (m w) as [[a w']| | |]; [|done..]. naive_solver.
Qed.
Lemma does_eprint s i o n (Q : () -> list char -> list char -> Z -> Prop) X : Q tt i o n -> does (eprint s) i o n Q X.
Proof. intros HQ w ([? ?] & ? & ? & ?). cbn. by exists i, o, n. Qed.
Lemma does_set_errno n' i o n (Q : () -> list char -> list char -> Z -> Prop) X : Q tt i o n' -> does (set_errno n') i o n Q X.
Proof. intros HQ w ([? ?] & ? & ? & ?). cbn. by exists i, o, n'. Qed.
Lemma does_get_errno i o n (Q : Z -> list char -> list char -> Z -> Prop) X : Q n i o n -> does get_errno i o n Q X.
Proof. intros HQ w (? & ? & ? & <-). cbn. by exists i, o, (w_errno w). Qed.
Lemma does_access {A} m (a : A) i o n (Q : A -> list char -> list char -> Z -> Prop) X :
  m = Some a -> Q a i o n -> does (c_access m) i o n Q X.
Proof. intros -> HQ w Hw. cbn. by exists i, o, n. Qed.
Lemma does_exit {A} st i o n (Q : A -> list char -> list char -> Z -> Prop) (X : Z -> Prop) : X st -> does (c_exit st) i o n Q X.
Proof. by intros HX w _. Qed.

Lemma malloc_errno k w a w' : malloc k w = Done (Some a, w') -> w_errno w' = w_errno w.
Proof.
  unfold malloc. intros Hm. repeat case_match; by simplify_eq.
Qed.

Lemma does_malloc k i o n (Q : option Z -> list char -> list char -> Z -> Prop) X :
  0 <= k <= HEAP_HI -> (forall a, Q (Some a) i o n) -> does (malloc k) i o n Q X.
Proof.
  intros Hk HQ w (Hg & Hi & Ho & He).
  assert (wp (malloc k) (fun m w' => is_Some m /\ good w' /\ w_env w' = w_env w) w) as Hwp.
  { apply wp_malloc_good; [done|done|]. intros a w' Hw'. by split_and!; [|eapply good_frame|apply frame_env]. }
  unfold wp in Hwp. destruct (malloc k w) as [[m w']| | |] eqn:Hm; [|done..]. destruct Hwp as ([a ->] & Hg' & He').
  exists i, o, n. split; [|apply HQ]. split; [done|]. by rewrite He', (malloc_errno _ _ _ _ Hm).
Qed.

Lemma does_malloc_any k i o n (Q : option Z -> list char -> list char -> Z -> Prop) X :
  0 <= k -> (forall a, Q (Some a) i o n) -> Q None i o ENOMEM -> does (malloc k) i o n Q X.
Proof.
  intros Hk HQ Hnone w (Hg & Hi & Ho & He).
  assert (wp (malloc k) (fun m w' => (m = None -> w_errno w' = ENOMEM) /\ good w' /\ w_env w' = w_env w) w) as Hwp.
  { apply wp_malloc_any; [apply Hg|done| |].
    - intros a w' Hw'. by split_and!; [|eapply good_frame|apply frame_env].
    - intros w' Hw' _ Hm. by split_and!; [|eapply good_frame|apply frame_env]. }
  unfold wp in Hwp. destruct (malloc k w) as [[m w']| | |] eqn:Hm; [|done..]. destruct Hwp as (Hm' & Hg' & He').
  destruct m as [a|].
  - exists i, o, n. split; [|apply HQ]. split; [done|]. by rewrite He', (malloc_errno _ _ _ _ Hm).
  - exists i, o, ENOMEM. split; [|done]. split; [done|]. rewrite He'. by split_and!; [| |apply Hm'].
Qed.

Lemma does_dup_str s i o n (Q : option cstr -> list char -> list char -> Z -> Prop) X :
  str_ok s -> Q (Some s) i o n -> does (dup_str s) i o n Q X.
Proof.
  intros Hs HQ. apply does_bind, does_malloc; [unfold str_ok in Hs; pose proof (Zlen_nonneg s); lia|].
  intros a. by apply does_ret.
Qed.

(** A call that does not fail leaves [errno]. *)
Lemma does_syscall name args i o n (Q : sysret -> list char -> list char -> Z -> Prop) X :
  (forall e r e', vm_in e = i -> vm_out e = o -> sys_step name args e = (r, e') ->
     Q r (vm_in e') (vm_out e') (if sr_ret r =? -1 then sr_errno r else n)) ->
  does (syscall name args) i o n Q X.
Proof.
  intros HQ w ([? ?] & Hi & Ho & He). unfold syscall. destruct (sys_step _ _ _) as [r e'] eqn:Hs.
  eexists _, _, _. split; [split_and!; [done|reflexivity|reflexivity|reflexivity]|]. cbn. rewrite He. by eapply HQ.
Qed.

Ltac does_prim :=
  lazymatch goal with
  | |- does (mret _) _ _ _ _ _ => apply does_ret
  | |- does (mbind _ _) _ _ _ _ _ => apply does_bind
  | |- does (set_errno _) _ _ _ _ _ => apply does_set_errno
  | |- does get_errno _ _ _ _ _ => apply does_get_errno
  | |- does (eprint _) _ _ _ _ _ => apply does_eprint
  | |- does (perror _ _) _ _ _ _ _ => unfold perror
  end.
Ltac does_steps := repeat (does_prim; cbn beta iota zeta).

(** ** Reading and writing *)

Lemma does_read_loop fuel remain numread data i o n (Q : Z * Z * list char -> list char -> list char -> Z -> Prop) X :
  0 <= remain <= SIZE_MAX -> 0 <= numread -> (Nat.min (Z.to_nat remain) (length i) + 1 < fuel)%nat ->
  (forall nr re, 0 <= nr -> Q (nr, re, data ++ take (Z.to_nat remain) i) (drop (Z.to_nat remain) i) o n) ->
  does (read_loop fuel 0 remain numread data) i o n Q X.
Proof.
  revert remain numread data i. induction fuel as [|fuel IH]; intros remain numread data i Hr Hnr Hf HQ; [lia|].
  cbn [read_loop]. destruct (Z.ltb_spec 0 remain) as [Hpos|Hneg].
  2:{ apply does_ret. replace (Z.to_nat remain) with 0%nat in HQ by lia. rewrite take_0, app_nil_r in HQ. by apply HQ. }
  apply does_bind, does_syscall. intros e r e' Hi Ho Hs.
  destruct (vm_read _ _ _ _ Hpos Hs) as (-> & Hin & Hret & Hle & Hsome). rewrite Hi in *.
  pose proof (Zlen_nonneg (sr_data r)). destruct (Z.eqb_spec (sr_ret r) (-1)); [lia|]. rewrite Ho.
  destruct (Z.ltb_spec 0 (sr_ret r)) as [Hgot|Hnone].
  - assert (Z.to_nat (sr_ret r) = length (sr_data r)) as Hlen by (unfold Zlen in Hret; lia).
    assert (length i = length (sr_data r) + length (vm_in e'))%nat as Hil by (rewrite Hin; apply length_app).
    rewrite sz_small by lia.
    apply IH; [lia|lia|lia|]. intros nr re Hnr'.
    replace (Z.to_nat (remain - sr_ret r)) with (Z.to_nat remain - length (sr_data r))%nat by lia.
    rewrite <-app_assoc. specialize (HQ nr re Hnr'). rewrite Hin, take_app, drop_app in HQ.
    rewrite (take_ge (sr_data r)), (drop_ge (sr_data r)) in HQ by lia. exact HQ.
  - apply does_ret. assert (i = []) as -> by (destruct i; [done|]; specialize (Hsome ltac:(done)); lia).
    assert (vm_in e' = []) as -> by (by destruct (sr_data r)).
    specialize (HQ (sr_ret r) remain ltac:(lia)). by rewrite take_nil, drop_nil, app_nil_r in HQ.
Qed.

Lemma small_size k : 0 <= k <= 512 -> 0 <= k <= SIZE_MAX.
Proof. pose proof SIZE_MAX_bound. unfold UINT_MAX in *. lia. Qed.

Lemma does_read_bytes fuel bytes i o n (Q : Z * list char -> list char -> list char -> Z -> Prop) X :
  0 <= bytes <= SIZE_MAX -> (length i + 1 < fuel)%nat ->
  Q (Zlen (take (Z.to_nat bytes) i), take (Z.to_nat bytes) i) (drop (Z.to_nat bytes) i) o n ->
  does (read_bytes strerror fuel 0 bytes) i o n Q X.
Proof.
  intros Hb Hf HQ. apply does_bind, does_read_loop; [done|done|lia|]. intros nr re Hnr. cbn.
  destruct (Z.ltb_spec nr 0); [lia|]. by apply does_ret.
Qed.

Lemma does_write_loop fuel buf ptr remain numwritten i o n (Q : Z * Z -> list char -> list char -> Z -> Prop) X :
  0 <= ptr -> 0 <= remain <= HEAP_HI -> ptr + remain <= Zlen buf -> 0 <= numwritten -> (Z.to_nat remain < fuel)%nat ->
  (forall nw, 0 <= nw -> Q (nw, 0) i (o ++ take (Z.to_nat remain) (drop (Z.to_nat ptr) buf)) n) ->
  does (write_loop fuel 1 buf ptr remain numwritten) i o n Q X.
Proof.
  revert ptr remain numwritten o. induction fuel as [|fuel IH]; intros ptr remain numwritten o Hp Hr Hbuf Hnw Hf HQ; [lia|].
  cbn [write_loop]. destruct (Z.ltb_spec 0 remain) as [Hpos|Hneg].
  2:{ apply does_ret. replace remain with 0 in * by lia. rewrite take_0, app_nil_r in HQ. by apply HQ. }
  replace ((0 <=? ptr) && (ptr + remain <=? Zlen buf)) with true by (symmetry; lia).
  set (out := take (Z.to_nat remain) (drop (Z.to_nat ptr) buf)) in *.
  assert (Zlen out = remain) as Hout by (unfold out; rewrite Zlen_take, Zlen_drop; lia).
  unfold sys. apply does_bind, does_bind, does_syscall. intros e r e' Hi Ho Hs.
  destruct (vm_write _ _ _ _ ltac:(intros Hnil; rewrite Hnil, Zlen_nil in Hout; lia) Hs) as (Hin & -> & Hret).
  destruct (Z.eqb_spec (sr_ret r) (-1)); [lia|]. rewrite Hin, Hi, Ho. apply does_ret.
  destruct (Z.eqb_spec (sr_ret r) 0); [lia|]. rewrite sz_small32 by (unfold UINT_MAX, HEAP_HI in *; lia).
  apply IH; [lia|lia|lia|lia|lia|]. intros nw Hnw'. specialize (HQ nw Hnw').
  replace (Z.to_nat (ptr + sr_ret r)) with (Z.to_nat ptr + Z.to_nat (sr_ret r))%nat by lia. rewrite <-drop_drop.
  replace (Z.to_nat (remain - sr_ret r)) with (Z.to_nat remain - Z.to_nat (sr_ret r))%nat by lia.
  rewrite <-app_assoc. unfold out in HQ |- *. rewrite take_take, Nat.min_l by lia.
  rewrite <-(take_drop (Z.to_nat (sr_ret r)) (take (Z.to_nat remain) (drop (Z.to_nat ptr) buf))) in HQ.
  by rewrite take_take, Nat.min_l, skipn_firstn_comm in HQ by lia.
Qed.

Lemma does_write_bytes fuel buf bytes i o n (Q : Z -> list char -> list char -> Z -> Prop) X :
  0 <= bytes <= HEAP_HI -> bytes <= Zlen buf -> (Z.to_nat bytes < fuel)%nat ->
  Q bytes i (o ++ take (Z.to_nat bytes) buf) n -> does (write_bytes strerror fuel 1 buf bytes) i o n Q X.
Proof.
  intros Hb Hle Hf HQ. apply does_bind, does_write_loop; [lia|done|lia|done|done|]. intros nw Hnw. cbn.
  destruct (Z.ltb_spec nw 0); [lia|]. by apply does_ret.
Qed.

(** The copy of input without a header. *)
Lemma does_raw_loop k fuel i o n (Q : Z -> list char -> list char -> Z -> Prop) X :
  (length i < k)%nat -> (length i + 1 < fuel)%nat -> Q 0 [] (o ++ i) n -> does (raw_loop strerror k fuel 0) i o n Q X.
Proof.
  revert i o. induction k as [|k IH]; intros i o Hk Hf HQ; [lia|].
  cbn [raw_loop]. apply does_bind, does_read_bytes; [by apply small_size|lia|]. cbn beta iota.
  set (m := Z.to_nat VMBUNDLE_HEADER_SIZE). assert (m = 512)%nat as Hm by reflexivity. clearbody m.
  destruct (Z.ltb_spec 0 (Zlen (take m i))) as [Hpos|Hnone].
  - assert (0 < length i)%nat by (destruct i; [by rewrite take_nil in Hpos|cbn; lia]).
    assert (Zlen (take m i) <= 512) by (rewrite Zlen_take; lia).
    does_steps. apply does_write_bytes; [unfold HEAP_HI; lia|lia|unfold Zlen; rewrite length_take; lia|].
    rewrite Zlen_to_nat, firstn_all. apply IH; [rewrite length_drop; lia..|]. by rewrite <-app_assoc, take_drop.
  - apply does_ret. assert (i = []) as -> by (destruct i; [done|rewrite Zlen_take, Zlen_cons in Hnone; zlen; lia]).
    rewrite app_nil_r in HQ. by rewrite take_nil, drop_nil.
Qed.

(** ** The header *)

Lemma does_header_field data pre s t pos i o n (Q : option cstr -> list char -> list char -> Z -> Prop) X :
  data = pre ++ s ++ NUL :: t -> Zlen data = VMBUNDLE_HEADER_SIZE -> is_cstr s -> pos = Zlen pre ->
  Q (Some s) i o n -> does (header_field strerror data pos) i o n Q X.
Proof.
  intros -> Hlen Hs -> HQ. unfold header_field. apply does_bind. eapply does_access.
  { rewrite Zlen_to_nat, drop_app_length. by apply c_string_app. }
  unfold VMBUNDLE_HEADER_SIZE in *. zlen. rewrite sz_small32 by (unfold UINT_MAX; lia).
  destruct (Z.leb_spec (512 - Zlen pre) (Zlen s)); [lia|]. by apply does_ret.
Qed.

Lemma does_header_number title v i o (Q : option Z -> list char -> list char -> Z -> Prop) X :
  Q (Some v) i o 0 -> does (header_number strerror title v false) i o 0 Q X.
Proof. intros HQ. unfold header_number. apply does_bind, does_ret, does_bind, does_get_errno. by apply does_ret. Qed.

Lemma does_header_number_range title v i o (Q : option Z -> list char -> list char -> Z -> Prop) X :
  Q None i o ERANGE -> does (header_number strerror title v true) i o 0 Q X.
Proof.
  intros HQ. unfold header_number. apply does_bind, does_set_errno, does_bind, does_get_errno. cbn [ERANGE Z.eqb negb].
  does_steps. done.
Qed.

Lemma does_header_fields h says hdr i o (Q : Z * header_t -> list char -> list char -> Z -> Prop) X :
  header_is h says -> checksum hdr = None -> (forall b, says = Some b -> Q (0, b) i o 0) ->
  (says = None -> forall hdr', Q (-1, hdr') i o ERANGE) -> does (header_fields strerror h hdr) i o 0 Q X.
Proof.
  intros (v & c & nm & s & p & fill & Hh & Hlen & Htexts & Hsays) Hsum HQ Hbad. unfold header_says in Hsays.
  destruct (strtoul 10 v) as [[vv vrange] vrest] eqn:Hv, (strtoull s) as [sv srange] eqn:Hs, (strtoull p) as [pv prange] eqn:Hp.
  rewrite !list.Forall_cons in Htexts. destruct Htexts as (? & ? & ? & ? & ? & _).
  assert (Hnext : forall pre f t, h = pre ++ f ++ NUL :: t -> h = (pre ++ f ++ [NUL]) ++ t).
  { intros pre f t ->. by rewrite <-!app_assoc. }
  assert (Hpos : forall pre f pos, pos = Zlen pre -> pos + Zlen f + 1 = Zlen (pre ++ f ++ [NUL])).
  { intros pre f pos ->. zlen; lia. }
  unfold header_fields. pose proof (Hnext [] VMBUNDLE_MAGIC _ Hh) as Hh1. pose proof (Hpos [] VMBUNDLE_MAGIC 0 eq_refl) as Hp1.
  apply does_bind. eapply does_header_field; [exact Hh1|done|done|exact Hp1|]. rewrite Hv. apply does_bind.
  destruct vrange; [apply does_header_number_range, does_ret; by apply Hbad|].
  apply does_header_number. apply Hnext in Hh1. apply (Hpos _ v) in Hp1.
  apply does_bind. eapply does_header_field; [exact Hh1|done|done|exact Hp1|]. apply Hnext in Hh1. apply (Hpos _ c) in Hp1.
  apply does_bind. eapply does_header_field; [exact Hh1|done|done|exact Hp1|].
  apply does_bind, does_dup_str. { rewrite Hh1 in Hlen. unfold str_ok, VMBUNDLE_HEADER_SIZE, HEAP_HI in *. pose proof (Zlen_nonneg VMBUNDLE_MAGIC). zlen; lia. }
  apply Hnext in Hh1. apply (Hpos _ nm) in Hp1.
  apply does_bind. eapply does_header_field; [exact Hh1|done|done|exact Hp1|]. rewrite Hs. apply does_bind.
  destruct srange; [apply does_header_number_range, does_ret; by apply Hbad|].
  apply does_header_number. apply Hnext in Hh1. apply (Hpos _ s) in Hp1.
  apply does_bind. eapply does_header_field; [exact Hh1|done|done|exact Hp1|]. rewrite Hp. apply does_bind.
  destruct prange; [apply does_header_number_range, does_ret; by apply Hbad|].
  apply does_header_number, does_ret, HQ. rewrite <-Hsays. cbn [version checksum name size padded_size orb].
  destruct c as [|ch c]; [done|]. destruct (Z.eqb_spec (Zlen (ch :: c)) 0); [zlen; lia|]. cbn. by rewrite Hsum.
Qed.

(** The search in the buffer of the input [i]. *)
Lemma does_magic_loop_none k fuel i at_ hdr i' o n (Q : option (Z * header_t) -> list char -> list char -> Z -> Prop) X :
  (at_ + k <= magic_offsets)%nat -> (forall j, (at_ <= j < at_ + k)%nat -> ~ magic_at i j) ->
  Q None i' o n -> does (magic_loop strerror k fuel 0 (header_buffer i) (Z.of_nat at_) hdr) i' o n Q X.
Proof.
  revert at_. induction k as [|k IH]; intros at_ Hk Hno HQ; cbn [magic_loop]; [by apply does_ret|].
  rewrite Nat2Z.id, magic_at_buffer, bool_decide_eq_false_2 by (try apply Hno; lia).
  replace (Z.of_nat at_ + 1) with (Z.of_nat (S at_)) by lia. apply IH; [lia| |done]. intros j Hj. apply Hno. lia.
Qed.

Lemma does_magic_loop_found k fuel i at_ j hdr i' o n (Q : option (Z * header_t) -> list char -> list char -> Z -> Prop) X :
  (at_ + k <= magic_offsets)%nat -> (at_ <= j < at_ + k)%nat -> magic_at i j ->
  (forall j', (at_ <= j' < j)%nat -> ~ magic_at i j') ->
  does (header_at strerror fuel 0 (header_buffer i) (Z.of_nat j) hdr) i' o n (fun r => Q (Some r)) X ->
  does (magic_loop strerror k fuel 0 (header_buffer i) (Z.of_nat at_) hdr) i' o n Q X.
Proof.
  revert at_. induction k as [|k IH]; intros at_ Hk Hj Hm Hno HQ; [lia|]. cbn [magic_loop].
  rewrite Nat2Z.id, magic_at_buffer by lia. destruct (decide (at_ = j)) as [->|Hne].
  - rewrite bool_decide_eq_true_2 by done. apply does_bind. eapply does_mono; [exact HQ|]. intros r i1 o1 n1 HQ1. by apply does_ret.
  - rewrite bool_decide_eq_false_2 by (apply Hno; lia). replace (Z.of_nat at_ + 1) with (Z.of_nat (S at_)) by lia.
    apply IH; [lia|lia|done| |done]. intros j' Hj'. apply Hno. lia.
Qed.

Lemma header_is_length h says : header_is h says -> length h = 512%nat.
Proof. intros (? & ? & ? & ? & ? & ? & _ & Hlen & _). unfold Zlen, VMBUNDLE_HEADER_SIZE in Hlen. lia. Qed.

(** The rest of a header that does not start at offset 0 is read after it: the body is left. *)
Lemma does_header_at fuel i junk says body hdr o (Q : Z * header_t -> list char -> list char -> Z -> Prop) X :
  bundle_is i junk says body -> checksum hdr = None -> (length i + 1 < fuel)%nat ->
  (forall b, says = Some b -> Q (0, b) body o 0) -> (says = None -> forall hdr', Q (-1, hdr') body o ERANGE) ->
  does (header_at strerror fuel 0 (header_buffer i) (Z.of_nat (length junk)) hdr) (drop 512 i) o 0 Q X.
Proof.
  intros (h & -> & Hh & Hj & _) Hsum Hf HQ Hbad. change magic_offsets with 15%nat in Hj.
  pose proof (header_is_length _ _ Hh) as Hlen.
  assert (header_buffer (junk ++ h ++ body) = junk ++ take (512 - length junk) h) as ->.
  { unfold header_buffer. rewrite !length_app, Hlen.
    replace (512 - (length junk + (512 + length body)))%nat with 0%nat by lia. rewrite app_nil_r, take_app, (take_ge junk) by lia.
    f_equal. rewrite take_app_le by lia. done. }
  assert (drop 512 (junk ++ h ++ body) = drop (512 - length junk) h ++ body) as Hrest.
  { rewrite drop_app, (drop_ge junk) by lia. cbn [app]. by rewrite drop_app_le by lia. }
  rewrite Hrest. unfold header_at. does_steps. destruct (Z.ltb_spec 0 (Z.of_nat (length junk))) as [Hpos|Hzero].
  - apply does_bind, does_read_bytes; [apply small_size; lia|rewrite length_app, length_drop; rewrite !length_app in Hf; lia|].
    rewrite Nat2Z.id. assert (length (drop (512 - length junk) h) = length junk) as Hd by (rewrite length_drop; lia).
    set (tl := drop (512 - length junk) h) in *. rewrite (take_app_length' tl), (drop_app_length' tl) by done.
    unfold Zlen. rewrite Hd. cbn beta iota. destruct (Z.eqb_spec (Z.of_nat (length junk)) 0); [lia|]. zcase. rewrite sz_small32, Z.eqb_refl by (unfold UINT_MAX; lia). cbn [negb].
    rewrite drop_app_length. unfold tl. rewrite take_drop. by eapply does_header_fields.
  - destruct junk as [|c junk]; [|cbn in Hzero; lia]. cbn [length app Nat.sub]. rewrite take_ge, drop_ge by lia. cbn [app].
    by eapply does_header_fields.
Qed.

(** A header that is cut: the rest cannot be read, or is zeros. *)
Lemma does_header_at_cut fuel i k hdr o (Q : Z * header_t -> list char -> list char -> Z -> Prop) X :
  (k < magic_offsets)%nat -> magic_at i k -> Zlen i < (if decide (k = 0%nat) then 507 else 512 + Z.of_nat k) ->
  checksum hdr = None -> (length i + 1 < fuel)%nat ->
  (forall b, k = 0%nat -> header_is (header_buffer i) (Some b) -> Q (0, b) [] o 0) -> (forall hdr' i' n, Q (-1, hdr') i' o n) ->
  does (header_at strerror fuel 0 (header_buffer i) (Z.of_nat k) hdr) (drop 512 i) o 0 Q X.
Proof.
  intros Hk Hm Hcut Hsum Hf HQ Hbad. change magic_offsets with 15%nat in Hk. unfold header_at. does_steps. destruct (Z.ltb_spec 0 (Z.of_nat k)) as [Hpos|Hzero].
  - rewrite decide_False in Hcut by lia. apply does_bind, does_read_bytes; [apply small_size; lia|rewrite length_drop; lia|].
    cbn beta iota. set (got := take _ _). assert (0 <= Zlen got < Z.of_nat k) as Hgot.
    { split; [apply Zlen_nonneg|]. unfold got, Zlen in *. rewrite length_take, length_drop. lia. }
    destruct (Z.eqb_spec (Zlen got) 0); [does_steps; apply Hbad|]. zcase. rewrite sz_small32 by (unfold UINT_MAX; lia).
    destruct (Z.eqb_spec (Zlen got) (Z.of_nat k)); [lia|]. cbn [negb]. does_steps. apply Hbad.
  - assert (k = 0%nat) as -> by lia. rewrite decide_True in Hcut by done. rewrite drop_ge by (unfold Zlen in Hcut; lia).
    destruct (cut_buffer i Hm Hcut) as [says Hh]. eapply does_header_fields; [exact Hh|done| |].
    + intros b ->. by apply HQ.
    + intros _ hdr'. apply Hbad.
Qed.

Lemma does_get_header_at fuel i j hdr raw o n (Q : Z * header_t -> list char -> list char -> Z -> Prop) X :
  i <> [] -> (j < magic_offsets)%nat -> magic_at i j -> (forall j', (j' < j)%nat -> ~ magic_at i j') -> (length i + 1 < fuel)%nat ->
  does (header_at strerror fuel 0 (header_buffer i) (Z.of_nat j) hdr) (drop 512 i) o 0 Q X ->
  does (get_header strerror fuel 0 hdr raw) i o n Q X.
Proof.
  intros Hi Hj Hm Hno Hf HQ. unfold get_header. does_steps. apply does_read_bytes; [by apply small_size|lia|].
  change (Z.to_nat VMBUNDLE_HEADER_SIZE) with 512%nat. cbn beta iota. assert (0 < Zlen i) by (destruct i; [done|zlen; lia]).
  assert (Zlen (take 512 i) = Z.min 512 (Zlen i)) as Hn by (by rewrite Zlen_take). rewrite Hn.
  destruct (Z.eqb_spec (Z.min 512 (Zlen i)) 0); [lia|]. zcase. does_steps.
  replace (take 512 i ++ _) with (header_buffer i)
    by (unfold header_buffer; do 2 f_equal; unfold VMBUNDLE_HEADER_SIZE, Zlen in *; lia).
  change (length VMBUNDLE_MAGIC + 1)%nat with magic_offsets. change 0 with (Z.of_nat 0) at 2.
  apply (does_magic_loop_found _ _ _ _ j); [done|lia|done|intros j' Hj'; apply Hno; lia|].
  eapply does_mono; [exact HQ|]. intros r i' o' n' Hr. by apply does_ret.
Qed.

Lemma does_get_header_found fuel i junk says body hdr raw o n (Q : Z * header_t -> list char -> list char -> Z -> Prop) X :
  bundle_is i junk says body -> checksum hdr = None -> (length i + 1 < fuel)%nat ->
  (forall b, says = Some b -> Q (0, b) body o 0) -> (says = None -> forall hdr', Q (-1, hdr') body o ERANGE) ->
  does (get_header strerror fuel 0 hdr raw) i o n Q X.
Proof.
  intros Hb Hsum Hf HQ Hbad. pose proof Hb as (h & Hi & Hh & Hj & Hno). pose proof (header_is_length _ _ Hh) as Hlen.
  apply (does_get_header_at _ _ (length junk)); [|exact Hj| |exact Hno|exact Hf|].
  - intros Hnil. rewrite Hnil in Hi. apply (f_equal length) in Hi. rewrite !length_app, Hlen in Hi. cbn in Hi. lia.
  - destruct Hh as (v & c & nm & s & p & fill & Hh & _). unfold magic_at. rewrite Hi, drop_app_length, Hh.
    unfold header_text. rewrite <-app_assoc. apply c_text_app_nul. by_decide.
  - by eapply does_header_at.
Qed.

Lemma does_get_header_raw fuel i hdr o n (Q : Z * header_t -> list char -> list char -> Z -> Prop) X :
  i <> [] -> (forall k, (k < magic_offsets)%nat -> ~ magic_at i k) -> (length i + 1 < fuel)%nat ->
  Q (-2, hdr) [] (o ++ i) 0 -> does (get_header strerror fuel 0 hdr true) i o n Q X.
Proof.
  intros Hi Hno Hf HQ. unfold get_header. does_steps. apply does_read_bytes; [by apply small_size|lia|].
  change (Z.to_nat VMBUNDLE_HEADER_SIZE) with 512%nat. cbn beta iota.
  assert (0 < Zlen i) by (destruct i; [done|zlen; lia]).
  assert (Zlen (take 512 i) = Z.min 512 (Zlen i)) as Hn by (by rewrite Zlen_take). rewrite Hn. destruct (Z.eqb_spec (Z.min 512 (Zlen i)) 0); [lia|]. zcase. does_steps.
  replace (take 512 i ++ _) with (header_buffer i)
    by (unfold header_buffer; do 2 f_equal; unfold VMBUNDLE_HEADER_SIZE, Zlen in *; lia).
  change (length VMBUNDLE_MAGIC + 1)%nat with magic_offsets. change 0 with (Z.of_nat 0) at 2.
  apply does_magic_loop_none; [done|intros j Hj; apply Hno; lia|]. does_steps.
  apply does_write_bytes; [unfold HEAP_HI; lia|unfold header_buffer; rewrite Zlen_app, Hn; zlen; lia|unfold Zlen in *; lia|].
  apply does_bind, does_raw_loop; [rewrite length_drop; lia..|].
  replace (take _ (header_buffer i)) with (take 512 i).
  2:{ unfold header_buffer. rewrite <-Hn, Zlen_to_nat. by rewrite take_app_length. }
  rewrite <-app_assoc, take_drop. by apply does_ret.
Qed.

(** After the header [get_header] leaves standard input at the first byte of the body, which is
    what [zfs receive] reads, wherever in the first 15 bytes the magic was and however the kernel
    cuts the input; nothing is written. *)
Theorem get_header_finds fuel junk b body hdr raw w :
  bundle (vm_in (w_env w)) junk b body -> checksum hdr = None -> good w -> (length (vm_in (w_env w)) + 1 < fuel)%nat ->
  wp (get_header strerror fuel 0 hdr raw) (fun r w' =>
    r = (0, b) /\ vm_in (w_env w') = body /\ vm_out (w_env w') = vm_out (w_env w)) w.
Proof.
  intros Hb Hsum Hw Hf. unfold wp.
  assert (does (get_header strerror fuel 0 hdr raw) (vm_in (w_env w)) (vm_out (w_env w)) (w_errno w)
    (fun r i o n => r = (0, b) /\ i = body /\ o = vm_out (w_env w)) never) as Hdoes
    by (eapply does_get_header_found; [exact Hb|done|done|by intros ? [= ->]|done]).
  specialize (Hdoes w ltac:(done)). destruct (get_header _ _ _ _ _ w) as [[r w']| | |]; [|done..].
  destruct Hdoes as (i & o & n & (? & <- & <- & _) & Hr). exact Hr.
Qed.

(** ** The program *)

(** The body, which may be too short whatever its size is said to be. *)
Lemma does_read_json fuel b body o n (Q : list char -> list char -> list char -> Z -> Prop) (X : Z -> Prop) :
  0 <= padded_size b <= SIZE_MAX -> (length body + 1 < fuel)%nat ->
  (padded_size b = 0 \/ Zlen body < padded_size b -> X 1) ->
  (0 < padded_size b -> padded_size b <= Zlen body ->
    padded_size b <= HEAP_HI /\ forall i, Q (take (Z.to_nat (padded_size b)) body) i o n) ->
  does (read_json strerror fuel b) body o n Q X.
Proof.
  intros Hp Hf HX HQ. pose proof (Zlen_nonneg body). apply does_bind.
  assert (Hgot : does (let got := take (Z.to_nat (padded_size b)) body in
      '(nread, data) ← read_bytes strerror fuel 0 (padded_size b);
      if nread =? 0 then eprint (cs "EOF reading JSON" ++ [LF]) ;; c_exit 1
      else if nread <? 0 then eprint (cs "Error " ++ print_d nread ++ cs " reading JSON" ++ [LF]) ;; c_exit 1
      else if negb (sz nread =? padded_size b) then
        eprint (cs "JSON truncated: " ++ print_u nread ++ cs " of " ++ print_u (padded_size b) ++ cs " bytes" ++ [LF]) ;; c_exit 1
      else mret data) body o n Q X).
  { cbn zeta. apply does_bind, does_read_bytes; [done|done|]. cbn beta iota. set (got := take _ body).
    assert (Zlen got = Z.min (padded_size b) (Zlen body)) as Hn by (unfold got; rewrite Zlen_take; lia). rewrite Hn.
    destruct (Z.eqb_spec (Z.min (padded_size b) (Zlen body)) 0); [does_steps; apply does_exit, HX; lia|].
    zcase. rewrite sz_small by lia.
    destruct (Z.eqb_spec (Z.min (padded_size b) (Zlen body)) (padded_size b)) as [He|He]; cbn [negb].
    - apply does_ret, HQ; lia.
    - does_steps. apply does_exit, HX. lia. }
  destruct (decide (padded_size b = 0 \/ Zlen body < padded_size b)) as [Hshort|Hfull].
  - apply does_malloc_any; [lia|by intros a|]. does_steps. by apply does_exit, HX.
  - destruct HQ as [Hmax _]; [lia|lia|]. apply does_malloc; [lia|]. by intros a.
Qed.

Lemma header_is_sizes h b : header_is h (Some b) -> exists nm, name b = Some nm /\ 0 <= padded_size b <= SIZE_MAX.
Proof.
  intros (v & c & nm & s & p & fill & _ & _ & _ & Hsays). unfold header_says in Hsays.
  destruct (strtoul 10 v) as [[vv vrange] vrest], (strtoull s) as [sv srange], (strtoull p) as [pv prange].
  destruct (_ || _); [done|]. injection Hsays as <-. cbn [name padded_size]. exists nm. split; [done|]. apply sz_range.
Qed.

(** What follows a header. *)
Definition after_header (fuel : nat) (b : header_t) : C E Z :=
  name ← c_access (name b);
  eprint (cs "Name: [" ++ name ++ cs "]" ++ [LF]) ;;
  eprint (cs "Size: " ++ print_u (size b) ++ [LF]) ;;
  eprint (cs "Padded Size: " ++ print_u (padded_size b) ++ [LF]) ;;
  if strcmp (cs "JSON") name =? 0 then
    json ← read_json strerror fuel b;
    _ ← write_bytes strerror fuel 1 json (size b);
    _ ← sys "fsync" [AZ 1];
    eprint (cs "END JSON" ++ [LF]) ;; mret 0
  else eprint (cs "FATAL: expecting JSON, got '" ++ name ++ cs "'" ++ [LF]) ;; mret 1.

Lemma does_no_json fuel b body o n (X : Z -> Prop) :
  is_Some (name b) -> name b <> Some (cs "JSON") -> does (after_header fuel b) body o n (fun st _ o' _ => st = 1 /\ o' = o) X.
Proof.
  intros [nm Hn] Hne. apply does_bind. eapply does_access; [exact Hn|]. does_steps.
  destruct (Z.eqb_spec (strcmp (cs "JSON") nm) 0) as [He|He]; [|by does_steps].
  apply strcmp_eq in He as <-. done.
Qed.

Lemma does_short fuel b body o n (Q : Z -> list char -> list char -> Z -> Prop) (X : Z -> Prop) :
  name b = Some (cs "JSON") -> 0 <= padded_size b <= SIZE_MAX -> padded_size b = 0 \/ Zlen body < padded_size b ->
  (length body + 1 < fuel)%nat -> X 1 -> does (after_header fuel b) body o n Q X.
Proof.
  intros Hn Hmax Hshort Hf HX. apply does_bind. eapply does_access; [exact Hn|]. does_steps.
  rewrite (proj2 (strcmp_eq _ _) eq_refl). cbn [Z.eqb]. apply does_bind, does_read_json; [done|done|done|lia].
Qed.

Lemma does_json_body fuel b body o n (X : Z -> Prop) :
  name b = Some (cs "JSON") -> 0 <= size b <= padded_size b -> 0 < padded_size b <= HEAP_HI -> padded_size b <= SIZE_MAX ->
  padded_size b <= Zlen body -> (length body + 1 < fuel)%nat ->
  does (after_header fuel b) body o n (fun st _ o' _ => st = 0 /\ o' = o ++ take (Z.to_nat (size b)) body) X.
Proof.
  intros Hn Hs Hp Hmax Hle Hf. apply does_bind. eapply does_access; [exact Hn|]. does_steps.
  rewrite (proj2 (strcmp_eq _ _) eq_refl). cbn [Z.eqb]. apply does_bind, does_read_json; [lia|lia|lia|]. intros _ _. split; [lia|]. intros i'. does_steps.
  apply does_write_bytes; [lia|rewrite Zlen_take; lia|unfold Zlen in *; lia|]. unfold sys.
  apply does_bind, does_bind, does_syscall. intros e r e' Hin Hout Hsync. apply does_ret. does_steps.
  split; [done|]. apply vm_fsync in Hsync as [_ ->]. by rewrite Hout, take_take, Nat.min_l by lia.
Qed.

(** A computation whose behaviour is undefined. *)
Definition overreads {A} (m : C E A) i o n : Prop := forall w, vm_at i o n w -> m w = Undefined.

Lemma overreads_bind {A B} (m : C E A) (k : A -> C E B) i o n :
  does m i o n (fun a i o n => overreads (k a) i o n) never -> overreads (m ≫= k) i o n.
Proof.
  intros Hm w Hw. specialize (Hm w Hw). unfold mbind, C_bind. destruct (m w) as [[a w']| | |]; [|done..].
  destruct Hm as (i' & o' & n' & Hw' & Hk). by apply Hk.
Qed.

Lemma after_header_overreads fuel b body o n :
  name b = Some (cs "JSON") -> padded_size b < size b -> 0 < padded_size b <= HEAP_HI -> padded_size b <= SIZE_MAX ->
  padded_size b <= Zlen body -> (length body + 1 < fuel)%nat -> overreads (after_header fuel b) body o n.
Proof.
  intros Hn Hs Hp Hmax Hle Hf. apply overreads_bind. eapply does_access; [exact Hn|].
  do 3 (apply overreads_bind, does_eprint). rewrite (proj2 (strcmp_eq _ _) eq_refl). cbn [Z.eqb].
  apply overreads_bind, does_read_json; [lia|lia|lia|]. intros _ _. split; [lia|]. intros i' w Hw. apply bind_undefined, bind_undefined.
  destruct fuel as [|fuel]; [done|]. cbn [write_loop]. destruct (Z.ltb_spec 0 (size b)); [|lia].
  assert (Zlen (take (Z.to_nat (padded_size b)) body) = padded_size b) as -> by (rewrite Zlen_take; lia).
  by rewrite (proj2 (Z.leb_gt (0 + size b) _)), andb_false_r by lia.
Qed.

(** [run_mode] after [get_header], which found no header or found one. *)
Lemma does_run_mode fuel i hdr o n (Q : Z -> list char -> list char -> Z -> Prop) X :
  does (get_header strerror fuel 0 hdr true) i o n (fun r i' o' n' =>
    (r.1 = -1 /\ forall n, Q 1 i' o' n) \/ exists b, r = (0, b) /\ does (after_header fuel b) i' o' n' Q X) X ->
  does (run_mode strerror fuel JSON hdr) i o n Q X.
Proof.
  intros Hg. unfold run_mode. rewrite bool_decide_eq_true_2 by done. apply does_bind. eapply does_mono; [exact Hg|].
  intros [res hdr'] i' o' n' [[Hr HQ]|(b & [= -> ->] & Hk)].
  - cbn in Hr. subst res. cbn [Z.eqb Pos.eqb orb]. does_steps. apply HQ.
  - cbn [Z.eqb Z.ltb Z.compare orb andb negb]. apply does_bind, does_eprint. exact Hk.
Qed.

Lemma bundle_facts i junk b body : bundle i junk b body ->
  is_Some (name b) /\ 0 <= padded_size b <= SIZE_MAX /\ (length body <= length i)%nat.
Proof.
  intros (h & -> & Hh & _). apply header_is_sizes in Hh as (nm & Hn & Hp). rewrite !length_app.
  split_and!; [by exists nm|lia..].
Qed.

(** The header of a bundle, and what follows. *)
Lemma does_run_bundle fuel i junk b body hdr o n (Q : Z -> list char -> list char -> Z -> Prop) X :
  bundle i junk b body -> checksum hdr = None -> (length i + 1 < fuel)%nat ->
  does (after_header fuel b) body o 0 Q X -> does (run_mode strerror fuel JSON hdr) i o n Q X.
Proof.
  intros Hb Hsum Hf Hk. eapply does_run_mode, does_get_header_found; [exact Hb|done|done| |done].
  intros ? [= <-]. right. by exists b.
Qed.

Lemma does_run_cut fuel i hdr o n (X : Z -> Prop) : header_cut i -> checksum hdr = None -> (length i + 1 < fuel)%nat -> X 1 ->
  does (run_mode strerror fuel JSON hdr) i o n (fun st' _ o' _ => st' = 1 /\ o' = o ++ []) X.
Proof.
  intros (k & Hk & Hm & Hno & Hcut) Hsum Hf HX. assert (Hi : i <> []) by (intros ->; unfold magic_at in Hm; by rewrite drop_nil in Hm).
  eapply does_run_mode, does_get_header_at; [done|done|done|done|done|]. apply does_header_at_cut; [done..| |intros hdr' i' n'; left; split; [done|]; intros n2; by rewrite app_nil_r].
  intros b -> Hh. right. exists b. split; [done|]. apply header_is_sizes in Hh as (nm & Hn & Hp).
  destruct (decide (name b = Some (cs "JSON"))) as [Hj|Hj].
  - apply does_short; [done|done|change (Zlen []) with 0; lia|cbn; lia|done].
  - eapply does_mono; [apply does_no_json; [by exists nm|done]|]. intros st i' o' n' [-> ->]. by rewrite app_nil_r.
Qed.

Lemma does_run_json fuel i st out hdr o n (X : Z -> Prop) :
  json_result i (VmExit st out) -> checksum hdr = None -> (length i + 1 < fuel)%nat -> (st <> 0 -> X st) ->
  does (run_mode strerror fuel JSON hdr) i o n (fun st' _ o' _ => st' = st /\ o' = o ++ out) X.
Proof.
  intros Hj Hsum Hf HX. inversion Hj as [Hi Hr|Hi Hno Hr|junk b body Hb Hname Hs Hp Hle Hr| |junk b body Hb Hname Hshort Hr
    |junk b body Hb Hname Hr|junk body Hb Hr|Hcut Hr]; clear Hj; subst; try (pose proof (bundle_facts _ _ _ _ Hb) as (Hn & Hmax & Hlen)).
  - unfold run_mode, get_header. rewrite bool_decide_eq_true_2 by done. apply does_bind. does_steps.
    apply does_read_bytes; [by apply small_size|done|]. rewrite take_nil, drop_nil, Zlen_nil. cbn [Z.eqb].
    does_steps. cbn [Z.eqb Z.ltb Z.compare orb Pos.eqb]. does_steps. by rewrite app_nil_r.
  - unfold run_mode. rewrite bool_decide_eq_true_2 by done. apply does_bind.
    eapply does_get_header_raw; [done..|]. cbn [Z.eqb Z.ltb Z.compare orb andb Pos.eqb]. does_steps. done.
  - eapply does_run_bundle; [done..|]. apply does_json_body; [done|done|done|lia|done|lia].
  - eapply does_run_bundle; [done..|]. apply does_short; [done|done|done|lia|by apply HX].
  - eapply does_run_bundle; [done..|]. eapply does_mono; [by apply does_no_json|]. intros st' i' o' n' [-> ->]. by rewrite app_nil_r.
  - eapply does_run_mode, does_get_header_found; [exact Hb|done|done|done|]. intros _ hdr'. left. split; [done|]. intros n2. by rewrite app_nil_r.
  - apply does_run_cut; [done..|by apply HX].
Qed.

Lemma run_json_overreads fuel i hdr o n :
  json_result i VmOverread -> checksum hdr = None -> (length i + 1 < fuel)%nat -> overreads (run_mode strerror fuel JSON hdr) i o n.
Proof.
  intros Hj Hsum Hf. inversion Hj as [| | |junk b body Hb Hname Hs Hp Hle Hr| | | |]. pose proof (bundle_facts _ _ _ _ Hb) as (Hn & Hmax & Hlen).
  unfold run_mode. rewrite bool_decide_eq_true_2 by done. apply overreads_bind.
  eapply does_get_header_found; [exact Hb|done|done| |done]. intros ? [= <-]. cbn [Z.eqb Z.ltb Z.compare orb andb negb].
  apply overreads_bind, does_eprint. apply after_header_overreads; [done|done|done|lia|done|lia].
Qed.

(** A run ends this way; what a process that exits has written is not in its end. *)
Definition ends_as (m : C E Z) (r : vm_end) w : Prop :=
  match m w, r with
  | Done (st', w'), VmExit st out => st' = st /\ vm_out (w_env w') = vm_out (w_env w) ++ out
  | Exited st', VmExit st _ => st' = st /\ st <> 0
  | Undefined, VmOverread => True
  | _, _ => False
  end.

(** C25: [vmunbundle json] on the inputs of [json_result]: the body of a bundle without its padding
    is copied to standard output; input that has no header is copied as it is; without input the
    status is 3; a body shorter than its padded size or of padded size 0, a bundle of something
    else, a number out of range and a header that is cut short make it exit with status 1; a bundle
    whose size is greater than its padded size makes it read beyond the block of the body.  This
    holds however the kernel cuts the reads and the writes.  Not among the inputs are a header with
    a text that does not end within its 512 bytes and a complete body of more than 1 GB. *)
Theorem vmunbundle_json fuel prog w r :
  json_result (vm_in (w_env w)) r -> good w -> (length (vm_in (w_env w)) + 1 < fuel)%nat ->
  ends_as (main strerror fuel [prog; cs "json"]) r w.
Proof.
  intros Hj Hw Hf. unfold ends_as, main. rewrite (proj2 (strcmp_eq _ _) eq_refl). cbn [Z.eqb]. destruct r as [st out|].
  - pose proof (does_run_json fuel _ _ _ (Header 0 None None 0 0) (vm_out (w_env w)) (w_errno w) (fun s => s = st /\ st <> 0)
      Hj eq_refl Hf ltac:(done) w ltac:(done)) as Hdoes.
    destruct (run_mode _ _ _ _ w) as [[st' w']| | |]; [|done..]. by destruct Hdoes as (i & o & n & (_ & _ & <- & _) & Hr).
  - by rewrite (run_json_overreads fuel _ (Header 0 None None 0 0) (vm_out (w_env w)) (w_errno w) Hj eq_refl Hf w ltac:(done)).
Qed.

(** When the first [write] fails [write_bytes] does not return an error: it counts the -1 as
    progress and goes on to write from before the buffer. *)
Theorem write_bytes_failed_write fuel fd buf bytes w r e :
  0 < bytes <= Zlen buf -> bytes < HEAP_HI ->
  sys_step "write" [AZ fd; AS (take (Z.to_nat bytes) buf)] (w_env w) = (r, e) -> sr_ret r = -1 ->
  write_bytes strerror fuel fd buf bytes w = Undefined.
Proof.
  intros Hb Hmax Hs Hr. apply bind_undefined. destruct fuel as [|[|fuel]]; [done|..]; cbn [write_loop];
    destruct (Z.ltb_spec 0 bytes); [|lia| |lia]; replace ((0 <=? 0) && _) with true by (symmetry; lia);
    unfold sys, syscall, mbind, C_bind; rewrite drop_0, Hs, Hr; cbn; [done|].
  rewrite sz_small32 by (unfold UINT_MAX, HEAP_HI in *; lia). by destruct (Z.ltb_spec 0 (bytes - -1)); [|lia].
Qed.
End spec.

(** ** A run *)

(** A kernel that delivers at most 100 bytes and takes at most 7. *)
Record vm_pipes := VmPipes { vp_in : list char; vp_out : list char }.

#[export] Instance vm_pipes_kernel : Kernel vm_pipes := fun name args e =>
  match args with
  | [AZ _; AZ n] =>
      let k := Nat.min (Z.to_nat n) 100 in
      (SysRet (Zlen (take k (vp_in e))) 0 (take k (vp_in e)) [], VmPipes (drop k (vp_in e)) (vp_out e))
  | [AZ _; AS s] => (SysRet (Zlen (take 7 s)) 0 [] [], VmPipes (vp_in e) (vp_out e ++ take 7 s))
  | _ => (SysRet 0 0 [] [], e)
  end.

#[export] Instance vm_pipes_env : VmEnv vm_pipes.
Proof.
  refine {| vm_in := vp_in; vm_out := vp_out |}.
  - intros n e r e' Hn Hs. injection Hs as <- <-. unfold Zlen. cbn [sr_ret sr_data vp_in vp_out].
    split_and!; [done|by rewrite <-(take_drop (Nat.min (Z.to_nat n) 100) (vp_in e)) at 1|done|rewrite length_take; lia|].
    intros Hi. destruct (vp_in e) as [|c i]; [done|]. rewrite length_take. cbn [length]. lia.
  - intros s e r e' Hs Hw. injection Hw as <- <-. unfold Zlen. cbn [sr_ret sr_data vp_in vp_out]. rewrite Nat2Z.id.
    split_and!; [done| |destruct s; [done|rewrite length_take; cbn [length]; lia]|rewrite length_take; lia].
    f_equal. rewrite length_take. destruct (Nat.min_spec 7 (length s)) as [[? ->]|[? ->]]; [done|by rewrite !take_ge by lia].
  - intros e r e' Hs. by injection Hs as <- <-.
Defined.

#[local] Existing Instance LP64.

Definition sample_body : list char := cs "[1,2]" ++ replicate 3 NUL.
Definition sample_header : list char :=
  header_text (cs "1") [] (cs "JSON") (cs "5") (cs "8") (replicate 485 NUL).
Definition sample_bundle : list char := cs "xx" ++ sample_header ++ sample_body.
Definition sample_strerror (e : Z) : cstr := cs "Error " ++ print_d e.
Definition sample_fields : header_t := Header 1 (Some (cs "0")) (Some (cs "JSON")) 5 8.
Definition sample_world : world vm_pipes := World 0 [] [] (VmPipes sample_bundle []).

Example sample_unbundled :
  match main sample_strerror 700 [cs "vmunbundle"; cs "json"] sample_world with
  | Done (st, w) => (st, vp_out (w_env w)) = (0, cs "[1,2]")
  | _ => False
  end.
Proof. vm_compute. reflexivity. Qed.

Lemma sample_is_bundle : bundle sample_bundle (cs "xx") sample_fields sample_body.
Proof.
  exists sample_header. split_and!; [done| |by vm_compute; lia|].
  - exists (cs "1"), [], (cs "JSON"), (cs "5"), (cs "8"), (replicate 485 NUL). split_and!; try by vm_compute. by_decide.
  - assert (Forall (fun k => ~ magic_at sample_bundle k) (seq 0 2)) as Hno by by_decide.
    rewrite Forall_forall in Hno. intros k Hk. apply Hno, in_seq. cbn in *. lia.
Qed.

Lemma get_header_finds_witness :
  wp (get_header sample_strerror 700 0 (Header 0 None None 0 0) false) (fun r w' =>
    r = (0, sample_fields) /\ vm_in (w_env w') = sample_body /\ vm_out (w_env w') = vm_out (w_env sample_world)) sample_world.
Proof.
  apply (get_header_finds sample_strerror 700 (cs "xx") sample_fields sample_body (Header 0 None None 0 0) false sample_world);
     [apply sample_is_bundle|done|by split; constructor|by_decide].
Defined.

(** The bundle; its first 100 bytes; and a bundle that says its body is longer than its block. *)
Definition pipes_of (i : list char) : world vm_pipes := World 0 [] [] (VmPipes i []).
Definition long_header : list char := header_text (cs "1") [] (cs "JSON") (cs "9") (cs "8") (replicate 485 NUL).

Lemma vmunbundle_json_witness :
  let json := main sample_strerror 700 [cs "vmunbundle"; cs "json"] in
  ends_as json (VmExit 0 (cs "[1,2]")) sample_world /\ ends_as json (VmExit 1 []) (pipes_of (take 100 sample_bundle)) /\
  ends_as json VmOverread (pipes_of (long_header ++ sample_body)).
Proof.
  split_and!; (apply (vmunbundle_json sample_strerror 700 (cs "vmunbundle")); [|split; constructor|by_decide]).
  - apply (json_body _ (cs "xx") sample_fields sample_body); [apply sample_is_bundle|done|by vm_compute|by vm_compute|by vm_compute].
  - apply json_cut. exists 2%nat. split_and!; [by_decide|by vm_compute| |by vm_compute].
    assert (Forall (fun k => ~ magic_at (take 100 sample_bundle) k) (seq 0 2)) as Hno by by_decide.
    rewrite Forall_forall in Hno. intros k Hk. apply Hno, in_seq. lia.
  - apply (json_overread _ [] (Header 1 (Some (cs "0")) (Some (cs "JSON")) 9 8) sample_body);
      [|by vm_compute|by vm_compute|by vm_compute|by vm_compute].
    exists long_header. split_and!; [done| |by vm_compute; lia|intros k Hk; cbn in Hk; lia].
    exists (cs "1"), [], (cs "JSON"), (cs "9"), (cs "8"), (replicate 485 NUL). split_and!; try by vm_compute. by_decide.
Defined.

(** A standard output that is closed. *)
Definition closed_kernel : Kernel () := fun name args e => (SysRet (-1) 9 [] [], e).

Lemma write_bytes_failed_write_witness :
  write_bytes (H := closed_kernel) sample_strerror 100 1 (cs "abc") 3 (World 0 [] [] tt) = Undefined.
Proof.
  apply (write_bytes_failed_write (H := closed_kernel) _ _ _ _ _ _ (SysRet (-1) 9 [] []) tt); done.
Defined.
