(* ===== verification/NvRead.v ===== *)
(** * NvRead: reading nvlists

    The functions of libnvpair by which [dockerinit] and its neighbours walk over the lists it parsed.  [nv_reads h l
    e]: in the environment [e] the pointer [h] leads to a list with the pairs [l].  Reading changes
    nothing.  NvStore has an instance. *)
From Stdlib Require Import Lia.
From S2P Require Import Prelude Nvlist.

Definition DATA_TYPE_NVLIST : Z := 19.

Class NvRead (E : Type) `{Nvlist E} := {
  nvpair_t : Type;
  nvlist_next_nvpair : nvlist_t -> option nvpair_t -> C E (option nvpair_t);
  nvpair_name : nvpair_t -> C E cstr;
  nvpair_type : nvpair_t -> C E Z;
  nvpair_value_nvlist : nvpair_t -> C E (Z * option nvlist_t);
  nvlist_lookup_boolean_value : nvlist_t -> cstr -> C E (Z * option bool)
}.

(** The list a value is, if it is one. *)
Definition nv_list_of (v : nvval) : option nvpairs := match v with NvNvlist l => Some l | _ => None end.

(** A function that only reads: it returns [a], such that [P a]. *)
Definition only_reads {E A} (m : C E A) (w : world E) (P : A -> Prop) : Prop :=
  wp m (fun a w' => good w' /\ w_env w' = w_env w /\ P a) w.

Class NvReadLaws (E : Type) `{NR : NvRead E} `{NL : !NvlistLaws E} := {
  nv_reads : nvlist_t -> nvpairs -> E -> Prop;
  nv_pair : nvlist_t -> nat -> nvpair_t;
  nv_open_reads h l e : nv_open None [(h, [], l)] e -> nv_reads h l e;
  nv_next_first h l w : good w -> nv_reads h l (w_env w) ->
    only_reads (nvlist_next_nvpair h None) w (fun p => p = if decide (l = []) then None else Some (nv_pair h 0));
  nv_next h l i w : good w -> nv_reads h l (w_env w) -> (i < length l)%nat ->
    only_reads (nvlist_next_nvpair h (Some (nv_pair h i))) w (fun p =>
      p = if decide (S i < length l)%nat then Some (nv_pair h (S i)) else None);
  nv_name h l i k v w : good w -> nv_reads h l (w_env w) -> l !! i = Some (k, v) ->
    only_reads (nvpair_name (nv_pair h i)) w (fun n => n = k);
  nv_type h l i k v w : good w -> nv_reads h l (w_env w) -> l !! i = Some (k, v) ->
    only_reads (nvpair_type (nv_pair h i)) w (fun t => t = DATA_TYPE_NVLIST <-> is_Some (nv_list_of v));
  nv_value h l i k l' w : good w -> nv_reads h l (w_env w) -> NoDup l.*1 -> l !! i = Some (k, NvNvlist l') ->
    only_reads (nvpair_value_nvlist (nv_pair h i)) w (fun r => r.1 = 0 /\ exists h', r.2 = Some h' /\ nv_reads h' l' (w_env w));
  nv_read_string h l k w : good w -> nv_reads h l (w_env w) ->
    only_reads (nvlist_lookup_string h k) w (fun r =>
      match nv_find k l with Some (NvString s) => r = (0, Some s) | _ => r.1 <> 0 end);
  nv_read_uint32 h l k w : good w -> nv_reads h l (w_env w) ->
    only_reads (nvlist_lookup_uint32 h k) w (fun r =>
      match nv_find k l with Some (NvUint32 z) => r = (0, Some z) | _ => r.1 <> 0 end);
  nv_read_boolean h l k w : good w -> nv_reads h l (w_env w) ->
    only_reads (nvlist_lookup_boolean_value h k) w (fun r =>
      match nv_find k l with Some (NvBooleanValue b) => r = (0, Some b) | _ => r.1 <> 0 end);
  nv_read_nvlist h l k w : good w -> nv_reads h l (w_env w) ->
    only_reads (nvlist_lookup_nvlist h k) w (fun r =>
      match nv_find k l with
      | Some (NvNvlist l') => r.1 = 0 /\ exists h', r.2 = Some h' /\ nv_reads h' l' (w_env w)
      | _ => r.1 <> 0
      end)
}.
