(* ===== verification/Dockerinit.v ===== *)
(** * Dockerinit: the init of a container, [dockerinit/src/dockerinit.c]

    The program that sets up the network, the descriptors and the logger of a container and then
    becomes its command.  The kernel and the system libraries (libipadm, libcontract, doors) are
    those of [Sys]: a call is its name and its arguments, and flags and requests are given by
    name.  Parsing of addresses is a parameter ([Inet]).  The globals are arguments and results:
    [iph], [log_fd], [hostname], [pwd], [grp].  An [execve] that succeeds replaces the program:
    in the process of the container [main] returns, in a child it is the end ([c_exit 0]). *)
From Stdlib Require Import Lia.
From S2P Require Import Prelude Custr Strlist Cnum Strset Sys Mdata Nvlist NvRead Json Docker Tools.

Definition DOCKER_LOGGER : cstr := cs "/lib/sdc/docker/logger".
Definition IPMGMTD : cstr := cs "/lib/inet/ipmgmtd".
Definition IPMGMTD_DOOR : cstr := cs "/etc/svc/volatile/ipadm/ipmgmt_door".
Definition NFS_MOUNT : cstr := cs "/usr/lib/fs/nfs/mount".
Definition LOGFILE : cstr := cs "/var/log/sdc-dockerinit.log".
Definition ATTACH_CHECK_INTERVAL : Z := 200000.
Definition ZFD_OPEN_RETRIES : Z := 300.
Definition B_START_NFS_LOCKD : Z := 131.

Definition MAXPATHLEN : Z := 1024.
Definition BUFSIZ : Z := 1024.
Definition LIFNAMSIZ : Z := 32.
Definition ENOENT : Z := 2.
Definition IFF_UP : Z := 1.

Inductive brand_t := BRAND_LX | BRAND_JOYENT_MINIMAL.

(** The logger's variables and the metadata they are from. *)
Definition logger_vars : list (cstr * cstr) :=
  [(cs "DOCKERLOG_CONFIG", cs "docker:logconfig"); (cs "DOCKERLOG_CONTAINERID", cs "docker:id");
   (cs "DOCKERLOG_CONTAINERNAME", cs "sdc:alias"); (cs "DOCKERLOG_CREATETIME", cs "sdc:create_timestamp");
   (cs "DOCKERLOG_IMAGEID", cs "docker:imageid"); (cs "DOCKERLOG_IMAGENAME", cs "docker:imagename");
   (cs "DOCKERLOG_ENTRYPOINT", cs "docker:entrypoint"); (cs "DOCKERLOG_CMD", cs "docker:cmd")].

(** Addresses and masks of [AF_INET], and the messages of libipadm. *)
Class Inet := {
  inet_pton : cstr -> option Z;
  mask2plen : Z -> Z;
  plen2mask : Z -> option Z;
  ipadm_status2str : Z -> cstr
}.

(** The part of a [char] array of size [n] that [snprintf] and [strlcpy] fill. *)
Definition fits (n : Z) (s : cstr) : cstr := take (Z.to_nat (n - 1)) s.

Section dockerinit.
Context {E : Type} `{Metadata E} `{NvRead E} `{Kernel E} `{Accounts} `{Inet} `{DM : DataModel} (strerror : Z -> cstr).

(** [fatal] with the text of [errno], and as a guard. *)
Definition fatal_errno {A} (code : dockerinit_err) (msg : cstr) : C E A :=
  e ← get_errno; fatal code (msg ++ cs ": " ++ strerror e).
Definition check (ok : bool) (code : dockerinit_err) (msg : cstr) : C E () :=
  if ok then mret tt else fatal_errno code msg.

Definition WARNLOG (func : string) (msg : cstr) : C E () := dlog (cs "WARN " ++ cs func ++ cs ": " ++ msg).

Definition makePath (base : cstr) (outsz : Z) : C E cstr :=
  r ← syscall "zone_get_nroot" [];
  mret (fits outsz ((if sr_ret r =? 0 then [] else sr_data r) ++ base)).

(** ** Children *)

Definition init_template (flag : sarg) : C E Z :=
  fd ← sys "open64" [AS (cs "/system/contract/process/template"); AS (cs "O_RDWR")];
  check (negb (fd =? -1)) ERR_CONTRACT (cs "open /system/contract/process/template failed") ;;
  r ← sys "ct_tmpl_set_critical" [AZ fd; AZ 0];
  check (r =? 0) ERR_CONTRACT (cs "ct_tmpl_set_critical failed") ;;
  r ← sys "ct_tmpl_set_informative" [AZ fd; AZ 0];
  check (r =? 0) ERR_CONTRACT (cs "ct_tmpl_set_informative failed") ;;
  r ← sys "ct_pr_tmpl_set_fatal" [AZ fd; AS (cs "CT_PR_EV_HWERR")];
  check (r =? 0) ERR_CONTRACT (cs "ct_pr_tmpl_set_fatal failed") ;;
  r ← sys "ct_pr_tmpl_set_param" [AZ fd; flag];
  check (r =? 0) ERR_CONTRACT (cs "ct_pr_tmpl_set_param failed") ;;
  _ ← sys "ct_pr_tmpl_set_svc_fmri" [AZ fd; AS (cs "svc:/dockerinit/child:default")];
  r ← sys "ct_tmpl_activate" [AZ fd];
  check (r =? 0) ERR_CONTRACT (cs "ct_tmpl_activate failed") ;;
  mret fd.

(** [while (wait(&status) != pid)]. *)
Fixpoint wait_for (fuel : nat) (pid : Z) : C E Z :=
  match fuel with
  | O => c_undefined
  | S fuel =>
      r ← syscall "wait" [];
      if sr_ret r =? pid then c_access (head (sr_vals r)) else wait_for fuel pid
  end.

(** The process that [fork] starts: [child] is what it does, [k] what its parent does. *)
Definition forked {A} (child : C E A) (k : Z -> C E A) : C E A :=
  pid ← sys "fork" [];
  check (negb (pid =? -1)) ERR_FORK_FAILED (cs "fork() failed") ;;
  if pid =? 0 then child else k pid.

(** [execve], or [execv], which keeps the environment, in a child. *)
Definition exec_child {A} (name : string) (cmd : cstr) (argv : list cstr) (envp : list sarg) : C E A :=
  r ← sys name (AS cmd :: vector argv ++ envp);
  if r =? 0 then c_exit 0 else fatal_errno ERR_EXEC_FAILED (cs name ++ cs "(" ++ cmd ++ cs ") failed").

Definition runIpmgmtd (fuel : nat) : C E () :=
  tmplfd ← init_template (AZ 0);
  forked
    (_ ← sys "ct_tmpl_clear" [AZ tmplfd];
     _ ← sys "close" [AZ tmplfd];
     cmd ← makePath IPMGMTD MAXPATHLEN;
     exec_child "execve" cmd [cs "ipmgmtd"]
       (vector [cs "SMF_FMRI=svc:/network/ip-interface-management:default"]))
    (fun pid =>
     _ ← sys "ct_tmpl_clear" [AZ tmplfd];
     _ ← sys "close" [AZ tmplfd];
     dlog (cs "INFO started ipmgmtd[" ++ print_d pid ++ cs "]") ;;
     status ← wait_for fuel pid;
     if WIFEXITED status then dlog (cs "INFO ipmgmtd[" ++ print_d pid ++ cs "] exited: " ++ print_d (WEXITSTATUS status))
     else if WIFSIGNALED status then
       fatal ERR_IPMGMTD_DIED (cs "ipmgmtd[" ++ print_d pid ++ cs "] died on signal: " ++ print_d (WTERMSIG status))
     else fatal ERR_IPMGMTD_CRASHED (cs "ipmgmtd[" ++ print_d pid ++ cs "] failed in unknown way")).

(** ** The zfd devices *)

(** The entries of the open directory: whether there is one besides [.] and [..]. *)
Fixpoint zfd_entries (fuel : nat) (dirp : Z) : C E bool :=
  match fuel with
  | O => c_undefined
  | S fuel =>
      r ← syscall "readdir" [AZ dirp];
      if sr_ret r =? 0 then mret false
      else if (strcmp (sr_data r) (cs ".") =? 0) || (strcmp (sr_data r) (cs "..") =? 0) then zfd_entries fuel dirp
      else mret true
  end.

Fixpoint zfd_ready_loop (fuel entries : nat) (loops : Z) : C E () :=
  match fuel with
  | O => c_undefined
  | S fuel =>
      dirp ← sys "opendir" [AS (cs "/dev/zfd")];
      ready ← (if negb (dirp =? 0) then ready ← zfd_entries entries dirp; _ ← sys "closedir" [AZ dirp]; mret ready
               else mret false);
      if ready : bool then dlog (cs "INFO zfd_ready() took " ++ print_d loops ++ cs " loops")
      else _ ← sys "nanosleep" [AZ 100000000]; zfd_ready_loop fuel entries (i32 (loops + 1))
  end.

Definition zfd_ready (fuel : nat) : C E () := zfd_ready_loop fuel fuel 0.

(** Attempt [i] and those after it; [n] are left. *)
Fixpoint zfd_open_loop (n : nat) (path : cstr) (oflag : cstr) (i fd : Z) : C E Z :=
  match n with
  | O => mret fd
  | S n =>
      fd ← sys "open" [AS path; AS oflag];
      e ← get_errno;
      if (0 <=? fd) || negb (e =? ENOENT) then
        (if 0 <=? fd then dlog (cs "INFO open(" ++ path ++ cs ") SUCCESS on attempt " ++ print_d i) else mret tt) ;; mret fd
      else
        (if i + 1 <? ZFD_OPEN_RETRIES then
           (if i mod 10 =? 0 then
              dlog (cs "WARN open(" ++ path ++ cs ") ENOENT on attempt " ++ print_d i ++ cs ", " ++
                    (if i =? 0 then cs "will retry" else cs "still retrying"))
            else mret tt) ;;
           _ ← sys "nanosleep" [AZ 100000000]; mret tt
         else mret tt) ;;
        zfd_open_loop n path oflag (i + 1) fd
  end.

Definition zfd_open (path oflag : cstr) : C E Z := zfd_open_loop (Z.to_nat ZFD_OPEN_RETRIES) path oflag 0 (-1).

Definition zfd_path (id : Z) : cstr := cs "/dev/zfd/" ++ print_d id.

Definition makeMux (stdid logid : Z) (flow_control : bool) : C E () :=
  let stdpath := fits MAXPATHLEN (zfd_path stdid) in
  sfd ← zfd_open stdpath (cs "O_RDWR|O_NOCTTY");
  (if sfd =? -1 then fatal ERR_OPEN_ZFD (cs "failed to open " ++ stdpath ++ cs " to link streams") else mret tt) ;;
  r ← syscall "fstat" [AZ sfd];
  (if negb (sr_ret r =? 0) then fatal ERR_STAT_ZFD (cs "failed to stat " ++ stdpath ++ cs " to link streams") else mret tt) ;;
  instance ← c_access (head (sr_vals r));
  let stdpath := fits MAXPATHLEN (zfd_path logid) in
  lfd ← zfd_open stdpath (cs "O_RDWR|O_NOCTTY");
  (if lfd =? -1 then fatal ERR_OPEN_ZFD (cs "failed to open " ++ stdpath ++ cs " to link streams") else mret tt) ;;
  r ← sys "ioctl" [AZ lfd; AS (cs "ZFD_MUX"); AZ instance];
  (if negb (r =? 0) then fatal ERR_IOCTL_ZFD (cs "failed to issue ioctl to link streams") else mret tt) ;;
  (if flow_control then
     r ← sys "ioctl" [AZ lfd; AS (cs "ZFD_MUX_FLOWCON"); AZ 1];
     if negb (r =? 0) then fatal ERR_IOCTL_ZFD (cs "failed to issue flow control ioctl") else mret tt
   else mret tt) ;;
  (if negb (sfd =? -1) then _ ← sys "close" [AZ sfd]; mret tt else mret tt) ;;
  (if negb (lfd =? -1) then _ ← sys "close" [AZ lfd]; mret tt else mret tt).

(** ** Logging *)

Fixpoint logging_env (vars : list (cstr * cstr)) (env : list cstr) : C E (list cstr) :=
  match vars with
  | [] => mret env
  | (env_key, mdata_key) :: vars =>
      data ← mdataGet mdata_key;
      match data with
      | None => logging_env vars env
      | Some data =>
          m ← asprintf (env_key ++ "="%char :: data);
          match m with
          | None => fatal ERR_NO_MEMORY (cs "asprintf(" ++ env_key ++ cs ") failed to allocate space")
          | Some s => logging_env vars (env ++ [s])
          end
      end
  end.

Definition getLoggingEnv : C E (list cstr) :=
  let size := ptr_bytes * (Zlen logger_vars + 1) in
  env ← malloc size;
  match env with
  | None => fatal_errno ERR_NO_MEMORY (cs "failed to malloc(" ++ print_d size ++ cs ")")
  | Some _ => logging_env logger_vars []
  end.

(** A descriptor that must have the lowest number that is free. *)
Definition open_null (mode : cstr) (expected : Z) (what : cstr) : C E () :=
  fd ← sys "open" [AS (cs "/dev/null"); AS mode];
  check (fd =? expected) ERR_OPEN_CONSOLE (cs "failed to open /dev/null" ++ what).
Definition open_zfd (path mode : cstr) (expected : Z) : C E () :=
  fd ← zfd_open path mode;
  check (fd =? expected) ERR_OPEN_CONSOLE (cs "failed to open " ++ path).

Fixpoint log_strings (what : cstr) (i : Z) (l : list cstr) : C E () :=
  match l with
  | [] => dlog (cs "LOGGER " ++ what ++ cs "[" ++ print_d i ++ cs "] <NULL>")
  | s :: l => dlog (cs "LOGGER " ++ what ++ cs "[" ++ print_d i ++ cs "] " ++ s) ;; log_strings what (i + 1) l
  end.

(** The child that becomes the logger; it returns when [execve] succeeded. *)
Definition logger_child (ctty : bool) (log_fd init_pid : Z) (log_driver : cstr) (envp : list cstr) : C E () :=
  let use_flowcon := false in
  tmplfd ← init_template (AS (cs "CT_PR_KEEP_EXEC"));
  _ ← sys "close" [AZ tmplfd];
  r ← sys "dup2" [AZ log_fd; AZ 0];
  check (0 <=? r) ERR_DUP2 (cs "failed to dup2(log_fd, 0)") ;;
  r ← sys "fdopen" [AZ 0; AS (cs "w")];
  check (negb (r =? 0)) ERR_FDOPEN_LOG (cs "failed to fdopen(2)") ;;
  _ ← sys "closefrom" [AZ 1];
  open_null (cs "O_WRONLY") 1 (cs " as stdout") ;;
  open_null (cs "O_WRONLY") 2 (cs " as stderr") ;;
  (if ctty then
     makeMux 0 1 use_flowcon ;;
     open_zfd (cs "/dev/zfd/1") (cs "O_RDONLY") 3 ;;
     open_null (cs "O_RDONLY") 4 []
   else
     makeMux 1 3 use_flowcon ;;
     makeMux 2 4 use_flowcon ;;
     open_zfd (cs "/dev/zfd/3") (cs "O_RDONLY") 3 ;;
     open_zfd (cs "/dev/zfd/4") (cs "O_RDONLY") 4) ;;
  cmd ← makePath DOCKER_LOGGER MAXPATHLEN;
  dlog (cs "LOGGER CMD '" ++ cmd ++ cs "'") ;;
  let argv := [cs "logger"; log_driver] in
  log_strings (cs "ARG") 0 argv ;;
  log_strings (cs "ENV") 0 envp ;;
  r ← sys "execve" (AS cmd :: vector argv ++ vector envp);
  if r =? 0 then mret tt else
  e ← get_errno;
  dlog (cs "LOGGER ERROR execve(" ++ cmd ++ cs ") failed: " ++ strerror e) ;;
  dlog (cs "LOGGER ERROR killing init[" ++ print_d init_pid ++ cs "]") ;;
  _ ← sys "kill" [AZ init_pid; AS (cs "SIGKILL")];
  fatal ERR_EXEC_FAILED (cs "execve(" ++ cmd ++ cs ") failed and we killed init").

Definition log_driver_of (data : option cstr) : C E cstr :=
  match data with
  | None => mret (cs "json-file")
  | Some data =>
      if negb (strcmp (cs "json-file") data =? 0) then
        m ← strdup data;
        match m with None => fatal_errno ERR_STRDUP (cs "unable to strdup() logdriver") | Some s => mret s end
      else mret (cs "json-file")
  end.

Definition setupLogging (ctty : bool) (log_fd : Z) : C E () :=
  data ← mdataGet (cs "docker:logdriver");
  log_driver ← log_driver_of data;
  dlog (cs "INFO logdriver " ++ log_driver) ;;
  if (strcmp (cs "json-file") log_driver =? 0) || (strcmp (cs "none") log_driver =? 0) then mret tt
  else
    init_pid ← sys "getpid" [];
    dlog (cs "INFO gathering logger environment") ;;
    envp ← getLoggingEnv;
    dlog (cs "INFO creating logger child for " ++ log_driver) ;;
    forked
      (logger_child ctty log_fd init_pid log_driver envp ;; c_exit 0)
      (fun pid =>
       tmplfd ← init_template (AS (cs "CT_PR_KEEP_EXEC"));
       _ ← sys "close" [AZ tmplfd];
       dlog (cs "INFO started logger[" ++ print_d pid ++ cs "] (" ++ log_driver ++ cs ")")).

(** ** The terminal *)

Definition assertFd (actual expected : Z) : C E () :=
  if negb (actual =? expected)
  then fatal ERR_UNEXPECTED (cs "expected fd " ++ print_d expected ++ cs ", got " ++ print_d actual) else mret tt.

(** The metadata [key] is [true]. *)
Definition mdata_true (key : cstr) : C E bool :=
  data ← mdataGet key;
  mret (match data with Some data => strcmp (cs "true") data =? 0 | None => false end).
Definition getStdinStatus : C E bool := mdata_true (cs "docker:open_stdin").
Definition getTtyStatus : C E bool := mdata_true (cs "docker:tty").

Definition close_or (fd : Z) : C E () :=
  r ← sys "close" [AZ fd]; check (negb (r =? -1)) ERR_CLOSE (cs "failed to close(" ++ print_d fd ++ cs ")").

Definition open_std (path mode : cstr) (expected : Z) : C E () :=
  fd ← zfd_open path mode;
  check (negb (fd =? -1)) ERR_OPEN_CONSOLE (cs "failed to open " ++ path) ;;
  assertFd fd expected.

Definition setupTerminal (ctty : bool) : C E () :=
  open_stdin ← getStdinStatus;
  dlog (cs "SWITCHING TO /dev/zfd/*") ;;
  (if open_stdin : bool then close_or 0 ;; open_std (cs "/dev/zfd/0") (cs "O_RDWR") 0 else mret tt) ;;
  close_or 1 ;;
  close_or 2 ;;
  if ctty then
    open_std (cs "/dev/zfd/0") (cs "O_WRONLY") 1 ;;
    open_std (cs "/dev/zfd/0") (cs "O_WRONLY") 2 ;;
    r ← sys "setsid" [];
    check (0 <=? r) ERR_OPEN_CONSOLE (cs "failed to create process session") ;;
    r ← sys "ioctl" [AZ 1; AS (cs "TIOCSCTTY"); AZ 0];
    check (0 <=? r) ERR_OPEN_CONSOLE (cs "failed set controlling tty")
  else
    open_std (cs "/dev/zfd/1") (cs "O_WRONLY") 1 ;;
    open_std (cs "/dev/zfd/2") (cs "O_WRONLY") 2.

(** ** The command *)

(** When [execve] fails the message prints the structure [execname] points to as a string. *)
Definition execCmdline (cmdline env : strlist) (pwd : option passwd) (grp : option group) (workdir : cstr) : C E () :=
  cmd ← strlist_get cmdline 0;
  cmd ← c_access cmd;
  execname ← execName strerror cmd env workdir;
  path ← custr_cstr execname;
  dlog (cs "EXECNAME " ++ Docker.quoted path) ;;
  drop_privs strerror pwd grp ;;
  r ← sys "execve" (AS path :: vector (until_null (strlist_array cmdline)) ++ vector (until_null (strlist_array env)));
  if r =? 0 then mret tt else c_undefined.

(** ** Mounts *)

Definition mountOSDevFD : C E () :=
  dlog (cs "MOUNT /dev/fd (fd)") ;;
  r ← sys "mount" [AS (cs "fd"); AS (cs "/dev/fd"); AS (cs "MS_DATA"); AS (cs "fd")];
  check (r =? 0) ERR_MOUNT_DEVFD (cs "failed to mount /dev/fd").

Definition mountLXDevShm : C E () :=
  dlog (cs "MOUNT /dev/shm (shm)") ;;
  r ← sys "mount" [AS (cs "shm"); AS (cs "/dev/shm"); AS (cs "MS_DATA|MS_OPTIONSTR"); AS (cs "tmpfs"); AS (cs "mode=1777")];
  check (r =? 0) ERR_MOUNT_DEVSHM (cs "failed to mount /dev/shm").

Definition getBrand : C E brand_t :=
  data ← mdataGet (cs "sdc:brand");
  match data with
  | None => fatal ERR_NO_BRAND (cs "failed to determine brand")
  | Some data =>
      if strcmp (cs "lx") data =? 0 then mret BRAND_LX
      else if strcmp (cs "joyent-minimal") data =? 0 then mret BRAND_JOYENT_MINIMAL
      else fatal ERR_INVALID_BRAND (cs "invalid brand: " ++ data)
  end.

Definition setupMtab : C E () :=
  dlog (cs "REPLACE /etc/mtab") ;;
  r ← sys "unlink" [AS (cs "/etc/mtab")];
  e ← get_errno;
  check (negb ((r =? -1) && negb (e =? ENOENT))) ERR_UNLINK_MTAB (cs "failed to unlink /etc/mtab") ;;
  _ ← sys "mkdir" [AS (cs "/etc"); AZ 493];
  r ← sys "symlink" [AS (cs "/proc/mounts"); AS (cs "/etc/mtab")];
  check (negb (r =? -1)) ERR_WRITE_MTAB (cs "failed to symlink /etc/mtab").

(** ** The network *)

Definition openIpadmHandle : C E Z :=
  r ← syscall "ipadm_open" [AS (cs "IPH_LEGACY")];
  if negb (sr_ret r =? 0) then fatal ERR_IPADM_DOOR (cs "Error opening ipadm handle: " ++ ipadm_status2str (sr_ret r))
  else c_access (head (sr_vals r)).

Definition closeIpadmHandle (iph : Z) : C E () :=
  if negb (iph =? 0) then _ ← sys "ipadm_close" [AZ iph]; mret tt else mret tt.

(** [door] is not closed when [door_info] fails. *)
Definition killIpmgmtd : C E () :=
  should_kill ← mdataGet (cs "docker:noipmgmtd");
  match should_kill with
  | None => mret tt
  | Some s =>
      if negb (strncmp s (cs "true") 4 =? 0) then mret tt else
      door ← makePath IPMGMTD_DOOR MAXPATHLEN;
      door_fd ← sys "open" [AS door; AS (cs "O_RDONLY")];
      e ← get_errno;
      if door_fd <? 0 then dlog (cs "ERROR (skipping kill) failed to open ipmgmtd door(" ++ door ++ cs "): " ++ strerror e) else
      info ← syscall "door_info" [AZ door_fd];
      e ← get_errno;
      if negb (sr_ret info =? 0) then dlog (cs "ERROR (skipping kill) failed to load info from door: " ++ strerror e) else
      ipmgmtd_pid ← c_access (head (sr_vals info));
      dlog (cs "INFO ipmgmtd PID is " ++ print_d ipmgmtd_pid) ;;
      _ ← sys "close" [AZ door_fd];
      self ← (if 0 <? ipmgmtd_pid then sys "getpid" [] else mret 0);
      if (0 <? ipmgmtd_pid) && negb (ipmgmtd_pid =? self) then
        r ← sys "kill" [AZ ipmgmtd_pid; AS (cs "SIGTERM")];
        e ← get_errno;
        if negb (r =? 0) then dlog (cs "ERROR failed to kill ipmgmtd[" ++ print_d ipmgmtd_pid ++ cs "]: " ++ strerror e)
        else dlog (cs "KILLED ipmgmtd[" ++ print_d ipmgmtd_pid ++ cs "]") ;; _ ← sys "waitpid" [AZ ipmgmtd_pid; AZ 0]; mret tt
      else mret tt
  end.

(** The global [hostname]. *)
Definition setupHostname : C E (option cstr) :=
  hostname ← mdataGet (cs "sdc:hostname");
  match hostname with
  | None => mret tt
  | Some h =>
      dlog (cs "INFO setting hostname = '" ++ h ++ cs "'") ;;
      r ← sys "sethostname" [AS h];
      e ← get_errno;
      if negb (r =? 0) then dlog (cs "ERROR failed to set hostname: " ++ strerror e) else mret tt
  end ;;
  mret hostname.

(** [ipadm_create_if] writes to the buffer with the name, which the second call is given again. *)
Definition plumbIf (iph : Z) (ifname : cstr) : C E () :=
  dlog (cs "PLUMB " ++ ifname) ;;
  let ifbuf := fits LIFNAMSIZ ifname in
  r ← syscall "ipadm_create_if" [AZ iph; AS ifbuf; AS (cs "AF_INET"); AS (cs "IPADM_OPT_ACTIVE")];
  (if negb (sr_ret r =? 0) then
     fatal ERR_PLUMB_IF (cs "ipadm_create_if error " ++ print_d (sr_ret r) ++ cs ": plumbing " ++ ifname ++ cs "/v4: " ++ ipadm_status2str (sr_ret r))
   else mret tt) ;;
  let ifbuf := sr_data r in
  r ← sys "ipadm_create_if" [AZ iph; AS ifbuf; AS (cs "AF_INET6"); AS (cs "IPADM_OPT_ACTIVE")];
  if negb (r =? 0) then
    fatal ERR_PLUMB_IF (cs "ipadm_create_if error " ++ print_d r ++ cs ": plumbing " ++ ifname ++ cs "/v6: " ++ ipadm_status2str r)
  else mret tt.

Definition upIPv6Addr (ifname : cstr) : C E () :=
  let name := fits LIFNAMSIZ ifname in
  s ← sys "socket" [AS (cs "AF_INET6"); AS (cs "SOCK_DGRAM"); AZ 0];
  e ← get_errno;
  (if s =? -1 then fatal ERR_UP_IP6 (cs "socket error " ++ print_d e ++ cs ": bringing up " ++ ifname ++ cs ": " ++ strerror e) else mret tt) ;;
  r ← syscall "ioctl" [AZ s; AS (cs "SIOCGLIFFLAGS"); AS name];
  e ← get_errno;
  (if sr_ret r <? 0 then fatal ERR_UP_IP6 (cs "SIOCGLIFFLAGS error " ++ print_d e ++ cs ": bringing up " ++ ifname ++ cs ": " ++ strerror e) else mret tt) ;;
  flags ← c_access (head (sr_vals r));
  r ← sys "ioctl" [AZ s; AS (cs "SIOCSLIFFLAGS"); AS name; AZ (Z.lor flags IFF_UP)];
  e ← get_errno;
  (if r <? 0 then fatal ERR_UP_IP6 (cs "SIOCSLIFFLAGS error " ++ print_d e ++ cs ": bringing up " ++ ifname ++ cs ": " ++ strerror e) else mret tt) ;;
  _ ← sys "close" [AZ s]; mret tt.

Definition raiseIf (iph : Z) (ifname addr netmask : cstr) : C E Z :=
  dlog (cs "RAISE[" ++ ifname ++ cs "] addr=" ++ addr ++ cs ", netmask=" ++ netmask) ;;
  match inet_pton netmask with
  | None => e ← get_errno; dlog (cs "WARN raiseIf: invalid netmask address: " ++ strerror e) ;; mret (-1)
  | Some mask =>
      let cidraddr := fits BUFSIZ (addr ++ "/"%char :: print_d (mask2plen mask)) in
      r ← syscall "ipadm_create_addrobj" [AS (cs "IPADM_ADDR_STATIC"); AS ifname];
      if negb (sr_ret r =? 0) then
        dlog (cs "WARN ipadm_create_addrobj error " ++ print_d (sr_ret r) ++ cs ": addr " ++ addr ++ cs " (" ++ cidraddr ++
              cs "), interface " ++ ifname ++ cs ": " ++ ipadm_status2str (sr_ret r)) ;; mret (-2)
      else
      ipaddr ← c_access (head (sr_vals r));
      r ← sys "ipadm_set_addr" [AZ ipaddr; AS cidraddr; AS (cs "AF_INET")];
      if negb (r =? 0) then
        dlog (cs "WARN ipadm_set_addr error " ++ print_d r ++ cs ": addr " ++ addr ++ cs " (" ++ cidraddr ++
              cs "), interface " ++ ifname ++ cs ": " ++ ipadm_status2str r) ;; mret (-3)
      else
      r ← sys "ipadm_create_addr" [AZ iph; AZ ipaddr; AS (cs "IPADM_OPT_ACTIVE|IPADM_OPT_UP")];
      if negb (r =? 0) then
        dlog (cs "WARN ipadm_create_addr error for " ++ ifname ++ cs ": " ++ ipadm_status2str r) ;;
        _ ← sys "ipadm_destroy_addrobj" [AZ ipaddr]; mret (-4)
      else
      upIPv6Addr ifname ;;
      _ ← sys "ipadm_destroy_addrobj" [AZ ipaddr]; mret 0
  end.

Definition prefixToNetmask (pfx : Z) : option Z := plen2mask pfx.

(** The message written to the routing socket.  The family of the destination is set where that of
    the gateway was meant: [rtm_gw_family] stays 0. *)
Record rt_message := RtMessage {
  rtm_addrs : cstr; rtm_flags : cstr; rtm_pid : Z; rtm_type : cstr; rtm_index : Z;
  rtm_dst_family : cstr; rtm_dst : Z; rtm_gw_family : cstr; rtm_gw : Z; rtm_netmask : Z
}.

Definition rt_args (m : rt_message) : list sarg :=
  [AS (rtm_addrs m); AS (rtm_flags m); AZ (rtm_pid m); AS (rtm_type m); AZ (rtm_index m);
   AS (rtm_dst_family m); AZ (rtm_dst m); AS (rtm_gw_family m); AZ (rtm_gw m); AZ (rtm_netmask m)].

(** [sizeof (struct rt_msghdr)] and three times [sizeof (struct sockaddr_in)]. *)
Definition RTMBUFSZ : Z := 76 + 3 * 16.

(** [%s] of the interface: a route without one passes NULL. *)
Definition if_text (ifname : option cstr) : cstr := default (cs "(null)") ifname.

Definition addRoute (ifname : option cstr) (gw dst : cstr) (dstpfx : Z) (isLinkLocal : bool) : C E Z :=
  dlog (cs "ROUTE[" ++ if_text ifname ++ cs "] gw=" ++ gw ++ cs ", dst=" ++ dst) ;;
  let flags := if isLinkLocal then [] else cs "RTF_UP|RTF_STATIC|RTF_GATEWAY" in
  pid ← sys "getpid" [];
  let invalid (kind addr : cstr) (res : Z) : C E Z :=
    e ← get_errno;
    dlog (cs "WARN addRoute: invalid " ++ kind ++ cs " address " ++ Docker.quoted addr ++ cs " for " ++ if_text ifname ++ cs ": " ++ strerror e) ;;
    mret res in
  match inet_pton dst with None => invalid (cs "destination") dst (-1) | Some dst_addr =>
  match inet_pton gw with None => invalid (cs "gateway") gw (-2) | Some gw_addr =>
  match prefixToNetmask dstpfx with
  | None => WARNLOG "addRoute" (cs "invalid route prefix length " ++ print_d dstpfx) ;; mret (-3)
  | Some mask =>
  idx ← match ifname with None => mret 0 | Some ifname => sys "if_nametoindex" [AS ifname] end;
  e ← get_errno;
  if bool_decide (is_Some ifname) && (idx =? 0) then
    dlog (cs "WARN addRoute: error getting interface index for " ++ if_text ifname ++ cs ": " ++ strerror e) ;; mret (-4)
  else
  sockfd ← sys "socket" [AS (cs "PF_ROUTE"); AS (cs "SOCK_RAW"); AS (cs "AF_INET")];
  e ← get_errno;
  if sockfd <? 0 then dlog (cs "WARN addRoute: error opening socket: " ++ strerror e) ;; mret (-5) else
  let rtm := RtMessage (cs "RTA_DST|RTA_GATEWAY|RTA_NETMASK") flags pid (cs "RTM_ADD") idx (cs "AF_INET") dst_addr [] gw_addr mask in
  len ← sys "write" (AZ sockfd :: rt_args rtm);
  e ← get_errno;
  let route := cs "(if=" ++ Docker.quoted (if_text ifname) ++ cs ", gw=" ++ Docker.quoted gw ++ cs ", dst=" ++ Docker.quoted dst ++ cs ": " ++ strerror e ++ cs ")" in
  if len <? 0 then dlog (cs "WARN addRoute: socket write error " ++ route) ;; _ ← sys "close" [AZ sockfd]; mret (-6)
  else if len <? RTMBUFSZ then
    dlog (cs "WARN addRoute: wrote " ++ print_d len ++ cs "/" ++ print_d RTMBUFSZ ++ cs " to socket " ++ route) ;;
    _ ← sys "close" [AZ sockfd]; mret (-7)
  else _ ← sys "close" [AZ sockfd]; mret 0
  end end end.

(** Following a lookup that succeeded. *)
Definition with_string (data : nvlist_t) (name : cstr) (k : cstr -> C E ()) : C E () :=
  '(ret, s) ← nvlist_lookup_string data name;
  if ret =? 0 then s ← c_access s; k s else mret tt.

Definition setupInterface (iph : Z) (data : nvlist_t) : C E () :=
  with_string data (cs "interface") (fun iface =>
  plumbIf iph iface ;;
  with_string data (cs "ip") (fun ip =>
  with_string data (cs "netmask") (fun netmask =>
  r ← raiseIf iph iface ip netmask;
  if negb (r =? 0) then fatal ERR_RAISE_IF (cs "Error bringing up interface " ++ iface) else mret tt))).

Definition setupGateway (data : nvlist_t) : C E () :=
  with_string data (cs "interface") (fun iface =>
  with_string data (cs "ip") (fun ip =>
  '(ret, primary) ← nvlist_lookup_boolean_value data (cs "primary");
  if ret =? 0 then
    primary ← c_access primary;
    if primary : bool then
      with_string data (cs "gateway") (fun gateway => _ ← addRoute (Some iface) gateway (cs "0.0.0.0") 0 false; mret tt)
    else mret tt
  else mret tt)).

(** The pairs of a parsed document from [pair] on: [f] is given those that are lists. *)
Fixpoint each_nvlist (fuel : nat) (what : cstr) (f : nvlist_t -> C E ()) (nvl : nvlist_t) (pair : option nvpair_t) : C E () :=
  match fuel with
  | O => c_undefined
  | S fuel =>
      match pair with
      | None => mret tt
      | Some p =>
          ty ← nvpair_type p;
          (if ty =? DATA_TYPE_NVLIST then
             '(r, data) ← nvpair_value_nvlist p;
             (if negb (r =? 0) then fatal_errno ERR_PARSE_JSON (cs "failed to parse nvpair json for " ++ what) else mret tt) ;;
             data ← c_access data;
             f data
           else mret tt) ;;
          pair ← nvlist_next_nvpair nvl (Some p);
          each_nvlist fuel what f nvl pair
      end
  end.

(** The document under the metadata [key]: [f] for each list in it, and [k] before it is released. *)
Definition each_in_mdata (fuel : nat) (key what : cstr) (missing : cstr) (f : nvlist_t -> C E ()) (k : C E ()) : C E () :=
  json ← mdataGet key;
  match json with
  | None => dlog missing
  | Some json =>
      '(r, nvl, _) ← nvlist_parse_json strerror (json ++ [NUL]) (Zlen json) NVJSON_FORCE_INTEGER None;
      (if negb (r =? 0) then fatal_errno ERR_PARSE_JSON (cs "failed to parse nvpair json for " ++ key) else mret tt) ;;
      match nvl with
      | None => k
      | Some nvl =>
          pair ← nvlist_next_nvpair nvl None;
          each_nvlist fuel what f nvl pair ;;
          k ;;
          nvlist_free nvl
      end
  end.

Definition setupGateways (fuel : nat) : C E () :=
  each_in_mdata fuel (cs "sdc:nics") (cs "NIC") (cs "WARN no NICs found in sdc:nics") setupGateway (mret tt).
Definition setupInterfaces (fuel : nat) (iph : Z) : C E () :=
  each_in_mdata fuel (cs "sdc:nics") (cs "NIC") (cs "WARN no NICs found in sdc:nics") (setupInterface iph) (mret tt).

(** The destination of a route: what is before its slash, and [atoi] of what is after it. *)
Definition route_destination (idx dst : cstr) : C E (option (cstr * Z)) :=
  dstraw ← strdup dst;
  match dstraw with
  | None => WARNLOG "setupStaticRoute" (cs "route[" ++ idx ++ cs "]: strdup failure") ;; mret None
  | Some dstraw =>
      match split_first SLASH dstraw with
      | None => WARNLOG "setupStaticRoute" (cs "route[" ++ idx ++ cs "]: dst " ++ Docker.quoted dst ++ cs " invalid") ;; mret None
      | Some (addr, pfx) =>
          dstpfx ← c_access (atoi pfx);
          if (dstpfx <? 0) || (32 <? dstpfx) then
            WARNLOG "setupStaticRoute" (cs "route[" ++ idx ++ cs "]: dst " ++ Docker.quoted dst ++ cs " pfx " ++ print_d dstpfx ++ cs " invalid") ;;
            mret None
          else mret (Some (addr, dstpfx))
      end
  end.

Definition setupStaticRoute (route : nvlist_t) (idx : cstr) (linkLocalOnly : bool) : C E Z :=
  '(r, linklocal) ← nvlist_lookup_boolean_value route (cs "linklocal");
  linklocal ← (if r =? 0 then c_access linklocal else mret false);
  if linklocal && negb linkLocalOnly then mret (-1) else
  let isLinkLocal := linklocal in
  '(r, dst) ← nvlist_lookup_string route (cs "dst");
  if negb (r =? 0) then WARNLOG "setupStaticRoute" (cs "route[" ++ idx ++ cs "]: route is missing " ++ Docker.quoted (cs "dst")) ;; mret (-1) else
  dst ← c_access dst;
  '(r, gateway) ← nvlist_lookup_string route (cs "gateway");
  if negb (r =? 0) then WARNLOG "setupStaticRoute" (cs "route[" ++ idx ++ cs "]: route is missing " ++ Docker.quoted (cs "gateway")) ;; mret (-1) else
  gateway ← c_access gateway;
  d ← route_destination idx dst;
  match d with
  | None => mret (-1)
  | Some (dst, dstpfx) =>
      ret ← addRoute None gateway dst dstpfx isLinkLocal;
      if negb (ret =? 0) then
        WARNLOG "setupStaticRoute" (cs "route[" ++ idx ++ cs "]: failed to add (" ++ print_d ret ++ cs ")") ;; mret ret
      else mret 0
  end.

(** The routes from index [i] on, [n] of them. *)
Fixpoint static_routes (n : nat) (i : Z) (routes : option nvlist_t) (linkLocalOnly : bool) : C E () :=
  match n with
  | O => mret tt
  | S n =>
      let idx := print_u i in
      '(r, route) ← match routes with None => mret (EINVAL, None) | Some nvl => nvlist_lookup_nvlist nvl idx end;
      (if negb (r =? 0) then WARNLOG "setupStaticRoutes" (cs "route[" ++ idx ++ cs "] not found in array")
       else route ← c_access route; _ ← setupStaticRoute route idx linkLocalOnly; mret tt) ;;
      static_routes n (u32 (i + 1)) routes linkLocalOnly
  end.

Definition setupStaticRoutes (linkLocalOnly : bool) : C E () :=
  '(routes, nroutes) ← getMdataArray strerror (cs "sdc:routes") true;
  static_routes (Z.to_nat nroutes) 0 routes linkLocalOnly ;;
  free_nvl routes.

Definition setupNetworking (fuel : nat) : C E () :=
  iph ← openIpadmHandle;
  plumbIf iph (cs "lo0") ;;
  _ ← raiseIf iph (cs "lo0") (cs "127.0.0.1") (cs "255.0.0.0");
  setupInterfaces fuel iph ;;
  setupStaticRoutes true ;;
  setupGateways fuel ;;
  setupStaticRoutes false ;;
  closeIpadmHandle iph.

(** ** Volumes *)

Definition doNfsMount (fuel : nat) (nfsvolume mountpoint : cstr) (readonly : bool) : C E () :=
  dlog (cs "INFO mounting " ++ nfsvolume ++ cs " on " ++ mountpoint) ;;
  ret ← sys "mkdir" [AS mountpoint; AZ 493];
  e ← get_errno;
  (if (ret =? -1) && negb (e =? EEXIST) then
     fatal ERR_MKDIR (cs "failed to mkdir(" ++ mountpoint ++ cs "): (" ++ print_d e ++ cs ") " ++ strerror e) else mret tt) ;;
  tmplfd ← init_template (AZ 0);
  forked
    (_ ← sys "ct_tmpl_clear" [AZ tmplfd];
     _ ← sys "close" [AZ tmplfd];
     cmd ← makePath NFS_MOUNT MAXPATHLEN;
     exec_child "execv" cmd [cs "mount"; cs "-o"; (if readonly then cs "vers=3,sec=sys,ro" else cs "vers=3,sec=sys"); nfsvolume; mountpoint] [])
    (fun pid =>
     _ ← sys "ct_tmpl_clear" [AZ tmplfd];
     _ ← sys "close" [AZ tmplfd];
     dlog (cs "INFO started mount[" ++ print_d pid ++ cs "]") ;;
     status ← wait_for fuel pid;
     let mount := cs "mount[" ++ print_d pid ++ cs "] " in
     if WIFEXITED status then
       dlog (cs "INFO " ++ mount ++ cs "exited: " ++ print_d (WEXITSTATUS status)) ;;
       if negb (WEXITSTATUS status =? 0)
       then fatal ERR_MOUNT_NFS_VOLUME (mount ++ cs "exited non-zero (" ++ print_d (WEXITSTATUS status) ++ cs ")") else mret tt
     else if WIFSIGNALED status then fatal ERR_EXEC_FAILED (mount ++ cs "died on signal: " ++ print_d (WTERMSIG status))
     else fatal ERR_EXEC_FAILED (mount ++ cs "failed in unknown way")).

Definition mountNfsVolume (fuel : nat) (data : nvlist_t) : C E () :=
  '(ret, nfsvolume) ← nvlist_lookup_string data (cs "nfsvolume");
  if negb (ret =? 0) then fatal ERR_INVALID_NFS_VOLUMES (cs "invalid nfsvolumes") else
  nfsvolume ← c_access nfsvolume;
  '(ret, mountpoint) ← nvlist_lookup_string data (cs "mountpoint");
  if negb (ret =? 0) then fatal ERR_INVALID_NFS_VOLUMES (cs "invalid nfsvolumes") else
  mountpoint ← c_access mountpoint;
  '(ret, readonly) ← nvlist_lookup_boolean_value data (cs "readonly");
  readonly ← (if ret =? 0 then c_access readonly else mret false);
  doNfsMount fuel nfsvolume mountpoint readonly.

Definition mountNfsVolumes (fuel : nat) : C E () :=
  each_in_mdata fuel (cs "docker:nfsvolumes") (cs "NFS volume") (cs "No docker:nfsvolumes, nothing to mount") (mountNfsVolume fuel)
    (dlog (cs "DEBUG attempting to start lx_lockd") ;; _ ← sys "syscall" [AS (cs "SYS_brand"); AZ B_START_NFS_LOCKD]; mret tt).

(** ** Waiting for an attach *)

Definition currentTimestamp : C E Z :=
  r ← syscall "gettimeofday" [];
  if negb (sr_ret r =? 0) then e ← get_errno; dlog (cs "gettimeofday(): " ++ strerror e) ;; mret 0
  else
    tv_sec ← c_access (sr_vals r !! 0%nat);
    tv_usec ← c_access (sr_vals r !! 1%nat);
    mret (tv_sec * 1000 + tv_usec `quot` 1000).

Definition WAITING_KEY : cstr := cs "__dockerinit_waiting_for_attach".
Definition display_freq : Z :=
  if 1000000 <? ATTACH_CHECK_INTERVAL then 1 else 1000000 `quot` ATTACH_CHECK_INTERVAL.

(** The turns of the loop after [loops] of them: whether the announcement was put. *)
Fixpoint attach_loop (fuel : nat) (loops : Z) (did_put : bool) : C E bool :=
  match fuel with
  | O => c_undefined
  | S fuel =>
      let loops := u32 (loops + 1) in
      timeout ← mdataGet (cs "docker:wait_for_attach");
      match timeout with
      | None => mret did_put
      | Some timeout =>
          let '(timestamp, _, _) := strtoll 10 timeout in
          (if timestamp <=? 0 then fatal ERR_ATTACH_NOT_TIMESTAMP (cs "Invalid value for 'docker:wait_for_attach'") else mret tt) ;;
          now ← currentTimestamp;
          (if now <=? 0 then fatal ERR_ATTACH_GETTIME (cs "Unable to determine current time") else mret tt) ;;
          (if negb did_put then mdataPut WAITING_KEY timeout else mret tt) ;;
          (if (loops =? 1) || (loops mod display_freq =? 0) then
             dlog (cs "INFO Waiting until " ++ print_d timestamp ++ cs " for attach, currently: " ++ print_d now) else mret tt) ;;
          (if timestamp <? now then fatal ERR_ATTACH_TIMEDOUT (cs "Timed out waiting for attach") else mret tt) ;;
          _ ← sys "usleep" [AZ ATTACH_CHECK_INTERVAL];
          attach_loop fuel loops true
      end
  end.

Definition waitIfAttaching (fuel : nat) : C E () :=
  did_put ← attach_loop fuel 0 false;
  if did_put : bool then mdataDelete WAITING_KEY else mret tt.

(** ** The program *)

(** Descriptors 0, 1 and 2, and the log: its descriptor. *)
Definition open_start (mode : cstr) (expected : Z) (what : cstr) : C E () :=
  tmpfd ← sys "open" [AS (cs "/dev/null"); AS mode];
  check (tmpfd =? expected) ERR_OPEN (cs "failed to open " ++ what ++ cs " as /dev/null: " ++ print_d tmpfd).

Definition setup_descriptors : C E Z :=
  _ ← sys "mkdir" [AS (cs "/var"); AZ 493];
  _ ← sys "mkdir" [AS (cs "/var/log"); AZ 493];
  open_start (cs "O_RDONLY") 0 (cs "stdin") ;;
  open_start (cs "O_WRONLY") 1 (cs "stdout") ;;
  open_start (cs "O_WRONLY") 2 (cs "stderr") ;;
  log_fd ← sys "open" [AS LOGFILE; AS (cs "O_WRONLY|O_CREAT|O_TRUNC|O_CLOEXEC"); AZ 384];
  check (negb (log_fd =? -1)) ERR_OPEN (cs "failed to open log file") ;;
  r ← sys "fdopen" [AZ log_fd; AS (cs "w")];
  check (negb (r =? 0)) ERR_FDOPEN_LOG (cs "failed to fdopen(2)") ;;
  mret log_fd.

Definition setup_mounts : C E () :=
  brand ← getBrand;
  match brand with BRAND_LX => mountLXDevShm ;; setupMtab | BRAND_JOYENT_MINIMAL => mountOSDevFD end.

(** Telling vmadm that the container is provisioned. *)
Definition provision_success : C E () :=
  _ ← sys "close" [AZ 4]; _ ← sys "close" [AZ 5]; _ ← sys "close" [AZ 6];
  ret ← sys "rename" [AS (cs "/var/svc/provisioning"); AS (cs "/var/svc/provision_success")];
  e ← get_errno;
  if negb (ret =? 0) && (e =? ENOENT) then dlog (cs "INFO not renaming /var/svc/provisioning: already gone.")
  else check (ret =? 0) ERR_RENAME_FAILED (cs "failed to rename /var/svc/provisioning").

Definition main (fuel : nat) : C E () :=
  '(r1, env) ← strlist_alloc 0;
  '(r2, cmdline) ← (if negb (r1 =? 0) then mret (0, None) else strlist_alloc 0);
  check ((r1 =? 0) && (r2 =? 0)) ERR_NO_MEMORY (cs "failed to allocate string lists") ;;
  env ← c_access env;
  cmdline ← c_access cmdline;
  log_fd ← setup_descriptors;
  setup_mounts ;;
  dlog (cs "INFO setting up networking") ;;
  _ ← sys "mkdir" [AS (cs "/var/run"); AZ 493];
  _ ← sys "mkdir" [AS (cs "/var/run/network"); AZ 493];
  runIpmgmtd fuel ;;
  setupNetworking fuel ;;
  killIpmgmtd ;;
  dlog (cs "INFO network setup complete") ;;
  mountNfsVolumes fuel ;;
  hostname ← setupHostname;
  '(pwd, grp) ← getUserGroupData strerror None;
  workdir ← setupWorkdir strerror pwd;
  '(r, env) ← buildCmdEnv strerror hostname pwd env;
  check (r =? 0) ERR_UNEXPECTED (cs "buildCmdEnv() failed") ;;
  '(r, cmdline) ← buildCmdline strerror cmdline;
  check (r =? 0) ERR_UNEXPECTED (cs "buildCmdline() failed") ;;
  ctty ← getTtyStatus;
  zfd_ready fuel ;;
  setupTerminal ctty ;;
  setupLogging ctty log_fd ;;
  waitIfAttaching fuel ;;
  provision_success ;;
  dir ← custr_cstr workdir;
  execCmdline cmdline env pwd grp dir.
End dockerinit.
