(* ===== verification/DockerinitAttach.v ===== *)
(** * DockerinitAttach: waiting for an attach

    [waitIfAttaching] polls a key of the metadata until it is gone or the time it names has
    passed.  [AttachEnv]: the key keeps its value until it is removed, and every call takes time,
    as long as it likes. *)
From Stdlib Require Import Lia.
From S2P Require Import Prelude Cnum Sys Mdata DockerEnv Dockerinit.

Definition ATTACH_KEY : cstr := cs "docker:wait_for_attach".

(** [clock] is the time in milliseconds; the time the program spends between two calls counts to
    the second one.  The key has the value [attach_text] until the time [gone], if it is removed
    at all.  [announced] is the value the program put under [WAITING_KEY]; [patience] bounds the
    signals that are still to interrupt its sleep. *)
Class Attach (E : Type) := {
  clock : E -> Z;
  gone : E -> option Z;
  attach_text : E -> cstr;
  announced : E -> option cstr;
  patience : E -> nat
}.

(** The value of the key at the time [t]. *)
Definition attach_at `{Attach E} (e : E) (t : Z) : option cstr :=
  if from_option (fun g => g <=? t) false (gone e) then None else Some (attach_text e).

(** Time passes, and what is to happen to the key does not change. *)
Definition later `{Attach E} (e e' : E) : Prop :=
  clock e <= clock e' /\ gone e' = gone e /\ attach_text e' = attach_text e /\ (patience e' <= patience e)%nat.

#[export] Instance later_preorder `{Attach E} : PreOrder (later (E := E)).
Proof. split; [by intros e|]. intros e1 e2 e3 (? & ? & ? & ?) (? & ? & ? & ?). split_and!; first [congruence|lia]. Qed.

(** What a call answers about the key or the time held at some moment of the call. *)
Class AttachEnv (E : Type) `{Metadata E} `{Kernel E} `{Attach E} := {
  attach_get (w : world E) : good w -> wp (mdataGet ATTACH_KEY) (fun v w' => good w' /\ later (w_env w) (w_env w') /\
    announced (w_env w') = announced (w_env w) /\
    exists t, clock (w_env w) <= t <= clock (w_env w') /\ v = attach_at (w_env w) t) w;
  attach_put v (w : world E) : good w -> wp (mdataPut WAITING_KEY v) (fun _ w' => good w' /\ later (w_env w) (w_env w') /\
    announced (w_env w') = Some v) w;
  attach_delete (w : world E) : good w -> wp (mdataDelete WAITING_KEY) (fun _ w' => good w' /\ later (w_env w) (w_env w') /\
    announced (w_env w') = None) w;
  attach_time e r e' : sys_step "gettimeofday" [] e = (r, e') -> sr_ret r = 0 /\ later e e' /\ announced e' = announced e /\
    exists t usec, clock e <= t <= clock e' /\ 0 <= usec < 1000 /\ sr_vals r = [t / 1000; t mod 1000 * 1000 + usec];
  attach_sleep us e r e' : 0 <= us -> sys_step "usleep" [AZ us] e = (r, e') -> later e e' /\ announced e' = announced e /\
    (clock e + us / 1000 <= clock e' \/ (sr_ret r = -1 /\ (patience e' < patience e)%nat))
}.

(** Reading the key, and reading the time, takes at most [lag] milliseconds. *)
Definition prompt (E : Type) `{AttachEnv E} (lag : Z) : Prop :=
  (forall (w w' : world E) v, good w -> mdataGet ATTACH_KEY w = Done (v, w') -> clock (w_env w') <= clock (w_env w) + lag) /\
  (forall (e e' : E) r, sys_step "gettimeofday" [] e = (r, e') -> clock e' <= clock e + lag).

Lemma halts_ret {E A} (a : A) (Q : A -> world E -> Prop) X w : Q a w -> halts (mret a) Q X w.
Proof. done. Qed.
Lemma halts_syscall {E} `{Kernel E} name args (Q : sysret -> world E -> Prop) X w r e :
  sys_step name args (w_env w) = (r, e) ->
  Q r (World (if sr_ret r =? -1 then sr_errno r else w_errno w) (w_heap w) (w_stderr w) e) ->
  halts (syscall name args) Q X w.
Proof. intros Hs HQ. eapply halts_wp; [by eapply wp_syscall; [exact Hs|exact HQ]|]. done. Qed.
Lemma halts_mono {E A} (m : C E A) (Q Q' : A -> world E -> Prop) (X X' : Z -> Prop) w :
  halts m Q X w -> (forall a w', Q a w' -> Q' a w') -> (forall st, X st -> X' st) -> halts m Q' X' w.
Proof. unfold halts. destruct (m w) as [[a w']| | |]; naive_solver. Qed.

Section attach.
Context {E : Type} `{AttachEnv E} (strerror : Z -> cstr).
Implicit Types w : world E.

Lemma currentTimestamp_spec (Q : Z -> world E -> Prop) w :
  good w -> 0 <= clock (w_env w) ->
  (forall now w', good w' -> later (w_env w) (w_env w') -> announced (w_env w') = announced (w_env w) ->
     clock (w_env w) <= now <= clock (w_env w') ->
     (forall lag, prompt E lag -> clock (w_env w') <= clock (w_env w) + lag) -> Q now w') ->
  wp (currentTimestamp strerror) Q w.
Proof.
  intros Hg Hc HQ. unfold currentTimestamp. apply wp_bind.
  destruct (sys_step "gettimeofday" [] (w_env w)) as [r e] eqn:Hs. eapply wp_syscall; [exact Hs|].
  destruct (attach_time _ _ _ Hs) as (Hr & Hl & Hn & t & us & Ht & Hus & Hv). rewrite Hr. cbn [Z.eqb negb].
  apply wp_bind. eapply wp_access; [by rewrite Hv|]. apply wp_bind. eapply wp_access; [by rewrite Hv|].
  replace (t / 1000 * 1000 + _) with t.
  2:{ rewrite Z.quot_div_nonneg by dlia. rewrite Z.div_add_l, (Z.div_small us) by lia. dlia. }
  apply wp_ret, HQ; [done..|]. intros lag [_ Hlag]. by eapply Hlag.
Qed.

(** Reading the key, with what [prompt] adds. *)
Lemma attach_read w :
  good w -> wp (mdataGet ATTACH_KEY) (fun v w' => good w' /\ later (w_env w) (w_env w') /\
    announced (w_env w') = announced (w_env w) /\
    (forall lag, prompt E lag -> clock (w_env w') <= clock (w_env w) + lag) /\
    exists t, clock (w_env w) <= t <= clock (w_env w') /\ v = attach_at (w_env w) t) w.
Proof.
  intros Hg. pose proof (attach_get w Hg) as Hwp. unfold wp in *.
  destruct (mdataGet ATTACH_KEY w) as [[v w']| | |] eqn:Hm; try done. destruct Hwp as (? & ? & ? & ?).
  split_and!; try done. intros lag [Hlag _]. by eapply Hlag.
Qed.

Lemma attach_at_none (e : E) t : attach_at e t = None -> exists g, gone e = Some g /\ g <= t.
Proof. unfold attach_at. destruct (gone e) as [g|]; cbn; [|done]. destruct (Z.leb_spec g t); [by exists g|done]. Qed.

Lemma attach_at_some (e : E) t text : attach_at e t = Some text -> text = attach_text e /\ forall g, gone e = Some g -> t < g.
Proof.
  unfold attach_at. destruct (gone e) as [g|]; cbn; [destruct (Z.leb_spec g t); [done|]|]; intros [= <-]; split; try done.
  by intros ? [= <-].
Qed.

(** The program gave up, though the key was there: not before the time it names. *)
Definition gave_up (e : E) (ts st : Z) : Prop :=
  st = err_code ERR_ATTACH_TIMEDOUT /\ forall lag g, prompt E lag -> gone e = Some g -> ts < g + 2 * lag.

(** The key is gone; [b] tells whether it was seen. *)
Definition key_gone (put : bool) (e : E) (b : bool) (e' : E) : Prop :=
  exists g, gone e = Some g /\ g <= clock e' /\ (put = true -> b = true) /\
    (b = false -> announced e' = announced e) /\ (put = false -> g <= clock e -> b = false) /\
    (forall lag, prompt E lag -> clock e + lag < g -> b = true).

(** The part of a turn after the time was read: it gives up, or sleeps and goes on. *)
Lemma attach_turn_spec {A} (k : C E A) loops put text ts now w (Q : A -> world E -> Prop) (X : Z -> Prop) :
  good w -> (ts < now -> X (err_code ERR_ATTACH_TIMEDOUT)) ->
  (forall w', now <= ts -> good w' -> later (w_env w) (w_env w') ->
     clock (w_env w) + 200 <= clock (w_env w') \/ (patience (w_env w') < patience (w_env w))%nat -> halts k Q X w') ->
  halts ((if negb put then mdataPut WAITING_KEY text else mret tt) ;;
    (if (loops =? 1) || (loops mod display_freq =? 0) then
       dlog (cs "INFO Waiting until " ++ print_d ts ++ cs " for attach, currently: " ++ print_d now) else mret tt) ;;
    (if ts <? now then fatal ERR_ATTACH_TIMEDOUT (cs "Timed out waiting for attach") else mret tt) ;;
    _ ← sys "usleep" [AZ ATTACH_CHECK_INTERVAL]; k) Q X w.
Proof.
  intros Hg HX Hk. apply halts_bind.
  eapply (halts_wp _ (fun _ w' => good w' /\ later (w_env w) (w_env w'))).
  { destruct put; cbn [negb]; [by apply wp_ret|]. eapply wp_mono; [by apply attach_put|]. naive_solver. }
  intros _ w3 [Hg3 Hl3]. apply halts_bind. eapply (halts_wp _ (fun _ w' => good w' /\ w_env w' = w_env w3)).
  { case_match; [|by apply wp_ret]. apply dlog_spec; [done|]. by intros w' [? ?]. }
  intros _ w4 [Hg4 He4]. apply halts_bind. destruct (Z.ltb_spec ts now) as [Hout|Hin].
  { apply halts_fatal; [done|by apply HX]. }
  apply halts_ret, halts_bind. unfold sys. apply halts_bind.
  destruct (sys_step "usleep" [AZ ATTACH_CHECK_INTERVAL] (w_env w4)) as [r e] eqn:Hs.
  destruct (attach_sleep _ _ _ _ (ltac:(done) : 0 <= ATTACH_CHECK_INTERVAL) Hs) as (Hl5 & _ & Hend).
  change (ATTACH_CHECK_INTERVAL / 1000) with 200 in Hend. rewrite He4 in Hl5, Hend.
  eapply halts_syscall; [exact Hs|]. apply halts_ret, Hk; cbn [w_env]; [done|by destruct Hg4|by etrans|].
  destruct Hl3 as (? & _ & _ & ?), Hend as [?|[_ ?]]; [left|right]; lia.
Qed.

(** The loop, from a turn at any time. *)
Lemma attach_loop_spec fuel loops put ts w :
  good w -> (strtoll 10 (attach_text (w_env w))).1.1 = ts -> 0 < ts -> 0 < clock (w_env w) ->
  (Z.to_nat (ts + 1 - clock (w_env w)) + patience (w_env w) < fuel)%nat ->
  halts (attach_loop strerror fuel loops put) (fun b w' => good w' /\ key_gone put (w_env w) b (w_env w'))
    (gave_up (w_env w) ts) w.
Proof.
  revert loops put w. induction fuel as [|fuel IH]; intros loops put w Hg Hts Hpos Hc Hf; [lia|].
  cbn [attach_loop]. apply halts_bind. eapply halts_wp; [by apply attach_read|].
  intros v w1 (Hg1 & Hl1 & Hn1 & Hlag1 & t & Ht & Hv). destruct v as [text|].
  2:{ symmetry in Hv. apply attach_at_none in Hv as (g & He & Hgt). apply halts_ret. split; [done|]. exists g.
      split_and!; [done|lia|done|by intros|by intros ->|]. intros lag Hp Hlate. specialize (Hlag1 lag Hp). lia. }
  symmetry in Hv. apply attach_at_some in Hv as [-> Hbefore]. destruct (strtoll 10 (attach_text (w_env w))) as [[v range] rest] eqn:Hv. cbn in Hts. subst v.
  destruct (Z.leb_spec ts 0); [lia|]. apply halts_bind, halts_ret, halts_bind. destruct Hl1 as (Hc1 & Hgone1 & Htext1 & Hp1).
  eapply (halts_wp _ (fun now w' => good w' /\ later (w_env w1) (w_env w') /\ clock (w_env w1) <= now <= clock (w_env w') /\
    (forall lag, prompt E lag -> clock (w_env w') <= clock (w_env w1) + lag))).
  { apply currentTimestamp_spec; [done|lia|by intros]. }
  intros now w2 (Hg2 & (Hc2 & Hgone2 & Htext2 & Hp2) & Hnow & Hlag2).
  destruct (Z.leb_spec now 0); [lia|]. apply halts_bind, halts_ret. apply attach_turn_spec; [done| |].
  { intros Hout. split; [done|]. intros lag g Hp Hgone. specialize (Hlag1 lag Hp). specialize (Hlag2 lag Hp).
    specialize (Hbefore g Hgone). lia. }
  intros w5 Hin Hg5 (Hc5 & Hgone5 & Htext5 & Hp5) Hend. eapply halts_mono; [apply IH; [done| |done|lia|lia]| |].
  - rewrite Htext5, Htext2, Htext1, Hv. done.
  - intros b w' [Hg' (g & He & Hgt & Hb & _)]. rewrite Hgone5, Hgone2, Hgone1 in He. rewrite (Hb eq_refl). split; [done|].
    exists g. split_and!; try done. intros _ Hle. specialize (Hbefore g He). lia.
  - intros st [-> Hst]. split; [done|]. intros lag g Hp He. apply Hst; [done|]. by rewrite Hgone5, Hgone2, Hgone1.
Qed.

(** C8: waiting always comes to an end, however long the calls take and however often the sleep is
    interrupted.  [waitIfAttaching] returns with the key gone, having withdrawn what it announced:
    no announcement if the key was seen, the announcement as it was if the key was gone at the
    start.  Or it exits with ERR_ATTACH_TIMEDOUT: where reading the key and reading the time take
    at most [lag] milliseconds each, it does so only if the key was not removed before the time it
    names (up to twice that lag). *)
Theorem waitIfAttaching_ends fuel ts w :
  good w -> (strtoll 10 (attach_text (w_env w))).1.1 = ts -> 0 < ts -> 0 < clock (w_env w) ->
  (Z.to_nat (ts + 1 - clock (w_env w)) + patience (w_env w) < fuel)%nat ->
  halts (waitIfAttaching strerror fuel)
    (fun _ w' => exists g, gone (w_env w) = Some g /\ g <= clock (w_env w') /\
       (announced (w_env w') = None \/ announced (w_env w') = announced (w_env w)) /\
       (g <= clock (w_env w) -> announced (w_env w') = announced (w_env w)) /\
       (forall lag, prompt E lag -> clock (w_env w) + lag < g -> announced (w_env w') = None))
    (fun st => st = err_code ERR_ATTACH_TIMEDOUT /\
       forall lag g, prompt E lag -> gone (w_env w) = Some g -> ts < g + 2 * lag) w.
Proof.
  intros Hg Hts Hpos Hc Hf. apply halts_bind. eapply halts_mono; [by eapply attach_loop_spec|cbn beta|done].
  intros b w' (Hg' & g & He & Hgt & _ & Hn & Hearly & Hlate). destruct b.
  - eapply halts_wp; [by apply attach_delete|]. cbn beta. intros _ w2 (_ & (Hc2 & _) & Hn2). exists g.
    split_and!; [done|lia|by left| |done]. intros Hle. by specialize (Hearly eq_refl Hle).
  - apply halts_ret. exists g. rewrite Hn by done. split_and!; [done|done|by right|done|].
    intros lag Hp Hl. by specialize (Hlate lag Hp Hl).
Qed.
End attach.

(** ** A run *)

(** The time, the time at which the key is removed, the signals to come, and what is announced;
    the key asks to wait until the time 5000.  A read of the key or of the time takes 3
    milliseconds, and answers what held in the middle of it. *)
Record attach_env := AttEnv { ae_clock : Z; ae_gone : option Z; ae_signals : nat; ae_announced : option cstr }.

#[export] Instance attach_env_attach : Attach attach_env := {|
  clock := ae_clock; gone := ae_gone; attach_text := fun _ => cs "5000"; announced := ae_announced; patience := ae_signals
|}.

Definition ae_after (ms : Z) (e : attach_env) : attach_env := AttEnv (ae_clock e + ms) (ae_gone e) (ae_signals e) (ae_announced e).

#[export] Instance attach_metadata : Metadata attach_env := {|
  mdataGet := fun key => e ← get_env; put_env (ae_after 3 e) ;;
    mret (if decide (key = ATTACH_KEY) then attach_at e (ae_clock e + 1) else None);
  mdataPut := fun key v => e ← get_env; put_env (AttEnv (ae_clock e + 5) (ae_gone e) (ae_signals e) (Some v));
  mdataDelete := fun key => e ← get_env; put_env (AttEnv (ae_clock e + 5) (ae_gone e) (ae_signals e) None)
|}.

(** A pending signal cuts a sleep short, with [EINTR]. *)
#[export] Instance attach_kernel : Kernel attach_env := fun name args e =>
  match args with
  | [AZ us] =>
      match ae_signals e with
      | O => (SysRet 0 0 [] [], ae_after (us / 1000) e)
      | S n => (SysRet (-1) 4 [] [], AttEnv (ae_clock e + 1) (ae_gone e) n (ae_announced e))
      end
  | _ => (SysRet 0 0 [] [(ae_clock e + 1) / 1000; (ae_clock e + 1) mod 1000 * 1000], ae_after 3 e)
  end.

#[export] Instance attach_env_laws : AttachEnv attach_env.
Proof.
  split; unfold later.
  - intros w [? ?]. cbn [w_env clock gone attach_text announced patience attach_env_attach].
    change (wp _ ?Q w) with (Q (attach_at (w_env w) (ae_clock (w_env w) + 1))
      (World (w_errno w) (w_heap w) (w_stderr w) (ae_after 3 (w_env w)))). unfold ae_after. cbn.
    split_and!; try done; try lia. exists (ae_clock (w_env w) + 1). split; [lia|done].
  - intros v w [? ?]. unfold wp. cbn. split_and!; try done; cbn; lia.
  - intros w [? ?]. unfold wp. cbn. split_and!; try done; cbn; lia.
  - intros e r e' [= <- <-]. unfold ae_after. cbn. split_and!; try done; try lia. exists (ae_clock e + 1), 0.
    rewrite Z.add_0_r. split_and!; done || lia.
  - intros us e r e' Hus Hs. pose proof (Z.div_pos us 1000 Hus ltac:(lia)). cbn in Hs.
    destruct (ae_signals e) as [|n] eqn:Hn; injection Hs as <- <-; unfold ae_after; cbn; rewrite ?Hn; split_and!; try done; lia.
Defined.

Lemma attach_env_prompt : prompt attach_env 3.
Proof. split; [intros w w' v _ Hm; by injection Hm as _ <-|]. intros e e' r Hs. by injection Hs as _ <-. Qed.

Definition sample_strerror (e : Z) : cstr := cs "Error " ++ print_d e.
Definition sample_start (gone : option Z) : world attach_env := World 0 [] [] (AttEnv 1000 gone 2 None).

(** Attached at the time 2100; never attached. *)
Example sample_attached :
  match waitIfAttaching sample_strerror 50 (sample_start (Some 2100)) with
  | Done (_, w) => (ae_clock (w_env w), ae_signals (w_env w), ae_announced (w_env w)) = (2263, 0%nat, None)
  | _ => False
  end.
Proof. vm_compute. reflexivity. Qed.
Example sample_timed_out : waitIfAttaching sample_strerror 50 (sample_start None) = Exited (err_code ERR_ATTACH_TIMEDOUT).
Proof. vm_compute. reflexivity. Qed.

(** A key removed at 4990 is waited for: the program returns, and announces nothing. *)
Lemma waitIfAttaching_ends_witness :
  halts (waitIfAttaching sample_strerror 5000) (fun _ w' => announced (w_env w') = None) (fun _ => False) (sample_start (Some 4990)).
Proof.
  eapply halts_mono.
  - apply (waitIfAttaching_ends sample_strerror 5000 5000 (sample_start (Some 4990)));
      [by split; constructor|by vm_compute|done|done|by_decide].
  - intros [] w' (g & Hg & _ & _ & _ & Hnone). injection Hg as <-. exact (Hnone 3 attach_env_prompt eq_refl).
  - intros st [_ Hst]. specialize (Hst 3 4990 attach_env_prompt eq_refl). revert Hst. by_decide.
Defined.
