(* ===== verification/DockerinitFd.v ===== *)
(** * DockerinitFd: the descriptors of the container and of its logger

    [FdEnv] is a kernel with a table of descriptors: an [open] takes the lowest number that is
    free, and the devices of zfd may be missing for a while.  The command gets its terminal or its
    pipes on 0, 1 and 2 ([setupTerminal_connects]), the logger its streams on 3 and 4
    ([logger_child_connects]). *)
From Stdlib Require Import Lia.
From S2P Require Import Prelude Cnum Strset Sys Mdata DockerEnv Docker Dockerinit.

Definition NULL_DEVICE : cstr := cs "/dev/null".

(** An open descriptor: the path it was opened with, and whether an [exec] closes it. *)
Record fdesc := Fd { fd_path : cstr; fd_cloexec : bool }.

#[export] Instance fdesc_dec : EqDecision fdesc.
Proof. solve_decision. Defined.

(** The flags of an [open] ask for close-on-exec. *)
Fixpoint cloexec_mode (mode : cstr) : bool :=
  bool_decide (take 9 mode = cs "O_CLOEXEC") || match mode with [] => false | _ :: mode => cloexec_mode mode end.

Definition fd_opened (path mode : cstr) : fdesc := Fd path (cloexec_mode mode).
(** Without the flag: what [open] makes by default and [dup2] always. *)
Definition kept (path : cstr) : fdesc := Fd path false.
Definition dup_of (d : fdesc) : fdesc := kept (fd_path d).

(** What an [exec] leaves of a descriptor. *)
Definition after_exec (d : option fdesc) : option fdesc := d ≫= fun d => if fd_cloexec d then None else Some d.

(** [fd_of e fd] is what descriptor [fd] is open on, [late e] bounds how often a device
    will not be there yet, [cterm] is the controlling terminal, [muxes] the streams linked so far:
    the device the request was made on and the instance linked to it.  [minor path] is the
    instance of a device. *)
Class FdEnv (E : Type) `{Kernel E} := {
  fd_of : E -> Z -> option fdesc;
  late : E -> nat;
  cterm : E -> option cstr;
  muxes : E -> list (option cstr * Z);
  minor : cstr -> Z;
  fd_open path mode e r e' : sys_step "open" [AS path; AS mode] e = (r, e') ->
    cterm e' = cterm e /\ muxes e' = muxes e /\
    (sr_ret r = -1 /\ sr_errno r = ENOENT /\ path <> NULL_DEVICE /\ (late e' < late e)%nat /\ (forall fd, fd_of e' fd = fd_of e fd) \/
     0 <= sr_ret r /\ fd_of e (sr_ret r) = None /\ (forall fd, 0 <= fd < sr_ret r -> is_Some (fd_of e fd)) /\
     (late e' <= late e)%nat /\ (forall fd, fd_of e' fd = if decide (fd = sr_ret r) then Some (fd_opened path mode) else fd_of e fd));
  fd_close fd e r e' : sys_step "close" [AZ fd] e = (r, e') -> is_Some (fd_of e fd) ->
    sr_ret r = 0 /\ late e' = late e /\ cterm e' = cterm e /\ muxes e' = muxes e /\
    (forall fd', fd_of e' fd' = if decide (fd' = fd) then None else fd_of e fd');
  fd_sleep ns e r e' : sys_step "nanosleep" [AZ ns] e = (r, e') ->
    late e' = late e /\ cterm e' = cterm e /\ muxes e' = muxes e /\ (forall fd, fd_of e' fd = fd_of e fd);
  fd_setsid e r e' : sys_step "setsid" [] e = (r, e') ->
    0 <= sr_ret r /\ late e' = late e /\ cterm e' = None /\ muxes e' = muxes e /\ (forall fd, fd_of e' fd = fd_of e fd);
  fd_ctty fd e r e' : sys_step "ioctl" [AZ fd; AS (cs "TIOCSCTTY"); AZ 0] e = (r, e') -> is_Some (fd_of e fd) ->
    0 <= sr_ret r /\ late e' = late e /\ cterm e' = fd_path <$> fd_of e fd /\ muxes e' = muxes e /\ (forall fd, fd_of e' fd = fd_of e fd);
  fd_stat fd d e r e' : sys_step "fstat" [AZ fd] e = (r, e') -> fd_of e fd = Some d ->
    sr_ret r = 0 /\ head (sr_vals r) = Some (minor (fd_path d)) /\
    late e' = late e /\ cterm e' = cterm e /\ muxes e' = muxes e /\ (forall fd, fd_of e' fd = fd_of e fd);
  fd_mux fd instance e r e' : sys_step "ioctl" [AZ fd; AS (cs "ZFD_MUX"); AZ instance] e = (r, e') -> is_Some (fd_of e fd) ->
    sr_ret r = 0 /\ late e' = late e /\ cterm e' = cterm e /\ muxes e' = muxes e ++ [(fd_path <$> fd_of e fd, instance)] /\
    (forall fd, fd_of e' fd = fd_of e fd);
  fd_dup2 a b e r e' : 0 <= b -> sys_step "dup2" [AZ a; AZ b] e = (r, e') -> is_Some (fd_of e a) ->
    sr_ret r = b /\ late e' = late e /\ cterm e' = cterm e /\ muxes e' = muxes e /\
    (forall fd, fd_of e' fd = if decide (fd = b /\ a <> b) then dup_of <$> fd_of e a else fd_of e fd);
  fd_closefrom a e r e' : sys_step "closefrom" [AZ a] e = (r, e') ->
    late e' = late e /\ cterm e' = cterm e /\ muxes e' = muxes e /\
    (forall fd, fd_of e' fd = if decide (a <= fd) then None else fd_of e fd);
  fd_open64 path mode e r e' : sys_step "open64" [AS path; AS mode] e = (r, e') ->
    0 <= sr_ret r /\ fd_of e (sr_ret r) = None /\ late e' = late e /\ cterm e' = cterm e /\ muxes e' = muxes e /\
    (forall fd, fd_of e' fd = if decide (fd = sr_ret r) then Some (fd_opened path mode) else fd_of e fd);
  fd_template name args e r e' : name ∈ ["ct_tmpl_set_critical"; "ct_tmpl_set_informative"; "ct_pr_tmpl_set_fatal";
      "ct_pr_tmpl_set_param"; "ct_pr_tmpl_set_svc_fmri"; "ct_tmpl_activate"]%string -> sys_step name args e = (r, e') ->
    sr_ret r = 0 /\ late e' = late e /\ cterm e' = cterm e /\ muxes e' = muxes e /\ (forall fd, fd_of e' fd = fd_of e fd);
  fd_fdopen fd mode e r e' : sys_step "fdopen" [AZ fd; AS mode] e = (r, e') -> is_Some (fd_of e fd) ->
    sr_ret r <> 0 /\ late e' = late e /\ cterm e' = cterm e /\ muxes e' = muxes e /\ (forall fd, fd_of e' fd = fd_of e fd);
  zroot : cstr;
  fd_zroot e r e' : sys_step "zone_get_nroot" [] e = (r, e') -> (if sr_ret r =? 0 then [] else sr_data r) = zroot /\
    late e' = late e /\ cterm e' = cterm e /\ muxes e' = muxes e /\ (forall fd, fd_of e' fd = fd_of e fd);
  ran : E -> option (list sarg);
  fd_execve args e r e' : sys_step "execve" args e = (r, e') -> sr_ret r = 0 /\ ran e' = Some args /\
    late e' = late e /\ cterm e' = cterm e /\ muxes e' = muxes e /\ (forall fd, fd_of e' fd = after_exec (fd_of e fd))
}.

(** What the theorems say of a world. *)
Definition fd_state {E} `{FdEnv E} (t : Z -> option fdesc) (n : nat) (c : option cstr) (m : list (option cstr * Z)) (w : world E) : Prop :=
  (forall fd, fd_of (w_env w) fd = t fd) /\ (late (w_env w) <= n)%nat /\ cterm (w_env w) = c /\ muxes (w_env w) = m.

(** A table after a change. *)
Definition set_fd (fd : Z) (p : option fdesc) (t : Z -> option fdesc) : Z -> option fdesc := fun fd' => if decide (fd' = fd) then p else t fd'.

(** The lowest number that is free. *)
Definition lowest (fd : Z) (t : Z -> option fdesc) : Prop := 0 <= fd /\ t fd = None /\ (forall fd', 0 <= fd' < fd -> is_Some (t fd')).

Lemma lowest_unique a b t : lowest a t -> lowest b t -> a = b.
Proof.
  intros (Ha & Hna & Hla) (Hb & Hnb & Hlb). destruct (Z.lt_trichotomy a b) as [Hlt|[Heq|Hgt]]; [|done|].
  - destruct (Hlb a) as [p Hp]; [lia|congruence].
  - destruct (Hla b) as [p Hp]; [lia|congruence].
Qed.

Section fds.
Context {E : Type} `{FdEnv E} (strerror : Z -> cstr).
Implicit Types (w : world E) (t : Z -> option fdesc).

#[local] Abbreviation fd_post t n c m Q := (forall w', good w' -> fd_state t n c m w' -> Q w').

Lemma open_spec path mode fd t n c m (Q : Z -> world E -> Prop) w :
  good w -> fd_state t n c m w -> lowest fd t ->
  (forall w' n', good w' -> (n' < n)%nat -> path <> NULL_DEVICE -> w_errno w' = ENOENT -> fd_state t n' c m w' -> Q (-1) w') ->
  fd_post (set_fd fd (Some (fd_opened path mode)) t) n c m (Q fd) ->
  wp (sys "open" [AS path; AS mode]) Q w.
Proof.
  intros [Hl Ht] (Hfd & Hn & Hc & Hm) Hlow Hlate HQ. destruct (sys_step "open" [AS path; AS mode] (w_env w)) as [r e'] eqn:Hs.
  eapply wp_sys; [exact Hs|]. destruct (fd_open _ _ _ _ _ Hs) as (Hc' & Hm' & [(Hr & He & Hp & Hlt & Hsame)|(Hr & Hnone & Hbelow & Hle & Hnew)]).
  - rewrite Hr, He. apply (Hlate _ (late e')); [by split|lia|done|done|]. split_and!; cbn; [intros fd'; by rewrite Hsame|done|congruence|congruence].
  - assert (sr_ret r = fd) as <-.
    { apply (lowest_unique _ _ t); [|done]. split; [done|]. rewrite <-Hfd. split; [done|]. intros fd' Hfd'. rewrite <-Hfd. by apply Hbelow. }
    apply HQ; [by split|]. split_and!; cbn; [|lia|congruence|congruence]. intros fd'. rewrite Hnew. unfold set_fd. case_decide; [done|apply Hfd].
Qed.

Lemma zfd_open_loop_spec k path mode i fd0 fd t n c m (Q : Z -> world E -> Prop) w :
  good w -> fd_state t n c m w -> lowest fd t -> (n < k)%nat -> Z.of_nat k + i = ZFD_OPEN_RETRIES ->
  fd_post (set_fd fd (Some (fd_opened path mode)) t) n c m (Q fd) -> wp (zfd_open_loop k path mode i fd0) Q w.
Proof.
  revert i fd0 n w. induction k as [|k IH]; intros i fd0 n w Hg Hst Hlow Hk Hi HQ; [lia|]. cbn [zfd_open_loop].
  apply wp_bind. eapply open_spec; [done|done|exact Hlow| |].
  - intros w1 n1 Hg1 Hn1 Hnull He Hst1. apply wp_bind, wp_get_errno. rewrite He. cbn [Z.leb Z.compare negb orb Z.eqb ENOENT Pos.eqb].
    assert (0 < Z.of_nat k) by lia. destruct (Z.ltb_spec (i + 1) ZFD_OPEN_RETRIES); [|lia].
    assert (forall Q', (forall w', good w' -> fd_state t n1 c m w' -> Q' tt w') ->
      wp ((if i mod 10 =? 0 then dlog (cs "WARN open(" ++ path ++ cs ") ENOENT on attempt " ++ print_d i ++ cs ", " ++
             (if i =? 0 then cs "will retry" else cs "still retrying")) else mret tt) ;;
          _ ← sys "nanosleep" [AZ 100000000]; mret tt) Q' w1) as Hsleep.
    { intros Q' HQ'. assert (forall w', good w' -> w_env w' = w_env w1 -> wp (_ ← sys "nanosleep" [AZ 100000000]; mret tt) Q' w') as Hnap.
      { intros w' [Hl' Ht'] He'. apply wp_bind. destruct (sys_step "nanosleep" [AZ 100000000] (w_env w')) as [r e'] eqn:Hs.
        eapply wp_sys; [exact Hs|]. destruct (fd_sleep _ _ _ _ Hs) as (Hd & Hc & Hm & Hf). apply wp_ret, HQ'; [done|].
        destruct Hst1 as (Hf1 & Hd1 & Hc1 & Hm1). rewrite He' in *. split_and!; cbn; [intros; by rewrite Hf|lia|congruence|congruence]. }
      apply wp_bind. case_match; [apply dlog_spec; [done|]; intros w' [? ?]; by apply Hnap|by apply wp_ret, Hnap]. }
    apply wp_bind, Hsleep. intros w2 Hg2 Hst2. apply (IH (i + 1) (-1) n1); [done|done|done|lia|lia|].
    intros w3 Hg3 (Hf3 & Hd3 & Hr3). apply HQ; [done|]. split; [done|]. split; [lia|done].
  - intros w1 Hg1 Hst1. apply wp_bind, wp_get_errno. destruct Hlow as (Hfd & _). destruct (Z.leb_spec 0 fd); [|lia]. cbn [orb].
    apply wp_bind, dlog_spec; [done|]. intros w2 [Hg2 He2]. apply wp_ret, HQ; [done|]. unfold fd_state. by rewrite He2.
Qed.

Lemma zfd_open_spec path mode fd t n c m (Q : Z -> world E -> Prop) w :
  good w -> fd_state t n c m w -> lowest fd t -> (n < 300)%nat ->
  fd_post (set_fd fd (Some (fd_opened path mode)) t) n c m (Q fd) -> wp (zfd_open path mode) Q w.
Proof. intros. by eapply zfd_open_loop_spec. Qed.

Lemma fd_state_ext t t' n c m w : (forall fd, t fd = t' fd) -> fd_state t n c m w -> fd_state t' n c m w.
Proof. intros Ht (Hf & Hr). split; [|done]. intros fd. by rewrite <-Ht. Qed.

(** A call that succeeds: its result satisfies [P], and it changes the state of the descriptors to
    the one given. *)
Lemma call_spec name args t n c m t' c' m' (P : sysret -> Prop) (Q : sysret -> world E -> Prop) w :
  good w -> fd_state t n c m w ->
  (forall r e', sys_step name args (w_env w) = (r, e') -> P r /\ (late e' <= n)%nat /\ cterm e' = c' /\ muxes e' = m' /\ forall fd, fd_of e' fd = t' fd) ->
  (forall r, P r -> fd_post t' n c' m' (Q r)) -> wp (syscall name args) Q w.
Proof.
  intros [Hl Ht] Hst Hcall HQ. destruct (sys_step name args (w_env w)) as [r e'] eqn:Hs.
  destruct (Hcall _ _ eq_refl) as (HP & Hd & Hc & Hm & Hf). eapply wp_syscall; [exact Hs|]. apply HQ; [done|by split|by split_and!].
Qed.

Lemma close_spec fd t n c m (Q : Z -> world E -> Prop) w :
  good w -> fd_state t n c m w -> is_Some (t fd) -> fd_post (set_fd fd None t) n c m (Q 0) -> wp (sys "close" [AZ fd]) Q w.
Proof.
  intros Hg Hst Hfd HQ. apply wp_bind. destruct Hst as (Hf & Hn & Hc & Hm). rewrite <-Hf in Hfd.
  eapply (call_spec _ _ t n c m (set_fd fd None t) c m (fun r => sr_ret r = 0)); [done|by split_and!| |].
  - intros r e' Hs. destruct (fd_close _ _ _ _ Hs Hfd) as (? & ? & ? & ? & Hd). split_and!; [done|lia|congruence|congruence|].
    intros fd'. rewrite Hd. unfold set_fd. case_decide; [done|apply Hf].
  - intros r Hr w' Hg' Hst'. apply wp_ret. rewrite Hr. by apply HQ.
Qed.

Lemma check_spec ok code msg (Q : () -> world E -> Prop) w : ok = true -> Q tt w -> wp (check strerror ok code msg) Q w.
Proof. by intros -> HQ. Qed.

Lemma close_or_spec fd t n c m (Q : () -> world E -> Prop) w :
  good w -> fd_state t n c m w -> is_Some (t fd) -> fd_post (set_fd fd None t) n c m (Q tt) -> wp (close_or strerror fd) Q w.
Proof.
  intros Hg Hst Hfd HQ. apply wp_bind. eapply close_spec; [done|done|done|]. intros w' Hg' Hst'. apply check_spec; [done|]. by apply HQ.
Qed.

Lemma open_std_spec path mode fd t n c m (Q : () -> world E -> Prop) w :
  good w -> fd_state t n c m w -> lowest fd t -> (n < 300)%nat ->
  fd_post (set_fd fd (Some (fd_opened path mode)) t) n c m (Q tt) -> wp (open_std strerror path mode fd) Q w.
Proof.
  intros Hg Hst Hlow Hn HQ. pose proof Hlow as (Hfd & _). apply wp_bind. eapply zfd_open_spec; [done|done|done|done|]. intros w' Hg' Hst'.
  apply wp_bind, check_spec; [by destruct (Z.eqb_spec fd (-1)); [lia|]|]. unfold assertFd. rewrite Z.eqb_refl. cbn [negb]. apply wp_ret. by apply HQ.
Qed.

(** ** The terminal *)

Ltac fd_solve :=
  unfold lowest, set_fd; repeat first [split | intros ? | case_decide | lia | done | congruence]; eauto.

(** The table with stdin, and the one at the end. *)
Definition stdin_fds (open_stdin : bool) t : Z -> option fdesc := if open_stdin then set_fd 0 (Some (kept (cs "/dev/zfd/0"))) t else t.

Definition terminal_fds (open_stdin ctty : bool) t : Z -> option fdesc :=
  set_fd 2 (Some (kept (if ctty then cs "/dev/zfd/0" else cs "/dev/zfd/2")))
    (set_fd 1 (Some (kept (if ctty then cs "/dev/zfd/0" else cs "/dev/zfd/1"))) (stdin_fds open_stdin t)).

Context `{MD : Metadata E}.

(** The agent answers without a change of the descriptors. *)
Definition fd_metadata (key : cstr) (v : option cstr) : Prop := forall t n c m w,
  good w -> fd_state t n c m w -> wp (mdataGet key) (fun v' w' => v' = v /\ good w' /\ fd_state t n c m w') w.

(** [getStdinStatus] and the reopening of stdin. *)
Lemma stdin_spec stdin t n c m (Q : bool -> world E -> Prop) w :
  fd_metadata (cs "docker:open_stdin") stdin -> good w -> fd_state t n c m w ->
  fd_post t n c m (Q (bool_decide (stdin = Some (cs "true")))) -> wp getStdinStatus Q w.
Proof.
  intros Hmd Hg Hst HQ. apply wp_bind. eapply wp_mono; [by apply Hmd|]. intros v w' (-> & Hg' & Hst'). apply wp_ret.
  replace (match stdin with Some data => strcmp (cs "true") data =? 0 | None => false end) with (bool_decide (stdin = Some (cs "true"))); [by apply HQ|].
  destruct stdin as [data|]; [|done]. apply eq_bool_prop_intro. rewrite !Is_true_true, bool_decide_eq_true, Z.eqb_eq, strcmp_eq. naive_solver.
Qed.

Lemma reopen_spec (b : bool) t n c m (Q : () -> world E -> Prop) w :
  good w -> fd_state t n c m w -> (n < 300)%nat -> is_Some (t 0) -> fd_post (stdin_fds b t) n c m (Q tt) ->
  wp (if b then close_or strerror 0 ;; open_std strerror (cs "/dev/zfd/0") (cs "O_RDWR") 0 else mret tt) Q w.
Proof.
  intros Hg Hst Hn Hs0 HQ. destruct b; [|by apply wp_ret, HQ]. apply wp_bind. eapply close_or_spec; [done|done|done|]. intros w3 Hg3 Hst3.
  eapply open_std_spec; [done|exact Hst3|fd_solve|done|]. intros w4 Hg4 Hst4. apply HQ; [done|].
  eapply fd_state_ext; [|exact Hst4]. intros fd. unfold stdin_fds, set_fd. by repeat case_decide.
Qed.

(** Standard output and standard error, both closed before. *)
Lemma stdout_spec p1 t n c m (Q : () -> world E -> Prop) w :
  good w -> fd_state (set_fd 2 None (set_fd 1 None t)) n c m w -> (n < 300)%nat -> is_Some (t 0) ->
  fd_post (set_fd 2 None (set_fd 1 (Some (kept p1)) t)) n c m (Q tt) -> wp (open_std strerror p1 (cs "O_WRONLY") 1) Q w.
Proof.
  intros Hg Hst Hn Hs0 HQ. eapply open_std_spec; [done|exact Hst| |done|].
  { split; [done|]. split; [done|]. intros fd Hfd. replace fd with 0 by lia. done. }
  intros w6 Hg6 Hst6. apply HQ; [done|]. eapply fd_state_ext; [|exact Hst6]. intros fd. unfold set_fd. repeat case_decide; first [done|lia].
Qed.

Lemma stderr_spec p1 p2 t n c m (Q : () -> world E -> Prop) w :
  good w -> fd_state (set_fd 2 None (set_fd 1 (Some (kept p1)) t)) n c m w -> (n < 300)%nat -> is_Some (t 0) ->
  fd_post (set_fd 2 (Some (kept p2)) (set_fd 1 (Some (kept p1)) t)) n c m (Q tt) -> wp (open_std strerror p2 (cs "O_WRONLY") 2) Q w.
Proof.
  intros Hg Hst Hn Hs0 HQ. eapply open_std_spec; [done|exact Hst| |done|].
  { split; [done|]. split; [done|]. intros fd Hfd. assert (fd = 0 \/ fd = 1) as [-> | ->] by lia; [done|]. by eexists. }
  intros w7 Hg7 Hst7. apply HQ; [done|]. eapply fd_state_ext; [|exact Hst7]. intros fd. unfold set_fd. by repeat case_decide.
Qed.

(** The session and its terminal. *)
Lemma session_spec t p n c m (Q : () -> world E -> Prop) w :
  good w -> fd_state t n c m w -> t 1 = Some (kept p) -> fd_post t n (Some p) m (Q tt) ->
  wp (r ← sys "setsid" [];
      check strerror (0 <=? r) ERR_OPEN_CONSOLE (cs "failed to create process session") ;;
      r ← sys "ioctl" [AZ 1; AS (cs "TIOCSCTTY"); AZ 0];
      check strerror (0 <=? r) ERR_OPEN_CONSOLE (cs "failed set controlling tty")) Q w.
Proof.
  intros Hg Hst Hp HQ. apply wp_bind, wp_bind.
  eapply (call_spec _ _ _ _ _ _ _ None m (fun r => 0 <= sr_ret r)); [done|exact Hst| |].
  { intros r e' Hs. destruct Hst as (Hf & Hd & Hc & Hm). destruct (fd_setsid _ _ _ Hs) as (? & ? & ? & ? & Hf').
    split_and!; [done|lia|done|congruence|]. intros fd. by rewrite Hf', Hf. }
  intros r Hr w8 Hg8 Hst8. apply wp_ret, wp_bind, check_spec; [by apply Z.leb_le|]. apply wp_bind, wp_bind.
  eapply (call_spec _ _ _ _ _ _ _ (Some p) m (fun r => 0 <= sr_ret r)); [done|exact Hst8| |].
  { intros r1 e' Hs. destruct Hst8 as (Hf & Hd & Hc & Hm). assert (fd_of (w_env w8) 1 = Some (kept p)) as H1 by by rewrite Hf.
    destruct (fd_ctty _ _ _ _ Hs) as (? & ? & Hct & ? & Hf'); [by rewrite H1|]. rewrite H1 in Hct. cbn in Hct.
    split_and!; [done|lia|congruence|congruence|]. intros fd. by rewrite Hf', Hf. }
  intros r1 Hr1 w9 Hg9 Hst9. apply wp_ret, check_spec; [by apply Z.leb_le|]. by apply HQ.
Qed.

(** ** The logger *)

Lemma template_spec name args t n c m (Q : Z -> world E -> Prop) w :
  name ∈ ["ct_tmpl_set_critical"; "ct_tmpl_set_informative"; "ct_pr_tmpl_set_fatal";
    "ct_pr_tmpl_set_param"; "ct_pr_tmpl_set_svc_fmri"; "ct_tmpl_activate"]%string ->
  good w -> fd_state t n c m w -> fd_post t n c m (Q 0) -> wp (sys name args) Q w.
Proof.
  intros Hname Hg Hst HQ. apply wp_bind. eapply (call_spec _ _ t n c m t c m (fun r => sr_ret r = 0)); [done|done| |].
  - intros r e' Hs. destruct Hst as (Hf & Hd & Hc & Hm). destruct (fd_template _ _ _ _ _ Hname Hs) as (? & ? & ? & ? & Hf').
    split_and!; [done|lia|congruence|congruence|]. intros fd. by rewrite Hf', Hf.
  - intros r Hr w' Hg' Hst'. apply wp_ret. rewrite Hr. by apply HQ.
Qed.

(** A template is made and its descriptor closed. *)
Lemma template_closed flag t n c m (Q : Z -> world E -> Prop) w :
  good w -> fd_state t n c m w ->
  (forall fd w', good w' -> t fd = None -> fd_state (set_fd fd (Some (fd_opened (cs "/system/contract/process/template") (cs "O_RDWR"))) t) n c m w' -> Q fd w') ->
  wp (init_template strerror flag) Q w.
Proof.
  intros Hg Hst HQ. apply wp_bind, wp_bind. destruct (sys_step "open64" [AS (cs "/system/contract/process/template"); AS (cs "O_RDWR")] (w_env w)) as [r e'] eqn:Hs.
  pose proof Hst as (Hf & Hd & Hc & Hm). destruct (fd_open64 _ _ _ _ _ Hs) as (Hr & Hfree & Hd' & Hc' & Hm' & Hf').
  rewrite Hf in Hfree. set (fd := sr_ret r) in *. set (t' := set_fd fd (Some (fd_opened (cs "/system/contract/process/template") (cs "O_RDWR"))) t) in *.
  eapply (call_spec _ _ t n c m t' c m (fun r => sr_ret r = fd)); [done|done| |].
  { intros r1 e1 Hs1. rewrite Hs in Hs1. injection Hs1 as <- <-. split_and!; [done|lia|congruence|congruence|].
    intros fd'. rewrite Hf', Hf. done. }
  intros r1 Hr1 w1 Hg1 Hst1. apply wp_ret. rewrite Hr1. apply wp_bind, check_spec; [by destruct (Z.eqb_spec fd (-1)); [lia|]|].
  assert (Hcall : forall name args (k : C E Z) code msg w, good w -> fd_state t' n c m w ->
    name ∈ ["ct_tmpl_set_critical"; "ct_tmpl_set_informative"; "ct_pr_tmpl_set_fatal";
      "ct_pr_tmpl_set_param"; "ct_pr_tmpl_set_svc_fmri"; "ct_tmpl_activate"]%string ->
    fd_post t' n c m (wp k Q) -> wp (r ← sys name args; check strerror (r =? 0) code msg ;; k) Q w).
  { intros name args k code msg w0 Hg0 Hst0 Hname Hk. apply wp_bind. eapply template_spec; [exact Hname|done|done|].
    intros w' Hg' Hst'. apply wp_bind, check_spec; [done|]. by apply Hk. }
  do 4 (apply Hcall; [done|done|by_decide|]; clear dependent w1; intros w1 Hg1 Hst1).
  apply wp_bind. eapply template_spec; [by_decide|done|done|]. clear dependent w1; intros w1 Hg1 Hst1.
  apply Hcall; [done|done|by_decide|]. clear dependent w1; intros w1 Hg1 Hst1. apply wp_ret. by apply HQ.
Qed.

Lemma makeMux_spec stdid logid std log a b t n c m (Q : () -> world E -> Prop) w :
  fits MAXPATHLEN (zfd_path stdid) = std -> fits MAXPATHLEN (zfd_path logid) = log -> good w -> fd_state t n c m w -> lowest a t -> lowest b (set_fd a (Some (kept std)) t) -> (n < 300)%nat ->
  fd_post t n c (m ++ [(Some log, minor std)]) (Q tt) -> wp (makeMux stdid logid false) Q w.
Proof.
  intros Hstd Hlog Hg Hst Ha Hb Hn HQ. pose proof Ha as (Ha0 & Hfa & _). pose proof Hb as (Hb0 & Hfb & _). unfold makeMux. rewrite Hstd, Hlog.
  apply wp_bind. eapply zfd_open_spec; [done|done|exact Ha|done|]. intros w1 Hg1 Hst1. destruct (Z.eqb_spec a (-1)); [lia|].
  apply wp_bind, wp_ret, wp_bind.
  eapply (call_spec _ _ _ _ _ _ _ c m (fun r => sr_ret r = 0 /\ head (sr_vals r) = Some (minor std))); [done|exact Hst1| |].
  { intros r e' Hs. destruct Hst1 as (Hf & Hd & Hc & Hm). destruct (fd_stat _ (kept std) _ _ _ Hs) as (? & ? & ? & ? & ? & Hf').
    { rewrite Hf. unfold set_fd. by rewrite decide_True. }
    split_and!; [done|done|lia|congruence|congruence|]. intros fd. by rewrite Hf', Hf. }
  intros r [Hr Hv] w2 Hg2 Hst2. rewrite Hr. cbn [Z.eqb negb]. apply wp_bind, wp_ret, wp_bind. eapply wp_access; [exact Hv|].
  apply wp_bind. eapply zfd_open_spec; [done|exact Hst2|exact Hb|done|]. intros w3 Hg3 Hst3. destruct (Z.eqb_spec b (-1)); [lia|].
  apply wp_bind, wp_ret, wp_bind, wp_bind.
  eapply (call_spec _ _ _ _ _ _ _ c (m ++ [(Some log, minor std)]) (fun r => sr_ret r = 0)); [done|exact Hst3| |].
  { intros r' e' Hs. destruct Hst3 as (Hf & Hd & Hc & Hm). assert (fd_of (w_env w3) b = Some (kept log)) as Hb3.
    { rewrite Hf. unfold set_fd. by rewrite decide_True. }
    destruct (fd_mux _ _ _ _ _ Hs) as (? & ? & ? & Hmx & Hf'); [by rewrite Hb3|]. rewrite Hb3 in Hmx. cbn in Hmx.
    split_and!; [done|lia|congruence|congruence|]. intros fd. by rewrite Hf', Hf. }
  intros r' Hr' w4 Hg4 Hst4. apply wp_ret. rewrite Hr'. cbn [Z.eqb negb]. apply wp_bind, wp_ret, wp_bind, wp_ret, wp_bind, wp_bind.
  eapply close_spec; [done|exact Hst4|fd_solve|]. intros w5 Hg5 Hst5. apply wp_ret, wp_bind.
  eapply close_spec; [done|exact Hst5| |].
  { unfold set_fd in *. repeat case_decide; subst; eauto; congruence. }
  intros w6 Hg6 Hst6. apply wp_ret, HQ; [done|]. eapply fd_state_ext; [|exact Hst6]. intros fd.
  unfold set_fd in *. repeat case_decide; subst; congruence.
Qed.

(** The table of the logger: the log, two null devices and the streams. *)
Definition logger_fds (log : option fdesc) (p3 p4 : cstr) : Z -> option fdesc := fun fd =>
  if decide (fd = 0) then log else if decide (fd = 1) then Some (kept NULL_DEVICE) else if decide (fd = 2) then Some (kept NULL_DEVICE)
  else if decide (fd = 3) then Some (kept p3) else if decide (fd = 4) then Some (kept p4) else None.

(** None of it is closed by an [exec] but, perhaps, the log. *)
Lemma logger_fds_exec log p3 p4 fd :
  after_exec (logger_fds log p3 p4 fd) = logger_fds (after_exec log) p3 p4 fd.
Proof. unfold logger_fds. by repeat case_decide. Qed.

(** What is left after [closefrom(1)], and the descriptors opened after it. *)
Definition only_log (log : option fdesc) : Z -> option fdesc := fun fd => if decide (fd = 0) then log else None.

Lemma lowest_below fd t : 0 <= fd -> t fd = None -> (forall k, (k < Z.to_nat fd)%nat -> is_Some (t (Z.of_nat k))) -> lowest fd t.
Proof. intros Hfd Hn Hk. split; [done|]. split; [done|]. intros fd' Hfd'. specialize (Hk (Z.to_nat fd') ltac:(lia)). by rewrite Z2Nat.id in Hk by lia. Qed.

Lemma open_null_spec mode fd what t n c m (Q : () -> world E -> Prop) w :
  good w -> fd_state t n c m w -> lowest fd t -> fd_post (set_fd fd (Some (fd_opened NULL_DEVICE mode)) t) n c m (Q tt) ->
  wp (open_null strerror mode fd what) Q w.
Proof.
  intros Hg Hst Hlow HQ. apply wp_bind. eapply open_spec; [done|done|exact Hlow|by intros|]. intros w' Hg' Hst'.
  apply check_spec; [by apply Z.eqb_refl|]. by apply HQ.
Qed.

Lemma open_zfd_spec path mode fd t n c m (Q : () -> world E -> Prop) w :
  good w -> fd_state t n c m w -> lowest fd t -> (n < 300)%nat -> fd_post (set_fd fd (Some (fd_opened path mode)) t) n c m (Q tt) ->
  wp (open_zfd strerror path mode fd) Q w.
Proof.
  intros Hg Hst Hlow Hn HQ. apply wp_bind. eapply zfd_open_spec; [done|done|exact Hlow|done|]. intros w' Hg' Hst'.
  apply check_spec; [by apply Z.eqb_refl|]. by apply HQ.
Qed.

Definition std_fds (log : option fdesc) : Z -> option fdesc := set_fd 2 (Some (kept NULL_DEVICE)) (set_fd 1 (Some (kept NULL_DEVICE)) (only_log log)).

(** The streams of the logger, from a table with 0, 1 and 2. *)
Definition logger_muxes (ctty : bool) : list (option cstr * Z) :=
  if ctty then [(Some (cs "/dev/zfd/1"), minor (cs "/dev/zfd/0"))]
  else [(Some (cs "/dev/zfd/3"), minor (cs "/dev/zfd/1")); (Some (cs "/dev/zfd/4"), minor (cs "/dev/zfd/2"))].

Definition logger_streams (ctty : bool) : cstr * cstr :=
  if ctty then (cs "/dev/zfd/1", NULL_DEVICE) else (cs "/dev/zfd/3", cs "/dev/zfd/4").

(** [lowest] in a table with the first three descriptors, or four. *)
Ltac low := unfold std_fds, set_fd, only_log; apply lowest_below; [lia|by repeat (rewrite decide_False by lia)|];
  let k := fresh "k" in let Hk := fresh "Hk" in intros k Hk;
  destruct k as [|[|[|[|k]]]]; try lia; repeat case_decide; first [lia|assumption|by eexists].

Lemma streams_spec ctty log n c m (Q : () -> world E -> Prop) w :
  is_Some log -> good w -> fd_state (std_fds log) n c m w -> (n < 300)%nat ->
  fd_post (logger_fds log (logger_streams ctty).1 (logger_streams ctty).2) n c (m ++ logger_muxes ctty) (Q tt) ->
  wp (if ctty then
        makeMux 0 1 false ;; open_zfd strerror (cs "/dev/zfd/1") (cs "O_RDONLY") 3 ;; open_null strerror (cs "O_RDONLY") 4 []
      else
        makeMux 1 3 false ;; makeMux 2 4 false ;;
        open_zfd strerror (cs "/dev/zfd/3") (cs "O_RDONLY") 3 ;; open_zfd strerror (cs "/dev/zfd/4") (cs "O_RDONLY") 4) Q w.
Proof.
  intros [l Hlog] Hg Hst Hn HQ. subst log. set (t := std_fds (Some l)) in *.
  assert (forall p3 p4 m' (k3 k4 : C E ()) w, good w -> fd_state t n c m' w ->
    (forall w (Q' : () -> world E -> Prop), good w -> fd_state t n c m' w -> fd_post (set_fd 3 (Some (kept p3)) t) n c m' (Q' tt) -> wp k3 Q' w) ->
    (forall w (Q' : () -> world E -> Prop), good w -> fd_state (set_fd 3 (Some (kept p3)) t) n c m' w ->
       fd_post (set_fd 4 (Some (kept p4)) (set_fd 3 (Some (kept p3)) t)) n c m' (Q' tt) -> wp k4 Q' w) ->
    fd_post (logger_fds (Some l) p3 p4) n c m' (Q tt) -> wp (k3 ;; k4) Q w) as Hopen.
  { intros p3 p4 m' k3 k4 w0 Hg0 Hst0 H3 H4 HQ0. apply wp_bind, H3; [done|done|]. intros w1 Hg1 Hst1. apply H4; [done|done|].
    intros w2 Hg2 Hst2. apply HQ0; [done|]. eapply fd_state_ext; [|exact Hst2]. intros fd.
    unfold t, std_fds, logger_fds, set_fd, only_log. repeat case_decide; by subst. }
  destruct ctty.
  - apply wp_bind. eapply (makeMux_spec 0 1 _ _ 3 4); [vm_compute; reflexivity|vm_compute; reflexivity|done|exact Hst|unfold t; low|unfold t; low|done|]. intros w1 Hg1 Hst1.
    eapply Hopen; [done|exact Hst1| | |exact HQ].
    + intros w0 Q' Hg0 Hst0 HQ'. eapply open_zfd_spec; [done|exact Hst0|unfold t; low|done|exact HQ'].
    + intros w0 Q' Hg0 Hst0 HQ'. eapply open_null_spec; [done|exact Hst0|unfold t; low|exact HQ'].
  - apply wp_bind. eapply (makeMux_spec 1 3 _ _ 3 4); [vm_compute; reflexivity|vm_compute; reflexivity|done|exact Hst|unfold t; low|unfold t; low|done|]. intros w1 Hg1 Hst1.
    apply wp_bind. eapply (makeMux_spec 2 4 _ _ 3 4); [vm_compute; reflexivity|vm_compute; reflexivity|done|exact Hst1|unfold t; low|unfold t; low|done|]. intros w2 Hg2 Hst2. rewrite <-app_assoc in Hst2.
    eapply Hopen; [done|exact Hst2| | |exact HQ].
    + intros w0 Q' Hg0 Hst0 HQ'. eapply open_zfd_spec; [done|exact Hst0|unfold t; low|done|exact HQ'].
    + intros w0 Q' Hg0 Hst0 HQ'. eapply open_zfd_spec; [done|exact Hst0|unfold t; low|done|exact HQ'].
Qed.

Lemma log_strings_spec what i l (Q : () -> world E -> Prop) w :
  good w -> (forall w', good w' -> w_env w' = w_env w -> Q tt w') -> wp (log_strings what i l) Q w.
Proof.
  revert i w. induction l as [|s l IH]; intros i w Hg HQ; cbn [log_strings]; [|apply wp_bind];
    apply dlog_spec; [done| |done|]; intros w' [Hg' He']; [by apply HQ|]. apply IH; [done|]. intros w2 Hg2 He2. apply HQ; [done|congruence].
Qed.

(** The end of the child: the logger is executed. *)
Lemma exec_logger_spec init_pid log_driver envp t n c m (Q : () -> world E -> Prop) w :
  good w -> fd_state t n c m w ->
  (forall w', good w' -> fd_state (fun fd => after_exec (t fd)) n c m w' ->
     ran (w_env w') = Some (AS (fits MAXPATHLEN (zroot ++ DOCKER_LOGGER)) :: vector [cs "logger"; log_driver] ++ vector envp) -> Q tt w') ->
  wp (cmd ← makePath DOCKER_LOGGER MAXPATHLEN;
      dlog (cs "LOGGER CMD '" ++ cmd ++ cs "'") ;;
      let argv := [cs "logger"; log_driver] in
      log_strings (cs "ARG") 0 argv ;;
      log_strings (cs "ENV") 0 envp ;;
      r ← sys "execve" (AS cmd :: vector argv ++ vector envp);
      if r =? 0 then mret tt else
      e ← get_errno;
      dlog (cs "LOGGER ERROR execve(" ++ cmd ++ cs ") failed: " ++ strerror e) ;;
      dlog (cs "LOGGER ERROR killing init[" ++ print_d init_pid ++ cs "]") ;;
      _ ← sys "kill" [AZ init_pid; AS (cs "SIGKILL")];
      fatal ERR_EXEC_FAILED (cs "execve(" ++ cmd ++ cs ") failed and we killed init")) Q w.
Proof.
  intros Hg Hst HQ. apply wp_bind, wp_bind.
  eapply (call_spec _ _ t n c m t c m (fun r => (if sr_ret r =? 0 then [] else sr_data r) = zroot)); [done|done| |].
  { intros r e' Hs. destruct Hst as (Hf & Hd & Hc & Hm). destruct (fd_zroot _ _ _ Hs) as (? & ? & ? & ? & Hf').
    split_and!; [done|lia|congruence|congruence|]. intros fd. by rewrite Hf', Hf. }
  intros r Hr w1 Hg1 Hst1. apply wp_ret. rewrite Hr. set (cmd := fits _ _) in *.
  apply wp_bind, dlog_spec; [done|]. intros w2 [Hg2 He2]. apply wp_bind, log_strings_spec; [done|]. intros w3 Hg3 He3.
  apply wp_bind, log_strings_spec; [done|]. intros w4 Hg4 He4.
  assert (fd_state t n c m w4) as (Hf & Hd & Hc & Hm) by (unfold fd_state; by rewrite He4, He3, He2).
  apply wp_bind. set (args := AS cmd :: _) in *. destruct (sys_step "execve" args (w_env w4)) as [r' e'] eqn:Hs.
  eapply wp_sys; [exact Hs|]. destruct (fd_execve _ _ _ _ Hs) as (-> & Hran & Hd' & Hc' & Hm' & Hf'). cbn [Z.eqb].
  apply wp_ret, HQ; [by destruct Hg4| |done]. split_and!; cbn; [intros fd; by rewrite Hf', Hf|lia|congruence|congruence].
Qed.

Lemma logger_child_spec ctty log_fd log init_pid log_driver envp t n c m (Q : () -> world E -> Prop) w :
  good w -> fd_state t n c m w -> (n < 300)%nat -> t log_fd = Some log -> log_fd <> 0 -> (forall fd, fd < 0 -> t fd = None) ->
  (forall w', good w' -> fd_state (logger_fds (Some (kept (fd_path log))) (logger_streams ctty).1 (logger_streams ctty).2) n c (m ++ logger_muxes ctty) w' ->
     ran (w_env w') = Some (AS (fits MAXPATHLEN (zroot ++ DOCKER_LOGGER)) :: vector [cs "logger"; log_driver] ++ vector envp) -> Q tt w') ->
  wp (logger_child strerror ctty log_fd init_pid log_driver envp) Q w.
Proof.
  intros Hg Hst Hn Hlog Hz Hneg HQ. unfold logger_child. set (log0 := Some (kept (fd_path log))) in *. apply wp_bind. eapply template_closed; [done|done|]. intros tf w1 Hg1 Htf Hst1.
  apply wp_bind. eapply close_spec; [done|exact Hst1|fd_solve|]. intros w2 Hg2 Hst2.
  assert (fd_state t n c m w2) as Hst2'.
  { eapply fd_state_ext; [|exact Hst2]. intros fd. unfold set_fd. repeat case_decide; by subst. }
  clear Hst2. apply wp_bind, wp_bind.
  eapply (call_spec _ _ _ _ _ _ (set_fd 0 log0 t) c m (fun r => sr_ret r = 0)); [done|exact Hst2'| |].
  { intros r e' Hs. destruct Hst2' as (Hf & Hd & Hc & Hm). destruct (fd_dup2 _ _ _ _ _ ltac:(done) Hs) as (? & ? & ? & ? & Hf'); [by rewrite Hf, Hlog|].
    split_and!; [done|lia|congruence|congruence|]. intros fd. rewrite Hf', !Hf, Hlog. unfold set_fd.
    destruct (decide (fd = 0)) as [->|Hfd]; [by rewrite decide_True|]. by rewrite decide_False by naive_solver. }
  intros r Hr w3 Hg3 Hst3. apply wp_ret, wp_bind, check_spec; [by rewrite Hr|]. apply wp_bind, wp_bind.
  eapply (call_spec _ _ _ _ _ _ (set_fd 0 log0 t) c m (fun r => sr_ret r <> 0)); [done|exact Hst3| |].
  { intros r1 e' Hs. destruct Hst3 as (Hf & Hd & Hc & Hm). destruct (fd_fdopen _ _ _ _ _ Hs) as (? & ? & ? & ? & Hf').
    { rewrite Hf. done. }
    split_and!; [done|lia|congruence|congruence|]. intros fd. by rewrite Hf', Hf. }
  intros r1 Hr1 w4 Hg4 Hst4. apply wp_ret, wp_bind, check_spec; [by destruct (Z.eqb_spec (sr_ret r1) 0)|]. apply wp_bind, wp_bind.
  eapply (call_spec _ _ _ _ _ _ (only_log log0) c m (fun _ => True)); [done|exact Hst4| |].
  { intros r2 e' Hs. destruct Hst4 as (Hf & Hd & Hc & Hm). destruct (fd_closefrom _ _ _ _ Hs) as (? & ? & ? & Hf').
    split_and!; [done|lia|congruence|congruence|]. intros fd. rewrite Hf', Hf. unfold only_log, set_fd.
    repeat case_decide; try done; try lia. apply Hneg. lia. }
  intros r2 _ w5 Hg5 Hst5. apply wp_ret, wp_bind. eapply open_null_spec; [done|exact Hst5|unfold log0; low|]. intros w6 Hg6 Hst6.
  apply wp_bind. eapply open_null_spec; [done|exact Hst6|unfold log0, set_fd, only_log; low|]. intros w7 Hg7 Hst7.
  apply wp_bind. eapply (streams_spec ctty log0); [by eexists|done|exact Hst7|done|]. intros w8 Hg8 Hst8.
  eapply exec_logger_spec; [done|exact Hst8|]. intros w9 Hg9 Hst9 Hran. apply HQ; [done| |done].
  eapply fd_state_ext; [|exact Hst9]. intros fd. apply (logger_fds_exec log0).
Qed.

(** C9: [setupTerminal] gives the command its terminal: 0 is the first zfd device when the
    container has its stdin open and stays as it was otherwise, 1 and 2 are the terminal, which
    becomes the controlling one, or the pipes; no other descriptor changes.  A device that is not
    there yet is waited for. *)
Theorem setupTerminal_connects ctty stdin t n c m w :
  fd_metadata (cs "docker:open_stdin") stdin -> good w -> fd_state t n c m w -> (n < 300)%nat ->
  is_Some (t 0) -> is_Some (t 1) -> is_Some (t 2) ->
  wp (setupTerminal strerror ctty) (fun _ w' =>
    fd_state (terminal_fds (bool_decide (stdin = Some (cs "true"))) ctty t) n (if ctty then Some (cs "/dev/zfd/0") else c) m w') w.
Proof.
  intros Hmd Hg Hst Hn Hs0 Hs1 Hs2. apply wp_bind. eapply stdin_spec; [done|done|done|]. intros w1 Hg1 Hst1. set (b := bool_decide _).
  apply wp_bind, dlog_spec; [done|]. intros w2 [Hg2 He2]. apply wp_bind, (reopen_spec b t n c m); [done|unfold fd_state; by rewrite He2|done|done|].
  intros w3 Hg3 Hst3. set (t0 := stdin_fds b t) in *.
  assert (forall fd, fd <> 0 -> t0 fd = t fd) as Ht0 by (intros fd Hfd; unfold t0, stdin_fds, set_fd; destruct b; [by rewrite decide_False|done]).
  assert (is_Some (t0 0)) as Hz by (unfold t0, stdin_fds, set_fd; destruct b; by eauto).
  apply wp_bind. eapply close_or_spec; [done|done|by rewrite Ht0|]. intros w4 Hg4 Hst4.
  apply wp_bind. eapply close_or_spec; [done|done|unfold set_fd; by rewrite decide_False, Ht0|]. intros w5 Hg5 Hst5. destruct ctty.
  - apply wp_bind. eapply stdout_spec; [done|exact Hst5|done|done|]. intros w6 Hg6 Hst6.
    apply wp_bind. eapply stderr_spec; [done|exact Hst6|done|done|]. intros w7 Hg7 Hst7.
    eapply session_spec; [done|exact Hst7|reflexivity|]. intros w8 Hg8 Hst8. exact Hst8.
  - apply wp_bind. eapply stdout_spec; [done|exact Hst5|done|done|]. intros w6 Hg6 Hst6.
    eapply stderr_spec; [done|exact Hst6|done|done|]. intros w7 Hg7 Hst7. exact Hst7.
Qed.

(** C10: the child of [setupLogging] becomes the logger: with the log on 0, null devices on 1 and
    2, its streams on 3 and 4 and nothing else open, after the streams were linked to those of the
    command, and with the driver as argument and the environment that was gathered.  The log stays
    open on 0 over the [exec] although dockerinit opened it to be closed there ([fd_cloexec log]
    may be true): the descriptor [dup2] makes does not have the flag. *)
Theorem logger_child_connects ctty log_fd log init_pid log_driver envp t n c m w :
  good w -> fd_state t n c m w -> (n < 300)%nat -> t log_fd = Some log -> log_fd <> 0 ->
  (forall fd, fd < 0 -> t fd = None) ->
  wp (logger_child strerror ctty log_fd init_pid log_driver envp) (fun _ w' =>
    fd_state (logger_fds (Some (kept (fd_path log))) (logger_streams ctty).1 (logger_streams ctty).2) n c (m ++ logger_muxes ctty) w' /\
    ran (w_env w') = Some (AS (fits MAXPATHLEN (zroot ++ DOCKER_LOGGER)) :: vector [cs "logger"; log_driver] ++ vector envp)) w.
Proof. intros. by eapply logger_child_spec. Qed.
End fds.

(** ** A kernel *)

Record fd_env := FdE { fe_fds : list (option fdesc); fe_late : nat; fe_cterm : option cstr; fe_muxes : list (option cstr * Z); fe_ran : option (list sarg) }.

Definition put_at (i : nat) (v : option fdesc) (l : list (option fdesc)) : list (option fdesc) :=
  if decide (i < length l)%nat then <[i := v]> l else l ++ replicate (i - length l) None ++ [v].
Fixpoint first_free (l : list (option fdesc)) : nat := match l with Some _ :: l => S (first_free l) | _ => O end.
Definition fe_fd_of (e : fd_env) (fd : Z) : option fdesc := if fd <? 0 then None else mjoin (fe_fds e !! Z.to_nat fd).
Definition fe_set (e : fd_env) (l : list (option fdesc)) : fd_env := FdE l (fe_late e) (fe_cterm e) (fe_muxes e) (fe_ran e).

Definition fe_open (path mode : cstr) (e : fd_env) : sysret * fd_env :=
  let i := first_free (fe_fds e) in (SysRet (Z.of_nat i) 0 [] [], fe_set e (put_at i (Some (fd_opened path mode)) (fe_fds e))).

(** The instance of a device is the last digit of its name. *)
Definition fe_minor (path : cstr) : Z := match list.last path with Some c => code c - 48 | None => 0 end.

#[export] Instance fd_env_kernel : Kernel fd_env := fun name args e =>
  if decide (name = "open"%string) then
    match args, fe_late e with
    | AS path :: AS mode :: _, S n =>
        if decide (path = NULL_DEVICE) then fe_open path mode e
        else (SysRet (-1) ENOENT [] [], FdE (fe_fds e) n (fe_cterm e) (fe_muxes e) (fe_ran e))
    | AS path :: AS mode :: _, O => fe_open path mode e
    | _, _ => (SysRet (-1) 22 [] [], e)
    end
  else if decide (name = "open64"%string) then match args with AS path :: AS mode :: _ => fe_open path mode e | _ => (SysRet (-1) 22 [] [], e) end
  else if decide (name = "execve"%string) then (SysRet 0 0 [] [], FdE (after_exec <$> fe_fds e) (fe_late e) (fe_cterm e) (fe_muxes e) (Some args))
  else if decide (name = "setsid"%string) then (SysRet 7 0 [] [], FdE (fe_fds e) (fe_late e) None (fe_muxes e) (fe_ran e))
  else if decide (name = "fdopen"%string) then (SysRet 4096 0 [] [], e)
  else match args with
  | [AZ fd] =>
      if decide (name = "close"%string) then (SysRet 0 0 [] [], if fd <? 0 then e else fe_set e (put_at (Z.to_nat fd) None (fe_fds e)))
      else if decide (name = "closefrom"%string) then (SysRet 0 0 [] [], fe_set e (take (Z.to_nat fd) (fe_fds e)))
      else if decide (name = "fstat"%string) then (SysRet 0 0 [] [fe_minor (default [] (fd_path <$> fe_fd_of e fd))], e)
      else (SysRet 0 0 [] [], e)
  | [AZ a; AZ b] =>
      if decide (name = "dup2"%string) then (SysRet b 0 [] [], if a =? b then e else fe_set e (put_at (Z.to_nat b) (dup_of <$> fe_fd_of e a) (fe_fds e)))
      else (SysRet 0 0 [] [], e)
  | [AZ fd; AS req; AZ n] =>
      if negb (bool_decide (name = "ioctl"%string)) then (SysRet 0 0 [] [], e)
      else if decide (req = cs "ZFD_MUX") then (SysRet 0 0 [] [], FdE (fe_fds e) (fe_late e) (fe_cterm e) (fe_muxes e ++ [(fd_path <$> fe_fd_of e fd, n)]) (fe_ran e))
      else (SysRet 0 0 [] [], FdE (fe_fds e) (fe_late e) (fd_path <$> fe_fd_of e fd) (fe_muxes e) (fe_ran e))
  | _ => (SysRet 0 0 [] [], e)
  end.

Lemma put_at_lookup i v l j : mjoin (put_at i v l !! j) = if decide (j = i) then v else mjoin (l !! j).
Proof.
  unfold put_at. case_decide as Hi; case_decide as Hj.
  - subst. by rewrite list_lookup_insert_eq.
  - by rewrite list_lookup_insert_ne.
  - subst. rewrite lookup_app_r, lookup_app_r by (rewrite ?length_replicate; lia). rewrite length_replicate.
    by rewrite Nat.sub_diag.
  - destruct (decide (j < length l)%nat); [by rewrite lookup_app_l|]. rewrite (lookup_ge_None_2 l) by lia.
    rewrite lookup_app_r by lia. destruct (decide (j < i)%nat).
    + rewrite lookup_app_l by (rewrite length_replicate; lia). by rewrite lookup_replicate_2 by lia.
    + rewrite lookup_ge_None_2; [done|]. rewrite length_app, length_replicate. cbn. lia.
Qed.

Lemma first_free_None l : mjoin (l !! first_free l) = None.
Proof. induction l as [|[p|] l IH]; [done|exact IH|done]. Qed.
Lemma first_free_below l j : (j < first_free l)%nat -> is_Some (mjoin (l !! j)).
Proof.
  revert j. induction l as [|[p|] l IH]; intros j Hj; cbn in Hj; [lia| |lia]. destruct j as [|j]; [by eexists|]. apply IH. lia.
Qed.

Lemma fe_fd_of_put e i v fd : fe_fd_of (fe_set e (put_at i v (fe_fds e))) fd = if decide (fd = Z.of_nat i) then v else fe_fd_of e fd.
Proof.
  unfold fe_fd_of. cbn [fe_fds fe_set]. destruct (Z.ltb_spec fd 0); [by rewrite decide_False by lia|]. rewrite put_at_lookup.
  repeat case_decide; try lia; done.
Qed.

Lemma fe_open_spec path mode e r e' : fe_open path mode e = (r, e') ->
  0 <= sr_ret r /\ fe_fd_of e (sr_ret r) = None /\ (forall fd, 0 <= fd < sr_ret r -> is_Some (fe_fd_of e fd)) /\
  fe_late e' = fe_late e /\ fe_cterm e' = fe_cterm e /\ fe_muxes e' = fe_muxes e /\
  (forall fd, fe_fd_of e' fd = if decide (fd = sr_ret r) then Some (fd_opened path mode) else fe_fd_of e fd).
Proof.
  intros [= <- <-]. cbn [sr_ret]. split_and!; [lia| | |done..|].
  - unfold fe_fd_of. destruct (Z.ltb_spec (Z.of_nat (first_free (fe_fds e))) 0); [lia|]. rewrite Nat2Z.id. apply first_free_None.
  - intros fd Hfd. unfold fe_fd_of. destruct (Z.ltb_spec fd 0); [lia|]. apply first_free_below. lia.
  - intros fd. apply fe_fd_of_put.
Qed.

#[export] Instance fd_env_laws : FdEnv fd_env.
Proof.
  refine {| fd_of := fe_fd_of; late := fe_late; cterm := fe_cterm; muxes := fe_muxes; minor := fe_minor; zroot := []; ran := fe_ran |}.
  - intros path mode e r e' Hs. unfold sys_step, fd_env_kernel in Hs. rewrite decide_True in Hs by done.
    destruct (fe_late e) as [|n] eqn:Hl; [|case_decide as Hp].
    1,2: apply fe_open_spec in Hs as (? & ? & ? & Hlate & ? & ? & ?); split_and!; [done|done|]; right; split_and!; [done|done|done|lia|done].
    injection Hs as <- <-. split_and!; [done|done|]. left. split_and!; [done|done|done|cbn; lia|done].
  - intros fd e r e' [= <- <-] Hfd. destruct (Z.ltb_spec fd 0) as [Hneg|Hpos].
    { unfold fe_fd_of in Hfd. destruct (Z.ltb_spec fd 0); [|lia]. by destruct Hfd. }
    split_and!; [done..|]. intros fd'. rewrite fe_fd_of_put, Z2Nat.id by lia. done.
  - by intros ns e r e' [= <- <-].
  - by intros e r e' [= <- <-].
  - by intros fd e r e' [= <- <-].
  - intros fd d e r e' [= <- <-] Hp. cbn. by rewrite Hp.
  - by intros fd i e r e' [= <- <-].
  - intros a b e r e' Hb [= <- <-] Ha. destruct (Z.eqb_spec a b) as [->|Hne].
    + split_and!; [done..|]. intros fd. by rewrite decide_False by naive_solver.
    + split_and!; [done..|]. intros fd. rewrite fe_fd_of_put, Z2Nat.id by lia. by repeat case_decide; try naive_solver.
  - intros a e r e' [= <- <-]. split_and!; [done..|]. intros fd. unfold fe_fd_of. cbn [fe_fds fe_set].
    destruct (Z.ltb_spec fd 0); [by case_decide|]. case_decide; [rewrite lookup_take_ge by lia|rewrite lookup_take_lt by lia]; done.
  - intros path mode e r e' Hs. apply fe_open_spec in Hs as (? & ? & ? & ? & ? & ? & ?). by split_and!.
  - intros name args e r e' Hname Hs. rewrite !elem_of_cons, elem_of_nil in Hname.
    destruct Hname as [-> | [-> | [-> | [-> | [-> | [-> | []]]]]]];
      unfold sys_step, fd_env_kernel in Hs; cbn in Hs; repeat case_match; by simplify_eq.
  - by intros fd mode e r e' [= <- <-].
  - by intros e r e' [= <- <-].
  - intros args e r e' [= <- <-]. split_and!; [done..|]. intros fd. unfold fe_fd_of. cbn [fe_fds].
    destruct (fd <? 0); [done|]. rewrite list_lookup_fmap. by destruct (fe_fds e !! Z.to_nat fd) as [[d|]|].
Defined.

Definition sample_fds : world fd_env :=
  World 0 [] [] (FdE [Some (kept NULL_DEVICE); Some (kept NULL_DEVICE); Some (kept NULL_DEVICE); Some (Fd LOGFILE true)] 3 None [] None).
Definition sample_strerror (e : Z) : cstr := cs "Error " ++ print_d e.
Definition stdin_table (key : cstr) : option cstr := if decide (key = cs "docker:open_stdin") then Some (cs "true") else None.

Example sample_terminal :
  match setupTerminal (H := table_metadata stdin_table _) sample_strerror true sample_fds with
  | Done (_, w) => (fe_fds (w_env w), fe_cterm (w_env w)) =
      ([Some (kept (cs "/dev/zfd/0")); Some (kept (cs "/dev/zfd/0")); Some (kept (cs "/dev/zfd/0")); Some (Fd LOGFILE true)], Some (cs "/dev/zfd/0"))
  | _ => False
  end.
Proof. vm_compute. reflexivity. Qed.

Lemma sample_fd_state : fd_state (fe_fd_of (w_env sample_fds)) 3 None [] sample_fds.
Proof. by split_and!. Qed.

Lemma setupTerminal_connects_witness :
  wp (setupTerminal (H := table_metadata stdin_table _) sample_strerror true) (fun _ w' =>
    fd_state (terminal_fds (bool_decide (Some (cs "true") = Some (cs "true"))) true (fe_fd_of (w_env sample_fds))) 3
      (Some (cs "/dev/zfd/0")) [] w') sample_fds.
Proof.
  apply (setupTerminal_connects (MD := table_metadata stdin_table _) sample_strerror true (Some (cs "true"))
    (fe_fd_of (w_env sample_fds)) 3 None [] sample_fds);
    [|by split; constructor|apply sample_fd_state|lia|by eexists|by eexists|by eexists].
  intros t n c m w Hg Hst. by split_and!.
Defined.

Example sample_logger :
  match logger_child sample_strerror false 3 1 (cs "syslog") [] sample_fds with
  | Done (_, w) => fe_fds (w_env w) =
      [Some (kept LOGFILE); Some (kept NULL_DEVICE); Some (kept NULL_DEVICE); Some (kept (cs "/dev/zfd/3")); Some (kept (cs "/dev/zfd/4"))]
  | _ => False
  end.
Proof. vm_compute. reflexivity. Qed.

Lemma logger_child_connects_witness :
  wp (logger_child sample_strerror false 3 1 (cs "syslog") [cs "DOCKERLOG_CMD=[]"]) (fun _ w' =>
    fd_state (logger_fds (Some (kept LOGFILE)) (logger_streams false).1 (logger_streams false).2) 3 None
      ([] ++ logger_muxes false) w' /\
    ran (w_env w') = Some (AS (fits MAXPATHLEN (zroot ++ DOCKER_LOGGER)) :: vector [cs "logger"; cs "syslog"] ++ vector [cs "DOCKERLOG_CMD=[]"])) sample_fds.
Proof.
  apply (logger_child_connects sample_strerror false 3 (Fd LOGFILE true) 1 (cs "syslog") [cs "DOCKERLOG_CMD=[]"]
    (fe_fd_of (w_env sample_fds)) 3 None [] sample_fds); [by split; constructor|apply sample_fd_state|lia|done|done|].
  intros fd Hfd. unfold fe_fd_of. by destruct (Z.ltb_spec fd 0); [|lia].
Defined.
