(* ===== verification/Moves.v ===== *)
(** * Moves: how the environment may change

    [moves R m]: whenever [m] returns, [R] relates the environment before to the one after.  A
    computation that calls nothing outside of the program moves along any preorder, one that calls
    functions of a library along those that the functions respect.  [moves_tac] goes through a
    definition; the loops have lemmas of their own. *)
From Stdlib Require Import Lia.
From stdpp Require Import relations.
From S2P Require Import Prelude Custr Strpath Strlist Sys Mdata Nvlist Json Docker.

Definition moves {E} (R : relation E) {A} (m : C E A) : Prop :=
  forall w a w', m w = Done (a, w') -> R (w_env w) (w_env w').

Create HintDb moves.

Section rules.
Context {E : Type} (R : relation E) `{!PreOrder R}.

Lemma moves_ret {A} (a : A) : moves R (mret a).
Proof. intros w b w' [= <- <-]. reflexivity. Qed.
Lemma moves_bind {A B} (m : C E A) (k : A -> C E B) : moves R m -> (forall a, moves R (k a)) -> moves R (m ≫= k).
Proof.
  intros Hm Hk w b w'. unfold mbind, C_bind. destruct (m w) as [[a w1]| | |] eqn:Hw; [|done..]. intros Hb.
  transitivity (w_env w1); [by eapply Hm|by eapply Hk].
Qed.
Lemma moves_eprint s : moves R (eprint s).
Proof. intros w a w' [= _ <-]. reflexivity. Qed.
Lemma moves_get_errno : moves R get_errno.
Proof. intros w a w' [= _ <-]. reflexivity. Qed.
Lemma moves_set_errno n : moves R (set_errno n).
Proof. intros w a w' [= _ <-]. reflexivity. Qed.
Lemma moves_access {A} (o : option A) : moves R (c_access o).
Proof. intros w a w'. destruct o; [intros [= _ <-]; reflexivity|done]. Qed.
Lemma moves_exit {A} st : moves R (c_exit (A := A) st).
Proof. by intros w a w'. Qed.
Lemma moves_abort {A} : moves R (c_abort (A := A)).
Proof. by intros w a w'. Qed.
Lemma moves_undefined {A} : moves R (c_undefined (A := A)).
Proof. by intros w a w'. Qed.
Lemma moves_VERIFY b : moves R (VERIFY b).
Proof. intros w a w'. destruct b; [intros [= _ <-]; reflexivity|done]. Qed.
Lemma moves_malloc `{DM : DataModel} n : moves R (malloc n).
Proof. intros w a w'. unfold malloc. intros Hm. repeat case_match; simplify_eq; reflexivity. Qed.

Lemma moves_syscall `{Kernel E} name args :
  (forall e r e', sys_step name args e = (r, e') -> R e e') -> moves R (syscall name args).
Proof.
  intros HR w a w'. unfold syscall. destruct (sys_step name args (w_env w)) as [r e'] eqn:Hs. intros [= _ <-]. by eapply HR.
Qed.
End rules.

#[export] Hint Resolve moves_ret moves_eprint moves_get_errno moves_set_errno moves_access moves_exit moves_abort
  moves_undefined moves_VERIFY moves_malloc : moves.

(** Through a computation: binds, cases, hints, and the definition at the head. *)
Ltac moves_head m := lazymatch m with ?f _ => moves_head f | ?f => f end.
Ltac moves_tac :=
  repeat first
    [ progress intros
    | progress cbn beta iota zeta
    | solve [eauto with moves]
    | lazymatch goal with
      | |- moves _ (mbind _ _) => apply moves_bind
      | |- moves _ (match ?x with _ => _ end) => destruct x
      | |- moves _ (let '(_) := ?x in _) => destruct x
      | |- moves _ ?m => let f := moves_head m in unfold f
      end ].

(** ** The libraries of the program *)

Section libraries.
Context {E : Type} (R : relation E) `{!PreOrder R} `{DM : DataModel}.

Lemma moves_custr_append_vprintf cu s : moves R (custr_append_vprintf cu s).
Proof. moves_tac. Qed.
Lemma moves_custr_alloc : moves R custr_alloc.
Proof. moves_tac. Qed.
Lemma moves_custr_reset cu : moves R (custr_reset cu).
Proof. moves_tac. Qed.
Lemma moves_custr_cstr cu : moves R (custr_cstr cu).
Proof. moves_tac. Qed.
#[local] Hint Resolve moves_custr_append_vprintf moves_custr_alloc moves_custr_reset moves_custr_cstr : moves.

Lemma moves_copy_chars path n inp : moves R (copy_chars path n inp).
Proof. revert path n. induction inp as [|c inp IH]; intros path n; cbn [copy_chars]; moves_tac. Qed.
#[local] Hint Resolve moves_copy_chars : moves.
Lemma moves_strpath_append path inp : moves R (strpath_append path inp).
Proof. moves_tac. Qed.

Lemma moves_reset_loop n i l : moves R (reset_loop n i l).
Proof. revert i l. induction n as [|n IH]; intros i l; cbn [reset_loop]; moves_tac. Qed.
Lemma moves_scan_null n i l : moves R (scan_null n i l).
Proof. revert i. induction n as [|n IH]; intros i; cbn [scan_null]; moves_tac. Qed.
#[local] Hint Resolve moves_reset_loop moves_scan_null : moves.
Lemma moves_strlist_set sl idx s : moves R (strlist_set sl idx s).
Proof. moves_tac. Qed.
Lemma moves_first_empty_again n sl : moves R (first_empty_again n sl).
Proof. revert sl. induction n as [|n IH]; intros sl; cbn [first_empty_again]; moves_tac. Qed.
#[local] Hint Resolve moves_strlist_set moves_first_empty_again : moves.
Lemma moves_strlist_set_tail sl s : moves R (strlist_set_tail sl s).
Proof. moves_tac. Qed.
Lemma moves_strlist_alloc n : moves R (strlist_alloc n).
Proof. moves_tac. Qed.
Lemma moves_strlist_get sl i : moves R (strlist_get sl i).
Proof. moves_tac. Qed.
Lemma moves_contig_count sl : moves R (strlist_contig_count sl).
Proof. moves_tac. Qed.
End libraries.

#[export] Hint Resolve moves_custr_append_vprintf moves_custr_alloc moves_custr_reset moves_custr_cstr moves_strpath_append
  moves_strlist_set moves_strlist_set_tail moves_strlist_alloc moves_strlist_get moves_contig_count : moves.

(** ** The JSON parser, over an nvlist library that moves along [R] *)

Class NvMoves {E} `{Nvlist E} (R : relation E) : Prop := {
  nvm_alloc : moves R nvlist_alloc;
  nvm_free h : moves R (nvlist_free h);
  nvm_add_string h k s : moves R (nvlist_add_string h k s);
  nvm_add_boolean_value h k b : moves R (nvlist_add_boolean_value h k b);
  nvm_add_boolean h k : moves R (nvlist_add_boolean h k);
  nvm_add_int32 h k z : moves R (nvlist_add_int32 h k z);
  nvm_add_uint32 h k z : moves R (nvlist_add_uint32 h k z);
  nvm_add_nvlist h k x : moves R (nvlist_add_nvlist h k x);
  nvm_lookup_nvlist h k : moves R (nvlist_lookup_nvlist h k);
  nvm_lookup_string h k : moves R (nvlist_lookup_string h k);
  nvm_lookup_uint32 h k : moves R (nvlist_lookup_uint32 h k)
}.

#[export] Hint Resolve nvm_alloc nvm_free nvm_add_string nvm_add_boolean_value nvm_add_boolean nvm_add_int32 nvm_add_uint32
  nvm_add_nvlist nvm_lookup_nvlist nvm_lookup_string nvm_lookup_uint32 : moves.

Section json.
Context {E : Type} `{Nvlist E} (R : relation E) `{!PreOrder R, !NvMoves R} `{DM : DataModel} (strerror : Z -> cstr).

Lemma moves_movestate s ps : moves R (movestate s ps).
Proof. moves_tac. Qed.
Lemma moves_posterror s n e : moves R (posterror s n e).
Proof. moves_tac. Qed.
Lemma moves_popchar s : moves R (popchar s).
Proof. moves_tac. Qed.
#[local] Hint Resolve moves_movestate moves_posterror moves_popchar : moves.
Lemma moves_discard_loop n s : moves R (discard_loop n s).
Proof. revert s. induction n as [|n IH]; intros s; cbn [discard_loop]; moves_tac. Qed.
Lemma moves_read_digs n s d : moves R (read_digs n s d).
Proof. revert s d. induction n as [|n IH]; intros s d; cbn [read_digs]; moves_tac. Qed.
#[local] Hint Resolve moves_discard_loop moves_read_digs : moves.
Lemma moves_escape s : moves R (collect_string_escape s).
Proof. moves_tac. Qed.
#[local] Hint Resolve moves_escape : moves.
Lemma moves_string_loop n s : moves R (string_loop n s).
Proof. revert s. induction n as [|n IH]; intros s; cbn [string_loop]; moves_tac. Qed.
Lemma moves_collect_while p e n s : moves R (collect_while p e n s).
Proof. revert s. induction n as [|n IH]; intros s; cbn [collect_while]; moves_tac. Qed.
#[local] Hint Resolve moves_string_loop moves_collect_while : moves.
Lemma moves_push_value s ps : moves R (push_value s ps).
Proof. moves_tac. Qed.
Lemma moves_store_value s : moves R (store_value s).
Proof. moves_tac. Qed.
#[local] Hint Resolve moves_push_value moves_store_value : moves.
Lemma moves_dispatch s : moves R (dispatch s).
Proof. unfold dispatch, hdlrs. apply moves_bind; [done|moves_tac|]. intros f. destruct (pf_ps f); moves_tac. Qed.
#[local] Hint Resolve moves_dispatch : moves.
Lemma moves_main_loop n s : moves R (main_loop n s).
Proof. revert s. induction n as [|n IH]; intros s; cbn [main_loop]; moves_tac. Qed.
Lemma moves_free_frames l b : moves R (free_frames l b).
Proof. revert b. induction l as [|f l IH]; intros b; cbn [free_frames]; moves_tac. Qed.
#[local] Hint Resolve moves_main_loop moves_free_frames : moves.
Lemma moves_parse_json buf n flag err : moves R (nvlist_parse_json strerror buf n flag err).
Proof. moves_tac. Qed.
End json.

#[export] Hint Resolve moves_parse_json : moves.
