(* ===== verification/NvStore.v ===== *)
(** * NvStore: a libnvpair that keeps its lists in a store

    [store_read] completes [nv_store] to an [NvRead]; the names of a list it walks over are
    different, as those of a list allocated with [NV_UNIQUE_NAME] are.  [outer_nvlist] lets a
    library over [E] work in an environment with a further part, which it does not touch. *)
From Stdlib Require Import Lia.
From S2P Require Import Prelude Nvlist NvRead Tools Json Moves.

Lemma find_lookup l i k v : NoDup l.*1 -> l !! i = Some (k, v) -> nv_find k l = Some v.
Proof.
  revert i. induction l as [|[k' v'] l IH]; intros i Hnd Hi; [done|]. cbn in *. apply list.NoDup_cons in Hnd as [Hk Hnd].
  destruct i as [|i]; [injection Hi as -> ->; by rewrite decide_True|].
  rewrite decide_False; [by eapply IH|]. intros ->. apply Hk. apply list_elem_of_fmap. exists (k, v).
  split; [done|by eapply list_elem_of_lookup_2].
Qed.

(** ** The store *)

Section store.
Abbreviation E := (list (option (list (cstr * nvval)))).

Definition child (p : nv_ptr) (k : cstr) : nv_ptr := NvPtr (ptr_root p) (ptr_path p ++ [k]).

#[export] Instance store_read : NvRead E := {|
  nvpair_t := nv_ptr * nat;
  nvlist_next_nvpair := fun p pair => l ← nv_read p;
    let i := match pair with None => 0%nat | Some (_, i) => S i end in
    mret (if decide (i < length l)%nat then Some (p, i) else None);
  nvpair_name := fun '(p, i) => l ← nv_read p;
    mret (match l !! i with Some (k, _) => k | None => [] end);
  nvpair_type := fun '(p, i) => l ← nv_read p;
    mret (match l !! i with Some (_, NvNvlist _) => DATA_TYPE_NVLIST | _ => 0 end);
  nvpair_value_nvlist := fun '(p, i) => l ← nv_read p;
    mret (match l !! i with Some (k, NvNvlist _) => (0, Some (child p k)) | _ => (22, None) end);
  nvlist_lookup_boolean_value := fun p k => l ← nv_read p;
    mret (match nv_find k l with Some (NvBooleanValue b) => (0, Some b) | _ => (2, None) end)
|}.

Definition store_reads (p : nv_ptr) (l : nvpairs) (e : E) : Prop :=
  mjoin (e !! ptr_root p) ≫= nv_get (ptr_path p) = Some l.

Lemma reads_of {A} p l (f : nvpairs -> A) (P : A -> Prop) (w : world E) : good w -> store_reads p l (w_env w) -> P (f l) ->
  only_reads (l' ← nv_read p; mret (f l')) w P.
Proof.
  intros Hg Hr HP. unfold store_reads in Hr. destruct (mjoin (w_env w !! ptr_root p)) as [l0|] eqn:Hj; [|done]. cbn in Hr.
  unfold only_reads, nv_read. wp_steps. eapply wp_access; [exact Hj|]. eapply wp_access; [exact Hr|]. wp_steps. by split_and!.
Qed.

Lemma store_child p l k l' e : store_reads p l e -> nv_find k l = Some (NvNvlist l') -> store_reads (child p k) l' e.
Proof.
  unfold store_reads, child. cbn. destruct (mjoin _) as [l0|]; [|done]. cbn. intros Hr Hk. rewrite nv_get_app, Hr. cbn. by rewrite Hk.
Qed.

#[export] Instance store_read_laws : NvReadLaws E.
Proof.
  refine {| nv_reads := store_reads; nv_pair := pair |}.
  - intros h l e (r & [-> _] & _ & Hr & _). unfold store_reads. cbn. by rewrite Hr.
  - intros h l w Hg Hr. eapply reads_of; [done|done|]. destruct l; [done|]. rewrite decide_True by (cbn; lia). by rewrite decide_False.
  - intros h l i w Hg Hr Hi. by eapply reads_of.
  - intros h l i k v w Hg Hr Hi. eapply reads_of; [done|done|]. by rewrite Hi.
  - intros h l i k v w Hg Hr Hi. eapply reads_of; [done|done|]. rewrite Hi.
    destruct v; cbn; (split; [intros ?; first [done|by eexists]|by intros [? [=]]]).
  - intros h l i k l' w Hg Hr Hnd Hi. eapply reads_of; [done|done|]. rewrite Hi. split; [done|]. eexists. split; [done|].
    eapply store_child; [done|by eapply find_lookup].
  - intros h l k w Hg Hr. eapply reads_of; [done|done|]. by destruct (nv_find k l) as [[]|].
  - intros h l k w Hg Hr. eapply reads_of; [done|done|]. by destruct (nv_find k l) as [[]|].
  - intros h l k w Hg Hr. eapply reads_of; [done|done|]. by destruct (nv_find k l) as [[]|].
  - intros h l k w Hg Hr. eapply reads_of; [done|done|].
    destruct (nv_find k l) as [[]|] eqn:Hk; try done. split; [done|]. eexists. split; [done|]. by eapply store_child.
Defined.
End store.

(** ** In a larger environment *)

Section outer.
Context {E V : Type}.

Definition inner (w : world (E * V)) : world E := World (w_errno w) (w_heap w) (w_stderr w) (w_env w).1.

Lemma inner_good w : good (inner w) <-> good w.
Proof. done. Qed.

Lemma wp_outer {A} (m : C E A) (Q : A -> world (E * V) -> Prop) w :
  wp m (fun a w' => Q a (World (w_errno w') (w_heap w') (w_stderr w') (w_env w', (w_env w).2))) (inner w) -> wp (outer m) Q w.
Proof. unfold wp, outer. fold (inner w). by destruct (m (inner w)) as [[a w']| | |]. Qed.

Lemma outer_only_reads {A} (m : C E A) P w : only_reads m (inner w) P -> only_reads (outer m) w P.
Proof.
  intros Hm. apply wp_outer. eapply wp_mono; [exact Hm|]. intros a w' (Hg & He & HP). split_and!; [done| |done].
  cbn. rewrite He. symmetry. apply surjective_pairing.
Qed.

Lemma moves_outer {A} (R : relation (E * V)) (m : C E A) : (forall e e' v, R (e, v) (e', v)) -> moves R (outer m).
Proof.
  intros HR w a w'. unfold outer. destruct (m _) as [[a' w1]| | |]; [|done..]. intros [= _ <-]. cbn. destruct (w_env w). apply HR.
Qed.

#[export] Instance outer_nvlist `{Nvlist E} : Nvlist (E * V) := {|
  nvlist_t := nvlist_t;
  nvlist_alloc := outer nvlist_alloc;
  nvlist_free := fun h => outer (nvlist_free h);
  nvlist_add_string := fun h k s => outer (nvlist_add_string h k s);
  nvlist_add_boolean_value := fun h k b => outer (nvlist_add_boolean_value h k b);
  nvlist_add_boolean := fun h k => outer (nvlist_add_boolean h k);
  nvlist_add_int32 := fun h k z => outer (nvlist_add_int32 h k z);
  nvlist_add_uint32 := fun h k z => outer (nvlist_add_uint32 h k z);
  nvlist_add_nvlist := fun h k x => outer (nvlist_add_nvlist h k x);
  nvlist_lookup_nvlist := fun h k => outer (nvlist_lookup_nvlist h k);
  nvlist_lookup_string := fun h k => outer (nvlist_lookup_string h k);
  nvlist_lookup_uint32 := fun h k => outer (nvlist_lookup_uint32 h k)
|}.

#[export] Instance outer_nv_moves `{Nvlist E} (R : relation (E * V)) : (forall e e' v, R (e, v) (e', v)) -> NvMoves R.
Proof. intros HR. split; intros; by apply moves_outer. Qed.

#[export] Instance outer_laws `{NL : NvlistLaws E} : NvlistLaws (E * V).
Proof.
  refine {| nv_open := fun spare levels (e : E * V) => nv_open (E := E) spare levels e.1 |}; unfold adds.
  - intros e. apply (nv_none (E := E)).
  - intros h e. apply (nv_outermost (E := E)).
  - intros h k l h' k' l' levels e. apply (nv_close (E := E)).
  - intros levels w Hg Ho. apply wp_outer. eapply wp_mono; [by apply (nv_alloc (E := E))|]. by intros [r h] w'.
  - intros h levels w Hg Ho. apply wp_outer. eapply wp_mono; [by apply (nv_free_spare (E := E))|]. done.
  - intros h k l levels w Hg Ho. apply wp_outer. eapply wp_mono; [by eapply (nv_free (E := E))|]. done.
  - intros h x k0 l k levels w Hg Ho. apply wp_outer. eapply wp_mono; [by apply (nv_add_nvlist (E := E))|]. done.
  - intros h k0 l k levels w Hg Ho Hk. apply wp_outer. eapply wp_mono; [by eapply (nv_lookup_nvlist (E := E))|]. by intros [r c] w'.
  - intros h k0 l k levels w Hg Ho. apply wp_outer. eapply wp_mono; [by eapply (nv_lookup_string (E := E))|]. by intros [r c] w'.
  - intros h k0 l k levels w Hg Ho. apply wp_outer. eapply wp_mono; [by eapply (nv_lookup_uint32 (E := E))|]. by intros [r c] w'.
  - intros h k s k0 l levels w Hg Ho. apply wp_outer. eapply wp_mono; [by eapply (nv_add_string (E := E))|]. done.
  - intros h k b k0 l levels w Hg Ho. apply wp_outer. eapply wp_mono; [by eapply (nv_add_boolean_value (E := E))|]. done.
  - intros h k k0 l levels w Hg Ho. apply wp_outer. eapply wp_mono; [by eapply (nv_add_boolean (E := E))|]. done.
  - intros h k z k0 l levels w Hg Ho. apply wp_outer. eapply wp_mono; [by eapply (nv_add_int32 (E := E))|]. done.
  - intros h k z k0 l levels w Hg Ho. apply wp_outer. eapply wp_mono; [by eapply (nv_add_uint32 (E := E))|]. done.
Defined.

#[export] Instance outer_read `{NR : NvRead E} : NvRead (E * V) :=
  @Build_NvRead (E * V) outer_nvlist (nvpair_t (E := E))
    (fun h p => outer (nvlist_next_nvpair (E := E) h p)) (fun p => outer (nvpair_name (E := E) p)) (fun p => outer (nvpair_type (E := E) p))
    (fun p => outer (nvpair_value_nvlist (E := E) p)) (fun h k => outer (nvlist_lookup_boolean_value (E := E) h k)).

#[export] Instance outer_read_laws `{NvReadLaws E} : NvReadLaws (E * V).
Proof.
  refine {| nv_reads := fun h l (e : E * V) => nv_reads (E := E) h l e.1; nv_pair := nv_pair (E := E) |}.
  - intros h l e. apply (nv_open_reads (E := E)).
  - intros h l w Hg Hr. by apply outer_only_reads, (nv_next_first (E := E)).
  - intros h l i w Hg Hr Hi. by apply outer_only_reads, (nv_next (E := E)).
  - intros h l i k v w Hg Hr Hi. by eapply outer_only_reads, (nv_name (E := E)).
  - intros h l i k v w Hg Hr Hi. by eapply outer_only_reads, (nv_type (E := E)).
  - intros h l i k l' w Hg Hr Hnd Hi. by eapply outer_only_reads, (nv_value (E := E)).
  - intros h l k w Hg Hr. by eapply outer_only_reads, (nv_read_string (E := E)).
  - intros h l k w Hg Hr. by eapply outer_only_reads, (nv_read_uint32 (E := E)).
  - intros h l k w Hg Hr. by eapply outer_only_reads, (nv_read_boolean (E := E)).
  - intros h l k w Hg Hr. by eapply outer_only_reads, (nv_read_nvlist (E := E)).
Defined.
End outer.
