(* ===== verification/DockerexecRun.v ===== *)
(** * DockerexecRun: dockerexec from start to [execve], [dockerexec.c]

    [Privileged]: a kernel whose processes have credentials, which only the three calls of
    [drop_privs] change, and which records the program a successful [execve] starts with those
    credentials.  [privs] is what the user and the group of a container make of them; [exec_end]
    the executable, or the error that keeps it from being run. *)
From Stdlib Require Import Lia.
From stdpp Require Import relations.
From S2P Require Import Prelude Custr Strpath Strlist Cnum Strset Sys Mdata Nvlist Json JsonPrint Docker DockerEnv DockerExec Moves NvStore.

(** ** Credentials *)

Record creds := Creds { cr_uid : Z; cr_gid : Z; cr_groups : list Z }.

Definition cred_calls : list string := ["setgid"; "initgroups"; "setuid"; "execve"]%string.

Class Privileged (E : Type) `{Kernel E} := {
  creds_of : E -> creds;
  started : E -> option (creds * list sarg);
  supplementary : cstr -> Z -> list Z;
  makes_dir : cstr -> bool;
  enters_dir : cstr -> bool;
  executes : cstr -> bool;
  pv_setgid g e r e' : sys_step "setgid" [AZ g] e = (r, e') -> cr_uid (creds_of e) = 0 ->
    sr_ret r = 0 /\ creds_of e' = Creds 0 g (cr_groups (creds_of e)) /\ started e' = started e;
  pv_initgroups n g e r e' : sys_step "initgroups" [AS n; AZ g] e = (r, e') -> cr_uid (creds_of e) = 0 ->
    sr_ret r = 0 /\ creds_of e' = Creds 0 (cr_gid (creds_of e)) (supplementary n g) /\ started e' = started e;
  pv_setuid u e r e' : sys_step "setuid" [AZ u] e = (r, e') -> cr_uid (creds_of e) = 0 ->
    sr_ret r = 0 /\ creds_of e' = Creds u (cr_gid (creds_of e)) (cr_groups (creds_of e)) /\ started e' = started e;
  pv_execve path args e r e' : sys_step "execve" (AS path :: args) e = (r, e') ->
    if executes path then sr_ret r = 0 /\ started e' = Some (creds_of e, AS path :: args) else sr_ret r = -1;
  pv_mkdirp d m e r e' : sys_step "mkdirp" [AS d; AZ m] e = (r, e') ->
    if makes_dir d then sr_ret r = 0 \/ sr_ret r = -1 /\ sr_errno r = EEXIST else sr_ret r = -1 /\ sr_errno r <> EEXIST;
  pv_chdir d e r e' : sys_step "chdir" [AS d] e = (r, e') -> sr_ret r = if enters_dir d then 0 else -1;
  pv_other name args e r e' : sys_step name args e = (r, e') -> name ∉ cred_calls ->
    creds_of e' = creds_of e /\ started e' = started e
}.

(** The credentials and the program of the process are the same. *)
Definition same_privs {E} `{Privileged E} (e e' : E) : Prop := creds_of e' = creds_of e /\ started e' = started e.

#[export] Instance same_privs_preorder {E} `{Privileged E} : PreOrder (same_privs (E := E)).
Proof. split; [done|]. intros e1 e2 e3 [? ?] [? ?]. split; congruence. Qed.

(** The credentials of a container's process, from those of root. *)
Definition privs {E} `{Privileged E} (p : option passwd) (g : option group) (c : creds) : creds :=
  match p, g with
  | Some p, Some g => Creds (pw_uid p) (gr_gid g) (supplementary (pw_name p) (gr_gid g))
  | Some p, None => Creds (pw_uid p) (cr_gid c) (cr_groups c)
  | None, Some g => Creds (cr_uid c) (gr_gid g) (cr_groups c)
  | None, None => c
  end.

(** ** What leaves the credentials alone *)

Section moving.
Context {E : Type} `{Metadata E} `{Nvlist E} (R : relation E) `{!PreOrder R, !NvMoves R} `{A : Accounts} `{DM : DataModel} (strerror : Z -> cstr).
Hypothesis mdata_moves : forall key, moves R (mdataGet key).
#[local] Hint Resolve mdata_moves : moves.

Lemma moves_find_entry n sl name idx : moves R (find_entry strerror n sl name idx).
Proof. revert idx. induction n as [|n IH]; intros idx; cbn [find_entry]; moves_tac. Qed.
#[local] Hint Resolve moves_find_entry : moves.
Lemma moves_insertOrReplaceEnv sl name v : moves R (insertOrReplaceEnv strerror sl name v).
Proof. moves_tac. Qed.
#[local] Hint Resolve moves_insertOrReplaceEnv : moves.
Lemma moves_each_string {T} (f : cstr -> Z -> cstr -> T -> C E T) n i name nvl arg :
  (forall a b c d, moves R (f a b c d)) -> moves R (each_string f n i name nvl arg).
Proof. intros Hf. revert i arg. induction n as [|n IH]; intros i arg; cbn [each_string]; moves_tac. Qed.
Lemma moves_cbEachEnvEntry a i v env : moves R (cbEachEnvEntry strerror a i v env).
Proof. moves_tac. Qed.
#[local] Hint Resolve moves_each_string moves_cbEachEnvEntry : moves.
Lemma moves_log_env n env i : moves R (log_env n env i).
Proof. revert i. induction n as [|n IH]; intros i; cbn [log_env]; moves_tac. Qed.
#[local] Hint Resolve moves_log_env : moves.
Lemma moves_add_array env key : moves R (add_array strerror env key).
Proof. moves_tac. Qed.
#[local] Hint Resolve moves_add_array : moves.
Lemma moves_buildCmdEnv h p env : moves R (buildCmdEnv strerror h p env).
Proof. moves_tac. Qed.
Lemma moves_getUserGroupData g : moves R (getUserGroupData strerror g).
Proof. moves_tac. Qed.
End moving.

(** ** The container *)

(** The working directory: from the root, a leading tilde standing for the home of the user. *)
Definition workdir_of (p : option passwd) (v : option cstr) : cstr :=
  let root := path_join [] [SLASH] in
  match v, p with
  | None, _ => root
  | Some (c :: t), Some p => if decide (c = "~"%char) then path_join (path_join root (pw_dir p)) t else path_join root (c :: t)
  | Some v, _ => path_join root v
  end.

(** The user and the group that [docker:user] stands for. *)
Definition docker_user `{Accounts} (table : cstr -> option cstr) (p : option passwd) (g : option group) : Prop :=
  exists user gname g0,
    default (cs "0") (table (cs "docker:user")) = user ++ match gname with Some s => ":"%char :: s | None => [] end /\
    ":"%char ∉ user /\ user <> [] /\ names_user user p /\ match gname with Some s => names_group s g0 | None => g0 = None end /\
    g = match g0, p with None, Some p => getgrgid (pw_gid p) | _, _ => g0 end.

(** The longest part of a path. *)
Definition PART_MAX : Z := 100000.
Definition part_ok (s : cstr) : Prop := is_cstr s /\ Zlen s <= PART_MAX.

(** What the metadata says of a container. *)
Record container `{Accounts} (table : cstr -> option cstr) (p : option passwd) (g : option group) (link env : list cstr) : Prop := Container {
  ct_user : docker_user table p g;
  ct_user_fits : Zlen (default (cs "0") (table (cs "docker:user"))) < HEAP_HI;
  ct_link : array_of table (cs "docker:linkEnv") link;
  ct_env : array_of table (cs "docker:env") env;
  ct_env_fits : Zlen link + Zlen env <= LIST_MAX - 4;
  ct_defaults_fit : Forall (fun s => Zlen s < HEAP_HI) (env_defaults None p);
  ct_workdir : from_option part_ok True (table (cs "docker:workdir"));
  ct_home : from_option (fun p => part_ok (pw_dir p)) True p;
  ct_path : is_cstr (path_of (cmd_env None p link env)) /\ Zlen (path_of (cmd_env None p link env)) <= TEXT_MAX
}.

Lemma part_of_tilde t : part_ok ("~"%char :: t) -> part_ok t.
Proof. unfold part_ok, is_cstr. rewrite not_elem_of_cons, Zlen_cons. intros [[_ ?] ?]. split; [done|lia]. Qed.

Lemma path_join_part (k : Z) t s : is_cstr t -> Zlen t <= k -> part_ok s -> is_cstr (path_join t s) /\ Zlen (path_join t s) <= k + PART_MAX + 2.
Proof. intros Ht Hk [Hs Hl]. split; [by apply path_join_cstr|]. pose proof (path_join_length t s). lia. Qed.

Lemma workdir_ok p v : from_option part_ok True v -> from_option (fun p => part_ok (pw_dir p)) True p ->
  is_cstr (workdir_of p v) /\ Zlen (workdir_of p v) <= TEXT_MAX.
Proof.
  intros Hv Hp. change (path_join [] [SLASH]) with [SLASH] in *. unfold workdir_of. change (path_join [] [SLASH]) with [SLASH].
  assert (forall s, part_ok s -> is_cstr (path_join [SLASH] s) /\ Zlen (path_join [SLASH] s) <= 1 + PART_MAX + 2) as Hroot
    by (intros s Hs; apply path_join_part; [by_decide|by vm_compute|done]).
  assert (is_cstr [SLASH] /\ Zlen [SLASH] <= TEXT_MAX) as Hnone by (split; [by_decide|by vm_compute]).
  unfold PART_MAX, TEXT_MAX in *. destruct v as [v|]; [|done]. cbn in Hv.
  assert (is_cstr (path_join [SLASH] v) /\ Zlen (path_join [SLASH] v) <= 1000000) as Hplain by (destruct (Hroot v Hv); split; [done|lia]).
  destruct v as [|x t], p as [p|]; try done. case_decide as Hx; [|done]. subst x.
  destruct (Hroot (pw_dir p) Hp) as [Hh Hhl]. apply part_of_tilde in Hv.
  destruct (path_join_part _ _ t Hh Hhl Hv) as [? ?]. unfold PART_MAX in *. split; [done|lia].
Qed.

Lemma until_null_rep L l : (forall i : nat, mjoin (L !! i) = l !! i) -> until_null L = l.
Proof.
  revert l. induction L as [|o L IH]; intros l Hl; [specialize (Hl 0%nat); by destruct l|].
  pose proof (Hl 0%nat) as H0. destruct o as [s|], l as [|x l]; try done; cbn in *. injection H0 as ->. f_equal. apply IH. intros i. apply (Hl (S i)).
Qed.

Lemma holds_array sl l : holds sl l -> until_null (strlist_array sl) = l.
Proof. intros [[_ Hst] _]. apply until_null_rep. intros i. specialize (Hst i). unfold stored in Hst. by rewrite Nat2Z.id in Hst. Qed.

Lemma first_usable_cstr look cmd dirs path :
  Forall (fun d => is_cstr d /\ Zlen d <= 3 * TEXT_MAX) dirs -> is_cstr cmd -> first_usable look cmd dirs = Some path -> is_cstr path.
Proof.
  intros Hd Hc. induction Hd as [|d dirs [Hdc _] _ IH]; cbn; [done|]. case_match; [|done]. intros [= <-].
  apply path_join_cstr, Hc. by apply path_join_cstr; [apply is_cstr_nil|].
Qed.

Lemma exec_target_cstr look l wd cmd path : path_ok l wd -> is_cstr cmd -> exec_target look l wd cmd = inl path -> is_cstr path.
Proof.
  intros Hok Hc. unfold exec_target. fold (path_of l). case_decide.
  - repeat case_match; try done. intros [= <-]. apply path_join_cstr, Hc. apply is_cstr_nil.
  - case_match eqn:Hf; [|done]. intros [= <-]. eapply first_usable_cstr; [by apply path_dirs_ok|done|exact Hf].
Qed.

(** ** The run *)

Section run.
Context {E : Type} `{MD : Metadata E} `{NL : Nvlist E} `{!NvlistLaws E} `{K : Kernel E} `{!Privileged E} `{A : Accounts} `{DM : DataModel}.
Context (strerror : Z -> cstr) (table : cstr -> option cstr) `{!MetadataServes E table} `{!NvMoves (same_privs (E := E))}.
Hypothesis mdata_quiet : forall key, moves same_privs (mdataGet key).
Context (look : cstr -> option Z) (files_are : files look).
Implicit Types (w : world E).

(** The credentials are [c], and nothing was started. *)
Definition held (c : creds) w : Prop := good w /\ creds_of (w_env w) = c /\ started (w_env w) = None.

Lemma held_keeps c w w' : held c w -> keeps w w' -> held c w'.
Proof. intros (_ & Hc & Hs) [Hg He]. unfold held. by rewrite He. Qed.

Lemma held_moves {T} (m : C E T) c (Q : T -> world E -> Prop) w :
  held c w -> moves same_privs m -> wp m (fun a w' => good w' /\ Q a w') w -> wp m (fun a w' => held c w' /\ Q a w') w.
Proof.
  intros (_ & Hc & Hs) Hm Hw. specialize (Hm w). unfold wp in *. destruct (m w) as [[a w']| | |]; try done.
  destruct (Hm _ _ eq_refl) as [Hc' Hs']. destruct Hw as [Hg HQ]. split; [split; [done|split; congruence]|done].
Qed.

(** A call that changes the credentials to [c']; one that does not. *)
Lemma held_sys name args c c' (P : sysret -> Prop) (Q : Z -> world E -> Prop) w :
  held c w -> (forall e r e', sys_step name args e = (r, e') -> creds_of e = c -> P r /\ creds_of e' = c' /\ started e' = started e) ->
  (forall r w', held c' w' -> P r -> (sr_ret r = -1 -> w_errno w' = sr_errno r) -> Q (sr_ret r) w') -> wp (sys name args) Q w.
Proof.
  intros (Hg & Hc & Hs) Hlaw HQ. destruct (sys_step name args (w_env w)) as [r e'] eqn:Hstep.
  destruct (Hlaw _ _ _ Hstep Hc) as (HP & Hc' & Hs'). eapply wp_sys; [exact Hstep|]. apply HQ; [|done|].
  - split_and!; [by destruct Hg|done|]. cbn. congruence.
  - intros Hr. cbn. by rewrite Hr.
Qed.

Lemma held_other name args c (P : sysret -> Prop) (Q : Z -> world E -> Prop) w :
  held c w -> name ∉ cred_calls -> (forall e r e', sys_step name args e = (r, e') -> P r) ->
  (forall r w', held c w' -> P r -> (sr_ret r = -1 -> w_errno w' = sr_errno r) -> Q (sr_ret r) w') -> wp (sys name args) Q w.
Proof.
  intros Hw Hn HP. apply (held_sys _ _ c c); [done|]. intros e r e' Hs <-. split; [by eapply HP|]. by eapply pv_other.
Qed.

Lemma held_close fd c w : held c w -> wp (sys "close" [AZ fd]) (fun _ w' => held c w') w.
Proof. intros Hw. by apply (held_other _ _ c (fun _ => True)); [|by_decide| |]. Qed.

(** [drop_privs] takes on the credentials. *)
Lemma drop_privs_spec p g c w : held c w -> cr_uid c = 0 ->
  wp (drop_privs strerror p g) (fun _ w' => held (privs p g c) w') w.
Proof.
  intros Hw Hroot. unfold drop_privs. apply wp_bind, dlog_spec; [by destruct Hw|]. intros w1 Hw1. eapply held_keeps in Hw1; [|done].
  set (c1 := match g with Some g => Creds 0 (gr_gid g) (cr_groups c) | None => c end).
  set (c2 := match p, g with Some p, Some g => Creds 0 (gr_gid g) (supplementary (pw_name p) (gr_gid g)) | _, _ => c1 end).
  apply wp_bind, (wp_mono _ (fun _ w' => held c1 w')).
  { destruct g as [g|]; [|done]. apply wp_bind, (held_sys _ _ c c1 (fun r => sr_ret r = 0)); [done| |].
    - intros e r e' Hs <-. by apply pv_setgid with (1 := Hs).
    - intros r w2 Hw2 -> _. done. }
  intros _ w2 Hw2. apply wp_bind, (wp_mono _ (fun _ w' => held c2 w')).
  { destruct p as [p|], g as [g|]; try done. apply wp_bind, (held_sys _ _ c1 c2 (fun r => sr_ret r = 0)); [done| |].
    - intros e r e' Hs Hc. destruct (pv_initgroups _ _ _ _ _ Hs) as (? & Hc' & ?); [by rewrite Hc|]. by rewrite Hc' , Hc.
    - intros r w3 Hw3 -> _. done. }
  intros _ w3 Hw3. destruct p as [p|]; [|by destruct g; destruct c; cbn in *; subst].
  apply wp_bind, (held_sys _ _ c2 (privs (Some p) g c) (fun r => sr_ret r = 0)); [done| |].
  - intros e r e' Hs Hc. destruct (pv_setuid _ _ _ _ Hs) as (? & Hc' & ?); [by rewrite Hc; destruct g|]. rewrite Hc', Hc. by destruct g.
  - intros r w4 Hw4 -> _. done.
Qed.

Lemma append_or_halts {T} err cu t s (k : custr -> C E T) Q X w :
  text_is cu t -> good w -> Zlen t + 2 * Zlen s + 4 <= CUSTR_MAX ->
  (forall cu' w', keeps w w' -> text_is cu' (path_join t s) -> halts (k cu') Q X w') -> halts (append_or err cu s k) Q X w.
Proof.
  intros Ht Hg Hmax HQ. unfold append_or. apply halts_bind. eapply (halts_wp _ (fun r w' => r.1 = 0 /\ keeps w w' /\ text_is r.2 (path_join t s))).
  - eapply text_path; [done|done|done|]. by intros cu' w' ??.
  - intros [r cu'] w' (Hr & Hw' & Ht'). cbn in *. subst r. by apply HQ.
Qed.

Lemma append_workdir_spec p v cu c w :
  held c w -> text_is cu [SLASH] -> part_ok v -> from_option (fun p => part_ok (pw_dir p)) True p ->
  wp (append_workdir p cu v) (fun cu' w' => held c w' /\ text_is cu' (workdir_of p (Some v))) w.
Proof.
  intros Hw Hcu Hv Hp. pose proof Hv as [Hvc Hvl]. unfold PART_MAX in *.
  assert (wp (append_or ERR_UNEXPECTED cu v mret) (fun cu' w' => held c w' /\ text_is cu' (path_join [SLASH] v)) w) as Hplain.
  { eapply append_or_spec; [done|by destruct Hw|change (Zlen [SLASH]) with 1; text_lia|]. intros cu1 w1 Hw1 Hcu1. split; [by eapply held_keeps|done]. }
  unfold append_workdir, workdir_of. change (path_join [] [SLASH]) with [SLASH]. destruct p as [p|], v as [|x t]; try done.
  destruct (Ascii.eqb_spec x "~"%char) as [->|Hx]; [|by rewrite decide_False]. rewrite decide_True by done.
  destruct Hp as [Hpc Hpl]. unfold PART_MAX in *. rewrite Zlen_cons in Hvl. pose proof (path_join_length [SLASH] (pw_dir p)) as Hjl. change (Zlen [SLASH]) with 1 in Hjl.
  eapply append_or_spec; [done|by destruct Hw|change (Zlen [SLASH]) with 1; text_lia|]. intros cu1 w1 Hw1 Hcu1.
  eapply append_or_spec; [done|by destruct Hw1|text_lia|]. intros cu2 w2 Hw2 Hcu2. split; [|done].
  eapply held_keeps; [|done]. by eapply held_keeps.
Qed.

Lemma mdata_held key c w : held c w -> wp (mdataGet key) (fun v w' => held c w' /\ v = table key) w.
Proof. intros Hw. apply held_moves; [done|done|]. apply mdataGet_serves, Hw. Qed.

(** What becomes of the directory of the container. *)
Definition dir_error (d : cstr) : option dockerinit_err :=
  if makes_dir d then if enters_dir d then None else Some ERR_CHDIR else Some ERR_MKDIR.

Lemma setupWorkdir_spec p c w :
  held c w -> from_option part_ok True (table (cs "docker:workdir")) -> from_option (fun p => part_ok (pw_dir p)) True p ->
  let d := workdir_of p (table (cs "docker:workdir")) in
  halts (setupWorkdir strerror p) (fun cu w' => dir_error d = None /\ text_is cu d /\ held c w')
    (fun status => exists err, dir_error d = Some err /\ status = err_code err) w.
Proof.
  intros Hw Hv Hp d. pose proof (workdir_ok _ _ Hv Hp) as [Hdc Hdl]. fold d in Hdc, Hdl. unfold setupWorkdir. apply halts_bind.
  eapply (halts_wp _ (fun r w' => keeps w w' /\ exists cu, r = Some cu /\ text_is cu [])).
  { pose proof Hw as [[Hlow Htot] _]. apply custr_alloc_spec; [done| |by intros]. intros w1 Hw1. split; [by apply keeps_frame|].
    eexists. split; [done|apply text_empty]. }
  intros r w1 (Hw1 & cu & -> & Hcu). apply append_or_halts with (t := []); [done|by destruct Hw1|by vm_compute|]. intros cu1 w2 Hw2 Hcu1.
  assert (held c w2) as Hh by (eapply held_keeps; [|done]; by eapply held_keeps). apply halts_bind.
  eapply halts_wp; [by apply mdata_held|]. intros v w3 [Hw3 ->]. apply halts_bind.
  eapply (halts_wp _ (fun cu' w' => held c w' /\ text_is cu' d)).
  { subst d. destruct (table (cs "docker:workdir")) as [v|]; [by apply append_workdir_spec|done]. }
  intros cu2 w4 [Hw4 Hcu2]. apply halts_bind. eapply (halts_wp _ (fun t w' => t = d /\ held c w')); [by eapply text_cstr|].
  intros t w5 [-> Hw5]. apply halts_bind. eapply (halts_wp _ (fun _ w' => held c w')).
  { apply dlog_spec; [by destruct Hw5|]. intros w' Hw'. by eapply held_keeps. }
  intros _ w6 Hw6. apply halts_bind. unfold dir_error.
  eapply (halts_wp _ (fun r w' => held c w' /\ (if makes_dir d then r = 0 \/ w_errno w' = EEXIST else r = -1 /\ w_errno w' <> EEXIST))).
  { apply (held_other _ _ c (fun r => if makes_dir d then sr_ret r = 0 \/ sr_ret r = -1 /\ sr_errno r = EEXIST else sr_ret r = -1 /\ sr_errno r <> EEXIST));
      [done|by_decide|intros; by eapply pv_mkdirp|].
    intros r w7 Hw7 Hr He. split; [done|]. destruct (makes_dir d); [|destruct Hr as [Hr ?]; by rewrite He].
    destruct Hr as [Hr|[Hr Hx]]; [by left|right; by rewrite He]. }
  intros r w7 [Hw7 Hr]. apply halts_bind. eapply (halts_wp _ (fun e w' => e = w_errno w7 /\ w' = w7)); [done|]. intros e w' [-> ->].
  destruct (makes_dir d).
  2:{ destruct Hr as [-> Hne]. rewrite (proj2 (Z.eqb_neq _ EEXIST)) by done. apply halts_fatal; [done|]. by eexists. }
  assert ((r =? -1) && negb (w_errno w7 =? EEXIST) = false) as -> by (destruct Hr as [->| ->]; [done|apply andb_false_r]).
  apply halts_bind. eapply (halts_wp _ (fun r w' => held c w' /\ r = if enters_dir d then 0 else -1)).
  { apply (held_other _ _ c (fun r => sr_ret r = if enters_dir d then 0 else -1)); [done|by_decide|intros; by eapply pv_chdir|]. by intros r' w' ?? _. }
  intros r' w8 [Hw8 ->]. destruct (enters_dir d); [by split|]. apply halts_bind, halts_fatal; [done|]. by eexists.
Qed.

(** The executable of a command, or why it is not run. *)
Definition exec_end (l : list cstr) (wd cmd : cstr) : cstr + dockerinit_err :=
  match dir_error wd with
  | Some err => inr err
  | None =>
      match exec_target look l wd cmd with
      | inl path => if executes path then inl path else inr ERR_EXEC_FAILED
      | inr err => inr err
      end
  end.

(** A part that may be the last. *)
Lemma halts_use {A1 B1} (m : C E A1) (k : A1 -> C E B1) Q X Q' X' w :
  halts m Q X w -> (forall a w', Q a w' -> halts (k a) Q' X' w') -> (forall st, X st -> X' st) -> halts (m ≫= k) Q' X' w.
Proof. intros Hm Hk HX. apply halts_bind. unfold halts in *. destruct (m w) as [[a w']| | |]; try done; [by apply Hk|by apply HX]. Qed.

(** The last part of [main]: [execName] and [execve]. *)
Lemma exec_spec l wd env workdir cmd args c w :
  held c w -> dir_error wd = None -> text_is workdir wd -> is_cstr wd -> holds env l -> path_ok l wd -> is_cstr cmd -> Zlen cmd <= TEXT_MAX ->
  halts (dir ← custr_cstr workdir; execname ← execName strerror cmd env dir; dlog (cs "EXEC") ;; path ← custr_cstr execname;
         r ← sys "execve" (AS path :: vector (cmd :: args) ++ vector (until_null (strlist_array env)));
         if r =? 0 then mret tt else e ← get_errno; fatal ERR_EXEC_FAILED (cs "execve(" ++ cmd ++ cs ") failed: " ++ strerror e))
    (fun _ w' => exists path, exec_end l wd cmd = inl path /\ started (w_env w') = Some (c, AS path :: vector (cmd :: args) ++ vector l))
    (fun status => exists err, exec_end l wd cmd = inr err /\ status = err_code err) w.
Proof.
  intros Hw Hdir Hwd Hwdc Henv Hok Hcmd Hlcmd. unfold exec_end. rewrite Hdir. apply halts_bind.
  eapply (halts_wp _ (fun t w' => t = wd /\ w' = w)); [by eapply text_cstr|]. intros t w' [-> ->].
  eapply (halts_use (execName strerror cmd env wd)); [exact (execName_spec strerror look l env wd cmd w files_are Henv Hok Hcmd Hlcmd (proj1 Hw))| |].
  2:{ intros st (err & Ht & ->). exists err. by rewrite Ht. }
  intros cu w1 (path & Ht & Hcu & He). rewrite Ht. pose proof (exec_target_cstr _ _ _ _ _ Hok Hcmd Ht) as Hpath.
  apply halts_bind. eapply (halts_wp _ (fun _ w' => w_env w' = w_env w1)); [by apply wp_eprint|]. intros _ w2 Hw2.
  apply halts_bind. eapply (halts_wp _ (fun t w' => t = path /\ w' = w2)); [by eapply text_cstr|]. intros t w' [-> ->]. rewrite (holds_array _ _ Henv).
  apply halts_bind. set (argl := vector (cmd :: args) ++ vector l). destruct Hw as (_ & Hc & Hs).
  eapply (halts_wp _ (fun r w' => if executes path then r = 0 /\ started (w_env w') = Some (c, AS path :: argl) else r = -1)).
  { destruct (sys_step "execve" (AS path :: argl) (w_env w2)) as [r e'] eqn:Hstep. eapply wp_sys; [exact Hstep|].
    apply pv_execve in Hstep. rewrite Hw2, He, Hc in Hstep. by destruct (executes path). }
  intros r w3 Hr. destruct (executes path); [destruct Hr as [-> Hst]; by exists path|]. subst r.
  apply halts_bind, halts_fatal; [done|by eexists].
Qed.

Lemma user_of p g w : docker_user table p g -> Zlen (default (cs "0") (table (cs "docker:user"))) < HEAP_HI -> good w ->
  wp (getUserGroupData strerror None) (fun r w' => good w' /\ r = (p, g)) w.
Proof. intros (user & gname & g0 & Hu & Hc & Hne & Hp & Hg0 & ->) Hfit Hg. by apply (user_data_spec strerror table user gname p g0). Qed.

(** C40: [dockerexec], started as root, runs the command it is given with the credentials of the
    container: the group if one is known, the supplementary groups if the user is known too, and
    the uid if the user is known; a numeric uid that is in no database is no user at all, and the
    command keeps the uid of root.  The executable is looked for with the PATH and the working
    directory of the container, the command gets the environment of its metadata, and if the
    directory cannot be made or entered, or the command not found or not executed, the process
    ends with the status of that error. *)
Theorem dockerexec_runs_as (p : option passwd) (g : option group) (link env : list cstr) prog cmd args w :
  container table p g link env -> is_cstr cmd -> Zlen cmd <= TEXT_MAX ->
  good w -> cr_uid (creds_of (w_env w)) = 0 -> started (w_env w) = None ->
  let l := cmd_env None p link env in let wd := workdir_of p (table (cs "docker:workdir")) in
  halts (main strerror (prog :: cmd :: args))
    (fun _ w' => exists path, exec_end l wd cmd = inl path /\
       started (w_env w') = Some (privs p g (creds_of (w_env w)), AS path :: vector (cmd :: args) ++ vector l))
    (fun status => exists err, exec_end l wd cmd = inr err /\ status = err_code err) w.
Proof.
  intros [Hu Huf Hlink Henv Hef Hdf Hv Hp [Hpc Hpl]] Hcmd Hlcmd Hg Hroot Hnone l wd. set (c := creds_of (w_env w)) in *.
  assert (held c w) as Hw by by split_and!. pose proof (workdir_ok _ _ Hv Hp) as [Hwdc Hwdl]. unfold main. apply halts_bind.
  eapply (halts_wp _ (fun r w' => held c w' /\ exists sl, r = (0, Some sl) /\ holds sl [])).
  { destruct Hg as [Hlow Htot]. apply alloc_spec; [done|unfold STRLIST_MAX; lia| |by intros].
    intros sl w' Hw' Hrep Hcap. split; [eapply held_keeps; [done|by apply keeps_frame]|]. eexists. split; [done|]. split; [done|].
    split; [rewrite Hcap; by vm_compute|constructor]. }
  intros r w1 (Hw1 & sl & -> & Hsl). apply halts_bind.
  eapply halts_wp; [apply (held_moves _ c (fun r _ => r = (p, g)) w1 Hw1); [apply moves_getUserGroupData; first [exact mdata_quiet|apply _]|by apply user_of, Hw1]|].
  intros r w2 [Hw2 ->]. eapply (halts_use (setupWorkdir strerror p)); [exact (setupWorkdir_spec p c w2 Hw2 Hv Hp)| |].
  2:{ intros st (err & He & ->). exists err. split; [|done]. unfold exec_end. fold wd in He. by rewrite He. }
  intros workdir w3 (Hd & Hwd & Hw3). apply halts_bind.
  eapply halts_wp; [apply (held_moves _ c (fun r _ => r.1 = 0 /\ holds r.2 l) w3 Hw3); [apply moves_buildCmdEnv; first [exact mdata_quiet|apply _]|]|].
  { eapply wp_mono; [apply (buildCmdEnv_spec strerror table None p link env sl w3); [done..|apply Hw3]|]. by intros [r sl'] w' (? & -> & ?). }
  intros [r sl'] w4 (Hw4 & _ & Hsl').
  apply halts_bind; eapply (halts_wp _ (fun _ w' => held c w')); [by apply (held_close 4)|]. intros ? w5 Hw5.
  apply halts_bind; eapply (halts_wp _ (fun _ w' => held c w')); [by apply (held_close 5)|]. intros ? w6 Hw6.
  apply halts_bind; eapply (halts_wp _ (fun _ w' => held c w')); [by apply (held_close 6)|]. intros ? w7 Hw7.
  apply halts_bind. eapply (halts_wp _ (fun _ w' => held (privs p g c) w')); [by apply (drop_privs_spec p g c)|]. intros ? w8 Hw8. by apply exec_spec.
Qed.
End run.

(** ** Witnesses *)

(** A kernel that keeps credentials beside the store of libnvpair. *)
Definition priv_env : Type := list (option nvpairs) * (creds * option (creds * list sarg)).

Definition priv_call (name : string) (args : list sarg) (c : creds) : sysret * creds :=
  let allowed c' := if decide (cr_uid c = 0) then (SysRet 0 0 [] [], c') else (SysRet (-1) EINVAL [] [], c) in
  match args with
  | [AZ n] =>
      if decide (name = "setgid"%string) then allowed (Creds 0 n (cr_groups c))
      else if decide (name = "setuid"%string) then allowed (Creds n (cr_gid c) (cr_groups c)) else (SysRet 0 0 [] [], c)
  | [AS user; AZ n] =>
      if decide (name = "initgroups"%string) then allowed (Creds 0 (cr_gid c) [n; 1])
      else if decide (name = "mkdirp"%string) then (SysRet (-1) EEXIST [] [], c) else (SysRet 0 0 [] [], c)
  | [AS p] =>
      if decide (name = "stat"%string) then (match sample_files p with Some m => SysRet 0 0 [] [m] | None => SysRet (-1) ENOENT [] [] end, c)
      else (SysRet 0 0 [] [], c)
  | _ => (SysRet 0 0 [] [], c)
  end.

#[local] Instance priv_kernel : Kernel priv_env := fun name args '(store, (c, s)) =>
  if decide (name = "execve"%string) then (SysRet 0 0 [] [], (store, (c, Some (c, args))))
  else let '(r, c') := priv_call name args c in (r, (store, (c', s))).

#[local] Instance priv_laws : Privileged priv_env.
Proof.
  refine {| creds_of := fun e => e.2.1; started := fun e => e.2.2; supplementary := fun _ g => [g; 1];
            makes_dir := fun _ => true; enters_dir := fun _ => true; executes := fun _ => true |};
    intros until e'; destruct e as [store [c s]]; unfold sys_step, priv_kernel, priv_call.
  1-3: destruct c; cbn; intros Hs ->; by injection Hs as <- <-.
  - intros Hs. rewrite decide_True in Hs by done. by injection Hs as <- <-.
  - intros Hs. injection Hs as <- <-. by right.
  - intros Hs. by injection Hs as <- <-.
  - unfold cred_calls. rewrite !not_elem_of_cons. intros Hs (Hg & Hi & Hu & Hx & _). rewrite decide_False in Hs by done.
    destruct args as [|[] [|[] [|? ?]]]; rewrite ?decide_False in Hs by done; repeat case_decide; try done; by injection Hs as <- <-.
Defined.

Definition exec_table (user key : cstr) : option cstr :=
  if decide (key = cs "docker:user") then Some user
  else if decide (key = cs "docker:env") then Some (print_json (string_array [cs "PATH=tools:/usr/bin"]))
  else if decide (key = cs "docker:workdir") then Some (cs "work") else None.

Definition root_world : world priv_env := World 0 [] [] ([], (Creds 0 0 [0], None)).

(** The user 1000 is unknown, the group staff is not: the command has that group, and the uid 0. *)
Definition staff : option group := Some (Group (cs "staff") 10).
Definition staff_table : cstr -> option cstr := exec_table (cs "1000:staff").
Definition staff_env : list cstr := [cs "PATH=tools:/usr/bin"].

Lemma staff_container : @container sample_accounts staff_table None staff [] staff_env.
Proof.
  split; [|by vm_compute|sample_array|sample_array|by vm_compute|by repeat constructor|split; [by_decide|by vm_compute]|done|split; [by_decide|by vm_compute]].
  exists (cs "1000"), (Some (cs "staff")), staff. split_and!; [done|by_decide|done| |by eapply group_by_name|done].
  by apply (user_by_uid _ _ 1000).
Qed.

Lemma dockerexec_runs_as_witness :
  let l := cmd_env None None [] staff_env in let wd := workdir_of None (staff_table (cs "docker:workdir")) in
  halts (@main _ (table_metadata staff_table _) outer_nvlist priv_kernel sample_accounts LP64 (fun _ => []) [cs "dockerexec"; cs "env"; cs "-i"])
    (fun _ w' => exists path, exec_end sample_files l wd (cs "env") = inl path /\
       started (w_env w') = Some (privs None staff (creds_of (w_env root_world)), AS path :: vector [cs "env"; cs "-i"] ++ vector l))
    (fun status => exists err, exec_end sample_files l wd (cs "env") = inr err /\ status = err_code err) root_world /\
  privs None staff (creds_of (w_env root_world)) = Creds 0 10 [0] /\ exec_end sample_files l wd (cs "env") = inl (cs "/usr/bin/env").
Proof.
  intros l wd. split; [|split; [done|by vm_compute]].
  assert (forall key, moves (same_privs (E := priv_env)) (mdataGet (Metadata := table_metadata staff_table _) key)) as Hquiet
    by (intros key w a w' [= _ <-]; reflexivity).
  assert (files sample_files) as Hfiles.
  { intros [store [c s]] p. exists ENOENT. unfold sys_step, priv_kernel, priv_call. cbn. by destruct (sample_files p). }
  pose proof (@dockerexec_runs_as priv_env (table_metadata staff_table _) outer_nvlist outer_laws priv_kernel priv_laws sample_accounts LP64
    (fun _ => []) staff_table (table_serves _ _) (outer_nv_moves _ (fun _ _ _ => conj eq_refl eq_refl)) Hquiet sample_files Hfiles
    None staff [] staff_env (cs "dockerexec") (cs "env") [cs "-i"] root_world staff_container) as Hrun.
  apply Hrun; [by_decide|by vm_compute|by split; constructor|done|done].
Defined.
