(* ===== verification/NvDoc.v ===== *)
(** * NvDoc: documents as the programs find them

    What the lists of a parsed document say: the values of a name ([nv_string], [nv_bool]), the
    lists among the pairs ([nv_lists], [lists_of] for an array), the names, which are different.
    [document_of]: the text of a metadata key is a printed document. *)
From Stdlib Require Import Lia.
From S2P Require Import Prelude Cnum Strset Nvlist NvRead Json JsonSpec JsonPrint JsonMachine DockerEnv.

Definition nv_string (k : cstr) (l : nvpairs) : option cstr := match nv_find k l with Some (NvString s) => Some s | _ => None end.
Definition nv_bool (k : cstr) (l : nvpairs) : option bool := match nv_find k l with Some (NvBooleanValue b) => Some b | _ => None end.

(** The lists among the pairs of a document, in order. *)
Definition nv_lists (l : nvpairs) : list nvpairs := omap (fun p => nv_list_of p.2) l.

(** The values of an array that are lists. *)
Definition lists_of (js : list json) : list nvpairs := omap nv_list_of (nv_of <$> js).

(** The text of a key is the document [j], printed. *)
Definition text_is (text : option cstr) (j : json) : Prop :=
  text = Some (print_json j) /\ document j = true /\ json_ok j /\ Zlen (print_json j) <= JSON_MAX.

(** The value of [key] is the array [js]; no value stands for the empty one. *)
Definition document_of (table : cstr -> option cstr) (key : cstr) (js : list json) : Prop :=
  match table key with
  | None => js = []
  | Some text => text = print_json (JArray js) /\ json_ok (JArray js) /\ Zlen text <= JSON_MAX /\ Zlen js <= INT_MAX
  end.

(** ** The lists in an array *)

Lemma nv_lists_app l l' : nv_lists (l ++ l') = nv_lists l ++ nv_lists l'.
Proof. apply omap_app. Qed.

Lemma nv_lists_put k v l : k ∉ l.*1 -> nv_lists (nv_put k v l) = nv_lists l ++ omap nv_list_of [v].
Proof.
  intros Hk. unfold nv_put. rewrite nv_lists_app. f_equal. f_equal. induction l as [|[k' v'] l IH]; [done|].
  rewrite filter_cons. cbn in Hk. apply not_elem_of_cons in Hk as [Hne Hk]. rewrite decide_True by (cbn; congruence). by rewrite IH.
Qed.

Lemma nv_put_names k v l x : x ∈ (nv_put k v l).*1 -> x = k \/ x ∈ l.*1.
Proof.
  unfold nv_put. rewrite fmap_app, elem_of_app. intros [Hx|Hx].
  - right. apply list_elem_of_fmap in Hx as (p & -> & Hp%list_elem_of_filter). apply list_elem_of_fmap. exists p. tauto.
  - left. by apply list_elem_of_singleton in Hx.
Qed.

Lemma nv_put_length k v l : (length (nv_put k v l) <= S (length l))%nat.
Proof. unfold nv_put. rewrite length_app. pose proof (length_filter (fun p => p.1 <> k) l). cbn. lia. Qed.

(** The names of the elements before index [idx]. *)
Definition indexed (idx : Z) (l : nvpairs) : Prop := forall x, x ∈ l.*1 -> exists i, x = print_d i /\ 0 <= i < idx.

Lemma elements_lists vs idx l : 0 <= idx -> idx + Zlen vs <= INT_MAX -> indexed idx l ->
  nv_lists (nv_elements idx l vs) = nv_lists l ++ omap nv_list_of vs.
Proof.
  revert idx l. induction vs as [|v vs IH]; intros idx l Hidx Hmax Hl; cbn [nv_elements].
  - unfold decorated. rewrite nv_lists_put, nv_lists_put; [cbn; by rewrite !app_nil_r| |].
    + intros (i & Heq & Hi)%Hl. destruct (print_d_name i) as [_ Hn]; [lia|congruence].
    + intros [?|(i & Heq & Hi)%Hl]%nv_put_names; [done|]. destruct (print_d_name i) as [Hn _]; [lia|congruence].
  - rewrite Zlen_cons in *. pose proof (Zlen_nonneg vs). rewrite i32_small by (unfold INT_MIN, INT_MAX in *; lia).
    rewrite IH; [|lia|lia|].
    + rewrite nv_lists_put; [rewrite <-app_assoc; f_equal; cbn; by destruct (nv_list_of v)|]. intros (i & Heq & Hi)%Hl. apply print_d_inj in Heq; lia.
    + intros x [->|(i & -> & Hi)%Hl]%nv_put_names; [exists idx; split; [done|lia]|exists i; split; [done|lia]].
Qed.

Lemma elements_count vs idx l : (length (nv_elements idx l vs) <= length l + length vs + 2)%nat.
Proof.
  revert idx l. induction vs as [|v vs IH]; intros idx l; cbn [nv_elements length].
  - unfold decorated. pose proof (nv_put_length (cs "length") (NvUint32 (u32 idx)) (nv_put JSON_MARKER_ARRAY NvBoolean l)).
    pose proof (nv_put_length JSON_MARKER_ARRAY NvBoolean l). lia.
  - pose proof (IH (i32 (idx + 1)) (nv_put (print_d idx) v l)). pose proof (nv_put_length (print_d idx) v l). lia.
Qed.

Lemma nv_put_nodup k v l : NoDup l.*1 -> NoDup (nv_put k v l).*1.
Proof.
  intros Hl. unfold nv_put. rewrite fmap_app. apply list.NoDup_app. split_and!; [|by intros x Hx ->%list_elem_of_singleton; apply nv_put_absent in Hx|by apply NoDup_singleton].
  induction l as [|[k' v'] l IH]; [done|]. cbn in Hl. apply list.NoDup_cons in Hl as [Hk Hl]. rewrite filter_cons.
  case_decide; [|by apply IH]. cbn. apply list.NoDup_cons. split; [|by apply IH].
  intros (p & -> & Hp%list_elem_of_filter)%list_elem_of_fmap. apply Hk. apply list_elem_of_fmap. exists p. by destruct Hp.
Qed.

Lemma elements_nodup vs idx l : NoDup l.*1 -> NoDup (nv_elements idx l vs).*1.
Proof.
  revert idx l. induction vs as [|v vs IH]; intros idx l Hl; cbn [nv_elements]; [|by apply IH, nv_put_nodup].
  by apply nv_put_nodup, nv_put_nodup.
Qed.

Lemma array_lists js : Zlen js <= INT_MAX -> nv_lists (pairs_of (JArray js)) = lists_of js.
Proof.
  intros Hmax. unfold pairs_of, lists_of. rewrite elements_lists; [done|done| |].
  - unfold Zlen in *. by rewrite length_fmap.
  - intros x Hx. by apply elem_of_nil in Hx.
Qed.

(** ** The names of a document *)

Lemma members_nodup ms l : NoDup l.*1 -> NoDup (nv_members l ms).*1.
Proof. revert l. induction ms as [|[k v] ms IH]; intros l Hl; [done|]. by apply IH, nv_put_nodup. Qed.

Lemma pairs_nodup j : NoDup (pairs_of j).*1.
Proof. destruct j; try constructor; [apply elements_nodup|apply members_nodup]; constructor. Qed.
