(* ===== verification/Calls.v ===== *)
(** * Calls: the calls a program makes while it reads a document

    [Traced]: a kernel that records the calls it is asked, or those that are [heard].  [Steady]: what
    can be read of a list stays readable over a call, and libnvpair makes no calls itself.  [Asked]:
    the metadata is a table.  [makes m calls P w]: from [w] the computation makes these calls and
    returns a value that satisfies [P]; what could be read before still can.  [ends] says the same of
    a computation after which the lists may be gone. *)
From Stdlib Require Import Lia.
From S2P Require Import Prelude Cnum Strset Sys Mdata Nvlist NvRead Json JsonSpec JsonPrint JsonMachine Docker DockerEnv Dockerinit Moves NvStore NvDoc.

(** A call: its name, its arguments and its result. *)
Definition call : Type := string * list sarg * Z.

Class Traced (E : Type) `{Kernel E} := {
  trace : E -> list call;
  heard : string -> bool;
  traced name args e r e' : sys_step name args e = (r, e') ->
    trace e' = trace e ++ if heard name then [(name, args, sr_ret r)] else []
}.

Class Steady (E : Type) `{Traced E} `{NvReadLaws E} := {
  steady_reads name args e r e' h l : sys_step name args e = (r, e') -> nv_reads h l e -> nv_reads h l e';
  steady_opens name args e r e' h l : sys_step name args e = (r, e') -> nv_open None [(h, [], l)] e -> nv_open None [(h, [], l)] e';
  steady_nvlists : NvMoves (fun e e' : E => trace e' = trace e)
}.

Class Asked (E : Type) `{Traced E} `{Metadata E} (table : cstr -> option cstr) :=
  asked key (w : world E) : good w -> wp (mdataGet key) (fun v w' => good w' /\ v = table key /\ trace (w_env w') = trace (w_env w)) w.

#[export] Instance same_trace_preorder {E} `{Traced E} : PreOrder (fun e e' : E => trace e' = trace e).
Proof. split; [done|]. intros e1 e2 e3 H12 H23. congruence. Qed.

Section calls.
Context {E : Type} `{K : Kernel E} `{!Traced E} `{NL : Nvlist E} `{!NvlistLaws E} `{!NvRead E} `{!NvReadLaws E} `{!Steady E} `{DM : DataModel}.
Implicit Types w : world E.

(** From [w] to [w'] the calls [cs] were made, and what could be read still can. *)
Definition did (calls : list call) w w' : Prop :=
  good w' /\ trace (w_env w') = trace (w_env w) ++ calls /\ (forall h l, nv_reads h l (w_env w) -> nv_reads h l (w_env w')) /\
  (forall h l, nv_open None [(h, [], l)] (w_env w) -> nv_open None [(h, [], l)] (w_env w')).

Lemma did_nil w : good w -> did [] w w.
Proof. intros Hg. split_and!; [done|by rewrite app_nil_r|done..]. Qed.
Lemma did_app c1 c2 w1 w2 w3 : did c1 w1 w2 -> did c2 w2 w3 -> did (c1 ++ c2) w1 w3.
Proof. intros (? & Hc1 & ? & ?) (? & Hc2 & ? & ?). split_and!; [done|by rewrite Hc2, Hc1, app_assoc|auto..]. Qed.
Lemma did_good c w w' : did c w w' -> good w'.
Proof. by intros [? _]. Qed.
Lemma did_reads c w w' h l : did c w w' -> nv_reads h l (w_env w) -> nv_reads h l (w_env w').
Proof. intros (_ & _ & Hr & _). apply Hr. Qed.
Lemma did_opens c w w' h l : did c w w' -> nv_open None [(h, [], l)] (w_env w) -> nv_open None [(h, [], l)] (w_env w').
Proof. intros (_ & _ & _ & Ho). apply Ho. Qed.

(** [m] makes the calls and returns a value that satisfies [P]. *)
Definition makes {A} (m : C E A) (calls : list call) (P : A -> Prop) w : Prop := wp m (fun a w' => did calls w w' /\ P a) w.

Lemma makes_ret {A} (a : A) (P : A -> Prop) w : good w -> P a -> makes (mret a) [] P w.
Proof. intros Hg HP. split; [by apply did_nil|done]. Qed.

Lemma makes_bind {A B} (m : C E A) (k : A -> C E B) c1 c2 (P : A -> Prop) (Q : B -> Prop) w :
  makes m c1 P w -> (forall a w', P a -> did c1 w w' -> makes (k a) c2 Q w') -> makes (m ≫= k) (c1 ++ c2) Q w.
Proof.
  intros Hm Hk. apply wp_bind. eapply wp_mono; [exact Hm|]. intros a w1 [H1 HP]. eapply wp_mono; [by apply Hk|].
  intros b w2 [H2 HQ]. split; [by eapply did_app|done].
Qed.

(** A step that makes no call. *)
Lemma makes_quiet {A B} (m : C E A) (k : A -> C E B) c (P : A -> Prop) (Q : B -> Prop) w :
  makes m [] P w -> (forall a w', P a -> did [] w w' -> makes (k a) c Q w') -> makes (m ≫= k) c Q w.
Proof. apply makes_bind. Qed.

Lemma makes_mono {A} (m : C E A) c c' (P P' : A -> Prop) w : makes m c P w -> c = c' -> (forall a, P a -> P' a) -> makes m c' P' w.
Proof. intros Hm <- HP. eapply wp_mono; [exact Hm|]. intros a w' [? ?]. auto. Qed.

Lemma makes_env {A} (m : C E A) (P : A -> Prop) w : wp m (fun a w' => good w' /\ w_env w' = w_env w /\ P a) w -> makes m [] P w.
Proof. intros Hm. eapply wp_mono; [exact Hm|]. intros a w' (Hg & He & HP). unfold did. rewrite He, app_nil_r. done. Qed.

Lemma makes_dlog s w : good w -> makes (dlog s) [] (fun _ => True) w.
Proof. intros [? ?]. apply makes_env. by split_and!. Qed.
Lemma makes_get_errno w : good w -> makes get_errno [] (fun _ => True) w.
Proof. intros Hg. apply makes_env. by split_and!. Qed.
Lemma makes_access {A} (o : option A) a w : good w -> o = Some a -> makes (c_access o) [] (fun b => b = a) w.
Proof. intros Hg ->. apply makes_env. by split_and!. Qed.


(** A call. *)
Lemma did_step name args r e' w : good w -> sys_step name args (w_env w) = (r, e') ->
  did (if heard name then [(name, args, sr_ret r)] else []) w (World (if sr_ret r =? -1 then sr_errno r else w_errno w) (w_heap w) (w_stderr w) e').
Proof.
  intros [? ?] Hs. split_and!; [done| | |].
  - cbn. by rewrite (traced _ _ _ _ _ Hs).
  - intros h l. by eapply steady_reads.
  - intros h l. by eapply steady_opens.
Qed.

(** A call whose answer is known. *)
Lemma makes_syscall name args ret (P : sysret -> Prop) w :
  good w -> heard name = true -> (forall e r e', sys_step name args e = (r, e') -> sr_ret r = ret /\ P r) ->
  makes (syscall name args) [(name, args, ret)] (fun r => sr_ret r = ret /\ P r) w.
Proof.
  intros Hg Hh HP. destruct (sys_step name args (w_env w)) as [r e'] eqn:Hs. destruct (HP _ _ _ Hs) as [Hr HPr].
  pose proof (did_step _ _ _ _ w Hg Hs) as Hd. rewrite Hh, Hr in Hd. eapply wp_syscall; [exact Hs|]. by rewrite Hr.
Qed.
Lemma makes_sys name args ret w :
  good w -> heard name = true -> (forall e r e', sys_step name args e = (r, e') -> sr_ret r = ret) ->
  makes (sys name args) [(name, args, ret)] (fun r => r = ret) w.
Proof.
  intros Hg Hh HP. unfold sys. eapply (makes_bind _ _ [_] []).
  - apply (makes_syscall _ _ ret (fun _ => True)); [done|done|]. intros e r e' Hs. split; [by eapply HP|done].
  - intros r w' [Hr _] Hw'. apply makes_ret; [by eapply did_good|done].
Qed.

(** *** Lookups *)

Lemma lookup_string_makes {B} h l name (k : Z * option cstr -> C E B) c (Q : B -> Prop) w :
  good w -> nv_reads h l (w_env w) ->
  (forall r w', good w' -> nv_reads h l (w_env w') ->
     (match nv_string name l with Some s => r = (0, Some s) | None => r.1 <> 0 end) -> did [] w w' -> makes (k r) c Q w') ->
  makes (nvlist_lookup_string h name ≫= k) c Q w.
Proof.
  intros Hg Hr Hk. eapply (makes_quiet _ _ _ (fun r => match nv_find name l with Some (NvString s) => r = (0, Some s) | _ => r.1 <> 0 end)).
  { apply makes_env. by apply nv_read_string. }
  intros r w1 Hf Hw1. apply Hk; [by eapply did_good|by eapply did_reads| |done]. unfold nv_string. by destruct (nv_find name l) as [[]|].
Qed.

Lemma lookup_bool_makes {B} h l name (k : Z * option bool -> C E B) c (Q : B -> Prop) w :
  good w -> nv_reads h l (w_env w) ->
  (forall r w', good w' -> nv_reads h l (w_env w') ->
     (match nv_bool name l with Some b => r = (0, Some b) | None => r.1 <> 0 end) -> did [] w w' -> makes (k r) c Q w') ->
  makes (nvlist_lookup_boolean_value h name ≫= k) c Q w.
Proof.
  intros Hg Hr Hk. eapply (makes_quiet _ _ _ (fun r => match nv_find name l with Some (NvBooleanValue b) => r = (0, Some b) | _ => r.1 <> 0 end)).
  { apply makes_env. by apply nv_read_boolean. }
  intros r w1 Hf Hw1. apply Hk; [by eapply did_good|by eapply did_reads| |done]. unfold nv_bool. by destruct (nv_find name l) as [[]|].
Qed.

(** The element of an array at an index, when it is a list. *)
Definition element_list (js : list json) (i : nat) : option nvpairs := js !! i ≫= (fun j => nv_list_of (nv_of j)).

Lemma element_find js i j : Zlen js <= INT_MAX -> js !! i = Some j ->
  nv_find (print_u (Z.of_nat i)) (pairs_of (JArray js)) = Some (nv_of j).
Proof.
  intros Hmax Hj. pose proof (lookup_lt_Some _ _ _ Hj) as Hi. pose proof (elements_at (nv_of <$> js) 0 [] i (nv_of j)) as Hat.
  unfold print_d in Hat. rewrite (proj2 (Z.ltb_ge _ 0)) in Hat by lia. apply Hat; [lia| |by rewrite list_lookup_fmap, Hj].
  unfold Zlen in *. rewrite length_fmap. lia.
Qed.

Lemma lookup_element_makes {B} h js (i : nat) (k : Z * option nvlist_t -> C E B) c (Q : B -> Prop) w :
  Zlen js <= INT_MAX -> (i < length js)%nat -> good w -> nv_reads h (pairs_of (JArray js)) (w_env w) ->
  (forall r w', good w' -> nv_reads h (pairs_of (JArray js)) (w_env w') ->
     (match element_list js i with Some l => exists h', r = (0, Some h') /\ nv_reads h' l (w_env w') | None => r.1 <> 0 end) -> did [] w w' -> makes (k r) c Q w') ->
  makes (nvlist_lookup_nvlist h (print_u (Z.of_nat i)) ≫= k) c Q w.
Proof.
  intros Hmax Hi Hg Hr Hk. destruct (lookup_lt_is_Some_2 js i Hi) as [j Hj].
  pose proof (nv_read_nvlist h _ (print_u (Z.of_nat i)) w Hg Hr) as Hread. rewrite (element_find js i j) in Hread by done.
  apply makes_env in Hread. eapply makes_quiet; [exact Hread|]. intros [r x] w1 Hf Hw1. apply Hk; [by eapply did_good|by eapply did_reads| |done].
  unfold element_list. rewrite Hj. cbn. destruct (nv_of j); try done. cbn in *. destruct Hf as (-> & h' & -> & Hr').
  exists h'. split; [done|by eapply did_reads].
Qed.

Lemma lookup_length_makes h js w : Zlen js <= INT_MAX -> good w -> nv_reads h (pairs_of (JArray js)) (w_env w) ->
  makes (nvlist_lookup_uint32 h (cs "length")) [] (fun r => r = (0, Some (Zlen js))) w.
Proof.
  intros Hmax Hg Hr. apply makes_env. eapply wp_mono; [by apply nv_read_uint32|]. intros r w' (Hg' & He & Hf). split_and!; [done..|].
  unfold pairs_of in Hf. rewrite elements_length in Hf by (unfold Zlen in *; rewrite ?length_fmap; lia). rewrite Hf.
  unfold Zlen. by rewrite length_fmap, Z.add_0_l.
Qed.

Lemma makes_strdup s w : good w -> Zlen s < HEAP_HI -> makes (strdup s) [] (fun d => d = Some s) w.
Proof. intros Hg Hs. apply strdup_spec; [done|done|]. intros w' (Hg' & He). unfold did. rewrite He, app_nil_r. done. Qed.

(** ** Documents *)

(** The whole of a document: the calls are made, and what was open before may be gone. *)
Definition ends {A} (m : C E A) (calls : list call) w : Prop :=
  wp m (fun _ w' => good w' /\ trace (w_env w') = trace (w_env w) ++ calls) w.

(** What [m] does, and that it made no call. *)
Lemma wp_silent {A} (m : C E A) Q w : moves (fun e e' : E => trace e' = trace e) m -> wp m Q w ->
  wp m (fun a w' => Q a w' /\ trace (w_env w') = trace (w_env w)) w.
Proof. intros Hm Hw. specialize (Hm w). unfold wp in *. destruct (m w) as [[a w']| | |]; try done. split; [done|by eapply Hm]. Qed.

(** A printed document is parsed, whatever the flags. *)
Lemma parse_document (strerror : Z -> cstr) flag errout buf j w :
  flags_ok flag -> errout_ok errout -> json_ok j -> document j = true -> Zlen (print_json j) <= JSON_MAX ->
  take (S (length (print_json j))) buf = print_json j ++ [NUL] -> good w ->
  wp (nvlist_parse_json strerror buf (Zlen (print_json j)) flag errout)
    (fun '(r, nvl, _) w' => r = 0 /\ good w' /\ trace (w_env w') = trace (w_env w) /\
       exists h, nvl = Some h /\ nv_open None [(h, [], pairs_of j)] (w_env w')) w.
Proof.
  intros Hflag Herr Hok Hdoc Hmax Hbuf Hg. pose proof steady_nvlists. pose proof (Zlen_nonneg (print_json j)).
  assert (S (length (print_json j)) <= length buf)%nat as Hlen.
  { apply (f_equal length) in Hbuf. rewrite length_take, length_app in Hbuf. change (length [NUL]) with 1%nat in Hbuf. lia. }
  eapply wp_mono; [apply wp_silent; [by apply moves_parse_json; apply _|]|].
  - apply (parse_json_spec strerror (json_size j)) with (P := fun '(r, nvl, _) w' => r = 0 /\ good w' /\
      exists h, nvl = Some h /\ nv_open None [(h, [], pairs_of j)] (w_env w')); [|done|done|done|].
    + split; [|done]. unfold Zlen. lia.
    + unfold Zlen at 1. rewrite Nat2Z.id, Hbuf, json_print_reads by (done || lia).
      intros h err w' Hg' _ Ho _. split_and!; [done|done|]. by exists h.
  - intros [[r nvl] err] w' [(-> & Hg' & Ho) Ht]. by split_and!.
Qed.

Lemma parse_text (strerror : Z -> cstr) j w :
  json_ok j -> document j = true -> Zlen (print_json j) <= JSON_MAX -> good w ->
  wp (nvlist_parse_json strerror (print_json j ++ [NUL]) (Zlen (print_json j)) NVJSON_FORCE_INTEGER None)
    (fun '(r, nvl, _) w' => r = 0 /\ good w' /\ trace (w_env w') = trace (w_env w) /\
       exists h, nvl = Some h /\ nv_open None [(h, [], pairs_of j)] (w_env w')) w.
Proof.
  intros Hok Hdoc Hmax Hg. apply parse_document; try done. rewrite take_ge; [done|]. rewrite length_app. cbn. lia.
Qed.

Lemma ends_bind {A B} (m : C E A) (k : A -> C E B) c1 c2 w :
  ends m c1 w -> (forall a w', good w' -> ends (k a) c2 w') -> ends (m ≫= k) (c1 ++ c2) w.
Proof.
  intros Hm Hk. apply wp_bind. eapply wp_mono; [exact Hm|]. intros a w1 [Hg1 Ht1]. eapply wp_mono; [by apply Hk|].
  intros b w2 [Hg2 Ht2]. split; [done|]. by rewrite Ht2, Ht1, app_assoc.
Qed.
Lemma makes_ends {A} (m : C E A) c P w : makes m c P w -> ends m c w.
Proof. intros Hm. eapply wp_mono; [exact Hm|]. intros a w' [(? & ? & _) _]. done. Qed.

Lemma makes_then {A B} (m : C E A) (k : A -> C E B) c1 c2 P w :
  makes m c1 P w -> (forall a w', P a -> good w' -> ends (k a) c2 w') -> ends (m ≫= k) (c1 ++ c2) w.
Proof.
  intros Hm Hk. apply wp_bind. eapply wp_mono; [exact Hm|]. intros a w1 [(Hg1 & Ht1 & _) HP]. eapply wp_mono; [by apply Hk|].
  intros b w2 [Hg2 Ht2]. split; [done|]. by rewrite Ht2, Ht1, app_assoc.
Qed.

(** After steps that make no call. *)
Lemma ends_after {A} (m : C E A) c w w' : 
  trace (w_env w') = trace (w_env w) -> ends m c w' ->
  wp m (fun _ w2 => good w2 /\ trace (w_env w2) = trace (w_env w) ++ c) w'.
Proof. unfold ends. intros Ht Hm. eapply wp_mono; [exact Hm|]. intros a w2 [Hg2 Ht2]. split; [done|]. by rewrite Ht2, Ht. Qed.

Lemma free_ends h l c w0 w : did c w0 w -> nv_open None [(h, [], l)] (w_env w) ->
  wp (nvlist_free h) (fun _ w' => good w' /\ trace (w_env w') = trace (w_env w0) ++ c) w.
Proof.
  intros (Hg & Ht & _) Ho. pose proof steady_nvlists. eapply wp_mono; [apply wp_silent; [apply nvm_free|by eapply nv_free]|].
  intros [] w' [[Hg' _] Ht']. split; [done|congruence].
Qed.
End calls.

(** Steps at the head of a [makes] goal whose calls are split already. *)
Ltac quiet := eapply makes_quiet; [first [apply makes_dlog; done | apply makes_get_errno; done]|];
  let Hw := fresh in intros ? ? _ Hw; apply did_good in Hw.

(** ** A kernel that keeps a record

    A kernel given by its answers, which may depend on the record and a state of its own; beside it
    the store of libnvpair, which no call touches. *)
Class Answers (V : Type) := { answer : string -> list sarg -> list call -> V -> sysret * V; hears : string -> bool }.

Definition rec_env (V : Type) : Type := list (option nvpairs) * (list call * V).
Definition rec_start {V} (v : V) : world (rec_env V) := World 0 [] [] ([], ([], v)).

Section record.
Context {V : Type} `{Answers V}.

#[export] Instance rec_kernel : Kernel (rec_env V) := fun name args '(store, (log, v)) =>
  let '(r, v) := answer name args log v in (r, (store, (log ++ (if hears name then [(name, args, sr_ret r)] else []), v))).

#[export] Instance rec_traced : Traced (rec_env V).
Proof.
  refine {| trace := fun e => e.2.1; heard := hears |}.
  intros name args [store [log v]] r e' Hs. unfold sys_step, rec_kernel in Hs. destruct (answer _ _ _ _) as [r' v']. by injection Hs as <- <-.
Defined.

#[export] Instance rec_steady : Steady (rec_env V).
Proof.
  split.
  - intros name args [store [log v]] r e' h l Hs. unfold sys_step, rec_kernel in Hs. destruct (answer _ _ _ _) as [r' v']. by injection Hs as <- <-.
  - intros name args [store [log v]] r e' h l Hs. unfold sys_step, rec_kernel in Hs. destruct (answer _ _ _ _) as [r' v']. by injection Hs as <- <-.
  - by apply outer_nv_moves.
Qed.

Lemma rec_asked (table : cstr -> option cstr) : @Asked (rec_env V) rec_kernel rec_traced (table_metadata table (rec_env V)) table.
Proof. intros key w Hg. by split_and!. Qed.
End record.
