(* ===== verification/DockerinitNet.v ===== *)
(** * DockerinitNet: the network of a container

    From the text of the metadata to the calls of libipadm and of the routing socket:
    [network_calls] lists, for the NICs and the routes of a container, the calls that
    [setupNetworking] makes, in order.  [NetEnv] is a kernel on which they succeed and which
    records them; a failure is handled by [fatal] or leaves the other routes as they are. *)
From Stdlib Require Import Lia.
From S2P Require Import Prelude Cnum Strset Sys Mdata Nvlist NvRead Json JsonSpec JsonPrint JsonMachine Docker DockerEnv Tools Dockerinit Moves NvStore NvDoc Calls.

(** The network as it answers: the handle of libipadm, the address object and the flags of an
    interface, its index, the process and the sockets. *)
Record network := Network {
  net_iph : Z; net_obj : cstr -> Z; net_flags : cstr -> Z; net_index : cstr -> Z; net_pid : Z; net_sock : Z
}.

Section calls.
Context `{Inet} (N : network).

Definition plumb_calls (ifname : cstr) : list call :=
  let name := fits LIFNAMSIZ ifname in
  [("ipadm_create_if", [AZ (net_iph N); AS name; AS (cs "AF_INET"); AS (cs "IPADM_OPT_ACTIVE")], 0);
   ("ipadm_create_if", [AZ (net_iph N); AS name; AS (cs "AF_INET6"); AS (cs "IPADM_OPT_ACTIVE")], 0)]%string.

(** Bringing an interface up with an address; [None] when the netmask is not an address. *)
Definition raise_calls (ifname addr netmask : cstr) : option (list call) :=
  match inet_pton netmask with
  | None => None
  | Some mask =>
      let obj := net_obj N ifname in let name := fits LIFNAMSIZ ifname in
      Some [("ipadm_create_addrobj", [AS (cs "IPADM_ADDR_STATIC"); AS ifname], 0);
        ("ipadm_set_addr", [AZ obj; AS (fits BUFSIZ (addr ++ "/"%char :: print_d (mask2plen mask))); AS (cs "AF_INET")], 0);
        ("ipadm_create_addr", [AZ (net_iph N); AZ obj; AS (cs "IPADM_OPT_ACTIVE|IPADM_OPT_UP")], 0);
        ("socket", [AS (cs "AF_INET6"); AS (cs "SOCK_DGRAM"); AZ 0], net_sock N);
        ("ioctl", [AZ (net_sock N); AS (cs "SIOCGLIFFLAGS"); AS name], 0);
        ("ioctl", [AZ (net_sock N); AS (cs "SIOCSLIFFLAGS"); AS name; AZ (Z.lor (net_flags N name) IFF_UP)], 0);
        ("close", [AZ (net_sock N)], 0);
        ("ipadm_destroy_addrobj", [AZ obj], 0)]%string
  end.

(** Adding a route; an address or a prefix that is not valid makes it a lookup of the process. *)
Definition route_message (ifname : option cstr) (dst gw mask : Z) (isLinkLocal : bool) : rt_message :=
  RtMessage (cs "RTA_DST|RTA_GATEWAY|RTA_NETMASK") (if isLinkLocal then [] else cs "RTF_UP|RTF_STATIC|RTF_GATEWAY") (net_pid N)
    (cs "RTM_ADD") (match ifname with Some i => net_index N i | None => 0 end) (cs "AF_INET") dst [] gw mask.

Definition route_calls (ifname : option cstr) (gw dst : cstr) (pfx : Z) (isLinkLocal : bool) : list call :=
  ("getpid"%string, [], net_pid N) ::
  match inet_pton dst, inet_pton gw, plen2mask pfx with
  | Some d, Some g, Some mask =>
      match ifname with Some i => [("if_nametoindex"%string, [AS i], net_index N i)] | None => [] end ++
      [("socket", [AS (cs "PF_ROUTE"); AS (cs "SOCK_RAW"); AS (cs "AF_INET")], net_sock N);
       ("write", AZ (net_sock N) :: rt_args (route_message ifname d g mask isLinkLocal), RTMBUFSZ);
       ("close", [AZ (net_sock N)], 0)]%string
  | _, _, _ => []
  end.

(** A NIC: an interface, and an address for it when both parts of it are given. *)
Definition nic_calls (nic : nvpairs) : option (list call) :=
  match nv_string (cs "interface") nic with
  | None => Some []
  | Some iface =>
      match nv_string (cs "ip") nic, nv_string (cs "netmask") nic with
      | Some ip, Some netmask => (fun c => plumb_calls iface ++ c) <$> raise_calls iface ip netmask
      | _, _ => Some (plumb_calls iface)
      end
  end.

(** The default route, through the gateway of the primary NIC. *)
Definition gateway_calls (nic : nvpairs) : list call :=
  match nv_string (cs "interface") nic, nv_string (cs "ip") nic, nv_bool (cs "primary") nic, nv_string (cs "gateway") nic with
  | Some iface, Some _, Some true, Some gateway => route_calls (Some iface) gateway (cs "0.0.0.0") 0 false
  | _, _, _, _ => []
  end.

(** The destination of a route, when it is valid. *)
Definition destination (dst : cstr) : option (cstr * Z) :=
  match split_first SLASH dst with
  | None => None
  | Some (addr, pfx) =>
      match atoi pfx with Some n => if (n <? 0) || (32 <? n) then None else Some (addr, n) | None => None end
  end.

Definition linklocal (route : nvpairs) : bool := bool_decide (nv_bool (cs "linklocal") route = Some true).

(** A route in one of the two passes. *)
Definition static_calls (linkLocalOnly : bool) (route : nvpairs) : list call :=
  if linklocal route && negb linkLocalOnly then []
  else match nv_string (cs "dst") route, nv_string (cs "gateway") route with
       | Some dst, Some gateway =>
           match destination dst with Some (addr, pfx) => route_calls None gateway addr pfx (linklocal route) | None => [] end
       | _, _ => []
       end.

(** All of it: the interfaces, one pass over the routes, the gateways, the second pass.  The first
    pass adds the routes that are not link-local as well, so these are added twice. *)
Definition network_calls (nics routes : list nvpairs) : list call :=
  ("ipadm_open"%string, [AS (cs "IPH_LEGACY")], 0) :: plumb_calls (cs "lo0") ++
  default [] (raise_calls (cs "lo0") (cs "127.0.0.1") (cs "255.0.0.0")) ++
  concat ((fun nic => default [] (nic_calls nic)) <$> nics) ++ concat (static_calls true <$> routes) ++ concat (gateway_calls <$> nics) ++
  concat (static_calls false <$> routes) ++ [("ipadm_close"%string, [AZ (net_iph N)], 0)].
End calls.

(** A route the code can read: [atoi] is defined and the text fits in memory. *)
Definition route_ok (route : nvpairs) : Prop :=
  forall dst, nv_string (cs "dst") route = Some dst -> Zlen dst < HEAP_HI /\
    forall addr pfx, split_first SLASH dst = Some (addr, pfx) -> is_Some (atoi pfx).

(** A kernel on which every call succeeds, with the answers of the network [N]; the pairs of a
    list stay readable, and neither the agent nor libnvpair makes calls that count. *)
Class NetEnv (E : Type) `{Steady E} (N : network) := {
  net_iph_nonzero : net_iph N <> 0;
  net_sock_valid : 0 <= net_sock N;
  net_index_nonzero i : net_index N i <> 0;
  net_heard name : heard name = true;
  net_open args e r e' : sys_step "ipadm_open" args e = (r, e') -> sr_ret r = 0 /\ head (sr_vals r) = Some (net_iph N);
  net_create_if a name b c e r e' : sys_step "ipadm_create_if" [a; AS name; b; c] e = (r, e') -> sr_ret r = 0 /\ sr_data r = name;
  net_create_addrobj a ifname e r e' : sys_step "ipadm_create_addrobj" [a; AS ifname] e = (r, e') ->
    sr_ret r = 0 /\ head (sr_vals r) = Some (net_obj N ifname);
  net_succeed name args e r e' :
    name ∈ ["ipadm_set_addr"; "ipadm_create_addr"; "ipadm_destroy_addrobj"; "ipadm_close"; "close"]%string ->
    sys_step name args e = (r, e') -> sr_ret r = 0;
  net_socket args e r e' : sys_step "socket" args e = (r, e') -> sr_ret r = net_sock N;
  net_get_flags fd name e r e' : sys_step "ioctl" [AZ fd; AS (cs "SIOCGLIFFLAGS"); AS name] e = (r, e') ->
    sr_ret r = 0 /\ head (sr_vals r) = Some (net_flags N name);
  net_set_flags fd name n e r e' : sys_step "ioctl" [AZ fd; AS (cs "SIOCSLIFFLAGS"); AS name; AZ n] e = (r, e') -> sr_ret r = 0;
  net_nametoindex i e r e' : sys_step "if_nametoindex" [AS i] e = (r, e') -> sr_ret r = net_index N i;
  net_getpid e r e' : sys_step "getpid" [] e = (r, e') -> sr_ret r = net_pid N;
  net_write args e r e' : sys_step "write" args e = (r, e') -> sr_ret r = RTMBUFSZ
}.

Lemma lists_cons (F : nvpairs -> list call) j js :
  concat (F <$> lists_of (j :: js)) = match nv_list_of (nv_of j) with Some l => F l | None => [] end ++ concat (F <$> lists_of js).
Proof. unfold lists_of. cbn. by destruct (nv_list_of (nv_of j)). Qed.

Section network.
Context {E : Type} `{K : Kernel E} `{!Traced E} `{NL : Nvlist E} `{!NvlistLaws E} `{!NvRead E} `{!NvReadLaws E} `{!Steady E} `{MD : Metadata E}
  `{IN : Inet} `{AC : Accounts} `{DM : DataModel} (N : network) (table : cstr -> option cstr) `{!Asked E table} `{!NetEnv E N} (strerror : Z -> cstr).
Implicit Types w : world E.

Lemma plumbIf_makes ifname w : good w -> makes (plumbIf (net_iph N) ifname) (plumb_calls N ifname) (fun _ => True) w.
Proof.
  intros Hg. unfold plumbIf, plumb_calls. quiet. cbv zeta.
  apply (makes_bind _ _ [_] [_] (fun r => sr_ret r = 0 /\ sr_data r = fits LIFNAMSIZ ifname) _ _).
  - apply makes_syscall; [done|apply net_heard|]. intros. by eapply net_create_if.
  - intros r w1 [Hr Hd] Hw1. rewrite Hr, Hd. cbn [Z.eqb negb]. eapply (makes_quiet _ _ _ (fun _ => True)); [apply makes_ret; [by eapply did_good|done]|].
    intros _ w2 _ Hw2. eapply (makes_bind _ _ [_] []); [apply makes_sys; [by eapply did_good|apply net_heard|]|].
    + intros. by eapply net_create_if.
    + intros r' w3 -> Hw3. apply makes_ret; [by eapply did_good|done].
Qed.

Lemma upIPv6_makes ifname w : good w ->
  makes (upIPv6Addr strerror ifname)
    [("socket", [AS (cs "AF_INET6"); AS (cs "SOCK_DGRAM"); AZ 0], net_sock N);
     ("ioctl", [AZ (net_sock N); AS (cs "SIOCGLIFFLAGS"); AS (fits LIFNAMSIZ ifname)], 0);
     ("ioctl", [AZ (net_sock N); AS (cs "SIOCSLIFFLAGS"); AS (fits LIFNAMSIZ ifname); AZ (Z.lor (net_flags N (fits LIFNAMSIZ ifname)) IFF_UP)], 0);
     ("close", [AZ (net_sock N)], 0)]%string (fun _ => True) w.
Proof.
  intros Hg. unfold upIPv6Addr. cbv zeta. set (name := fits LIFNAMSIZ ifname). pose proof net_sock_valid.
  eapply (makes_bind _ _ [_] [_; _; _]); [apply makes_sys; [done|apply net_heard|]; intros; by eapply net_socket|].
  intros s w1 -> Hw1. apply did_good in Hw1. quiet. destruct (Z.eqb_spec (net_sock N) (-1)); [lia|].
  eapply (makes_quiet _ _ _ (fun _ => True)); [by apply makes_ret|]. intros _ w2 _ Hw2. apply did_good in Hw2.
  eapply (makes_bind _ _ [_] [_; _] (fun r => sr_ret r = 0 /\ head (sr_vals r) = Some (net_flags N name)));
    [apply makes_syscall; [done|apply net_heard|]; intros; by eapply net_get_flags|].
  intros r w3 [Hr Hv] Hw3. apply did_good in Hw3. quiet. rewrite Hr. cbn [Z.ltb Z.compare].
  eapply (makes_quiet _ _ _ (fun _ => True)); [by apply makes_ret|]. intros _ w4 _ Hw4. apply did_good in Hw4.
  eapply makes_quiet; [by apply makes_access|]. intros fl w5 -> Hw5. apply did_good in Hw5.
  eapply (makes_bind _ _ [_] [_]); [apply makes_sys; [done|apply net_heard|]; intros; by eapply net_set_flags|].
  intros r' w6 -> Hw6. apply did_good in Hw6. quiet. cbn [Z.ltb Z.compare].
  eapply (makes_quiet _ _ _ (fun _ => True)); [by apply makes_ret|]. intros _ w7 _ Hw7. apply did_good in Hw7.
  eapply (makes_bind _ _ [_] []); [apply makes_sys; [done|apply net_heard|]; intros; eapply (net_succeed "close"); [by_decide|done]|].
  intros r'' w8 _ Hw8. apply makes_ret; [by eapply did_good|done].
Qed.

Lemma succeed_makes name args w : good w ->
  name ∈ ["ipadm_set_addr"; "ipadm_create_addr"; "ipadm_destroy_addrobj"; "ipadm_close"; "close"]%string ->
  makes (sys name args) [(name, args, 0)] (fun r => r = 0) w.
Proof. intros Hg Hname. apply makes_sys; [done|apply net_heard|]. intros. by eapply net_succeed. Qed.

Lemma raiseIf_makes ifname addr netmask w : good w ->
  makes (raiseIf strerror (net_iph N) ifname addr netmask) (default [] (raise_calls N ifname addr netmask))
    (fun r => r = 0 <-> is_Some (raise_calls N ifname addr netmask)) w.
Proof.
  intros Hg. unfold raiseIf, raise_calls. quiet. destruct (inet_pton netmask) as [mask|]; cbn [default].
  2:{ quiet. quiet. apply makes_ret; [done|]. split; [done|by intros [? ?]]. }
  cbv zeta. set (cidr := fits BUFSIZ _). set (obj := net_obj N ifname).
  eapply (makes_bind _ _ [_] [_; _; _; _; _; _; _] (fun r => sr_ret r = 0 /\ head (sr_vals r) = Some obj));
    [apply makes_syscall; [done|apply net_heard|]; intros; by eapply net_create_addrobj|].
  intros r w1 [Hr Hv] Hw1. apply did_good in Hw1. rewrite Hr. cbn [Z.eqb negb].
  eapply makes_quiet; [by apply makes_access|]. intros o w2 -> Hw2. apply did_good in Hw2.
  eapply (makes_bind _ _ [_] [_; _; _; _; _; _]); [apply succeed_makes; [done|by_decide]|].
  intros r1 w3 -> Hw3. apply did_good in Hw3. cbn [Z.eqb negb].
  eapply (makes_bind _ _ [_] [_; _; _; _; _]); [apply succeed_makes; [done|by_decide]|].
  intros r2 w4 -> Hw4. apply did_good in Hw4. cbn [Z.eqb negb].
  eapply (makes_bind _ _ [_; _; _; _] [_]); [by apply upIPv6_makes|]. intros _ w5 _ Hw5. apply did_good in Hw5.
  eapply (makes_bind _ _ [_] []); [apply succeed_makes; [done|by_decide]|]. intros r3 w6 _ Hw6.
  apply makes_ret; [by eapply did_good|]. split; [by eexists|done].
Qed.

(** The call that looks up the interface, if there is one. *)
Lemma nametoindex_makes ifname w : good w ->
  makes (match ifname with None => mret 0 | Some i => sys "if_nametoindex" [AS i] end)
    (match ifname with Some i => [("if_nametoindex"%string, [AS i], net_index N i)] | None => [] end)
    (fun idx => idx = match ifname with Some i => net_index N i | None => 0 end) w.
Proof. intros Hg. destruct ifname; [apply makes_sys; [done|apply net_heard|]; intros; by eapply net_nametoindex|by apply makes_ret]. Qed.

Lemma addRoute_makes ifname gw dst pfx ll w : good w ->
  makes (addRoute strerror ifname gw dst pfx ll) (route_calls N ifname gw dst pfx ll) (fun _ => True) w.
Proof.
  intros Hg. unfold addRoute, route_calls, prefixToNetmask. quiet. cbv zeta.
  eapply (makes_bind _ _ [_] _ (fun r => r = net_pid N)); [apply makes_sys; [done|apply net_heard|]; intros; by eapply net_getpid|].
  intros pid w1 -> Hw1. apply did_good in Hw1. pose proof net_sock_valid.
  destruct (inet_pton dst) as [d|]; [|quiet; quiet; by apply makes_ret].
  destruct (inet_pton gw) as [g|]; [|quiet; quiet; by apply makes_ret].
  destruct (plen2mask pfx) as [mask|]; [|quiet; by apply makes_ret].
  eapply makes_bind; [by apply nametoindex_makes|]. intros idx w2 -> Hw2. apply did_good in Hw2. quiet.
  replace (bool_decide (is_Some ifname) && _) with false.
  2:{ destruct ifname as [i|]; [|done]. pose proof (net_index_nonzero i). symmetry. apply andb_false_iff. right. by apply Z.eqb_neq. }
  eapply (makes_bind _ _ [_] [_; _]); [apply makes_sys; [done|apply net_heard|]; intros; by eapply net_socket|].
  intros s w3 -> Hw3. apply did_good in Hw3. quiet. zcase.
  eapply (makes_bind _ _ [_] [_]); [apply makes_sys; [done|apply net_heard|]; intros; by eapply net_write|].
  intros len w4 -> Hw4. apply did_good in Hw4. quiet. cbn [Z.ltb Z.compare].
  eapply (makes_bind _ _ [_] []); [apply succeed_makes; [done|by_decide]|]. intros r w5 _ Hw5.
  apply makes_ret; [by eapply did_good|done].
Qed.

(** Following the lookup of a string. *)
Lemma with_string_makes h l name k c w :
  good w -> nv_reads h l (w_env w) ->
  (forall s w', nv_string name l = Some s -> good w' -> nv_reads h l (w_env w') -> makes (k s) c (fun _ => True) w') ->
  (nv_string name l = None -> c = []) -> makes (with_string h name k) c (fun _ => True) w.
Proof.
  intros Hg Hr Hk Hnone. unfold with_string.
  eapply (makes_quiet _ _ _ (fun r => match nv_find name l with Some (NvString s) => r = (0, Some s) | _ => r.1 <> 0 end)).
  { apply makes_env. by apply nv_read_string. }
  intros [ret s] w1 Hf Hw1. pose proof (did_reads _ _ _ _ _ Hw1 Hr) as Hr1. apply did_good in Hw1.
  unfold nv_string in Hk, Hnone.
  destruct (nv_find name l) as [[]|]; try (cbn in Hf; destruct (Z.eqb_spec ret 0); [done|]; rewrite Hnone by done; by apply makes_ret).
  injection Hf as -> ->. cbn [Z.eqb]. eapply makes_quiet; [by apply makes_access|]. intros a w2 -> Hw2.
  apply Hk; [done|by eapply did_good|by eapply did_reads].
Qed.

Lemma setupInterface_makes h l c w : nic_calls N l = Some c -> good w -> nv_reads h l (w_env w) ->
  makes (setupInterface strerror (net_iph N) h) c (fun _ => True) w.
Proof.
  unfold nic_calls. intros Hc Hg Hr. unfold setupInterface. eapply with_string_makes; [done|done| |intros Hn; rewrite Hn in Hc; congruence].
  intros iface w1 Hi Hg1 Hr1. rewrite Hi in Hc.
  assert (exists c', c = plumb_calls N iface ++ c' /\
    match nv_string (cs "ip") l, nv_string (cs "netmask") l with
    | Some ip, Some netmask => raise_calls N iface ip netmask = Some c' | _, _ => c' = [] end) as (c' & -> & Hc').
  { destruct (nv_string (cs "ip") l) as [ip|], (nv_string (cs "netmask") l) as [netmask|];
      try (injection Hc as <-; exists []; by rewrite app_nil_r).
    destruct (raise_calls _ _ _ _) as [c'|]; [|done]. injection Hc as <-. by exists c'. }
  eapply makes_bind; [by apply plumbIf_makes|]. intros _ w2 _ Hw2. pose proof (did_reads _ _ _ _ _ Hw2 Hr1) as Hr2. apply did_good in Hw2.
  eapply with_string_makes; [done|done| |intros Hn; by rewrite Hn in Hc'].
  intros ip w3 Hip Hg3 Hr3. rewrite Hip in Hc'. eapply with_string_makes; [done|done| |intros Hn; by rewrite Hn in Hc'].
  intros netmask w4 Hm Hg4 Hr4. rewrite Hm in Hc'. rewrite <-(app_nil_r c').
  eapply makes_bind; [eapply (makes_mono _ _ _ _ (fun r => r = 0)); [by apply raiseIf_makes|by rewrite Hc'|intros r Hret; apply Hret; by rewrite Hc']|].
  intros r w5 -> Hw5. apply makes_ret; [by eapply did_good|done].
Qed.

Lemma setupGateway_makes h l w : good w -> nv_reads h l (w_env w) ->
  makes (setupGateway strerror h) (gateway_calls N l) (fun _ => True) w.
Proof.
  intros Hg Hr. unfold setupGateway, gateway_calls. eapply with_string_makes; [done|done| |by intros ->].
  intros iface w1 -> Hg1 Hr1. eapply with_string_makes; [done|done| |by intros ->]. intros ip w2 -> Hg2 Hr2.
  eapply (makes_quiet _ _ _ (fun r => match nv_find (cs "primary") l with Some (NvBooleanValue b) => r = (0, Some b) | _ => r.1 <> 0 end)).
  { apply makes_env. by apply nv_read_boolean. }
  intros [ret b] w3 Hf Hw3. pose proof (did_reads _ _ _ _ _ Hw3 Hr2) as Hr3. apply did_good in Hw3. unfold nv_bool.
  destruct (nv_find (cs "primary") l) as [[]|]; try (cbn in Hf; destruct (Z.eqb_spec ret 0); [done|]; by apply makes_ret).
  injection Hf as -> ->. cbn [Z.eqb]. eapply makes_quiet; [by apply makes_access|]. intros a w4 -> Hw4.
  pose proof (did_reads _ _ _ _ _ Hw4 Hr3) as Hr4. apply did_good in Hw4. destruct b0; [|by apply makes_ret].
  eapply with_string_makes; [done|done| |by intros ->]. intros gateway w5 -> Hg5 Hr5. rewrite <-(app_nil_r (route_calls _ _ _ _ _ _)).
  eapply makes_bind; [by apply addRoute_makes|]. intros r w6 _ Hw6. apply makes_ret; [by eapply did_good|done].
Qed.

(** A lookup of a string, as its caller goes on. *)
Lemma lookup_linklocal_makes {B} h l (k : bool -> C E B) c (Q : B -> Prop) w : good w -> nv_reads h l (w_env w) ->
  (forall w', good w' -> nv_reads h l (w_env w') -> makes (k (linklocal l)) c Q w') ->
  makes ('(r, linklocal) ← nvlist_lookup_boolean_value h (cs "linklocal");
         linklocal ← (if r =? 0 then c_access linklocal else mret false); k linklocal) c Q w.
Proof.
  intros Hg Hr Hk. eapply (makes_quiet _ _ _ (fun r => match nv_find (cs "linklocal") l with Some (NvBooleanValue b) => r = (0, Some b) | _ => r.1 <> 0 end)).
  { apply makes_env. by apply nv_read_boolean. }
  intros [r b] w1 Hf Hw1. pose proof (did_reads _ _ _ _ _ Hw1 Hr) as Hr1. apply did_good in Hw1.
  eapply (makes_quiet _ _ _ (fun b => b = linklocal l)).
  - unfold linklocal, nv_bool.
    destruct (nv_find (cs "linklocal") l) as [[]|]; try (cbn in Hf; destruct (Z.eqb_spec r 0); [done|]; by apply makes_ret).
    injection Hf as -> ->. cbn [Z.eqb]. eapply makes_mono; [by apply makes_access|done|]. intros a ->. by destruct b0.
  - intros b' w2 -> Hw2. apply Hk; [by eapply did_good|by eapply did_reads].
Qed.

Lemma destination_makes idx dst w : good w -> Zlen dst < HEAP_HI ->
  (forall addr pfx, split_first SLASH dst = Some (addr, pfx) -> is_Some (atoi pfx)) ->
  makes (route_destination idx dst) [] (fun d => d = destination dst) w.
Proof.
  intros Hg Hlen Hat. unfold route_destination, destination. eapply makes_quiet; [by apply makes_strdup|].
  intros d w1 -> Hw1. apply did_good in Hw1. destruct (split_first SLASH dst) as [[addr pfx]|] eqn:Hs; [|quiet; by apply makes_ret].
  destruct (Hat _ _ eq_refl) as [n Hn]. rewrite Hn. eapply makes_quiet; [by apply makes_access|].
  intros z w2 -> Hw2. apply did_good in Hw2. destruct ((n <? 0) || (32 <? n)); [quiet; by apply makes_ret|by apply makes_ret].
Qed.

Lemma setupStaticRoute_makes h l idx llo w : route_ok l -> good w -> nv_reads h l (w_env w) ->
  makes (setupStaticRoute strerror h idx llo) (static_calls N llo l) (fun _ => True) w.
Proof.
  intros Hok Hg Hr. unfold setupStaticRoute, static_calls. apply (lookup_linklocal_makes h l); [done|done|]. intros w1 Hg1 Hr1.
  destruct (linklocal l && negb llo); [by apply makes_ret|].
  apply (lookup_string_makes h l); [done|done|]. intros [r dst] w2 Hg2 Hr2 Hd _.
  destruct (nv_string (cs "dst") l) as [dst'|] eqn:Hdst.
  2:{ cbn in Hd. destruct (Z.eqb_spec r 0); [done|]. cbn [negb]. quiet. by apply makes_ret. }
  injection Hd as -> ->. cbn [Z.eqb negb]. destruct (Hok _ Hdst) as [Hlen Hat].
  eapply makes_quiet; [by apply makes_access|]. intros a w3 -> Hw3. pose proof (did_reads _ _ _ _ _ Hw3 Hr2) as Hr3. apply did_good in Hw3.
  apply (lookup_string_makes h l); [done|done|]. intros [r gw] w4 Hg4 Hr4 Hd _.
  destruct (nv_string (cs "gateway") l) as [gw'|].
  2:{ cbn in Hd. destruct (Z.eqb_spec r 0); [done|]. cbn [negb]. quiet. by apply makes_ret. }
  injection Hd as -> ->. cbn [Z.eqb negb]. eapply makes_quiet; [by apply makes_access|]. intros a w5 -> Hw5. apply did_good in Hw5.
  eapply makes_quiet; [by apply destination_makes|]. intros d w6 -> Hw6. apply did_good in Hw6.
  destruct (destination dst') as [[addr pfx]|]; [|by apply makes_ret]. rewrite <-(app_nil_r (route_calls _ _ _ _ _ _)).
  eapply makes_bind; [by apply addRoute_makes|]. intros ret w7 _ Hw7. apply did_good in Hw7.
  destruct (ret =? 0); cbn [negb]; [by apply makes_ret|quiet; by apply makes_ret].
Qed.

(** ** Documents *)

Lemma each_makes fuel what (f : nvlist_t -> C E ()) (F : nvpairs -> list call) h l (i : nat) w :
  NoDup l.*1 ->
  (forall h' l' w', l' ∈ nv_lists l -> good w' -> nv_reads h' l' (w_env w') -> makes (f h') (F l') (fun _ => True) w') ->
  good w -> nv_reads h l (w_env w) -> (i <= length l)%nat -> (length l - i < fuel)%nat ->
  makes (each_nvlist strerror fuel what f h (if decide (i < length l)%nat then Some (nv_pair h i) else None))
    (concat (F <$> nv_lists (drop i l))) (fun _ => True) w.
Proof.
  intros Hnd Hf. revert i w. induction fuel as [|fuel IH]; intros i w Hg Hr Hi Hfuel; [lia|]. cbn [each_nvlist]. case_decide as Hlt.
  2:{ rewrite drop_ge by lia. by apply makes_ret. }
  destruct (lookup_lt_is_Some_2 l i Hlt) as [[k v] Hv]. rewrite (drop_S l (k, v) i) by done. unfold nv_lists. cbn [omap list_omap]. fold (nv_lists (drop (S i) l)).
  eapply (makes_quiet _ _ _ (fun t => t = DATA_TYPE_NVLIST <-> is_Some (nv_list_of v))); [apply makes_env; by eapply nv_type|].
  intros ty w1 Hty Hw1. pose proof (did_reads _ _ _ _ _ Hw1 Hr) as Hr1. apply did_good in Hw1. clear Hg Hr.
  assert (makes (if ty =? DATA_TYPE_NVLIST then
       '(r, data) ← nvpair_value_nvlist (nv_pair h i);
       (if negb (r =? 0) then fatal_errno strerror ERR_PARSE_JSON (cs "failed to parse nvpair json for " ++ what) else mret tt) ;;
       data ← c_access data; f data
     else mret tt) (match nv_list_of v with Some l' => F l' | None => [] end) (fun _ => True) w1) as Helem.
  { destruct (nv_list_of v) as [l'|] eqn:Hl'.
    - rewrite (proj2 Hty) by done. rewrite Z.eqb_refl. destruct v as [| | | | | | | |l0]; try done. injection Hl' as ->.
      eapply (makes_quiet _ _ _ (fun r => r.1 = 0 /\ exists h', r.2 = Some h' /\ nv_reads h' l' (w_env w1))); [apply makes_env; by eapply nv_value|].
      intros [r data] w2 (Hret & h' & Hdata & Hrd) Hw2. cbn in Hret, Hdata. subst r data. cbn [Z.eqb negb].
      pose proof (did_reads _ _ _ _ _ Hw2 Hrd) as Hrd2. apply did_good in Hw2.
      eapply (makes_quiet _ _ _ (fun _ => True)); [by apply makes_ret|]. intros _ w3 _ Hw3.
      pose proof (did_reads _ _ _ _ _ Hw3 Hrd2) as Hrd3. apply did_good in Hw3.
      eapply makes_quiet; [by apply makes_access|]. intros d w4 -> Hw4. apply Hf; [|by eapply did_good|by eapply did_reads].
      apply list_elem_of_omap. exists (k, NvNvlist l'). split; [by eapply list_elem_of_lookup_2|done].
    - destruct (Z.eqb_spec ty DATA_TYPE_NVLIST) as [He|He]; [|by apply makes_ret]. apply Hty in He as [? ?]. congruence. }
  eapply makes_mono; [eapply makes_bind; [exact Helem|]| |done].
  - intros _ w2 _ Hw2. pose proof (did_reads _ _ _ _ _ Hw2 Hr1) as Hr2. apply did_good in Hw2.
    eapply (makes_quiet _ _ (concat (F <$> nv_lists (drop (S i) l)))); [apply makes_env; by eapply nv_next|].
    intros p w3 -> Hw3. apply IH; [by eapply did_good|by eapply did_reads|lia|lia].
  - cbn [snd]. destruct (nv_list_of v); [done|done].
Qed.

Lemma openIpadm_makes w : good w ->
  makes openIpadmHandle [("ipadm_open"%string, [AS (cs "IPH_LEGACY")], 0)] (fun h => h = net_iph N) w.
Proof.
  intros Hg. unfold openIpadmHandle. eapply (makes_bind _ _ [_] [] (fun r => sr_ret r = 0 /\ head (sr_vals r) = Some (net_iph N))).
  - apply makes_syscall; [done|apply net_heard|]. intros. by eapply net_open.
  - intros r w1 [Hr Hv] Hw1. rewrite Hr. apply makes_access; [by eapply did_good|done].
Qed.

Lemma closeIpadm_makes w : good w ->
  makes (closeIpadmHandle (net_iph N)) [("ipadm_close"%string, [AZ (net_iph N)], 0)] (fun _ => True) w.
Proof.
  intros Hg. unfold closeIpadmHandle. destruct (Z.eqb_spec (net_iph N) 0) as [He|_]; [by destruct (net_iph_nonzero He)|].
  cbn [negb]. apply (makes_bind _ _ [_] [] (fun _ => True)).
  - eapply makes_mono; [apply succeed_makes; [done|by_decide]|done|done].
  - intros _ w1 _ Hw1. apply makes_ret; [by eapply did_good|done].
Qed.

Lemma in_mdata_ends fuel key what missing f (F : nvpairs -> list call) js w :
  document_of table key js -> (length js + 2 < fuel)%nat ->
  (forall h l w', l ∈ lists_of js -> good w' -> nv_reads h l (w_env w') -> makes (f h) (F l) (fun _ => True) w') ->
  good w -> ends (each_in_mdata strerror fuel key what missing f (mret tt)) (concat (F <$> lists_of js)) w.
Proof.
  unfold document_of. intros Hdoc Hfuel Hf Hg. unfold each_in_mdata. apply wp_bind. eapply wp_mono; [by apply (asked key)|].
  intros json w1 (Hg1 & -> & Ht1). apply (ends_after _ _ _ w1); [done|]. destruct (table key) as [text|].
  2:{ subst js. by eapply makes_ends, makes_dlog. }
  destruct Hdoc as (-> & Hok & Hmax & Hjs). apply wp_bind. eapply wp_mono; [by apply (parse_text strerror (JArray js))|].
  intros [[r nvl] err] w2 (-> & Hg2 & Ht2 & h & -> & Ho). apply (ends_after _ _ _ w2); [done|]. clear Ht1 Ht2.
  apply nv_open_reads in Ho as Hr. cbn beta iota. change (negb (0 =? 0)) with false. cbv iota. apply wp_bind, wp_ret. apply wp_bind.
  eapply wp_mono; [by eapply nv_next_first|]. intros p w3 (Hg3 & He & ->). apply (ends_after _ _ _ w3); [by rewrite He|].
  rewrite <-He in Ho, Hr. clear He. set (l := pairs_of (JArray js)) in *.
  replace (if decide (l = []) then None else Some (nv_pair h 0)) with (if decide (0 < length l)%nat then Some (nv_pair h 0) else None).
  2:{ destruct l; [done|]. rewrite decide_True by (cbn; lia). by rewrite decide_False. }
  pose proof (elements_count (nv_of <$> js) 0 []) as Hcount. rewrite length_fmap in Hcount. change (length []) with 0%nat in Hcount.
  apply wp_bind. eapply wp_mono; [eapply (each_makes fuel what f F h l 0)|]; [apply elements_nodup; constructor| |done|done|lia|unfold l, pairs_of; lia|].
  - intros h' l' w' Hl'. apply Hf. by rewrite <-array_lists.
  - unfold l at 1. rewrite drop_0, array_lists by done. intros [] w4 [Hdid _]. apply wp_bind, wp_ret.
    eapply free_ends; [done|by eapply did_opens].
Qed.

Lemma setupInterfaces_ends fuel nics w :
  document_of table (cs "sdc:nics") nics -> Forall (fun l => is_Some (nic_calls N l)) (lists_of nics) -> (length nics + 2 < fuel)%nat ->
  good w -> ends (setupInterfaces strerror fuel (net_iph N)) (concat ((fun nic => default [] (nic_calls N nic)) <$> lists_of nics)) w.
Proof.
  intros Hdoc Hok Hfuel Hg. apply in_mdata_ends; [done|done| |done]. intros h l w' Hl Hg' Hr.
  rewrite list.Forall_forall in Hok. destruct (Hok l Hl) as [c Hc]. rewrite Hc. by eapply setupInterface_makes.
Qed.

Lemma setupGateways_ends fuel nics w :
  document_of table (cs "sdc:nics") nics -> (length nics + 2 < fuel)%nat ->
  good w -> ends (setupGateways strerror fuel) (concat (gateway_calls N <$> lists_of nics)) w.
Proof. intros Hdoc Hfuel Hg. apply in_mdata_ends; [done|done| |done]. intros h l w' _. apply setupGateway_makes. Qed.

(** *** The routes, by their indices *)

Lemma static_routes_makes llo h l js (i n : nat) w :
  Zlen js <= INT_MAX -> l = pairs_of (JArray js) -> Forall route_ok (lists_of js) -> (i + n = length js)%nat ->
  good w -> nv_reads h l (w_env w) ->
  makes (static_routes strerror n (Z.of_nat i) (Some h) llo) (concat (static_calls N llo <$> lists_of (drop i js))) (fun _ => True) w.
Proof.
  intros Hmax Hl Hok. revert i w. induction n as [|n IH]; intros i w Hn Hg Hr; cbn [static_routes].
  { rewrite drop_ge by lia. by apply makes_ret. }
  destruct (lookup_lt_is_Some_2 js i ltac:(lia)) as [j Hj]. rewrite (drop_S js j i) by done.
  rewrite lists_cons.
  cbv zeta. replace (u32 (Z.of_nat i + 1)) with (Z.of_nat (S i)) by (unfold Zlen, INT_MAX in *; rewrite u32_small; unfold UINT_MAX; lia).
  subst l. eapply lookup_element_makes; [done|lia|done|done|]. unfold element_list. rewrite Hj. cbn [mbind option_bind].
  intros [r route] w1 Hg1 Hr1 Hroute _. eapply (makes_bind _ _ _ _ (fun _ => True)).
  - destruct (nv_list_of (nv_of j)) as [l'|] eqn:Hl'; [|destruct (Z.eqb_spec r 0); [done|]; by apply makes_dlog].
    destruct Hroute as (h' & [= -> ->] & Hr'). cbn [Z.eqb negb]. eapply makes_quiet; [by apply makes_access|].
    intros a w2 -> Hw2. pose proof (did_reads _ _ _ _ _ Hw2 Hr') as Hr2. apply did_good in Hw2. rewrite <-(app_nil_r (static_calls _ _ _)).
    eapply makes_bind; [apply setupStaticRoute_makes; [|done|done]|intros z w3 _ Hw3; apply makes_ret; [by eapply did_good|done]].
    rewrite list.Forall_forall in Hok. apply Hok, list_elem_of_omap. exists (nv_of j). split; [|done].
    apply list_elem_of_fmap. exists j. split; [done|by eapply list_elem_of_lookup_2].
  - intros _ w2 _ Hw2. apply IH; [lia|by eapply did_good|by eapply did_reads].
Qed.

Lemma setupStaticRoutes_ends llo routes w :
  document_of table (cs "sdc:routes") routes -> Forall route_ok (lists_of routes) -> good w ->
  ends (setupStaticRoutes strerror llo) (concat (static_calls N llo <$> lists_of routes)) w.
Proof.
  intros Hdoc Hok Hg. unfold setupStaticRoutes, getMdataArray.
  assert (default (cs "[]") (table (cs "sdc:routes")) = print_json (JArray routes) /\
    json_ok (JArray routes) /\ Zlen (print_json (JArray routes)) <= JSON_MAX /\ Zlen routes <= INT_MAX) as (Hd & Hj & Hmax & Hlen).
  { unfold document_of in Hdoc. destruct (table _) as [text|]; [destruct Hdoc as (-> & ? & ? & ?); by split_and!|subst; by split_and!]. }
  apply wp_bind, wp_bind. eapply wp_mono; [by apply (asked (cs "sdc:routes"))|]. intros json w1 (Hg1 & -> & Ht1). rewrite Hd. apply wp_bind.
  eapply wp_mono; [by apply (parse_text strerror (JArray routes))|]. intros [[r nvl] err] w2 (-> & Hg2 & Ht2 & h & -> & Ho).
  apply nv_open_reads in Ho as Hr. change (negb (0 =? 0)) with false. cbn [negb lookup_uint32]. cbv iota. apply wp_bind.
  pose proof (nv_read_uint32 h _ (cs "length") w2 Hg2 Hr) as Hread.
  unfold pairs_of in Hread. rewrite elements_length in Hread by (unfold Zlen in *; rewrite ?length_fmap; lia).
  eapply wp_mono; [exact Hread|]. intros [r len] w3 (Hg3 & He & [= -> ->]). cbn [Z.eqb negb]. apply wp_bind, wp_ret, wp_ret. cbv iota beta.
  apply wp_bind. rewrite <-He in Ho, Hr. replace (Z.to_nat (0 + Zlen (nv_of <$> routes))) with (length routes) by (unfold Zlen; rewrite length_fmap; lia).
  eapply wp_mono; [by apply (static_routes_makes llo h (pairs_of (JArray routes)) routes 0)|]. intros [] w4 [Hdid _].
  rewrite drop_0 in Hdid. cbn [free_nvl]. eapply wp_mono; [eapply free_ends; [exact Hdid|by eapply did_opens]|].
  intros [] w5 [Hg5 Ht5]. split; [done|]. by rewrite Ht5, He, Ht2, Ht1.
Qed.

(** C7: setting up the network makes exactly these calls, in this order: it opens libipadm, plumbs
    and raises the loopback interface, plumbs every NIC of [sdc:nics] and raises those with an
    address and a netmask, goes over [sdc:routes], adds the default route through the gateway of
    the primary NICs, goes over [sdc:routes] again without the link-local routes, and closes the
    handle.  The first pass over the routes does not skip those that are not link-local, so each of
    these is added twice. *)
Theorem setupNetworking_calls fuel nics routes w :
  document_of table (cs "sdc:nics") nics -> document_of table (cs "sdc:routes") routes ->
  Forall (fun l => is_Some (nic_calls N l)) (lists_of nics) -> Forall route_ok (lists_of routes) ->
  (length nics + 2 < fuel)%nat -> good w ->
  wp (setupNetworking strerror fuel) (fun _ w' =>
    good w' /\ trace (w_env w') = trace (w_env w) ++ network_calls N (lists_of nics) (lists_of routes)) w.
Proof.
  intros Hnics Hroutes Hnok Hrok Hfuel Hg.
  change (ends (setupNetworking strerror fuel) (network_calls N (lists_of nics) (lists_of routes)) w).
  unfold setupNetworking, network_calls.
  apply (makes_then _ _ [_] _ (fun h => h = net_iph N)); [by apply openIpadm_makes|]. intros iph w1 -> Hg1.
  eapply makes_then; [by apply plumbIf_makes|]. intros _ w2 _ Hg2.
  eapply makes_then; [by apply raiseIf_makes|]. intros _ w3 _ Hg3.
  eapply ends_bind; [by apply setupInterfaces_ends|]. intros _ w4 Hg4.
  eapply ends_bind; [by apply setupStaticRoutes_ends|]. intros _ w5 Hg5.
  eapply ends_bind; [by apply setupGateways_ends|]. intros _ w6 Hg6.
  eapply ends_bind; [by apply setupStaticRoutes_ends|]. intros _ w7 Hg7.
  by eapply makes_ends, closeIpadm_makes.
Qed.
End network.

(** ** A kernel *)

Abbreviation net_env := (rec_env ()) (only parsing).

Definition net0 : network := Network 5 (fun i => Zlen i) (fun _ => 8) (fun i => 1 + Zlen i) 100 7.

(** What it answers. *)
Definition net_answer (name : string) (args : list sarg) : sysret :=
  if decide (name = "ipadm_open"%string) then SysRet 0 0 [] [net_iph net0]
  else if decide (name = "socket"%string) then SysRet (net_sock net0) 0 [] []
  else if decide (name = "getpid"%string) then SysRet (net_pid net0) 0 [] []
  else if decide (name = "write"%string) then SysRet RTMBUFSZ 0 [] []
  else match args with
       | [AS i] => if decide (name = "if_nametoindex"%string) then SysRet (net_index net0 i) 0 [] [] else SysRet 0 0 [] []
       | [_; AS i] => SysRet 0 0 [] [net_obj net0 i]
       | [AZ _; AS _; AS i] => SysRet 0 0 [] [net_flags net0 i]
       | [_; AS i; _; _] => SysRet 0 0 i []
       | _ => SysRet 0 0 [] []
       end.

#[export] Instance net_answers : Answers () := {| answer := fun name args _ v => (net_answer name args, v); hears := fun _ => true |}.

(** Addresses, as far as the example needs them. *)
#[export] Instance net_inet : Inet := {|
  inet_pton := fun s => if decide (s = []) then None else Some (Zlen s);
  mask2plen := fun z => z;
  plen2mask := Some;
  ipadm_status2str := fun _ => []
|}.

(** A case of a call that [net_answer] knows by its name or by its arguments. *)
Ltac net_call := intros; match goal with H : sys_step _ _ ?e = _ |- _ => destruct e as [? [? []]] end;
  match goal with H : sys_step _ _ _ = _ |- _ => cbv [sys_step rec_kernel answer net_answers net_answer hears] in H end; simplify_eq; done.

#[export] Instance net_succeeds : NetEnv net_env net0.
Proof.
  split; try net_call; try done.
  - intros i. cbn. pose proof (Zlen_nonneg i). lia.
  - intros a name b c. destruct a, b, c; net_call.
  - intros a ifname. destruct a; net_call.
  - intros name args [store [log []]] r e' Hname Hs. injection Hs as <- <-.
    repeat (apply elem_of_cons in Hname as [->|Hname]; [unfold net_answer; repeat case_match; done|]). by apply elem_of_nil in Hname.
Qed.

(** A container with two NICs and three routes, one of them link-local and one without a gateway. *)
Definition nic_1 : json := JObject [(cs "interface", JString (cs "net0")); (cs "ip", JString (cs "10.0.0.7"));
  (cs "netmask", JString (cs "255.0.0.0")); (cs "gateway", JString (cs "10.0.0.1")); (cs "primary", JBool true)].
Definition nic_2 : json := JObject [(cs "interface", JString (cs "net1"))].
Definition route_1 : json := JObject [(cs "linklocal", JBool true); (cs "dst", JString (cs "10.1.0.0/16")); (cs "gateway", JString (cs "10.0.0.9"))].
Definition route_2 : json := JObject [(cs "dst", JString (cs "10.2.0.0/16")); (cs "gateway", JString (cs "10.1.0.1"))].
Definition route_3 : json := JObject [(cs "dst", JString (cs "10.3.0.0/16"))].
Definition net_table (key : cstr) : option cstr :=
  if decide (key = cs "sdc:nics") then Some (print_json (JArray [nic_1; nic_2]))
  else if decide (key = cs "sdc:routes") then Some (print_json (JArray [route_1; route_2; route_3])) else None.
Definition net_world : world net_env := rec_start ().

Lemma net_routes_ok : Forall route_ok (lists_of [route_1; route_2; route_3]).
Proof.
  apply List.Forall_cons; [|apply List.Forall_cons; [|apply List.Forall_cons; [|constructor]]];
    intros dst Hd; vm_compute in Hd; injection Hd as <-; (split; [by vm_compute|]);
    intros addr pfx Hs; vm_compute in Hs; injection Hs as <- <-; by eexists.
Qed.

(** The link-local route is added once, the other one twice. *)
Example route_calls_count :
  let routes := lists_of [route_1; route_2; route_3] in
  length (concat (static_calls net0 true <$> routes)) = 8%nat /\ length (concat (static_calls net0 false <$> routes)) = 4%nat.
Proof. by vm_compute. Qed.

Lemma setupNetworking_calls_witness :
  wp (@setupNetworking net_env (table_metadata net_table net_env) outer_nvlist outer_read rec_kernel net_inet LP64 (fun _ => []) 5)
    (fun _ w' => good w' /\ trace (w_env w') = trace (w_env net_world) ++ network_calls net0 (lists_of [nic_1; nic_2]) (lists_of [route_1; route_2; route_3]))
    net_world.
Proof.
  apply (@setupNetworking_calls net_env rec_kernel rec_traced outer_nvlist outer_laws outer_read outer_read_laws rec_steady
    (table_metadata net_table net_env) net_inet LP64 net0 net_table (rec_asked net_table) net_succeeds (fun _ => []) 5
    [nic_1; nic_2] [route_1; route_2; route_3] net_world).
  - unfold document_of. split_and!; [by vm_compute|repeat split; by_decide|by vm_compute|by vm_compute].
  - unfold document_of. split_and!; [by vm_compute|repeat split; by_decide|by vm_compute|by vm_compute].
  - repeat constructor; by eexists.
  - apply net_routes_ok.
  - by_decide.
  - by split; constructor.
Defined.

