(* ===== verification/LxHook.v ===== *)
(** * LxHook: mounting volumes once the network is up, [lx_hook_postnet/main.c]

    The hook of lxinit that mounts the NFS volumes of [sdc:volumes].  The log of [docker-common.c]
    is the standard error ([log_stream]).  [volumes_end] says, from the pairs of the document and
    what the system answers, which calls the hook makes, with what error it dies, or, in a child,
    which program it becomes; [LxEnv] is a system with those answers.  A fork answers in both
    processes: the runs in which the [n]-th answers 0 are those of the [n]-th child. *)
From Stdlib Require Import Lia.
From S2P Require Import Prelude Cnum Strset Sys Mdata Nvlist NvRead Json JsonSpec JsonPrint JsonMachine Docker DockerEnv Tools Dockerinit Moves NvStore NvDoc Calls.

Definition NFS_MOUNT : cstr := cs "/usr/lib/fs/nfs/mount".
Definition SDC_VOLUMES_KEY : cstr := cs "sdc:volumes".
Definition MAX_MNTOPT_STR : Z := 1024.
Definition EINTR : Z := 4.
Definition MOUNT_OPTS : cstr := cs "vers=3,sec=sys,".

Section lx_hook.
Context {E : Type} `{Metadata E} `{NvRead E} `{Kernel E} `{DM : DataModel} (strerror : Z -> cstr).

Definition makePath (base : cstr) (outsz : Z) : C E cstr :=
  r ← syscall "zone_get_nroot" [];
  mret (str_fit outsz ((if sr_ret r =? 0 then [] else sr_data r) ++ base)).

(** The array [opts]: [strlcpy] and [strlcat] return the length they tried to make. *)
Definition mount_opts (mode : cstr) : C E cstr :=
  let opts := str_fit MAX_MNTOPT_STR MOUNT_OPTS in
  (if MAX_MNTOPT_STR <=? Zlen MOUNT_OPTS then fatal ERR_UNEXPECTED (cs "internal error: strlcpy() opts not long enough") else mret tt) ;;
  (if MAX_MNTOPT_STR <=? Zlen opts + Zlen mode then fatal ERR_UNEXPECTED (cs "internal error: strlcat() opts not long enough") else mret tt) ;;
  mret (str_fit MAX_MNTOPT_STR (opts ++ mode)).

(** The child that becomes [mount]; it returns when [execv] succeeded. *)
Definition mount_child (opts nfsvolume mountpoint : cstr) : C E () :=
  cmd ← makePath NFS_MOUNT MAXPATHLEN;
  r ← sys "execv" (AS cmd :: vector [cs "mount"; cs "-o"; opts; nfsvolume; mountpoint]);
  if r =? 0 then mret tt else fatal_errno strerror ERR_EXEC_FAILED (cs "execv(" ++ cmd ++ cs ") failed").

(** [while ((waitee = waitpid(pid, &status, 0)) != pid)]: the status. *)
Fixpoint wait_mount (fuel : nat) (pid : Z) : C E Z :=
  match fuel with
  | O => c_undefined
  | S fuel =>
      r ← syscall "waitpid" [AZ pid; AZ 0];
      if sr_ret r =? pid then c_access (head (sr_vals r))
      else
        e ← get_errno;
        if (sr_ret r =? -1) && negb (e =? EINTR)
        then fatal ERR_EXEC_FAILED (cs "failed to get exit status of " ++ print_d pid ++ cs ": " ++ strerror e)
        else wait_mount fuel pid
  end.

Definition mount_result (pid status : Z) : C E () :=
  let mount := cs "mount[" ++ print_d pid ++ cs "] " in
  if WIFEXITED status then
    if negb (WEXITSTATUS status =? 0)
    then fatal ERR_MOUNT_NFS_VOLUME (mount ++ cs "exited non-zero (" ++ print_d (WEXITSTATUS status) ++ cs ")") else mret tt
  else if WIFSIGNALED status then fatal ERR_EXEC_FAILED (mount ++ cs "died on signal: " ++ print_d (WTERMSIG status))
  else fatal ERR_EXEC_FAILED (mount ++ cs "failed in unknown way").

Definition doNfsMount (fuel : nat) (nfsvolume mountpoint mode : cstr) : C E () :=
  opts ← mount_opts mode;
  ret ← sys "mkdir" [AS mountpoint; AZ 493];
  e ← get_errno;
  (if (ret =? -1) && negb (e =? EEXIST)
   then fatal ERR_MKDIR (cs "failed to mkdir(" ++ mountpoint ++ cs "): (" ++ print_d e ++ cs ") " ++ strerror e) else mret tt) ;;
  pid ← sys "fork" [];
  check strerror (negb (pid =? -1)) ERR_FORK_FAILED (cs "fork() failed") ;;
  if pid =? 0 then mount_child opts nfsvolume mountpoint ;; c_exit 0
  else status ← wait_mount fuel pid; mount_result pid status.

Definition invalid_volumes : C E () := fatal ERR_INVALID_NFS_VOLUMES (cs "invalid nfsvolumes").

Definition mountNfsVolume (fuel : nat) (data : nvlist_t) : C E () :=
  '(ret, type) ← nvlist_lookup_string data (cs "type");
  if negb (ret =? 0) then invalid_volumes else
  type ← c_access type;
  (if negb (strcmp type (cs "tritonnfs") =? 0) then fatal ERR_UNKNOWN_VOLUME_TYPE (cs "invalid volume type " ++ type) else mret tt) ;;
  '(ret, nfsvolume) ← nvlist_lookup_string data (cs "nfsvolume");
  if negb (ret =? 0) then invalid_volumes else
  '(ret, mountpoint) ← nvlist_lookup_string data (cs "mountpoint");
  if negb (ret =? 0) then invalid_volumes else
  '(ret, mode) ← nvlist_lookup_string data (cs "mode");
  mode ← (if negb (ret =? 0) then mret (cs "rw") else c_access mode);
  nfsvolume ← c_access nfsvolume;
  mountpoint ← c_access mountpoint;
  doNfsMount fuel nfsvolume mountpoint mode.

(** One pair of the document: a volume, what the parser adds, or something unexpected. *)
Definition volume_pair (fuel : nat) (pair : nvpair_t) : C E () :=
  pair_name ← nvpair_name pair;
  pair_type ← nvpair_type pair;
  if pair_type =? DATA_TYPE_NVLIST then
    '(r, data) ← nvpair_value_nvlist pair;
    check strerror (r =? 0) ERR_PARSE_JSON (cs "failed to parse nvpair json for NFS volume") ;;
    data ← c_access data;
    mountNfsVolume fuel data
  else if negb (strcmp pair_name (cs ".__json_array") =? 0) && negb (strcmp pair_name (cs "length") =? 0) then
    fatal ERR_UNEXPECTED (cs "internal error: unexpected nvpair (name: " ++ pair_name ++ cs ", type: " ++ print_d pair_type ++ cs ")")
  else mret tt.

Fixpoint volume_pairs (turns fuel : nat) (nvl : nvlist_t) (pair : option nvpair_t) : C E () :=
  match turns with
  | O => c_undefined
  | S turns =>
      match pair with
      | None => mret tt
      | Some p => volume_pair fuel p ;; pair ← nvlist_next_nvpair nvl (Some p); volume_pairs turns fuel nvl pair
      end
  end.

Definition mountNfsVolumes (turns fuel : nat) : C E () :=
  json ← mdataGet SDC_VOLUMES_KEY;
  match json with
  | None => mret tt
  | Some json =>
      '(r, nvl, _) ← nvlist_parse_json strerror (json ++ [NUL]) (Zlen json) NVJSON_FORCE_INTEGER None;
      check strerror (r =? 0) ERR_PARSE_JSON (cs "failed to parse nvpair json for " ++ SDC_VOLUMES_KEY) ;;
      nvl ← c_access nvl;
      pair ← nvlist_next_nvpair nvl None;
      volume_pairs turns fuel nvl pair ;;
      nvlist_free nvl
  end.

Definition main (turns fuel : nat) : C E Z := mountNfsVolumes turns fuel ;; mret 0.
End lx_hook.

(** ** What the system answers *)

(** The failure of [mkdir] for a directory, the answer of the [n]-th fork and the status of that
    process, the native root, and the programs and arguments that can be executed. *)
Record lx_system := LxSystem {
  lx_mkdir : cstr -> option Z;
  lx_pid : nat -> Z;
  lx_status : nat -> Z;
  lx_root : cstr;
  lx_exec : list sarg -> bool
}.

(** The forks among the calls. *)
Definition forks (calls : list call) : nat := length (filter (fun c => c.1.1 = "fork"%string) calls).

Class LxEnv (E : Type) `{Traced E} (S : lx_system) := {
  lx_heard name : heard name = bool_decide (name <> "waitpid"%string);
  lx_mkdir_answer mnt mode e r e' : sys_step "mkdir" [AS mnt; mode] e = (r, e') ->
    match lx_mkdir S mnt with None => sr_ret r = 0 | Some er => sr_ret r = -1 /\ sr_errno r = er end;
  lx_fork_answer e r e' : sys_step "fork" [] e = (r, e') -> sr_ret r = lx_pid S (forks (trace e));
  lx_forked n : -1 <= lx_pid S n;
  lx_root_answer e r e' : sys_step "zone_get_nroot" [] e = (r, e') -> (if sr_ret r =? 0 then [] else sr_data r) = lx_root S;
  lx_exec_answer args e r e' : sys_step "execv" args e = (r, e') -> sr_ret r = if lx_exec S args then 0 else -1;
  (** How often [waitpid] may yet be interrupted. *)
  lx_patience : E -> nat;
  lx_wait_answer n e r e' : forks (trace e) = Datatypes.S n -> 0 < lx_pid S n -> sys_step "waitpid" [AZ (lx_pid S n); AZ 0] e = (r, e') ->
    (sr_ret r = -1 /\ sr_errno r = EINTR /\ (lx_patience e' < lx_patience e)%nat) \/
    (sr_ret r = lx_pid S n /\ head (sr_vals r) = Some (lx_status S n))
}.

(** ** What the hook does *)

(** It returns, having made the calls, it dies, or it executes a program: its path and its
    arguments. *)
Inductive lx_end := LxMounted (calls : list call) | LxFatal (code : dockerinit_err) | LxExec (args : list sarg).

Definition lx_after (calls : list call) (r : lx_end) : lx_end := match r with LxMounted c => LxMounted (calls ++ c) | _ => r end.

Section ends.
Context (S : lx_system).

(** The mount program of the native root, and what it is told to mount where and how. *)
Definition mount_args (nfsvolume mountpoint mode : cstr) : list sarg :=
  AS (str_fit MAXPATHLEN (lx_root S ++ NFS_MOUNT)) :: vector [cs "mount"; cs "-o"; MOUNT_OPTS ++ mode; nfsvolume; mountpoint].

(** Mounting as the [n]-th child. *)
Definition mount_end (n : nat) (nfsvolume mountpoint mode : cstr) : lx_end :=
  if MAX_MNTOPT_STR <=? Zlen MOUNT_OPTS + Zlen mode then LxFatal ERR_UNEXPECTED else
  let dir := match lx_mkdir S mountpoint with None => Some 0 | Some er => if er =? EEXIST then Some (-1) else None end in
  match dir with
  | None => LxFatal ERR_MKDIR
  | Some ret =>
      if lx_pid S n =? -1 then LxFatal ERR_FORK_FAILED
      else if lx_pid S n =? 0 then LxExec (mount_args nfsvolume mountpoint mode)
      else if WIFEXITED (lx_status S n) && (WEXITSTATUS (lx_status S n) =? 0) then LxMounted [("mkdir", [AS mountpoint; AZ 493], ret); ("fork", [], lx_pid S n)]%string
      else LxFatal (if WIFEXITED (lx_status S n) then ERR_MOUNT_NFS_VOLUME else ERR_EXEC_FAILED)
  end.

Definition volume_end (n : nat) (volume : nvpairs) : lx_end :=
  match nv_string (cs "type") volume with
  | None => LxFatal ERR_INVALID_NFS_VOLUMES
  | Some type =>
      if decide (type = cs "tritonnfs") then
        match nv_string (cs "nfsvolume") volume, nv_string (cs "mountpoint") volume with
        | Some nfsvolume, Some mountpoint => mount_end n nfsvolume mountpoint (default (cs "rw") (nv_string (cs "mode") volume))
        | _, _ => LxFatal ERR_INVALID_NFS_VOLUMES
        end
      else LxFatal ERR_UNKNOWN_VOLUME_TYPE
  end.

(** The volumes in order, up to the first that fails. *)
Fixpoint volumes_end (n : nat) (l : nvpairs) : lx_end :=
  match l with
  | [] => LxMounted []
  | (name, v) :: l =>
      match nv_list_of v with
      | Some volume =>
          match volume_end n volume with LxMounted calls => lx_after calls (volumes_end (Datatypes.S n) l) | LxFatal code => LxFatal code | LxExec args => LxExec args end
      | None => if decide (name = cs ".__json_array" \/ name = cs "length") then volumes_end n l else LxFatal ERR_UNEXPECTED
      end
  end.
End ends.

(** A computation ends this way: [ERR_UNEXPECTED] aborts, the other errors are exit statuses, and a
    program that cannot be executed is an error; one that can ends this one, with the status 0. *)
Definition finishes {E A} `{Traced E} (S : lx_system) (m : C E A) (r : lx_end) (w : world E) : Prop :=
  match m w, r with
  | Done (_, w'), LxMounted calls => trace (w_env w') = trace (w_env w) ++ calls
  | Aborted, LxFatal ERR_UNEXPECTED => True
  | Exited st, LxFatal code => code <> ERR_UNEXPECTED /\ st = err_code code
  | Exited st, LxExec args => st = if lx_exec S args then 0 else err_code ERR_EXEC_FAILED
  | _, _ => False
  end.

Lemma lx_after_nil r : lx_after [] r = r.
Proof. by destruct r. Qed.
Lemma forks_app c1 c2 : forks (c1 ++ c2) = (forks c1 + forks c2)%nat.
Proof. unfold forks. by rewrite list.filter_app, length_app. Qed.

Lemma forks_fork a r : forks [("fork"%string, a, r)] = 1%nat.
Proof. done. Qed.
Lemma forks_mkdir a r : forks [("mkdir"%string, a, r)] = 0%nat.
Proof. done. Qed.

Section hook.
Context {E : Type} `{K : Kernel E} `{!Traced E} `{NL : Nvlist E} `{!NvlistLaws E} `{!NvRead E} `{!NvReadLaws E} `{!Steady E} `{MD : Metadata E}
  `{DM : DataModel} (table : cstr -> option cstr) `{!Asked E table} (S : lx_system) `{!LxEnv E S} (strerror : Z -> cstr).
Implicit Types w : world E.

(** As [finishes], and what could be read still can. *)
Definition concludes {A} (m : C E A) (r : lx_end) w : Prop :=
  match m w, r with
  | Done (_, w'), LxMounted calls => did calls w w'
  | Aborted, LxFatal ERR_UNEXPECTED => True
  | Exited st, LxFatal code => code <> ERR_UNEXPECTED /\ st = err_code code
  | Exited st, LxExec args => st = if lx_exec S args then 0 else err_code ERR_EXEC_FAILED
  | _, _ => False
  end.

Lemma concludes_makes {A} (m : C E A) c P w : makes m c P w -> concludes m (LxMounted c) w.
Proof. unfold makes, wp, concludes. destruct (m w) as [[a w']| | |]; naive_solver. Qed.

Lemma concludes_bind {A B} (m : C E A) (k : A -> C E B) c (P : A -> Prop) r w :
  makes m c P w -> (forall a w', P a -> did c w w' -> concludes (k a) r w') -> concludes (m ≫= k) (lx_after c r) w.
Proof.
  unfold makes, wp, concludes, mbind, C_bind. destruct (m w) as [[a w1]| | |]; try done. intros [Hd HP] Hk. specialize (Hk a w1 HP Hd).
  destruct (k a w1) as [[b w2]| | |], r as [c'| |]; try done. by eapply did_app.
Qed.
Lemma concludes_quiet {A B} (m : C E A) (k : A -> C E B) (P : A -> Prop) r w :
  makes m [] P w -> (forall a w', P a -> did [] w w' -> concludes (k a) r w') -> concludes (m ≫= k) r w.
Proof. intros Hm Hk. rewrite <-(lx_after_nil r). by eapply concludes_bind. Qed.

Lemma concludes_ret {A B} (a : A) (k : A -> C E B) r w :
  good w -> (forall w', did [] w w' -> concludes (k a) r w') -> concludes (mret a ≫= k) r w.
Proof. intros Hg Hk. apply (concludes_quiet _ _ (fun b => b = a)); [by apply makes_ret|]. intros b w1 -> Hd. by apply Hk. Qed.

Lemma concludes_then {A B} (m : C E A) (k : A -> C E B) r1 r2 w :
  concludes m r1 w -> (forall c a w', r1 = LxMounted c -> did c w w' -> concludes (k a) (r2 c) w') ->
  concludes (m ≫= k) (match r1 with LxMounted c => lx_after c (r2 c) | LxFatal code => LxFatal code | LxExec args => LxExec args end) w.
Proof.
  unfold concludes, mbind, C_bind. intros Hm Hk. destruct (m w) as [[a w1]| | |], r1 as [c| |]; try done. specialize (Hk c a w1 eq_refl Hm).
  destruct (k a w1) as [[b w2]| | |], (r2 c) as [c'| |]; try done. by eapply did_app.
Qed.
Lemma concludes_dies {A B} (m : C E A) (k : A -> C E B) code w : concludes m (LxFatal code) w -> concludes (m ≫= k) (LxFatal code) w.
Proof. intros Hm. by apply (concludes_then m k (LxFatal code) (fun _ => LxFatal code)). Qed.

Lemma concludes_fatal {A} code msg w : concludes (fatal (A := A) code msg) (LxFatal code) w.
Proof. unfold concludes, fatal, mbind, C_bind, eprint. destruct (decide (code = ERR_UNEXPECTED)) as [->|Hne]; [done|by cbn]. Qed.

(** A call and the [errno] it leaves. *)
Lemma concludes_sys_errno {B} name args (k : Z -> Z -> C E B) ret er r w :
  good w -> heard name = true ->
  (forall e res e', sys_step name args e = (res, e') -> sr_ret res = ret /\ (ret = -1 -> sr_errno res = er)) ->
  (forall e w', did [(name, args, ret)] w w' -> (ret = -1 -> e = er) -> concludes (k ret e) r w') ->
  concludes (ret ← sys name args; e ← get_errno; k ret e) (lx_after [(name, args, ret)] r) w.
Proof.
  intros Hg Hh Hans Hk. destruct (sys_step name args (w_env w)) as [res e'] eqn:Hs. destruct (Hans _ _ _ Hs) as [Hret Her].
  pose proof (did_step name args res e' w Hg Hs) as Hd. rewrite Hh, Hret in Hd.
  specialize (Hk _ _ Hd (fun Hm : ret = -1 => eq_trans (f_equal (fun b : bool => if b then sr_errno res else w_errno w) (proj2 (Z.eqb_eq ret (-1)) Hm)) (Her Hm))).
  unfold concludes, sys, mbind, C_bind, syscall in *. rewrite Hs. cbn. rewrite Hret in *. unfold get_errno. cbn.
  destruct (k _ _ _) as [[b w2]| | |], r as [c'| |]; try done. exact (did_app _ _ _ _ _ Hd Hk).
Qed.

(** The status of a child, after any interruptions. *)
Lemma wait_makes fuel n w :
  good w -> forks (trace (w_env w)) = Datatypes.S n -> 0 < lx_pid S n -> (lx_patience (w_env w) < fuel)%nat ->
  makes (wait_mount strerror fuel (lx_pid S n)) [] (fun st => st = lx_status S n) w.
Proof.
  intros Hg Hn Hpid. revert w Hg Hn. induction fuel as [|fuel IH]; intros w Hg Hn Hf; [lia|]. cbn [wait_mount]. unfold makes.
  destruct (sys_step "waitpid" [AZ (lx_pid S n); AZ 0] (w_env w)) as [r e'] eqn:Hs.
  pose proof (did_step _ _ _ _ w Hg Hs) as Hd. rewrite lx_heard in Hd. change (bool_decide _) with false in Hd. cbv iota in Hd.
  apply wp_bind. eapply wp_syscall; [exact Hs|]. destruct (lx_wait_answer n _ _ _ Hn Hpid Hs) as [(Hr & He & Hp)|[Hr Hv]]; rewrite Hr in *.
  - destruct (Z.eqb_spec (-1) (lx_pid S n)) as [?|_]; [lia|]. change (-1 =? -1) with true in *. cbv iota in *.
    apply wp_bind, wp_get_errno. set (w1 := World _ _ _ e') in *. change (w_errno w1) with (sr_errno r). rewrite He.
    change (EINTR =? EINTR) with true. cbn [negb andb].
    assert (trace (w_env w1) = trace (w_env w)) as Ht by (destruct Hd as (_ & -> & _); by rewrite app_nil_r).
    eapply wp_mono; [apply (IH w1 (did_good _ _ _ Hd)); [by rewrite Ht|cbn [w_env w1]; lia]|].
    intros st w2 [Hd2 ->]. split; [exact (did_app [] [] _ _ _ Hd Hd2)|done].
  - rewrite Z.eqb_refl. eapply wp_access; [exact Hv|]. done.
Qed.

Context (fuel : nat) (patient : forall e : E, (lx_patience e < fuel)%nat).

(** The child's end: returned when it became [mount], so that the parent's verdict is the status. *)
Lemma result_concludes pid n w : good w ->
  concludes (mount_result pid (lx_status S n))
    (if WIFEXITED (lx_status S n) && (WEXITSTATUS (lx_status S n) =? 0) then LxMounted []
     else LxFatal (if WIFEXITED (lx_status S n) then ERR_MOUNT_NFS_VOLUME else ERR_EXEC_FAILED)) w.
Proof.
  intros Hg. unfold mount_result. destruct (WIFEXITED _); cbn [andb].
  - destruct (WEXITSTATUS _ =? 0); cbn [negb]; [by apply (concludes_makes _ _ (fun _ => True)), makes_ret|apply concludes_fatal].
  - destruct (WIFSIGNALED _); apply concludes_fatal.
Qed.

Lemma fork_concludes {B} (k : Z -> C E B) r n w : good w -> n = forks (trace (w_env w)) ->
  (forall w', did [("fork"%string, [], lx_pid S n)] w w' -> lx_pid S n <> -1 -> concludes (k (lx_pid S n)) r w') ->
  concludes (pid ← sys "fork" []; check strerror (negb (pid =? -1)) ERR_FORK_FAILED (cs "fork() failed") ;; k pid)
    (if lx_pid S n =? -1 then LxFatal ERR_FORK_FAILED else lx_after [("fork"%string, [], lx_pid S n)] r) w.
Proof.
  intros Hg -> Hk. set (n := forks _) in *. destruct (sys_step "fork" [] (w_env w)) as [res e'] eqn:Hs.
  pose proof (lx_fork_answer _ _ _ Hs) as Hr. fold n in Hr. pose proof (did_step _ _ _ _ w Hg Hs) as Hd. rewrite lx_heard, Hr in Hd.
  change (bool_decide _) with true in Hd. cbv iota in Hd. set (w1 := World _ _ _ e') in *.
  assert (makes (sys "fork" []) [("fork"%string, [], lx_pid S n)] (fun pid => pid = lx_pid S n) w) as Hm.
  { unfold makes, sys. apply wp_bind. eapply wp_syscall; [exact Hs|]. apply wp_ret. rewrite Hr. done. }
  destruct (Z.eqb_spec (lx_pid S n) (-1)) as [Hpid|Hpid].
  - apply (concludes_bind _ _ _ _ (LxFatal ERR_FORK_FAILED) _ Hm). intros pid w2 -> Hd2. rewrite Hpid. cbn [Z.eqb Pos.eqb negb].
    apply concludes_dies. unfold check, fatal_errno. eapply concludes_quiet; [apply makes_get_errno; by eapply did_good|].
    intros e w3 _ _. apply concludes_fatal.
  - eapply concludes_bind; [exact Hm|]. intros pid w2 -> Hd2. rewrite (proj2 (Z.eqb_neq _ _)) by done. cbn [negb check].
    apply concludes_ret; [by eapply did_good|]. intros w3 Hd3. apply Hk; [|done].
    rewrite <-(app_nil_r [_]). by eapply did_app.
Qed.

(** From the fork on, as the [n]-th child. *)
Definition child_end (n : nat) (nfsvolume mountpoint mode : cstr) : lx_end :=
  if lx_pid S n =? -1 then LxFatal ERR_FORK_FAILED
  else lx_after [("fork"%string, [], lx_pid S n)]
    (if lx_pid S n =? 0 then LxExec (mount_args S nfsvolume mountpoint mode)
     else if WIFEXITED (lx_status S n) && (WEXITSTATUS (lx_status S n) =? 0) then LxMounted []
     else LxFatal (if WIFEXITED (lx_status S n) then ERR_MOUNT_NFS_VOLUME else ERR_EXEC_FAILED)).

Lemma mount_end_child n nfsvolume mountpoint mode : Zlen MOUNT_OPTS + Zlen mode < MAX_MNTOPT_STR ->
  mount_end S n nfsvolume mountpoint mode = match lx_mkdir S mountpoint with
    | None => lx_after [("mkdir"%string, [AS mountpoint; AZ 493], 0)] (child_end n nfsvolume mountpoint mode)
    | Some er => if er =? EEXIST then lx_after [("mkdir"%string, [AS mountpoint; AZ 493], -1)] (child_end n nfsvolume mountpoint mode) else LxFatal ERR_MKDIR
    end.
Proof.
  intros Hm. unfold mount_end, child_end. rewrite (proj2 (Z.leb_gt _ _)) by done. destruct (lx_mkdir S mountpoint) as [er|];
    [destruct (er =? EEXIST); [|done]|]; cbn [lx_after]; destruct (_ =? -1); try done; destruct (_ =? 0); try done; by destruct (_ && _).
Qed.

(** The child becomes the mount program, or dies. *)
Lemma mount_child_concludes opts nfsvolume mountpoint mode w :
  opts = MOUNT_OPTS ++ mode ->
  concludes (mount_child strerror opts nfsvolume mountpoint ;; c_exit (A := ()) 0) (LxExec (mount_args S nfsvolume mountpoint mode)) w.
Proof.
  intros ->. unfold concludes, mount_child, makePath, sys, syscall, mbind, C_bind. cbn beta.
  destruct (sys_step "zone_get_nroot" [] (w_env w)) as [r e1] eqn:H1. rewrite (lx_root_answer _ _ _ H1). cbn.
  destruct (sys_step "execv" _ e1) as [r2 e2] eqn:H2.
  pose proof (lx_exec_answer (mount_args S nfsvolume mountpoint mode) e1 r2 e2 H2) as ->. by destruct (lx_exec S _).
Qed.

Lemma child_concludes opts nfsvolume mountpoint mode n w : good w -> n = forks (trace (w_env w)) -> opts = MOUNT_OPTS ++ mode ->
  concludes (pid ← sys "fork" [];
    check strerror (negb (pid =? -1)) ERR_FORK_FAILED (cs "fork() failed") ;;
    if pid =? 0 then mount_child strerror opts nfsvolume mountpoint ;; c_exit 0
    else status ← wait_mount strerror fuel pid; mount_result pid status) (child_end n nfsvolume mountpoint mode) w.
Proof.
  intros Hg Hn Hopts. apply (fork_concludes (fun pid => if pid =? 0 then _ else _)); [done|done|]. intros w1 Hd1 Hpid.
  destruct (Z.eqb_spec (lx_pid S n) 0) as [Hz|Hz]; [by apply mount_child_concludes|]. pose proof (lx_forked n).
  assert (forks (trace (w_env w1)) = Datatypes.S n) as Hn1 by (destruct Hd1 as (_ & -> & _); rewrite forks_app, forks_fork; lia).
  apply did_good in Hd1. eapply concludes_quiet; [apply wait_makes; done || lia|]. intros st w2 -> Hd2. apply result_concludes. by eapply did_good.
Qed.

Lemma mkdir_concludes {B} mountpoint (k : C E B) r w : good w ->
  (forall ret w', did [("mkdir"%string, [AS mountpoint; AZ 493], ret)] w w' -> concludes k r w') ->
  concludes (ret ← sys "mkdir" [AS mountpoint; AZ 493]; e ← get_errno;
      (if (ret =? -1) && negb (e =? EEXIST)
       then fatal ERR_MKDIR (cs "failed to mkdir(" ++ mountpoint ++ cs "): (" ++ print_d e ++ cs ") " ++ strerror e) else mret tt) ;; k)
    (match lx_mkdir S mountpoint with
     | None => lx_after [("mkdir"%string, [AS mountpoint; AZ 493], 0)] r
     | Some er => if er =? EEXIST then lx_after [("mkdir"%string, [AS mountpoint; AZ 493], -1)] r else LxFatal ERR_MKDIR
     end) w.
Proof.
  intros Hg Hk. pose proof (lx_mkdir_answer mountpoint (AZ 493)) as Ha. destruct (lx_mkdir S mountpoint) as [er|].
  - replace (if er =? EEXIST then _ else _) with
      (lx_after [("mkdir"%string, [AS mountpoint; AZ 493], -1)] (if er =? EEXIST then r else LxFatal ERR_MKDIR)) by by destruct (_ =? _).
    apply (concludes_sys_errno "mkdir" _ (fun ret e => _ ;; _) (-1) er); [done|by rewrite lx_heard| |].
    + intros e res e' Hs. by destruct (Ha _ _ _ Hs).
    + intros e w1 Hd ->; [|done]. cbn [Z.eqb Pos.eqb andb]. destruct (er =? EEXIST); cbn [negb]; [|apply concludes_dies, concludes_fatal].
      apply concludes_ret; [by eapply did_good|]. intros w2 Hd2. eapply Hk.
      rewrite <-(app_nil_r [_]). by eapply did_app.
  - apply (concludes_sys_errno "mkdir" _ (fun ret e => _ ;; _) 0 0); [done|by rewrite lx_heard| |].
    + intros e res e' Hs. by rewrite (Ha _ _ _ Hs).
    + intros e w1 Hd _. cbn [Z.eqb andb].
      apply concludes_ret; [by eapply did_good|]. intros w2 Hd2. eapply Hk.
      rewrite <-(app_nil_r [_]). by eapply did_app.
Qed.

Lemma doNfsMount_concludes nfsvolume mountpoint mode n w :
  good w -> n = forks (trace (w_env w)) ->
  concludes (doNfsMount strerror fuel nfsvolume mountpoint mode) (mount_end S n nfsvolume mountpoint mode) w.
Proof.
  intros Hg Hn. unfold doNfsMount, mount_opts. change (MAX_MNTOPT_STR <=? Zlen MOUNT_OPTS) with false.
  change (str_fit MAX_MNTOPT_STR MOUNT_OPTS) with MOUNT_OPTS. cbv zeta iota.
  destruct (Z.leb_spec MAX_MNTOPT_STR (Zlen MOUNT_OPTS + Zlen mode)).
  - unfold mount_end. rewrite (proj2 (Z.leb_le _ _)) by done. apply concludes_dies.
    apply concludes_ret; [done|]. intros w1 _. apply concludes_dies, concludes_fatal.
  - rewrite mount_end_child by done. apply (concludes_quiet _ _ (fun opts => opts = MOUNT_OPTS ++ mode)).
    { apply (makes_quiet _ _ _ (fun _ => True)); [by apply makes_ret|]; intros _ w1 _ Hd1; apply did_good in Hd1.
      apply (makes_quiet _ _ _ (fun _ => True)); [by apply makes_ret|]; intros _ w2 _ Hd2; apply did_good in Hd2.
      apply makes_ret; [done|]. unfold str_fit. apply take_ge. unfold Zlen in *. rewrite length_app. lia. }
    intros opts w1 Hopts Hd1. apply mkdir_concludes; [by eapply did_good|]. intros ret w2 Hd2. apply child_concludes; [by eapply did_good| |done].
    destruct Hd2 as (_ & -> & _), Hd1 as (_ & -> & _). rewrite !forks_app, forks_mkdir, Hn. change (forks []) with 0%nat. lia.
Qed.

(** The lookup of a string, and what follows when there is none. *)
Lemma string_concludes {B} h l name (k : Z * option cstr -> C E B) r w :
  good w -> nv_reads h l (w_env w) ->
  (forall a w', did [] w w' -> nv_reads h l (w_env w') ->
     match nv_string name l with Some s => a = (0, Some s) | None => a.1 <> 0 end -> concludes (k a) r w') ->
  concludes (nvlist_lookup_string h name ≫= k) r w.
Proof.
  intros Hg Hr Hk. eapply (concludes_quiet _ _ (fun a => match nv_string name l with Some s => a = (0, Some s) | None => a.1 <> 0 end)).
  - apply makes_env. eapply wp_mono; [by apply nv_read_string|]. unfold nv_string. intros a w' (? & ? & Hf).
    split_and!; [done..|]. by destruct (nv_find name l) as [[]|].
  - intros a w1 Hf Hd. apply Hk; [done|by eapply did_reads|done].
Qed.

Lemma access_concludes {A B} (a : A) (k : A -> C E B) r w :
  good w -> (forall w', did [] w w' -> concludes (k a) r w') -> concludes (c_access (Some a) ≫= k) r w.
Proof. intros Hg Hk. eapply concludes_quiet; [by apply makes_access|]. intros b w1 -> Hd. by apply Hk. Qed.

Lemma did_forks w w' : did [] w w' -> forks (trace (w_env w')) = forks (trace (w_env w)).
Proof. intros (_ & -> & _). by rewrite app_nil_r. Qed.

(** After a step that made no call. *)
Ltac moved Hd :=
  rewrite <-(did_forks _ _ Hd);
  repeat match goal with Hr : nv_reads ?h ?l (w_env ?w) |- _ => lazymatch type of Hd with did _ w _ => apply (did_reads _ _ _ _ _ Hd) in Hr end end;
  apply did_good in Hd.

Lemma mountNfsVolume_concludes h l n w :
  good w -> nv_reads h l (w_env w) -> n = forks (trace (w_env w)) ->
  concludes (mountNfsVolume strerror fuel h) (volume_end S n l) w.
Proof.
  intros Hg Hr ->. unfold mountNfsVolume, volume_end, invalid_volumes. eapply string_concludes; [done|done|].
  intros [ret type] w1 Hd1 Hr1 Hf. moved Hd1.
  destruct (nv_string (cs "type") l) as [t|]; [injection Hf as -> ->|rewrite (proj2 (Z.eqb_neq ret 0)) by done; apply concludes_fatal].
  cbn [Z.eqb negb]. apply access_concludes; [done|]. intros w2 Hd2. moved Hd2. destruct (Z.eqb_spec (strcmp t (cs "tritonnfs")) 0) as [Ht%strcmp_eq|Ht]; cbn [negb].
  2:{ rewrite decide_False by (intros ->; by apply Ht, strcmp_eq). apply concludes_dies, concludes_fatal. }
  rewrite decide_True by done. apply concludes_ret; [done|]. intros w3 Hd3. moved Hd3. eapply string_concludes; [done|done|].
  intros [r2 vol] w4 Hd4 Hr4 Hf2. moved Hd4.
  destruct (nv_string (cs "nfsvolume") l) as [v|]; [injection Hf2 as -> ->|rewrite (proj2 (Z.eqb_neq r2 0)) by done; apply concludes_fatal].
  cbn [Z.eqb negb]. eapply string_concludes; [done|done|].
  intros [r3 mnt] w5 Hd5 Hr5 Hf3. moved Hd5.
  destruct (nv_string (cs "mountpoint") l) as [m|]; [injection Hf3 as -> ->|rewrite (proj2 (Z.eqb_neq r3 0)) by done; apply concludes_fatal].
  cbn [Z.eqb negb]. eapply string_concludes; [done|done|].
  intros [r4 mode] w6 Hd6 Hr6 Hf4. moved Hd6.
  apply (concludes_quiet _ _ (fun a => a = default (cs "rw") (nv_string (cs "mode") l))).
  { destruct (nv_string (cs "mode") l) as [md|]; [injection Hf4 as -> ->; by apply makes_access|].
    rewrite (proj2 (Z.eqb_neq r4 0)) by done. by apply makes_ret. }
  intros a w7 -> Hd7. moved Hd7.
  apply access_concludes; [done|]. intros w8 Hd8. moved Hd8.
  apply access_concludes; [done|]. intros w9 Hd9. moved Hd9. by apply doNfsMount_concludes.
Qed.

(** What a pair leads to. *)
Definition pair_end (n : nat) (p : cstr * nvval) : lx_end :=
  match nv_list_of p.2 with
  | Some volume => volume_end S n volume
  | None => if decide (p.1 = cs ".__json_array" \/ p.1 = cs "length") then LxMounted [] else LxFatal ERR_UNEXPECTED
  end.

Lemma volume_pair_concludes h l i p w :
  NoDup l.*1 -> l !! i = Some p -> good w -> nv_reads h l (w_env w) ->
  concludes (volume_pair strerror fuel (nv_pair h i)) (pair_end (forks (trace (w_env w))) p) w.
Proof.
  destruct p as [name v]. intros Hnd Hi Hg Hr. unfold volume_pair, pair_end. cbn [fst snd].
  eapply concludes_quiet; [apply makes_env; by eapply nv_name|]. intros nm w1 -> Hd1. moved Hd1.
  eapply concludes_quiet; [apply makes_env; by eapply nv_type|]. cbn beta. intros ty w2 Hty Hd2. moved Hd2.
  destruct (nv_list_of v) as [vol|] eqn:Hv.
  - rewrite (proj2 Hty) by done. rewrite Z.eqb_refl. destruct v as [| | | | | | | |l0]; try done. injection Hv as ->.
    eapply concludes_quiet; [apply makes_env; by eapply nv_value|]. intros [r data] w3 (Hret & h' & Hdata & Hrd) Hd3. cbn in Hret, Hdata. subst r data.
    moved Hd3. cbn [Z.eqb check].
    apply concludes_ret; [done|]. intros w4 Hd4. moved Hd4.
    apply access_concludes; [done|]. intros w5 Hd5. moved Hd5. by apply mountNfsVolume_concludes.
  - destruct (Z.eqb_spec ty DATA_TYPE_NVLIST) as [He|He]; [by apply Hty in He as [? ?]|].
    destruct (Z.eqb_spec (strcmp name (cs ".__json_array")) 0) as [H1|H1]; rewrite strcmp_eq in H1; cbn [negb andb].
    { rewrite decide_True by auto. by apply (concludes_makes _ _ (fun _ => True)), makes_ret. }
    destruct (Z.eqb_spec (strcmp name (cs "length")) 0) as [H2|H2]; rewrite strcmp_eq in H2; cbn [negb andb].
    { rewrite decide_True by auto. by apply (concludes_makes _ _ (fun _ => True)), makes_ret. }
    rewrite decide_False by tauto. apply concludes_fatal.
Qed.

Lemma volume_end_forks n l c : volume_end S n l = LxMounted c -> forks c = 1%nat.
Proof. unfold volume_end, mount_end. repeat case_match; intros [= <-]; done. Qed.

Lemma volumes_end_cons n p l : volumes_end S n (p :: l) =
  match pair_end n p with LxMounted c => lx_after c (volumes_end S (n + forks c) l) | LxFatal code => LxFatal code | LxExec args => LxExec args end.
Proof.
  destruct p as [name v]. unfold pair_end. cbn [volumes_end fst snd]. destruct (nv_list_of v) as [vol|].
  - destruct (volume_end S n vol) as [c| |] eqn:Hv; [|done..]. by rewrite (volume_end_forks _ _ _ Hv), Nat.add_1_r.
  - case_decide; [|done]. rewrite lx_after_nil. change (forks []) with 0%nat. by rewrite Nat.add_0_r.
Qed.

Lemma volume_pairs_concludes h l turns i w :
  NoDup l.*1 -> (i <= length l)%nat -> (length l - i < turns)%nat -> good w -> nv_reads h l (w_env w) ->
  concludes (volume_pairs strerror turns fuel h (if decide (i < length l)%nat then Some (nv_pair h i) else None))
    (volumes_end S (forks (trace (w_env w))) (drop i l)) w.
Proof.
  intros Hnd. revert i w. induction turns as [|turns IH]; intros i w Hi Hturns Hg Hr; [lia|]. cbn [volume_pairs]. case_decide as Hlt.
  2:{ rewrite drop_ge by lia. by apply (concludes_makes _ _ (fun _ => True)), makes_ret. }
  destruct (lookup_lt_is_Some_2 l i Hlt) as [p Hp]. rewrite (drop_S l p i) by done. rewrite volumes_end_cons.
  apply (concludes_then _ _ (pair_end _ p) (fun c => volumes_end S (forks (trace (w_env w)) + forks c) (drop (Datatypes.S i) l))); [by eapply volume_pair_concludes|].  intros c _ w1 _ Hd1.
  replace (forks (trace (w_env w)) + forks c)%nat with (forks (trace (w_env w1))) by (destruct Hd1 as (_ & -> & _); apply forks_app).
  apply (did_reads _ _ _ _ _ Hd1) in Hr. apply did_good in Hd1.
  eapply concludes_quiet; [apply makes_env; by eapply nv_next|]. intros q w2 -> Hd2. moved Hd2. apply IH; [lia|lia|done|done].
Qed.

Lemma concludes_finishes {A} (m : C E A) r w : concludes m r w -> finishes S m r w.
Proof. unfold concludes, finishes. destruct (m w) as [[a w']| | |], r as [c| |]; try done. by intros (_ & -> & _). Qed.

Lemma finishes_after {A B} (m : C E A) (k : A -> C E B) r w :
  wp m (fun a w' => trace (w_env w') = trace (w_env w) /\ finishes S (k a) r w') w -> finishes S (m ≫= k) r w.
Proof.
  unfold wp, finishes, mbind, C_bind. destruct (m w) as [[a w1]| | |]; try done. intros [Ht Hk].
  destruct (k a w1) as [[b w2]| | |], r as [c| |]; try done. by rewrite Hk, Ht.
Qed.

Lemma finishes_then {A B} (m : C E A) (k : A -> C E B) r w :
  concludes m r w -> (forall c a w', r = LxMounted c -> did c w w' -> wp (k a) (fun _ w2 => trace (w_env w2) = trace (w_env w')) w') ->
  finishes S (m ≫= k) r w.
Proof.
  unfold concludes, finishes, mbind, C_bind, wp. destruct (m w) as [[a w1]| | |], r as [c| |]; try done. intros Hd Hk.
  specialize (Hk c a w1 eq_refl Hd). destruct (k a w1) as [[b w2]| | |]; try done. rewrite Hk. by destruct Hd as (_ & -> & _).
Qed.

(** C14: the hook mounts the volumes of [sdc:volumes] in order, each as [tritonnfs] on its
    directory, which it makes unless it exists, and waits for the mount whatever interrupts it; at
    the first volume that is not valid, cannot be prepared or whose mount does not exit with 0 it
    dies with the error of that failure, and the volumes after it are not mounted; a pair of the
    document that is neither a volume nor what the parser adds aborts.  The [n]-th child becomes the
    mount program of the native root, with the options and the mode of the [n]-th volume ([rw] when
    it names none), the volume and its directory, or dies with ERR_EXEC_FAILED. *)
Theorem mountNfsVolumes_mounts (doc : json) turns w :
  text_is (table SDC_VOLUMES_KEY) doc -> (length (pairs_of doc) < turns)%nat -> good w ->
  finishes S (mountNfsVolumes strerror turns fuel) (volumes_end S (forks (trace (w_env w))) (pairs_of doc)) w.
Proof.
  intros (Htext & Hdoc & Hok & Hmax) Hturns Hg. unfold mountNfsVolumes. apply finishes_after. eapply wp_mono; [by apply (asked SDC_VOLUMES_KEY)|].
  intros text w1 (Hg1 & -> & Ht1). rewrite Htext. split; [done|]. rewrite <-Ht1. clear Ht1 Hg w. apply finishes_after.
  eapply wp_mono; [by apply (parse_text strerror doc)|]. intros [[r nvl] err] w2 (-> & Hg2 & Ht2 & h & -> & Ho). split; [done|]. rewrite <-Ht2. clear Ht2.
  apply nv_open_reads in Ho as Hr. cbn [Z.eqb check].
  apply finishes_after, wp_ret. split; [done|]. apply finishes_after. eapply wp_access; [done|]. split; [done|]. apply finishes_after.
  eapply wp_mono; [by eapply nv_next_first|]. intros p w3 (Hg3 & He & ->). split; [by rewrite He|]. rewrite <-He in Ho, Hr |- *. clear He.
  replace (if decide (pairs_of doc = []) then None else Some (nv_pair h 0))
    with (if decide (0 < length (pairs_of doc))%nat then Some (nv_pair h 0) else None).
  2:{ destruct (pairs_of doc); [done|]. rewrite decide_True by (cbn; lia). by rewrite decide_False. }
  eapply finishes_then; [apply (volume_pairs_concludes h (pairs_of doc) turns 0); [apply pairs_nodup|lia|lia|done|done]|].
  intros c a w4 _ Hd. eapply wp_mono; [eapply free_ends; [by apply did_nil, (did_good _ _ _ Hd)|by eapply did_opens]|].
  intros [] w5 [_ Ht]. by rewrite Ht, app_nil_r.
Qed.
End hook.

(** ** Systems *)

(** The directory [/a] exists, [/bad] cannot be made, and the mount of the third child fails.  Only
    the mount of [/b] can be executed; the process is the parent, or the [n]-th child. *)
Definition hook_exec : list sarg :=
  [AS (cs "/native/usr/lib/fs/nfs/mount"); AZ 5; AS (cs "mount"); AS (cs "-o"); AS (cs "vers=3,sec=sys,rw"); AS (cs "h:/exports/b"); AS (cs "/b")].

#[export] Instance sarg_dec : EqDecision sarg.
Proof. solve_decision. Defined.

Definition hook_system (child : option nat) : lx_system := {|
  lx_mkdir := fun dir => if decide (dir = cs "/a") then Some EEXIST else if decide (dir = cs "/bad") then Some 30 else None;
  lx_pid := fun n => if decide (child = Some n) then 0 else 100 + Z.of_nat n;
  lx_status := fun n => if decide (n = 2%nat) then 256 else 0;
  lx_root := cs "/native";
  lx_exec := fun args => bool_decide (args = hook_exec)
|}.

Section hook_run.
Context (child : option nat).

(** The state: whether the wait was interrupted, as the first attempt to wait for a child is. *)
#[local] Instance hook_answers : Answers bool := {|
  answer := fun name args log interrupted =>
    let S := hook_system child in
    if decide (name = "fork"%string) then (SysRet (lx_pid S (forks log)) 0 [] [], false)
    else if decide (name = "waitpid"%string) then
      if interrupted then
        (SysRet (match args with AZ pid :: _ => pid | _ => 0 end) 0 [] [lx_status S (pred (forks log))], false)
      else (SysRet (-1) EINTR [] [], true)
    else if decide (name = "zone_get_nroot"%string) then (SysRet 1 0 (lx_root S) [], interrupted)
    else if decide (name = "execv"%string) then (SysRet (if lx_exec S args then 0 else -1) 2 [] [], interrupted)
    else
      match args with
      | [AS dir; _] => match lx_mkdir S dir with None => (SysRet 0 0 [] [], interrupted) | Some e => (SysRet (-1) e [] [], interrupted) end
      | _ => (SysRet 0 0 [] [], interrupted)
      end;
  hears := fun name => bool_decide (name <> "waitpid"%string)
|}.

#[local] Instance hook_env : LxEnv (rec_env bool) (hook_system child).
Proof.
  refine {| lx_patience := fun e => if (e.2.2 : bool) then 0%nat else 1%nat |}.
  - done.
  - intros mnt mode [store [log v]] r e' Hs. cbv [sys_step rec_kernel answer hook_answers] in Hs. cbn [decide] in Hs.
    destruct (lx_mkdir (hook_system child) mnt) as [er|]; by injection Hs as <- <-.
  - intros [store [log v]] r e' Hs. injection Hs as <- <-. done.
  - intros n. cbn. case_decide; lia.
  - intros [store [log v]] r e' Hs. by injection Hs as <- <-.
  - intros args [store [log v]] r e' Hs. by injection Hs as <- <-.
  - intros n [store [log v]] r e' Hn _ Hs. destruct v; injection Hs as <- <-; [right|left].
    + change (forks log = Datatypes.S n) in Hn. split; [done|]. cbn [sr_vals head]. by rewrite Hn.
    + split_and!; [done|done|cbn; lia].
Defined.

Lemma hook_patient (e : rec_env bool) : (lx_patience e < 2)%nat.
Proof. destruct e as [store [log []]]; cbn; lia. Qed.

Definition hook_volume (volume dir : string) : json :=
  JObject [(cs "type", JString (cs "tritonnfs")); (cs "nfsvolume", JString (cs volume)); (cs "mountpoint", JString (cs dir))].
Definition hook_doc : json := JArray [hook_volume "h:/exports/a" "/a"; hook_volume "h:/exports/b" "/b"].
Definition hook_table (doc : json) (key : cstr) : option cstr := if decide (key = SDC_VOLUMES_KEY) then Some (print_json doc) else None.

(** The hook in that process. *)
Definition hook_run : C (rec_env bool) () :=
  @mountNfsVolumes _ (table_metadata (hook_table hook_doc) (rec_env bool)) outer_nvlist outer_read rec_kernel LP64 (fun _ => []) 7 2.
End hook_run.

(** Two volumes, for the parent and for the second child, and what becomes of a third one. *)
Example hook_two :
  volumes_end (hook_system None) 0 (pairs_of hook_doc) =
  LxMounted [("mkdir", [AS (cs "/a"); AZ 493], -1); ("fork", [], 100); ("mkdir", [AS (cs "/b"); AZ 493], 0); ("fork", [], 101)]%string /\
  volumes_end (hook_system (Some 1%nat)) 0 (pairs_of hook_doc) = LxExec hook_exec.
Proof. by vm_compute. Qed.
Example hook_three :
  let doc v := JArray [hook_volume "h:/exports/a" "/a"; hook_volume "h:/exports/b" "/b"; v] in
  (fun v => volumes_end (hook_system None) 0 (pairs_of (doc v))) <$> [hook_volume "h:/c" "/c"; hook_volume "h:/c" "/bad"; JObject []; JInt 3] =
  [LxFatal ERR_MOUNT_NFS_VOLUME; LxFatal ERR_MKDIR; LxFatal ERR_INVALID_NFS_VOLUMES; LxFatal ERR_UNEXPECTED].
Proof. by vm_compute. Qed.

(** The parent makes its calls; the second child executes its mount, and the first one cannot. *)
Lemma mountNfsVolumes_mounts_witness :
  let run child := finishes (H0 := rec_traced (H := hook_answers child)) (hook_system child) (hook_run child) in
  let start := rec_start false in
  run None (LxMounted [("mkdir", [AS (cs "/a"); AZ 493], -1); ("fork", [], 100); ("mkdir", [AS (cs "/b"); AZ 493], 0); ("fork", [], 101)]%string) start /\
  run (Some 1%nat) (LxExec hook_exec) start /\ run (Some 0%nat) (volumes_end (hook_system (Some 0%nat)) 0 (pairs_of hook_doc)) start.
Proof.
  assert (text_is (hook_table hook_doc SDC_VOLUMES_KEY) hook_doc) as Htext
    by (split_and!; [by vm_compute|done|repeat split; by_decide|by vm_compute]).
  assert (good (rec_start (V := bool) false)) as Hgood by (by split; constructor).
  split_and!.
  1: exact (@mountNfsVolumes_mounts (rec_env bool) (rec_kernel (H := hook_answers None)) rec_traced outer_nvlist outer_laws outer_read outer_read_laws rec_steady
    (table_metadata (hook_table hook_doc) (rec_env bool)) LP64 (hook_table hook_doc) (rec_asked _) (hook_system None) (hook_env None) (fun _ => []) 2
    (hook_patient None) hook_doc 7 (rec_start false) Htext ltac:(by_decide) Hgood).
  1: exact (@mountNfsVolumes_mounts (rec_env bool) (rec_kernel (H := hook_answers (Some 1%nat))) rec_traced outer_nvlist outer_laws outer_read outer_read_laws rec_steady
    (table_metadata (hook_table hook_doc) (rec_env bool)) LP64 (hook_table hook_doc) (rec_asked _) (hook_system (Some 1%nat)) (hook_env (Some 1%nat)) (fun _ => []) 2
    (hook_patient (Some 1%nat)) hook_doc 7 (rec_start false) Htext ltac:(by_decide) Hgood).
  exact (@mountNfsVolumes_mounts (rec_env bool) (rec_kernel (H := hook_answers (Some 0%nat))) rec_traced outer_nvlist outer_laws outer_read outer_read_laws rec_steady
    (table_metadata (hook_table hook_doc) (rec_env bool)) LP64 (hook_table hook_doc) (rec_asked _) (hook_system (Some 0%nat)) (hook_env (Some 0%nat)) (fun _ => []) 2
    (hook_patient (Some 0%nat)) hook_doc 7 (rec_start false) Htext ltac:(by_decide) Hgood).
Defined.
