(* ===== verification/Routeinfo.v ===== *)
(** * Routeinfo: the routes of a zone, [routeinfo/main.c]

    The program lxinit runs to learn the static routes of a zone: it prints a line for each element
    of the array [sdc:routes].  [route_lines] gives the lines of an array, and whether every element
    has one; [errx] ends the process, its message without the name of the program. *)
From Stdlib Require Import Lia.
From S2P Require Import Prelude Custr Cnum Strset Dynstr Sys Plat Proto Mdata Nvlist NvRead Json JsonSpec JsonPrint JsonMachine Docker DockerEnv Tools Dockerinit DockerinitAttach Moves NvStore NvDoc Calls.

Definition SDC_ROUTES_KEY : cstr := cs "sdc:routes".
Definition EXIT_SUCCESS : Z := 0.
Definition EXIT_FAILURE : Z := 1.

Section routeinfo.
Context {E : Type} `{NvRead E} `{Kernel E} `{DM : DataModel} (strerror : Z -> cstr).

(** The routes from index [i] on, [n] of them; [idx] is an array of 32 characters. *)
Fixpoint print_routes_loop (n : nat) (i : Z) (nvl : nvlist_t) : C E Z :=
  match n with
  | O => mret 0
  | S n =>
      let idx := str_fit 32 (print_u i) in
      let incomplete := eprint (cs "ERROR: route[" ++ idx ++ cs "] did not have all of " ++ Docker.quoted (cs "linklocal") ++ cs ", " ++
        Docker.quoted (cs "dst") ++ cs " and " ++ Docker.quoted (cs "gateway")) ;; mret (-1) in
      '(r, route) ← nvlist_lookup_nvlist nvl idx;
      if negb (r =? 0) then eprint (cs "ERROR: could not find route[" ++ idx ++ cs "]") ;; mret (-1) else
      route ← c_access route;
      '(r, linklocal) ← nvlist_lookup_boolean_value route (cs "linklocal");
      if negb (r =? 0) then incomplete else
      '(r, dst) ← nvlist_lookup_string route (cs "dst");
      if negb (r =? 0) then incomplete else
      '(r, gateway) ← nvlist_lookup_string route (cs "gateway");
      if negb (r =? 0) then incomplete else
      gateway ← c_access gateway;
      dst ← c_access dst;
      linklocal ← c_access linklocal;
      _ ← sys "printf" [AS (gateway ++ cs "|" ++ dst ++ cs "|" ++ (if linklocal : bool then cs "true" else cs "false") ++ [LF])];
      _ ← sys "fflush" [AS (cs "stdout")];
      print_routes_loop n (u32 (i + 1)) nvl
  end.

Definition print_routes (nvl : nvlist_t) : C E Z :=
  '(r, len) ← nvlist_lookup_uint32 nvl (cs "length");
  if negb (r =? 0) then eprint (cs "ERROR: could not find " ++ Docker.quoted (cs "length") ++ cs " key") ;; mret (-1) else
  len ← c_access len;
  print_routes_loop (Z.to_nat len) 0 nvl.

(** What [main] does with the answer; [nje] is its error record, an address and what it holds. *)
Definition routes_answer (nje : Z * list char) (data : dynstr) : C E () :=
  text ← c_access (str_data data);
  '(r, nvl, err) ← nvlist_parse_json strerror text (dynstr_len data) 0 (Some nje);
  (if negb (r =? 0) then
     err ← c_access err;
     errx EXIT_FAILURE (cs "could not parse " ++ Docker.quoted SDC_ROUTES_KEY ++ cs " mdata as JSON: " ++ nje_message err)
   else mret tt) ;;
  nvl ← c_access nvl;
  r ← print_routes nvl;
  (if negb (r =? 0) then errx EXIT_FAILURE (cs "could not print routes from " ++ Docker.quoted SDC_ROUTES_KEY ++ cs " mdata") else mret tt) ;;
  nvlist_free nvl.
End routeinfo.

Section main.
Context {E : Type} `{Platform E} `{Ident E} `{NvRead E} `{Kernel E} `{DM : DataModel} (strerror : Z -> cstr) (sleep : Z -> C E ()) (fuel : nat).

Definition main (nje : Z * list char) : C E Z :=
  '(r, mdp, errmsg) ← proto_init sleep fuel;
  (if negb (r =? 0) then errx EXIT_FAILURE (cs "could not initialise mdata: " ++ default (cs "?") errmsg) else mret tt) ;;
  mdp ← c_access mdp;
  '(r, answer, _) ← proto_execute sleep fuel mdp (cs "GET") (Some SDC_ROUTES_KEY);
  (if negb (r =? 0) then errx EXIT_FAILURE (cs "could not get " ++ Docker.quoted SDC_ROUTES_KEY ++ cs " mdata") else mret tt) ;;
  '(_, data) ← c_access answer;
  routes_answer strerror nje data ;;
  mret EXIT_SUCCESS.
End main.

(** ** The lines *)

Definition route_line (route : nvpairs) : option cstr :=
  match nv_bool (cs "linklocal") route, nv_string (cs "dst") route, nv_string (cs "gateway") route with
  | Some linklocal, Some dst, Some gateway =>
      Some (gateway ++ cs "|" ++ dst ++ cs "|" ++ (if linklocal then cs "true" else cs "false") ++ [LF])
  | _, _, _ => None
  end.

(** The lines up to the first element without one, and whether there is none such. *)
Fixpoint route_lines (js : list json) : list cstr * bool :=
  match js with
  | [] => ([], true)
  | j :: js =>
      match nv_list_of (nv_of j) ≫= route_line with
      | None => ([], false)
      | Some line => let '(lines, ok) := route_lines js in (line :: lines, ok)
      end
  end.

(** Printing a line and flushing it. *)
Definition printed (lines : list cstr) : list call :=
  concat ((fun line => [("printf", [AS line], Zlen line); ("fflush", [AS (cs "stdout")], 0)]%string) <$> lines).

(** A standard output that takes everything. *)
Class PrintEnv (E : Type) `{Traced E} := {
  print_heard name : heard name = true;
  print_answer s e r e' : sys_step "printf" [AS s] e = (r, e') -> sr_ret r = Zlen s;
  flush_answer s e r e' : sys_step "fflush" [AS s] e = (r, e') -> sr_ret r = 0
}.

Section routes.
Context {E : Type} `{K : Kernel E} `{!Traced E} `{NL : Nvlist E} `{!NvlistLaws E} `{!NvRead E} `{!NvReadLaws E} `{!Steady E}
  `{DM : DataModel} `{!PrintEnv E} (strerror : Z -> cstr).
Implicit Types w : world E.

Lemma makes_eprint {B} s (k : () -> C E B) c (Q : B -> Prop) w :
  good w -> (forall w', did [] w w' -> makes (k tt) c Q w') -> makes (eprint s ≫= k) c Q w.
Proof.
  intros Hg Hk. eapply (makes_quiet _ _ _ (fun _ => True)); [by apply (makes_dlog s)|]. intros [] w1 _ Hd. by apply Hk.
Qed.

(** The message of an incomplete route and the failure. *)
Lemma makes_failed s w : good w -> makes (eprint s ;; mret (-1)) [] (fun r => r = -1) w.
Proof. intros Hg. apply makes_eprint; [done|]. intros w1 Hd. apply makes_ret; [by eapply did_good|done]. Qed.

Lemma print_line_makes {B} line (k : C E B) c (Q : B -> Prop) w :
  good w -> (forall w', did (printed [line]) w w' -> makes k c Q w') ->
  makes (_ ← sys "printf" [AS line]; _ ← sys "fflush" [AS (cs "stdout")]; k) (printed [line] ++ c) Q w.
Proof.
  intros Hg Hk. apply (makes_bind _ _ [_] (_ :: _) (fun r => r = Zlen line)); [apply makes_sys; [done|apply print_heard|intros; by eapply print_answer]|].
  intros r w1 -> Hd1. apply (makes_bind _ _ [_] _ (fun r => r = 0)); [apply makes_sys; [by eapply did_good|apply print_heard|intros; by eapply flush_answer]|].
  intros r w2 -> Hd2. apply Hk. exact (did_app [_] [_] _ _ _ Hd1 Hd2).
Qed.

Lemma routes_loop_makes h js (i n : nat) w :
  Zlen js <= INT_MAX -> (i + n = length js)%nat -> good w -> nv_reads h (pairs_of (JArray js)) (w_env w) ->
  makes (print_routes_loop n (Z.of_nat i) h) (printed (route_lines (drop i js)).1)
    (fun r => r = if (route_lines (drop i js)).2 then 0 else -1) w.
Proof.
  intros Hmax. revert i w. induction n as [|n IH]; intros i w Hn Hg Hr; cbn [print_routes_loop].
  { rewrite drop_ge by lia. by apply makes_ret. }
  destruct (lookup_lt_is_Some_2 js i ltac:(lia)) as [j Hj]. rewrite (drop_S js j i) by done. cbn [route_lines].
  assert (str_fit 32 (print_u (Z.of_nat i)) = print_u (Z.of_nat i)) as ->.
  { pose proof (print_u_length (Z.of_nat i)) as Hl. unfold str_fit. apply take_ge. unfold Zlen, INT_MAX, UINT_MAX in *. lia. }
  replace (u32 (Z.of_nat i + 1)) with (Z.of_nat (S i)) by (unfold Zlen, INT_MAX in *; rewrite u32_small; unfold UINT_MAX; lia).
  cbv zeta. eapply lookup_element_makes; [done|lia|done|done|]. intros [r route] w1 Hg1 Hr1 He Hd1. unfold element_list in He. rewrite Hj in He. cbn [mbind option_bind] in He.
  destruct (nv_list_of (nv_of j)) as [l|]; cbn [mbind option_bind].
  2:{ rewrite (proj2 (Z.eqb_neq r 0)) by done. by apply makes_failed. }
  destruct He as (h' & [= -> ->] & Hr'). cbn [Z.eqb negb]. eapply makes_quiet; [by apply makes_access|]. intros a w2 -> Hd2.
  apply (did_reads _ _ _ _ _ Hd2) in Hr', Hr1. apply did_good in Hd2. unfold route_line.
  eapply lookup_bool_makes; [done|done|]. intros [r ll] w3 Hg3 Hl3 Hb Hd3. apply (did_reads _ _ _ _ _ Hd3) in Hr1.
  destruct (nv_bool (cs "linklocal") l) as [b|]; [injection Hb as -> ->|rewrite (proj2 (Z.eqb_neq r 0)) by done; by apply makes_failed].
  cbn [Z.eqb negb]. eapply lookup_string_makes; [done|done|]. intros [r dst] w4 Hg4 Hl4 Hs Hd4. apply (did_reads _ _ _ _ _ Hd4) in Hr1.
  destruct (nv_string (cs "dst") l) as [d|]; [injection Hs as -> ->|rewrite (proj2 (Z.eqb_neq r 0)) by done; by apply makes_failed].
  cbn [Z.eqb negb]. eapply lookup_string_makes; [done|done|]. intros [r gateway] w5 Hg5 Hl5 Hs Hd5. apply (did_reads _ _ _ _ _ Hd5) in Hr1.
  destruct (nv_string (cs "gateway") l) as [g|]; [injection Hs as -> ->|rewrite (proj2 (Z.eqb_neq r 0)) by done; by apply makes_failed].
  cbn [Z.eqb negb]. do 3 (eapply makes_quiet; [by apply makes_access|]; let Hd := fresh in intros ? ? -> Hd;
    apply (did_reads _ _ _ _ _ Hd) in Hr1; apply did_good in Hd).
  specialize (IH (S i)). destruct (route_lines (drop (S i) js)) as [lines ok]. cbn [fst snd] in *.
  change (printed (_ :: lines)) with (printed [g ++ cs "|" ++ d ++ cs "|" ++ (if b then cs "true" else cs "false") ++ [LF]] ++ printed lines).
  apply print_line_makes; [done|]. intros w6 Hd6. apply IH; [lia|by eapply did_good|by eapply did_reads].
Qed.

Lemma print_routes_makes h js w : Zlen js <= INT_MAX -> good w -> nv_reads h (pairs_of (JArray js)) (w_env w) ->
  makes (print_routes h) (printed (route_lines js).1) (fun r => r = if (route_lines js).2 then 0 else -1) w.
Proof.
  intros Hmax Hg Hr. unfold print_routes. eapply makes_quiet; [by apply lookup_length_makes|]. intros [r len] w1 [= -> ->] Hd.
  apply (did_reads _ _ _ _ _ Hd) in Hr. apply did_good in Hd. cbn [Z.eqb negb]. eapply makes_quiet; [by apply makes_access|].
  intros len w2 -> Hd2. apply (did_reads _ _ _ _ _ Hd2) in Hr. apply did_good in Hd2.
  rewrite Zlen_to_nat. by apply (routes_loop_makes h js 0 (length js)).
Qed.

(** C15: given the text of an array, [routeinfo] prints a line for each route, its gateway,
    destination and whether it is link-local, and flushes it; it succeeds when every element is a
    complete route, and otherwise prints the routes before the first that is not and exits with 1. *)
Theorem routeinfo_prints (nje : Z * list char) (js : list json) (data : dynstr) w :
  dynstr_rep data (print_json (JArray js)) -> json_ok (JArray js) -> Zlen (print_json (JArray js)) <= JSON_MAX -> Zlen js <= INT_MAX ->
  errout_ok (Some nje) -> good w ->
  halts (routes_answer strerror nje data)
    (fun _ w' => (route_lines js).2 = true /\ trace (w_env w') = trace (w_env w) ++ printed (route_lines js).1)
    (fun st => (route_lines js).2 = false /\ st = EXIT_FAILURE) w.
Proof.
  intros [_ Hrep] Hok Hmax Hlen Herr Hg. unfold routes_answer. destruct data as [len size [text|]]; cbn [str_data str_strlen str_datalen] in Hrep; [|by destruct Hrep as (_ & _ & ?)].
  destruct Hrep as (-> & _ & rest & ->). apply halts_bind, halts_ret, halts_bind. cbn [dynstr_len str_strlen].
  eapply halts_wp; [apply (parse_document strerror 0 (Some nje) _ (JArray js)); try done|].
  { rewrite take_app, take_ge, Nat.sub_succ_l, Nat.sub_diag by lia. done. }
  intros [[r nvl] err] w1 (-> & Hg1 & Ht1 & h & -> & Ho). apply nv_open_reads in Ho as Hr. cbn [Z.eqb negb].
  apply halts_bind, halts_ret, halts_bind, halts_ret, halts_bind. eapply halts_wp; [by apply (print_routes_makes h js)|].
  intros r w2 [Hd ->]. apply halts_bind. destruct (route_lines js).2; cbn [Z.eqb negb]; [|by split].
  apply halts_ret. eapply halts_wp; [eapply free_ends; [exact Hd|by eapply did_opens]|].
  intros [] w3 [_ Ht]. split; [done|]. by rewrite Ht, Ht1.
Qed.
End routes.

(** The answer is used whatever the response was: when the key is not there (MDR_NOTFOUND) and the
    answer has no data, the parser is given NULL and reads its first character. *)
Theorem routeinfo_not_found {E} `{Platform E} `{Ident E} `{NvRead E} `{Kernel E} `{DM : DataModel} (strerror : Z -> cstr) (sleep : Z -> C E ())
    (fuel : nat) (nje : Z * list char) mdp errmsg mdp' data (w w1 w2 : world E) :
  proto_init sleep fuel w = Done ((0, Some mdp, errmsg), w1) ->
  proto_execute sleep fuel mdp (cs "GET") (Some SDC_ROUTES_KEY) w1 = Done ((0, Some (MDR_NOTFOUND, data), mdp'), w2) ->
  str_data data = None -> main strerror sleep fuel nje w = Undefined.
Proof.
  intros Hinit Hexec Hdata. unfold main. erewrite bind_done by exact Hinit. cbn [Z.eqb negb].
  do 2 (erewrite bind_done by done). erewrite bind_done by exact Hexec. cbn [Z.eqb negb]. do 2 (erewrite bind_done by done).
  unfold routes_answer, mbind, C_bind. by rewrite Hdata.
Qed.

(** ** A zone *)

(** Its standard output; the lines its host will send are the state. *)
#[export] Instance print_answers : Answers (list cstr) := {|
  answer := fun name args _ v =>
    (SysRet (match args with [AS s] => if decide (name = "printf"%string) then Zlen s else 0 | _ => 0 end) 0 [] [], v);
  hears := fun _ => true
|}.

#[export] Instance print_env : PrintEnv (rec_env (list cstr)).
Proof.
  split; [done| |].
  - intros s [store [log v]] r e' Hs. by injection Hs as <- <-.
  - intros s [store [log v]] r e' Hs. by injection Hs as <- <-.
Qed.

#[local] Instance host {DM : DataModel} : Platform (rec_env (list cstr)) := {|
  plat := unit;
  plat_init permfail := mret (0, Some tt, None, permfail);
  plat_recv _ buf _ :=
    '(store, (log, lines)) ← get_env;
    match lines with
    | [] => mret (-1, buf)
    | l :: lines => put_env (store, (log, lines)) ;; buf ← dynstr_append buf l; mret (0, buf)
    end;
  plat_send _ _ := mret 0;
  plat_fini _ := mret tt;
  plat_is_interactive := mret false
|}.
#[local] Instance host_ident : Ident (rec_env (list cstr)) := {| ident_init := mret tt; ident := mret (cs "dc4fae17") |}.

Definition zone_route (dst gateway : string) : json :=
  JObject [(cs "linklocal", JBool false); (cs "dst", JString (cs dst)); (cs "gateway", JString (cs gateway))].
Definition zone_routes : list json := [zone_route "10.2.0.0/16" "10.1.0.1"; zone_route "10.3.0.0/16" "10.1.0.2"].
Definition no_error_yet : Z * list char := (67108864, replicate 512 NUL).

Definition run_main (lines : list cstr) : outcome (Z * world (rec_env (list cstr))) :=
  main (H := host (DM := LP64)) (DM := LP64) (fun _ => []) (fun _ => mret tt) 50 no_error_yet (rec_start lines).

(** A host of the first version: with routes, with a route that is not complete, without any. *)
Example zone_with_routes :
  match run_main [cs "invalid command"; cs "SUCCESS"; print_json (JArray zone_routes); cs "."] with
  | Done (st, w) => st = 0 /\ trace (w_env w) = printed [cs "10.1.0.1|10.2.0.0/16|false" ++ [LF]; cs "10.1.0.2|10.3.0.0/16|false" ++ [LF]]
  | _ => False
  end.
Proof. by vm_compute. Qed.
Example zone_with_bad_route :
  run_main [cs "invalid command"; cs "SUCCESS"; print_json (JArray (zone_routes ++ [JObject [(cs "dst", JString (cs "10.4.0.0/16"))]])); cs "."] = Exited 1.
Proof. by vm_compute. Qed.
Example zone_without_routes : run_main [cs "invalid command"; cs "NOTFOUND"] = Undefined.
Proof. by vm_compute. Qed.

Definition routes_data : dynstr :=
  let text := print_json (JArray zone_routes) in Dynstr (Zlen text) (Zlen text + 1) (Some (text ++ [NUL])).

Lemma routeinfo_prints_witness :
  halts (routes_answer (DM := LP64) (fun _ => []) no_error_yet routes_data)
    (fun _ w' => (route_lines zone_routes).2 = true /\
       trace (w_env w') = trace (w_env (rec_start [])) ++ printed (route_lines zone_routes).1)
    (fun st => (route_lines zone_routes).2 = false /\ st = EXIT_FAILURE) (rec_start []).
Proof.
  apply (routeinfo_prints (DM := LP64) (fun _ => []) no_error_yet zone_routes routes_data (rec_start [])).
  - split; [by vm_compute|]. split_and!; [by vm_compute|by vm_compute|by exists []].
  - repeat split; by_decide.
  - by vm_compute.
  - by vm_compute.
  - split; [by vm_compute|by_decide].
  - by split; constructor.
Defined.
