(* ===== verification/Sysevent.v ===== *)
(** * Sysevent: printing system events, [sysevent.c]

    The program subscribes to system events and prints each as an nvlist.  libsysevent runs the
    handlers in threads of its own; [stdout_mutex] keeps their output apart.  Here is what each
    thread does: [main] up to its endless loop, and the handlers.  SyseventRun puts them together.

    libsysevent is a parameter: an event is what its functions tell of it ([sysevent_t]), and
    [sysevent_get_attr_list] allocates a list.  The mutex, the clock, [printf] and [fflush] are calls
    of the [Kernel]; the nvlists are those of [NvOut].  The names that libsysevent allocates for
    [process_event] to free are values here. *)
From Stdlib Require Import Lia.
From S2P Require Import Prelude Strset Cnum Sys Nvlist NvOut Tools.

Record opts := Opts { opt_j : bool; opt_r : bool }.

(** ** Dates *)

(** [struct tm], as far as the program looks at it. *)
Record tm := Tm { tm_year : Z; tm_mon : Z; tm_mday : Z; tm_hour : Z; tm_min : Z; tm_sec : Z }.

(** The month (from 0) and the day of the month (from 0) of a day of the year that begins in March. *)
Definition month_lengths : list Z := [31; 30; 31; 30; 31; 31; 30; 31; 30; 31; 31; 29].

Fixpoint month_of (lengths : list Z) (mon day : Z) : Z * Z :=
  match lengths with
  | [] => (mon, day)
  | n :: lengths => if day <? n then (mon, day) else month_of lengths (mon + 1) (day - n)
  end.

(** [gmtime]: the Gregorian calendar, in eras of 400 years that begin on the 1st of March. *)
Definition gmtime (t : Z) : option tm :=
  let days := t / 86400 in
  let secs := t mod 86400 in
  let z := days + 719468 in
  let era := z / 146097 in
  let doe := z mod 146097 in
  let yoe := (doe - doe / 1460 + doe / 36524 - doe / 146096) / 365 in
  let doy := doe - (365 * yoe + yoe / 4 - yoe / 100) in
  let '(mon, day) := month_of month_lengths 2 doy in
  let year := yoe + era * 400 + (if 12 <=? mon then 1 else 0) in
  if (year - 1900 <? INT_MIN) || (INT_MAX <? year - 1900) then None
  else Some (Tm (year - 1900) (mon mod 12) (day + 1) (secs / 3600) (secs / 60 mod 60) (secs mod 60)).

(** A number in [%0nd]. *)
Definition two (n : Z) : cstr := pad0 2 (print_d n).

(** [strftime] of [%Y-%m-%dT%H:%M:%S]: the text, if it fits. *)
Definition strftime (size : Z) (t : tm) : option cstr :=
  let text := print_d (tm_year t + 1900) ++ cs "-" ++ two (tm_mon t + 1) ++ cs "-" ++ two (tm_mday t) ++ cs "T" ++
    two (tm_hour t) ++ cs ":" ++ two (tm_min t) ++ cs ":" ++ two (tm_sec t) in
  if Zlen text <? size then Some text else None.

(** The time as the program prints it. *)
Definition date_of (sec usec : Z) : option cstr :=
  match gmtime sec ≫= strftime 128 with
  | Some text => Some (text ++ str_fit (128 - Zlen text) (cs "." ++ pad0 3 (print_d (usec `quot` 1000)) ++ cs "Z"))
  | None => None
  end.

(** ** Events *)

(** What libsysevent tells of an event. *)
Record sysevent_t := SysEvent {
  sev_vendor : option cstr; sev_pub : option cstr; sev_class : option cstr; sev_subclass : option cstr;
  sev_pid : Z; sev_attrs : option (list (cstr * nvval))
}.

(** [sysevent_get_attr_list]: 0 and a list, or none when the event has no attributes. *)
Class SysEvents (E : Type) `{Nvlist E} := sysevent_get_attr_list : sysevent_t -> C E (Z * option nvlist_t).

Section sysevent.
Context {E : Type} `{NvOut E} `{SE : !SysEvents E} `{Kernel E} (strerror : Z -> cstr) (progname : cstr).

(** [err]: it ends the process, whatever the other threads do. *)
Definition err {A} (status : Z) (msg : cstr) : C E A :=
  e ← get_errno; eprint (progname ++ cs ": " ++ msg ++ cs ": " ++ strerror e ++ [LF]) ;; c_exit status.

(** The macro: the result of a call, and the text of the call, which is the message. *)
Definition ENSURE0 (arg : Z) (text : cstr) : C E () := if negb (arg =? 0) then err 1 text else mret tt.

(** The text of [nvlist_add_...(nvl, "name", value)]. *)
Definition add_text (add name value : cstr) : cstr :=
  cs "nvlist_add_" ++ add ++ cs "(nvl, " ++ ["034"%char] ++ name ++ ["034"%char] ++ cs ", " ++ value ++ cs ")".

(** [ENSURE0(nvlist_add_string(nvl, "k", var))]; [s] is the value of the variable [var]. *)
Definition add_string (nvl : nvlist_t) (k var : string) (s : cstr) : C E () :=
  r ← nvlist_add_string nvl (cs k) s; ENSURE0 r (add_text (cs "string") (cs k) (cs var)).

Definition make_nvlist (type : cstr) : C E nvlist_t :=
  '(r, nvl) ← nvlist_alloc;
  ENSURE0 r (cs "nvlist_alloc(&nvl, NV_UNIQUE_NAME, 0)") ;;
  nvl ← c_access nvl;
  tv ← syscall "gettimeofday" [];
  (if negb (sr_ret tv =? 0) then err 1 (cs "gettimeofday") else mret tt) ;;
  tv_sec ← c_access (sr_vals tv !! 0%nat);
  tv_usec ← c_access (sr_vals tv !! 1%nat);
  match gmtime tv_sec with
  | None => err 1 (cs "gmtime")
  | Some gmt =>
      match strftime 128 gmt with
      | None => err 1 (cs "strftime")
      | Some date =>
          let ms := cs "." ++ pad0 3 (print_d (tv_usec `quot` 1000)) ++ cs "Z" in
          (if Zlen ms =? 0 then err 1 (cs "snprintf date") else mret tt) ;;
          let date := date ++ str_fit (128 - Zlen date) ms in
          add_string nvl "date" "date" date ;;
          add_string nvl "type" "type" type ;;
          mret nvl
      end
  end.

Definition mutex_lock : C E () := _ ← sys "mutex_lock" [AS (cs "stdout_mutex")]; mret tt.
Definition mutex_unlock : C E () := _ ← sys "mutex_unlock" [AS (cs "stdout_mutex")]; mret tt.

Definition print_nvlist (o : opts) (nvl : nvlist_t) : C E () :=
  (if opt_j o then nvlist_print_json nvl else nvlist_print nvl) ;;
  _ ← sys "printf" [AS [LF]];
  _ ← sys "fflush" [AS (cs "stdout")];
  mret tt.

Definition process_event (o : opts) (ev : sysevent_t) (channel : option cstr) : C E () :=
  nvl ← make_nvlist (cs "event");
  '(r, evnvl) ← sysevent_get_attr_list ev;
  (if negb (r =? 0) then err 1 (cs "sysevent_get_attr_list") else mret tt) ;;
  match sev_vendor ev, sev_pub ev, sev_class ev, sev_subclass ev with
  | Some vendor, Some publisher, Some class, Some subclass =>
      add_string nvl "vendor" "vendor" vendor ;;
      add_string nvl "publisher" "publisher" publisher ;;
      add_string nvl "class" "class" class ;;
      add_string nvl "subclass" "subclass" subclass ;;
      r ← nvlist_add_int32 nvl (cs "pid") (sev_pid ev); ENSURE0 r (add_text (cs "int32") (cs "pid") (cs "pid")) ;;
      match evnvl with Some evnvl => r ← nvlist_add_nvlist nvl (cs "data") evnvl; ENSURE0 r (add_text (cs "nvlist") (cs "data") (cs "evnvl")) | None => mret tt end ;;
      match channel with Some channel => add_string nvl "channel" "channel" channel | None => mret tt end ;;
      mutex_lock ;;
      print_nvlist o nvl ;;
      mutex_unlock ;;
      match evnvl with Some evnvl => nvlist_free evnvl | None => mret tt end ;;
      nvlist_free nvl
  | _, _, _, _ => err 1 (cs "failed to retrieve sysevent metadata")
  end.

Definition sysev_handler (o : opts) (ev : sysevent_t) : C E () := process_event o ev None.
Definition sysevc_handler (o : opts) (ev : sysevent_t) (cookie : cstr) : C E Z := process_event o ev (Some cookie) ;; mret 0.

Definition sysev_register (class : cstr) (subclasses : list cstr) : C E () :=
  handle ← sys "sysevent_bind_handle" [AS (cs "sysev_handler")];
  (if handle =? 0 then err 1 (cs "sysevent_bind_handle") else mret tt) ;;
  r ← sys "sysevent_subscribe_event" (AZ handle :: AS class :: (AS <$> subclasses) ++ [AZ (Zlen subclasses)]);
  if negb (r =? 0) then err 2 (cs "sysevent_subscribe_event") else mret tt.

Definition sysevc_register (channel class : cstr) : C E () :=
  r ← syscall "sysevent_evc_bind" [AS channel; AZ 0];
  (if negb (sr_ret r =? 0) then err 1 (cs "sysevent_evc_bind") else mret tt) ;;
  ch ← c_access (head (sr_vals r));
  pid ← sys "getpid" [];
  let subid := str_fit 128 (cs "sysevent-" ++ print_d pid) in
  r ← sys "sysevent_evc_subscribe" [AZ ch; AS subid; AS class; AS (cs "sysevc_handler"); AS channel; AZ 0];
  if negb (r =? 0) then err 2 (cs "sysevent_evc_subscribe") else mret tt.

Definition usage_text : list cstr :=
  (fun s => cs s ++ [LF]) <$> ["usage: sysevent [-hj] [-c channel] [class] [subclass1] [...]"; ""; "emit sysevents to stdout"; ""; "options";
    "  -c <channel>   bind to the event channel"; "  -h             print this message and exit"; "  -j             JSON output";
    "  -r             print 'ready' event at start"]%string.
Fixpoint usage_lines (s : cstr) (lines : list cstr) : C E () :=
  match lines with [] => mret tt | l :: lines => _ ← sys "fprintf" [AS s; AS l]; usage_lines s lines end.
Definition usage (s : cstr) : C E () := usage_lines s usage_text.

(** The options: the status with which [main] returns at once, or the channel and the options. *)
Definition sysevent_opts (c : char) : option bool :=
  if Ascii.eqb c "c"%char then Some true
  else if Ascii.eqb c "h"%char || Ascii.eqb c "j"%char || Ascii.eqb c "r"%char then Some false else None.

Fixpoint option_loop (l : list getopt_result) (channel : option cstr) (o : opts) : C E (Z + option cstr * opts) :=
  match l with
  | [] => mret (inr (channel, o))
  | OptChar c optarg :: l =>
      if Ascii.eqb c "c"%char then option_loop l optarg o
      else if Ascii.eqb c "h"%char then usage (cs "stdout") ;; mret (inl 0)
      else if Ascii.eqb c "j"%char then option_loop l channel (Opts true (opt_r o))
      else if Ascii.eqb c "r"%char then option_loop l channel (Opts (opt_j o) true)
      else usage (cs "stderr") ;; mret (inl 1)
  | _ :: _ => usage (cs "stderr") ;; mret (inl 1)
  end.

(** [main] with the options known, up to [for (;;) pause();]. *)
Definition listen (o : opts) (channel : option cstr) (class : cstr) (subclasses : list cstr) : C E () :=
  (if opt_r o then mutex_lock else mret tt) ;;
  match channel with Some channel => sysevc_register channel class | None => sysev_register class subclasses end ;;
  if opt_r o then
    ready_nvl ← make_nvlist (cs "ready");
    print_nvlist o ready_nvl ;;
    mutex_unlock ;;
    nvlist_free ready_nvl
  else mret tt.

(** The status [main] returns, or none when it comes to its loop; the names of all classes and of all
    subclasses are those of libsysevent. *)
Definition main (EC_ALL EC_SUB_ALL : cstr) (argv : list cstr) : C E (option Z) :=
  r ← option_loop (getopts sysevent_opts argv) None (Opts false false);
  match r with
  | inl status => mret (Some status)
  | inr (channel, o) =>
      let argv := operands sysevent_opts argv in
      let '(class, argv) := match argv with class :: argv => (class, argv) | [] => (EC_ALL, []) end in
      let subclasses := match argv with [] => [EC_SUB_ALL] | _ => argv end in
      listen o channel class subclasses ;;
      mret None
  end.
End sysevent.

(** Dates: the epoch, leap years, the turn of a year. *)
Example date_epoch : date_of 0 999999 = Some (cs "1970-01-01T00:00:00.999Z").
Proof. by vm_compute. Qed.
Example date_leap : date_of 951782399 5000 = Some (cs "2000-02-28T23:59:59.005Z") /\ date_of 951782400 0 = Some (cs "2000-02-29T00:00:00.000Z").
Proof. by vm_compute. Qed.
Example date_turn : date_of 1483228799 0 = Some (cs "2016-12-31T23:59:59.000Z") /\ date_of 1483228800 0 = Some (cs "2017-01-01T00:00:00.000Z").
Proof. by vm_compute. Qed.
Example operands_kept :
  operands sysevent_opts (cs <$> ["-jr"; "-c"; "chan"; "EC_dev"; "sub"]%string) = cs <$> ["EC_dev"; "sub"]%string.
Proof. by vm_compute. Qed.
