(* ===== verification/Threads.v ===== *)
(** * Threads: threads that share a mutex and an output

    A thread is the list of what it has left to do that others can see: locking and unlocking the
    mutex, subscribing to events, writing to the output.  [step] lets any thread act, and starts a
    thread for each event once there is a subscription.  When every thread writes only while it
    holds the mutex, the output is that of the threads one after the other, in the order in which
    they released it ([invariant]), and the threads never wait for each other for ever ([progress]). *)
From Stdlib Require Import Lia.
From stdpp Require Import relations.
From S2P Require Import Prelude.

Section threads.
Context {L O : Type}.

Inductive action := Lock | Unlock | Subscribe | Out (x : O).

(** Why a thread was started, what it was to do, and what it has left. *)
Record thread := Thread { th_label : L; th_prog : list action; th_rest : list action }.

Record state := State { st_owner : option nat; st_threads : list thread; st_subscribed : bool; st_out : list O }.

Definition with_rest (th : thread) (rest : list action) : thread := Thread (th_label th) (th_prog th) rest.

(** What thread [t] does, if it can. *)
Definition perform (t : nat) (a : action) (s : state) : option state :=
  match a with
  | Lock => match st_owner s with None => Some (State (Some t) (st_threads s) (st_subscribed s) (st_out s)) | Some _ => None end
  | Unlock => if decide (st_owner s = Some t) then Some (State None (st_threads s) (st_subscribed s) (st_out s)) else None
  | Subscribe => Some (State (st_owner s) (st_threads s) true (st_out s))
  | Out x => Some (State (st_owner s) (st_threads s) (st_subscribed s) (st_out s ++ [x]))
  end.

Inductive step (handler : L -> list action -> Prop) : relation state :=
| step_thread s t th a rest s' :
    st_threads s !! t = Some th -> th_rest th = a :: rest -> perform t a s = Some s' ->
    step handler s (State (st_owner s') (<[t := with_rest th rest]> (st_threads s')) (st_subscribed s') (st_out s'))
| step_event s l p :
    st_subscribed s = true -> handler l p ->
    step handler s (State (st_owner s) (st_threads s ++ [Thread l p p]) (st_subscribed s) (st_out s)).

(** A schedule: which thread acts, or which handler is started. *)
Inductive choice := Act (t : nat) | Arrive (l : L) (p : list action).

Definition choose (c : choice) (s : state) : option state :=
  match c with
  | Act t =>
      th ← st_threads s !! t;
      match th_rest th with
      | [] => None
      | a :: rest => s' ← perform t a s; Some (State (st_owner s') (<[t := with_rest th rest]> (st_threads s')) (st_subscribed s') (st_out s'))
      end
  | Arrive l p => if st_subscribed s then Some (State (st_owner s) (st_threads s ++ [Thread l p p]) (st_subscribed s) (st_out s)) else None
  end.

Fixpoint schedule (cs : list choice) (s : state) : option state :=
  match cs with [] => Some s | c :: cs => s' ← choose c s; schedule cs s' end.

Lemma schedule_steps (handler : L -> list action -> Prop) cs s s' :
  Forall (fun c => match c with Act _ => True | Arrive l p => handler l p end) cs -> schedule cs s = Some s' -> rtc (step handler) s s'.
Proof.
  revert s. induction cs as [|c cs IH]; intros s; [by intros _ [= ->]|]. intros [Hc Hcs]%list.Forall_cons (s1 & Hs1 & Hrun)%bind_Some.
  eapply rtc_l; [|by apply IH]. destruct c as [t|l p]; cbn in Hs1.
  - apply bind_Some in Hs1 as (th & Ht & Hs1). destruct (th_rest th) as [|a rest] eqn:Hr; [done|].
    apply bind_Some in Hs1 as (s2 & Hp & [= <-]). by eapply step_thread.
  - destruct (st_subscribed s) eqn:Hsub; [|done]. injection Hs1 as <-. rewrite <-Hsub. by apply step_event.
Qed.

(** One thread, at its start. *)
Definition begin (l : L) (p : list action) : state := State None [Thread l p p] false [].

(** ** Programs that keep to the mutex *)

Definition inner (a : action) : Prop := a <> Lock /\ a <> Unlock.
Definition silent (a : action) : Prop := a = Subscribe.
Definition locked (p : list action) : Prop := exists body, p = Lock :: body ++ [Unlock] /\ Forall inner body.

(** What a program writes. *)
Definition outs (p : list action) : list O := omap (fun a => match a with Out x => Some x | _ => None end) p.

Lemma outs_app p q : outs (p ++ q) = outs p ++ outs q.
Proof. apply omap_app. Qed.
Lemma outs_locked body : outs (Lock :: body ++ [Unlock]) = outs body.
Proof. change (outs (Lock :: body ++ [Unlock])) with (outs (body ++ [Unlock])). rewrite outs_app. apply app_nil_r. Qed.

(** What the threads [fin] wrote, in this order. *)
Definition written (ths : list thread) (fin : list nat) : list O := concat ((fun t => from_option (outs ∘ th_prog) [] (ths !! t)) <$> fin).

(** A thread that does not hold the mutex has released it, has not begun, or never writes. *)
Definition apart (fin : list nat) (t : nat) (th : thread) : Prop :=
  if decide (t ∈ fin) then locked (th_prog th) /\ th_rest th = []
  else (locked (th_prog th) /\ th_rest th = th_prog th) \/ (Forall silent (th_prog th) /\ Forall silent (th_rest th)).

(** The one that holds it is inside its program, of which [before] is done. *)
Definition inside (th : thread) (before : list action) : Prop :=
  exists after, Forall inner (before ++ after) /\ th_prog th = Lock :: before ++ after ++ [Unlock] /\ th_rest th = after ++ [Unlock].

Record invariant (s : state) (fin : list nat) : Prop := {
  inv_nodup : NoDup fin;
  inv_fin t : t ∈ fin -> (t < length (st_threads s))%nat;
  inv_apart t th : st_threads s !! t = Some th -> st_owner s <> Some t -> apart fin t th;
  inv_owner : match st_owner s with
    | None => st_out s = written (st_threads s) fin
    | Some t => t ∉ fin /\ exists th before, st_threads s !! t = Some th /\ inside th before /\
        st_out s = written (st_threads s) fin ++ outs before
    end
}.

Lemma written_app ths fin fin' : written ths (fin ++ fin') = written ths fin ++ written ths fin'.
Proof. unfold written. by rewrite fmap_app, concat_app. Qed.

(** It does not matter how far the threads have come. *)
Lemma written_progs ths ths' fin : (forall t, t ∈ fin -> th_prog <$> ths' !! t = th_prog <$> ths !! t) -> written ths' fin = written ths fin.
Proof.
  intros Hp. unfold written. f_equal. apply list_fmap_ext. intros i t Ht.
  assert (th_prog <$> ths' !! t = th_prog <$> ths !! t) as He by (by eapply Hp, list_elem_of_lookup_2). destruct (ths' !! t), (ths !! t); cbn in *; congruence.
Qed.

Lemma written_insert ths t th rest fin : ths !! t = Some th -> written (<[t := with_rest th rest]> ths) fin = written ths fin.
Proof.
  intros Ht. apply written_progs. intros i _. destruct (decide (i = t)) as [->|Hne]; [|by rewrite list_lookup_insert_ne].
  rewrite list_lookup_insert_eq by (by eapply lookup_lt_Some). by rewrite Ht.
Qed.

Lemma begin_invariant l p : locked p \/ Forall silent p -> invariant (begin l p) [].
Proof.
  intros Hp. split; [constructor|by intros t ?%elem_of_nil| |done].
  intros t th Ht _. unfold apart. rewrite decide_False by apply not_elem_of_nil. destruct t; [|done]. injection Ht as <-. cbn. naive_solver.
Qed.

(** ** The steps keep it *)

Lemma apart_other fin t u th : t <> u -> apart fin u th <-> apart (fin ++ [t]) u th.
Proof.
  intros Hne. unfold apart. destruct (decide (u ∈ fin)) as [Hu|Hu].
  - by rewrite decide_True by (rewrite elem_of_app; auto).
  - rewrite decide_False; [done|]. rewrite elem_of_app, list_elem_of_singleton. naive_solver.
Qed.

(** A thread that is not the owner and acts: it begins its program, or it is silent. *)
Lemma apart_acts fin t th a rest : apart fin t th -> th_rest th = a :: rest ->
  t ∉ fin /\ ((a = Lock /\ inside (with_rest th rest) []) \/ (a = Subscribe /\ apart fin t (with_rest th rest))).
Proof.
  unfold apart. destruct (decide (t ∈ fin)) as [Ht|Ht]; [intros [_ ->]; done|]. intros [[(body & Hp & Hb) Hr]|[Hp Hr]] Ha; (split; [done|]).
  - left. rewrite Hr, Hp in Ha. injection Ha as <- <-. split; [done|]. exists body. by split_and!.
  - right. rewrite Ha in Hr. apply list.Forall_cons in Hr as [-> Hr]. split; [done|]. right. by split.
Qed.

Lemma inside_acts t th before a rest s s' : inside th before -> th_rest th = a :: rest -> perform t a s = Some s' -> st_owner s = Some t ->
  (a = Unlock /\ rest = [] /\ locked (th_prog th) /\ outs (th_prog th) = outs before /\ st_owner s' = None /\ st_out s' = st_out s) \/
  (inside (with_rest th rest) (before ++ [a]) /\ st_owner s' = Some t /\ st_out s' = st_out s ++ outs [a]).
Proof.
  intros (after & Hin & Hp & Hr) Ha Hs Ho. rewrite Hr in Ha. destruct after as [|a' after]; cbn in Ha; injection Ha as <- <-.
  - left. rewrite app_nil_r in Hin. split_and!; try done; [by exists before|by rewrite Hp; apply outs_locked| |];
      cbn in Hs; rewrite decide_True in Hs by done; by injection Hs as <-.
  - right. apply Forall_app in Hin as [Hb [[Hl Hu] Ha]%list.Forall_cons]. split; [exists after; cbn; rewrite Hp, <-!app_assoc; split_and!; [|done|done];
      apply Forall_app; split; [done|by apply List.Forall_cons]|].
    destruct a'; try done; injection Hs as <-; cbn; (split; [done|]); [by rewrite app_nil_r|done].
Qed.

Lemma perform_threads t a s s' : perform t a s = Some s' -> st_threads s' = st_threads s.
Proof. destruct a; cbn; repeat case_match; intros [= <-]; done. Qed.

(** The other threads, while [t] acts. *)
Lemma lookup_rest (ths : list thread) (t : nat) th rest u thu : ths !! t = Some th -> <[t := with_rest th rest]> ths !! u = Some thu ->
  (u = t /\ thu = with_rest th rest) \/ (u <> t /\ ths !! u = Some thu).
Proof.
  intros Ht Hu. destruct (decide (u = t)) as [->|Hne]; [|right; by rewrite list_lookup_insert_ne in Hu].
  rewrite list_lookup_insert_eq in Hu by (by eapply lookup_lt_Some). injection Hu as <-. by left.
Qed.

Lemma owner_step s fin t th a rest s' : invariant s fin -> st_owner s = Some t ->
  st_threads s !! t = Some th -> th_rest th = a :: rest -> perform t a s = Some s' ->
  exists fin', invariant (State (st_owner s') (<[t := with_rest th rest]> (st_threads s')) (st_subscribed s') (st_out s')) fin' /\
    ((st_owner s' = Some t /\ fin' = fin) \/ (st_owner s' = None /\ fin' = fin ++ [t])).
Proof.
  intros [Hnd Hfin Hap Hown] Ho Ht Hr Hp. rewrite Ho in Hown. destruct Hown as (Hn & th0 & before & Ht0 & Hin & Hout).
  rewrite Ht in Ht0. injection Ht0 as <-. rewrite (perform_threads _ _ _ _ Hp).
  destruct (inside_acts _ _ _ _ _ _ _ Hin Hr Hp Ho) as [(-> & -> & Hlk & Hb & Ho' & Hout')|(Hin' & Ho' & Hout')].
  - exists (fin ++ [t]). split; [|by right]. split; cbn.
    + apply list.NoDup_app. split_and!; [done|intros u Hu ->%list_elem_of_singleton; done|apply NoDup_singleton].
    + intros u [?%Hfin| ->%list_elem_of_singleton]%elem_of_app; rewrite length_insert; [done|by eapply lookup_lt_Some].
    + intros u thu Hu _. destruct (lookup_rest _ _ _ _ _ _ Ht Hu) as [[-> ->]|[Hne Hu']].
      * unfold apart. rewrite decide_True; [by split|]. apply elem_of_app. right. by apply list_elem_of_singleton.
      * apply apart_other; [done|]. apply Hap; [done|]. congruence.
    + rewrite Ho', Hout', Hout, (written_insert _ _ _ _ _ Ht), written_app. f_equal. unfold written. cbn. by rewrite Ht, app_nil_r.
  - exists fin. split; [|by left]. split; cbn; [done|intros u ?%Hfin; by rewrite length_insert| |].
    + intros u thu Hu Hne. rewrite Ho' in Hne. destruct (lookup_rest _ _ _ _ _ _ Ht Hu) as [[-> ->]|[Hne' Hu']]; [done|].
      apply Hap; [done|]. congruence.
    + rewrite Ho'. split; [done|]. exists (with_rest th rest), (before ++ [a]). rewrite list_lookup_insert_eq by (by eapply lookup_lt_Some).
      split_and!; [done..|]. by rewrite Hout', Hout, (written_insert _ _ _ _ _ Ht), outs_app, app_assoc.
Qed.

Lemma other_step s fin t th a rest s' : invariant s fin -> st_owner s <> Some t ->
  st_threads s !! t = Some th -> th_rest th = a :: rest -> perform t a s = Some s' ->
  invariant (State (st_owner s') (<[t := with_rest th rest]> (st_threads s')) (st_subscribed s') (st_out s')) fin.
Proof.
  intros [Hnd Hfin Hap Hown] Ho Ht Hr Hp. rewrite (perform_threads _ _ _ _ Hp).
  destruct (apart_acts _ _ _ _ _ (Hap _ _ Ht Ho) Hr) as [Hn [[-> Hin]|[-> Hsub]]]; cbn in Hp.
  - destruct (st_owner s) as [?|] eqn:Hs; [done|]. injection Hp as <-. split; cbn; [done|intros u ?%Hfin; by rewrite length_insert| |].
    + intros u thu Hu Hne. destruct (lookup_rest _ _ _ _ _ _ Ht Hu) as [[-> ->]|[Hne' Hu']]; [done|]. by apply Hap.
    + split; [done|]. exists (with_rest th rest), []. rewrite list_lookup_insert_eq by (by eapply lookup_lt_Some).
      split_and!; [done..|]. by rewrite Hown, (written_insert _ _ _ _ _ Ht), app_nil_r.
  - injection Hp as <-. split; cbn; [done|intros u ?%Hfin; by rewrite length_insert| |].
    + intros u thu Hu Hne. destruct (lookup_rest _ _ _ _ _ _ Ht Hu) as [[-> ->]|[Hne' Hu']]; [done|]. by apply Hap.
    + rewrite (written_insert _ _ _ _ _ Ht). destruct (st_owner s) as [u|]; [|done]. destruct Hown as (Hu & thu & before & Hthu & Hrest).
      split; [done|]. exists thu, before. split; [|done]. rewrite list_lookup_insert_ne by congruence. done.
Qed.

Context (handler : L -> list action -> Prop) (handler_locked : forall l p, handler l p -> locked p).

Lemma event_step s fin l p : invariant s fin -> handler l p ->
  invariant (State (st_owner s) (st_threads s ++ [Thread l p p]) (st_subscribed s) (st_out s)) fin.
Proof.
  intros [Hnd Hfin Hap Hown] Hh. split; cbn; [done|intros t ?%Hfin; rewrite length_app; cbn; lia| |].
  - intros t th [Hl|[Hl Hth]]%lookup_app_Some; [by apply Hap|]. intros _. apply list_lookup_singleton_Some in Hth as [Hz <-].
    unfold apart. rewrite decide_False by (intros ?%Hfin; lia). left. cbn. split; [by eapply handler_locked|done].
  - assert (written (st_threads s ++ [Thread l p p]) fin = written (st_threads s) fin) as ->.
    { apply written_progs. intros t Hl%Hfin. by rewrite lookup_app_l. }
    destruct (st_owner s) as [t|]; [|done]. destruct Hown as (Hn & th & before & Ht & Hrest). split; [done|].
    exists th, before. split; [by apply lookup_app_l_Some|done].
Qed.

Lemma step_invariant s s' fin : step handler s s' -> invariant s fin -> exists fin', invariant s' fin'.
Proof.
  intros Hstep Hinv. destruct Hstep as [s t th a rest s' Ht Hr Hp|s l p Hsub Hh].
  - destruct (decide (st_owner s = Some t)) as [Ho|Ho].
    + destruct (owner_step _ _ _ _ _ _ _ Hinv Ho Ht Hr Hp) as (fin' & Hinv' & _). by exists fin'.
    + exists fin. by eapply other_step.
  - exists fin. by apply event_step.
Qed.

(** ** Runs *)

(** The first thread was started to do [p], the others are handlers. *)
Definition started (l : L) (p : list action) (s : state) : Prop :=
  exists th ths, st_threads s = th :: ths /\ th_label th = l /\ th_prog th = p /\ Forall (fun th => handler (th_label th) (th_prog th)) ths.

(** When the subscription is inside its program, the first thread is the first to have the mutex. *)
Definition first (s : state) (fin : list nat) : Prop :=
  match fin, st_owner s with
  | t :: _, _ => t = 0%nat
  | [], Some t => t = 0%nat
  | [], None => st_subscribed s = false /\ length (st_threads s) = 1%nat
  end.

Lemma started_step l p s s' : started l p s -> step handler s s' -> started l p s'.
Proof.
  intros (th & ths & Hs & Hl & Hp & Hh) Hstep. destruct Hstep as [s t thu a rest s' Ht Hr Hperf|s l' p' Hsub Hh'].
  - unfold started. cbn. rewrite (perform_threads _ _ _ _ Hperf). rewrite Hs in *. destruct t as [|t]; cbn in *.
    + injection Ht as <-. by exists (with_rest th rest), ths.
    + exists th, (<[t := with_rest thu rest]> ths). split_and!; [done..|]. apply Forall_insert; [done|].
      exact (proj1 (Forall_lookup _ _) Hh _ _ Ht).
  - unfold started. cbn. rewrite Hs. exists th, (ths ++ [Thread l' p' p']). split_and!; [done..|]. apply Forall_app. split; [done|]. by constructor.
Qed.

Lemma started_locked l p s t th : locked p -> started l p s -> st_threads s !! t = Some th -> locked (th_prog th).
Proof.
  intros Hp (th0 & ths & Hs & _ & <- & Hh) Ht. rewrite Hs in Ht. destruct t as [|t]; [by injection Ht as <-|].
  eapply handler_locked. exact (proj1 (Forall_lookup _ _) Hh _ _ Ht).
Qed.

Lemma locked_silent p : locked p -> Forall silent p -> False.
Proof. intros (body & -> & _) [? _]%list.Forall_cons. done. Qed.

Lemma step_first l p s s' fin : locked p -> started l p s -> invariant s fin -> first s fin -> step handler s s' ->
  exists fin', invariant s' fin' /\ first s' fin'.
Proof.
  intros Hp Hst Hinv Hf Hstep. destruct Hstep as [s t th a rest s' Ht Hr Hperf|s l' p' Hsub Hh'].
  2:{ exists fin. split; [by apply event_step|]. unfold first in *. cbn. destruct fin; [|done]. destruct (st_owner s); [done|]. destruct Hf. congruence. }
  destruct (decide (st_owner s = Some t)) as [Ho|Ho].
  - destruct (owner_step _ _ _ _ _ _ _ Hinv Ho Ht Hr Hperf) as (fin' & Hinv' & Hfin'). exists fin'. split; [done|].
    unfold first in *. rewrite Ho in Hf. cbn. destruct Hfin' as [[-> ->]|[-> ->]]; by destruct fin.
  - exists fin. split; [by eapply other_step|].
    destruct (apart_acts _ _ _ _ _ (inv_apart _ _ Hinv _ _ Ht Ho) Hr) as [Hn [[-> Hin]|[-> Hsub]]]; cbn in Hperf.
    + destruct (st_owner s) eqn:Hs; [done|]. injection Hperf as <-. unfold first in *. cbn. rewrite Hs in Hf. destruct fin; [|done].
      destruct Hf as [_ Hlen]. apply lookup_lt_Some in Ht. lia.
    + exfalso. pose proof (started_locked _ _ _ _ _ Hp Hst Ht) as Hlk. pose proof (inv_apart _ _ Hinv _ _ Ht Ho) as Hap. unfold apart in Hap.
      rewrite decide_False in Hap by done. destruct Hap as [[_ Hr']|[Hsil _]]; [|by eapply locked_silent].
      rewrite Hr' in Hr. destruct Hlk as (body & Hb & _). by rewrite Hb in Hr.
Qed.

(** Whatever the threads do, the invariant holds; the first thread comes first when it locks. *)
Lemma reach_invariant l p s : locked p \/ Forall silent p -> rtc (step handler) (begin l p) s ->
  exists fin, invariant s fin /\ started l p s /\ (locked p -> first s fin).
Proof.
  intros Hp. revert s. apply (rtc_ind_r (R := step handler) (fun s => exists fin, invariant s fin /\ started l p s /\ (locked p -> first s fin)) (begin l p)).
  - exists []. split; [by apply begin_invariant|]. split; [|done]. by exists (Thread l p p), [].
  - intros s1 s2 _ Hstep (fin & Hinv & Hst & Hf). pose proof (started_step _ _ _ _ Hst Hstep) as Hst'. destruct Hp as [Hlk|Hsil].
    + destruct (step_first _ _ _ _ _ Hlk Hst Hinv (Hf Hlk) Hstep) as (fin' & Hinv' & Hf'). by exists fin'.
    + destruct (step_invariant _ _ _ Hstep Hinv) as (fin' & Hinv'). exists fin'. split_and!; [done..|]. intros Hlk. by destruct (locked_silent p).
Qed.

(** Whenever a thread has something left to do, some thread can act. *)
Lemma progress s fin : invariant s fin -> (exists t th, st_threads s !! t = Some th /\ th_rest th <> []) -> exists s', step handler s s'.
Proof.
  intros [Hnd Hfin Hap Hown] (t & th & Ht & Hne). destruct (st_owner s) as [u|] eqn:Ho.
  - destruct Hown as (_ & thu & before & Hu & (after & Hin & _ & Hr) & _).
    destruct after as [|a after]; [|apply Forall_app in Hin as [_ [[Hl Hul] _]%list.Forall_cons]].
    + eexists. eapply (step_thread _ s u thu Unlock []); [done|done|]. cbn. by rewrite decide_True.
    + destruct a; try done; eexists; eapply (step_thread _ s u thu _ (after ++ [Unlock])); done.
  - destruct (th_rest th) as [|a rest] eqn:Hr; [done|]. destruct (apart_acts _ _ _ _ _ (Hap _ _ Ht ltac:(done)) Hr) as [_ [[-> _]|[-> _]]];
      eexists; eapply (step_thread _ s t th _ rest); try done. cbn. by rewrite Ho.
Qed.
End threads.
Arguments action O : clear implicits.
Arguments thread L O : clear implicits.
Arguments state L O : clear implicits.
