(* ===== verification/SyseventRun.v ===== *)
(** * SyseventRun: the threads of [sysevent]

    What a thread of the program does that others can see ([acts]) is read off the calls of
    [Sysevent]; [Threads] puts the main thread and the handlers together.  [SysEnv] is what the
    program relies on of libnvpair, libsysevent and the kernel. *)
From Stdlib Require Import Lia.
From stdpp Require Import relations.
From S2P Require Import Prelude Strset Cnum Sys Nvlist NvOut Fswatcher FswatcherEnv Tools Moves NvStore Sysevent Threads.

(** What is written to the standard output. *)
Inductive output := OutList (json : bool) (l : list (cstr * nvval)) | OutText (s : cstr) | OutFlush.

(** A call, as the other threads see it. *)
Definition act_of (name : string) (args : list sarg) : list (action output) :=
  if decide (name = "mutex_lock"%string) then [Lock]
  else if decide (name = "mutex_unlock"%string) then [Unlock]
  else if decide (name = "sysevent_subscribe_event"%string \/ name = "sysevent_evc_subscribe"%string) then [Subscribe]
  else if decide (name = "printf"%string) then match args with [AS s] => [Out (OutText s)] | _ => [] end
  else if decide (name = "fflush"%string) then [Out OutFlush]
  else [].

Definition lists_out (ps : nvprinted) : list (action output) := (fun p => Out (OutList p.1 p.2)) <$> ps.

Class SysEnv (E : Type) `{NvOutLaws E} `{SE : !SysEvents E} `{Kernel E} := {
  acts : E -> list (action output);
  quiet_acts e e' ps : quiet e e' -> nv_printed e' = nv_printed e ++ ps -> acts e' = acts e ++ lists_out ps;
  call_acts name args e r e' : sys_step name args e = (r, e') -> acts e' = acts e ++ act_of name args;
  call_nvs name args e r e' ls : sys_step name args e = (r, e') -> nvs ls e -> nvs ls e';
  call_time args e r e' : sys_step "gettimeofday" args e = (r, e') ->
    sr_ret r = 0 /\ exists sec usec, sr_vals r = [sec; usec] /\ is_Some (date_of sec usec);
  call_bind args e r e' : sys_step "sysevent_bind_handle" args e = (r, e') -> sr_ret r <> 0;
  call_evc_bind args e r e' : sys_step "sysevent_evc_bind" args e = (r, e') -> sr_ret r = 0 /\ is_Some (head (sr_vals r));
  call_subscribe name args e r e' : name ∈ ["sysevent_subscribe_event"; "sysevent_evc_subscribe"]%string ->
    sys_step name args e = (r, e') -> sr_ret r = 0;
  attr_list ev ls (w : world E) : good w -> nvs ls (w_env w) ->
    wp (sysevent_get_attr_list ev) (fun r w' => r.1 = 0 /\ good w' /\ kept quiet nv_printed (w_env w) (w_env w') /\
      match sev_attrs ev with None => r.2 = None /\ nvs ls (w_env w') | Some d => exists h, r.2 = Some h /\ nvs ((h, d) :: ls) (w_env w') end) w
}.

(** ** What is printed *)

Definition ready_pairs (date : cstr) : nvpairs := [(cs "date", NvString date); (cs "type", NvString (cs "ready"))].

(** An event, as it is printed; libsysevent knows its names. *)
Definition event_pairs (date : cstr) (ev : sysevent_t) (channel : option cstr) : nvpairs :=
  [(cs "date", NvString date); (cs "type", NvString (cs "event")); (cs "vendor", NvString (default [] (sev_vendor ev)));
   (cs "publisher", NvString (default [] (sev_pub ev))); (cs "class", NvString (default [] (sev_class ev)));
   (cs "subclass", NvString (default [] (sev_subclass ev))); (cs "pid", NvInt32 (sev_pid ev))] ++
  match sev_attrs ev with Some d => [(cs "data", NvNvlist d)] | None => [] end ++
  match channel with Some c => [(cs "channel", NvString c)] | None => [] end.

Definition named (ev : sysevent_t) : Prop :=
  is_Some (sev_vendor ev) /\ is_Some (sev_pub ev) /\ is_Some (sev_class ev) /\ is_Some (sev_subclass ev).

(** A list, a line feed, and all of it on its way. *)
Definition record (o : opts) (l : nvpairs) : list output := [OutList (opt_j o) l; OutText [LF]; OutFlush].
Definition record_acts (o : opts) (l : nvpairs) : list (action output) := Out <$> record o l.

(** What a handler does, and the main thread. *)
Definition handler_acts (o : opts) (l : nvpairs) : list (action output) := Lock :: record_acts o l ++ [Unlock].
Definition main_acts (o : opts) (l : nvpairs) : list (action output) :=
  if opt_r o then Lock :: (Subscribe :: record_acts o l) ++ [Unlock] else [Subscribe].

Section sysevent.
Context {E : Type} `{SysEnv E} (strerror : Z -> cstr) (progname : cstr).
Implicit Types w : world E.

(** From [w0] to [w] this was done. *)
Definition doing (a : list (action output)) w0 w : Prop := good w /\ acts (w_env w) = acts (w_env w0) ++ a.

Lemma doing_nil w : good w -> doing [] w w.
Proof. intros Hg. split; [done|by rewrite app_nil_r]. Qed.
Lemma doing_app a b w0 w w' : doing a w0 w -> doing b w w' -> doing (a ++ b) w0 w'.
Proof. intros [_ Ha] [? Hb]. split; [done|by rewrite Hb, Ha, app_assoc]. Qed.
Lemma kept_acts e e' : kept quiet nv_printed e e' -> acts e' = acts e.
Proof. intros [Hq Hp]. rewrite (quiet_acts e e' []), app_nil_r; [done|done|by rewrite app_nil_r]. Qed.
Lemma doing_kept a w0 w w' : doing a w0 w -> good w' -> kept quiet nv_printed (w_env w) (w_env w') -> doing a w0 w'.
Proof. intros [_ Ha] Hg Hk. split; [done|]. by rewrite (kept_acts _ _ Hk). Qed.

Lemma doing_call a w0 w name args r e' :
  doing a w0 w -> sys_step name args (w_env w) = (r, e') ->
  doing (a ++ act_of name args) w0 (World (if sr_ret r =? -1 then sr_errno r else w_errno w) (w_heap w) (w_stderr w) e').
Proof. intros [Hg Ha] Hs. split; [done|]. cbn. by rewrite (call_acts _ _ _ _ _ Hs), Ha, app_assoc. Qed.

(** A call whose result does not matter. *)
Lemma sys_any {A} name args (k : Z -> C E A) Q a w0 w ls :
  doing a w0 w -> nvs ls (w_env w) ->
  (forall r w', doing (a ++ act_of name args) w0 w' -> nvs ls (w_env w') -> wp (k r) Q w') -> wp (sys name args ≫= k) Q w.
Proof.
  intros Hd Hn Hk. apply wp_bind. destruct (sys_step name args (w_env w)) as [r e'] eqn:Hs. eapply wp_sys; [exact Hs|].
  apply Hk; [by eapply doing_call|by eapply call_nvs].
Qed.

(** A pair is added to a list held, and the call checked. *)
Lemma sysevent_pair {A} k v op text l1 h l l2 (rest : C E A) Q a w0 w :
  nv_adds nvs quiet nv_printed k v op -> doing a w0 w -> nvs (l1 ++ (h, l) :: l2) (w_env w) ->
  (forall w', doing a w0 w' -> nvs (l1 ++ (h, nv_put k v l) :: l2) (w_env w') -> wp rest Q w') ->
  wp (r ← op h; ENSURE0 strerror progname r text ;; rest) Q w.
Proof.
  intros Hop Hd Hh Hk. apply wp_bind. eapply wp_mono; [by eapply Hop; [apply Hd|]|].
  intros r w' (-> & Hg & Hq & Hh'). apply wp_bind, wp_ret. apply Hk; [by eapply doing_kept|done].
Qed.

Lemma add_string_pair {A} k var s l1 h l l2 (rest : C E A) Q a w0 w :
  doing a w0 w -> nvs (l1 ++ (h, l) :: l2) (w_env w) ->
  (forall w', doing a w0 w' -> nvs (l1 ++ (h, nv_put (cs k) (NvString s) l) :: l2) (w_env w') -> wp rest Q w') ->
  wp (add_string strerror progname h k var s ;; rest) Q w.
Proof.
  intros Hd Hh Hk. unfold add_string. apply wp_bind, wp_bind. eapply wp_mono; [by eapply nvs_add_string; [apply Hd|]|].
  intros r w' (-> & Hg & Hq & Hh'). apply wp_ret. apply Hk; [by eapply doing_kept|done].
Qed.

Lemma sysevent_make_nvlist type ls a w0 w (Q : nvlist_t -> world E -> Prop) :
  doing a w0 w -> nvs ls (w_env w) ->
  (forall h date w', doing a w0 w' -> nvs ((h, [(cs "date", NvString date); (cs "type", NvString type)]) :: ls) (w_env w') -> Q h w') ->
  wp (make_nvlist strerror progname type) Q w.
Proof.
  intros Hd Hn HQ. unfold make_nvlist. apply wp_bind. eapply wp_mono; [by apply nvs_alloc; [apply Hd|]|].
  intros r w1 (Hg1 & Hk1 & h & -> & Hh). cbn beta iota. apply wp_bind, wp_ret. apply wp_bind. eapply wp_access; [done|].
  pose proof (doing_kept _ _ _ _ Hd Hg1 Hk1) as Hd1. apply wp_bind.
  destruct (sys_step "gettimeofday" [] (w_env w1)) as [t e'] eqn:Ht. eapply wp_syscall; [exact Ht|].
  destruct (call_time _ _ _ _ Ht) as (Hr & sec & usec & Hv & date & Hdate). pose proof (doing_call _ _ _ _ _ _ _ Hd1 Ht) as Hd2.
  change (act_of "gettimeofday" []) with (@nil (action output)) in Hd2. rewrite app_nil_r in Hd2. pose proof (call_nvs _ _ _ _ _ _ Ht Hh) as Hh2. rewrite Hr in *.
  cbn [Z.eqb negb]. apply wp_bind, wp_ret. apply wp_bind. eapply wp_access; [by rewrite Hv|]. apply wp_bind. eapply wp_access; [by rewrite Hv|].
  unfold date_of in Hdate. destruct (gmtime sec) as [gmt|]; [|done]. cbn [mbind option_bind] in Hdate. destruct (strftime 128 gmt) as [text|]; [|done].
  apply wp_bind. replace (Zlen _ =? 0) with false.
  2:{ symmetry. apply Z.eqb_neq. rewrite Zlen_app. change (Zlen (cs ".")) with 1. pose proof (Zlen_nonneg (pad0 3 (print_d (usec `quot` 1000)) ++ cs "Z")). lia. }
  apply wp_ret. cbv zeta. match goal with |- context [add_string _ _ h "date" "date" ?d] => replace d with date by congruence end.
  eapply (add_string_pair "date" "date" date [] h [] ls); [exact Hd2|done|].
  intros w3 Hd3 Hn3. eapply (add_string_pair "type" "type" type [] h _ ls); [exact Hd3|exact Hn3|].
  intros w4 Hd4 Hn4. apply wp_ret. apply (HQ h date); [exact Hd4|exact Hn4].
Qed.

(** The list printed, with the line feed, and flushed. *)
Lemma print_nvlist_spec o h l1 l l2 a w0 w (Q : () -> world E -> Prop) :
  doing a w0 w -> nvs (l1 ++ (h, l) :: l2) (w_env w) ->
  (forall w', doing (a ++ record_acts o l) w0 w' -> nvs (l1 ++ (h, l) :: l2) (w_env w') -> Q tt w') ->
  wp (print_nvlist o h) Q w.
Proof.
  intros Hd Hn HQ. unfold print_nvlist. apply wp_bind.
  assert (nv_prints nvs quiet nv_printed (opt_j o) (fun h => if opt_j o then nvlist_print_json h else nvlist_print h)) as Hpr
    by (destruct (opt_j o); [apply nvs_print_json|apply nvs_print]).
  eapply wp_mono; [by eapply Hpr; [apply Hd|]|]. intros _ w1 (Hg1 & Hq & Hp & Hn1).
  assert (doing (a ++ lists_out [(opt_j o, l)]) w0 w1) as Hd1 by (eapply doing_app; [exact Hd|]; split; [done|by apply quiet_acts]).
  eapply sys_any; [exact Hd1|exact Hn1|]. intros _ w2 Hd2 Hn2. eapply sys_any; [exact Hd2|exact Hn2|]. intros _ w3 Hd3 Hn3.
  apply wp_ret, HQ; [|done]. by rewrite <-!app_assoc in Hd3.
Qed.

Lemma sysevent_free {A} h l1 l l2 (k : C E A) a w0 w Q :
  doing a w0 w -> nvs (l1 ++ (h, l) :: l2) (w_env w) -> (forall w', doing a w0 w' -> nvs (l1 ++ l2) (w_env w') -> wp k Q w') ->
  wp (nvlist_free h ;; k) Q w.
Proof.
  intros Hd Hn Hk. apply wp_bind. eapply wp_mono; [by eapply nvs_free; [apply Hd|]|]. intros [] w' (Hg & Hkept & Hn').
  apply Hk; [by eapply doing_kept|done].
Qed.

(** The list of the attributes, if there are any. *)
Definition data_list (attrs : option nvpairs) (ev' : option nvlist_t) : list (nvlist_t * nvpairs) :=
  match attrs, ev' with Some d, Some he => [(he, d)] | _, _ => [] end.

Lemma data_spec {A} (attrs : option nvpairs) ev' text h l (k : C E A) a w0 w Q :
  doing a w0 w -> nvs (data_list attrs ev' ++ [(h, l)]) (w_env w) ->
  match attrs, ev' with Some _, Some _ | None, None => True | _, _ => False end -> existsb (fun p => bool_decide (p.1 = cs "data")) l = false ->
  (forall w', doing a w0 w' ->
     nvs (data_list attrs ev' ++ [(h, l ++ match attrs with Some d => [(cs "data", NvNvlist d)] | None => [] end)]) (w_env w') ->
     wp k Q w') ->
  wp (match ev' with Some evnvl => r ← nvlist_add_nvlist h (cs "data") evnvl; ENSURE0 strerror progname r text | None => mret tt end ;; k) Q w.
Proof.
  intros Hd Hn Hat Hl Hk. apply wp_bind. destruct attrs as [d|], ev' as [he|]; try done.
  - apply wp_bind. eapply wp_mono; [eapply nvs_add_nvlist; [apply Hd|exact Hn]|]. intros r w' (-> & Hg & Hkept & Hn'). apply wp_ret.
    apply Hk; [by eapply doing_kept|]. by rewrite nv_put_fresh in Hn'.
  - apply wp_ret. apply Hk; [done|]. by rewrite app_nil_r.
Qed.

Lemma channel_spec {A} (channel : option cstr) l1 h l (k : C E A) a w0 w Q :
  doing a w0 w -> nvs (l1 ++ [(h, l)]) (w_env w) -> existsb (fun p => bool_decide (p.1 = cs "channel")) l = false ->
  (forall w', doing a w0 w' -> nvs (l1 ++ [(h, l ++ match channel with Some c => [(cs "channel", NvString c)] | None => [] end)]) (w_env w') -> wp k Q w') ->
  wp (match channel with Some channel => add_string strerror progname h "channel" "channel" channel | None => mret tt end ;; k) Q w.
Proof.
  intros Hd Hn Hl Hk. destruct channel as [c|].
  - eapply add_string_pair; [done|done|]. intros w' Hd' Hn'. apply Hk; [done|]. by rewrite nv_put_fresh in Hn'.
  - apply wp_bind, wp_ret. apply Hk; [done|]. by rewrite app_nil_r.
Qed.

Lemma mutex_lock_spec {A} (k : C E A) a w0 w ls Q :
  doing a w0 w -> nvs ls (w_env w) -> (forall w', doing (a ++ [Lock]) w0 w' -> nvs ls (w_env w') -> wp k Q w') -> wp (mutex_lock ;; k) Q w.
Proof.
  intros Hd Hn Hk. unfold mutex_lock. apply wp_bind. eapply sys_any; [exact Hd|exact Hn|]. intros _ w1 Hd1 Hn1. by apply wp_ret, Hk.
Qed.
Lemma mutex_unlock_spec {A} (k : C E A) a w0 w ls Q :
  doing a w0 w -> nvs ls (w_env w) -> (forall w', doing (a ++ [Unlock]) w0 w' -> nvs ls (w_env w') -> wp k Q w') -> wp (mutex_unlock ;; k) Q w.
Proof.
  intros Hd Hn Hk. unfold mutex_unlock. apply wp_bind. eapply sys_any; [exact Hd|exact Hn|]. intros _ w1 Hd1 Hn1. by apply wp_ret, Hk.
Qed.

Lemma free_data_spec {A} attrs ev' ls (k : C E A) a w0 w Q :
  doing a w0 w -> nvs (data_list attrs ev' ++ ls) (w_env w) ->
  match attrs, ev' with Some _, Some _ | None, None => True | _, _ => False end ->
  (forall w', doing a w0 w' -> nvs ls (w_env w') -> wp k Q w') ->
  wp (match ev' with Some evnvl => nvlist_free evnvl | None => mret tt end ;; k) Q w.
Proof.
  intros Hd Hn Hat Hk. destruct attrs as [d|], ev' as [he|]; try done.
  - eapply (sysevent_free he [] d ls); [exact Hd|exact Hn|exact Hk].
  - apply wp_bind, wp_ret. by apply Hk.
Qed.

(** An event whose names are known is printed as one record, while the mutex is held. *)
Lemma process_event_spec o ev channel w : named ev -> good w -> nvs [] (w_env w) ->
  wp (process_event strerror progname o ev channel) (fun _ w' => exists date, doing (handler_acts o (event_pairs date ev channel)) w w') w.
Proof.
  intros ([vendor Hv] & [pub Hp] & [class Hc] & [subclass Hs]) Hg Hn. unfold process_event, event_pairs. rewrite Hv, Hp, Hc, Hs. apply wp_bind.
  eapply sysevent_make_nvlist; [by apply doing_nil|done|]. intros h date w1 Hd1 Hn1. apply wp_bind.
  eapply wp_mono; [by apply attr_list; [apply Hd1|]|]. intros [r ev'] w2 (Hr & Hg2 & Hk2 & Hat). cbn [fst snd] in Hr, Hat. rewrite Hr. cbn [Z.eqb negb].
  pose proof (doing_kept _ _ _ _ Hd1 Hg2 Hk2) as Hd2. apply wp_bind, wp_ret.
  set (l1 := data_list (sev_attrs ev) ev').
  assert (nvs (l1 ++ (h, [(cs "date", NvString date); (cs "type", NvString (cs "event"))]) :: []) (w_env w2)) as Hn2.
  { unfold l1, data_list. destruct (sev_attrs ev) as [d|]; [by destruct Hat as (he & -> & ?)|by destruct Hat]. }
  do 4 (eapply add_string_pair; [eassumption|eassumption|]; clear Hn2; intros ? ? Hn2; rewrite nv_put_fresh in Hn2 by reflexivity; cbn [app] in Hn2).
  eapply (sysevent_pair (cs "pid") (NvInt32 (sev_pid ev)) (fun h => nvlist_add_int32 h (cs "pid") (sev_pid ev)) _); [apply nvs_add_int32|eassumption|eassumption|].
  clear Hn2. intros w3 Hd3 Hn3. rewrite nv_put_fresh in Hn3 by reflexivity. cbn [app] in Hn3.
  eapply (data_spec (sev_attrs ev) ev'); [exact Hd3|exact Hn3|by destruct (sev_attrs ev); [destruct Hat as (he & -> & _)|destruct Hat as [-> _]]|reflexivity|]. clear Hn3.
  intros w4 Hd4 Hn4. fold l1 in Hn4. cbn [app] in Hn4.
  eapply channel_spec; [exact Hd4|exact Hn4|by destruct (sev_attrs ev)|]. clear Hn4. intros w5 Hd5 Hn5. cbn [app] in Hn5.
  eapply mutex_lock_spec; [exact Hd5|exact Hn5|]. intros w6 Hd6 Hn6. apply wp_bind. eapply print_nvlist_spec; [exact Hd6|exact Hn6|]. intros w7 Hd7 Hn7.
  eapply mutex_unlock_spec; [exact Hd7|exact Hn7|]. intros w8 Hd8 Hn8.
  eapply (free_data_spec (sev_attrs ev) ev'); [exact Hd8|exact Hn8|by destruct (sev_attrs ev); [destruct Hat as (he & -> & _)|destruct Hat as [-> _]]|].
  intros w9 Hd9 Hn9. eapply wp_mono; [by eapply (nvs_free [] _ _ []); [apply Hd9|]|]. intros _ w10 (Hg10 & Hk10 & _). exists date.
  pose proof (doing_kept _ _ _ _ Hd9 Hg10 Hk10) as Hd10. unfold handler_acts. cbn [app] in Hd10 |- *. by rewrite app_assoc in Hd10 || done.
Qed.

(** *** The main thread *)

Lemma register_spec (channel : option cstr) class subclasses ls a w0 w :
  doing a w0 w -> nvs ls (w_env w) ->
  wp (match channel with Some channel => sysevc_register strerror progname channel class | None => sysev_register strerror progname class subclasses end)
    (fun _ w' => doing (a ++ [Subscribe]) w0 w' /\ nvs ls (w_env w')) w.
Proof.
  intros Hd Hn. destruct channel as [channel|].
  - unfold sysevc_register. apply wp_bind. destruct (sys_step "sysevent_evc_bind" [AS channel; AZ 0] (w_env w)) as [r e'] eqn:Hs.
    eapply wp_syscall; [exact Hs|]. destruct (call_evc_bind _ _ _ _ Hs) as [Hr [ch Hch]]. pose proof (doing_call _ _ _ _ _ _ _ Hd Hs) as Hd1.
    pose proof (call_nvs _ _ _ _ _ _ Hs Hn) as Hn1. rewrite Hr in *. cbn [Z.eqb negb]. apply wp_bind, wp_ret. apply wp_bind. eapply wp_access; [exact Hch|].
    eapply sys_any; [exact Hd1|exact Hn1|]. intros pid w2 Hd2 Hn2. cbv zeta. apply wp_bind.
    match goal with |- wp (sys ?name ?args) _ _ => destruct (sys_step name args (w_env w2)) as [r3 e3] eqn:Hs3 end. eapply wp_sys; [exact Hs3|].
    pose proof (call_subscribe "sysevent_evc_subscribe" _ _ _ _ ltac:(by_decide) Hs3) as Hr3. pose proof (doing_call _ _ _ _ _ _ _ Hd2 Hs3) as Hd3. rewrite Hr3 in *. apply wp_ret.
    split; [|by eapply call_nvs]. by rewrite !app_nil_r in Hd3.
  - unfold sysev_register. apply wp_bind. destruct (sys_step "sysevent_bind_handle" [AS (cs "sysev_handler")] (w_env w)) as [r e'] eqn:Hs.
    eapply wp_sys; [exact Hs|]. pose proof (call_bind _ _ _ _ Hs) as Hr. pose proof (doing_call _ _ _ _ _ _ _ Hd Hs) as Hd1.
    pose proof (call_nvs _ _ _ _ _ _ Hs Hn) as Hn1. rewrite (proj2 (Z.eqb_neq _ 0)) by done. apply wp_bind, wp_ret. apply wp_bind.
    match goal with |- wp (sys ?name ?args) _ ?w => destruct (sys_step name args (w_env w)) as [r3 e3] eqn:Hs3 end. eapply wp_sys; [exact Hs3|].
    pose proof (call_subscribe "sysevent_subscribe_event" _ _ _ _ ltac:(by_decide) Hs3) as Hr3. pose proof (doing_call _ _ _ _ _ _ _ Hd1 Hs3) as Hd3. rewrite Hr3 in *. apply wp_ret.
    split; [|by eapply call_nvs]. by rewrite !app_nil_r in Hd3.
Qed.

Lemma listen_spec o channel class subclasses w : good w -> nvs [] (w_env w) ->
  wp (listen strerror progname o channel class subclasses) (fun _ w' => exists date, doing (main_acts o (ready_pairs date)) w w') w.
Proof.
  intros Hg Hn. unfold listen, main_acts. destruct (opt_r o).
  - eapply mutex_lock_spec; [by apply doing_nil|exact Hn|]. intros w1 Hd1 Hn1. apply wp_bind.
    eapply wp_mono; [by eapply register_spec|]. intros _ w2 [Hd2 Hn2]. apply wp_bind. eapply sysevent_make_nvlist; [exact Hd2|exact Hn2|].
    intros h date w3 Hd3 Hn3. apply wp_bind. eapply (print_nvlist_spec o h [] _ []); [exact Hd3|exact Hn3|]. intros w4 Hd4 Hn4.
    eapply mutex_unlock_spec; [exact Hd4|exact Hn4|]. intros w5 Hd5 Hn5. eapply wp_mono; [by eapply (nvs_free [] _ _ []); [apply Hd5|]|].
    intros _ w6 (Hg6 & Hk6 & _). exists date. exact (doing_kept _ _ _ _ Hd5 Hg6 Hk6).
  - apply wp_bind, wp_ret, wp_bind. eapply wp_mono; [by eapply register_spec; [apply doing_nil|]|]. intros _ w1 [Hd1 _]. apply wp_ret. exists []. exact Hd1.
Qed.

(** ** All the threads *)

(** A thread runs [m] in a world of its own, in which it does [a]. *)
Definition runs {A} (m : C E A) (a : list (action output)) : Prop :=
  exists w, good w /\ nvs [] (w_env w) /\ wp m (fun _ w' => acts (w_env w') = acts (w_env w) ++ a) w.

(** The handlers, by their events; an event without a name ends the process. *)
Definition handler_runs (o : opts) (channel : option cstr) (l : option sysevent_t) (a : list (action output)) : Prop :=
  match l with
  | None => False
  | Some ev => named ev /\
      match channel with None => runs (sysev_handler strerror progname o ev) a | Some c => runs (sysevc_handler strerror progname o ev c) a end
  end.

Lemma runs_spec {A B} (m : C E A) a (R : B -> list (action output)) :
  (forall w, good w -> nvs [] (w_env w) -> wp m (fun _ w' => exists b, doing (R b) w w') w) -> runs m a -> exists b, a = R b.
Proof.
  intros Hspec (w & Hg & Hn & Hm). specialize (Hspec w Hg Hn). unfold wp in *. destruct (m w) as [[x w']| | |]; try done.
  destruct Hspec as (b & _ & Hb). exists b. rewrite Hb in Hm. by apply app_inv_head in Hm.
Qed.

(** What a thread prints: the ready event, or an event. *)
Definition tells (channel : option cstr) (l : option sysevent_t) (pairs : nvpairs) : Prop :=
  exists date, pairs = match l with None => ready_pairs date | Some ev => event_pairs date ev channel end.

Lemma record_inner o l : Forall inner (record_acts o l).
Proof. unfold record_acts, record. repeat (apply List.Forall_cons; [done|]). constructor. Qed.

Lemma handler_locked o l : locked (handler_acts o l).
Proof. exists (record_acts o l). split; [done|apply record_inner]. Qed.

Lemma handler_runs_acts o channel l a : handler_runs o channel l a -> exists pairs, tells channel l pairs /\ a = handler_acts o pairs.
Proof.
  destruct l as [ev|]; [|done]. intros [Hname Hruns].
  assert (exists date, a = handler_acts o (event_pairs date ev channel)) as [date ->].
  { destruct channel as [c|]; (eapply runs_spec; [|exact Hruns]); intros w Hg Hn; cbn beta.
    - unfold sysevc_handler. apply wp_bind. eapply wp_mono; [by apply process_event_spec|]. intros ? w' Hw. by apply wp_ret.
    - by apply process_event_spec. }
  eexists. split; [by exists date|done].
Qed.

Lemma handler_runs_locked o channel l a : handler_runs o channel l a -> locked a.
Proof. intros (pairs & _ & ->)%handler_runs_acts. apply handler_locked. Qed.

Lemma outs_record o l : outs (record_acts o l) = record o l.
Proof. done. Qed.

(** The records of the threads [fin], one for each. *)
Lemma written_records o channel (ths : list (thread (option sysevent_t) output)) fin :
  (forall t, t ∈ fin -> exists th pairs, ths !! t = Some th /\ outs (th_prog th) = record o pairs /\ tells channel (th_label th) pairs) ->
  exists printed : list (option sysevent_t * nvpairs),
    written ths fin = concat (record o <$> printed.*2) /\ Forall (fun p => tells channel p.1 p.2) printed /\
    printed.*1 = (fun t => from_option th_label None (ths !! t)) <$> fin.
Proof.
  induction fin as [|t fin IH]; intros Hfin; [by exists []|].
  destruct IH as (printed & Hw & Htell & Hl); [intros u Hu; apply Hfin; by right|].
  destruct (Hfin t) as (th & pairs & Ht & Ho & Hr); [by left|]. exists ((th_label th, pairs) :: printed). split_and!.
  - change (t :: fin) with ([t] ++ fin). rewrite written_app, Hw. unfold written. cbn [fmap list_fmap concat]. rewrite Ht, app_nil_r. cbn [from_option].
    change ((outs ∘ th_prog) th) with (outs (th_prog th)). by rewrite Ho.
  - by apply List.Forall_cons.
  - cbn. by rewrite Ht, Hl.
Qed.

Lemma labels_seq (ths : list (thread (option sysevent_t) output)) :
  th_label <$> ths = (fun t => from_option th_label None (ths !! t)) <$> seq 0 (length ths).
Proof.
  apply list_eq. intros i. rewrite !list_lookup_fmap. destruct (decide (i < length ths)%nat) as [Hi|Hi].
  - rewrite lookup_seq_lt by done. cbn. by destruct (lookup_lt_is_Some_2 _ _ Hi) as [th ->].
  - by rewrite lookup_seq_ge, (proj2 (lookup_ge_None ths i)) by lia.
Qed.

(** Those that print: the handlers, and the main thread with [-r]. *)
Definition speakers (o : opts) (s : state (option sysevent_t) output) : list (option sysevent_t) :=
  (if opt_r o then id else tail) (th_label <$> st_threads s).

(** The indices of the speakers. *)
Definition speaking (o : opts) (s : state (option sysevent_t) output) : list nat :=
  if opt_r o then seq 0 (length (st_threads s)) else seq 1 (pred (length (st_threads s))).

Lemma elem_of_speaking o s t : t ∈ speaking o s <-> (t < length (st_threads s))%nat /\ (opt_r o = false -> t <> 0%nat).
Proof. unfold speaking. destruct (opt_r o); rewrite elem_of_seq; [naive_solver lia|]. split; [lia|]. intros [? Ht]. specialize (Ht eq_refl). lia. Qed.

Lemma speakers_seq o s : (0 < length (st_threads s))%nat ->
  speakers o s = (fun t => from_option th_label None (st_threads s !! t)) <$>
    speaking o s.
Proof.
  intros Hn. unfold speakers, speaking. rewrite labels_seq. destruct (opt_r o); [done|]. destruct (st_threads s); [cbn in Hn; lia|done].
Qed.

(** What the main thread does, and that what it prints is the ready event. *)
Lemma listen_acts o channel class subclasses a : runs (listen strerror progname o channel class subclasses) a ->
  if opt_r o then locked a /\ exists pairs, outs a = record o pairs /\ tells channel None pairs else a = [Subscribe].
Proof.
  intros Hruns. apply (runs_spec _ _ (fun date => main_acts o (ready_pairs date))) in Hruns as [date ->]; [|intros; by apply listen_spec].
  unfold main_acts. destruct (opt_r o); [|done]. split.
  - exists (Subscribe :: record_acts o (ready_pairs date)). split; [done|]. apply List.Forall_cons; [done|apply record_inner].
  - exists (ready_pairs date). split; [|by exists date]. by rewrite outs_locked.
Qed.

(** The threads that have printed, in order. *)
Lemma printers_record o channel class subclasses main s fin t : runs (listen strerror progname o channel class subclasses) main ->
  started (handler_runs o channel) None main s -> invariant s fin -> st_owner s = None -> t ∈ fin ->
  (opt_r o = false -> t <> 0%nat) /\
  exists th pairs, st_threads s !! t = Some th /\ outs (th_prog th) = record o pairs /\ tells channel (th_label th) pairs.
Proof.
  intros Hmain%listen_acts (th0 & ths & Hs & Hl & Hp & Hh) Hinv Ho Ht. destruct (lookup_lt_is_Some_2 _ _ (inv_fin _ _ Hinv _ Ht)) as [th Hth].
  assert (locked (th_prog th)) as Hlk.
  { pose proof (inv_apart _ _ Hinv _ _ Hth ltac:(by rewrite Ho)) as Hap. unfold apart in Hap. rewrite decide_True in Hap by done. by destruct Hap. }
  rewrite Hs in *. destruct t as [|t].
  - injection Hth as <-. rewrite Hp in Hlk. destruct (opt_r o).
    + split; [done|]. destruct Hmain as (_ & pairs & Houts & Htells). exists th0, pairs. by rewrite Hp, Hl.
    + subst main. by destruct Hlk as (body & [=] & _).
  - split; [done|]. destruct (handler_runs_acts _ _ _ _ (proj1 (Forall_lookup _ _) Hh _ _ Hth)) as (pairs & Htells & Hprog).
    exists th, pairs. rewrite Hprog. split_and!; [done| |done]. unfold handler_acts. by rewrite outs_locked.
Qed.

(** A thread that speaks and has nothing left to do has printed. *)
Lemma speaker_done o channel main s fin t : (if opt_r o then locked main else main = [Subscribe]) ->
  started (handler_runs o channel) None main s -> invariant s fin -> st_owner s = None ->
  Forall (fun th => th_rest th = []) (st_threads s) -> t ∈ speaking o s -> t ∈ fin.
Proof.
  intros Hmain Hst Hinv Ho Hdone [Hlt Ht]%elem_of_speaking. destruct (lookup_lt_is_Some_2 _ _ Hlt) as [th Hth].
  pose proof (proj1 (Forall_lookup _ _) Hdone _ _ Hth) as Hr. cbn beta in Hr.
  assert (locked (th_prog th)) as Hlk.
  { destruct (opt_r o) eqn:Hor; [by eapply started_locked; [apply handler_runs_locked|..]|]. specialize (Ht eq_refl).
    destruct Hst as (th0 & ths & Hs & _ & _ & Hh). rewrite Hs in Hth. destruct t as [|t]; [done|].
    eapply handler_runs_locked, (proj1 (Forall_lookup _ _) Hh _ _ Hth). }
  destruct (decide (t ∈ fin)) as [?|Hn]; [done|]. exfalso. pose proof (inv_apart _ _ Hinv _ _ Hth ltac:(by rewrite Ho)) as Hap.
  unfold apart in Hap. rewrite decide_False in Hap by done. destruct Hap as [[_ He]|[Hsil _]]; [|by eapply locked_silent].
  destruct Hlk as (body & Hb & _). rewrite Hr, Hb in He. done.
Qed.

(** C16: the threads print apart: whenever no thread holds the mutex, the output consists of whole
    records, each that of a different thread, either an event or, with [-r], the ready event; with
    [-r] the first record is the ready event, although events may arrive before it is printed; and
    once no thread has anything left to do, each of them has printed its record. *)
Theorem sysevent_prints_apart o channel class subclasses main s :
  runs (listen strerror progname o channel class subclasses) main ->
  rtc (step (handler_runs o channel)) (begin None main) s -> st_owner s = None ->
  exists printed : list (option sysevent_t * nvpairs),
    st_out s = concat (record o <$> printed.*2) /\ Forall (fun p => tells channel p.1 p.2) printed /\
    printed.*1 ⊆+ speakers o s /\
    (opt_r o = true -> forall p rest, printed = p :: rest -> p.1 = None) /\
    (Forall (fun th => th_rest th = []) (st_threads s) -> printed.*1 ≡ₚ speakers o s).
Proof.
  intros Hmain Hsteps Ho. pose proof (listen_acts _ _ _ _ _ Hmain) as Hacts.
  destruct (reach_invariant (handler_runs o channel) (handler_runs_locked o channel) None main s) as (fin & Hinv & Hst & Hfirst);
    [destruct (opt_r o); [left; by destruct Hacts|right; subst; by repeat constructor]|done|].
  pose proof (fun t Ht => printers_record o channel class subclasses main s fin t Hmain Hst Hinv Ho Ht) as Hpr.
  destruct (written_records o channel (st_threads s) fin (fun t Ht => proj2 (Hpr t Ht))) as (printed & Hw & Htell & Hlab).
  pose proof (inv_owner _ _ Hinv) as Hout. rewrite Ho, Hw in Hout. assert (forall t, t ∈ fin -> t ∈ speaking o s) as Hsub.
  { intros t Ht. apply elem_of_speaking. split; [by apply (inv_fin _ _ Hinv)|by apply Hpr]. }
  rewrite speakers_seq by (destruct Hst as (th0 & ths & -> & _); cbn; lia). exists printed. split_and!; [done|done| | |].
  - rewrite Hlab. apply fmap_submseteq, NoDup_submseteq; [apply (inv_nodup _ _ Hinv)|done].
  - intros Hr p rest ->. rewrite Hr in Hacts. specialize (Hfirst (proj1 Hacts)). unfold first in Hfirst. destruct fin as [|t fin]; [done|]. subst t.
    cbn in Hlab. destruct Hst as (th0 & ths & Hs & Hl & _). rewrite Hs in Hlab. by injection Hlab as -> _.
  - intros Hdone. rewrite Hlab. apply fmap_Permutation, NoDup_Permutation; [apply (inv_nodup _ _ Hinv)|unfold speaking; destruct (opt_r o); apply NoDup_seq|].
    intros t. split; [apply Hsub|]. eapply speaker_done; [|done..]. destruct (opt_r o); [by destruct Hacts|done].
Qed.

(** The threads never wait for each other for ever. *)
Lemma sysevent_progress o channel class subclasses main s :
  runs (listen strerror progname o channel class subclasses) main -> rtc (step (handler_runs o channel)) (begin None main) s ->
  (exists t th, st_threads s !! t = Some th /\ th_rest th <> []) -> exists s', step (handler_runs o channel) s s'.
Proof.
  intros Hmain Hsteps. pose proof (listen_acts _ _ _ _ _ Hmain) as Hacts.
  destruct (reach_invariant (handler_runs o channel) (handler_runs_locked o channel) None main s) as (fin & Hinv & _);
    [destruct (opt_r o); [left; by destruct Hacts|right; subst; by repeat constructor]|done|]. by eapply progress.
Qed.
End sysevent.

(** ** A concrete environment *)

(** The tray of nvlists, and what was done. *)
Abbreviation stage := (fenv * list (action output))%type.

(** What the tray printed is also written to the output. *)
Definition printing (m : C fenv ()) : C stage () :=
  e ← get_env; outer m ;; e' ← get_env;
  put_env (e'.1, e'.2 ++ lists_out (drop (length (fe_printed e.1)) (fe_printed e'.1))).

#[export] Instance stage_nvout : NvOut stage := @Build_NvOut stage outer_nvlist
  (outer fnvlist_alloc) (fun h k z => outer (nvlist_add_uint64 (E := fenv) h k z)) (fun h k zs => outer (nvlist_add_uint64_array (E := fenv) h k zs))
  (fun h k ss => outer (nvlist_add_string_array (E := fenv) h k ss))
  (fun h => printing (nvlist_print (E := fenv) h)) (fun h => printing (nvlist_print_json (E := fenv) h)).

Definition stage_quiet (e e' : stage) : Prop :=
  tray_quiet e.1 e'.1 /\ exists ps, fe_printed e'.1 = fe_printed e.1 ++ ps /\ e'.2 = e.2 ++ lists_out ps.

Lemma stage_kept (e : stage) (e' : fenv) : kept tray_quiet fe_printed e.1 e' -> kept stage_quiet (fe_printed ∘ fst) e (e', e.2).
Proof. intros [Hq Hp]. split; [|done]. split; [done|]. exists []. by rewrite !app_nil_r. Qed.

Lemma stage_adds k v (op : nat -> C fenv Z) : nv_adds tray_holds tray_quiet fe_printed k v op ->
  nv_adds (E := stage) (fun ls e => tray_holds ls e.1) stage_quiet (fe_printed ∘ fst) k v (fun h => outer (op h)).
Proof.
  intros Hop l1 h l l2 w Hg Hn. apply wp_outer. eapply wp_mono; [by apply Hop|].
  intros r w' (-> & Hg' & Hk & Hn'). split_and!; [done..|by apply stage_kept|done].
Qed.

Lemma stage_allocs {A} (op : C fenv A) result : nv_allocs tray_holds tray_quiet fe_printed op result ->
  nv_allocs (E := stage) (fun ls e => tray_holds ls e.1) stage_quiet (fe_printed ∘ fst) (outer op) result.
Proof.
  intros Hop ls w Hg Hn. apply wp_outer. eapply wp_mono; [by apply Hop|].
  intros r w' (Hg' & Hk & h & -> & Hn'). split_and!; [done|by apply stage_kept|by exists h].
Qed.

Lemma stage_prints json (op : nat -> C fenv ()) : nv_prints tray_holds tray_quiet fe_printed json op ->
  nv_prints (E := stage) (fun ls e => tray_holds ls e.1) stage_quiet (fe_printed ∘ fst) json (fun h => printing (op h)).
Proof.
  intros Hop l1 h l l2 w Hg Hn. unfold printing. wp_steps. apply wp_outer. eapply wp_mono; [by apply Hop|].
  intros _ w' (Hg' & Hq & Hp & Hn'). wp_steps. cbn in *. rewrite Hp, drop_app_length. split_and!; try done. split; [done|]. by eexists.
Qed.

#[export] Instance stage_laws : NvOutLaws stage.
Proof.
  refine (@Build_NvOutLaws stage outer_nvlist stage_nvout (fun ls e => tray_holds ls e.1) (fe_printed ∘ fst) stage_quiet _ _ _ _ _ _ _ _ _ _ _ _ _ _);
    try (intros; by apply stage_adds, tray_adds); try (apply stage_prints, tray_prints).
  - split; [intros e; split; [done|]; exists []; by rewrite !app_nil_r|]. intros e1 e2 e3 [Hq (ps & Hp & Ha)] [Hq' (ps' & Hp' & Ha')].
    split; [by unfold tray_quiet in *; congruence|]. exists (ps ++ ps'). unfold lists_out in *. by rewrite fmap_app, Hp', Hp, Ha', Ha, <-!app_assoc.
  - apply stage_allocs. exact (nvs_alloc (E := fenv)).
  - apply stage_allocs. exact (nvs_falloc (E := fenv)).
  - intros l1 h l l2 w Hg Hn. apply wp_outer. eapply wp_mono; [exact (nvs_free (E := fenv) _ _ _ _ (NvStore.inner w) Hg Hn)|].
    intros _ w' (Hg' & Hk & Hn'). split_and!; [done|by apply stage_kept|done].
  - intros k h1 h2 d l w Hg Hn. apply wp_outer. eapply wp_mono; [exact (nvs_add_nvlist (E := fenv) _ _ _ _ _ (NvStore.inner w) Hg Hn)|].
    intros r w' (-> & Hg' & Hk & Hn'). split_and!; [done..|by apply stage_kept|done].
Defined.

(** The attributes are handed over in a new list. *)
Definition tray_with (d : nvpairs) : C fenv nat :=
  e ← get_env; put_env (Fenv ((fe_fresh e, d) :: fe_lists e) (S (fe_fresh e)) (fe_printed e) (fe_watching e)) ;; mret (fe_fresh e).

#[export] Instance stage_events : SysEvents stage := fun ev =>
  match sev_attrs ev with None => mret (0, None) | Some d => h ← outer (tray_with d); mret (0, Some h) end.

(** The clock stands still, and the other calls succeed. *)
#[export] Instance stage_kernel : Kernel stage := fun name args e =>
  (if String.eqb name "gettimeofday" then SysRet 0 0 [] [1500000000; 5000]
   else if String.eqb name "sysevent_bind_handle" then SysRet 1 0 [] []
   else if String.eqb name "sysevent_evc_bind" then SysRet 0 0 [] [3]
   else if String.eqb name "getpid" then SysRet 77 0 [] []
   else SysRet 0 0 [] [], (e.1, e.2 ++ act_of name args)).

#[export] Instance stage_env : SysEnv stage.
Proof.
  refine {| acts := snd |}.
  - intros e e' ps [_ (ps' & Hp & Ha)] Hps. cbn in *. rewrite Hp in Hps. apply app_inv_head in Hps as ->. done.
  - intros name args e r e' [= _ <-]. done.
  - intros name args e r e' ls [= _ <-]. done.
  - intros args e r e' [= <- _]. split; [done|]. by exists 1500000000, 5000.
  - intros args e r e' [= <- _]. done.
  - intros args e r e' [= <- _]. split; [done|]. by eexists.
  - intros name args e r e' [->|[->|[]%elem_of_nil]%elem_of_cons]%elem_of_cons [= <- _]; done.
  - intros ev ls w Hg Hn. unfold sysevent_get_attr_list, stage_events. destruct (sev_attrs ev) as [d|].
    + apply wp_bind, wp_outer. unfold tray_with. wp_steps. destruct Hn as (Hl & Hnd & Hf). do 2 (split; [done|]). split; [by apply stage_kept|].
      exists (fe_fresh (w_env w).1). split; [done|]. split_and!; cbn; [by rewrite Hl| |].
      * apply list.NoDup_cons. split; [|done]. intros ([h l] & Hh & Hin)%list_elem_of_fmap. cbn in Hh. rewrite list.Forall_forall in Hf. specialize (Hf _ Hin). cbn in Hf. lia.
      * constructor; [cbn; lia|]. eapply Forall_impl; [|exact Hf]. intros p Hp. cbn in *. lia.
    + apply wp_ret. do 2 (split; [done|]). split; [|done]. by apply (stage_kept (w_env w) (w_env w).1).
Defined.

(** With [-j], [-r] and a channel, an event that arrives before the ready event is printed. *)
Definition stage_start : world stage := World 0 [] [] (Fenv [] 0 [] ∅, []).
Definition an_event : sysevent_t :=
  SysEvent (Some (cs "SUNW")) (Some (cs "zoneadmd")) (Some (cs "Status")) (Some (cs "change")) 77 (Some [(cs "newstate", NvString (cs "running"))]).
Definition a_date : cstr := cs "2017-07-14T02:40:00.005Z".

Lemma sysevent_prints_apart_witness :
  exists s printed, schedule (Act 0 :: Act 0 :: Arrive (Some an_event) (handler_acts (Opts true true) (event_pairs a_date an_event (Some (cs "zones")))) ::
      replicate 4 (Act 0) ++ replicate 5 (Act 1)) (begin None (main_acts (Opts true true) (ready_pairs a_date))) = Some s /\
    st_out s = concat (record (Opts true true) <$> printed.*2) /\ printed.*1 ≡ₚ [None; Some an_event].
Proof.
  pose (o := Opts true true). pose (pairs := event_pairs a_date an_event (Some (cs "zones"))).
  eexists. pose proof (sysevent_prints_apart (E := stage) (fun _ => []) (cs "sysevent") o (Some (cs "zones")) (cs "Status") [cs "all"] (main_acts o (ready_pairs a_date))) as Hth.
  edestruct Hth as (printed & Hout & _ & _ & _ & Hall).
  - exists stage_start. split; [by repeat constructor|]. split; [by repeat constructor|]. by vm_compute.
  - eapply (schedule_steps _ (Act 0 :: Act 0 :: Arrive (Some an_event) (handler_acts o pairs) :: replicate 4 (Act 0) ++ replicate 5 (Act 1))); [|by vm_compute].
    repeat constructor; [by eexists..|]. exists stage_start. split; [by repeat constructor|]. split; [by repeat constructor|]. by vm_compute.
  - reflexivity.
  - exists printed. split; [by vm_compute|]. split; [exact Hout|]. apply Hall. repeat constructor.
Defined.
