(* ===== verification/OnTty.v ===== *)
(** * OnTty: a command on several terminals, [sdc-on-tty.c]

    The program starts its command once on each terminal device, waits until one of the processes
    ends, and kills the others.  The kernel is a parameter ([TtyEnv]): it tells which children there
    are.  The theorem: no child is left, and every one but the first to end was killed. *)
From Stdlib Require Import Lia.
From S2P Require Import Prelude Cnum Sys Tools Run Docker.

Definition MAXDEVS : Z := 10.
Definition S_IFCHR : Z := 8192.

(** The signals of the platform that the program names. *)
Definition SIGHUP : Z := 1.
Definition SIGINT : Z := 2.
Definition SIGKILL : Z := 9.
Definition SIGSTOP : Z := 23.
Definition SIGTSTP : Z := 24.
Definition SIGTTIN : Z := 26.
Definition SIGTTOU : Z := 27.
Definition SIG_IGN : Z := 1.

Section sdc_on_tty.
Context {E : Type} `{Kernel E}.

(** [if (c) exit(1);] *)
Definition exit_if (c : bool) : C E () := if c then c_exit 1 else mret tt.

(** The child; it returns when [execv] has replaced the program. *)
Definition run_child (dev : cstr) (cmd : list cstr) : C E () :=
  _ ← sys "closefrom" [AZ 0];
  r ← sys "setsid" []; exit_if (r <? 0) ;;
  std_in ← sys "open" [AS dev; AS (cs "O_RDONLY")]; exit_if (std_in <? 0) ;;
  std_out ← sys "open" [AS dev; AS (cs "O_WRONLY")]; exit_if (std_out <? 0) ;;
  std_err ← sys "open" [AS dev; AS (cs "O_WRONLY")]; exit_if (std_err <? 0) ;;
  path ← c_access (head cmd);
  r ← sys "execv" (AS path :: vector cmd); exit_if (negb (r =? 0)).

Definition run_cmd (dev : cstr) (cmd : list cstr) : C E Z :=
  buf ← syscall "stat" [AS dev];
  if sr_ret buf <? 0 then mret (-1) else
  st_mode ← c_access (head (sr_vals buf));
  if negb (Z.land st_mode S_IFMT =? S_IFCHR) then mret (-1) else
  id ← sys "fork" [];
  if id =? 0 then run_child dev cmd ;; mret (-1) else
  if id =? -1 then mret (-1) else mret id.

(** The devices of the options; anything else than [-d] ends the program. *)
Definition tty_opts (c : char) : option bool := if Ascii.eqb c "d"%char then Some true else None.

Fixpoint device_loop (l : list getopt_result) (devs : list cstr) : C E (list cstr) :=
  match l with
  | [] => mret devs
  | OptChar _ (Some optarg) :: l =>
      if Zlen devs =? MAXDEVS then eprint (cs "too many tty devices" ++ [LF]) ;; c_exit 1 else device_loop l (devs ++ [optarg])
  | _ :: _ => eprint (cs "unknown option" ++ [LF]) ;; c_exit 1
  end.

(** The processes started, in the order of the devices. *)
Fixpoint start_loop (args devs : list cstr) (procs : list Z) : C E (list Z) :=
  match devs with
  | [] => mret procs
  | dev :: devs =>
      pid ← run_cmd dev args;
      if negb (pid =? -1) then start_loop args devs (procs ++ [pid])
      else eprint (cs "unable to run " ++ default [] (head args) ++ cs " on " ++ dev ++ [LF]) ;; start_loop args devs procs
  end.

Fixpoint ignore_signals (sigs : list Z) : C E () :=
  match sigs with [] => mret tt | sig :: sigs => _ ← sys "signal" [AZ sig; AZ SIG_IGN]; ignore_signals sigs end.

Fixpoint kill_loop (pid : Z) (procs : list Z) : C E () :=
  match procs with
  | [] => mret tt
  | proc :: procs =>
      (if negb (proc =? pid) then _ ← sys "kill" [AZ proc; AZ SIGKILL]; _ ← sys "wait" []; mret tt else mret tt) ;;
      kill_loop pid procs
  end.

Definition main (argv : list cstr) : C E Z :=
  devs ← device_loop (getopts tty_opts argv) [];
  (if Zlen devs =? 0 then eprint (cs "a tty device is required" ++ [LF]) ;; c_exit 1 else mret tt) ;;
  let args := operands tty_opts argv in
  (if Zlen args =? 0 then eprint (cs "missing command" ++ [LF]) ;; c_exit 1 else mret tt) ;;
  procs ← start_loop args devs [];
  (if Zlen procs =? 0 then eprint (cs "unable to run any processes" ++ [LF]) ;; c_exit 1 else mret tt) ;;
  ignore_signals [SIGHUP; SIGINT; SIGSTOP; SIGTSTP; SIGTTIN; SIGTTOU] ;;
  pid ← sys "wait" [];
  kill_loop pid procs ;;
  mret 0.
End sdc_on_tty.

(** ** The kernel *)

(** [children]: the processes started and not waited for; [killed]: those that [kill] was called
    for.  The [n]-th [fork] answers [tty_pid n].  [wait] ends when a child has ended: a command that
    ends by itself, as long as none was killed, or one that was killed. *)
Class TtyEnv (E : Type) `{Kernel E} := {
  tty_device : cstr -> bool;
  tty_pid : nat -> Z;
  tty_forks : E -> nat;
  children : E -> gset Z;
  killed : E -> list Z;
  same_tty (e e' : E) := tty_forks e' = tty_forks e /\ children e' = children e /\ killed e' = killed e;
  tty_stat dev e r e' : sys_step "stat" [AS dev] e = (r, e') -> same_tty e e' /\
    (tty_device dev = true <-> 0 <= sr_ret r /\ exists mode vals, sr_vals r = mode :: vals /\ Z.land mode S_IFMT = S_IFCHR) /\
    (0 <= sr_ret r -> sr_vals r <> []);
  tty_fork e r e' : sys_step "fork" [] e = (r, e') ->
    sr_ret r = tty_pid (tty_forks e) /\ sr_ret r <> 0 /\ tty_forks e' = S (tty_forks e) /\ killed e' = killed e /\
    if sr_ret r =? -1 then children e' = children e else sr_ret r ∉ children e /\ children e' = {[sr_ret r]} ∪ children e;
  tty_signal args e r e' : sys_step "signal" args e = (r, e') -> same_tty e e';
  tty_kill pid sig e r e' : sys_step "kill" [AZ pid; AZ sig] e = (r, e') ->
    tty_forks e' = tty_forks e /\ children e' = children e /\ killed e' = killed e ++ [pid];
  tty_wait e r e' : sys_step "wait" [] e = (r, e') ->
    children e <> ∅ -> killed e = [] \/ (exists pid, pid ∈ children e /\ pid ∈ killed e) ->
    sr_ret r ∈ children e /\ children e' = children e ∖ {[sr_ret r]} /\ killed e' = killed e
}.

(** The devices of the command line. *)
Definition device_of (r : getopt_result) : option cstr := match r with OptChar _ d => d | _ => None end.
Definition tty_devices (argv : list cstr) : option (list cstr) :=
  devs ← mapM device_of (getopts tty_opts argv); if Zlen devs <=? MAXDEVS then Some devs else None.

Section spec.
Context {E : Type} `{TtyEnv E}.
Implicit Types e : E.

(** The processes of the devices, after [n] forks. *)
Fixpoint tty_started (n : nat) (devs : list cstr) : list Z :=
  match devs with
  | [] => []
  | dev :: devs => if tty_device dev then (if tty_pid n =? -1 then [] else [tty_pid n]) ++ tty_started (S n) devs else tty_started n devs
  end.

(** A message and the exit. *)
Lemma run_fails {A B} msg (k : B -> C E A) (Q : A -> E -> Prop) e : run ((eprint msg ;; c_exit 1) ≫= k) Q (fun st => st = 1) e.
Proof. apply run_bind, run_bind, run_eprint, run_exit. done. Qed.

Lemma run_cmd_spec dev cmd (Q : Z -> E -> Prop) X e :
  (forall e', tty_device dev = false -> same_tty e e' -> Q (-1) e') ->
  (forall e', tty_device dev = true -> tty_pid (tty_forks e) = -1 -> tty_forks e' = S (tty_forks e) -> children e' = children e -> killed e' = killed e -> Q (-1) e') ->
  (forall pid e', tty_device dev = true -> pid = tty_pid (tty_forks e) -> pid <> -1 -> tty_forks e' = S (tty_forks e) -> killed e' = killed e ->
     pid ∉ children e -> children e' = {[pid]} ∪ children e -> Q pid e') ->
  run (run_cmd dev cmd) Q X e.
Proof.
  intros Hno Hfail Hyes. unfold run_cmd. apply run_bind, run_syscall. intros st e1 Hst. destruct (tty_stat _ _ _ _ Hst) as ((Hf & Hc & Hk) & Hdev & Hvals).
  destruct (Z.ltb_spec (sr_ret st) 0) as [Hneg|Hpos].
  { apply run_ret, Hno; [|done]. destruct (tty_device dev); [|done]. destruct (proj1 Hdev eq_refl). lia. }
  destruct (sr_vals st) as [|mode vals] eqn:Hv; [by destruct Hvals|]. apply run_bind. eapply run_access; [done|].
  destruct (Z.eqb_spec (Z.land mode S_IFMT) S_IFCHR) as [Hm|Hm]; cbn [negb].
  2:{ apply run_ret, Hno; [|done]. destruct (tty_device dev); [|done]. destruct (proj1 Hdev eq_refl) as (_ & mode' & vals' & [= <- <-] & ?). done. }
  assert (tty_device dev = true) as Htrue by (apply Hdev; split; [done|by exists mode, vals]).
  apply run_bind, run_sys. intros id e2 Hid. destruct (tty_fork _ _ _ Hid) as (Hp & Hz & Hf2 & Hk2 & Hc2). rewrite Hf in *.
  rewrite (proj2 (Z.eqb_neq _ 0)) by done. destruct (Z.eqb_spec (sr_ret id) (-1)) as [Hm1|Hm1]; apply run_ret.
  - apply Hfail; congruence.
  - destruct Hc2 as [Hn Hc2]. rewrite Hc in *. apply Hyes; congruence.
Qed.

Lemma start_loop_spec args devs procs e X (Q : list Z -> E -> Prop) :
  children e = list_to_set procs -> NoDup procs -> killed e = [] ->
  (forall e', children e' = list_to_set (procs ++ tty_started (tty_forks e) devs) -> NoDup (procs ++ tty_started (tty_forks e) devs) -> killed e' = [] ->
     Q (procs ++ tty_started (tty_forks e) devs) e') ->
  run (start_loop args devs procs) Q X e.
Proof.
  revert procs e. induction devs as [|dev devs IH]; intros procs e Hc Hnd Hk HQ; cbn [start_loop tty_started] in *.
  { apply run_ret. rewrite app_nil_r in HQ. by apply HQ. }
  apply run_bind, run_cmd_spec.
  - intros e' Hd (Hf & Hc' & Hk'). rewrite Hd in HQ. cbn [Z.eqb negb]. apply run_bind, run_eprint. apply IH; [congruence..|]. by rewrite Hf.
  - intros e' Hd Hp Hf Hc' Hk'. rewrite Hd, Hp in HQ. cbn [Z.eqb negb]. apply run_bind, run_eprint. apply IH; [congruence..|]. by rewrite Hf.
  - intros pid e' Hd -> Hne Hf Hk' Hn Hc'. rewrite Hd, (proj2 (Z.eqb_neq _ (-1))) in HQ by done. rewrite (proj2 (Z.eqb_neq _ (-1))) by done. cbn [negb]. apply IH; [|..|congruence|].
    + rewrite Hc', Hc, list_to_set_app_L. set_solver.
    + apply list.NoDup_app. split_and!; [done| |apply NoDup_singleton]. intros x Hx ->%list_elem_of_singleton. apply Hn. rewrite Hc. by apply elem_of_list_to_set.
    + rewrite Hf, <-app_assoc. exact HQ.
Qed.

Lemma ignore_signals_spec sigs e X (Q : () -> E -> Prop) :
  (forall e', children e' = children e -> killed e' = killed e -> Q tt e') -> run (ignore_signals sigs) Q X e.
Proof.
  revert e. induction sigs as [|sig sigs IH]; intros e HQ; cbn [ignore_signals]; [by apply run_ret, HQ|].
  apply run_bind, run_sys. intros r e' Hs. destruct (tty_signal _ _ _ _ Hs) as (_ & Hc & Hk). apply IH. intros e2 Hc2 Hk2. apply HQ; congruence.
Qed.

(** Those that are killed. *)
Abbreviation others first := (filter (fun p : Z => p <> first)).

(** One of those killed has not been waited for: there are more children than processes not killed yet. *)
Lemma killed_child first pre p procs (cs : gset Z) : p <> first -> NoDup procs ->
  cs ⊆ list_to_set (others first (pre ++ p :: procs)) -> size cs = S (length (others first procs)) ->
  exists q, q ∈ cs /\ q ∈ others first pre ++ [p].
Proof.
  intros Hne Hnd Hsub Hsize. destruct (decide (set_Exists (fun q => q ∈ others first pre ++ [p]) cs)) as [(q & Hq & Hk)|Hn]; [by exists q|].
  exfalso. assert (cs ⊆ list_to_set (others first procs)) as Hin.
  { intros q Hq. specialize (Hsub _ Hq). rewrite elem_of_list_to_set in Hsub |- *. rewrite list.filter_app, filter_cons_True, elem_of_app, elem_of_cons in Hsub by done.
    assert (q ∉ others first pre ++ [p]) as Hout by (intros ?; apply Hn; by exists q). rewrite elem_of_app, list_elem_of_singleton in Hout. naive_solver. }
  apply subseteq_size in Hin. rewrite size_list_to_set in Hin by (by apply list.NoDup_filter). lia.
Qed.

Lemma kill_loop_spec first pre procs e X (Q : () -> E -> Prop) :
  killed e = others first pre -> NoDup procs -> children e ⊆ list_to_set (others first (pre ++ procs)) -> size (children e) = length (others first procs) ->
  (forall e', killed e' = others first (pre ++ procs) -> children e' = ∅ -> Q tt e') ->
  run (kill_loop first procs) Q X e.
Proof.
  revert pre e. induction procs as [|p procs IH]; intros pre e Hk Hnd Hsub Hsize HQ; cbn [kill_loop].
  { apply run_ret, HQ; [by rewrite app_nil_r|]. apply leibniz_equiv, size_empty_iff. done. }
  pose proof Hnd as [_ Hnd']%list.NoDup_cons.
  replace (pre ++ p :: procs) with ((pre ++ [p]) ++ procs) in HQ by (by rewrite <-app_assoc).
  destruct (Z.eqb_spec p first) as [->|Hne]; cbn [negb].
  - apply run_bind, run_ret. rewrite list.filter_app, filter_cons_False, <-list.filter_app in Hsub by auto. rewrite filter_cons_False in Hsize by auto.
    rewrite list.filter_app, (list.filter_app _ pre), filter_cons_False, app_nil_r, <-list.filter_app in HQ by auto.
    eapply (IH pre); done.
  - rewrite filter_cons_True in Hsize by done. apply run_bind, run_bind, run_sys. intros r e1 Hs. destruct (tty_kill _ _ _ _ _ Hs) as (_ & Hc1 & Hk1).
    rewrite Hk in Hk1. destruct (killed_child first pre p procs (children e) Hne Hnd' Hsub Hsize) as (q & Hq & Hqk). rewrite <-Hc1 in *.
    apply run_bind, run_sys. intros r2 e2 Hs2. destruct (tty_wait _ _ _ Hs2) as (Hin & Hc2 & Hk2); [intros Hem; rewrite Hem in Hq; set_solver|right; exists q; by rewrite Hk1|].
    apply run_ret. eapply (IH (pre ++ [p])).
    + rewrite Hk2, Hk1, list.filter_app, (filter_cons_True _ p []) by done. done.
    + done.
    + rewrite <-app_assoc. cbn. rewrite Hc2. set_solver.
    + rewrite Hc2, size_difference, size_singleton; [cbn in Hsize; lia|]. set_solver.
    + done.
Qed.

(** The devices are read, or the program ends. *)
Lemma device_loop_spec l devs e (Q : list cstr -> E -> Prop) : Zlen devs <= MAXDEVS ->
  (forall ds, mapM device_of l = Some ds -> Zlen (devs ++ ds) <= MAXDEVS -> Q (devs ++ ds) e) ->
  run (device_loop l devs) Q (fun st => st = 1 /\ forall ds, mapM device_of l = Some ds -> MAXDEVS < Zlen (devs ++ ds)) e.
Proof.
  revert devs. induction l as [|r l IH]; intros devs Hlen HQ; cbn [device_loop].
  { apply run_ret. rewrite <-(app_nil_r devs). apply HQ; [done|]. by rewrite app_nil_r. }
  destruct r as [c [d|]|c|c]; try (by apply run_bind, run_eprint, run_exit).
  cbn [mapM device_of mbind option_bind] in HQ |- *. destruct (Z.eqb_spec (Zlen devs) MAXDEVS) as [Hmax|Hmax].
  - apply run_bind, run_eprint, run_exit. split; [done|]. intros ds (ds' & _ & [= <-])%bind_Some.
    rewrite Zlen_app, Zlen_cons. pose proof (Zlen_nonneg ds'). lia.
  - eapply run_mono; [apply IH|done|].
    + rewrite Zlen_app. change (Zlen [d]) with 1. lia.
    + intros ds Hds Hl. rewrite <-app_assoc in *. apply HQ; [by rewrite Hds|done].
    + intros st [-> Hds]. split; [done|]. intros ds (ds' & Hm & [= <-])%bind_Some. specialize (Hds _ Hm). by rewrite <-app_assoc in Hds.
Qed.

(** From the first process on. *)
Lemma launch_spec args devs e : children e = ∅ -> killed e = [] ->
  let procs := tty_started (tty_forks e) devs in
  run (start_loop args devs [])
    (fun procs => run ((if Zlen procs =? 0 then eprint (cs "unable to run any processes" ++ [LF]) ;; c_exit 1 else mret tt) ;;
       ignore_signals [SIGHUP; SIGINT; SIGSTOP; SIGTSTP; SIGTTIN; SIGTTOU] ;; pid ← sys "wait" []; kill_loop pid procs ;; mret 0)
      (fun st e' => st = 0 /\ children e' = ∅ /\ exists first, first ∈ tty_started (tty_forks e) devs /\
         killed e' = filter (fun p => p <> first) (tty_started (tty_forks e) devs))
      (fun st => st = 1 /\ tty_started (tty_forks e) devs = []))
    (fun st => st = 1 /\ procs = []) e.
Proof.
  intros Hc Hk procs. apply start_loop_spec; [by rewrite Hc|constructor|done|]. cbn [app]. fold procs. intros e1 Hc1 Hnd Hk1.
  destruct (Z.eqb_spec (Zlen procs) 0) as [Hz|Hz].
  { apply run_bind, run_bind, run_eprint, run_exit. split; [done|]. destruct procs; [done|]. rewrite Zlen_cons in Hz. pose proof (Zlen_nonneg procs). lia. }
  apply run_bind, run_ret, run_bind, ignore_signals_spec. intros e2 Hc2 Hk2. rewrite Hc1 in Hc2. rewrite Hk1 in Hk2. apply run_bind, run_sys. intros r e3 Hs.
  destruct (tty_wait _ _ _ Hs) as (Hin & Hc3 & Hk3); [|by left|]; rewrite Hc2 in *.
  { destruct procs as [|p procs']; [done|]. cbn. set_solver. }
  rewrite elem_of_list_to_set in Hin. apply run_bind. eapply (kill_loop_spec _ []); [by rewrite Hk3, Hk2|done| | |].
  - rewrite Hc3. intros q. rewrite elem_of_difference, !elem_of_list_to_set, list_elem_of_filter. set_solver.
  - rewrite Hc3, <-(size_list_to_set (C := gset Z) (others (sr_ret r) procs)) by (by apply list.NoDup_filter). f_equal. apply leibniz_equiv. intros q.
    rewrite elem_of_difference, !elem_of_list_to_set, list_elem_of_filter. set_solver.
  - intros e4 Hk4 Hc4. apply run_ret. split_and!; [done..|]. by exists (sr_ret r).
Qed.

(** C17: each device that is a terminal, and for which a process can be started, gets one; when the
    first of them has ended, exactly the others are killed, and none of them is left, whatever the
    order in which they end; a wrong command line, or no process at all, ends the program with
    status 1. *)
Theorem sdc_on_tty_ends argv e : children e = ∅ -> killed e = [] ->
  match tty_devices argv, operands tty_opts argv with
  | Some ((_ :: _) as devs), _ :: _ =>
      let procs := tty_started (tty_forks e) devs in
      run (main argv)
        (fun st e' => st = 0 /\ children e' = ∅ /\ exists first, first ∈ procs /\ killed e' = filter (fun p => p <> first) procs)
        (fun st => st = 1 /\ procs = []) e
  | _, _ => run (main argv) (fun _ _ => False) (fun st => st = 1) e
  end.
Proof.
  intros Hc Hk. unfold tty_devices, main. destruct (mapM device_of (getopts tty_opts argv)) as [ds|] eqn:Hm; cbn [mbind option_bind].
  2:{ apply run_bind. eapply run_mono; [apply (device_loop_spec _ [] e (fun _ _ => False))| |]; [done|by rewrite Hm|done|by intros st [-> _]]. }
  destruct (Z.leb_spec (Zlen ds) MAXDEVS) as [Hmax|Hmax].
  2:{ apply run_bind. eapply run_mono; [apply (device_loop_spec _ [] e (fun _ _ => False))| |]; [done| |done|by intros st [-> _]].
      intros ds' Hds' Hl. rewrite Hm in Hds'. injection Hds' as <-. cbn [app] in Hl. lia. }
  assert (forall (k : list cstr -> C E Z) Q X, run (k ds) Q X e -> run (device_loop (getopts tty_opts argv) [] ≫= k) Q X e) as Hdev.
  { intros k Q X Hk'. apply run_bind. eapply run_mono; [apply (device_loop_spec _ [] e (fun devs e' => devs = ds /\ e' = e))| |]; [done| | |].
    - intros ds' Hds' _. rewrite Hm in Hds'. by injection Hds' as <-.
    - by intros devs e' [-> ->].
    - intros st [-> Hlong]. specialize (Hlong _ Hm). cbn [app] in Hlong. lia. }
  destruct ds as [|d ds]; [apply Hdev, run_fails|]. destruct (operands tty_opts argv) as [|cmd args]; [by apply Hdev, run_bind, run_ret, run_fails|].
  apply Hdev, run_bind, run_ret, run_bind, run_ret, run_bind. by apply launch_spec.
Qed.
End spec.

(** ** A concrete kernel *)

(** How many processes were started (their numbers begin at 100), those waited for, those that
    [kill] was called for and those of them that were gone already, and the order in which the
    processes end by themselves. *)
Record tty_state := TtyState { ts_forks : nat; ts_reaped : gset Z; ts_killed : list Z; ts_stray : list Z; ts_order : list Z }.

Definition ts_children (e : tty_state) : gset Z := list_to_set (seqZ 100 (Z.of_nat (ts_forks e))) ∖ ts_reaped e.
Definition ts_next (e : tty_state) : option Z := head (filter (fun p => p ∈ ts_children e) (ts_order e ++ ts_killed e ++ elements (ts_children e))).

Definition in_dev (path : cstr) : bool := bool_decide (take 5 path = cs "/dev/").

#[export] Instance tty_kernel : Kernel tty_state := fun name args e =>
  if String.eqb name "stat" then
    (SysRet 0 0 [] [match args with [AS dev] => if in_dev dev then S_IFCHR else 32768 | _ => 0 end], e)
  else if String.eqb name "fork" then
    (SysRet (100 + Z.of_nat (ts_forks e)) 0 [] [], TtyState (S (ts_forks e)) (ts_reaped e ∖ {[100 + Z.of_nat (ts_forks e) : Z]}) (ts_killed e) (ts_stray e) (ts_order e))
  else if String.eqb name "kill" then
    match args with
    | AZ pid :: _ => (SysRet (if decide (pid ∈ ts_children e) then 0 else -1) 3 [] [],
        TtyState (ts_forks e) (ts_reaped e) (ts_killed e ++ [pid]) (ts_stray e ++ if decide (pid ∈ ts_children e) then [] else [pid]) (ts_order e))
    | _ => (SysRet (-1) 22 [] [], e)
    end
  else if String.eqb name "wait" then
    match ts_next e with
    | Some pid => (SysRet pid 0 [] [], TtyState (ts_forks e) ({[pid]} ∪ ts_reaped e) (ts_killed e) (ts_stray e) (ts_order e))
    | None => (SysRet (-1) 10 [] [], e)
    end
  else (SysRet 0 0 [] [], e).

Lemma ts_next_child e : ts_children e <> ∅ -> exists pid, ts_next e = Some pid /\ pid ∈ ts_children e.
Proof.
  intros (q & Hq)%set_choose_L. unfold ts_next. destruct (filter _ _) as [|pid l] eqn:Hf.
  - exfalso. eapply not_elem_of_nil. rewrite <-Hf. apply list_elem_of_filter. split; [exact Hq|].
    rewrite !elem_of_app, elem_of_elements. by right; right.
  - exists pid. split; [done|]. assert (pid ∈ pid :: l) as Hin by by left. rewrite <-Hf in Hin. by apply list_elem_of_filter in Hin as [? _].
Qed.

#[export] Instance tty_env : TtyEnv tty_state.
Proof.
  refine {| tty_device := in_dev; tty_pid := fun n => 100 + Z.of_nat n; tty_forks := ts_forks; children := ts_children; killed := ts_killed |}.
  - intros dev e r e' [= <- <-]. split; [done|]. cbn [sr_ret sr_vals]. split; [|done]. split.
    + intros ->. split; [done|]. by exists S_IFCHR, [].
    + intros (_ & mode & vals & [= <- _] & Hm). by destruct (in_dev dev).
  - intros e r e' [= <- <-]. cbn [sr_ret ts_forks ts_killed ts_children]. split_and!; [done|lia|done..|].
    rewrite (proj2 (Z.eqb_neq _ (-1))) by lia. unfold ts_children. cbn. split; [rewrite elem_of_difference, elem_of_list_to_set, elem_of_seqZ; lia|].
    apply leibniz_equiv. intros q. rewrite elem_of_union, !elem_of_difference, elem_of_singleton, !elem_of_list_to_set, !elem_of_seqZ.
    destruct (decide (q = 100 + Z.of_nat (ts_forks e))); [set_solver by lia|]. set_solver by lia.
  - intros args e r e' [= _ <-]. done.
  - intros pid sig e r e' [= _ <-]. done.
  - intros e r e' Hs Hne _. destruct (ts_next_child _ Hne) as (pid & Hn & Hin). cbn in Hs. rewrite Hn in Hs. injection Hs as <- <-.
    split_and!; [done| |done]. unfold ts_children. cbn. set_solver.
Defined.

Definition on_three : list cstr := cs <$> ["-d"; "/dev/console"; "-d"; "/dev/ttya"; "-d"; "/tmp"; "-d"; "/dev/ttyb"; "config"; "now"]%string.

Lemma sdc_on_tty_ends_witness :
  run (main on_three) (fun st e' => st = 0 /\ ts_children e' = ∅ /\ exists first, first ∈ [100; 101; 102] /\ ts_killed e' = filter (fun p => p <> first) [100; 101; 102])
    (fun st => st = 1 /\ [100; 101; 102] = []) (TtyState 0 ∅ [] [] [101; 102]).
Proof. exact (sdc_on_tty_ends on_three (TtyState 0 ∅ [] [] [101; 102]) ltac:(by vm_compute) ltac:(done)). Defined.

(** A process that was waited for after another one was killed is killed all the same: its number
    may be that of another process by then. *)
Example sdc_on_tty_kills_gone :
  match main on_three (World 0 [] [] (TtyState 0 ∅ [] [] [101; 102])) with Done (st, w) => Some (st, ts_killed (w_env w), ts_stray (w_env w)) | _ => None end
  = Some (0, [100; 102], [102]).
Proof. by vm_compute. Qed.
