(* ===== verification/QemuExec.v ===== *)
(** * QemuExec: the log of a virtual machine, [qemu-exec.c]

    The program rotates the logs of a virtual machine, sends its output to a new one, writes down
    its privileges and arguments, and becomes the command it was given.  The kernel is a parameter
    ([QemuEnv]): it tells which files there are and what the descriptors refer to. *)
From Stdlib Require Import Lia.
From S2P Require Import Prelude Cnum Sys Tools Run Docker.

Definition LOG_FILE : cstr := cs "/tmp/vm.log".

(** [LOG_FILE_PATTERN] with a number, in a buffer of its own length. *)
Definition log_text (i : nat) : cstr := cs "/tmp/vm.log." ++ print_u (Z.of_nat i).
Definition log_name (i : nat) : cstr := str_fit (Zlen (cs "/tmp/vm.log.%u")) (log_text i).

Section qemu_exec.
Context {E : Type} `{Kernel E} (strerror : Z -> cstr).

Definition perror (s : cstr) : C E () := e ← get_errno; eprint (s ++ cs ": " ++ strerror e ++ [LF]).
Definition puts (s : cstr) : C E () := _ ← sys "puts" [AS s]; mret tt.

Definition disable_cores : C E () :=
  r ← sys "setrlimit" [AS (cs "RLIMIT_CORE"); AZ 0; AZ 0];
  if r <? 0 then perror (cs "Warning, failed to set rlimit for cores") else mret tt.

(** The loop, from [i] down to 1; [snprintf] gives the length of the text. *)
Fixpoint rotate_loop (i : nat) : C E () :=
  match i with
  | O => mret tt
  | S i' =>
      (if Zlen (log_text i') <? 0 then perror (cs "Warning, failed to build old filename string")
       else if Zlen (log_text i) <? 0 then perror (cs "Warning, failed to build new filename string")
       else r ← sys "rename" [AS (log_name i'); AS (log_name i)]; if negb (r =? 0) then perror (log_name i') else mret tt) ;;
      rotate_loop i'
  end.

Definition rotate_logs : C E () :=
  rotate_loop 9 ;;
  if Zlen (log_text 0) <? 0 then perror (cs "Warning, failed to build new filename string") else
  r ← sys "rename" [AS LOG_FILE; AS (log_name 0)];
  if negb (r =? 0) then perror LOG_FILE else mret tt.

Definition redirect_output : C E () :=
  fd ← sys "open" [AS LOG_FILE; AS (cs "O_WRONLY | O_CREAT"); AZ 420];
  if 0 <=? fd then
    r ← sys "dup2" [AZ fd; AZ 1];
    (if r <? 0 then perror (cs "Warning, dup2(stdout) failed") else mret tt) ;;
    r ← sys "dup2" [AZ fd; AZ 2];
    if r <? 0 then perror (cs "Warning, dup2(stderr) failed") else mret tt
  else mret tt.

(** The privileges, by their numbers; [priv_getbynum] gives 0 (NULL) or a name. *)
Fixpoint priv_loop (fuel : nat) (pset i : Z) : C E () :=
  match fuel with
  | O => c_undefined
  | S fuel =>
      pname ← syscall "priv_getbynum" [AZ i];
      if sr_ret pname =? 0 then mret tt else
      member ← sys "priv_ismember" [AZ pset; AS (sr_data pname)];
      (if negb (member =? 0) then puts (sr_data pname) else mret tt) ;;
      priv_loop fuel pset (i + 1)
  end.

Definition dump_privs (fuel : nat) : C E () :=
  pset ← sys "priv_str_to_set" [AS (cs "zone"); AS (cs ",")];
  if pset =? 0 then eprint (cs "unable to create priv_set for 'zone'" ++ [LF]) else
  puts (cs "== Zone privileges ==") ;;
  priv_loop fuel pset 0.

Fixpoint puts_all (l : list cstr) : C E () := match l with [] => mret tt | s :: l => puts s ;; puts_all l end.
Definition dump_args (argv : list cstr) : C E () := puts (cs "=== ARGV ===") ;; puts_all argv.

(** 0 when the command has taken the place of the program. *)
Definition exec_next (argv : list cstr) : C E Z :=
  let argv := tail argv in
  path ← c_access (head argv);
  sys "execvp" (AS path :: vector argv).

(** The arguments begin with the name of the program. *)
Definition main (fuel : nat) (argv : list cstr) : C E () :=
  (if Zlen argv <? 2 then name ← c_access (head argv); eprint (cs "Usage: " ++ name ++ cs " <command> ..." ++ [LF]) ;; c_exit 1
   else mret tt) ;;
  rotate_logs ;;
  redirect_output ;;
  disable_cores ;;
  dump_privs fuel ;;
  dump_args argv ;;
  now ← sys "time" [];
  time_buffer ← syscall "cftime" [AS (cs "%Y-%m-%dT%H:%M:%SZ"); AZ now];
  _ ← sys "printf" [AS (cs "=== OUTPUT (" ++ sr_data time_buffer ++ cs ") ===" ++ [LF])];
  _ ← sys "fflush" [AS (cs "stdout")];
  _ ← sys "fflush" [AS (cs "stderr")];
  r ← exec_next argv;
  if r =? 0 then mret tt else
  eprint (cs "FATAL: execvp() failed." ++ [LF]) ;; c_exit 1.
End qemu_exec.

(** ** The kernel *)

(** The files (by their inodes), the files of the descriptors, and the command that has taken the
    place of the program. *)
Class QemuEnv (E : Type) `{Kernel E} := {
  files : E -> gmap cstr Z;
  fd_file : E -> Z -> option Z;
  executed : E -> option (list sarg);
  priv_count : nat;
  can_exec : list sarg -> bool;
  q_same (e e' : E) := files e' = files e /\ fd_file e' = fd_file e /\ executed e' = executed e;
  q_rename old new e r e' : sys_step "rename" [AS old; AS new] e = (r, e') -> old <> new ->
    fd_file e' = fd_file e /\ executed e' = executed e /\
    match files e !! old with Some f => sr_ret r = 0 /\ files e' = <[new := f]> (delete old (files e)) | None => sr_ret r = -1 /\ files e' = files e end;
  q_open path flags mode e r e' : sys_step "open" [AS path; flags; mode] e = (r, e') -> files e !! path = None ->
    executed e' = executed e /\ 2 < sr_ret r /\
    exists f, (forall path' f', files e !! path' = Some f' -> f' <> f) /\ files e' = <[path := f]> (files e) /\ fd_file e' (sr_ret r) = Some f;
  q_dup2 fd fd' e r e' : sys_step "dup2" [AZ fd; AZ fd'] e = (r, e') ->
    files e' = files e /\ executed e' = executed e /\ 0 <= sr_ret r /\ fd_file e' fd' = fd_file e fd /\ (forall i, i <> fd' -> fd_file e' i = fd_file e i);
  q_other name args e r e' : sys_step name args e = (r, e') ->
    name ∈ ["setrlimit"; "puts"; "printf"; "fflush"; "time"; "cftime"; "priv_str_to_set"; "priv_getbynum"; "priv_ismember"]%string -> q_same e e';
  q_priv i e r e' : sys_step "priv_getbynum" [AZ i] e = (r, e') -> Z.of_nat priv_count <= i -> sr_ret r = 0;
  q_exec args e r e' : sys_step "execvp" args e = (r, e') ->
    files e' = files e /\ fd_file e' = fd_file e /\ (can_exec args = true -> sr_ret r = 0 /\ executed e' = Some args) /\ (can_exec args = false -> sr_ret r = -1)
}.

(** Each log has taken the place of the next older one, and nothing else has changed, the log of this
    run apart. *)
Definition rotation (m m' : gmap cstr Z) : Prop :=
  m' !! log_name 0 = m !! LOG_FILE /\
  (forall i, (i < 8)%nat -> m' !! log_name (S i) = m !! log_name i) /\
  m' !! log_name 9 = match m !! log_name 8 with Some f => Some f | None => m !! log_name 9 end /\
  (forall path, path <> LOG_FILE -> (forall i, (i <= 9)%nat -> path <> log_name i) -> m' !! path = m !! path).

Lemma log_name_inj i j : (i <= 9)%nat -> (j <= 9)%nat -> log_name i = log_name j -> i = j.
Proof.
  intros Hi Hj He. assert (NoDup (log_name <$> seq 0 10)) as Hnd by by_decide.
  assert (forall k, (k <= 9)%nat -> (log_name <$> seq 0 10) !! k = Some (log_name k)) as Hk by (intros k Hk; rewrite list_lookup_fmap, lookup_seq_lt by lia; done).
  eapply (proj1 (NoDup_alt _) Hnd); [by apply Hk|]. rewrite Hk by done. by rewrite He.
Qed.
Lemma log_name_ne i j : (i <= 9)%nat -> (j <= 9)%nat -> i <> j -> log_name i <> log_name j.
Proof. intros Hi Hj Hne He. by apply Hne, log_name_inj. Qed.
Lemma log_name_log i : (i <= 9)%nat -> log_name i <> LOG_FILE.
Proof. intros Hi. assert (Forall (fun i => log_name i <> LOG_FILE) (seq 0 10)) as Hf by by_decide. apply (proj1 (list.Forall_forall _ _) Hf). apply elem_of_seq. lia. Qed.

Definition move (old new : cstr) (m : gmap cstr Z) : gmap cstr Z := match m !! old with Some f => <[new := f]> (delete old m) | None => m end.
Fixpoint shift (i : nat) (m : gmap cstr Z) : gmap cstr Z := match i with O => m | S i' => shift i' (move (log_name i') (log_name i) m) end.

Lemma move_old old new m : old <> new -> move old new m !! old = None.
Proof. intros Hne. unfold move. destruct (m !! old) eqn:Hm; [|done]. by rewrite lookup_insert_ne, lookup_delete_eq. Qed.
Lemma move_new old new m : move old new m !! new = match m !! old with Some f => Some f | None => m !! new end.
Proof. unfold move. destruct (m !! old) eqn:Hm; [|done]. by rewrite lookup_insert_eq. Qed.
Lemma move_ne old new m path : path <> old -> path <> new -> move old new m !! path = m !! path.
Proof. intros Ho Hn. unfold move. destruct (m !! old) eqn:Hm; [|done]. by rewrite lookup_insert_ne, lookup_delete_ne. Qed.

Lemma shift_other i m path : (forall j, (j <= i)%nat -> path <> log_name j) -> shift i m !! path = m !! path.
Proof.
  revert m. induction i as [|i IH]; intros m Hne; [done|]. cbn [shift]. rewrite IH by auto. apply move_ne; auto.
Qed.

Lemma shift_logs i m : (i < 9)%nat ->
  shift (S i) m !! log_name (S i) = (match m !! log_name i with Some f => Some f | None => m !! log_name (S i) end) /\
  shift (S i) m !! log_name 0 = None /\
  (forall j, (j < i)%nat -> shift (S i) m !! log_name (S j) = m !! log_name j).
Proof.
  revert m. induction i as [|i IH]; intros m Hi; cbn [shift] in *.
  - split_and!; [apply move_new|apply move_old, log_name_ne; lia|lia].
  - set (m1 := move (log_name (S i)) (log_name (S (S i))) m). destruct (IH m1) as (Htop & H0 & Hj); [lia|]. cbn [shift] in *.
    assert (m1 !! log_name (S i) = None) as Hnone by (apply move_old, log_name_ne; lia).
    assert (forall k, (k <= i)%nat -> m1 !! log_name k = m !! log_name k) as Hsame by (intros k Hk; apply move_ne; apply log_name_ne; lia).
    split_and!; [|done|].
    + change (shift i (move (log_name i) (log_name (S i)) m1)) with (shift (S i) m1). rewrite shift_other; [apply move_new|]. intros j Hj'. apply log_name_ne; lia.
    + intros j Hji. destruct (decide (j = i)) as [->|Hne].
      * rewrite Htop, Hnone, Hsame by lia. by destruct (m !! log_name i).
      * rewrite Hj by lia. apply Hsame. lia.
Qed.

Lemma shift_rotation m f : rotation m (<[LOG_FILE := f]> (move LOG_FILE (log_name 0) (shift 9 m))).
Proof.
  destruct (shift_logs 8 m) as (H9 & H0 & Hj); [lia|]. assert (shift 9 m !! LOG_FILE = m !! LOG_FILE) as Hlog.
  { apply shift_other. intros j Hj' He. symmetry in He. by eapply log_name_log. }
  assert (forall i, (i <= 9)%nat -> LOG_FILE <> log_name i) as Hne by (intros i Hi He; by eapply log_name_log).
  split_and!.
  - rewrite lookup_insert_ne, move_new, Hlog, H0 by (by apply Hne; lia). by destruct (m !! LOG_FILE).
  - intros i Hi. rewrite lookup_insert_ne, move_ne; [by apply Hj| | |]; [by apply log_name_log; lia|apply log_name_ne; lia|apply Hne; lia].
  - rewrite lookup_insert_ne, move_ne; [done| | |]; [by apply log_name_log; lia|apply log_name_ne; lia|apply Hne; lia].
  - intros path Hp Hl. rewrite lookup_insert_ne, move_ne; [apply shift_other|..]; auto with lia.
Qed.

Section spec.
Context {E : Type} `{QemuEnv E} (strerror : Z -> cstr).
Implicit Types e : E.

Lemma run_perror s (Q : () -> E -> Prop) X e : Q tt e -> run (perror strerror s) Q X e.
Proof. intros HQ. apply run_bind, run_get_errno. intros n. by apply run_eprint. Qed.

(** A call that changes neither files nor descriptors. *)
Lemma run_other name args (Q : Z -> E -> Prop) X e :
  name ∈ ["setrlimit"; "puts"; "printf"; "fflush"; "time"; "cftime"; "priv_str_to_set"; "priv_getbynum"; "priv_ismember"]%string ->
  (forall r e', q_same e e' -> Q r e') -> run (sys name args) Q X e.
Proof. intros Hn HQ. apply run_sys. intros r e' Hs. apply HQ. by eapply q_other. Qed.
Lemma run_puts s (Q : () -> E -> Prop) X e : (forall e', q_same e e' -> Q tt e') -> run (puts s) Q X e.
Proof. intros HQ. apply run_bind, run_other; [by_decide|]. intros r e' Hs. by apply run_ret, HQ. Qed.

Lemma q_same_trans e1 e2 e3 : q_same e1 e2 -> q_same e2 e3 -> q_same e1 e3.
Proof. intros (? & ? & ?) (? & ? & ?). split_and!; congruence. Qed.

Lemma run_rename old new (Q : () -> E -> Prop) X e : old <> new ->
  (forall e', files e' = move old new (files e) -> fd_file e' = fd_file e -> executed e' = executed e -> Q tt e') ->
  run (r ← sys "rename" [AS old; AS new]; if negb (r =? 0) then perror strerror old else mret tt) Q X e.
Proof.
  intros Hne HQ. apply run_bind, run_sys. intros r e' Hs. destruct (q_rename _ _ _ _ _ Hs Hne) as (Hf & Hx & Hr).
  assert (Q tt e') as HQ'.
  { apply HQ; [|done..]. unfold move. by destruct (files e !! old); destruct Hr. }
  destruct (negb _); [by apply run_perror|by apply run_ret].
Qed.

Lemma rotate_loop_spec i (Q : () -> E -> Prop) X e : (i <= 9)%nat ->
  (forall e', files e' = shift i (files e) -> fd_file e' = fd_file e -> executed e' = executed e -> Q tt e') -> run (rotate_loop strerror i) Q X e.
Proof.
  revert e. induction i as [|i IH]; intros e Hi HQ; cbn [rotate_loop]; [by apply run_ret, HQ|].
  apply run_bind. rewrite !(proj2 (Z.ltb_ge _ 0)) by apply Zlen_nonneg.
  apply run_rename; [apply log_name_ne; lia|]. intros e1 Hf Hd Hx. apply IH; [lia|]. intros e2 Hf2 Hd2 Hx2. apply HQ; [by rewrite Hf2, Hf|congruence..].
Qed.

Lemma rotate_logs_spec (Q : () -> E -> Prop) X e :
  (forall e', files e' = move LOG_FILE (log_name 0) (shift 9 (files e)) -> fd_file e' = fd_file e -> executed e' = executed e -> Q tt e') ->
  run (rotate_logs strerror) Q X e.
Proof.
  intros HQ. apply run_bind, rotate_loop_spec; [lia|]. intros e1 Hf Hd Hx. rewrite (proj2 (Z.ltb_ge _ 0)) by apply Zlen_nonneg.
  apply run_rename; [intros He; by eapply (log_name_log 0); [lia|]|]. intros e2 Hf2 Hd2 Hx2. apply HQ; [by rewrite Hf2, Hf|congruence..].
Qed.

Lemma redirect_output_spec (Q : () -> E -> Prop) X e : files e !! LOG_FILE = None ->
  (forall f e', (forall path f', files e !! path = Some f' -> f' <> f) -> files e' = <[LOG_FILE := f]> (files e) ->
     fd_file e' 1 = Some f -> fd_file e' 2 = Some f -> executed e' = executed e -> Q tt e') ->
  run (redirect_output strerror) Q X e.
Proof.
  intros Hnone HQ. apply run_bind, run_sys. intros r e1 Hs. destruct (q_open _ _ _ _ _ _ Hs Hnone) as (Hx & Hr & f & Hnew & Hf & Hd).
  rewrite (proj2 (Z.leb_le 0 _)) by lia. apply run_bind, run_sys. intros r1 e2 Hs1. destruct (q_dup2 _ _ _ _ _ Hs1) as (Hf2 & Hx2 & Hr2 & Hd2 & Hd2').
  apply run_bind. rewrite (proj2 (Z.ltb_ge _ 0)) by lia. apply run_ret, run_bind, run_sys. intros r2 e3 Hs2.
  destruct (q_dup2 _ _ _ _ _ Hs2) as (Hf3 & Hx3 & Hr3 & Hd3 & Hd3'). rewrite (proj2 (Z.ltb_ge _ 0)) by lia. apply run_ret.
  apply (HQ f); [done|by rewrite Hf3, Hf2, Hf| | |congruence].
  - by rewrite Hd3' by lia; rewrite Hd2.
  - by rewrite Hd3, Hd2' by lia.
Qed.

Lemma disable_cores_spec (Q : () -> E -> Prop) X e : (forall e', q_same e e' -> Q tt e') -> run (disable_cores strerror) Q X e.
Proof.
  intros HQ. apply run_bind, run_other; [by_decide|]. intros r e' Hs. destruct (r <? 0); [by apply run_perror, HQ|by apply run_ret, HQ].
Qed.

Lemma priv_loop_spec (fuel : nat) pset i (Q : () -> E -> Prop) X e : i <= Z.of_nat priv_count < i + Z.of_nat fuel ->
  (forall e', q_same e e' -> Q tt e') -> run (priv_loop fuel pset i) Q X e.
Proof.
  revert i e. induction fuel as [|fuel IH]; intros i e Hi HQ; cbn [priv_loop]; [lia|]. apply run_bind, run_syscall. intros r e1 Hs.
  pose proof (q_other _ _ _ _ _ Hs ltac:(by_decide)) as H1. destruct (Z.eqb_spec (sr_ret r) 0) as [Hz|Hnz]; [by apply run_ret, HQ|].
  assert (i < Z.of_nat priv_count) as Hlt by (destruct (Z_lt_le_dec i (Z.of_nat priv_count)) as [?|Hge]; [done|]; by destruct Hnz; eapply q_priv).
  apply run_bind, run_other; [by_decide|]. intros m e2 H2. pose proof (q_same_trans _ _ _ H1 H2) as H12. apply run_bind.
  destruct (negb _).
  - apply run_puts. intros e3 H3. apply IH; [lia|]. intros e4 H4. apply HQ. eauto using q_same_trans.
  - apply run_ret, IH; [lia|]. intros e4 H4. apply HQ. eauto using q_same_trans.
Qed.

Lemma dump_privs_spec (fuel : nat) (Q : () -> E -> Prop) X e : (priv_count < fuel)%nat -> (forall e', q_same e e' -> Q tt e') -> run (dump_privs fuel) Q X e.
Proof.
  intros Hf HQ. apply run_bind, run_other; [by_decide|]. intros pset e1 H1. destruct (pset =? 0); [by apply run_eprint, HQ|].
  apply run_bind, run_puts. intros e2 H2. apply priv_loop_spec; [lia|]. intros e3 H3. apply HQ. eauto using q_same_trans.
Qed.

Lemma dump_args_spec argv (Q : () -> E -> Prop) X e : (forall e', q_same e e' -> Q tt e') -> run (dump_args argv) Q X e.
Proof.
  intros HQ. apply run_bind, run_puts. intros e1 H1. revert e1 H1. induction argv as [|s argv IH]; intros e1 H1; cbn [puts_all]; [by apply run_ret, HQ|].
  apply run_bind, run_puts. intros e2 H2. apply IH. by eapply q_same_trans.
Qed.

(** The output goes to a new log, the other logs are rotated. *)
Definition redirected (m : gmap cstr Z) (e' : E) : Prop :=
  rotation m (files e') /\ exists f, files e' !! LOG_FILE = Some f /\ (forall path, path <> LOG_FILE -> files e' !! path <> Some f) /\
    fd_file e' 1 = Some f /\ fd_file e' 2 = Some f.

Lemma redirected_same m e e' : q_same e e' -> redirected m e -> redirected m e'.
Proof. intros (Hf & Hd & _). unfold redirected. by rewrite Hf, Hd. Qed.

(** All that comes before the command. *)
Lemma prepare_spec (fuel : nat) name cmd args (Q : () -> E -> Prop) X e : (priv_count < fuel)%nat ->
  (forall e', redirected (files e) e' ->
     run (sys "execvp" (AS cmd :: vector (cmd :: args)))
       (fun r => run (if r =? 0 then mret tt else eprint (cs "FATAL: execvp() failed." ++ [LF]) ;; c_exit 1) Q X) X e') ->
  run (main strerror fuel (name :: cmd :: args)) Q X e.
Proof.
  intros Hfuel Hk. unfold main. rewrite (proj2 (Z.ltb_ge _ 2)) by (rewrite !Zlen_cons; pose proof (Zlen_nonneg args); lia).
  apply run_bind, run_ret, run_bind, rotate_logs_spec. intros e1 Hf1 _ _. apply run_bind, redirect_output_spec.
  { rewrite Hf1. apply move_old. intros He. by eapply (log_name_log 0); [lia|]. }
  intros f e2 Hnew Hf2 Hd1 Hd2 _. assert (redirected (files e) e2) as Hr.
  { split; [rewrite Hf2, Hf1; apply shift_rotation|]. exists f. rewrite Hf2, lookup_insert_eq. split_and!; [done| |done..].
    intros path Hp. rewrite lookup_insert_ne by done. intros Hf. by eapply Hnew. }
  apply run_bind, disable_cores_spec. intros e3 H3. apply run_bind, dump_privs_spec; [done|]. intros e4 H4.
  apply run_bind, dump_args_spec. intros e5 H5. apply run_bind, run_other; [by_decide|]. intros now e6 H6.
  apply run_bind, run_syscall. intros r e7 Hs7. pose proof (q_other _ _ _ _ _ Hs7 ltac:(by_decide)) as H7.
  apply run_bind, run_other; [by_decide|]. intros ? e8 H8. apply run_bind, run_other; [by_decide|]. intros ? e9 H9.
  apply run_bind, run_other; [by_decide|]. intros ? e10 H10. unfold exec_next. cbn [tail head]. apply run_bind, run_bind.
  eapply run_access; [done|]. apply Hk. eauto 12 using redirected_same.
Qed.

(** C18: the command takes the place of the program with its output and its errors going to a new
    log; each earlier log is the next older one, the oldest is given up, and no other file is
    touched.  A command that cannot be executed, or none, ends the program with status 1. *)
Theorem qemu_exec_rotates (fuel : nat) name cmd args e : (priv_count < fuel)%nat ->
  run (main strerror fuel [name]) (fun _ _ => False) (fun st => st = 1) e /\
  let argv := cmd :: args in
  if can_exec (AS cmd :: vector argv) then
    run (main strerror fuel (name :: argv))
      (fun _ e' => rotation (files e) (files e') /\ executed e' = Some (AS cmd :: vector argv) /\
         exists f, files e' !! LOG_FILE = Some f /\ (forall path, path <> LOG_FILE -> files e' !! path <> Some f) /\ fd_file e' 1 = Some f /\ fd_file e' 2 = Some f)
      never e
  else run (main strerror fuel (name :: argv)) (fun _ _ => False) (fun st => st = 1) e.
Proof.
  intros Hfuel. split; [by eapply run_bind, run_bind, run_access; [done|]; apply run_bind, run_eprint, run_exit|]. cbv zeta.
  destruct (can_exec _) eqn:Hx; (apply prepare_spec; [done|]); intros e1 Hr; apply run_sys; intros r e2 Hs;
    destruct (q_exec _ _ _ _ Hs) as (Hf & Hd & Hyes & Hno).
  - destruct (Hyes Hx) as [-> Hex]. apply run_ret. unfold redirected in Hr. rewrite <-Hf, <-Hd in Hr. destruct Hr as [? ?]. by split_and!.
  - rewrite (Hno Hx). by apply run_bind, run_eprint, run_exit.
Qed.
End spec.

(** ** A concrete kernel *)

(** The files, the descriptors, and the command executed; there are two privileges. *)
Record vm_state := VmState { vs_files : gmap cstr Z; vs_fds : gmap Z Z; vs_exec : option (list sarg) }.

Definition absolute (args : list sarg) : bool := match args with AS (c :: _) :: _ => Ascii.eqb c SLASH | _ => false end.

#[export] Instance vm_kernel : Kernel vm_state := fun name args e =>
  if String.eqb name "rename" then
    match args with
    | [AS old; AS new] => (SysRet (if decide (is_Some (vs_files e !! old)) then 0 else -1) 2 [] [], VmState (move old new (vs_files e)) (vs_fds e) (vs_exec e))
    | _ => (SysRet (-1) 22 [] [], e)
    end
  else if String.eqb name "open" then
    match args with
    | [AS path; _; _] => let f := fresh (map_img (vs_files e) : gset Z) in (SysRet 3 0 [] [], VmState (<[path := f]> (vs_files e)) (<[3 := f]> (vs_fds e)) (vs_exec e))
    | _ => (SysRet (-1) 22 [] [], e)
    end
  else if String.eqb name "dup2" then
    match args with
    | [AZ fd; AZ fd'] => (SysRet 0 0 [] [], VmState (vs_files e) (partial_alter (fun _ => vs_fds e !! fd) fd' (vs_fds e)) (vs_exec e))
    | _ => (SysRet (-1) 22 [] [], e)
    end
  else if String.eqb name "execvp" then
    if absolute args then (SysRet 0 0 [] [], VmState (vs_files e) (vs_fds e) (Some args)) else (SysRet (-1) 2 [] [], e)
  else if String.eqb name "priv_getbynum" then
    (match args with [AZ i] => if i <? 2 then SysRet 1 0 (if i =? 0 then cs "proc_fork" else cs "proc_exec") [] else SysRet 0 0 [] [] | _ => SysRet 0 0 [] [] end, e)
  else (SysRet 1 0 [] [], e).

#[export] Instance vm_env : QemuEnv vm_state.
Proof.
  refine {| files := vs_files; fd_file := fun e fd => vs_fds e !! fd; executed := vs_exec; priv_count := 2; can_exec := absolute |}.
  - intros old new e r e' [= <- <-] Hne. split_and!; [done..|]. cbn [sr_ret vs_files]. unfold move. destruct (vs_files e !! old) eqn:Hf.
    + by rewrite decide_True by eauto.
    + rewrite decide_False; [done|]. by intros [? ?].
  - intros path flags mode e r e' [= <- <-] Hnone. split; [done|]. split; [done|]. eexists. split_and!; [|done|by apply lookup_insert_eq].
    intros path' f' Hf' ->. eapply (is_fresh (map_img (vs_files e) : gset Z)). by eapply elem_of_map_img_2.
  - intros fd fd' e r e' [= <- <-]. cbn [vs_files vs_exec vs_fds sr_ret]. split_and!; [done..|by rewrite lookup_partial_alter_eq|].
    intros i Hi. by rewrite lookup_partial_alter_ne.
  - intros name args e r e' Hs Hn. unfold sys_step, vm_kernel in Hs. repeat (apply elem_of_cons in Hn as [->|Hn]; [by injection Hs as _ <-|]). by apply elem_of_nil in Hn.
  - intros i e r e' [= <- <-] Hi. cbn in Hi. by rewrite (proj2 (Z.ltb_ge i 2)) by lia.
  - intros args e r e' Hs. unfold sys_step, vm_kernel in Hs. cbn [String.eqb Ascii.eqb Bool.eqb] in Hs. destruct (absolute args); by injection Hs as <- <-.
Defined.

Definition qemu_args : list cstr := cs <$> ["/smartdc/bin/qemu-system-x86_64"; "-m"; "1024"]%string.
Definition vm_start : vm_state := VmState (list_to_map [(LOG_FILE, 10); (log_name 0, 11); (log_name 8, 12); (log_name 9, 13)]) ∅ None.

Lemma qemu_exec_rotates_witness : (2 < 3)%nat /\
  run (main (fun _ => []) 3 (cs "qemu-exec" :: qemu_args))
    (fun _ e' => vs_files e' !! log_name 0 = Some 10 /\ vs_files e' !! log_name 1 = Some 11 /\ vs_files e' !! log_name 9 = Some 12 /\
       vs_files e' !! LOG_FILE = vs_fds e' !! 1) never vm_start.
Proof.
  split; [lia|]. destruct (qemu_exec_rotates (fun _ => []) 3 (cs "qemu-exec") (cs "/smartdc/bin/qemu-system-x86_64") (cs <$> ["-m"; "1024"]%string) vm_start ltac:(apply Nat.ltb_lt; reflexivity)) as [_ Hrun].
  cbv zeta in Hrun. change (can_exec _) with true in Hrun. cbv iota in Hrun. eapply run_mono; [exact Hrun| |done].
  intros [] e' ((H0 & Hs & H9 & _) & _ & f & Hf & _ & H1 & _). split; [exact H0|]. split; [exact (Hs 0%nat ltac:(lia))|]. split; [exact H9|].
  exact (eq_trans Hf (eq_sym H1)).
Defined.
