(* ===== verification/Measure.v ===== *)
(** * Measure: asking a terminal for its size, [src/measure_terminal.c]

    The program puts the controlling terminal in raw mode, sends it two requests, reads one or two
    control sequences back, restores the mode and prints shell code.  The terminal is part of the
    [Kernel].  [term_fd] and [orig_tios] are arguments. *)
From Stdlib Require Import Lia.
From S2P Require Import Prelude Cnum Strset Sys Mdata Docker Tools.

Definition ESC : char := chr 27.
Definition PREAMBLE : cstr := ESC :: cs "[8;".
Definition PREAMBLE_LENGTH : Z := Zlen PREAMBLE.
Definition REQUEST : cstr := (ESC :: cs "[18t") ++ (ESC :: cs "[0c").
Definition REQUEST_LENGTH : Z := Zlen REQUEST.

Definition SHELL_OUTPUT (cols rows : Z) : cstr :=
  cs "export COLUMNS=" ++ print_d cols ++ cs "; export LINES=" ++ print_d rows ++ cs ";" ++ [LF].

(** [struct termios], with the two control characters the program sets apart from the others. *)
Record termios := Termios {
  c_iflag : Z; c_oflag : Z; c_cflag : Z; c_lflag : Z; c_vmin : Z; c_vtime : Z; c_others : list Z
}.

Definition termios_list (t : termios) : list Z :=
  c_iflag t :: c_oflag t :: c_cflag t :: c_lflag t :: c_vmin t :: c_vtime t :: c_others t.
Definition termios_of (l : list Z) : option termios :=
  match l with i :: o :: c :: l :: vmin :: vtime :: others => Some (Termios i o c l vmin vtime others) | _ => None end.

(** The flags of [<sys/termios.h>]. *)
Definition BRKINT : Z := 2.
Definition INPCK : Z := 16.
Definition ISTRIP : Z := 32.
Definition ICRNL : Z := 256.
Definition IXON : Z := 1024.
Definition OPOST : Z := 1.
Definition CS8 : Z := 48.
Definition ISIG : Z := 1.
Definition ICANON : Z := 2.
Definition ECHO : Z := 8.
Definition IEXTEN : Z := 32768.

(** The settings of [raw_mode]. *)
Definition raw_of (t : termios) : termios :=
  Termios (Z.ldiff (c_iflag t) (Z.lor BRKINT (Z.lor ICRNL (Z.lor INPCK (Z.lor ISTRIP IXON)))))
    (Z.ldiff (c_oflag t) OPOST) (Z.lor (c_cflag t) CS8)
    (Z.ldiff (c_lflag t) (Z.lor ECHO (Z.lor ICANON (Z.lor IEXTEN ISIG)))) 0 50 (c_others t).

Inductive cseq_state := CSEQ_ESCAPE | CSEQ_BRACKET | CSEQ_QMARK | CSEQ_NUMBER.

(** The size of the buffer of [read_cseq]. *)
Definition CSEQ_BUF : nat := 64.

Definition is_digit (c : char) : bool := (48 <=? code c) && (code c <=? 57).
Definition number_char (c : char) : bool := is_digit c || Ascii.eqb c ";"%char.
Definition first_char (c : char) : bool := is_digit c || Ascii.eqb c "?"%char || Ascii.eqb c ";"%char.

Section measure.
Context {E : Type} `{Kernel E} `{DM : DataModel}.

Definition tcsetattr (term_fd : Z) (t : termios) : C E Z :=
  sys "tcsetattr" (AZ term_fd :: AS (cs "TCSAFLUSH") :: (AZ <$> termios_list t)).

Definition reset_mode (term_fd : Z) (orig_tios : termios) : C E Z :=
  r ← tcsetattr term_fd orig_tios; if r =? -1 then mret (-1) else mret 0.

Definition raw_mode (term_fd : Z) (orig_tios : termios) : C E Z :=
  r ← tcsetattr term_fd (raw_of orig_tios); if r =? -1 then mret (-1) else mret 0.

(** The loop of [read_cseq]: [n] characters of the buffer are left after [buf].  Nothing checks
    that there is one for the NUL. *)
Fixpoint cseq_loop (n : nat) (term_fd : Z) (st : cseq_state) (buf : list char) : C E (option cstr) :=
  match n with
  | O => mret None
  | S n =>
      r ← syscall "read" [AZ term_fd; AZ 1];
      if negb (sr_ret r =? 1) then mret None else
      c ← c_access (head (sr_data r));
      let buf := buf ++ [c] in
      match st with
      | CSEQ_ESCAPE => if negb (Ascii.eqb c ESC) then mret None else cseq_loop n term_fd CSEQ_BRACKET buf
      | CSEQ_BRACKET => if negb (Ascii.eqb c "["%char) then mret None else cseq_loop n term_fd CSEQ_QMARK buf
      | CSEQ_QMARK => if first_char c then cseq_loop n term_fd CSEQ_NUMBER buf else mret None
      | CSEQ_NUMBER =>
          if number_char c then cseq_loop n term_fd CSEQ_NUMBER buf
          else match n with
               | O => c_undefined
               | _ => strdup (c_text buf)
               end
      end
  end.

Definition read_cseq (term_fd : Z) : C E (option cstr) := cseq_loop CSEQ_BUF term_fd CSEQ_ESCAPE [].

Definition process_size (buf : cstr) : C E Z :=
  if (Zlen buf <=? PREAMBLE_LENGTH) || negb (strncmp buf PREAMBLE PREAMBLE_LENGTH =? 0) then mret (-1) else
  match split_first ";"%char (drop (Z.to_nat PREAMBLE_LENGTH) buf) with
  | None => mret (-1)
  | Some (rows, rest) =>
      match split_first "t"%char rest with
      | None => mret (-1)
      | Some (cols, _) =>
          rowsi ← c_access (atoi rows);
          colsi ← c_access (atoi cols);
          if (rowsi <? 1) || (colsi <? 1) then mret (-1)
          else _ ← sys "printf" [AS (SHELL_OUTPUT colsi rowsi)]; mret 0
      end
  end.

Definition main (term : option cstr) : C E Z :=
  let console := match term with Some t => (strcmp t (cs "sun") =? 0) || (strcmp t (cs "sun-color") =? 0) | None => false end in
  if console : bool then mret 1 else
  term_fd ← sys "open" [AS (cs "/dev/tty"); AS (cs "O_RDWR|O_NOCTTY")];
  tty ← (if term_fd =? -1 then mret 0 else sys "isatty" [AZ term_fd]);
  if (term_fd =? -1) || (tty =? 0) then mret 1 else
  r ← syscall "tcgetattr" [AZ term_fd];
  if sr_ret r =? -1 then mret 1 else
  orig_tios ← c_access (termios_of (sr_vals r));
  r ← raw_mode term_fd orig_tios;
  if r =? -1 then mret 1 else
  r ← sys "write" [AZ term_fd; AS REQUEST];
  if negb (r =? REQUEST_LENGTH) then _ ← reset_mode term_fd orig_tios; mret 1 else
  buf0 ← read_cseq term_fd;
  let is_match := match buf0 with Some b => strncmp b PREAMBLE PREAMBLE_LENGTH =? 0 | None => false end in
  (if is_match : bool then _ ← read_cseq term_fd; mret tt else mret tt) ;;
  _ ← reset_mode term_fd orig_tios;
  if negb is_match then mret 1 else
  buf0 ← c_access buf0;
  process_size buf0.
End measure.
