(* ===== verification/MeasureSpec.v ===== *)
(** * MeasureSpec: what measure_terminal reports

    [TermEnv] is a terminal that answers what it is sent: a mode, characters that wait to be read,
    and lines printed to standard output.  [cseq_of] is the control sequence its answer begins
    with.  [answer_text] is what the program makes of a sequence with the preamble of a
    size, [measured] what it makes of an answer.  The mode is restored in each case of them; a
    sequence that fills the buffer is not among them ([measure_terminal_overrun]). *)
From Stdlib Require Import Lia.
From S2P Require Import Prelude Cnum Strset Sys Mdata Json JsonPrint Docker DockerEnv Tools Measure.

(** The longest beginning of a list of characters that satisfy [p]. *)
Fixpoint span (p : char -> bool) (i : list char) : list char * list char :=
  match i with
  | [] => ([], [])
  | c :: i' => if p c then let '(d, r) := span p i' in (c :: d, r) else ([], i)
  end.

(** The control sequence at the head of the input, and what follows it. *)
Definition cseq_of (i : list char) : option (list char * list char) :=
  match i with
  | e :: b :: c :: i =>
      if Ascii.eqb e ESC && Ascii.eqb b "["%char && first_char c then
        match span number_char i with
        | (d, x :: rest) => Some (e :: b :: c :: d ++ [x], rest)
        | _ => None
        end
      else None
  | _ => None
  end.

(** The sequence fills the buffer, so that its NUL does not fit. *)
Definition overruns (i : list char) : Prop := exists s rest, cseq_of i = Some (s, rest) /\ length s = CSEQ_BUF.

Class TermEnv (E : Type) `{Kernel E} := {
  tm_in : E -> list char;
  tm_mode : E -> termios;
  tm_out : E -> list cstr;
  tm_reply : list char -> list char;
  tm_open args e r e' : sys_step "open" args e = (r, e') ->
    0 <= sr_ret r /\ tm_in e' = tm_in e /\ tm_mode e' = tm_mode e /\ tm_out e' = tm_out e;
  tm_isatty fd e r e' : sys_step "isatty" [AZ fd] e = (r, e') ->
    sr_ret r = 1 /\ tm_in e' = tm_in e /\ tm_mode e' = tm_mode e /\ tm_out e' = tm_out e;
  tm_getattr fd e r e' : sys_step "tcgetattr" [AZ fd] e = (r, e') ->
    sr_ret r = 0 /\ sr_vals r = termios_list (tm_mode e) /\
    tm_in e' = tm_in e /\ tm_mode e' = tm_mode e /\ tm_out e' = tm_out e;
  tm_setattr fd t e r e' : sys_step "tcsetattr" (AZ fd :: AS (cs "TCSAFLUSH") :: (AZ <$> termios_list t)) e = (r, e') ->
    sr_ret r = 0 /\ tm_in e' = [] /\ tm_mode e' = t /\ tm_out e' = tm_out e;
  tm_write fd s e r e' : sys_step "write" [AZ fd; AS s] e = (r, e') ->
    sr_ret r = Zlen s /\ tm_in e' = tm_in e ++ tm_reply s /\ tm_mode e' = tm_mode e /\ tm_out e' = tm_out e;
  tm_read fd e r e' : sys_step "read" [AZ fd; AZ 1] e = (r, e') ->
    tm_mode e' = tm_mode e /\ tm_out e' = tm_out e /\
    match tm_in e with
    | [] => sr_ret r = 0 /\ tm_in e' = []
    | c :: i => sr_ret r = 1 /\ sr_data r = [c] /\ tm_in e' = i
    end;
  tm_printf s e r e' : sys_step "printf" [AS s] e = (r, e') ->
    tm_in e' = tm_in e /\ tm_mode e' = tm_mode e /\ tm_out e' = tm_out e ++ [s]
}.

(** The answer of a terminal that knows the request. *)
Definition size_reply (rows cols : Z) : list char := PREAMBLE ++ print_d rows ++ ";"%char :: print_d cols ++ ["t"%char].

(** *** Sizes *)

Lemma span_app p d x r : Forall (fun c => p c = true) d -> p x = false -> span p (d ++ x :: r) = (d, x :: r).
Proof. intros Hd Hx. induction Hd as [|c d Hc _ IH]; cbn; [by rewrite Hx|]. by rewrite Hc, IH. Qed.

Lemma print_d_digits n : 0 <= n -> Forall (fun c => is_digit c = true) (print_d n).
Proof.
  intros Hn. unfold print_d. rewrite (proj2 (Z.ltb_ge n 0)) by lia.
  eapply Forall_impl; [|apply (print_base_digits 10 n); lia]. intros c Hc. cbn in Hc. unfold is_digit_in, digit_val, is_digit in *.
  destruct ((48 <=? code c) && (code c <=? 57)); [done|].
  destruct ((97 <=? code c) && (code c <=? 122)) eqn:Ha; [lia|]. destruct ((65 <=? code c) && (code c <=? 90)) eqn:Hb; [lia|done].
Qed.

Lemma print_d_without n c : 0 <= n -> is_digit c = false -> c ∉ print_d n.
Proof. intros Hn Hc Hin. pose proof (print_d_digits n Hn) as Hd. rewrite list.Forall_forall in Hd. specialize (Hd c Hin). cbn in Hd. congruence. Qed.

Lemma print_d_atoi n : 0 <= n <= INT_MAX -> atoi (print_d n) = Some n.
Proof.
  intros Hn. unfold print_d. rewrite (proj2 (Z.ltb_ge n 0)) by lia. rewrite <-(c_text_id (print_base 10 n)); [by apply atoi_print|].
  eapply (digits_cstr 10), print_base_digits; lia.
Qed.

Lemma number_of_digits d : Forall (fun c => is_digit c = true) d -> Forall (fun c => number_char c = true) d.
Proof. apply Forall_impl. intros c Hc. unfold number_char. by rewrite Hc. Qed.

Lemma size_cseq rows cols rest : 0 <= rows -> 0 <= cols -> cseq_of (size_reply rows cols ++ rest) = Some (size_reply rows cols, rest).
Proof.
  intros Hr Hc. unfold size_reply. change PREAMBLE with (ESC :: "["%char :: "8"%char :: [";"%char]).
  cbn [app cseq_of]. change (Ascii.eqb ESC ESC && Ascii.eqb "[" "[" && first_char "8") with true. cbv iota.
  replace (";"%char :: (print_d rows ++ ";"%char :: print_d cols ++ ["t"%char]) ++ rest)
    with ((";"%char :: print_d rows ++ ";"%char :: print_d cols) ++ "t"%char :: rest) by (cbn; rewrite <-!app_assoc; cbn; by rewrite <-!app_assoc).
  rewrite span_app; [|constructor; [done|]; apply Forall_app; split; [by apply number_of_digits, print_d_digits|]; constructor; [done|]; by apply number_of_digits, print_d_digits|done].
  do 2 f_equal. cbn. by rewrite <-app_assoc.
Qed.

Lemma size_text rows cols : 0 <= rows -> 0 <= cols -> is_cstr (size_reply rows cols).
Proof.
  intros Hr Hc. unfold size_reply. assert (forall n, 0 <= n -> is_cstr (print_d n)) as Hp.
  { intros n Hn. unfold print_d. rewrite (proj2 (Z.ltb_ge n 0)) by lia. eapply (digits_cstr 10), print_base_digits; lia. }
  apply is_cstr_app. split; [by_decide|]. apply is_cstr_app. split; [by apply Hp|]. apply is_cstr_cons. split; [done|].
  apply is_cstr_app. split; [by apply Hp|by_decide].
Qed.

Lemma size_length rows cols : 0 <= rows <= INT_MAX -> 0 <= cols <= INT_MAX -> (length (size_reply rows cols) < CSEQ_BUF)%nat.
Proof.
  intros Hr Hc. pose proof (print_d_length rows) as H1. pose proof (print_d_length cols) as H2.
  unfold size_reply, Zlen, CSEQ_BUF, INT_MIN, INT_MAX in *. rewrite !length_app. cbn [length]. rewrite length_app. cbn. lia.
Qed.

Section spec.
Context {E : Type} `{TermEnv E} `{DM : DataModel}.
Implicit Types w : world E.

(** The input, the mode and the output of a world. *)
Definition tm_at (i : list char) (t : termios) (o : list cstr) w : Prop :=
  good w /\ tm_in (w_env w) = i /\ tm_mode (w_env w) = t /\ tm_out (w_env w) = o.

(** A call, and what its law says. *)
Lemma at_syscall name args (P : sysret -> Prop) i t o i' t' o' (Q : sysret -> world E -> Prop) w :
  tm_at i t o w ->
  (forall e r e', sys_step name args e = (r, e') -> tm_in e = i -> tm_mode e = t -> tm_out e = o ->
     P r /\ tm_in e' = i' /\ tm_mode e' = t' /\ tm_out e' = o') ->
  (forall r w', P r -> tm_at i' t' o' w' -> Q r w') -> wp (syscall name args) Q w.
Proof.
  intros (Hg & Hi & Ht & Ho) Hlaw HQ. destruct (sys_step name args (w_env w)) as [r e'] eqn:Hs.
  eapply wp_syscall; [exact Hs|]. destruct (Hlaw _ _ _ Hs Hi Ht Ho) as (HP & ? & ? & ?). apply HQ; [done|]. by destruct Hg; split_and!.
Qed.

Lemma at_sys name args (P : Z -> Prop) i t o i' t' o' (Q : Z -> world E -> Prop) w :
  tm_at i t o w ->
  (forall e r e', sys_step name args e = (r, e') -> tm_in e = i -> tm_mode e = t -> tm_out e = o ->
     P (sr_ret r) /\ tm_in e' = i' /\ tm_mode e' = t' /\ tm_out e' = o') ->
  (forall r w', P r -> tm_at i' t' o' w' -> Q r w') -> wp (sys name args) Q w.
Proof.
  intros Hw Hlaw HQ. apply wp_bind. eapply (at_syscall _ _ (fun r => P (sr_ret r))); [done|exact Hlaw|].
  intros r w' HP Hw'. apply wp_ret. by apply HQ.
Qed.

(** Reading a character. *)
Lemma at_read fd c i t o (Q : sysret -> world E -> Prop) w :
  tm_at (c :: i) t o w -> (forall r w', sr_ret r = 1 /\ sr_data r = [c] -> tm_at i t o w' -> Q r w') ->
  wp (syscall "read" [AZ fd; AZ 1]) Q w.
Proof.
  intros Hw HQ. eapply at_syscall; [done| |exact HQ]. intros e r e' Hs Hi Ht Ho.
  destruct (tm_read _ _ _ _ Hs) as (? & ? & Hr). rewrite Hi in Hr. destruct Hr as (? & ? & ?). by split_and!; try congruence.
Qed.
Lemma at_read_nothing fd t o (Q : sysret -> world E -> Prop) w :
  tm_at [] t o w -> (forall r w', sr_ret r = 0 -> tm_at [] t o w' -> Q r w') -> wp (syscall "read" [AZ fd; AZ 1]) Q w.
Proof.
  intros Hw HQ. eapply (at_syscall _ _ (fun r => sr_ret r = 0)); [done| |exact HQ]. intros e r e' Hs Hi Ht Ho.
  destruct (tm_read _ _ _ _ Hs) as (? & ? & Hr). rewrite Hi in Hr. destruct Hr as (? & ?). by split_and!; try congruence.
Qed.

(** [wp m Q w], as a property of the outcome. *)
Definition returns {A} (Q : A -> world E -> Prop) (r : outcome (A * world E)) : Prop :=
  match r with Done (a, w') => Q a w' | _ => False end.

(** What holds of the outcome of the rest holds of the whole. *)
Lemma bind_to {A B} (m : C E A) (k : A -> C E B) (P : outcome (B * world E) -> Prop) w :
  wp m (fun a w' => P (k a w')) w -> P ((m ≫= k) w).
Proof. unfold wp, mbind, C_bind. by destruct (m w) as [[a w']| | |]. Qed.

(** A turn of the loop. *)
Lemma at_turn n fd st buf c i t o (P : outcome (option cstr * world E) -> Prop) w :
  tm_at (c :: i) t o w ->
  (forall w', tm_at i t o w' ->
     P ((match st with
         | CSEQ_ESCAPE => if negb (Ascii.eqb c ESC) then mret None else cseq_loop n fd CSEQ_BRACKET (buf ++ [c])
         | CSEQ_BRACKET => if negb (Ascii.eqb c "["%char) then mret None else cseq_loop n fd CSEQ_QMARK (buf ++ [c])
         | CSEQ_QMARK => if first_char c then cseq_loop n fd CSEQ_NUMBER (buf ++ [c]) else mret None
         | CSEQ_NUMBER =>
             if number_char c then cseq_loop n fd CSEQ_NUMBER (buf ++ [c])
             else match n with O => c_undefined | _ => strdup (c_text (buf ++ [c])) end
         end) w')) ->
  P (cseq_loop (S n) fd st buf w).
Proof.
  intros Hw HP. cbn [cseq_loop]. apply bind_to. eapply at_read; [done|]. intros r w' [Hr Hd] Hw'. rewrite Hr. cbn [Z.eqb negb Pos.eqb].
  apply bind_to. eapply wp_access; [by rewrite Hd|]. cbv zeta. by apply HP.
Qed.

Lemma at_end n fd st buf t o (Q : option cstr -> world E -> Prop) w :
  tm_at [] t o w -> (forall w', tm_at [] t o w' -> Q None w') -> wp (cseq_loop n fd st buf) Q w.
Proof.
  intros Hw HQ. destruct n as [|n]; [by apply wp_ret, HQ|]. cbn [cseq_loop]. apply wp_bind. eapply at_read_nothing; [done|].
  intros r w' -> Hw'. by apply wp_ret, HQ.
Qed.

Lemma at_strdup s i t o (Q : option cstr -> world E -> Prop) w :
  tm_at i t o w -> Zlen s < HEAP_HI -> (forall w', tm_at i t o w' -> Q (Some s) w') -> wp (strdup s) Q w.
Proof.
  intros (Hg & Hi & Ht & Ho) Hs HQ. apply strdup_spec; [done|done|]. intros w' [Hg' He]. apply HQ. unfold tm_at. by rewrite He.
Qed.

(** What [read_cseq] gives for the sequence at the head of the input: [room] bounds its length. *)
Definition text_of (room : nat) (seq : option (list char * list char)) : option cstr :=
  match seq with Some (s, _) => if decide (length s < room)%nat then Some (c_text s) else None | None => None end.

(** The input that is left when there is such a sequence. *)
Definition leaves (room : nat) (seq : option (list char * list char)) (i' : list char) : Prop :=
  match seq with Some (s, rest) => (length s < room)%nat -> i' = rest | None => True end.

(** The sequence, from the characters already read and the input. *)
Definition number_seq (buf i : list char) : option (list char * list char) :=
  match span number_char i with (d, x :: rest) => Some (buf ++ d ++ [x], rest) | _ => None end.

Lemma number_seq_cons buf c i : number_char c = true -> number_seq buf (c :: i) = number_seq (buf ++ [c]) i.
Proof.
  intros Hc. unfold number_seq. cbn [span]. rewrite Hc. destruct (span number_char i) as [d [|x rest]]; [done|]. by rewrite <-app_assoc.
Qed.
Lemma number_seq_end buf c i : number_char c = false -> number_seq buf (c :: i) = Some (buf ++ [c], i).
Proof. intros Hc. unfold number_seq. cbn [span]. by rewrite Hc. Qed.

Lemma number_seq_longer buf i s rest : number_seq buf i = Some (s, rest) -> (length buf < length s)%nat.
Proof.
  unfold number_seq. destruct (span number_char i) as [d [|x r]]; [done|]. intros [= <- <-]. rewrite !length_app. cbn. lia.
Qed.

Lemma at_number n fd buf i t o (Q : option cstr -> world E -> Prop) w :
  tm_at i t o w -> (length buf + n = CSEQ_BUF)%nat ->
  (forall s rest, number_seq buf i = Some (s, rest) -> length s <> CSEQ_BUF) ->
  (forall i' w', tm_at i' t o w' -> leaves CSEQ_BUF (number_seq buf i) i' -> Q (text_of CSEQ_BUF (number_seq buf i)) w') ->
  wp (cseq_loop n fd CSEQ_NUMBER buf) Q w.
Proof.
  revert buf i w. induction n as [|n IH]; intros buf i w Hw Hn Hover HQ.
  { apply wp_ret. assert (text_of CSEQ_BUF (number_seq buf i) = None) as Hnone.
    { unfold text_of. destruct (number_seq buf i) as [[s rest]|] eqn:Hs; [|done]. apply number_seq_longer in Hs. by rewrite decide_False by lia. }
    rewrite <-Hnone. eapply HQ; [exact Hw|]. unfold leaves. destruct (number_seq buf i) as [[s rest]|] eqn:Hs; [|done].
    apply number_seq_longer in Hs. lia. }
  destruct i as [|c i]; [eapply at_end; [done|]; intros w' Hw'; by eapply HQ|].
  apply (at_turn n fd CSEQ_NUMBER buf c i t o (returns Q)); [done|]. intros w1 Hw1. destruct (number_char c) eqn:Hc.
  - rewrite number_seq_cons in Hover, HQ by done. eapply IH; [done| |exact Hover|exact HQ]. rewrite length_app. cbn. lia.
  - rewrite number_seq_end in Hover, HQ by done. destruct n as [|n].
    { specialize (Hover _ _ eq_refl). rewrite length_app in Hover. cbn in Hover. lia. }
    eapply at_strdup; [done| |].
    { pose proof (c_text_length (buf ++ [c])) as Hl. unfold Zlen, HEAP_HI in *. rewrite length_app in Hl. cbn in *. change CSEQ_BUF with 64%nat in Hn. lia. }
    intros w2 Hw2. specialize (HQ i w2 Hw2). unfold text_of, leaves in HQ. rewrite decide_True in HQ by (rewrite length_app; cbn; lia). by apply HQ.
Qed.

(** [read_cseq] reads the sequence at the head of the input; what it has read of something else is
    lost. *)
Lemma at_read_cseq fd i t o (Q : option cstr -> world E -> Prop) w :
  tm_at i t o w -> ~ overruns i ->
  (forall i' w', tm_at i' t o w' -> leaves CSEQ_BUF (cseq_of i) i' -> Q (text_of CSEQ_BUF (cseq_of i)) w') ->
  wp (read_cseq fd) Q w.
Proof.
  intros Hw Hover HQ. unfold read_cseq. destruct i as [|e i]; [eapply at_end; [done|]; intros; by eapply HQ|].
  apply (at_turn 63 fd CSEQ_ESCAPE [] e i t o (returns Q)); [done|]. intros w1 Hw1. destruct (Ascii.eqb e ESC) eqn:He; cbn [negb].
  2:{ apply wp_ret. cbn [cseq_of] in HQ. rewrite He in HQ. cbn [andb] in HQ. destruct i as [|b [|c i]]; by eapply HQ. }
  destruct i as [|b i]; [eapply at_end; [done|]; intros; by eapply HQ|].
  apply (at_turn 62 fd CSEQ_BRACKET [e] b i t o (returns Q)); [done|]. intros w2 Hw2. destruct (Ascii.eqb b "["%char) eqn:Hb; cbn [negb].
  2:{ apply wp_ret. cbn [cseq_of] in HQ. rewrite Hb, andb_false_r in HQ. cbn [andb] in HQ. destruct i as [|c i]; by eapply HQ. }
  destruct i as [|c i]; [eapply at_end; [done|]; intros; by eapply HQ|].
  assert (cseq_of (e :: b :: c :: i) = if first_char c then number_seq [e; b; c] i else None) as Hseq.
  { cbn [cseq_of]. rewrite He, Hb. cbn [andb]. unfold number_seq. destruct (first_char c); [|done]. by destruct (span number_char i) as [d [|x r]]. }
  rewrite Hseq in HQ. apply (at_turn 61 fd CSEQ_QMARK [e; b] c i t o (returns Q)); [done|]. intros w3 Hw3.
  destruct (first_char c); [|by apply wp_ret; eapply HQ].
  eapply at_number; [done|done| |exact HQ]. intros s rest Hs Hl. apply Hover. exists s, rest. by rewrite Hseq.
Qed.

(** The result and the output for a text with the preamble: two numbers make a size if both are
    positive; a text that has not both is no size. *)
Inductive answer_text (t : cstr) : Z -> list cstr -> Prop :=
| text_numbers r c tail rows cols :
    t = PREAMBLE ++ r ++ ";"%char :: c ++ "t"%char :: tail -> ";"%char ∉ r -> "t"%char ∉ c ->
    atoi r = Some rows -> atoi c = Some cols ->
    answer_text t (if (1 <=? rows) && (1 <=? cols) then 0 else -1) (if (1 <=? rows) && (1 <=? cols) then [SHELL_OUTPUT cols rows] else [])
| text_no_cols u : t = PREAMBLE ++ u -> ";"%char ∉ u -> answer_text t (-1) []
| text_no_end r c : t = PREAMBLE ++ r ++ ";"%char :: c -> ";"%char ∉ r -> "t"%char ∉ c -> answer_text t (-1) [].

Lemma split_first_none d u : d ∉ u -> split_first d u = None.
Proof.
  intros Hd. destruct (split_first d u) as [[a b]|] eqn:Hs; [|done]. apply split_first_Some in Hs as [-> _].
  exfalso. apply Hd, elem_of_app. right. by left.
Qed.

Lemma preamble_test u : strncmp (PREAMBLE ++ u) PREAMBLE PREAMBLE_LENGTH = 0.
Proof. unfold strncmp. change (Z.to_nat PREAMBLE_LENGTH) with (length PREAMBLE). rewrite take_app_length. by apply strcmp_eq. Qed.

Lemma at_process_size text st out i t o (Q : Z -> world E -> Prop) w :
  answer_text text st out -> tm_at i t o w -> (forall w', tm_at i t (o ++ out) w' -> Q st w') -> wp (process_size text) Q w.
Proof.
  intros Htext Hw HQ. unfold process_size. assert (exists u, text = PREAMBLE ++ u) as [u Hu] by (destruct Htext; by eexists).
  assert (strncmp text PREAMBLE PREAMBLE_LENGTH =? 0 = true) as -> by (rewrite Hu; apply Z.eqb_eq, preamble_test).
  assert (drop (Z.to_nat PREAMBLE_LENGTH) text = u) as -> by (rewrite Hu; change (Z.to_nat PREAMBLE_LENGTH) with (length PREAMBLE); apply drop_app_length).
  destruct (Z.leb_spec (Zlen text) PREAMBLE_LENGTH) as [Hshort|_]; cbn [orb negb].
  { assert (u = []) as -> by (destruct u; [done|]; rewrite Hu, Zlen_app, Zlen_cons in Hshort; unfold PREAMBLE_LENGTH in Hshort; pose proof (Zlen_nonneg u); lia).
    apply wp_ret. rewrite app_nil_r in Hu. destruct Htext as [r c tail rows cols Ht|u Ht|r c Ht]; [|rewrite app_nil_r in HQ; by apply HQ|];
      rewrite Hu in Ht; apply (f_equal length) in Ht; rewrite !length_app in Ht; cbn in Ht; lia. }
  destruct Htext as [r c tail rows cols Ht Hr Hc Hrows Hcols|v Ht Hv|r c Ht Hr Hc]; rewrite Ht in Hu; apply app_inv_head in Hu; subst u.
  - rewrite split_first_app, split_first_app by done. apply wp_bind. eapply wp_access; [exact Hrows|]. apply wp_bind. eapply wp_access; [exact Hcols|].
    replace ((rows <? 1) || (cols <? 1)) with (negb ((1 <=? rows) && (1 <=? cols))) by lia.
    destruct ((1 <=? rows) && (1 <=? cols)); cbn [negb]; [|rewrite app_nil_r in HQ; by apply wp_ret, HQ]. apply wp_bind.
    eapply (at_sys _ _ (fun _ => True) i t o i t (o ++ [SHELL_OUTPUT cols rows])); [done| |].
    + intros e r' e' Hs <- <- <-. destruct (tm_printf _ _ _ _ Hs) as (? & ? & ?). by split_and!.
    + intros r' w' _ Hw'. by apply wp_ret, HQ.
  - rewrite split_first_none by done. rewrite app_nil_r in HQ. by apply wp_ret, HQ.
  - rewrite split_first_app, split_first_none by done. rewrite app_nil_r in HQ. by apply wp_ret, HQ.
Qed.

(** What is reported of an answer: what its sequence says if it has the preamble of a size, and
    otherwise, or without a sequence that fits, nothing. *)
Inductive measured (reply : list char) : Z -> list cstr -> Prop :=
| measured_answer s rest st out :
    cseq_of reply = Some (s, rest) -> (length s < CSEQ_BUF)%nat -> answer_text (c_text s) st out -> ~ overruns rest ->
    measured reply st out
| measured_nothing :
    ~ overruns reply -> (forall s rest, cseq_of reply = Some (s, rest) -> (length s < CSEQ_BUF)%nat -> take (length PREAMBLE) s <> PREAMBLE) ->
    measured reply 1 [].

(** The answer of a terminal that knows the request. *)
Lemma size_measured rows cols rest : 1 <= rows <= INT_MAX -> 1 <= cols <= INT_MAX -> ~ overruns rest ->
  measured (size_reply rows cols ++ rest) 0 [SHELL_OUTPUT cols rows].
Proof.
  intros Hr Hc Hover. apply (measured_answer _ (size_reply rows cols) rest); [apply size_cseq; lia|apply size_length; lia| |done].
  rewrite c_text_id by (apply size_text; lia).
  pose proof (text_numbers (size_reply rows cols) (print_d rows) (print_d cols) [] rows cols eq_refl) as Ht.
  rewrite (proj2 (Z.leb_le 1 rows)), (proj2 (Z.leb_le 1 cols)) in Ht by lia. cbn [andb] in Ht.
  apply Ht; [apply print_d_without; [lia|done]..|apply print_d_atoi; lia|apply print_d_atoi; lia].
Qed.

(** *** The program *)

Lemma at_tcsetattr fd t' i t o (Q : Z -> world E -> Prop) w :
  tm_at i t o w -> (forall w', tm_at [] t' o w' -> Q 0 w') -> wp (tcsetattr fd t') Q w.
Proof.
  intros Hw HQ. eapply (at_sys _ _ (fun r => r = 0) i t o [] t' o); [done| |].
  - intros e r e' Hs <- <- <-. destruct (tm_setattr _ _ _ _ _ Hs) as (? & ? & ? & ?). by split_and!.
  - intros r w' ->. apply HQ.
Qed.

Lemma at_reset fd t' i t o (Q : Z -> world E -> Prop) w :
  tm_at i t o w -> (forall w', tm_at [] t' o w' -> Q 0 w') -> wp (reset_mode fd t') Q w.
Proof. intros Hw HQ. apply wp_bind. eapply at_tcsetattr; [done|]. intros w' Hw'. by apply wp_ret, HQ. Qed.

Lemma at_raw fd t i o (Q : Z -> world E -> Prop) w :
  tm_at i t o w -> (forall w', tm_at [] (raw_of t) o w' -> Q 0 w') -> wp (raw_mode fd t) Q w.
Proof. intros Hw HQ. apply wp_bind. eapply at_tcsetattr; [done|]. intros w' Hw'. by apply wp_ret, HQ. Qed.

Lemma termios_roundtrip t : termios_of (termios_list t) = Some t.
Proof. by destruct t. Qed.

(** The terminals the program does not ask: the consoles. *)
Definition console (term : option cstr) : bool :=
  match term with Some t => (strcmp t (cs "sun") =? 0) || (strcmp t (cs "sun-color") =? 0) | None => false end.

(** What follows the request. *)
Definition answered (term_fd : Z) (orig_tios : termios) : C E Z :=
  buf0 ← read_cseq term_fd;
  let is_match := match buf0 with Some b => strncmp b PREAMBLE PREAMBLE_LENGTH =? 0 | None => false end in
  (if is_match : bool then _ ← read_cseq term_fd; mret tt else mret tt) ;;
  _ ← reset_mode term_fd orig_tios;
  if negb is_match then mret 1 else
  buf0 ← c_access buf0;
  process_size buf0.

Lemma main_asks term i t o (P : outcome (Z * world E) -> Prop) w :
  console term = false -> tm_at i t o w ->
  (forall fd w', tm_at (tm_reply REQUEST) (raw_of t) o w' -> P (answered fd t w')) -> P (main term w).
Proof.
  intros Hterm Hw HP. unfold main. fold (console term). rewrite Hterm. apply bind_to.
  eapply (at_sys _ _ (fun fd => 0 <= fd) i t o i t o); [done| |].
  { intros e r e' Hs <- <- <-. destruct (tm_open _ _ _ _ Hs) as (? & ? & ? & ?). by split_and!. }
  intros fd w1 Hfd Hw1. destruct (Z.eqb_spec fd (-1)) as [->|_]; [lia|]. apply bind_to.
  eapply (at_sys _ _ (fun r => r = 1) i t o i t o); [done| |].
  { intros e r e' Hs <- <- <-. destruct (tm_isatty _ _ _ _ Hs) as (? & ? & ? & ?). by split_and!. }
  intros r w2 -> Hw2. cbn [orb Z.eqb]. apply bind_to.
  eapply (at_syscall _ _ (fun r => sr_ret r = 0 /\ sr_vals r = termios_list t) i t o i t o); [done| |].
  { intros e r e' Hs <- <- <-. destruct (tm_getattr _ _ _ _ Hs) as (? & ? & ? & ? & ?). by split_and!. }
  intros r w3 [Hr Hv] Hw3. rewrite Hr. cbn [Z.eqb]. apply bind_to.
  eapply wp_access; [rewrite Hv; apply termios_roundtrip|]. apply bind_to. eapply at_raw; [done|]. intros w4 Hw4. cbn [Z.eqb]. apply bind_to.
  eapply (at_sys _ _ (fun r => r = REQUEST_LENGTH) [] (raw_of t) o (tm_reply REQUEST) (raw_of t) o); [done| |].
  { intros e r' e' Hs Hi Ht Ho. destruct (tm_write _ _ _ _ _ Hs) as (? & Hin & ? & ?). rewrite Hi in Hin. split_and!; [done|done|congruence..]. }
  intros r' w5 -> Hw5. rewrite Z.eqb_refl. cbn [negb]. by apply HP.
Qed.

Lemma take_text k s : take k (c_text s) = take k (take (length (c_text s)) s).
Proof. f_equal. induction s as [|c s IH]; cbn; [done|]. case_decide; [done|]. cbn. by rewrite <-IH. Qed.

(** A text that has the preamble is from a sequence that has it. *)
Lemma text_matches s : strncmp (c_text s) PREAMBLE PREAMBLE_LENGTH = 0 -> take (length PREAMBLE) s = PREAMBLE.
Proof.
  unfold strncmp. rewrite strcmp_eq. change (Z.to_nat PREAMBLE_LENGTH) with 4%nat. change (take 4 PREAMBLE) with PREAMBLE.
  rewrite take_text, take_take. intros Ht. change (length PREAMBLE) with 4%nat.
  assert (4 <= length (c_text s))%nat as Hl; [|by rewrite Nat.min_l in Ht by lia].
  apply (f_equal length) in Ht. rewrite length_take in Ht. change (length PREAMBLE) with 4%nat in Ht. lia.
Qed.

(** C28: [measure_terminal] reports the size of the terminal: if the answer to its request is a
    size, the commands that set COLUMNS and LINES are printed and the status is 0; if it has the
    preamble of a size but no two positive numbers, nothing is printed and the result is -1; and if
    it is something else, or nothing, or too long, nothing is printed and the status is 1.  The mode
    of the terminal is restored, and no part of an answer is left to be read.  Not among the answers
    are a sequence of exactly 64 characters, which overruns the buffer, and a number that is no
    [int]. *)
Theorem measure_terminal_reports term t o st out w :
  good w -> console term = false -> tm_mode (w_env w) = t -> tm_out (w_env w) = o -> measured (tm_reply REQUEST) st out ->
  wp (main term) (fun r w' => r = st /\ tm_mode (w_env w') = t /\ tm_out (w_env w') = o ++ out /\ tm_in (w_env w') = []) w.
Proof.
  intros Hg Hterm Ht Ho Hm. apply (main_asks term (tm_in (w_env w)) t o (returns _)); [done|by split_and!|]. intros fd w1 Hw1. change (returns ?Q (?m w1)) with (wp m Q w1).
  unfold answered. apply wp_bind. destruct Hm as [s rest st out Hseq Hlen Htext Hover|Hover Hno].
  - eapply at_read_cseq; [done| |].
    { intros (s' & r & Hs & Hl). rewrite Hseq in Hs. injection Hs as <- <-. lia. }
    intros i w2 Hw2. rewrite Hseq. unfold text_of, leaves. intros Hi. rewrite (Hi Hlen) in Hw2. rewrite decide_True by done.
    assert (strncmp (c_text s) PREAMBLE PREAMBLE_LENGTH =? 0 = true) as -> by (apply Z.eqb_eq; destruct Htext as [? ? ? ? ? -> | ? -> | ? ? ->]; apply preamble_test).
    apply wp_bind, wp_bind. eapply at_read_cseq; [done|done|].
    intros i3 w3 Hw3 _. apply wp_ret, wp_bind. eapply at_reset; [done|]. intros w4 Hw4. cbn [negb]. apply wp_bind, wp_access with (a := c_text s); [done|].
    eapply at_process_size; [done|done|]. intros w5 (_ & ? & ? & ?). by split_and!.
  - eapply at_read_cseq; [done|done|]. intros i w2 Hw2 _.
    assert (match text_of CSEQ_BUF (cseq_of (tm_reply REQUEST)) with Some b => strncmp b PREAMBLE PREAMBLE_LENGTH =? 0 | None => false end = false) as ->.
    { destruct (cseq_of (tm_reply REQUEST)) as [[s rest]|] eqn:Hs; cbn [text_of]; [|done]. case_decide as Hl; [|done].
      apply Z.eqb_neq. intros Heq%text_matches. by eapply Hno. }
    apply wp_bind, wp_ret, wp_bind. eapply at_reset; [done|]. intros w3 (_ & ? & ? & ?). apply wp_ret. rewrite app_nil_r. by split_and!.
Qed.

(** *** The sequence that fills the buffer *)

Lemma number_overruns n fd buf i t o s rest w :
  tm_at i t o w -> (length buf + n = CSEQ_BUF)%nat -> number_seq buf i = Some (s, rest) -> length s = CSEQ_BUF ->
  cseq_loop n fd CSEQ_NUMBER buf w = Undefined.
Proof.
  revert buf i w. induction n as [|n IH]; intros buf i w Hw Hn Hs Hl; [apply number_seq_longer in Hs; lia|].
  destruct i as [|c i]; [done|]. apply (at_turn n fd CSEQ_NUMBER buf c i t o (fun r => r = Undefined)); [done|]. intros w1 Hw1.
  destruct (number_char c) eqn:Hc.
  - rewrite number_seq_cons in Hs by done. eapply IH; [done| |done|done]. rewrite length_app. cbn. lia.
  - rewrite number_seq_end in Hs by done. injection Hs as <- <-. rewrite length_app in Hl. cbn in Hl. by replace n with 0%nat by lia.
Qed.

Lemma read_overruns fd i t o w : tm_at i t o w -> overruns i -> read_cseq fd w = Undefined.
Proof.
  intros Hw (s & rest & Hs & Hl). destruct i as [|e [|b [|c i]]]; [done..|]. cbn [cseq_of] in Hs.
  destruct (Ascii.eqb e ESC) eqn:He, (Ascii.eqb b "["%char) eqn:Hb, (first_char c) eqn:Hc; try done. cbn [andb] in Hs.
  apply (at_turn 63 fd CSEQ_ESCAPE [] e (b :: c :: i) t o (fun r => r = Undefined)); [done|]. intros w1 Hw1. rewrite He. cbn [negb].
  apply (at_turn 62 fd CSEQ_BRACKET [e] b (c :: i) t o (fun r => r = Undefined)); [done|]. intros w2 Hw2. rewrite Hb. cbn [negb].
  apply (at_turn 61 fd CSEQ_QMARK [e; b] c i t o (fun r => r = Undefined)); [done|]. intros w3 Hw3. rewrite Hc.
  eapply number_overruns; [done|done| |exact Hl]. unfold number_seq. by destruct (span number_char i) as [d [|x r]].
Qed.

(** The buffer of [read_cseq] has no room for the NUL of a sequence of 64 characters: when the
    terminal answers with one, the NUL is written past the end of the buffer. *)
Theorem measure_terminal_overrun term w :
  good w -> console term = false -> overruns (tm_reply REQUEST) -> main term w = Undefined.
Proof.
  intros Hg Hterm Hover. apply (main_asks term (tm_in (w_env w)) (tm_mode (w_env w)) (tm_out (w_env w)) (fun r => r = Undefined)); [done|by split_and!|].
  intros fd w1 Hw1. unfold answered, mbind, C_bind. by erewrite read_overruns.
Qed.
End spec.

(** ** A terminal *)

(** It answers the request with [reply]. *)
Record term_env := TermE { te_in : list char; te_mode : termios; te_out : list cstr }.

Section terminal.
Context (reply : list char).

Definition term_step (name : string) (args : list sarg) (e : term_env) : sysret * term_env :=
  if decide (name = "open"%string) then (SysRet 5 0 [] [], e)
  else if decide (name = "isatty"%string) then (SysRet 1 0 [] [], e)
  else if decide (name = "tcgetattr"%string) then (SysRet 0 0 [] (termios_list (te_mode e)), e)
  else if decide (name = "tcsetattr"%string) then
    match termios_of (omap (fun a => match a with AZ z => Some z | AS _ => None end) (drop 2 args)) with
    | Some t => (SysRet 0 0 [] [], TermE [] t (te_out e))
    | None => (SysRet (-1) 22 [] [], e)
    end
  else if decide (name = "write"%string) then
    match args with
    | [AZ _; AS s] => (SysRet (Zlen s) 0 [] [], TermE (te_in e ++ if decide (s = REQUEST) then reply else []) (te_mode e) (te_out e))
    | _ => (SysRet (-1) 22 [] [], e)
    end
  else if decide (name = "read"%string) then
    match te_in e with
    | [] => (SysRet 0 0 [] [], e)
    | c :: i => (SysRet 1 0 [c] [], TermE i (te_mode e) (te_out e))
    end
  else if decide (name = "printf"%string) then
    match args with
    | [AS s] => (SysRet 0 0 [] [], TermE (te_in e) (te_mode e) (te_out e ++ [s]))
    | _ => (SysRet (-1) 22 [] [], e)
    end
  else (SysRet (-1) 22 [] [], e).

Definition term_kernel : Kernel term_env := term_step.

Lemma termios_args t : omap (fun a => match a with AZ z => Some z | AS _ => None end) (AZ <$> termios_list t) = termios_list t.
Proof. induction (termios_list t) as [|z l IH]; [done|]. cbn. by f_equal. Qed.

Definition term_laws : @TermEnv term_env term_kernel.
Proof.
  refine (@Build_TermEnv term_env term_kernel te_in te_mode te_out (fun s => if decide (s = REQUEST) then reply else []) _ _ _ _ _ _ _).
  - intros args e r e' [= <- <-]. done.
  - intros fd e r e' [= <- <-]. done.
  - intros fd e r e' [= <- <-]. done.
  - intros fd t e r e' Hs. change (sys_step _ _ _) with (term_step "tcsetattr" (AZ fd :: AS (cs "TCSAFLUSH") :: (AZ <$> termios_list t)) e) in Hs.
    unfold term_step in Hs. change (drop 2 (AZ fd :: AS (cs "TCSAFLUSH") :: (AZ <$> termios_list t))) with (AZ <$> termios_list t) in Hs. rewrite termios_args, termios_roundtrip in Hs. injection Hs as <- <-. done.
  - intros fd s e r e' [= <- <-]. done.
  - intros fd e r e' Hs. change (sys_step _ _ _) with (term_step "read" [AZ fd; AZ 1] e) in Hs.
    unfold term_step in Hs. cbn in Hs. destruct (te_in e) eqn:Hi; injection Hs as <- <-; by split_and!.
  - intros s e r e' [= <- <-]. done.
Defined.
End terminal.

Definition sample_tios : termios := Termios 11554 5 1200 35387 4 0 [3; 28; 127].
Definition term_world : world term_env := World 0 [] [] (TermE (cs "typed ahead") sample_tios []).

(** The answers of a terminal with 25 rows and 80 columns. *)
Definition sample_reply : list char := size_reply 25 80 ++ ESC :: cs "[?1;2c".
(** An answer of 64 characters. *)
Definition long_reply : list char := (ESC :: cs "[?") ++ replicate 60 "1"%char ++ cs "c".

(** 25 rows and 80 columns; no rows and no columns. *)
Lemma measure_terminal_reports_witness :
  let run reply st out := wp (@main _ (term_kernel reply) LP64 (Some (cs "xterm")))
    (fun r w' => r = st /\ te_mode (w_env w') = sample_tios /\ te_out (w_env w') = [] ++ out /\ te_in (w_env w') = []) term_world in
  run sample_reply 0 [SHELL_OUTPUT 80 25] /\ run (size_reply 0 0) (-1) [].
Proof.
  split.
  - apply (@measure_terminal_reports _ (term_kernel sample_reply) (term_laws sample_reply) LP64 (Some (cs "xterm")) sample_tios [] 0 [SHELL_OUTPUT 80 25] term_world);
      [by split; constructor|done|done|done|].
    apply (size_measured 25 80 (ESC :: cs "[?1;2c")); [done|done|].
    intros (s & rest & Hs & Hl). vm_compute in Hs. injection Hs as <- <-. by vm_compute in Hl.
  - apply (@measure_terminal_reports _ (term_kernel (size_reply 0 0)) (term_laws (size_reply 0 0)) LP64 (Some (cs "xterm")) sample_tios [] (-1) [] term_world);
      [by split; constructor|done|done|done|].
    apply (measured_answer _ (size_reply 0 0) []); [by vm_compute|by apply Nat.ltb_lt| |by intros (s & rest & Hs & _)].
    apply (text_numbers (c_text (size_reply 0 0)) (cs "0") (cs "0") [] 0 0); [by vm_compute|by_decide|by_decide|by vm_compute|by vm_compute].
Defined.

Lemma measure_terminal_overrun_witness : @main _ (term_kernel long_reply) LP64 None term_world = Undefined.
Proof.
  apply (@measure_terminal_overrun _ (term_kernel long_reply) (term_laws long_reply) LP64 None term_world); [by split; constructor|done|].
  eexists _, _. split; [by vm_compute|by vm_compute].
Defined.

Example measure_output : SHELL_OUTPUT 80 25 = cs "export COLUMNS=80; export LINES=25;" ++ [LF].
Proof. by vm_compute. Qed.
