(* ===== verification/FormatImage.v ===== *)
(** * FormatImage: making a bootable image, [tools/format_image/format_image.c]

    The program writes a boot record, a partition table, an EFI system partition and a boot
    program to an image.  Files and libefi are calls of the [Kernel]; of the structure libefi
    allocates, [efi_last_u_lba] and the entries the program sets are modelled.  A buffer is its
    bytes: reading or writing outside of it is undefined.  Fields are little-endian, as on x86.
    The globals [outfile] and [biosboot_start] are arguments and results. *)
From Stdlib Require Import Lia.
From S2P Require Import Prelude Cnum Strset Sys Tools.

Definition TAB : char := chr 9.
Definition EXIT_USAGE : Z := 2.
Definition SECTOR_SIZE : Z := 512.
Definition STAGE1_STAGE2_SIZE : Z := 252.
Definition STAGE1_STAGE2_LBA : Z := 254.
Definition STAGE1_STAGE2_UUID : Z := 262.
Definition STAGE1_MBR_VERSION : Z := 250.
Definition STAGE1_BPB_OFFSET : Z := 3.
Definition STAGE1_BPB_SIZE : Z := 59.
Definition MB_HEADER_MAGIC : Z := 464367618.
Definition LBSIZE : Z := SECTOR_SIZE.
Definition MB_BLOCKS : Z := 2048.
Definition PART_ALIGN : Z := MB_BLOCKS * SECTOR_SIZE.
Definition LEGACY_BOOTPART_BLOCKS : Z := MB_BLOCKS.
Definition LEGACY_BOOTPART_SIZE : Z := LEGACY_BOOTPART_BLOCKS * LBSIZE.
Definition START_SECT : Z := MB_BLOCKS.
Definition IMAGE_MAJOR : Z := 2.
Definition IMAGE_MINOR : Z := 0.

(** Constants of the system's headers. *)
Definition MBB_MAGIC : Z := 43605.
Definition MBB_SIGNATURE : Z := 510.
Definition EFI_NUMPAR : Z := 9.
Definition EFI_MIN_RESV_SIZE : Z := 16384.
Definition EFI_PART_NAME_LEN : Z := 36.
Definition V_BOOT : Z := 1.
Definition V_ROOT : Z := 2.
Definition V_RESERVED : Z := 11.
Definition V_SYSTEM : Z := 12.

(** The members of [struct multiboot_header] the program uses, by their offsets. *)
Definition mb_magic : Z := 0.
Definition mb_flags : Z := 4.
Definition mb_checksum : Z := 8.
Definition mb_bss_end_addr : Z := 24.

(** An entry of the partition table. *)
Record dk_part := DkPart { p_start : Z; p_size : Z; p_name : cstr; p_tag : Z }.

(** The entries that are set, with their indices. *)
Abbreviation efi_parts := (list (Z * dk_part)) (only parsing).

(** ** Bytes *)

Fixpoint le_value (b : list char) : Z := match b with [] => 0 | c :: b => code c + 256 * le_value b end.
Fixpoint le_bytes (n : nat) (z : Z) : list char := match n with O => [] | S n => chr z :: le_bytes n (z / 256) end.

(** The [n] bytes at an offset, and storing bytes there, inside of the buffer. *)
Definition load (n off : Z) (buf : list char) : option (list char) :=
  if (0 <=? off) && (off + n <=? Zlen buf) then Some (take (Z.to_nat n) (drop (Z.to_nat off) buf)) else None.
Definition store (off : Z) (data buf : list char) : option (list char) :=
  if (0 <=? off) && (off + Zlen data <=? Zlen buf)
  then Some (take (Z.to_nat off) buf ++ data ++ drop (Z.to_nat off + length data) buf) else None.

Definition load_u (bytes off : Z) (buf : list char) : option Z := le_value <$> load bytes off buf.
Definition store_u (bytes off z : Z) (buf : list char) : option (list char) := store off (le_bytes (Z.to_nat bytes) z) buf.

(** [P2ALIGN] to a power of two, in 64 bits. *)
Definition P2ALIGN (x align : Z) : Z := Z.land x (u64 (- align)).

(** The option string [":b:e:hm:o:"]. *)
Definition format_opts (c : char) : option bool :=
  if bool_decide (c ∈ cs "bemo") then Some true else if Ascii.eqb c "h"%char then Some false else None.

Record format_paths := FormatPaths { biosbootpath : option cstr; esppath : option cstr; mbrpath : option cstr; outpath : option cstr }.

(** The text of [usage], after the name of the program. *)
Definition usage_text : cstr :=
  cs " -o image.usb -m mbr -e efifs -b biosboot" ++ [LF; LF] ++
  cs "Format a USB/ISO image for booting SmartOS or Triton." ++ [LF; LF; TAB] ++
  cs "-o  output file" ++ [LF; TAB] ++ cs "-m  MBR image" ++ [LF; TAB] ++
  cs "-e  EFI system partition (ESP) pcfs image" ++ [LF; TAB] ++
  cs "-b  Legacy BIOS stage2 boot program (gptzfsboot)" ++ [LF].

Section format_image.
Context {E : Type} `{Kernel E} `{DM : DataModel} (strerror : Z -> cstr) (progname : cstr).

Definition err {A} (msg : cstr) : C E A :=
  e ← get_errno; eprint (progname ++ cs ": " ++ msg ++ cs ": " ++ strerror e ++ [LF]) ;; c_exit 1.
Definition errx {A} (msg : cstr) : C E A := eprint (progname ++ cs ": " ++ msg ++ [LF]) ;; c_exit 1.

(** [usage(NULL)] and [usage] with a message. *)
Definition usage {A} (fmt : option cstr) : C E A :=
  match fmt with None => mret tt | Some msg => eprint (progname ++ cs ": " ++ msg ++ [LF]) end ;;
  eprint (cs "Usage: " ++ progname ++ usage_text) ;;
  c_exit (match fmt with None => 0 | Some _ => EXIT_USAGE end).

Definition printf (text : cstr) : C E () := _ ← sys "printf" [AS text]; mret tt.

(** The loop of [read_file]: [left] bytes are to be read to [pos]. *)
Fixpoint read_file_loop (fuel : nat) (path : cstr) (fd left pos : Z) (buf : list char) : C E (list char) :=
  match fuel with
  | O => c_undefined
  | S fuel =>
      if left =? 0 then mret buf else
      r ← syscall "read" [AZ fd; AZ left];
      if sr_ret r <? 0 then err (cs "couldn't read from " ++ path) else
      buf ← c_access (store pos (sr_data r) buf);
      read_file_loop fuel path fd (sz (left - sr_ret r)) (pos + sr_ret r) buf
  end.

(** The buffer, and [*lenp]. *)
Definition read_file (fuel : nat) (path : cstr) (size : Z) : C E (list char * Z) :=
  fd ← sys "open" [AS path; AS (cs "O_RDONLY")];
  if fd =? -1 then err (cs "couldn't open " ++ path) else
  r ← syscall "fstat" [AZ fd];
  if negb (sr_ret r =? 0) then err (cs "couldn't stat " ++ path) else
  st_size ← c_access (head (sr_vals r));
  if negb (size =? 0) && (size <? sz st_size) then
    errx (cs "file " ++ path ++ cs " exceeds maximum " ++ print_u size ++ cs " bytes")
  else
  let size := if size =? 0 then sz st_size else size in
  m ← malloc size;
  match m with
  | None => err (cs "couldn't alloc buf for " ++ path)
  | Some _ =>
      buf ← read_file_loop fuel path fd (sz st_size) 0 (replicate (Z.to_nat size) NUL);
      mret (buf, sz st_size)
  end.

(** [pwrite] of the first [n] bytes of a buffer: all of them, or the end of the program. *)
Definition pwrite_all (outfile : Z) (buf : list char) (n off : Z) (what : cstr) : C E () :=
  data ← c_access (load n 0 buf);
  r ← sys "pwrite" [AZ outfile; AS data; AZ off];
  if negb (r =? n) then err (cs "failed to write " ++ what) else mret tt.

Definition write_mbr (outfile : Z) (mbr : list char) (esplen biosbootlen : Z) : C E () :=
  mbr ← c_access (store_u 8 STAGE1_STAGE2_LBA (sz (START_SECT + esplen / LBSIZE)) mbr);
  mbr ← c_access (store_u 2 STAGE1_STAGE2_SIZE (biosbootlen / LBSIZE) mbr);
  mbr ← c_access (store_u 1 STAGE1_MBR_VERSION IMAGE_MAJOR mbr);
  mbr ← c_access (store_u 1 (STAGE1_MBR_VERSION + 1) IMAGE_MINOR mbr);
  mbr ← c_access (store STAGE1_BPB_OFFSET (replicate (Z.to_nat STAGE1_BPB_SIZE) NUL) mbr);
  uuid ← syscall "uuid_generate" [];
  mbr ← c_access (store STAGE1_STAGE2_UUID (sr_data uuid) mbr);
  pwrite_all outfile mbr SECTOR_SIZE 0 (cs "MBR").

Definition set_part (parts : efi_parts) (i start size : Z) (name : cstr) (tag : Z) : C E efi_parts :=
  if negb (tag =? V_RESERVED) && negb ((start mod MB_BLOCKS =? 0) && (size mod MB_BLOCKS =? 0)) then c_abort else
  printf (name ++ cs " " ++ print_d tag ++ cs " " ++ print_u (u64 (start * LBSIZE)) ++ cs " " ++ print_u (u64 (size * LBSIZE)) ++ [LF]) ;;
  if EFI_PART_NAME_LEN <=? Zlen name then errx (cs "partition name " ++ name ++ cs " is too long") else
  mret (parts ++ [(i, DkPart start size name tag)]).

(** The arguments that stand for the table. *)
Definition part_args (p : Z * dk_part) : list sarg :=
  [AZ p.1; AZ (p_start p.2); AZ (p_size p.2); AS (p_name p.2); AZ (p_tag p.2)].

(** The result is [biosboot_start]. *)
Definition write_efi (outfile esplen : Z) : C E Z :=
  let start := START_SECT in
  r ← syscall "efi_alloc_and_init" [AZ outfile; AZ EFI_NUMPAR];
  if negb (sr_ret r =? 0) then err (cs "failed to init EFI") else
  efi_last_u_lba ← c_access (head (sr_vals r));
  parts ← set_part [] 0 start (esplen / LBSIZE) (cs "loader") V_SYSTEM;
  let start := u64 (start + esplen / LBSIZE) in
  let biosboot_start := sz start in
  parts ← set_part parts 1 start LEGACY_BOOTPART_BLOCKS (cs "boot") V_BOOT;
  let start := u64 (start + LEGACY_BOOTPART_BLOCKS) in
  let size := u64 (efi_last_u_lba + 1 - (EFI_MIN_RESV_SIZE + start)) in
  let size := P2ALIGN size MB_BLOCKS in
  parts ← set_part parts 2 start size (cs "root") V_ROOT;
  let start := u64 (efi_last_u_lba + 1 - EFI_MIN_RESV_SIZE) in
  parts ← set_part parts 8 start EFI_MIN_RESV_SIZE (cs "reserved") V_RESERVED;
  ret ← sys "efi_write" (AZ outfile :: concat (part_args <$> parts));
  if negb (ret =? 0) then errx (cs "failed to write EFI with " ++ print_d ret)
  else mret biosboot_start.

Definition write_esp (outfile : Z) (esp : list char) (esplen : Z) : C E () :=
  pwrite_all outfile esp esplen (START_SECT * LBSIZE) (cs "ESP").

(** The loop of [find_multiboot] from [off] on: [n] offsets are left. *)
Fixpoint multiboot_loop (n : nat) (biosboot : list char) (biosbootlen off : Z) : C E (option Z) :=
  match n with
  | O => mret None
  | S n =>
      if biosbootlen <=? off then mret None else
      magic ← c_access (load_u 4 (off + mb_magic) biosboot);
      if negb (magic =? MB_HEADER_MAGIC) then multiboot_loop n biosboot biosbootlen (off + 4) else
      flags ← c_access (load_u 4 (off + mb_flags) biosboot);
      checksum ← c_access (load_u 4 (off + mb_checksum) biosboot);
      if negb (u32 (- u32 (flags + magic)) =? checksum) then multiboot_loop n biosboot biosbootlen (off + 4)
      else mret (Some off)
  end.

(** The offset of the header; there are fewer than [biosbootlen] to look at. *)
Definition find_multiboot (biosboot : list char) (biosbootlen : Z) : C E (option Z) :=
  multiboot_loop (Z.to_nat biosbootlen) biosboot biosbootlen 0.

Definition write_biosboot (outfile biosboot_start : Z) (biosboot : list char) (biosbootlen : Z) : C E () :=
  multiboot ← find_multiboot biosboot biosbootlen;
  match multiboot with
  | None => errx (cs "couldn't find fake multiboot header")
  | Some mb =>
      biosboot ← c_access (store_u 8 (mb + mb_bss_end_addr) (sz (biosboot_start + LEGACY_BOOTPART_BLOCKS)) biosboot);
      pwrite_all outfile biosboot LEGACY_BOOTPART_SIZE (sz (biosboot_start * LBSIZE)) (cs "biosboot")
  end.

(** The loop over the options. *)
Fixpoint option_loop (opts : list getopt_result) (p : format_paths) : C E format_paths :=
  match opts with
  | [] => mret p
  | OptMissing c :: _ => usage (Some (cs "Option -" ++ [c] ++ cs " requires an operand" ++ [LF]))
  | OptUnknown c :: _ => usage (Some (cs "Unrecognised option: -" ++ [c] ++ [LF]))
  | OptChar c optarg :: opts =>
      if Ascii.eqb c "b"%char then option_loop opts (FormatPaths optarg (esppath p) (mbrpath p) (outpath p))
      else if Ascii.eqb c "e"%char then option_loop opts (FormatPaths (biosbootpath p) optarg (mbrpath p) (outpath p))
      else if Ascii.eqb c "o"%char then option_loop opts (FormatPaths (biosbootpath p) (esppath p) (mbrpath p) optarg)
      else if Ascii.eqb c "m"%char then option_loop opts (FormatPaths (biosbootpath p) (esppath p) optarg (outpath p))
      else if Ascii.eqb c "h"%char then usage None
      else option_loop opts p
  end.

(** The work, once the paths are known. *)
Definition format (fuel : nat) (biosbootpath esppath mbrpath outpath : cstr) : C E Z :=
  outfile ← sys "open" [AS outpath; AS (cs "O_RDWR")];
  if outfile =? -1 then err (cs "failed to open " ++ outpath ++ cs " for writing") else
  '(mbr, _) ← read_file fuel mbrpath SECTOR_SIZE;
  signature ← c_access (load_u 2 MBB_SIGNATURE mbr);
  if negb (signature =? MBB_MAGIC) then errx (cs "MBR has incorrect magic " ++ print_x 0 signature) else
  '(esp, esplen) ← read_file fuel esppath 0;
  if negb (esplen mod PART_ALIGN =? 0) then errx (cs "ESP image is not " ++ print_u PART_ALIGN ++ cs "-byte aligned") else
  '(biosboot, biosbootlen) ← read_file fuel biosbootpath LEGACY_BOOTPART_SIZE;
  write_mbr outfile mbr esplen biosbootlen ;;
  biosboot_start ← write_efi outfile esplen;
  write_esp outfile esp esplen ;;
  write_biosboot outfile biosboot_start biosboot biosbootlen ;;
  _ ← sys "close" [AZ outfile];
  mret 0.

Definition main (fuel : nat) (argv : list cstr) : C E Z :=
  p ← option_loop (getopts format_opts argv) (FormatPaths None None None None);
  match biosbootpath p, esppath p, mbrpath p, outpath p with
  | Some b, Some e, Some m, Some o =>
      if negb (bool_decide (operands format_opts argv = [])) then usage (Some (cs "too many arguments" ++ [LF]))
      else format fuel b e m o
  | _, _, _, _ => usage (Some (cs "missing argument" ++ [LF]))
  end.
End format_image.
