(* ===== verification/FormatImageSpec.v ===== *)
(** * FormatImageSpec: the image that format_image makes

    [ImgEnv] is a system on which the calls succeed, that records what is written to the image.
    [image_table] is the partition table; [layout_ok] what it must satisfy; [boot_record] and
    [boot_program] say what the fixed up boot record and boot program are. *)
From Stdlib Require Import Lia.
From S2P Require Import Prelude Cnum Strset Sys Tools FormatImage.

(** ** Bytes *)

Section bytes.
Implicit Types b d : list char.

Lemma le_bytes_length n z : length (le_bytes n z) = n.
Proof. revert z. induction n as [|n IH]; intros z; [done|]. cbn. by rewrite IH. Qed.

Lemma le_value_bytes n z : le_value (le_bytes n z) = z mod 256 ^ Z.of_nat n.
Proof.
  revert z. induction n as [|n IH]; intros z; [cbn; by rewrite Z.mod_1_r|]. cbn [le_bytes le_value]. rewrite IH.
  assert (code (chr z) = z mod 256) as -> by (by rewrite code_chr).
  rewrite Nat2Z.inj_succ, Z.pow_succ_r by lia. rewrite Z.rem_mul_r by (try apply Z.pow_nonzero; lia || (apply Z.pow_pos_nonneg; lia)). lia.
Qed.

Lemma store_is_Some off d b : 0 <= off -> off + Zlen d <= Zlen b -> is_Some (store off d b).
Proof. intros. unfold store. by rewrite (proj2 (Z.leb_le 0 off)), (proj2 (Z.leb_le (off + _) _)) by lia. Qed.

Lemma store_range off d b b' : store off d b = Some b' -> 0 <= off /\ off + Zlen d <= Zlen b.
Proof. unfold store. destruct (Z.leb_spec 0 off), (Z.leb_spec (off + Zlen d) (Zlen b)); naive_solver. Qed.

Lemma store_length off d b b' : store off d b = Some b' -> length b' = length b.
Proof.
  intros Hs. destruct (store_range _ _ _ _ Hs). unfold store in Hs. destruct (_ && _); [|done]. injection Hs as <-.
  unfold Zlen in *. rewrite !length_app, length_take, length_drop. lia.
Qed.

Lemma image_store_lookup off d b b' (j : nat) : store off d b = Some b' ->
  b' !! j = if decide (off <= Z.of_nat j < off + Zlen d) then d !! (j - Z.to_nat off)%nat else b !! j.
Proof.
  intros Hs. destruct (store_range _ _ _ _ Hs) as [Ho Hl]. unfold store in Hs. destruct (_ && _); [|done]. injection Hs as <-.
  unfold Zlen in *. assert (length (take (Z.to_nat off) b) = Z.to_nat off) as Hp by (rewrite length_take; lia).
  case_decide as Hj.
  - rewrite lookup_app_r by lia. rewrite Hp. rewrite lookup_app_l by lia. done.
  - destruct (decide (Z.of_nat j < off)).
    + rewrite lookup_app_l by lia. by rewrite lookup_take_lt by lia.
    + rewrite lookup_app_r by lia. rewrite Hp. rewrite lookup_app_r by lia. rewrite lookup_drop. f_equal. lia.
Qed.

Lemma load_is_Some n off b : 0 <= off -> off + n <= Zlen b -> is_Some (load n off b).
Proof. intros. unfold load. by rewrite (proj2 (Z.leb_le 0 off)), (proj2 (Z.leb_le (off + _) _)) by lia. Qed.

Lemma load_range n off b d : load n off b = Some d -> 0 <= off /\ off + n <= Zlen b.
Proof. unfold load. destruct (Z.leb_spec 0 off), (Z.leb_spec (off + n) (Zlen b)); naive_solver. Qed.

Lemma load_lookup n off b d (j : nat) : load n off b = Some d -> d !! j = if decide (Z.of_nat j < n) then b !! (Z.to_nat off + j)%nat else None.
Proof.
  unfold load. destruct (_ && _); [|done]. intros [= <-]. case_decide.
  - rewrite lookup_take_lt by lia. by rewrite lookup_drop.
  - by rewrite lookup_take_ge by lia.
Qed.

(** Two buffers of one length that agree on a range give the same bytes there. *)
Lemma load_agree n off b b' : length b = length b' -> 0 <= n ->
  (forall j : nat, off <= Z.of_nat j < off + n -> b !! j = b' !! j) -> load n off b = load n off b'.
Proof.
  intros Hlen Hn Hj. unfold load, Zlen. rewrite Hlen. destruct (Z.leb_spec 0 off); [|done]. cbn [andb]. destruct (_ <=? _); [|done]. f_equal.
  apply list_eq. intros i. destruct (decide (Z.of_nat i < n)).
  - rewrite !lookup_take_lt by lia. rewrite !lookup_drop. apply Hj. lia.
  - by rewrite !lookup_take_ge by lia.
Qed.

Lemma load_store_other n o off d b b' : store off d b = Some b' -> 0 <= n -> o + n <= off \/ off + Zlen d <= o -> load n o b' = load n o b.
Proof.
  intros Hs Hn Ho. apply load_agree; [by eapply store_length|done|]. intros j Hj. rewrite (image_store_lookup _ _ _ _ _ Hs).
  rewrite decide_False by lia. done.
Qed.

Lemma load_store_same off d b b' : store off d b = Some b' -> load (Zlen d) off b' = Some d.
Proof.
  intros Hs. destruct (store_range _ _ _ _ Hs) as [Ho Hl]. pose proof (Zlen_nonneg d).
  destruct (load_is_Some (Zlen d) off b') as [x Hx]; [done|unfold Zlen in *; by rewrite (store_length _ _ _ _ Hs)|].
  rewrite Hx. f_equal. apply list_eq. intros i. rewrite (load_lookup _ _ _ _ i Hx). case_decide as Hi.
  - rewrite (image_store_lookup _ _ _ _ _ Hs), decide_True by lia. f_equal. lia.
  - symmetry. apply lookup_ge_None. unfold Zlen in Hi. lia.
Qed.

(** An integer that was stored. *)
Lemma load_u_same k off z b b' : 0 <= k -> store_u k off z b = Some b' -> load_u k off b' = Some (z mod 256 ^ k).
Proof.
  intros Hk Hs. unfold load_u, store_u in *. assert (Zlen (le_bytes (Z.to_nat k) z) = k) as Hl by (unfold Zlen; rewrite le_bytes_length; lia).
  pose proof (load_store_same _ _ _ _ Hs) as Hload. rewrite Hl in Hload. rewrite Hload. cbn. by rewrite le_value_bytes, Z2Nat.id by lia.
Qed.
Lemma load_u_other n k o off z b b' : store_u k off z b = Some b' -> 0 <= n -> 0 <= k -> o + n <= off \/ off + k <= o -> load_u n o b' = load_u n o b.
Proof.
  intros Hs Hn Hk Ho. unfold load_u. f_equal. eapply load_store_other; [exact Hs|done|]. unfold Zlen. rewrite le_bytes_length. lia.
Qed.
Lemma store_u_is_Some k off z b : 0 <= k -> 0 <= off -> off + k <= Zlen b -> is_Some (store_u k off z b).
Proof. intros. apply store_is_Some; [done|]. unfold Zlen in *. rewrite le_bytes_length. lia. Qed.
Lemma load_u_store_other n o off d b b' : store off d b = Some b' -> 0 <= n -> o + n <= off \/ off + Zlen d <= o -> load_u n o b' = load_u n o b.
Proof. intros Hs Hn Ho. unfold load_u. f_equal. by eapply load_store_other. Qed.

Lemma load_app n off b c : 0 <= n -> off + n <= Zlen b -> load n off (b ++ c) = load n off b.
Proof.
  intros Hn Hl. unfold load. rewrite Zlen_app. pose proof (Zlen_nonneg c). destruct (Z.leb_spec 0 off); [|done]. cbn [andb].
  rewrite !(proj2 (Z.leb_le (off + n) _)) by lia. f_equal. apply list_eq. intros i. unfold Zlen in *. destruct (decide (Z.of_nat i < n)).
  - rewrite !lookup_take_lt by lia. rewrite !lookup_drop. by rewrite lookup_app_l by lia.
  - by rewrite !lookup_take_ge by lia.
Qed.
Lemma load_u_app n off b c : 0 <= n -> off + n <= Zlen b -> load_u n off (b ++ c) = load_u n off b.
Proof. intros. unfold load_u. by rewrite load_app. Qed.
Lemma load_u_range n off b z : load_u n off b = Some z -> 0 <= off /\ off + n <= Zlen b.
Proof. unfold load_u. destruct (load n off b) eqn:Hl; [|done]. intros _. by eapply load_range. Qed.
Lemma load_u_is_Some n off b : 0 <= off -> off + n <= Zlen b -> is_Some (load_u n off b).
Proof. intros Ho Hl. unfold load_u. destruct (load_is_Some n off b Ho Hl) as [d ->]. by eexists. Qed.
End bytes.

(** ** What the image should be *)

(** In sectors: where the boot program and the root start, and how large the root is on a disk
    whose last usable sector is [last]. *)
Definition boot_start (esplen : Z) : Z := START_SECT + esplen / LBSIZE.
Definition root_start (esplen : Z) : Z := boot_start esplen + LEGACY_BOOTPART_BLOCKS.
Definition root_room (esplen last : Z) : Z := last + 1 - EFI_MIN_RESV_SIZE - root_start esplen.
Definition root_size (esplen last : Z) : Z := root_room esplen last - root_room esplen last mod MB_BLOCKS.

Definition image_table (esplen last : Z) : efi_parts :=
  [(0, DkPart START_SECT (esplen / LBSIZE) (cs "loader") V_SYSTEM);
   (1, DkPart (boot_start esplen) LEGACY_BOOTPART_BLOCKS (cs "boot") V_BOOT);
   (2, DkPart (root_start esplen) (root_size esplen last) (cs "root") V_ROOT);
   (8, DkPart (last + 1 - EFI_MIN_RESV_SIZE) EFI_MIN_RESV_SIZE (cs "reserved") V_RESERVED)].

(** A table whose partitions do not overlap, lie after the boot record and the table and end with
    the disk, and are aligned to a megabyte, apart from the reserved one. *)
Definition part_end (p : dk_part) : Z := p_start p + p_size p.
Definition layout_ok (last : Z) (parts : efi_parts) : Prop :=
  (forall i j p q, parts.*2 !! i = Some p -> parts.*2 !! j = Some q -> (i < j)%nat -> part_end p <= p_start q) /\
  (forall p, p ∈ parts.*2 -> START_SECT <= p_start p /\ 0 <= p_size p /\ part_end p <= last + 1) /\
  (forall p, p ∈ parts.*2 -> p_tag p <> V_RESERVED -> p_start p mod MB_BLOCKS = 0 /\ p_size p mod MB_BLOCKS = 0).

(** The boot record [mbr'] is [mbr] with the place of the boot program, the version and [uuid]. *)
Definition boot_record (mbr mbr' uuid : list char) (lba sectors : Z) : Prop :=
  length mbr' = length mbr /\
  load_u 8 STAGE1_STAGE2_LBA mbr' = Some lba /\ load_u 2 STAGE1_STAGE2_SIZE mbr' = Some sectors /\
  load_u 1 STAGE1_MBR_VERSION mbr' = Some IMAGE_MAJOR /\ load_u 1 (STAGE1_MBR_VERSION + 1) mbr' = Some IMAGE_MINOR /\
  load 16 STAGE1_STAGE2_UUID mbr' = Some uuid /\
  forall j : nat, Z.of_nat j < STAGE1_BPB_OFFSET \/ STAGE1_BPB_OFFSET + STAGE1_BPB_SIZE <= Z.of_nat j < STAGE1_MBR_VERSION \/
    STAGE1_STAGE2_UUID + 16 <= Z.of_nat j -> mbr' !! j = mbr !! j.

(** The fake multiboot header at [off]: its magic, and flags and checksum that add up with it. *)
Definition header_ok (off : Z) (b : list char) : Prop :=
  load_u 4 (off + mb_magic) b = Some MB_HEADER_MAGIC /\
  exists flags sum, load_u 4 (off + mb_flags) b = Some flags /\ load_u 4 (off + mb_checksum) b = Some sum /\
    sum = u32 (- u32 (flags + MB_HEADER_MAGIC)).

(** The first header is at [off]. *)
Definition first_header (off : Z) (b : list char) : Prop :=
  header_ok off b /\ off mod 4 = 0 /\ forall o, 0 <= o < off -> o mod 4 = 0 -> ~ header_ok o b.

(** The boot program [b'] is [b] with the start of the root in its header. *)
Definition boot_program (b b' : list char) (off root : Z) : Prop :=
  length b' = length b /\ load_u 8 (off + mb_bss_end_addr) b' = Some root /\
  forall j : nat, Z.of_nat j < off + mb_bss_end_addr \/ off + mb_bss_end_addr + 8 <= Z.of_nat j -> b' !! j = b !! j.

(** A file in a buffer of [size] bytes. *)
Definition padded (size : Z) (b : list char) : list char := b ++ replicate (Z.to_nat size - length b) NUL.

(** A system on which the calls succeed: the files, what is left to read of an open one, the writes
    to the image and its table. *)
Class ImgEnv (E : Type) `{Kernel E} := {
  im_file : cstr -> option (list char);
  im_content : E -> Z -> list char;
  im_rest : E -> Z -> list char;
  im_writes : E -> list (Z * list char);
  im_table : E -> option efi_parts;
  im_last : Z;
  im_uuid : list char;
  im_uuid_length : length im_uuid = 16%nat;
  im_open_out path e r e' : sys_step "open" [AS path; AS (cs "O_RDWR")] e = (r, e') ->
    0 <= sr_ret r /\ im_writes e' = im_writes e /\ im_table e' = im_table e;
  im_open path b e r e' : im_file path = Some b -> sys_step "open" [AS path; AS (cs "O_RDONLY")] e = (r, e') ->
    0 <= sr_ret r /\ im_content e' (sr_ret r) = b /\ im_rest e' (sr_ret r) = b /\ im_writes e' = im_writes e /\ im_table e' = im_table e;
  im_fstat fd e r e' : sys_step "fstat" [AZ fd] e = (r, e') ->
    sr_ret r = 0 /\ head (sr_vals r) = Some (Zlen (im_content e fd)) /\ im_rest e' fd = im_rest e fd /\
    im_writes e' = im_writes e /\ im_table e' = im_table e;
  im_read fd n e r e' : 0 < n -> sys_step "read" [AZ fd; AZ n] e = (r, e') ->
    im_rest e fd = sr_data r ++ im_rest e' fd /\ sr_ret r = Zlen (sr_data r) /\ sr_ret r <= n /\
    (im_rest e fd <> [] -> 0 < sr_ret r) /\ im_writes e' = im_writes e /\ im_table e' = im_table e;
  im_pwrite fd b off e r e' : sys_step "pwrite" [AZ fd; AS b; AZ off] e = (r, e') ->
    sr_ret r = Zlen b /\ im_writes e' = im_writes e ++ [(off, b)] /\ im_table e' = im_table e;
  im_generate e r e' : sys_step "uuid_generate" [] e = (r, e') ->
    sr_data r = im_uuid /\ im_writes e' = im_writes e /\ im_table e' = im_table e;
  im_init fd n e r e' : sys_step "efi_alloc_and_init" [AZ fd; AZ n] e = (r, e') ->
    sr_ret r = 0 /\ head (sr_vals r) = Some im_last /\ im_writes e' = im_writes e /\ im_table e' = im_table e;
  im_efi_write fd parts e r e' : sys_step "efi_write" (AZ fd :: concat (part_args <$> parts)) e = (r, e') ->
    sr_ret r = 0 /\ im_writes e' = im_writes e /\ im_table e' = Some parts;
  im_printf s e r e' : sys_step "printf" [AS s] e = (r, e') -> im_writes e' = im_writes e /\ im_table e' = im_table e;
  im_close fd e r e' : sys_step "close" [AZ fd] e = (r, e') -> im_writes e' = im_writes e /\ im_table e' = im_table e
}.

(** The disk is large enough for the partitions. *)
Definition roomy (esplen last : Z) : Prop :=
  0 <= esplen <= HEAP_HI /\ esplen mod PART_ALIGN = 0 /\ 0 <= root_room esplen last /\ last < 2 ^ 54.

(** *** The table is well formed *)

Lemma roomy_starts esplen last : roomy esplen last ->
  0 <= esplen / LBSIZE /\ (esplen / LBSIZE) mod MB_BLOCKS = 0 /\ boot_start esplen mod MB_BLOCKS = 0 /\ root_start esplen mod MB_BLOCKS = 0.
Proof.
  intros (Hl & Hm & _). unfold root_start, boot_start, PART_ALIGN, LBSIZE, SECTOR_SIZE, MB_BLOCKS, START_SECT, LEGACY_BOOTPART_BLOCKS in *.
  change (2048 * 512) with 1048576 in Hm. change MB_BLOCKS with 2048. 
  apply Z.div_exact in Hm; [|done]. set (k := esplen / 1048576) in *. assert (esplen / 512 = 2048 * k) as ->.
  { rewrite Hm. replace (1048576 * k) with (2048 * k * 512) by lia. by apply Z.div_mul. }
  split; [lia|]. split; [rewrite Z.mul_comm; by apply Z_mod_mult|].
  split; [replace (2048 + 2048 * k) with ((1 + k) * 2048) by lia; by apply Z_mod_mult|].
  replace (2048 + 2048 * k + 2048) with ((2 + k) * 2048) by lia. by apply Z_mod_mult.
Qed.

Lemma root_size_ok esplen last : roomy esplen last -> 0 <= root_size esplen last <= root_room esplen last /\ root_size esplen last mod MB_BLOCKS = 0.
Proof.
  intros (_ & _ & Hr & _). unfold root_size. pose proof (Z.mod_pos_bound (root_room esplen last) MB_BLOCKS ltac:(done)).
  pose proof (Z.mod_le (root_room esplen last) MB_BLOCKS Hr ltac:(done)). split; [lia|].
  rewrite Zminus_mod_idemp_r. by rewrite Z.sub_diag.
Qed.

Lemma image_table_layout esplen last : roomy esplen last -> layout_ok last (image_table esplen last).
Proof.
  intros Hroom. destruct (roomy_starts _ _ Hroom) as (Hs & Hms & Hmb & Hmr). destruct (root_size_ok _ _ Hroom) as [Hz Hmz].
  destruct Hroom as (Hl & Hm & Hr & Hlast). unfold layout_ok, image_table. cbn [fmap list_fmap snd].
  unfold root_room, root_start, boot_start, part_end, START_SECT, LEGACY_BOOTPART_BLOCKS, EFI_MIN_RESV_SIZE in *. change MB_BLOCKS with 2048 in *.
  split_and!.
  - intros i j p q Hp Hq Hij. destruct i as [|[|[|[|i]]]], j as [|[|[|[|j]]]]; cbn in Hp, Hq; simplify_eq; cbn [p_start p_size]; lia.
  - intros p Hp. repeat (apply elem_of_cons in Hp as [->|Hp]; [cbn [p_start p_size]; lia|]). by apply elem_of_nil in Hp.
  - intros p Hp Ht. repeat (apply elem_of_cons in Hp as [->|Hp]; [cbn [p_start p_size p_tag] in *; done|]). by apply elem_of_nil in Hp.
Qed.

(** *** The header in the padded boot program *)

Lemma header_range off b : header_ok off b -> 0 <= off /\ off + 12 <= Zlen b.
Proof. intros (Hm & flags & sum & _ & Hs & _). apply load_u_range in Hm, Hs. unfold mb_magic, mb_checksum in *. lia. Qed.

Lemma header_app off b c : off + 12 <= Zlen b -> header_ok off (b ++ c) <-> header_ok off b.
Proof. intros Hl. unfold header_ok. rewrite !load_u_app by (unfold mb_magic, mb_flags, mb_checksum; lia). done. Qed.

Lemma first_header_app off b c : first_header off b -> first_header off (b ++ c).
Proof.
  intros (Hok & Hmod & Hfirst). pose proof (header_range _ _ Hok). split_and!; [apply header_app; [lia|done]|done|].
  intros o Ho Hom Hoko. apply (Hfirst o Ho Hom). apply (header_app o b c); [lia|done].
Qed.

Lemma P2ALIGN_down x : 0 <= x < 2 ^ 64 -> P2ALIGN x MB_BLOCKS = x - x mod MB_BLOCKS.
Proof.
  intros Hx. unfold P2ALIGN. change (u64 (- MB_BLOCKS)) with (Z.land (Z.ones 64) (Z.lnot (Z.ones 11))).
  rewrite Z.land_assoc, Z.land_ones, Z.mod_small by done. rewrite <-Z.ldiff_land, Z.ldiff_ones_r by done.
  rewrite Z.shiftl_mul_pow2, Z.shiftr_div_pow2 by done. change MB_BLOCKS with (2 ^ 11). pose proof (Z.div_mod x (2 ^ 11) ltac:(done)). lia.
Qed.

Lemma u64_small z : 0 <= z < 2 ^ 64 -> u64 z = z.
Proof. apply Z.mod_small. Qed.

Section spec.
Context {E : Type} `{ImgEnv E} `{DM : DataModel} (strerror : Z -> cstr) (progname : cstr).
Implicit Types w : world E.

Definition im_at (wr : list (Z * list char)) (tb : option efi_parts) w : Prop :=
  good w /\ im_writes (w_env w) = wr /\ im_table (w_env w) = tb.

(** A call, and what its law says of the result and of the next state. *)
Lemma im_syscall name args (P : sysret -> E -> Prop) wr tb wr' tb' (Q : sysret -> world E -> Prop) w :
  im_at wr tb w ->
  (forall r e', sys_step name args (w_env w) = (r, e') -> P r e' /\ im_writes e' = wr' /\ im_table e' = tb') ->
  (forall r w', P r (w_env w') -> im_at wr' tb' w' -> Q r w') -> wp (syscall name args) Q w.
Proof.
  intros (Hg & Hw & Ht) Hlaw HQ. destruct (sys_step name args (w_env w)) as [r e'] eqn:Hs.
  eapply wp_syscall; [exact Hs|]. destruct (Hlaw _ _ eq_refl) as (HP & ? & ?). apply HQ; [done|]. by destruct Hg; split_and!.
Qed.
Lemma im_sys name args (P : Z -> E -> Prop) wr tb wr' tb' (Q : Z -> world E -> Prop) w :
  im_at wr tb w ->
  (forall r e', sys_step name args (w_env w) = (r, e') -> P (sr_ret r) e' /\ im_writes e' = wr' /\ im_table e' = tb') ->
  (forall r w', P r (w_env w') -> im_at wr' tb' w' -> Q r w') -> wp (sys name args) Q w.
Proof.
  intros Hw Hlaw HQ. apply wp_bind. eapply (im_syscall _ _ (fun r => P (sr_ret r))); [done|exact Hlaw|].
  intros r w' HP Hw'. apply wp_ret. by apply HQ.
Qed.

(** *** Reading *)

Lemma store_at_end (pre data : list char) (k : nat) :
  (length data <= k)%nat -> store (Zlen pre) data (pre ++ replicate k NUL) = Some ((pre ++ data) ++ replicate (k - length data) NUL).
Proof.
  intros Hk. unfold store. pose proof (Zlen_nonneg pre). rewrite Zlen_app, Zlen_replicate.
  rewrite (proj2 (Z.leb_le 0 _)), (proj2 (Z.leb_le _ _)) by (unfold Zlen in *; lia). cbn [andb].
  assert (Z.to_nat (Zlen pre) = length pre) as -> by (unfold Zlen; lia).
  rewrite take_app_length, <-drop_drop, drop_app_length, drop_replicate. by rewrite <-app_assoc.
Qed.

Lemma image_read_loop_spec fuel path fd pre size wr tb (Q : list char -> world E -> Prop) w :
  im_at wr tb w -> (length (im_rest (w_env w) fd) < fuel)%nat -> Zlen (im_rest (w_env w) fd) <= HEAP_HI ->
  (length pre + length (im_rest (w_env w) fd) <= size)%nat ->
  (forall w', im_at wr tb w' -> Q ((pre ++ im_rest (w_env w) fd) ++ replicate (size - length (pre ++ im_rest (w_env w) fd)) NUL) w') ->
  wp (read_file_loop strerror progname fuel path fd (Zlen (im_rest (w_env w) fd)) (Zlen pre) (pre ++ replicate (size - length pre) NUL)) Q w.
Proof.
  revert pre w. induction fuel as [|fuel IH]; intros pre w Hw Hfuel Hmax Hsize HQ; [lia|]. cbn [read_file_loop].
  set (rest := im_rest (w_env w) fd) in *. destruct (Z.eqb_spec (Zlen rest) 0) as [Hz|Hz].
  { assert (rest = []) as Hnil by (by destruct rest). rewrite Hnil, app_nil_r in HQ. by apply wp_ret, HQ. }
  pose proof (Zlen_nonneg rest). apply wp_bind.
  eapply (im_syscall _ _ (fun r e' => rest = sr_data r ++ im_rest e' fd /\ sr_ret r = Zlen (sr_data r) /\ 0 < sr_ret r) wr tb wr tb); [done| |].
  { intros r e' Hs. destruct Hw as (_ & <- & <-). destruct (im_read fd (Zlen rest) (w_env w) r e') as (? & ? & ? & Hpos & ? & ?); [lia|done|].
    split_and!; [done|done| |done|done]. apply Hpos. intros Hnil. apply Hz. unfold rest. by rewrite Hnil. }
  intros r w1 (Hrest & Hr & Hpos) Hw1. rewrite Hr in *. pose proof (f_equal length Hrest) as Hl. rewrite length_app in Hl.
  rewrite (proj2 (Z.ltb_ge _ 0)) by lia. rewrite store_at_end by lia. apply wp_bind. eapply wp_access; [done|].
  replace (Zlen pre + Zlen (sr_data r)) with (Zlen (pre ++ sr_data r)) by (by rewrite Zlen_app).
  replace (size - length pre - length (sr_data r))%nat with (size - length (pre ++ sr_data r))%nat by (rewrite length_app; lia).
  rewrite sz_small32 by (unfold HEAP_HI, UINT_MAX, Zlen in *; lia).
  replace (Zlen rest - Zlen (sr_data r)) with (Zlen (im_rest (w_env w1) fd)) by (unfold Zlen in *; lia).
  apply IH; [done|unfold Zlen in *; lia|unfold Zlen in *; lia|rewrite length_app; lia|]. intros w2 Hw2.
  rewrite <-(app_assoc pre), <-Hrest. by apply HQ.
Qed.

(** The buffer is as large as asked for, or as the file. *)
Lemma read_file_spec fuel path b size wr tb (Q : list char * Z -> world E -> Prop) w :
  im_at wr tb w -> im_file path = Some b -> (length b < fuel)%nat -> Zlen b <= HEAP_HI -> 0 <= size <= HEAP_HI ->
  size = 0 \/ Zlen b <= size ->
  (forall w', im_at wr tb w' -> Q (padded size b, Zlen b) w') -> wp (read_file strerror progname fuel path size) Q w.
Proof.
  intros Hw Hb Hfuel Hmax Hs Hsize HQ. pose proof (Zlen_nonneg b). unfold read_file. apply wp_bind.
  eapply (im_sys _ _ (fun fd e' => 0 <= fd /\ im_content e' fd = b /\ im_rest e' fd = b) wr tb wr tb); [done| |].
  { intros r e' Hs'. destruct Hw as (_ & <- & <-). destruct (im_open _ _ _ _ _ Hb Hs') as (? & ? & ? & ? & ?). by split_and!. }
  intros fd w1 (Hfd & Hc & Hr) Hw1. destruct (Z.eqb_spec fd (-1)) as [?|_]; [lia|]. apply wp_bind.
  eapply (im_syscall _ _ (fun r e' => sr_ret r = 0 /\ head (sr_vals r) = Some (Zlen b) /\ im_rest e' fd = b) wr tb wr tb); [done| |].
  { intros r e' Hs'. destruct Hw1 as (_ & <- & <-). destruct (im_fstat _ _ _ _ Hs') as (? & Hv & Hr' & ? & ?). rewrite Hc in Hv. rewrite Hr in Hr'. by split_and!. }
  intros r w2 (Hr0 & Hv & Hr2) Hw2. rewrite Hr0. cbn [Z.eqb negb]. apply wp_bind. eapply wp_access; [done|].
  rewrite sz_small32 by (unfold HEAP_HI, UINT_MAX in *; lia).
  replace (negb (size =? 0) && (size <? Zlen b)) with false by (destruct Hsize as [->|?]; [done|]; symmetry; apply andb_false_iff; right; lia).
  set (n := if size =? 0 then Zlen b else size). assert (0 <= n <= HEAP_HI /\ Zlen b <= n) as [Hn Hbn] by (unfold n; destruct (Z.eqb_spec size 0); lia).
  cbv zeta. fold n. apply wp_bind, wp_malloc_good; [by destruct Hw2|done|]. intros a w3 Hf3.
  assert (w_env w3 = w_env w2) as He3 by (by destruct Hf3 as (_ & _ & ?)).
  assert (im_at wr tb w3) as Hw3 by (destruct Hw2 as (? & ? & ?); unfold im_at; rewrite He3; split_and!; [by eapply good_frame|done|done]).
  apply wp_bind. pose proof (image_read_loop_spec fuel path fd [] (Z.to_nat n) wr tb) as Hloop.
  change (length []) with 0%nat in Hloop. change (Zlen []) with 0 in Hloop. rewrite Nat.sub_0_r in Hloop. cbn [app] in Hloop.
  rewrite <-Hr2, <-He3 at 1. apply Hloop; rewrite ?He3, ?Hr2; [done|done|done|unfold Zlen in *; lia|].
  intros w4 Hw4. apply wp_ret. specialize (HQ w4 Hw4). unfold padded in HQ. unfold n. destruct (Z.eqb_spec size 0) as [->|_]; [|done].
  replace (Z.to_nat (Zlen b) - length b)%nat with 0%nat by (unfold Zlen; lia). done.
Qed.

(** *** Writing *)

Lemma load_all n b : Zlen b = n -> load n 0 b = Some b.
Proof. intros <-. unfold load. rewrite (proj2 (Z.leb_le (0 + _) _)) by lia. cbn. rewrite drop_0, take_ge; [done|]. unfold Zlen. lia. Qed.

Lemma pwrite_spec outfile b n off what wr tb (Q : () -> world E -> Prop) w :
  im_at wr tb w -> Zlen b = n -> (forall w', im_at (wr ++ [(off, b)]) tb w' -> Q tt w') -> wp (pwrite_all strerror progname outfile b n off what) Q w.
Proof.
  intros Hw Hl HQ. unfold pwrite_all. apply wp_bind. eapply wp_access; [by apply load_all|]. apply wp_bind.
  eapply (im_sys _ _ (fun r _ => r = n) wr tb (wr ++ [(off, b)]) tb); [done| |].
  - intros r e' Hs. destruct Hw as (_ & <- & <-). destruct (im_pwrite _ _ _ _ _ _ Hs) as (? & ? & ?). split_and!; [congruence|done..].
  - intros r w' -> Hw'. rewrite Z.eqb_refl. by apply wp_ret, HQ.
Qed.

(** The fields of the boot record, one after the other. *)
Lemma record_of mbr m1 m2 m3 m4 m5 m6 lba sectors :
  store_u 8 STAGE1_STAGE2_LBA lba mbr = Some m1 -> store_u 2 STAGE1_STAGE2_SIZE sectors m1 = Some m2 ->
  store_u 1 STAGE1_MBR_VERSION IMAGE_MAJOR m2 = Some m3 -> store_u 1 (STAGE1_MBR_VERSION + 1) IMAGE_MINOR m3 = Some m4 ->
  store STAGE1_BPB_OFFSET (replicate (Z.to_nat STAGE1_BPB_SIZE) NUL) m4 = Some m5 -> store STAGE1_STAGE2_UUID im_uuid m5 = Some m6 ->
  0 <= lba < 2 ^ 64 -> 0 <= sectors < 65536 -> boot_record mbr m6 im_uuid lba sectors.
Proof.
  intros H1 H2 H3 H4 H5 H6 Hlba Hsec. assert (Zlen im_uuid = 16) as Hu by (unfold Zlen; by rewrite im_uuid_length).
  unfold boot_record. split_and!.
  - unfold store_u in *. by rewrite (store_length _ _ _ _ H6), (store_length _ _ _ _ H5), (store_length _ _ _ _ H4),
      (store_length _ _ _ _ H3), (store_length _ _ _ _ H2), (store_length _ _ _ _ H1).
  - rewrite (load_u_store_other 8 _ _ _ _ _ H6), (load_u_store_other 8 _ _ _ _ _ H5), (load_u_other 8 _ _ _ _ _ _ H4),
      (load_u_other 8 _ _ _ _ _ _ H3), (load_u_other 8 _ _ _ _ _ _ H2), (load_u_same 8 _ _ _ _ ltac:(done) H1) by (rewrite ?Zlen_replicate; solve [by_decide|left; by_decide]).
    f_equal. by apply Z.mod_small.
  - rewrite (load_u_store_other 2 _ _ _ _ _ H6), (load_u_store_other 2 _ _ _ _ _ H5), (load_u_other 2 _ _ _ _ _ _ H4),
      (load_u_other 2 _ _ _ _ _ _ H3), (load_u_same 2 _ _ _ _ ltac:(done) H2) by (rewrite ?Zlen_replicate; solve [by_decide|left; by_decide]).
    f_equal. by apply Z.mod_small.
  - by rewrite (load_u_store_other 1 _ _ _ _ _ H6), (load_u_store_other 1 _ _ _ _ _ H5), (load_u_other 1 _ _ _ _ _ _ H4),
      (load_u_same 1 _ _ _ _ ltac:(done) H3) by (rewrite ?Zlen_replicate; solve [by_decide|left; by_decide]).
  - by rewrite (load_u_store_other 1 _ _ _ _ _ H6), (load_u_store_other 1 _ _ _ _ _ H5),
      (load_u_same 1 _ _ _ _ ltac:(done) H4) by (rewrite ?Zlen_replicate; solve [by_decide|left; by_decide]).
  - rewrite <-Hu. by apply (load_store_same _ _ _ _ H6).
  - intros j Hj. unfold store_u, STAGE1_STAGE2_UUID, STAGE1_MBR_VERSION, STAGE1_BPB_OFFSET, STAGE1_BPB_SIZE, STAGE1_STAGE2_SIZE, STAGE1_STAGE2_LBA in *.
    rewrite (image_store_lookup _ _ _ _ j H6), Hu, decide_False by lia.
    rewrite (image_store_lookup _ _ _ _ j H5), decide_False by (rewrite Zlen_replicate; lia).
    rewrite (image_store_lookup _ _ _ _ j H4), decide_False by (unfold Zlen; rewrite le_bytes_length; lia).
    rewrite (image_store_lookup _ _ _ _ j H3), decide_False by (unfold Zlen; rewrite le_bytes_length; lia).
    rewrite (image_store_lookup _ _ _ _ j H2), decide_False by (unfold Zlen; rewrite le_bytes_length; lia).
    rewrite (image_store_lookup _ _ _ _ j H1), decide_False by (unfold Zlen; rewrite le_bytes_length; lia). done.
Qed.

(** A store that fits the boot record. *)
Lemma record_store off d m (Q : list char -> world E -> Prop) w :
  Zlen m = SECTOR_SIZE -> 0 <= off -> off + Zlen d <= SECTOR_SIZE ->
  (forall m', store off d m = Some m' -> Zlen m' = SECTOR_SIZE -> Q m' w) -> wp (c_access (store off d m)) Q w.
Proof.
  intros Hm Ho Hl HQ. destruct (store_is_Some off d m) as [m' Hs]; [done|by rewrite Hm|]. rewrite Hs. eapply wp_access; [done|].
  apply HQ; [done|]. unfold Zlen in *. by rewrite (store_length _ _ _ _ Hs).
Qed.

Lemma write_mbr_spec outfile mbr esplen bblen wr tb (Q : () -> world E -> Prop) w :
  im_at wr tb w -> Zlen mbr = SECTOR_SIZE -> 0 <= esplen <= HEAP_HI -> 0 <= bblen <= LEGACY_BOOTPART_SIZE ->
  (forall mbr' w', boot_record mbr mbr' im_uuid (boot_start esplen) (bblen / LBSIZE) -> im_at (wr ++ [(0, mbr')]) tb w' -> Q tt w') ->
  wp (write_mbr strerror progname outfile mbr esplen bblen) Q w.
Proof.
  intros Hw Hm He Hb HQ. unfold write_mbr.
  assert (0 <= START_SECT + esplen / LBSIZE <= UINT_MAX) as Hlba.
  { unfold START_SECT, LBSIZE, SECTOR_SIZE, MB_BLOCKS, HEAP_HI, UINT_MAX in *. pose proof (Z.div_pos esplen 512 ltac:(lia) ltac:(lia)). pose proof (Z.div_le_upper_bound esplen 512 1073741824 ltac:(lia) ltac:(lia)). lia. }
  assert (0 <= bblen / LBSIZE < 65536) as Hsec.
  { unfold LEGACY_BOOTPART_SIZE, LEGACY_BOOTPART_BLOCKS, LBSIZE, SECTOR_SIZE, MB_BLOCKS in *. pose proof (Z.div_pos bblen 512 ltac:(lia) ltac:(lia)). pose proof (Z.div_le_upper_bound bblen 512 2048 ltac:(lia) ltac:(lia)). lia. }
  rewrite sz_small32 by done. apply wp_bind, record_store; [done|done|by_decide|]. intros m1 H1 Hm1.
  apply wp_bind, record_store; [done|done|by_decide|]. intros m2 H2 Hm2. apply wp_bind, record_store; [done|done|by_decide|]. intros m3 H3 Hm3.
  apply wp_bind, record_store; [done|done|by_decide|]. intros m4 H4 Hm4. apply wp_bind, record_store; [done|done|by_decide|]. intros m5 H5 Hm5.
  apply wp_bind. eapply (im_syscall _ _ (fun r _ => sr_data r = im_uuid) wr tb wr tb); [done| |].
  { intros r e' Hs. destruct Hw as (_ & <- & <-). by apply im_generate in Hs. }
  intros r w1 Hd Hw1. rewrite Hd. apply wp_bind, record_store; [done|done|unfold Zlen; rewrite im_uuid_length; by_decide|]. intros m6 H6 Hm6.
  eapply pwrite_spec; [done|done|]. intros w2 Hw2. eapply HQ; [|done]. eapply record_of; try eassumption.
  split; [by apply Hlba|]. eapply Z.le_lt_trans; [apply Hlba|by_decide].
Qed.

(** *** The partition table *)

Lemma set_part_spec parts i start size name tag wr tb (Q : efi_parts -> world E -> Prop) w :
  im_at wr tb w -> tag = V_RESERVED \/ start mod MB_BLOCKS = 0 /\ size mod MB_BLOCKS = 0 -> Zlen name < EFI_PART_NAME_LEN ->
  (forall w', im_at wr tb w' -> Q (parts ++ [(i, DkPart start size name tag)]) w') -> wp (set_part progname parts i start size name tag) Q w.
Proof.
  intros Hw Hal Hname HQ. unfold set_part.
  replace (negb (tag =? V_RESERVED) && negb ((start mod MB_BLOCKS =? 0) && (size mod MB_BLOCKS =? 0))) with false.
  2:{ destruct Hal as [->|[-> ->]]; [done|]. by rewrite andb_false_r. }
  apply wp_bind, wp_bind. eapply (im_sys _ _ (fun _ _ => True) wr tb wr tb); [done| |].
  { intros r e' Hs. destruct Hw as (_ & <- & <-). split; [done|by eapply im_printf]. }
  intros r w1 _ Hw1. apply wp_ret. rewrite (proj2 (Z.leb_gt _ _)) by done. by apply wp_ret, HQ.
Qed.

Lemma write_efi_spec outfile esplen wr tb (Q : Z -> world E -> Prop) w :
  im_at wr tb w -> roomy esplen im_last ->
  (forall w', im_at wr (Some (image_table esplen im_last)) w' -> Q (boot_start esplen) w') -> wp (write_efi strerror progname outfile esplen) Q w.
Proof.
  intros Hw Hroom HQ. destruct (roomy_starts _ _ Hroom) as (Hs & Hms & Hmb & Hmr). destruct (root_size_ok _ _ Hroom) as [Hz Hmz].
  assert (esplen / LBSIZE <= 2097152) as Hb.
  { apply Z.div_le_upper_bound; [done|]. destruct Hroom as [Hl _]. unfold HEAP_HI, LBSIZE, SECTOR_SIZE in *. lia. }
  destruct Hroom as (Hl & Hm & Hr & Hlast). unfold write_efi. cbv zeta. apply wp_bind.
  eapply (im_syscall _ _ (fun r _ => sr_ret r = 0 /\ head (sr_vals r) = Some im_last) wr tb wr tb); [done| |].
  { intros r e' Hst. destruct Hw as (_ & <- & <-). destruct (im_init _ _ _ _ _ Hst) as (? & ? & ? & ?). by split_and!. }
  intros r w1 [Hr0 Hv] Hw1. rewrite Hr0. cbn [Z.eqb negb]. apply wp_bind. eapply wp_access; [done|].
  rewrite !(u64_small (START_SECT + esplen / LBSIZE)) by (unfold START_SECT, MB_BLOCKS; lia). fold (boot_start esplen).
  rewrite !(u64_small (boot_start esplen + LEGACY_BOOTPART_BLOCKS)) by (unfold boot_start, START_SECT, LEGACY_BOOTPART_BLOCKS, MB_BLOCKS; lia).
  fold (root_start esplen). replace (im_last + 1 - (EFI_MIN_RESV_SIZE + root_start esplen)) with (root_room esplen im_last) by (unfold root_room; lia).
  assert (0 <= root_room esplen im_last < 2 ^ 64 /\ 0 <= im_last + 1 - EFI_MIN_RESV_SIZE < 2 ^ 64) as [Hroomy Hres].
  { unfold root_room, root_start, boot_start, START_SECT, LEGACY_BOOTPART_BLOCKS, EFI_MIN_RESV_SIZE, MB_BLOCKS in *. lia. }
  rewrite !u64_small, P2ALIGN_down by done. fold (root_size esplen im_last).
  apply wp_bind, (set_part_spec _ _ _ _ _ _ wr tb); [done|by right|by_decide|]. intros w2 Hw2.
  apply wp_bind, (set_part_spec _ _ _ _ _ _ wr tb); [done|by right|by_decide|]. intros w3 Hw3.
  apply wp_bind, (set_part_spec _ _ _ _ _ _ wr tb); [done|by right|by_decide|]. intros w4 Hw4.
  apply wp_bind, (set_part_spec _ _ _ _ _ _ wr tb); [done|by left|by_decide|]. intros w5 Hw5. cbn [app]. fold (image_table esplen im_last).
  apply wp_bind. eapply (im_sys _ _ (fun r _ => r = 0) wr tb wr (Some (image_table esplen im_last))); [done| |].
  { intros r' e' Hst. destruct Hw5 as (_ & <- & <-). by apply im_efi_write in Hst. }
  intros r' w6 -> Hw6. cbn [Z.eqb negb]. apply wp_ret. rewrite sz_small32 by (unfold boot_start, START_SECT, MB_BLOCKS, UINT_MAX; lia). by apply HQ.
Qed.

(** *** The boot program *)

Lemma multiboot_spec n b len off hdr (Q : option Z -> world E -> Prop) w :
  first_header hdr b -> 0 <= off <= hdr -> off mod 4 = 0 -> hdr < len -> hdr - off < 4 * Z.of_nat n ->
  Q (Some hdr) w -> wp (multiboot_loop n b len off) Q w.
Proof.
  intros Hhdr. destruct Hhdr as (Hok & Hmod & Hfirst). pose proof (header_range _ _ Hok) as [_ Hrange].
  revert off. induction n as [|n IH]; intros off Hoff Hom Hlen Hn HQ; [lia|]. cbn [multiboot_loop].
  rewrite (proj2 (Z.leb_gt len off)) by lia. unfold header_ok, mb_magic, mb_flags, mb_checksum in *. destruct (decide (off = hdr)) as [->|Hne].
  - destruct Hok as (Hm & flags & sum & Hf & Hs & Heq). apply wp_bind. eapply wp_access; [exact Hm|]. rewrite Z.eqb_refl. cbn [negb].
    apply wp_bind. eapply wp_access; [exact Hf|]. apply wp_bind. eapply wp_access; [exact Hs|]. rewrite Heq, Z.eqb_refl. cbn [negb]. by apply wp_ret.
  - assert (off + 4 <= hdr) as Hnext.
    { pose proof (Z.div_mod off 4 ltac:(done)). pose proof (Z.div_mod hdr 4 ltac:(done)). lia. }
    assert ((off + 4) mod 4 = 0) as Hom' by (rewrite <-Zplus_mod_idemp_r; change (4 mod 4) with 0; by rewrite Z.add_0_r).
    assert (forall k, 0 <= k <= 8 -> is_Some (load_u 4 (off + k) b)) as Hload by (intros k Hk; apply load_u_is_Some; lia).
    destruct (Hload 0) as [magic Hm]; [lia|]. destruct (Hload 4) as [flags Hf]; [lia|]. destruct (Hload 8) as [sum Hs]; [lia|].
    apply wp_bind. eapply wp_access; [exact Hm|]. destruct (Z.eqb_spec magic MB_HEADER_MAGIC) as [->|]; cbn [negb]; [|apply IH; [lia|done|done|lia|done]].
    apply wp_bind. eapply wp_access; [exact Hf|]. apply wp_bind. eapply wp_access; [exact Hs|].
    destruct (Z.eqb_spec (u32 (- u32 (flags + MB_HEADER_MAGIC))) sum) as [Heq|]; cbn [negb]; [|apply IH; [lia|done|done|lia|done]].
    exfalso. apply (Hfirst off); [lia|done|]. split; [done|]. by exists flags, sum.
Qed.

Lemma write_biosboot_spec outfile start b len hdr wr tb (Q : () -> world E -> Prop) w :
  im_at wr tb w -> first_header hdr b -> hdr < len -> hdr + 32 <= Zlen b -> Zlen b = LEGACY_BOOTPART_SIZE ->
  0 <= start <= 2099200 ->
  (forall b' w', boot_program b b' hdr (start + LEGACY_BOOTPART_BLOCKS) -> im_at (wr ++ [(start * LBSIZE, b')]) tb w' -> Q tt w') ->
  wp (write_biosboot strerror progname outfile start b len) Q w.
Proof.
  intros Hw Hhdr Hlen Hl Hb Hst HQ. pose proof (header_range _ _ (proj1 Hhdr)) as [Hpos _]. unfold write_biosboot, find_multiboot.
  apply wp_bind, (multiboot_spec _ _ _ _ hdr); [done|lia|done|done|lia|].
  rewrite !sz_small32 by (unfold LBSIZE, SECTOR_SIZE, LEGACY_BOOTPART_BLOCKS, MB_BLOCKS, UINT_MAX; lia).
  destruct (store_u_is_Some 8 (hdr + mb_bss_end_addr) (start + LEGACY_BOOTPART_BLOCKS) b) as [b' Hs]; [done|unfold mb_bss_end_addr; lia..|].
  rewrite Hs. apply wp_bind. eapply wp_access; [done|]. eapply pwrite_spec; [done| |].
  { unfold Zlen in *. unfold store_u in Hs. by rewrite (store_length _ _ _ _ Hs). }
  intros w1 Hw1. eapply HQ; [|done]. split_and!.
  - unfold store_u in Hs. by eapply store_length.
  - rewrite (load_u_same 8 _ _ _ _ ltac:(done) Hs). f_equal. apply Z.mod_small. change (256 ^ 8) with (2 ^ 64). unfold LEGACY_BOOTPART_BLOCKS, MB_BLOCKS. lia.
  - intros j Hj. unfold store_u in Hs. rewrite (image_store_lookup _ _ _ _ j Hs), decide_False; [done|]. unfold Zlen. rewrite le_bytes_length. lia.
Qed.

(** *** The program *)

Lemma padded_length size b : Zlen b <= size -> Zlen (padded size b) = size.
Proof. intros Hl. unfold padded. rewrite Zlen_app, Zlen_replicate. unfold Zlen in *. lia. Qed.
Lemma padded_full size b : Zlen b = size -> padded size b = b.
Proof. intros Hl. unfold padded. unfold Zlen in Hl. replace (Z.to_nat size - length b)%nat with 0%nat by lia. by rewrite app_nil_r. Qed.
Lemma padded_0 b : padded 0 b = b.
Proof. unfold padded. replace (Z.to_nat 0 - length b)%nat with 0%nat by lia. by rewrite app_nil_r. Qed.

(** C27: the partitions that [write_efi] puts in the table do not overlap, start and end within
    the usable part of the disk, and those that hold data, which are all but the reserved one at
    the end, are aligned to a megabyte; its result, which tells where the boot program goes, is the
    start of the boot partition. *)
Theorem write_efi_layout outfile esplen w :
  good w -> roomy esplen im_last ->
  wp (write_efi strerror progname outfile esplen) (fun start w' =>
    exists parts, im_table (w_env w') = Some parts /\ layout_ok im_last parts /\
      exists p, parts !! 1%nat = Some (1, p) /\ p_start p = start /\ p_tag p = V_BOOT) w.
Proof.
  intros Hg Hroom. eapply write_efi_spec; [by split_and!|done|]. intros w' (_ & _ & Ht). exists (image_table esplen im_last).
  split_and!; [done|by apply image_table_layout|]. by eexists.
Qed.

Definition image_args (o m e b : cstr) : list cstr := [cs "-o"; o; cs "-m"; m; cs "-e"; e; cs "-b"; b].

(** C26: [format_image] writes the image: the boot record with the place and the size of the boot
    program, the table, the EFI system partition at the start of the first partition, and at the
    start of the second the boot program, whose header says where the root partition starts. *)
Theorem format_image_formats fuel o m e b mbr esp bb hdr w :
  good w -> im_file m = Some mbr -> im_file e = Some esp -> im_file b = Some bb ->
  Zlen mbr = SECTOR_SIZE -> load_u 2 MBB_SIGNATURE mbr = Some MBB_MAGIC -> roomy (Zlen esp) im_last ->
  Zlen bb <= LEGACY_BOOTPART_SIZE -> first_header hdr bb -> hdr + 32 <= LEGACY_BOOTPART_SIZE ->
  Forall (fun f => (length f < fuel)%nat) [mbr; esp; bb] ->
  wp (main strerror progname fuel (image_args o m e b)) (fun st w' =>
    st = 0 /\ im_table (w_env w') = Some (image_table (Zlen esp) im_last) /\
    exists mbr' bb', boot_record mbr mbr' im_uuid (boot_start (Zlen esp)) (Zlen bb / LBSIZE) /\
      boot_program (padded LEGACY_BOOTPART_SIZE bb) bb' hdr (root_start (Zlen esp)) /\
      im_writes (w_env w') = im_writes (w_env w) ++ [(0, mbr'); (START_SECT * LBSIZE, esp); (boot_start (Zlen esp) * LBSIZE, bb')]) w.
Proof.
  intros Hg Hm He Hb Hlm Hsig Hroom Hlb Hhdr Hl32 Hfuel. rewrite !list.Forall_cons in Hfuel. destruct Hfuel as (Hfm & Hfe & Hfb & _).
  pose proof (Zlen_nonneg bb). pose proof (header_range _ _ (proj1 Hhdr)) as [Hpos Hrange].
  pose proof Hroom as ([He0 Hemax] & Halign & _).
  unfold main, image_args. change (getopts format_opts _) with [OptChar "o" (Some o); OptChar "m" (Some m); OptChar "e" (Some e); OptChar "b" (Some b)].
  apply wp_bind, wp_ret. cbn [FormatImage.biosbootpath FormatImage.esppath FormatImage.mbrpath FormatImage.outpath].
  change (negb (bool_decide (operands format_opts _ = []))) with false. cbv iota. unfold format.
  set (wr := im_writes (w_env w)). set (tb := im_table (w_env w)). assert (im_at wr tb w) as Hw by by split_and!. clearbody wr tb. apply wp_bind.
  eapply (im_sys _ _ (fun fd _ => 0 <= fd) wr tb wr tb); [done| |].
  { intros r e' Hs. destruct Hw as (_ & <- & <-). by apply im_open_out in Hs. }
  intros fd w1 Hfd Hw1. destruct (Z.eqb_spec fd (-1)); [lia|].
  apply wp_bind, (read_file_spec _ _ mbr _ wr tb); [done|done|done|by rewrite Hlm|done|right; by rewrite Hlm|]. intros w2 Hw2.
  rewrite padded_full by done. apply wp_bind. eapply wp_access; [done|]. rewrite Z.eqb_refl. cbn [negb].
  apply wp_bind, (read_file_spec _ _ esp _ wr tb); [done|done|done|done|done|by left|]. intros w3 Hw3. rewrite padded_0, Halign. cbn [Z.eqb negb].
  apply wp_bind, (read_file_spec _ _ bb _ wr tb); [done|done|done|by etransitivity|done|by right|]. intros w4 Hw4.
  apply wp_bind, (write_mbr_spec _ _ _ _ wr tb); [done|done|done|done|]. intros mbr' w5 Hmbr Hw5.
  apply wp_bind. eapply write_efi_spec; [done|done|]. intros w6 Hw6.
  apply wp_bind. eapply pwrite_spec; [done|done|]. intros w7 Hw7.
  apply wp_bind. eapply (write_biosboot_spec _ _ _ _ hdr); [done|by apply first_header_app|lia|by rewrite padded_length|by apply padded_length| |].
  { unfold boot_start, START_SECT, LBSIZE, SECTOR_SIZE, MB_BLOCKS, HEAP_HI in *. pose proof (Z.div_pos (Zlen esp) 512 ltac:(lia) ltac:(lia)).
    pose proof (Z.div_le_upper_bound (Zlen esp) 512 2097152 ltac:(lia) ltac:(lia)). lia. }
  intros bb' w8 Hbb Hw8. apply wp_bind.
  match type of Hw8 with im_at ?wr8 ?tb8 _ => eapply (im_sys _ _ (fun _ _ => True) wr8 tb8 wr8 tb8); [exact Hw8| |] end.
  { intros r e' Hs. destruct Hw8 as (_ & Hwr & Htb). apply im_close in Hs as [? ?]. split_and!; [done|congruence..]. }
  intros r w9 _ (_ & Hwr & Htb). apply wp_ret. split_and!; [done|done|]. exists mbr', bb'. split_and!; [done|done|]. rewrite Hwr. by rewrite <-!app_assoc.
Qed.
End spec.

(** ** A system *)

(** The open files, the next descriptor, and what was written. *)
Record img_env := ImgE {
  ig_content : Z -> list char; ig_rest : Z -> list char; ig_next : nat;
  ig_writes : list (Z * list char); ig_table : option efi_parts
}.

Fixpoint decode_parts (args : list sarg) : efi_parts :=
  match args with
  | AZ i :: AZ start :: AZ size :: AS name :: AZ tag :: args => (i, DkPart start size name tag) :: decode_parts args
  | _ => []
  end.

Lemma decode_part_args parts : decode_parts (concat (part_args <$> parts)) = parts.
Proof. induction parts as [|[i [s z n t]] parts IH]; [done|]. cbn. by rewrite IH. Qed.

Section system.
Context (files : cstr -> option (list char)) (last : Z).

Definition img_step (name : string) (args : list sarg) (e : img_env) : sysret * img_env :=
  match args with
  | [AS path; AS _] =>
      let fd := Z.of_nat (ig_next e) in let b := default [] (files path) in
      (SysRet fd 0 [] [], ImgE (fun x => if decide (x = fd) then b else ig_content e x) (fun x => if decide (x = fd) then b else ig_rest e x)
        (S (ig_next e)) (ig_writes e) (ig_table e))
  | [AZ fd; AZ n] =>
      if decide (name = "read"%string) then
        let d := take (Z.to_nat n) (ig_rest e fd) in
        (SysRet (Zlen d) 0 d [], ImgE (ig_content e) (fun x => if decide (x = fd) then drop (Z.to_nat n) (ig_rest e fd) else ig_rest e x) (ig_next e) (ig_writes e) (ig_table e))
      else (SysRet 0 0 [] [last], e)
  | [AZ fd; AS b; AZ off] => (SysRet (Zlen b) 0 [] [], ImgE (ig_content e) (ig_rest e) (ig_next e) (ig_writes e ++ [(off, b)]) (ig_table e))
  | AZ fd :: parts =>
      if decide (name = "efi_write"%string) then (SysRet 0 0 [] [], ImgE (ig_content e) (ig_rest e) (ig_next e) (ig_writes e) (Some (decode_parts parts)))
      else (SysRet 0 0 [] [Zlen (ig_content e fd)], e)
  | _ => (SysRet 0 0 (replicate 16 "u"%char) [], e)
  end.

Definition img_kernel : Kernel img_env := img_step.

Definition img_laws : @ImgEnv img_env img_kernel.
Proof.
  refine (@Build_ImgEnv img_env img_kernel files ig_content ig_rest ig_writes ig_table last (replicate 16 "u"%char) eq_refl _ _ _ _ _ _ _ _ _ _).
  - intros path e r e' [= <- <-]. cbn. split_and!; [lia|done..].
  - intros path b e r e' Hb [= <- <-]. cbn. rewrite Hb, !decide_True by done. split_and!; [lia|done..].
  - intros fd e r e' [= <- <-]. done.
  - intros fd n e r e' Hn [= <- <-]. cbn. rewrite decide_True by done. rewrite take_drop. split_and!; try done.
    + unfold Zlen. rewrite length_take. lia.
    + intros Hne. unfold Zlen. rewrite length_take. destruct (ig_rest e fd); [done|]. cbn. lia.
  - intros fd b off e r e' [= <- <-]. done.
  - intros e r e' [= <- <-]. done.
  - intros fd n e r e' [= <- <-]. done.
  - intros fd parts e r e' Hs. change (sys_step _ _ _) with (img_step "efi_write" (AZ fd :: concat (part_args <$> parts)) e) in Hs.
    pose proof (decode_part_args parts) as Hd. destruct parts as [|[i p] parts]; [by injection Hs as <- <-|].
    cbn in Hs, Hd. injection Hs as <- <-. cbn. by rewrite Hd.
  - intros s e r e' [= <- <-]. done.
  - intros fd e r e' [= <- <-]. done.
Defined.
End system.

(** A boot record, a system partition of a megabyte and a boot program with a header at 8. *)
Definition sample_mbr : list char := replicate 510 "x"%char ++ le_bytes 2 MBB_MAGIC.
Definition sample_esp : list char := replicate (Z.to_nat PART_ALIGN) "e"%char.
Definition sample_boot : list char :=
  replicate 8 NUL ++ le_bytes 4 MB_HEADER_MAGIC ++ le_bytes 4 0 ++ le_bytes 4 (u32 (- MB_HEADER_MAGIC)) ++ replicate 600 "b"%char.
Definition sample_files (path : cstr) : option (list char) :=
  if decide (path = cs "mbr") then Some sample_mbr else if decide (path = cs "esp") then Some sample_esp
  else if decide (path = cs "boot") then Some sample_boot else None.
Definition img_world : world img_env := World 0 [] [] (ImgE (fun _ => []) (fun _ => []) 3 [] None).

Lemma sample_esp_length : Zlen sample_esp = PART_ALIGN.
Proof. unfold sample_esp. by rewrite Zlen_replicate, Z2Nat.id. Qed.
Lemma sample_roomy : roomy (Zlen sample_esp) 8000000.
Proof. rewrite sample_esp_length. split_and!; by vm_compute. Qed.
Lemma sample_header : first_header 8 sample_boot.
Proof.
  split_and!; [split; [by vm_compute|]; exists 0, (u32 (- MB_HEADER_MAGIC)); split_and!; by vm_compute|by vm_compute|].
  intros o Ho Hm (Hmagic & _). assert (o = 0 \/ o = 4) as [-> | ->]; [|by vm_compute in Hmagic..].
  pose proof (Z.div_mod o 4 ltac:(done)). lia.
Qed.
Lemma fuel_above (f : list char) n : Zlen f < n -> (length f < Z.to_nat n)%nat.
Proof. unfold Zlen. lia. Qed.
Lemma sample_fuel : Forall (fun f : list char => (length f < Z.to_nat (2 * PART_ALIGN))%nat) [sample_mbr; sample_esp; sample_boot].
Proof.
  repeat apply List.Forall_cons; [apply fuel_above..|constructor]; [by vm_compute|rewrite sample_esp_length; by vm_compute|by vm_compute].
Qed.

Lemma format_image_formats_witness :
  wp (@main img_env (img_kernel sample_files 8000000) LP64 (fun _ => []) (cs "format_image") (Z.to_nat (2 * PART_ALIGN)) (image_args (cs "out") (cs "mbr") (cs "esp") (cs "boot")))
    (fun st w' => st = 0 /\ ig_table (w_env w') = Some (image_table (Zlen sample_esp) 8000000) /\
      exists mbr' bb', boot_record sample_mbr mbr' (replicate 16 "u"%char) (boot_start (Zlen sample_esp)) (Zlen sample_boot / LBSIZE) /\
        boot_program (padded LEGACY_BOOTPART_SIZE sample_boot) bb' 8 (root_start (Zlen sample_esp)) /\
        ig_writes (w_env w') = ig_writes (w_env img_world) ++ [(0, mbr'); (START_SECT * LBSIZE, sample_esp); (boot_start (Zlen sample_esp) * LBSIZE, bb')])
    img_world.
Proof.
  apply (@format_image_formats img_env (img_kernel sample_files 8000000) (img_laws sample_files 8000000) LP64 (fun _ => []) (cs "format_image")
    (Z.to_nat (2 * PART_ALIGN)) (cs "out") (cs "mbr") (cs "esp") (cs "boot") sample_mbr sample_esp sample_boot 8 img_world).
  - by split; constructor.
  - reflexivity.
  - reflexivity.
  - reflexivity.
  - by vm_compute.
  - by vm_compute.
  - apply sample_roomy.
  - by vm_compute.
  - apply sample_header.
  - by vm_compute.
  - apply sample_fuel.
Defined.

Lemma write_efi_layout_witness :
  wp (@write_efi img_env (img_kernel sample_files 8000000) LP64 (fun _ => []) (cs "format_image") 3 (Zlen sample_esp)) (fun start w' =>
    exists parts, ig_table (w_env w') = Some parts /\ layout_ok 8000000 parts /\
      exists p, parts !! 1%nat = Some (1, p) /\ p_start p = start /\ p_tag p = V_BOOT) img_world.
Proof.
  apply (@write_efi_layout img_env (img_kernel sample_files 8000000) (img_laws sample_files 8000000) LP64 (fun _ => []) (cs "format_image") 3 (Zlen sample_esp) img_world).
  - by split; constructor.
  - apply sample_roomy.
Defined.
